(* ===== verification/_CoqProject ===== *)
-Q . S2P
Prelude.v
Support.v
GenericAssetTypes.v
GenericAsset.v
GenericAssetProps.v
GenericAssetInv.v
GenericAssetTheorems.v
GenericAssetOps.v
GenericAssetAuth.v
MultiCurrency.v
Cennzx.v
CennzxPricing.v
CennzxTheorems.v
Search.v
GovernanceVotes.v
Governance.v
GovernanceProps.v
GovernanceTheorems.v
GovernanceRuntime.v
AddressMapping.v
TokenApprovals.v
NftTypes.v
Nft.v
NftProps.v
NftTheorems.v
NftRuntime.v
NftQueries.v
EthAbi.v
EthBridgeTypes.v
EthBridge.v
EthBridgeOcw.v
EthBridgeProps.v
EthBridgeTheorems.v
EthBridgeSafety.v
EthyGadget.v
EthyTheorems.v
Issuance.v
Erc20Peg.v
Erc20PegProps.v
Erc20PegQueue.v
Erc20PegTheorems.v
Erc20PegBacking.v
Erc20PegRuntime.v
Erc20PegDemo.v
EthStateOracle.v
EthStateOracleTheorems.v
EthStateOracleRuntime.v
StakingTypes.v
SlashingSpans.v
StakingState.v
Staking.v
StakingSlashing.v
StakingEras.v
StakingRewards.v
StakingInv.v
StakingOps.v
StakingSlashOps.v
StakingTheorems.v
StakingProps.v
StakingSessions.v
StakingRuntime.v
StakingDemo.v
StakingFlow.v
RewardsTheorems.v
RewardsInv.v
RewardsFlow.v
StakingWitnesses.v
OffchainElection.v
TransactionPayment.v
TransactionPaymentRuntime.v
EvmRuntime.v
FeeWitnesses.v
PrecompileData.v
PrecompileDataProps.v
EthWallet.v
PrecompileUtils.v
Precompiles.v
PrecompileTheorems.v
PrecompileCallers.v
OraclePrecompile.v
