(* ===== verification/Prelude.v ===== *)
(** * CENNZnet runtime: a verification development

    CENNZnet is a Substrate chain.  Its runtime is a set of FRAME pallets under
    [src/crml], each a storage, a set of extrinsics (transactions), hooks and
    functions that other pallets call.  This library models the pallets that
    hold value and decide about it, and proves what makes them correct.

    ** The program and its parts

    - _generic-asset_ is the ledger: free and reserved balances per asset and
      account, issuance, locks, permissions to mint, burn and update, and the
      imbalances (linear tokens for value taken out of or put into accounts).
      It offers itself to the other pallets as [MultiCurrency] and, for one
      asset at a time, as the FRAME [Currency] traits ([AssetCurrency]).
    - _cennzx_ is a constant product exchange with one pool per asset against
      the core asset.  Its pools are accounts of the ledger, reached through
      [MultiCurrency]; it also prices and executes fee payments.
    - _governance_ runs council proposals: a sponsor reserves a bond, the
      council votes in a 128-bit field, an approved proposal goes to a
      referendum in which stakers can veto, and what survives is scheduled for
      enactment.
    - _nft_ keeps collections, series and tokens, fixed price sales, auctions,
      offers, marketplaces and royalties; payments go through [MultiCurrency],
      and each transfer is announced to an [OnTransferSubscriber].
    - _token-approvals_ keeps ERC-20/721 approvals and is that subscriber.
    - _eth-bridge_ decides claims about Ethereum: anyone claims that an event
      happened or asks for a contract call, the notaries (validators with a
      bridge key) ask their own Ethereum nodes and vote in unsigned
      transactions, and a threshold decides.  In the other direction it asks
      the notaries to sign messages, whose requests leave the chain in the
      block digest, and announces changes of the notary set.
    - _ethy-gadget_ is the node's side of it: it signs the requests in
      finalized blocks, gossips witnesses, checks those of others and announces
      a proof once the threshold of witnesses is there.
    - _erc20-peg_ mints an asset of the ledger for verified ERC-20 deposits and
      burns it for withdrawals, which the notaries sign; large claims are
      delayed and worked off in idle block time.
    - _eth-state-oracle_ answers remote Ethereum calls optimistically: bonded
      relayers respond, anyone bonded can challenge, which the bridge settles,
      and the response is passed to the requester's contract in a callback.
    - _staking_ keeps bonds, validators and nominators, eras, elections and
      slashes; its _rewards_ part computes what an era earns, schedules it per
      validator and pays it in idle block time.  It locks and slashes accounts
      of the ledger, the session pallet drives its eras, and governance asks it
      for stakes.
    - _transaction-payment_ takes the fee of a transaction before it runs, in
      any asset through the exchange, gives back the excess afterwards and
      adjusts the fee multiplier from block to block.
    - _eth-wallet_ runs calls that an Ethereum wallet signed, paying their fee.
    - The _runtime_ wires the pallets to each other and to the EVM: which
      address reaches which precompile, fees in other assets through the fee
      proxy, balances with 18 decimals, priority fees.  The _precompiles_ are the
      contracts through which the EVM reaches the pallets: tokens, NFTs, the
      exchange, the peg and the state oracle; they read and write the Solidity
      ABI, meter gas and dispatch runtime calls for their caller.
    - _support_ holds the interfaces, the mapping between EVM addresses and
      accounts and the scaling of wei to CPAY; _primitives_ the shared types.

    ** Files and what they model

    - [Prelude]: outcomes, the storage monad, machine integers, sums over
      finite maps, tactics and lemmas.  [Support]: shared types, origins and
      errors ([src/primitives/src/types.rs], the [decl_error!] blocks), the
      interface of [Perbill] and [FixedU128].
    - [GenericAssetTypes] ([types.rs], [imbalances.rs]), [GenericAsset]
      ([lib.rs], [impls.rs] of [src/crml/generic-asset/src]): the record
      [State] has one field per storage item; each function of [Module<T>],
      each extrinsic and each currency trait method is one definition of the
      same name, with the prefix [ac_] for [AssetCurrency] and [mc_] for
      [MultiCurrency].  [GenericAssetProps] and [GenericAssetInv] hold the
      accounting lemmas, the extrinsics as data ([Call], [dispatch], [run])
      and the solvency invariant [inv]; the theorems are in
      [GenericAssetTheorems], [GenericAssetOps] and [GenericAssetAuth].
    - [MultiCurrency]: the trait as a class, the laws its clients rely on, and
      the instance by which the ledger discharges them.
    - [Cennzx] ([lib.rs], [impls.rs], [types.rs] of [src/crml/cennzx/src]),
      [CennzxPricing] (price arithmetic), [CennzxTheorems] (the pallet, proved
      against the class).
    - [Search]: [slice::binary_search].  [GovernanceVotes] and [Governance]
      ([types.rs], [lib.rs] of [src/crml/governance/src]); [GovernanceProps]
      (invariant and step relation), [GovernanceTheorems], and
      [GovernanceRuntime] (reachable states, the pallet on top of the ledger).
    - [AddressMapping] ([src/crml/support/src/lib.rs]), [TokenApprovals]
      ([src/crml/token-approvals/src/lib.rs]).
    - [NftTypes] and [Nft] ([types.rs], [lib.rs] of [src/crml/nft/src]),
      [NftProps], [NftTheorems], [NftRuntime] (the pallet on top of the ledger
      and the approvals, with concrete runs) and [NftQueries] (queries over RPC
      and the upgrade of [migration.rs]).
    - [EthAbi]: ABI words, deposit events, withdraw messages and hex strings
      ([src/crml/support/src/lib.rs], [types.rs] of erc20-peg and eth-bridge).
    - [EthBridgeTypes] ([types.rs]), [EthBridge] (storage operations) and
      [EthBridgeOcw] (offchain worker), both [lib.rs] of
      [src/crml/eth-bridge/src]; [EthBridgeProps] (effect of each operation),
      [EthBridgeTheorems] (step relation, invariant [bridge_ok]),
      [EthBridgeSafety] (theorems and concrete runs).
    - [EthyGadget] ([witness_record.rs], [gossip.rs], [worker.rs] of
      [src/ethy-gadget/src]) and [EthyTheorems].
    - [Issuance]: what a pallet that mints and burns relies on
      ([MultiCurrencyIssuance]), discharged by the ledger.  [Erc20Peg]
      ([src/crml/erc20-peg/src/lib.rs]); [Erc20PegProps] (effects),
      [Erc20PegQueue] and [Erc20PegTheorems] (delayed claims),
      [Erc20PegBacking] (deposits cover the issuance), [Erc20PegRuntime] (the
      peg on top of bridge and ledger), [Erc20PegDemo] (concrete runs).
    - [EthStateOracle] ([src/crml/eth-state-oracle/src/lib.rs]),
      [EthStateOracleTheorems] and [EthStateOracleRuntime].
    - [StakingTypes] (ledgers, election data), [SlashingSpans] and
      [StakingState] (storage and environment), [Staking] (bonds, roles and
      administration), [StakingSlashing] ([slashing.rs] and deferred slashes),
      [StakingEras] (elections, eras, sessions, hooks): [lib.rs] and
      [slashing.rs] of [src/crml/staking/src].  [StakingInv], [StakingOps] and
      [StakingSlashOps] show that each operation keeps the invariant
      [staking_ok], [StakingTheorems] that reachable states satisfy it;
      [StakingProps], [StakingSessions] and [StakingFlow] hold
      the properties of withdrawals, elections, eras, spans and of slashed
      value; [StakingRuntime] is the pallet on top of the ledger, [StakingDemo]
      and [StakingWitnesses] the concrete runs.  [OffchainElection]
      ([offchain_election.rs]): the worker that computes solutions.
    - [StakingRewards] ([rewards/mod.rs], [types.rs], [migration.rs]),
      [RewardsTheorems] (amounts, payouts in idle blocks), [RewardsInv] (types of what is stored), [RewardsFlow] (on the ledger).
    - [TransactionPayment] ([lib.rs], [payment.rs], [types.rs], [constants.rs]
      of [src/crml/transaction-payment/src]) and [TransactionPaymentRuntime]
      (properties, and the pallet on top of ledger, exchange and rewards).
    - [EvmRuntime] ([precompiles.rs], [runner.rs] and the EVM parts of
      [impls.rs] in [src/runtime/src]); [FeeWitnesses] holds the concrete runs of
      both.
    - [PrecompileData] ([src/evm-precompiles/utils/src/data.rs]): reader, writer
      and the types of [EvmData]; [PrecompileDataProps].
    - [PrecompileUtils] ([src/evm-precompiles/utils/src/lib.rs]): gasometer,
      reverts, logs, selectors, modifiers, dispatch.  [Precompiles] ([lib.rs] of
      [erc20], [erc721], [nft], [cennzx] and [erc20-peg] in
      [src/evm-precompiles]); a contract is a computation on its gasometer, its
      input and the storage of the pallets behind it ([PState]).
      [PrecompileTheorems] (effects of the token contracts, metering, encoded
      calls), [PrecompileCallers] (the other contracts, encodings, concrete
      runs), [OraclePrecompile] ([src/evm-precompiles/state-oracle/src/lib.rs],
      with its theorems).
    - [EthWallet] ([lib.rs], [ethereum.rs] of [src/crml/eth-wallet/src]).

    ** How code becomes definitions

    A dispatchable function is a computation of [M E S A]: it takes the storage
    and returns an outcome (a value, an error, a panic) with the storage it
    leaves.  An error keeps the writes made before it, as FRAME does, unless
    the code says [#[transactional]].  Storage maps are [gmap]s; a map with a
    default is read with [sget].  Integers are [Z] with the width written out;
    unchecked arithmetic wraps, as in the release profile of the workspace,
    [U256] arithmetic of the prices panics on overflow.  Everything is
    executable, so the witnesses run the code on concrete storage.  The only
    recursion that is not structural is [binary_search], whose fuel is the
    length of the slice plus one; each step halves the interval, and the
    lemmas of [Search] show that the fuel is never exhausted on an ordered
    slice.  The digits of a message length ([EthWallet]) have the fuel 20, enough
    for every [u64], those of a serial number ([token_uri]) the fuel 10, enough
    for every [u32]; a client of the paged listings gets one page more than there
    are listings, which the theorem shows to be enough.  The search for the length
    of a solution has the fuel 32, as its step halves from below 2^31
    ([search_fuel]); the loops after it move within the number of voters.

    ** What stands for code outside the repository

    [GaConfig]: the account that receives dust and what [frame_system] answers
    about account references.  [Hashing]: the 256-bit hash of pool addresses.
    [PermillOps] and [permill_from_rational]: [Permill] of [sp_arithmetic].
    [GovEnv]: staking, identity registrations and the scheduler.  Decoding and
    dispatching the call of an enacted proposal are variables of a section.
    [BridgeConfig] and [BridgeEnv]: the bridge's constants, [Percent], the
    clock, the session and the subscribers; [EthereumRpc]: the Ethereum node.
    [EthyCrypto]: signatures, key recovery and the threshold of the gadget.
    [PegConfig]: hash and account decoding of the peg; it sees the bridge as
    [EventClaimVerifier] with [VerifierLaws].  [OracleConfig] and [OracleEnv]:
    constants of the oracle, the EVM and fee payment, with [OracleEnvLaws].
    [StakingConfig] and [StakingEnv]: the constants of staking, the session
    pallet and the currency it locks and slashes; [NposElections]: the election
    algorithms; [RewardsConfig] and [RewardCurrency] likewise for rewards;
    [PerbillOps] and [FixedU128Ops]: the fixed point types of [sp_arithmetic];
    [FeeConfig] and [FeeEnv]: fee constants, the currency and the exchange;
    [EvmEnv]: the EVM and its gas price; [Target]: the width of [usize];
    [WalletEnv]: hashing, key recovery, base64 and the dispatch of calls;
    [OffchainElectionEnv]: what the offchain worker uses of
    [sp_npos_elections], its seed and pool; [PrecompileEnv]: Keccak-256, RLP, the printing of errors and weights.  The
    laws these are documented to obey are classes of their own ([PerbillLaws],
    [StakingEnvLaws], [FeeConfigLaws], [WalletLaws] and so on).
    Theorems that depend on one of these state what they need as hypotheses,
    and a witness instantiates them.

    ** What the theorems show

    - Ledger: from genesis on, every sequence of extrinsics keeps the issuance
      of an asset equal to what accounts hold, within [u128]
      ([genesis_solvent], [run_solvent]); [make_transfer] refines an abstract
      transfer; extrinsics are atomic; issuance and permissions change only by
      the authority of the permissions; reserves, slashes, deposits,
      withdrawals and locks do exactly what their traits promise.  Where the
      code does not: [reserve_below_deposit_inflates],
      [ac_withdraw_below_deposit_unbacked], [ac_burn_does_not_burn],
      [get_all_balances_wraps].
    - Exchange: purchases and sales honour the trader's limit, move exactly
      the two amounts between trader, pool and recipient and do not shrink the
      product of the reserves, unless less than the minimum balance would stay
      in the pool, which is then swept; a round trip loses; liquidity books add
      up until they saturate ([saturated_liquidity_breaks_books]); without
      overflow nobody is diluted, with overflow they are
      ([add_liquidity_overflow_dilutes]).
    - Governance: the invariant of all reachable states (council order and
      size, votes, veto tallies); council changes keep the votes of the others;
      strict majority decides; every old referendum is decided at a check
      block.  [revote_resets_vetoes] and [bond_change_strands_reserve] are the
      places where the contract breaks.
    - NFT: token balances and issuance count the owners; only the owner moves
      unlisted tokens; a transfer clears its approvals; following the cursors of
      the listings yields each once ([listings_paginate]), unless a cursor lies
      past the end ([cursor_past_end_restarts]).
      [accept_offer_keeps_listing], [mixed_bundle_moves_wrong_token] and
      [repeated_serial_inflates] are the exceptions the code allows.
    - Address mapping: EVM addresses survive the round trip.
    - Bridge: the invariant of all reachable states ([bridge_reachable]); a
      vote decides a claim by the thresholds, and no set of notaries below the
      threshold verifies one; a processed transaction stays processed until it
      is pruned; delayed proofs drain; the notary set changes as announced; the
      worker votes what its node attests.  The code's exceptions:
      [processed_event_forgotten_in_the_hour], [one_notary_decides_call].
    - Ethy gadget: announced proofs hold the threshold of valid signatures of
      distinct validators; the encoder of validator changes yields the ABI
      words.  Across a change of the set the worker can panic
      ([stale_position_panics]).
    - Peg: deposits cover issuance, waiting and proved withdrawals
      ([peg_backed]); an idle block works off the queue as a sequence of single
      claims, the queue drains, no waiting claim is lost unless a delay is zero
      ([zero_delay_strands_claim]); withdrawals burn and request exactly their
      signature; the vote that verifies a deposit pays it.  CENNZ cannot be
      withdrawn ([staking_withdrawals_unsupported]), and is minted while its
      deposits are inactive ([cennz_minted_while_inactive]).
    - Oracle: without challenges every request expires or is called back, in
      order and within the weight; an open response keeps its bond.  With
      challenges it can halt ([challenged_callback_halts],
      [challenge_window_wraps]).
    - Staking: the invariant of all reachable states ([staking_reachable]: books,
      locks, roles, spans); withdrawals release what has matured; unbonding and
      rebonding is a round trip; a session change runs the era machine; accepted
      election solutions are sound; a span is charged its largest slash, once;
      a slash takes from each staker what its ledger owes and pays reporters and
      treasury to the last unit ([apply_slash_settles]); cancelling slashes
      removes the listed ones; the worker's solutions have the largest length
      that fits ([maximum_compact_len_exact]), lose the least stakes first
      ([trim_takes_least]) and are accepted, if the chain computes the same score
      ([prepared_solution_accepted], [normalized_score_panics]).  A minimum bond
      of zero breaks the books ([zero_minimum_inflates_stake]).
    - Rewards: stored amounts have their ranges ([rewards_reachable]); an idle
      block pays a prefix of the schedule, and the schedule drains with every
      payout run once ([payouts_drain]); the end of an era schedules each
      validator's share and mints the rest to the treasury
      ([era_reward_scheduled]); a payout mints what it pays.  The exceptions: [remainder_wraps],
      [payee_applied_twice], [full_commission_unreported].
    - Fees: a transaction pays exactly its actual fee, which correction only
      lowers, and all of it when its payer was reaped; the multiplier moves within bounds and in the right direction;
      dispatch information survives its encodings.  [fees_not_noted],
      [fee_parts_wrap] and [reducible_ignores_locks] contradict the
      documentation.
    - EVM: addresses of tokens lead back to them and to their precompile alone;
      the balance shown is spendable; the fee proxy buys the gas for at most
      the stated payment ([fee_proxy_covers_gas]).  What the
      precompiles write is read back, and reading hostile input never panics
      ([evm_data_roundtrip], [evm_reads_safe]).
    - Precompiles: whatever input a token contract is called with, a successful
      call touched only what its caller owns, was allowed or approved for, within
      its gas ([erc20_calls_authorised], [erc721_calls_authorised]); the exchange,
      peg, NFT and oracle contracts act for their caller
      ([precompiles_act_for_caller], [remote_calls_for_caller]); an encoded
      oracle request is recorded as encoded ([remote_call_served]).  Where the
      encodings are not what the ABI asks for: [approved_address_misread],
      [revert_message_unreadable], [transfer_event_names_operator].
    - Wallet: a signed call runs at most once ([signed_call_runs_once]).

    ** What is not modelled

    Weights, benchmarks, RPC servers, [construct_runtime!] and runtime APIs,
    node and chain specification (no state logic of their own).  The JSON-RPC
    client of the bridge, the asynchronous loop and keystore of the ethy
    gadget.  Contract creation, and execution in the EVM, which is outside the
    repository. *)

From stdpp Require Export base gmap list fin_maps option strings.
From Stdlib Require Export ZArith Lia.

#[global] Open Scope Z_scope.

(** ** Outcomes and the dispatch monad *)

(** The three ways a runtime call ends: a value, a [DispatchError] value, or a
    panic (an [unwrap] of nothing, a division by zero, a [U256] overflow). *)
Inductive outcome (E A : Type) : Type :=
| Ok (a : A)
| Err (e : E)
| Panic.

Arguments Ok {E A} a.
Arguments Err {E A} e.
Arguments Panic {E A}.

(** Storage is threaded explicitly.  A failing computation keeps the writes it
    made before it failed: FRAME only rolls storage back under
    [#[transactional]]. *)
Definition M (E S A : Type) : Type := S -> outcome E A * S.

Definition ret {E S A} (a : A) : M E S A := fun s => (Ok a, s).

Definition fail {E S A} (e : E) : M E S A := fun s => (Err e, s).

Definition panic {E S A} : M E S A := fun s => (Panic, s).

Definition bind {E S A B} (m : M E S A) (k : A -> M E S B) : M E S B := fun s =>
  match m s with
  | (Ok a, s') => k a s'
  | (Err e, s') => (Err e, s')
  | (Panic, s') => (Panic, s')
  end.

Definition gets {E S A} (f : S -> A) : M E S A := fun s => (Ok (f s), s).

Definition modify {E S} (f : S -> S) : M E S unit := fun s => (Ok tt, f s).

(** A state transformer that also yields a value and cannot fail. *)
Definition state {E S A} (f : S -> A * S) : M E S A := fun s =>
  let '(a, s') := f s in (Ok a, s').

(** [ensure!(cond, error)] *)
Definition ensure {E S} (b : bool) (e : E) : M E S unit :=
  if b then ret tt else fail e.

(** [option.ok_or(error)?] *)
Definition ok_or {E S A} (o : option A) (e : E) : M E S A :=
  match o with Some a => ret a | None => fail e end.

(** A pure [Result] followed by [?]. *)
Definition lift {E S A} (r : outcome E A) : M E S A := fun s => (r, s).

(** [#[transactional]]: an [Err] discards every storage write of the body. *)
Definition transactional {E S A} (m : M E S A) : M E S A := fun s =>
  match m s with
  | (Ok a, s') => (Ok a, s')
  | (Err e, _) => (Err e, s)
  | (Panic, s') => (Panic, s')
  end.

(** A [for] loop over a list. *)
Fixpoint for_each {E S A} (l : list A) (f : A -> M E S unit) : M E S unit :=
  match l with
  | [] => ret tt
  | x :: l => bind (f x) (fun _ => for_each l f)
  end.

(** [r1.and(r2)]: Rust evaluates the argument before the call, so the second
    computation runs, with its writes, even when the first one failed. *)
Definition and_also {E S A B} (m1 : M E S A) (m2 : M E S B) : M E S B := fun s =>
  match m1 s with
  | (Panic, s1) => (Panic, s1)
  | (r1, s1) =>
      match m2 s1 with
      | (Panic, s2) => (Panic, s2)
      | (r2, s2) =>
          match r1 with
          | Err e => (Err e, s2)
          | _ => (r2, s2)
          end
      end
  end.

Declare Scope dispatch_scope.
Delimit Scope dispatch_scope with dispatch.

Notation "'let*' x := m 'in' k" := (bind m (fun x => k))
  (at level 10, x name, m at level 200, k at level 200,
   format "'[v' 'let*'  x  :=  m  'in' '/' k ']'") : dispatch_scope.
Notation "'let*' ' p := m 'in' k" := (bind m (fun '(p) => k))
  (at level 10, p pattern, m at level 200, k at level 200) : dispatch_scope.
Notation "'do*' m 'in' k" := (bind m (fun _ => k))
  (at level 10, m at level 200, k at level 200,
   format "'[v' 'do*'  m  'in' '/' k ']'") : dispatch_scope.

#[global] Open Scope dispatch_scope.

(** The same sequencing for the results of pure pricing functions. *)
Definition obind {E A B} (r : outcome E A) (k : A -> outcome E B) : outcome E B :=
  match r with Ok a => k a | Err e => Err e | Panic => Panic end.

Notation "'let?' x := r 'in' k" := (obind r (fun x => k))
  (at level 10, x name, r at level 200, k at level 200) : dispatch_scope.

Definition check {E} (b : bool) (e : E) : outcome E unit := if b then Ok tt else Err e.

Notation "'ensure?' b 'orelse' e 'in' k" := (obind (check b e) (fun _ => k))
  (at level 10, b at level 200, e at level 200, k at level 200) : dispatch_scope.

Definition some_or {E A} (o : option A) (e : E) : outcome E A :=
  match o with Some a => Ok a | None => Err e end.

(** A call is a no-op on error when every [Err] leaves the storage as it was. *)
Definition noop_on_err {E S A} (m : M E S A) : Prop :=
  forall s e s', m s = (Err e, s') -> s' = s.

(** A call keeps the predicate [P] whatever its outcome. *)
Definition preserves {E S A} (P : S -> Prop) (m : M E S A) : Prop :=
  forall s, P s -> P (snd (m s)).

(** ** Machine integers

    A [w]-bit unsigned integer is a [Z] in [[0, 2^w)].  Unchecked [+], [-] and
    [*] wrap: the release profile of the workspace does not set
    [overflow-checks]. *)

Definition umax (w : Z) : Z := 2 ^ w - 1.

Definition in_range (w z : Z) : Prop := 0 <= z <= umax w.

Definition in_rangeb (w z : Z) : bool := (0 <=? z) && (z <=? umax w).

Definition wrap (w z : Z) : Z := z mod 2 ^ w.

Definition wrapping_add (w a b : Z) : Z := wrap w (a + b).

Definition wrapping_sub (w a b : Z) : Z := wrap w (a - b).

Definition wrapping_mul (w a b : Z) : Z := wrap w (a * b).

Definition checked_add (w a b : Z) : option Z :=
  if a + b <=? umax w then Some (a + b) else None.

Definition checked_sub (a b : Z) : option Z :=
  if b <=? a then Some (a - b) else None.

Definition checked_mul (w a b : Z) : option Z :=
  if a * b <=? umax w then Some (a * b) else None.

Definition checked_div (a b : Z) : option Z :=
  if b =? 0 then None else Some (a / b).

Definition saturating_add (w a b : Z) : Z := Z.min (a + b) (umax w).

Definition saturating_sub (a b : Z) : Z := Z.max 0 (a - b).

Definition saturating_mul (w a b : Z) : Z := Z.min (a * b) (umax w).

(** [saturated_into] / [unique_saturated_into] towards a [w]-bit type. *)
Definition saturate (w z : Z) : Z := Z.min z (umax w).

(** A [StorageMap]/[StorageDoubleMap] declared with a default value returns the
    default for an absent key ([ValueQuery]). *)
Definition sget {K V} `{Countable K} (d : V) (k : K) (m : gmap K V) : V := default d (m !! k).

(** ** Sums over finite maps *)
Section MapSum.
Context {K V : Type} `{Countable K}.
Implicit Types (f : K -> V -> Z) (m : gmap K V).

Definition msum f m : Z := map_fold (fun k v acc => f k v + acc) 0 m.

Definition mval f k m : Z := match m !! k with Some v => f k v | None => 0 end.

Lemma msum_empty f : msum f ∅ = 0.
  Proof. apply map_fold_empty. Qed.

Lemma msum_insert_fresh f m k v : m !! k = None -> msum f (<[k := v]> m) = f k v + msum f m.
  Proof. intros Hk. unfold msum. rewrite map_fold_insert_L; [done | intros; lia | done]. Qed.

Lemma msum_delete f m k : msum f (delete k m) = msum f m - mval f k m.
  Proof.
    unfold mval. destruct (m !! k) as [v|] eqn:Hk.
    - rewrite <- (insert_delete_id m k v Hk) at 2.
      rewrite msum_insert_fresh by apply lookup_delete_eq. lia.
    - rewrite delete_id by done. lia.
  Qed.

Lemma msum_insert f m k v : msum f (<[k := v]> m) = msum f m - mval f k m + f k v.
  Proof.
    rewrite <- insert_delete_eq, msum_insert_fresh by apply lookup_delete_eq.
    rewrite msum_delete. lia.
  Qed.

Lemma msum_nonneg f m : (forall k v, m !! k = Some v -> 0 <= f k v) -> 0 <= msum f m.
  Proof.
    induction m as [|k v m Hk IH] using map_ind; intros Hf.
    - by rewrite msum_empty.
    - rewrite msum_insert_fresh by done.
      assert (0 <= f k v) by (apply Hf, lookup_insert_eq).
      enough (0 <= msum f m) by lia. apply IH. intros k' v' Hk'.
      apply Hf. rewrite lookup_insert_ne; [done | congruence].
  Qed.

Lemma mval_le_msum f m k : (forall k v, m !! k = Some v -> 0 <= f k v) -> mval f k m <= msum f m.
  Proof.
    intros Hf. enough (0 <= msum f (delete k m)) by (rewrite msum_delete in *; lia).
    apply msum_nonneg. intros k' v' [_ Hk']%lookup_delete_Some. by apply Hf.
  Qed.

Lemma mval2_le_msum f m k1 k2 : k1 <> k2 -> (forall k v, m !! k = Some v -> 0 <= f k v) ->
    mval f k1 m + mval f k2 m <= msum f m.
  Proof.
    intros Hne Hf. pose proof (mval_le_msum f (delete k1 m) k2) as Hle.
    rewrite msum_delete in Hle. unfold mval at 1 in Hle.
    rewrite lookup_delete_ne in Hle by done. fold (mval f k2 m) in Hle.
    enough (mval f k2 m <= msum f m - mval f k1 m) by lia. apply Hle.
    intros k' v' [_ Hk']%lookup_delete_Some. by apply Hf.
  Qed.

Lemma msum_filter f (P : K * V -> Prop) `{!forall kv, Decision (P kv)} m :
  (forall k v, ~ P (k, v) -> f k v = 0) -> msum f (filter P m) = msum f m.
Proof.
  intros Hf. induction m as [|k v m Hk IH] using map_ind.
  - by rewrite map_filter_empty.
  - rewrite (msum_insert_fresh f m) by done. destruct (decide (P (k, v))) as [HP|HP].
    + rewrite map_filter_insert_True, msum_insert_fresh, IH by (done || by apply map_lookup_filter_None_2; left).
      done.
    + rewrite map_filter_insert_False, delete_id, IH, (Hf k v) by done. done.
Qed.

Lemma msum_ext f g m : (forall k v, m !! k = Some v -> f k v = g k v) -> msum f m = msum g m.
  Proof.
    induction m as [|k v m Hk IH] using map_ind; intros Hf; [done|].
    rewrite !msum_insert_fresh, (Hf k v) by (done || apply lookup_insert_eq). f_equal. apply IH.
    intros k' v' Hk'. apply Hf. rewrite lookup_insert_ne; [done | congruence].
  Qed.

Lemma msum_zero f m : (forall k v, m !! k = Some v -> f k v = 0) -> msum f m = 0.
  Proof.
    induction m as [|k v m Hk IH] using map_ind; intros Hf.
    - apply msum_empty.
    - rewrite msum_insert_fresh by done.
      rewrite (Hf k v) by apply lookup_insert_eq. rewrite IH; [done|].
      intros k' v' Hk'. apply Hf. rewrite lookup_insert_ne; [done | congruence].
  Qed.
End MapSum.

(** ** Integer lemmas *)
Lemma checked_add_Some w a b c : checked_add w a b = Some c <-> c = a + b /\ a + b <= umax w.
Proof. unfold checked_add. case_match; rewrite ?Z.leb_le, ?Z.leb_gt in *; naive_solver lia. Qed.

Lemma checked_add_None w a b : checked_add w a b = None <-> umax w < a + b.
Proof. unfold checked_add. case_match; rewrite ?Z.leb_le, ?Z.leb_gt in *; naive_solver lia. Qed.

Lemma checked_sub_Some a b c : checked_sub a b = Some c <-> c = a - b /\ b <= a.
Proof. unfold checked_sub. case_match; rewrite ?Z.leb_le, ?Z.leb_gt in *; naive_solver lia. Qed.

Lemma checked_sub_None a b : checked_sub a b = None <-> a < b.
Proof. unfold checked_sub. case_match; rewrite ?Z.leb_le, ?Z.leb_gt in *; naive_solver lia. Qed.

Lemma checked_mul_Some w a b c : checked_mul w a b = Some c <-> c = a * b /\ a * b <= umax w.
Proof. unfold checked_mul. case_match; rewrite ?Z.leb_le, ?Z.leb_gt in *; naive_solver lia. Qed.

Lemma wrap_small w z : in_range w z -> wrap w z = z.
Proof. unfold in_range, umax, wrap. intros. apply Z.mod_small. lia. Qed.

Lemma wrap_range w z : 0 <= w -> in_range w (wrap w z).
Proof.
  intros Hw. unfold in_range, umax, wrap.
  pose proof (Z.mod_pos_bound z (2 ^ w)). assert (0 < 2 ^ w) by (apply Z.pow_pos_nonneg; lia). lia.
Qed.

Lemma saturating_add_small w a b : a + b <= umax w -> saturating_add w a b = a + b.
Proof. unfold saturating_add. lia. Qed.

Lemma in_rangeb_spec w z : in_rangeb w z = true <-> in_range w z.
Proof. unfold in_rangeb, in_range. rewrite andb_true_iff, !Z.leb_le. done. Qed.

#[global] Instance in_range_dec w z : Decision (in_range w z).
Proof. unfold in_range. apply _. Defined.

(** ** Automation *)

(** Unfolds the monad and splits every branch of a call found in a hypothesis. *)
Ltac unfold_dispatch H :=
  unfold bind, ensure, ok_or, lift, ret, fail, gets, modify, state, transactional,
    and_also, obind, check, some_or in H.

Ltac step_dispatch H := unfold_dispatch H; simpl in H; repeat (case_match; simplify_eq/=).

(** The same on the goal. *)
Ltac run_dispatch :=
  unfold bind, ensure, ok_or, lift, ret, fail, gets, modify, state, transactional,
    and_also, obind, check, some_or; simpl; try done;
  repeat (case_match; simplify_eq/=; try done).

(** Boolean tests of the code into propositions. *)
Ltac bool_to_prop :=
  repeat match goal with
  | H : negb _ = true |- _ => apply negb_true_iff in H
  | H : negb _ = false |- _ => apply negb_false_iff in H
  | H : (_ && _)%bool = true |- _ => apply andb_true_iff in H as [? ?]
  | H : (_ || _)%bool = false |- _ => apply orb_false_iff in H as [? ?]
  | H : (_ <=? _) = true |- _ => apply Z.leb_le in H
  | H : (_ <=? _) = false |- _ => apply Z.leb_gt in H
  | H : (_ <? _) = true |- _ => apply Z.ltb_lt in H
  | H : (_ <? _) = false |- _ => apply Z.ltb_ge in H
  | H : (_ =? _) = true |- _ => apply Z.eqb_eq in H
  | H : (_ =? _) = false |- _ => apply Z.eqb_neq in H
  | H : checked_add _ _ _ = Some _ |- _ => apply checked_add_Some in H as [? ?]
  | H : checked_add _ _ _ = None |- _ => apply checked_add_None in H
  | H : checked_sub _ _ = Some _ |- _ => apply checked_sub_Some in H as [? ?]
  | H : checked_sub _ _ = None |- _ => apply checked_sub_None in H
  | H : checked_mul _ _ _ = Some _ |- _ => apply checked_mul_Some in H as [? ?]
  end; subst.

Create HintDb dispatch.

Lemma for_each_modify {E S A} (f : A -> S -> S) (l : list A) (s : S) :
  for_each (E := E) l (fun x => modify (f x)) s = (Ok tt, foldl (fun s x => f x s) s l).
Proof. revert s. induction l as [|x l IH]; intros s; [done|]. apply IH. Qed.

(** A loop over two lists whose first part succeeds. *)
Lemma for_each_app {E S A} (f : A -> M E S unit) (l1 l2 : list A) (s s1 : S) : for_each l1 f s = (Ok tt, s1) ->
  for_each (l1 ++ l2) f s = for_each l2 f s1.
Proof.
  revert s. induction l1 as [|x l1 IH]; intros s; simpl; [by intros [= <-]|]. unfold bind.
  destruct (f x s) as [[[]|e|] s']; [apply IH | done..].
Qed.

(** A loop of checks succeeds when every check does, and writes nothing. *)
Lemma for_each_check {E S A} (f : A -> M E S unit) (l : list A) (s s' : S) :
  (forall x, (f x s).2 = s) -> for_each l f s = (Ok tt, s') -> s' = s /\ forall x, x ∈ l -> f x s = (Ok tt, s).
Proof.
  intros Hf. induction l as [|x l IH]; simpl; unfold bind.
  - intros [= <-]. split; [done|]. intros x Hx. by apply not_elem_of_nil in Hx.
  - pose proof (Hf x) as Hx. destruct (f x s) as [[[]|e|] s1] eqn:E1; simpl in Hx; subst s1; [|done..].
    intros [-> Hl]%IH. split; [done|]. intros y [->|Hy]%elem_of_cons; [done | by apply Hl].
Qed.

(** *** Compositional reasoning about calls *)
Section Calls.
Context {E S : Type}.
Implicit Types P : S -> Prop.

  (** A call that never writes. *)
Definition reader {A} (m : M E S A) : Prop := forall s, snd (m s) = s.

  (** A call that always succeeds. *)
Definition infallible {A} (m : M E S A) : Prop := forall s, exists a, fst (m s) = Ok a.

Lemma reader_ret {A} (a : A) : reader (@ret E S A a).
  Proof. done. Qed.
Lemma reader_fail {A} e : reader (@fail E S A e).
  Proof. done. Qed.
Lemma reader_gets {A} (f : S -> A) : reader (@gets E S A f).
  Proof. done. Qed.
Lemma reader_lift {A} (r : outcome E A) : reader (@lift E S A r).
  Proof. done. Qed.
Lemma reader_ensure b e : reader (@ensure E S b e).
  Proof. by destruct b. Qed.
Lemma reader_ok_or {A} (o : option A) e : reader (@ok_or E S A o e).
  Proof. by destruct o. Qed.
Lemma reader_bind {A B} (m : M E S A) (k : A -> M E S B) :
    reader m -> (forall a, reader (k a)) -> reader (bind m k).
  Proof.
    intros Hm Hk s. specialize (Hm s). unfold bind. destruct (m s) as [[a|e|] s']; simpl in *; subst;
      [apply Hk | done | done].
  Qed.
Lemma reader_if {A} (b : bool) (m1 m2 : M E S A) :
    reader m1 -> reader m2 -> reader (if b then m1 else m2).
  Proof. by destruct b. Qed.

Lemma reader_for_each {A} (l : list A) (f : A -> M E S unit) : (forall x, reader (f x)) -> reader (for_each l f).
Proof. intros Hf. induction l as [|x l IH]; [done|]. apply reader_bind; [apply Hf | intros _; exact IH]. Qed.

Lemma infallible_ret {A} (a : A) : infallible (@ret E S A a).
  Proof. eexists; done. Qed.
Lemma infallible_gets {A} (f : S -> A) : infallible (@gets E S A f).
  Proof. eexists; done. Qed.
Lemma infallible_modify f : infallible (@modify E S f).
  Proof. eexists; done. Qed.
Lemma infallible_state {A} (f : S -> A * S) : infallible (@state E S A f).
  Proof. intros s. unfold state. destruct (f s). eexists; done. Qed.
Lemma infallible_bind {A B} (m : M E S A) (k : A -> M E S B) :
    infallible m -> (forall a, infallible (k a)) -> infallible (bind m k).
  Proof.
    intros Hm Hk s. destruct (Hm s) as [a Ha]. unfold bind.
    destruct (m s) as [r s']; simpl in *; subst. apply Hk.
  Qed.
Lemma infallible_if {A} (b : bool) (m1 m2 : M E S A) :
    infallible m1 -> infallible m2 -> infallible (if b then m1 else m2).
  Proof. by destruct b. Qed.

Lemma noop_reader {A} (m : M E S A) : reader m -> noop_on_err m.
  Proof. intros Hm s e s' H. by rewrite <- (Hm s), H. Qed.
Lemma noop_infallible {A} (m : M E S A) : infallible m -> noop_on_err m.
  Proof. intros Hm s e s' H. destruct (Hm s) as [a Ha]. rewrite H in Ha. done. Qed.
Lemma noop_bind_reader {A B} (m : M E S A) (k : A -> M E S B) :
    reader m -> (forall a, noop_on_err (k a)) -> noop_on_err (bind m k).
  Proof.
    intros Hm Hk s e s' H. specialize (Hm s). unfold bind in H.
    destruct (m s) as [[a|e'|] s1]; simpl in *; simplify_eq; eauto using Hk.
    by apply Hk in H.
  Qed.
Lemma noop_bind_infallible {A B} (m : M E S A) (k : A -> M E S B) :
    noop_on_err m -> (forall a, infallible (k a)) -> noop_on_err (bind m k).
  Proof.
    intros Hm Hk s e s' H. unfold bind in H. destruct (m s) as [[a|e'|] s1] eqn:Hs; simplify_eq; eauto.
    destruct (Hk a s1) as [b Hb]. rewrite H in Hb. done.
  Qed.
Lemma noop_if {A} (b : bool) (m1 m2 : M E S A) :
    noop_on_err m1 -> noop_on_err m2 -> noop_on_err (if b then m1 else m2).
  Proof. by destruct b. Qed.
Lemma noop_transactional {A} (m : M E S A) : noop_on_err (transactional m).
  Proof. intros s e s' H. unfold transactional in H. repeat case_match; by simplify_eq. Qed.

(** One step of a computation. *)
Lemma run_gets {A B} (f : S -> A) (k : A -> M E S B) s : bind (gets f) k s = k (f s) s.
Proof. done. Qed.
Lemma run_modify {A} (f : S -> S) (k : unit -> M E S A) s : bind (modify f) k s = k tt (f s).
Proof. done. Qed.

Lemma preserves_reader {A} P (m : M E S A) : reader m -> preserves P m.
  Proof. intros Hm s Hs. by rewrite Hm. Qed.
Lemma preserves_bind {A B} P (m : M E S A) (k : A -> M E S B) :
    preserves P m -> (forall a, preserves P (k a)) -> preserves P (bind m k).
  Proof.
    intros Hm Hk s Hs. specialize (Hm s Hs). unfold bind.
    destruct (m s) as [[a|e|] s']; [by apply Hk | done | done].
  Qed.
Lemma preserves_for_each {A} (P : S -> Prop) (l : list A) (f : A -> M E S unit) :
  (forall x, x ∈ l -> preserves P (f x)) -> preserves P (for_each l f).
Proof.
  induction l as [|x l IH]; intros Hf; [by apply preserves_reader|]. simpl. apply preserves_bind.
  - apply Hf. left.
  - intros _. apply IH. intros y Hy. apply Hf. by right.
Qed.
Lemma preserves_modify P f : (forall s, P s -> P (f s)) -> preserves P (@modify E S f).
  Proof. intros Hf s Hs. by apply Hf. Qed.
Lemma preserves_if {A} P (b : bool) (m1 m2 : M E S A) :
    preserves P m1 -> preserves P m2 -> preserves P (if b then m1 else m2).
  Proof. by destruct b. Qed.
Lemma preserves_transactional {A} P (m : M E S A) : preserves P m -> preserves P (transactional m).
  Proof.
    intros Hm s Hs. specialize (Hm s Hs). unfold transactional. by destruct (m s) as [[]].
  Qed.
Lemma and_also_Ok {A B} (m1 : M E S A) (m2 : M E S B) b (st st' : S) :
  and_also m1 m2 st = (Ok b, st') -> exists a1 st1, m1 st = (Ok a1, st1) /\ m2 st1 = (Ok b, st').
Proof. unfold and_also. intros Hm. repeat case_match; simplify_eq; eauto. Qed.
End Calls.

#[export] Hint Resolve reader_ret reader_fail reader_gets reader_lift reader_ensure reader_ok_or
  reader_bind reader_if : dispatch.
#[export] Hint Resolve infallible_ret infallible_gets infallible_modify infallible_state
  infallible_bind infallible_if : dispatch.
#[export] Hint Resolve noop_transactional : dispatch.
#[export] Hint Resolve preserves_bind preserves_modify preserves_if preserves_transactional : dispatch.

(** Proves that a call is a no-op on error: its fallible prefix only reads. *)
Ltac solve_noop :=
  intros; repeat first
    [ apply noop_transactional
    | apply noop_reader; solve [eauto 20 with dispatch]
    | apply noop_infallible; solve [eauto 20 with dispatch]
    | apply noop_bind_reader; [solve [eauto 20 with dispatch] | intros]
    | apply noop_bind_infallible; [| solve [eauto 20 with dispatch]]
    | apply noop_if
    | case_match ].

#[global] Arguments wrapping_add : simpl never.
#[global] Arguments wrapping_sub : simpl never.
#[global] Arguments wrapping_mul : simpl never.
#[global] Arguments checked_add : simpl never.
#[global] Arguments checked_sub : simpl never.
#[global] Arguments checked_mul : simpl never.
#[global] Arguments checked_div : simpl never.
#[global] Arguments saturating_add : simpl never.
#[global] Arguments saturating_sub : simpl never.
#[global] Arguments saturating_mul : simpl never.
#[global] Arguments saturate : simpl never.
#[global] Arguments sget : simpl never.

(** ** Record updates: [setter eta p] is the function that applies [f] to the
    field [p] of a record with eta-expansion [eta]. *)
Ltac setter eta p :=
  let f := fresh "f" in let r := fresh "r" in
  intros f r;
  let t := eval cbv beta delta [eta] in (eta r) in
  let t' := eval pattern (p r) in t in
  match t' with ?F _ => let u := eval cbv beta in (F (f (p r))) in exact u end.
