(* ===== verification/Support.v ===== *)
(** * Runtime-wide types

    The types every pallet shares: account, asset and block identifiers
    ([src/primitives/src/types.rs]), the call origins and [DispatchError] of
    FRAME, the error enumerations the pallets declare with [decl_error!], the
    withdraw reasons of the currency traits and the [FeeExchange] payload. *)

From S2P Require Import Prelude.

(** Account identifiers are opaque 256-bit values, asset identifiers [u32],
    balances [u128]. *)
Abbreviation AccountId := Z (only parsing).
Abbreviation AssetId := Z (only parsing).
Abbreviation Balance := Z (only parsing).
Abbreviation BlockNumber := Z (only parsing).

Definition BALANCE_BITS : Z := 128.
Definition ASSET_BITS : Z := 32.

(** [Balance::max_value()] *)
Definition MAX_BALANCE : Z := umax BALANCE_BITS.

(** [AccountId::default()] *)
Definition default_account : AccountId := 0.

(** ** Errors *)
Module GaError.
Inductive t :=
  | AssetIdExhausted
  | ZeroAmount
  | NoUpdatePermission
  | NoMintPermission
  | NoBurnPermission
  | TotalMintingOverflow
  | FreeMintingOverflow
  | TotalBurningUnderflow
  | FreeBurningUnderflow
  | AssetIdExists
  | AssetIdNotExist
  | InsufficientBalance
  | TransferOverflow
  | LiquidityRestrictions
  | ZeroExistentialDeposit
  | AccountIdNotExist
  | DecimalTooLarge
  | InitialIssuanceTooLarge.
End GaError.

Module CennzxError.
Inductive t :=
  | EmptyExchangePool
  | InsufficientExchangePoolReserve
  | InsufficientBalance
  | InsufficientLiquidity
  | InsufficientTradeAssetBalance
  | InsufficientCoreAssetBalance
  | CannotTradeZero
  | CannotAddLiquidityWithZero
  | MinimumBuyRequirementNotMet
  | MaximumSellRequirementNotMet
  | MinimumTradeAssetRequirementNotMet
  | MinimumCoreAssetRequirementNotMet
  | MinimumLiquidityRequirementNotMet
  | MaximumTradeAssetRequirementNotMet
  | AssetCannotSwapForItself
  | InvalidAssetId
  | Overflow
  | DivideByZero.
End CennzxError.

Module GovError.
Inductive t :=
  | NotCouncilor
  | NotSponsor
  | MaxCouncilReached
  | MinCouncilReached
  | ProposalMissing
  | DoubleVote
  | NoReferendumThreshold
  | NotEnoughStaked
  | ReferendumNotStarted
  | ReferendumNotDeliberating
  | NotEnoughRegistrations.
End GovError.

Module NftError.
Inductive t :=
  | CollectionIdExists
  | CollectionNameInvalid
  | NoAvailableIds
  | SchemaMaxAttributes
  | MaxAttributeLength
  | NoPermission
  | NoCollection
  | NoToken
  | NotForFixedPriceSale
  | NotForAuction
  | TokenListingProtection
  | InternalPayment
  | RoyaltiesInvalid
  | BidTooLow
  | MixedBundleSale
  | RoyaltiesProtection
  | MarketplaceNotRegistered
  | NoSeries
  | NameAlreadySet
  | InvalidMetadataPath
  | InvalidOffer
  | NotBuyer
  | IsTokenOwner
  | ZeroOffer
  | TokenOnAuction.
End NftError.

Module ApprovalError.
Inductive t := NotTokenOwner | CallerNotOperator.
End ApprovalError.

Module BridgeError.
Inductive t :=
  | NoLocalSigningAccount
  | OffchainUnsignedTxSignedPayload
  | InvalidNotarization
  | HttpFetch
  | InvalidClaim
  | OcwConfig
  | AlreadyNotarized
  | DuplicateClaim
  | BridgePaused.
End BridgeError.

Module PegError.
Inductive t :=
  | CreateAssetFailed
  | InvalidAddress
  | InvalidAmount
  | DepositsPaused
  | WithdrawalsPaused
  | UnsupportedAsset
  | EvmWithdrawalFailed.
End PegError.

Module OracleError.
Inductive t :=
  | ResponseExists
  | NoRequest
  | NoResponse
  | InsufficientFundsGas
  | InsufficientFundsBounty
  | InvalidResponseTimestamp
  | DuplicateChallenge
  | ReturnDataExceedsLimit
  | RequestExpired
  | FeeExchangeFailed
  | AlreadyBonded
  | NotEnoughBonded
  | CantUnbond
  | MaxRelayersReached
  | NoAvailableResponses
  | ActiveChallenger
  | NoChallengers.
End OracleError.

Module StakingError.
Inductive t :=
  | NotController
  | NotStash
  | AlreadyBonded
  | AlreadyPaired
  | EmptyTargets
  | InvalidSlashIndex
  | InsufficientBond
  | InsufficientFreeBalance
  | NoMoreChunks
  | NoUnlockChunk
  | FundedTarget
  | NotSortedAndUnique
  | DuplicateNominee
  | OffchainElectionEarlySubmission
  | OffchainElectionWeakSubmission
  | SnapshotUnavailable
  | OffchainElectionBogusWinnerCount
  | OffchainElectionBogusWinner
  | OffchainElectionBogusCompact
  | OffchainElectionBogusNominator
  | OffchainElectionBogusNomination
  | OffchainElectionSlashedNomination
  | OffchainElectionBogusSelfVote
  | OffchainElectionBogusEdge
  | OffchainElectionBogusScore
  | OffchainElectionBogusElectionSize
  | CallNotAllowed
  | IncorrectHistoryDepth
  | IncorrectSlashingSpans.
End StakingError.

Module WalletError.
Inductive t := InvalidSignature | CantPay.
End WalletError.

(** A [DispatchError]: a bad origin or an error of one pallet. *)
Inductive DispatchError :=
| BadOrigin
| GenericAsset (e : GaError.t)
| Cennzx (e : CennzxError.t)
| Governance (e : GovError.t)
| Nft (e : NftError.t)
| TokenApprovals (e : ApprovalError.t)
| EthBridge (e : BridgeError.t)
| Erc20Peg (e : PegError.t)
| EthStateOracle (e : OracleError.t)
| Staking (e : StakingError.t)
| EthWallet (e : WalletError.t)
| OtherError (message : string).

#[global] Instance DispatchError_eq_dec : EqDecision DispatchError.
Proof. intros x y. unfold Decision. repeat decide equality. Defined.

Abbreviation D := (M DispatchError).

(** ** Origins *)
Inductive Origin :=
| Root
| Signed (who : AccountId)
| NoOrigin.

Definition ensure_signed {S} (o : Origin) : D S AccountId :=
  match o with Signed who => ret who | _ => fail BadOrigin end.

Definition ensure_root {S} (o : Origin) : D S unit :=
  match o with Root => ret tt | _ => fail BadOrigin end.

Definition ensure_none {S} (o : Origin) : D S unit :=
  match o with NoOrigin => ret tt | _ => fail BadOrigin end.

Definition is_signed (o : Origin) : bool :=
  match o with Signed _ => true | _ => false end.

Lemma reader_ensure_signed {S} o : reader (@ensure_signed S o).
Proof. by destruct o. Qed.
Lemma reader_ensure_root {S} o : reader (@ensure_root S o).
Proof. by destruct o. Qed.
Lemma reader_ensure_none {S} o : reader (@ensure_none S o).
Proof. by destruct o. Qed.
#[export] Hint Resolve reader_ensure_signed reader_ensure_root reader_ensure_none : dispatch.

(** ** Withdraw reasons: the bit flags of the currency traits *)
Module WithdrawReasons.
Definition TRANSACTION_PAYMENT : Z := 1.
Definition TRANSFER : Z := 2.
Definition RESERVE : Z := 4.
Definition FEE : Z := 8.
Definition TIP : Z := 16.
Definition all : Z := 31.

  (** [r.contains(flag)] *)
Definition contains (r flag : Z) : bool := Z.land r flag =? flag.
End WithdrawReasons.

Inductive ExistenceRequirement := KeepAlive | AllowDeath.

(** [SignedImbalance] and [SameOrOther] of the currency traits. *)
Inductive SignedImbalance (P N : Type) :=
| Positive (p : P)
| Negative (n : N).
Arguments Positive {P N} p.
Arguments Negative {P N} n.

Inductive SameOrOther (A B : Type) :=
| Same (a : A)
| Other (b : B).
Arguments Same {A B} a.
Arguments Other {A B} b.

(** ** Fee exchange payload *)
Record FeeExchangeV1 := { fx_asset_id : AssetId; fx_max_payment : Balance }.

Inductive FeeExchange := FeeExchange_V1 (x : FeeExchangeV1).

Definition FeeExchange_new_v1 (id : AssetId) (balance : Balance) : FeeExchange :=
  FeeExchange_V1 {| fx_asset_id := id; fx_max_payment := balance |}.

Definition FeeExchange_asset_id (f : FeeExchange) : AssetId :=
  match f with FeeExchange_V1 x => fx_asset_id x end.

Definition FeeExchange_max_payment (f : FeeExchange) : Balance :=
  match f with FeeExchange_V1 x => fx_max_payment x end.

(** * Fixed point numbers

    [FixedU128] of [sp_arithmetic], an unsigned 128-bit number of 10^-18 units,
    as the class of the operations the pallets use, with their documented
    behaviour: saturating, rounding down, and inside the type's range. *)

Abbreviation FixedU128 := Z (only parsing).

Definition FIXED_BITS : Z := 128.
Definition FIXED_ONE : FixedU128 := 10 ^ 18.

Class FixedU128Ops := {
  fixed_from_rational : Z -> Z -> FixedU128;
  fixed_from_integer : Z -> FixedU128;
  fixed_mul : FixedU128 -> FixedU128 -> FixedU128;
  fixed_div : FixedU128 -> FixedU128 -> FixedU128;
  fixed_mul_int : FixedU128 -> Z -> Z;
}.

(** [saturating_add] and [saturating_sub] work on the inner integer. *)
Definition fixed_add (a b : FixedU128) : FixedU128 := saturating_add FIXED_BITS a b.
Definition fixed_sub (a b : FixedU128) : FixedU128 := saturating_sub a b.

Class FixedU128Laws `{FixedU128Ops} := {
  fixed_from_rational_range : forall n d, 0 <= n -> 0 < d -> in_range FIXED_BITS (fixed_from_rational n d);
  fixed_from_rational_le_one : forall n d, 0 <= n <= d -> 0 < d -> fixed_from_rational n d <= FIXED_ONE;
  fixed_from_integer_eq : forall n, 0 <= n -> fixed_from_integer n = saturate FIXED_BITS (n * FIXED_ONE);
  fixed_mul_comm : forall a b, in_range FIXED_BITS a -> in_range FIXED_BITS b -> fixed_mul a b = fixed_mul b a;
  fixed_mul_range : forall a b, in_range FIXED_BITS a -> in_range FIXED_BITS b -> in_range FIXED_BITS (fixed_mul a b);
  fixed_mul_mono : forall a b c, in_range FIXED_BITS a -> in_range FIXED_BITS b -> in_range FIXED_BITS c -> a <= b ->
    fixed_mul a c <= fixed_mul b c;
  fixed_mul_one : forall a, in_range FIXED_BITS a -> fixed_mul FIXED_ONE a = a;
  fixed_div_range : forall a b, in_range FIXED_BITS a -> in_range FIXED_BITS b -> 0 < b -> in_range FIXED_BITS (fixed_div a b);
  fixed_mul_int_range : forall a n, in_range FIXED_BITS a -> in_range FIXED_BITS n -> in_range FIXED_BITS (fixed_mul_int a n);
  fixed_mul_int_mono : forall a b n, in_range FIXED_BITS a -> in_range FIXED_BITS b -> in_range FIXED_BITS n -> a <= b ->
    fixed_mul_int a n <= fixed_mul_int b n;
  fixed_mul_int_mono_r : forall a m n, in_range FIXED_BITS a -> in_range FIXED_BITS m -> in_range FIXED_BITS n -> m <= n ->
    fixed_mul_int a m <= fixed_mul_int a n;
  fixed_mul_int_one : forall n, in_range FIXED_BITS n -> fixed_mul_int FIXED_ONE n = n;
}.
