(* ===== verification/GenericAssetTypes.v ===== *)
(** * Generic asset: types and imbalances

    [src/crml/generic-asset/src/types.rs] (locks, reasons, asset metadata,
    permissions) and the value part of
    [src/crml/generic-asset/src/imbalances.rs].  An imbalance is a linear token:
    [mem::forget] is "nothing happens", an implicit drop is the state
    transition [drop_positive]/[drop_negative] of [GenericAsset]. *)

From S2P Require Import Prelude Support.

(** ** Locks *)

(** Simplified reasons for withdrawing balance. *)
Inductive Reasons := Fee | Misc | All.

#[global] Instance Reasons_eq_dec : EqDecision Reasons.
Proof. solve_decision. Defined.

Definition Reasons_from (r : Z) : Reasons :=
  if r =? WithdrawReasons.TRANSACTION_PAYMENT then Fee
  else if WithdrawReasons.contains r WithdrawReasons.TRANSACTION_PAYMENT then All
  else Misc.

Definition Reasons_bitor (r1 r2 : Reasons) : Reasons :=
  if decide (r1 = r2) then r1 else All.

(** [LockIdentifier] is 8 opaque bytes, read as a 64-bit number. *)
Abbreviation LockIdentifier := Z (only parsing).

Record BalanceLock := { lock_id : LockIdentifier; lock_amount : Balance; lock_reasons : Reasons }.

Record BalanceLockOld := { old_id : LockIdentifier; old_amount : Balance; old_reasons : Z }.

Definition upgrade (l : BalanceLockOld) : BalanceLock :=
  {| lock_id := old_id l; lock_amount := old_amount l; lock_reasons := Reasons_from (old_reasons l) |}.

(** ** Asset metadata *)
Record AssetInfo := { symbol : list Z; decimal_places : Z; existential_deposit : Z }.

Definition AssetInfo_new (sym : list Z) (dp ed : Z) : AssetInfo :=
  {| symbol := sym; decimal_places := dp; existential_deposit := ed |}.

Definition AssetInfo_default : AssetInfo :=
  {| symbol := []; decimal_places := 4; existential_deposit := 1 |}.

(** ** Permissions *)
Inductive Owner := Owner_None | Address (who : AccountId).

Record PermissionsV1 := { update : Owner; mint : Owner; burn : Owner }.

Definition PermissionsV1_new (owner : AccountId) : PermissionsV1 :=
  {| update := Address owner; mint := Address owner; burn := Address owner |}.

Definition PermissionsV1_default : PermissionsV1 :=
  {| update := Owner_None; mint := Owner_None; burn := Owner_None |}.

Inductive PermissionVersions := V1 (p : PermissionsV1).

Definition PermissionVersions_default : PermissionVersions := V1 PermissionsV1_default.

(** [Into<PermissionLatest>] and [Into<PermissionVersions>] *)
Definition into_latest (v : PermissionVersions) : PermissionsV1 :=
  match v with V1 p => p end.

Definition into_versions (p : PermissionsV1) : PermissionVersions := V1 p.

Inductive PermissionType := Burn | Mint | Update.

Record AssetOptions := { initial_issuance : Balance; permissions : PermissionsV1 }.

Record AllBalances := { ab_reserved : Balance; ab_staked : Balance; ab_available : Balance }.

(** *** Versioned storage encoding

    [encode_to] writes the version byte and then the payload, [decode] reads
    the version byte and rejects any other version.  The payload codec is the
    derived SCALE codec of [PermissionsV1]. *)
Definition PermissionVersionNumber_V1 : Z := 0.

Definition PermissionVersions_encode (enc : PermissionsV1 -> list Z) (v : PermissionVersions) : list Z :=
  match v with V1 payload => [PermissionVersionNumber_V1] ++ enc payload end.

Definition PermissionVersions_decode (dec : list Z -> option (PermissionsV1 * list Z))
    (input : list Z) : option (PermissionVersions * list Z) :=
  match input with
  | version :: rest =>
      if version =? PermissionVersionNumber_V1 then
        match dec rest with Some (p, rest') => Some (V1 p, rest') | None => None end
      else None
  | [] => None
  end.

(** ** Imbalances *)
Record PositiveImbalance := { pi_amount : Balance; pi_asset_id : AssetId }.

Record NegativeImbalance := { ni_amount : Balance; ni_asset_id : AssetId }.

Definition PositiveImbalance_new (amount : Balance) (asset : AssetId) : PositiveImbalance :=
  {| pi_amount := amount; pi_asset_id := asset |}.

Definition NegativeImbalance_new (amount : Balance) (asset : AssetId) : NegativeImbalance :=
  {| ni_amount := amount; ni_asset_id := asset |}.

Definition pi_zero : PositiveImbalance := PositiveImbalance_new 0 0.

Definition ni_zero : NegativeImbalance := NegativeImbalance_new 0 0.

(** [drop_zero]: [inl tt] is [Ok(())], after which the token is dropped. *)
Definition pi_drop_zero (i : PositiveImbalance) : unit + PositiveImbalance :=
  if (pi_amount i =? 0) || (pi_asset_id i =? 0) then inl tt else inr i.

Definition ni_drop_zero (i : NegativeImbalance) : unit + NegativeImbalance :=
  if (ni_amount i =? 0) || (ni_asset_id i =? 0) then inl tt else inr i.

Definition pi_split (i : PositiveImbalance) (amount : Balance) : PositiveImbalance * PositiveImbalance :=
  let first := Z.min (pi_amount i) amount in
  let second := pi_amount i - first in
  (PositiveImbalance_new first (pi_asset_id i), PositiveImbalance_new second (pi_asset_id i)).

Definition ni_split (i : NegativeImbalance) (amount : Balance) : NegativeImbalance * NegativeImbalance :=
  let first := Z.min (ni_amount i) amount in
  let second := ni_amount i - first in
  (NegativeImbalance_new first (ni_asset_id i), NegativeImbalance_new second (ni_asset_id i)).

(** [merge] and [subsume] compute the same token. *)
Definition pi_merge (i other : PositiveImbalance) : PositiveImbalance :=
  PositiveImbalance_new (saturating_add BALANCE_BITS (pi_amount i) (pi_amount other)) (pi_asset_id i).

Definition ni_merge (i other : NegativeImbalance) : NegativeImbalance :=
  NegativeImbalance_new (saturating_add BALANCE_BITS (ni_amount i) (ni_amount other)) (ni_asset_id i).

Definition pi_offset (i : PositiveImbalance) (other : NegativeImbalance)
    : SameOrOther PositiveImbalance NegativeImbalance :=
  let a := pi_amount i in
  let b := ni_amount other in
  let asset := pi_asset_id i in
  if b <=? a then Same (PositiveImbalance_new (a - b) asset)
  else Other (NegativeImbalance_new (b - a) asset).

Definition ni_offset (i : NegativeImbalance) (other : PositiveImbalance)
    : SameOrOther NegativeImbalance PositiveImbalance :=
  let a := ni_amount i in
  let b := pi_amount other in
  let asset := ni_asset_id i in
  if b <=? a then Same (NegativeImbalance_new (a - b) asset)
  else Other (PositiveImbalance_new (b - a) asset).
