(* ===== verification/GenericAsset.v ===== *)
(** * Generic asset: state and operations

    The [GenericAsset] pallet, [src/crml/generic-asset/src/lib.rs] and
    [src/crml/generic-asset/src/impls.rs]: its storage as the record [State],
    the inherent functions of [Module<T>], the eight extrinsics, the
    [AssetCurrency] implementations of the FRAME currency traits and the dust
    handler the runtime configures.  Operations that cannot fail are functions
    on [State]; dispatchable ones live in the monad [D State]. *)

From S2P Require Import Prelude Support GenericAssetTypes.

(** What the pallet's configuration supplies from outside this repository:
    the reference counters of [frame_system] accounts and the account derived
    from the pallet id that receives dust. *)
Class GaConfig := {
  SysState : Type;
  providers : AccountId -> SysState -> Z;
  inc_providers : AccountId -> SysState -> SysState;
  dust_account : AccountId;
}.

(** [decl_event!] *)
Inductive Event :=
| Created (asset : AssetId) (creator : AccountId) (options : AssetOptions)
| Transferred (asset : AssetId) (from to : AccountId) (amount : Balance)
| PermissionUpdated (asset : AssetId) (p : PermissionsV1)
| AssetInfoUpdated (asset : AssetId) (info : AssetInfo)
| Minted (asset : AssetId) (who : AccountId) (amount : Balance)
| Burned (asset : AssetId) (who : AccountId) (amount : Balance)
| DustReclaimed (asset : AssetId) (who : AccountId) (amount : Balance).

(** [enum Releases] *)
Inductive Releases := Releases_V0 | Releases_V1 | Releases_V2.

Definition Releases_u32 (r : Releases) : Z :=
  match r with Releases_V0 => 0 | Releases_V1 => 1 | Releases_V2 => 2 end.

Section GenericAsset.
Context `{GaConfig}.

(** [decl_storage!], with the account counters of [frame_system] the pallet
    touches and the deposited events. *)
Record State := mkState {
  TotalIssuance : gmap Z Balance;
  FreeBalance : gmap (Z * Z) Balance;
  ReservedBalance : gmap (Z * Z) Balance;
  NextAssetId : AssetId;
  Permissions : gmap Z PermissionVersions;
  Locks : gmap (Z * Z) (list BalanceLock);
  StakingAssetId : AssetId;
  SpendingAssetId : AssetId;
  AssetMeta : gmap Z AssetInfo;
  StorageVersion : Z;
  sys : SysState;
  events : list Event;
}.

Definition set_TotalIssuance f (s : State) : State :=
  mkState (f (TotalIssuance s)) (FreeBalance s) (ReservedBalance s) (NextAssetId s) (Permissions s)
    (Locks s) (StakingAssetId s) (SpendingAssetId s) (AssetMeta s) (StorageVersion s) (sys s) (events s).
Definition set_FreeBalance f (s : State) : State :=
  mkState (TotalIssuance s) (f (FreeBalance s)) (ReservedBalance s) (NextAssetId s) (Permissions s)
    (Locks s) (StakingAssetId s) (SpendingAssetId s) (AssetMeta s) (StorageVersion s) (sys s) (events s).
Definition set_ReservedBalance f (s : State) : State :=
  mkState (TotalIssuance s) (FreeBalance s) (f (ReservedBalance s)) (NextAssetId s) (Permissions s)
    (Locks s) (StakingAssetId s) (SpendingAssetId s) (AssetMeta s) (StorageVersion s) (sys s) (events s).
Definition set_NextAssetId n (s : State) : State :=
  mkState (TotalIssuance s) (FreeBalance s) (ReservedBalance s) n (Permissions s)
    (Locks s) (StakingAssetId s) (SpendingAssetId s) (AssetMeta s) (StorageVersion s) (sys s) (events s).
Definition set_Permissions f (s : State) : State :=
  mkState (TotalIssuance s) (FreeBalance s) (ReservedBalance s) (NextAssetId s) (f (Permissions s))
    (Locks s) (StakingAssetId s) (SpendingAssetId s) (AssetMeta s) (StorageVersion s) (sys s) (events s).
Definition set_Locks f (s : State) : State :=
  mkState (TotalIssuance s) (FreeBalance s) (ReservedBalance s) (NextAssetId s) (Permissions s)
    (f (Locks s)) (StakingAssetId s) (SpendingAssetId s) (AssetMeta s) (StorageVersion s) (sys s) (events s).
Definition set_AssetMeta f (s : State) : State :=
  mkState (TotalIssuance s) (FreeBalance s) (ReservedBalance s) (NextAssetId s) (Permissions s)
    (Locks s) (StakingAssetId s) (SpendingAssetId s) (f (AssetMeta s)) (StorageVersion s) (sys s) (events s).
Definition set_StorageVersion v (s : State) : State :=
  mkState (TotalIssuance s) (FreeBalance s) (ReservedBalance s) (NextAssetId s) (Permissions s)
    (Locks s) (StakingAssetId s) (SpendingAssetId s) (AssetMeta s) v (sys s) (events s).
Definition set_sys f (s : State) : State :=
  mkState (TotalIssuance s) (FreeBalance s) (ReservedBalance s) (NextAssetId s) (Permissions s)
    (Locks s) (StakingAssetId s) (SpendingAssetId s) (AssetMeta s) (StorageVersion s) (f (sys s)) (events s).

Definition deposit_event (e : Event) (s : State) : State :=
  mkState (TotalIssuance s) (FreeBalance s) (ReservedBalance s) (NextAssetId s) (Permissions s)
    (Locks s) (StakingAssetId s) (SpendingAssetId s) (AssetMeta s) (StorageVersion s) (sys s)
    (events s ++ [e]).

(** ** Queries *)
Definition total_issuance (asset : AssetId) (s : State) : Balance := sget 0 asset (TotalIssuance s).

Definition free_balance (asset : AssetId) (who : AccountId) (s : State) : Balance :=
  sget 0 (asset, who) (FreeBalance s).

Definition reserved_balance (asset : AssetId) (who : AccountId) (s : State) : Balance :=
  sget 0 (asset, who) (ReservedBalance s).

Definition total_balance (asset : AssetId) (who : AccountId) (s : State) : Balance :=
  wrapping_add BALANCE_BITS (free_balance asset who s) (reserved_balance asset who s).

Definition locks (asset : AssetId) (who : AccountId) (s : State) : list BalanceLock :=
  sget [] (asset, who) (Locks s).

Definition asset_meta (asset : AssetId) (s : State) : AssetInfo := sget AssetInfo_default asset (AssetMeta s).

(** [existential_deposit().saturated_into()]: a [u64] always fits a [u128]. *)
Definition minimum_balance (asset : AssetId) (s : State) : Balance :=
  saturate BALANCE_BITS (existential_deposit (asset_meta asset s)).

Definition get_permission (asset : AssetId) (s : State) : PermissionVersions :=
  sget PermissionVersions_default asset (Permissions s).

Definition check_permission (asset : AssetId) (who : AccountId) (what : PermissionType) (s : State) : bool :=
  let permission := into_latest (get_permission asset s) in
  match what, permission with
  | Burn, {| burn := Address account |} => account =? who
  | Mint, {| mint := Address account |} => account =? who
  | Update, {| update := Address account |} => account =? who
  | _, _ => false
  end.

(** The condition of one lock in [ensure_can_withdraw]. *)
Definition lock_allows (reasons : Z) (new_balance : Balance) (l : BalanceLock) : bool :=
  (lock_amount l <=? new_balance)
  || (negb (bool_decide (Reasons_from reasons = All))
      && negb (bool_decide (lock_reasons l = All))
      && negb (bool_decide (lock_reasons l = Reasons_from reasons))).

Definition ensure_can_withdraw (asset : AssetId) (who : AccountId) (amount : Balance) (reasons : Z)
    (new_balance : Balance) : D State unit :=
  let* ls := gets (locks asset who) in
  if amount =? 0 then ret tt
  else if bool_decide (ls = []) then ret tt
  else if forallb (lock_allows reasons new_balance) ls then ret tt
  else fail (GenericAsset GaError.LiquidityRestrictions).

Definition registered_assets (s : State) : list (AssetId * AssetInfo) := map_to_list (AssetMeta s).

(** [locks.iter().map(|l| l.amount).sum()] and the unchecked subtraction. *)
Definition get_all_balances (who : AccountId) (asset : AssetId) (s : State) : AllBalances :=
  let staked := foldl (fun acc l => wrapping_add BALANCE_BITS acc (lock_amount l)) 0 (locks asset who s) in
  {| ab_reserved := reserved_balance asset who s;
     ab_staked := staked;
     ab_available := wrapping_sub BALANCE_BITS (free_balance asset who s) staked |}.

(** ** Low-level balance writes *)
Definition set_free_balance (asset : AssetId) (who : AccountId) (free : Balance) (s : State) : State :=
  set_FreeBalance (insert (asset, who) free)
    (set_sys (fun y => if providers who y =? 0 then inc_providers who y else y) s).

Definition set_reserved_balance (asset : AssetId) (who : AccountId) (reserved : Balance) (s : State) : State :=
  set_ReservedBalance (fun m => if reserved =? 0 then delete (asset, who) m
                                else insert (asset, who) reserved m) s.

(** [TransferDustImbalance::on_nonzero_unbalanced]: credits the dust account
    and forgets the imbalance, so issuance does not change. *)
Definition on_nonzero_unbalanced (i : NegativeImbalance) (s : State) : State :=
  let beneficiary := dust_account in
  let beneficiary_balance := free_balance (ni_asset_id i) beneficiary s in
  set_free_balance (ni_asset_id i) beneficiary
    (saturating_add BALANCE_BITS beneficiary_balance (ni_amount i)) s.

Definition reclaim_free_balance (asset : AssetId) (who : AccountId) (s : State) : State :=
  let amount := free_balance asset who s in
  let s1 := set_FreeBalance (delete (asset, who)) s in
  let s2 := if 0 <? amount then on_nonzero_unbalanced (NegativeImbalance_new amount asset) s1 else s1 in
  deposit_event (DustReclaimed asset who amount) s2.

(** The [Drop] handlers square up the total issuance. *)
Definition drop_positive (i : PositiveImbalance) (s : State) : State :=
  set_TotalIssuance (insert (pi_asset_id i)
    (saturating_add BALANCE_BITS (total_issuance (pi_asset_id i) s) (pi_amount i))) s.

Definition drop_negative (i : NegativeImbalance) (s : State) : State :=
  set_TotalIssuance (insert (ni_asset_id i)
    (saturating_sub (total_issuance (ni_asset_id i) s) (ni_amount i))) s.

(** ** Minting and burning *)
Definition mint_free (asset : AssetId) (who to : AccountId) (amount : Balance) : D State unit :=
  let* allowed := gets (check_permission asset who Mint) in
  if allowed then
    let* original_free_balance := gets (free_balance asset to) in
    let* current_total_issuance := gets (total_issuance asset) in
    let* new_total_issuance := ok_or (checked_add BALANCE_BITS current_total_issuance amount)
      (GenericAsset GaError.TotalMintingOverflow) in
    let* value := ok_or (checked_add BALANCE_BITS original_free_balance amount)
      (GenericAsset GaError.FreeMintingOverflow) in
    do* modify (set_TotalIssuance (insert asset new_total_issuance)) in
    modify (set_free_balance asset to value)
  else fail (GenericAsset GaError.NoMintPermission).

Definition burn_free (asset : AssetId) (who to : AccountId) (amount : Balance) : D State unit :=
  let* allowed := gets (check_permission asset who Burn) in
  if allowed then
    let* original_free_balance := gets (free_balance asset to) in
    let* current_total_issuance := gets (total_issuance asset) in
    let* new_total_issuance := ok_or (checked_sub current_total_issuance amount)
      (GenericAsset GaError.TotalBurningUnderflow) in
    let* value := ok_or (checked_sub original_free_balance amount)
      (GenericAsset GaError.FreeBurningUnderflow) in
    do* modify (set_TotalIssuance (insert asset new_total_issuance)) in
    modify (set_free_balance asset to value)
  else fail (GenericAsset GaError.NoBurnPermission).

(** ** Asset creation *)

(** The choice of the asset id: a reserved one, or the next free one. *)
Definition claim_asset_id (asset : option AssetId) : D State AssetId :=
  match asset with
  | Some asset_id =>
      do* ensure (negb (asset_id =? 0)) (GenericAsset GaError.AssetIdExists) in
      let* issued := gets (fun s => TotalIssuance s !! asset_id) in
      do* ensure (bool_decide (issued = None)) (GenericAsset GaError.AssetIdExists) in
      let* next := gets NextAssetId in
      do* ensure (asset_id <? next) (GenericAsset GaError.AssetIdExists) in
      ret asset_id
  | None =>
      let* asset_id := gets NextAssetId in
      let* next_id := ok_or (checked_add ASSET_BITS asset_id 1) (GenericAsset GaError.AssetIdExhausted) in
      do* modify (set_NextAssetId next_id) in
      ret asset_id
  end.

(** [10u128.checked_pow(decimal_places)] *)
Definition checked_pow10 (n : Z) : option Z :=
  if 10 ^ n <=? umax 128 then Some (10 ^ n) else None.

Definition create_asset (asset : option AssetId) (from_account : option AccountId)
    (options : AssetOptions) (info : AssetInfo) : D State unit :=
  do* ensure (negb (existential_deposit info =? 0)) (GenericAsset GaError.ZeroExistentialDeposit) in
  let* factor := ok_or (checked_pow10 (decimal_places info)) (GenericAsset GaError.DecimalTooLarge) in
  let decimal_factor := saturate BALANCE_BITS factor in
  let* issuance := ok_or (checked_mul BALANCE_BITS decimal_factor (initial_issuance options))
    (GenericAsset GaError.InitialIssuanceTooLarge) in
  let* asset_id := claim_asset_id asset in
  let account_id := default default_account from_account in
  do* modify (set_TotalIssuance (insert asset_id issuance)) in
  do* modify (set_free_balance asset_id account_id issuance) in
  do* modify (set_Permissions (insert asset_id (into_versions (permissions options)))) in
  do* modify (set_AssetMeta (insert asset_id info)) in
  modify (deposit_event (Created asset_id account_id options)).

(** ** Transfers *)
Definition make_transfer (asset : AssetId) (from to : AccountId) (amount : Balance)
    (_req : ExistenceRequirement) : D State unit :=
  let* from_balance := gets (free_balance asset from) in
  let* new_from_balance := ok_or (checked_sub from_balance amount)
    (GenericAsset GaError.InsufficientBalance) in
  let* to_balance := gets (free_balance asset to) in
  let* new_to_balance := ok_or (checked_add BALANCE_BITS to_balance amount)
    (GenericAsset GaError.TransferOverflow) in
  do* ensure_can_withdraw asset from amount WithdrawReasons.TRANSFER new_from_balance in
  if from =? to then ret tt
  else
    do* modify (set_free_balance asset to new_to_balance) in
    do* modify (set_free_balance asset from new_from_balance) in
    let* existential_deposit := gets (minimum_balance asset) in
    if new_from_balance <? existential_deposit then modify (reclaim_free_balance asset from)
    else ret tt.

Definition make_transfer_with_event (asset : AssetId) (from to : AccountId) (amount : Balance)
    (req : ExistenceRequirement) : D State unit :=
  do* make_transfer asset from to amount req in
  if negb (from =? to) then modify (deposit_event (Transferred asset from to amount)) else ret tt.

(** ** Reserves *)
Definition reserve (asset : AssetId) (who : AccountId) (amount : Balance) : D State unit :=
  let* original_reserve_balance := gets (reserved_balance asset who) in
  let* original_free_balance := gets (free_balance asset who) in
  if original_free_balance <? amount then fail (GenericAsset GaError.InsufficientBalance)
  else
    let new_reserve_balance := wrapping_add BALANCE_BITS original_reserve_balance amount in
    let new_free_balance := wrapping_sub BALANCE_BITS original_free_balance amount in
    let* existential_deposit := gets (minimum_balance asset) in
    do* (if new_free_balance <? existential_deposit then modify (reclaim_free_balance asset who)
         else modify (set_FreeBalance (insert (asset, who) new_free_balance))) in
    modify (set_ReservedBalance (insert (asset, who) new_reserve_balance)).

Definition unreserve (asset : AssetId) (who : AccountId) (amount : Balance) (s : State) : Balance * State :=
  let b := reserved_balance asset who s in
  let actual := Z.min b amount in
  let original_free_balance := free_balance asset who s in
  let new_free_balance := wrapping_add BALANCE_BITS original_free_balance actual in
  let new_reserved_balance := b - actual in
  (amount - actual,
   set_FreeBalance (insert (asset, who) new_free_balance)
     (set_reserved_balance asset who new_reserved_balance s)).

Definition slash_reserved (asset : AssetId) (who : AccountId) (amount : Balance) (s : State)
    : option Balance * State :=
  let original_reserve_balance := reserved_balance asset who s in
  let slash := Z.min original_reserve_balance amount in
  let new_reserve_balance := original_reserve_balance - slash in
  (if amount =? slash then None else Some (amount - slash),
   set_reserved_balance asset who new_reserve_balance s).

Definition slash (asset : AssetId) (who : AccountId) (amount : Balance) (s : State)
    : option Balance * State :=
  let free := free_balance asset who s in
  let free_slash := Z.min free amount in
  let new_free_balance := free - free_slash in
  let s1 := set_free_balance asset who new_free_balance s in
  if free_slash <? amount then slash_reserved asset who (amount - free_slash) s1 else (None, s1).

Definition repatriate_reserved (asset : AssetId) (payee beneficiary : AccountId) (amount : Balance)
    (s : State) : Balance * State :=
  if amount =? 0 then (0, s)
  else
    let payee_reserve_balance := reserved_balance asset payee s in
    let repatriated_amount := Z.min payee_reserve_balance amount in
    let beneficiary_free_balance := free_balance asset beneficiary s in
    let new_beneficiary_free_balance :=
      wrapping_add BALANCE_BITS beneficiary_free_balance repatriated_amount in
    let new_payee_reserve_balance := payee_reserve_balance - repatriated_amount in
    (amount - repatriated_amount,
     set_reserved_balance asset payee new_payee_reserve_balance
       (set_FreeBalance (insert (asset, beneficiary) new_beneficiary_free_balance) s)).

(** ** Locks *)

(** The [filter_map] of [set_lock]: the first lock with the id is replaced by
    the new one ([new_lock.take()]), later ones are dropped. *)
Fixpoint replace_lock (id : LockIdentifier) (merge : BalanceLock -> BalanceLock -> BalanceLock)
    (new_lock : option BalanceLock) (ls : list BalanceLock) : list BalanceLock * option BalanceLock :=
  match ls with
  | [] => ([], new_lock)
  | l :: rest =>
      if lock_id l =? id then
        let '(rest', left_over) := replace_lock id merge None rest in
        (match new_lock with Some nl => merge l nl :: rest' | None => rest' end, left_over)
      else
        let '(rest', left_over) := replace_lock id merge new_lock rest in
        (l :: rest', left_over)
  end.

(** [if let Some(lock) = new_lock { locks.push(lock) }] *)
Definition push_left_over (r : list BalanceLock * option BalanceLock) : list BalanceLock :=
  let '(ls, left_over) := r in
  match left_over with Some l => ls ++ [l] | None => ls end.

Definition set_lock (id : LockIdentifier) (asset : AssetId) (who : AccountId) (amount : Balance)
    (reasons : Z) (s : State) : State :=
  let new_lock := {| lock_id := id; lock_amount := amount; lock_reasons := Reasons_from reasons |} in
  let ls := push_left_over (replace_lock id (fun _ nl => nl) (Some new_lock) (locks asset who s)) in
  set_Locks (insert (asset, who) ls) s.

(** The merge of [extend_lock]. *)
Definition extend (l nl : BalanceLock) : BalanceLock :=
  {| lock_id := lock_id l;
     lock_amount := Z.max (lock_amount l) (lock_amount nl);
     lock_reasons := Reasons_bitor (lock_reasons l) (lock_reasons nl) |}.

Definition extend_lock (id : LockIdentifier) (asset : AssetId) (who : AccountId) (amount : Balance)
    (reasons : Z) (s : State) : State :=
  let new_lock := {| lock_id := id; lock_amount := amount; lock_reasons := Reasons_from reasons |} in
  let ls := push_left_over (replace_lock id extend (Some new_lock) (locks asset who s)) in
  set_Locks (insert (asset, who) ls) s.

Definition remove_lock (id : LockIdentifier) (asset : AssetId) (who : AccountId) (s : State) : State :=
  let ls := List.filter (fun l => negb (lock_id l =? id)) (locks asset who s) in
  if bool_decide (ls = []) then set_Locks (delete (asset, who)) s
  else set_Locks (insert (asset, who) ls) s.

(** ** Extrinsics *)
Definition create (origin : Origin) (owner : AccountId) (options : AssetOptions) (info : AssetInfo)
    : D State unit :=
  do* (if is_signed origin then ret tt else ensure_root origin) in
  create_asset None (Some owner) options info.

Definition transfer (origin : Origin) (asset : AssetId) (to : AccountId) (amount : Balance) : D State unit :=
  let* origin := ensure_signed origin in
  do* ensure (negb (amount =? 0)) (GenericAsset GaError.ZeroAmount) in
  make_transfer_with_event asset origin to amount AllowDeath.

Definition transfer_all (origin : Origin) (asset : AssetId) (to : AccountId) : D State unit :=
  let* origin := ensure_signed origin in
  let* amount := gets (free_balance asset origin) in
  make_transfer_with_event asset origin to amount AllowDeath.

Definition update_permission (origin : Origin) (asset : AssetId) (new_permission : PermissionsV1)
    : D State unit :=
  let* origin := ensure_signed origin in
  let permissions := into_versions new_permission in
  let* allowed := gets (check_permission asset origin Update) in
  if allowed then
    do* modify (set_Permissions (insert asset permissions)) in
    modify (deposit_event (PermissionUpdated asset (into_latest permissions)))
  else fail (GenericAsset GaError.NoUpdatePermission).

Definition update_asset_info (origin : Origin) (asset : AssetId) (info : AssetInfo) : D State unit :=
  let* origin := ensure_signed origin in
  let* issued := gets (fun s => TotalIssuance s !! asset) in
  do* ensure (bool_decide (is_Some issued)) (GenericAsset GaError.AssetIdNotExist) in
  let* allowed := gets (check_permission asset origin Update) in
  do* ensure allowed (GenericAsset GaError.NoUpdatePermission) in
  do* modify (set_AssetMeta (insert asset info)) in
  modify (deposit_event (AssetInfoUpdated asset info)).

Definition mint_call (origin : Origin) (asset : AssetId) (to : AccountId) (amount : Balance) : D State unit :=
  let* who := ensure_signed origin in
  do* mint_free asset who to amount in
  modify (deposit_event (Minted asset to amount)).

Definition burn_call (origin : Origin) (asset : AssetId) (target : AccountId) (amount : Balance)
    : D State unit :=
  let* who := ensure_signed origin in
  do* burn_free asset who target amount in
  modify (deposit_event (Burned asset target amount)).

Definition create_reserved (origin : Origin) (asset : AssetId) (options : AssetOptions) (info : AssetInfo)
    : D State unit :=
  do* ensure_root origin in
  create_asset (Some asset) None options info.

(** [on_runtime_upgrade]: the lock migration to [Reasons]; [old] is the [Locks]
    map read under its previous value type. *)
Definition on_runtime_upgrade (old : gmap (Z * Z) (list BalanceLockOld)) (s : State) : Z * State :=
  if negb (StorageVersion s =? Releases_u32 Releases_V1) then (0, s)
  else
    let s1 := set_StorageVersion (Releases_u32 Releases_V2) s in
    let ls := map_to_list old in
    (Z.of_nat (length ls) * 100000,
     foldl (fun s '(k, old_locks) => set_Locks (insert k (upgrade <$> old_locks)) s) s1 ls).

(** ** [AssetCurrency]: the FRAME currency traits for one asset

    The asset is the parameter [U : AssetIdAuthority] of the Rust type. *)
Section AssetCurrency.
Variable asset_id : State -> AssetId.

Definition ac_transfer (transactor dest : AccountId) (value : Balance) (req : ExistenceRequirement)
    : D State unit :=
  let* asset := gets asset_id in
  make_transfer asset transactor dest value req.

Definition ac_withdraw (who : AccountId) (value : Balance) (reasons : Z) (_req : ExistenceRequirement)
    : D State NegativeImbalance :=
  let* asset := gets asset_id in
  let* free := gets (free_balance asset who) in
  let* new_balance := ok_or (checked_sub free value) (GenericAsset GaError.InsufficientBalance) in
  do* ensure_can_withdraw asset who value reasons new_balance in
  let* min := gets (minimum_balance asset) in
  do* (if new_balance <? min then modify (reclaim_free_balance asset who)
       else modify (set_free_balance asset who new_balance)) in
  ret (NegativeImbalance_new value asset).

Definition ac_make_free_balance_be (who : AccountId) (balance : Balance) (s : State)
    : SignedImbalance PositiveImbalance NegativeImbalance * State :=
  let asset := asset_id s in
  let original := free_balance asset who s in
  let imbalance :=
    if original <=? balance then Positive (PositiveImbalance_new (balance - original) asset)
    else Negative (NegativeImbalance_new (original - balance) asset) in
  (imbalance, set_free_balance asset who balance s).

(** In the branch the code calls impossible the negative imbalance is dropped. *)
Definition ac_deposit_creating (who : AccountId) (value : Balance) (s : State)
    : PositiveImbalance * State :=
  let asset := asset_id s in
  match ac_make_free_balance_be who
          (wrapping_add BALANCE_BITS (free_balance asset who s) value) s with
  | (Positive p, s') => (p, s')
  | (Negative n, s') => (pi_zero, drop_negative n s')
  end.

Definition ac_deposit_into_existing (who : AccountId) (value : Balance) : D State PositiveImbalance :=
  let* asset := gets asset_id in
  let* entry := gets (fun s => FreeBalance s !! (asset, who)) in
  if bool_decide (is_Some entry) then state (ac_deposit_creating who value)
  else fail (GenericAsset GaError.AccountIdNotExist).

Definition ac_can_slash (who : AccountId) (value : Balance) (s : State) : bool :=
  value <=? free_balance (asset_id s) who s.

Definition ac_slash (who : AccountId) (value : Balance) (s : State) : (NegativeImbalance * Balance) * State :=
  let asset := asset_id s in
  match slash asset who value s with
  | (Some r, s') => ((NegativeImbalance_new (value - r) asset, r), s')
  | (None, s') => ((NegativeImbalance_new value asset, 0), s')
  end.

(** [burn] computes the reduced issuance inside [mutate] but does not assign it:
    the entry keeps its value (and exists afterwards). *)
Definition ac_burn (amount : Balance) (s : State) : PositiveImbalance * State :=
  let asset := asset_id s in
  let issued := total_issuance asset s in
  let amount' := match checked_sub issued amount with Some _ => amount | None => issued end in
  (PositiveImbalance_new amount' asset, set_TotalIssuance (insert asset issued) s).

Definition ac_issue (amount : Balance) (s : State) : NegativeImbalance * State :=
  let asset := asset_id s in
  let issued := total_issuance asset s in
  match checked_add BALANCE_BITS issued amount with
  | Some issued' => (NegativeImbalance_new amount asset, set_TotalIssuance (insert asset issued') s)
  | None => (NegativeImbalance_new (MAX_BALANCE - issued) asset,
             set_TotalIssuance (insert asset MAX_BALANCE) s)
  end.

Definition ac_can_reserve (who : AccountId) (value : Balance) (s : State) : bool :=
  match checked_sub (free_balance (asset_id s) who s) value with
  | None => false
  | Some new_balance =>
      match fst (ensure_can_withdraw (asset_id s) who value WithdrawReasons.RESERVE new_balance s) with
      | Ok _ => true
      | _ => false
      end
  end.

Definition ac_slash_reserved (who : AccountId) (value : Balance) (s : State)
    : (NegativeImbalance * Balance) * State :=
  let asset := asset_id s in
  let '(r, s') := slash_reserved asset who value s in
  let leftover := default 0 r in
  ((NegativeImbalance_new (value - leftover) asset, leftover), s').
End AssetCurrency.

(** [StakingAssetIdAuthority] and [SpendingAssetIdAuthority] *)
Definition staking_asset_id (s : State) : AssetId := StakingAssetId s.
Definition spending_asset_id (s : State) : AssetId := SpendingAssetId s.

(** [Inspect] for the spending asset. *)
Inductive DepositConsequence := BelowMinimum | Deposit_Success | Deposit_Overflow.
Inductive WithdrawConsequence := Withdraw_Success | NoFunds.

Definition can_deposit (who : AccountId) (amount : Balance) (s : State) : DepositConsequence :=
  match checked_add BALANCE_BITS (free_balance (spending_asset_id s) who s) amount with
  | Some balance =>
      if balance <? minimum_balance (spending_asset_id s) s then BelowMinimum else Deposit_Success
  | None => Deposit_Overflow
  end.

Definition can_withdraw (who : AccountId) (amount : Balance) (s : State) : WithdrawConsequence :=
  match checked_sub (free_balance (spending_asset_id s) who s) amount with
  | Some _ => Withdraw_Success
  | None => NoFunds
  end.

(** ** [MultiCurrency] for the pallet ([impls.rs]) *)
Definition mc_make_free_balance_be (who : AccountId) (asset : AssetId) (balance : Balance) (s : State)
    : SignedImbalance PositiveImbalance NegativeImbalance * State :=
  let original := free_balance asset who s in
  let imbalance :=
    if original <=? balance then Positive (PositiveImbalance_new (balance - original) asset)
    else Negative (NegativeImbalance_new (original - balance) asset) in
  (imbalance, set_free_balance asset who balance s).

Definition mc_deposit_creating (who : AccountId) (asset : AssetId) (value : Balance) (s : State)
    : PositiveImbalance * State :=
  if value =? 0 then (pi_zero, s)
  else
    match mc_make_free_balance_be who asset
            (wrapping_add BALANCE_BITS (free_balance asset who s) value) s with
    | (Positive p, s') => (p, s')
    | (Negative n, s') => (pi_zero, drop_negative n s')
    end.

Definition mc_deposit_into_existing (who : AccountId) (asset : AssetId) (value : Balance)
    : D State PositiveImbalance :=
  state (mc_deposit_creating who asset value).

Definition mc_transfer (transactor dest : AccountId) (asset : AssetId) (value : Balance)
    (req : ExistenceRequirement) : D State unit :=
  if value =? 0 then ret tt else make_transfer asset transactor dest value req.

Definition mc_withdraw (who : AccountId) (asset : AssetId) (value : Balance) (reasons : Z)
    (_ex : ExistenceRequirement) : D State NegativeImbalance :=
  if value =? 0 then ret ni_zero
  else
    let* free := gets (free_balance asset who) in
    let* new_balance := ok_or (checked_sub free value) (GenericAsset GaError.InsufficientBalance) in
    do* ensure_can_withdraw asset who value reasons new_balance in
    do* modify (set_free_balance asset who new_balance) in
    ret (NegativeImbalance_new value asset).

Definition mc_reserve (who : AccountId) (asset : AssetId) (amount : Balance) : D State unit :=
  if amount =? 0 then ret tt else reserve asset who amount.

Definition mc_unreserve (who : AccountId) (asset : AssetId) (amount : Balance) (s : State) : Balance * State :=
  if amount =? 0 then (0, s) else unreserve asset who amount s.

Definition mc_create (owner : AccountId) (initial_supply : Balance) (decimal_places : Z)
    (minimum_balance : Z) (symbol : list Z) : D State AssetId :=
  let* asset_id := gets NextAssetId in
  do* create_asset None (Some owner)
    {| initial_issuance := initial_supply;
       permissions := {| update := Address owner; mint := Address owner; burn := Address owner |} |}
    (AssetInfo_new symbol decimal_places minimum_balance) in
  ret asset_id.

(** ** Genesis *)
Record GenesisConfig := {
  gc_assets : list AssetId;
  gc_initial_balance : Balance;
  gc_endowed_accounts : list AccountId;
  gc_permissions : list (AssetId * AccountId);
  gc_next_asset_id : AssetId;
  gc_staking_asset_id : AssetId;
  gc_spending_asset_id : AssetId;
  gc_asset_meta : list (AssetId * AssetInfo);
}.

Definition genesis_issuance (config : GenesisConfig) : Balance :=
  wrapping_mul BALANCE_BITS (gc_initial_balance config)
    (wrap 32 (Z.of_nat (length (gc_endowed_accounts config)))).

Definition genesis_endow (config : GenesisConfig) (s : State) : State :=
  foldl (fun s asset =>
      foldl (fun s who => set_free_balance asset who (gc_initial_balance config) s) s
        (gc_endowed_accounts config)) s (gc_assets config).

(** The [build]/[config] expressions of the storage items. *)
Definition genesis_storage (config : GenesisConfig) (sys0 : SysState) : State := {|
  TotalIssuance := foldl (fun m id => <[id := genesis_issuance config]> m) ∅ (gc_assets config);
  FreeBalance := ∅;
  ReservedBalance := ∅;
  NextAssetId := gc_next_asset_id config;
  Permissions := foldl (fun m '(id, owner) => <[id := into_versions (PermissionsV1_new owner)]> m) ∅
                   (gc_permissions config);
  Locks := ∅;
  StakingAssetId := gc_staking_asset_id config;
  SpendingAssetId := gc_spending_asset_id config;
  AssetMeta := foldl (fun m '(id, info) => <[id := info]> m) ∅ (gc_asset_meta config);
  StorageVersion := Releases_u32 Releases_V1;
  sys := sys0;
  events := [];
|}.

(** The extra genesis [build] closure runs after them. *)
Definition genesis_build (config : GenesisConfig) (sys0 : SysState) : State :=
  set_AssetMeta (fun m => foldl (fun m '(id, info) => <[id := info]> m) m (gc_asset_meta config))
    (genesis_endow config (genesis_storage config sys0)).
End GenericAsset.

#[global] Arguments check_permission : simpl never.
#[global] Arguments free_balance : simpl never.
#[global] Arguments reserved_balance : simpl never.
#[global] Arguments total_issuance : simpl never.
#[global] Arguments minimum_balance : simpl never.
#[global] Arguments set_free_balance : simpl never.
#[global] Arguments set_reserved_balance : simpl never.
#[global] Arguments reclaim_free_balance : simpl never.
#[global] Arguments ensure_can_withdraw : simpl never.
#[global] Arguments checked_pow10 : simpl never.
