(* ===== verification/GenericAssetProps.v ===== *)
(** * Generic asset: accounting lemmas

    What each write of the pallet does to the balances of one account, to the
    amount of an asset held by all accounts and to the total issuance; the
    lemmas the theorems on the pallet and on its clients are built from. *)

From S2P Require Import Prelude Support GenericAssetTypes GenericAsset.

Section Accounting.
Context `{GaConfig}.
Implicit Types (s : State) (a b : AssetId) (w v : AccountId).

(** ** The amount of an asset held by all accounts *)
Definition of_asset (a : AssetId) (k : Z * Z) (x : Balance) : Z := if k.1 =? a then x else 0.

Definition asset_free a s : Z := msum (of_asset a) (FreeBalance s).

Definition asset_reserved a s : Z := msum (of_asset a) (ReservedBalance s).

(** Free and reserved balances of every account. *)
Definition held a s : Z := asset_free a s + asset_reserved a s.

(** Balances are never negative numbers: storage holds [u128] values. *)
Record balances_ok s : Prop := {
  ok_free : forall k x, FreeBalance s !! k = Some x -> 0 <= x;
  ok_reserved : forall k x, ReservedBalance s !! k = Some x -> 0 <= x;
}.

Lemma mval_of_asset a (m : gmap (Z * Z) Balance) b w :
  mval (of_asset a) (b, w) m = if b =? a then sget 0 (b, w) m else 0.
Proof. unfold mval, of_asset, sget. simpl. by destruct (m !! (b, w)); case_match. Qed.

Lemma of_asset_pair a b w x : of_asset a (b, w) x = if b =? a then x else 0.
Proof. done. Qed.

Lemma of_asset_nonneg a (m : gmap (Z * Z) Balance) :
  (forall k x, m !! k = Some x -> 0 <= x) -> forall k x, m !! k = Some x -> 0 <= of_asset a k x.
Proof. intros Hm k x Hk. unfold of_asset. case_match; [eauto | lia]. Qed.

Lemma free_balance_nonneg a w s : balances_ok s -> 0 <= free_balance a w s.
Proof.
  intros [Hf _]. unfold free_balance, sget. destruct (FreeBalance s !! (a, w)) eqn:E; simpl; eauto; lia.
Qed.

Lemma reserved_balance_nonneg a w s : balances_ok s -> 0 <= reserved_balance a w s.
Proof.
  intros [_ Hr]. unfold reserved_balance, sget.
  destruct (ReservedBalance s !! (a, w)) eqn:E; simpl; eauto; lia.
Qed.

Lemma free_le_asset_free a w s : balances_ok s -> free_balance a w s <= asset_free a s.
Proof.
  intros Hs. pose proof (mval_le_msum (of_asset a) (FreeBalance s) (a, w)) as Hle.
  rewrite mval_of_asset, Z.eqb_refl in Hle. apply Hle, of_asset_nonneg, Hs.
Qed.

Lemma two_free_le_asset_free a w v s : w <> v -> balances_ok s ->
  free_balance a w s + free_balance a v s <= asset_free a s.
Proof.
  intros Hne Hs. pose proof (mval2_le_msum (of_asset a) (FreeBalance s) (a, w) (a, v)) as Hle.
  rewrite !mval_of_asset, !Z.eqb_refl in Hle. apply Hle; [congruence|]. apply of_asset_nonneg, Hs.
Qed.

Lemma reserved_le_asset_reserved a w s : balances_ok s -> reserved_balance a w s <= asset_reserved a s.
Proof.
  intros Hs. pose proof (mval_le_msum (of_asset a) (ReservedBalance s) (a, w)) as Hle.
  rewrite mval_of_asset, Z.eqb_refl in Hle. apply Hle, of_asset_nonneg, Hs.
Qed.

Lemma asset_free_nonneg a s : balances_ok s -> 0 <= asset_free a s.
Proof. intros Hs. apply msum_nonneg, of_asset_nonneg, Hs. Qed.

Lemma asset_reserved_nonneg a s : balances_ok s -> 0 <= asset_reserved a s.
Proof. intros Hs. apply msum_nonneg, of_asset_nonneg, Hs. Qed.

Lemma free_reserved_le_held a w v s : balances_ok s ->
  free_balance a w s + reserved_balance a v s <= held a s.
Proof.
  intros Hs. pose proof (free_le_asset_free a w s Hs). pose proof (reserved_le_asset_reserved a v s Hs).
  unfold held. lia.
Qed.

Lemma free_le_held a w s : balances_ok s -> free_balance a w s <= held a s.
Proof.
  intros Hs. pose proof (free_le_asset_free a w s Hs). pose proof (asset_reserved_nonneg a s Hs).
  unfold held. lia.
Qed.

(** ** Writes of a free balance *)
Lemma FreeBalance_set_free_balance a w x s :
  FreeBalance (set_free_balance a w x s) = <[(a, w) := x]> (FreeBalance s).
Proof. done. Qed.

Lemma ReservedBalance_set_free_balance a w x s :
  ReservedBalance (set_free_balance a w x s) = ReservedBalance s.
Proof. done. Qed.

Lemma TotalIssuance_set_free_balance a w x s :
  TotalIssuance (set_free_balance a w x s) = TotalIssuance s.
Proof. done. Qed.

Lemma sget_insert (k k' : Z * Z) (x : Balance) (m : gmap (Z * Z) Balance) :
  sget 0 k' (<[k := x]> m) = if decide (k = k') then x else sget 0 k' m.
Proof. unfold sget. rewrite lookup_insert. by case_decide. Qed.

Lemma sget_delete (k k' : Z * Z) (m : gmap (Z * Z) Balance) :
  sget 0 k' (delete k m) = if decide (k = k') then 0 else sget 0 k' m.
Proof. unfold sget. rewrite lookup_delete. by case_decide. Qed.

Lemma free_balance_set_free_balance a w x b v s :
  free_balance b v (set_free_balance a w x s) = if decide ((a, w) = (b, v)) then x else free_balance b v s.
Proof. unfold free_balance. by rewrite FreeBalance_set_free_balance, sget_insert. Qed.

Lemma reserved_balance_set_free_balance a w x b v s :
  reserved_balance b v (set_free_balance a w x s) = reserved_balance b v s.
Proof. unfold reserved_balance. by rewrite ReservedBalance_set_free_balance. Qed.

Lemma reserved_balance_set_reserved_balance a w x b v s :
  reserved_balance b v (set_reserved_balance a w x s) =
  if decide ((a, w) = (b, v)) then x else reserved_balance b v s.
Proof.
  unfold reserved_balance, set_reserved_balance. destruct (Z.eqb_spec x 0) as [->|]; simpl.
  - by rewrite sget_delete.
  - by rewrite sget_insert.
Qed.

Lemma free_balance_set_reserved_balance a w x b v s :
  free_balance b v (set_reserved_balance a w x s) = free_balance b v s.
Proof. done. Qed.

Lemma total_issuance_set_free_balance a w x b s :
  total_issuance b (set_free_balance a w x s) = total_issuance b s.
Proof. unfold total_issuance. by rewrite TotalIssuance_set_free_balance. Qed.

Lemma total_issuance_set_reserved_balance a w x b s :
  total_issuance b (set_reserved_balance a w x s) = total_issuance b s.
Proof. done. Qed.

Lemma total_issuance_insert a b x s :
  total_issuance b (set_TotalIssuance (insert a x) s) = if decide (a = b) then x else total_issuance b s.
Proof. unfold total_issuance, sget. simpl. rewrite lookup_insert. by case_decide. Qed.

(** ** What the writes do to the held amount *)
Lemma held_set_free_balance a b w x s :
  held a (set_free_balance b w x s) = held a s + (if b =? a then x - free_balance b w s else 0).
Proof.
  unfold held, asset_free, asset_reserved.
  rewrite FreeBalance_set_free_balance, ReservedBalance_set_free_balance, msum_insert, mval_of_asset.
  rewrite of_asset_pair. unfold free_balance. case_match; lia.
Qed.

Lemma held_insert_free a b w x s :
  held a (set_FreeBalance (insert (b, w) x) s) = held a s + (if b =? a then x - free_balance b w s else 0).
Proof.
  unfold held, asset_free, asset_reserved. simpl. rewrite msum_insert, mval_of_asset.
  rewrite of_asset_pair. unfold free_balance. case_match; lia.
Qed.

Lemma held_delete_free a b w s :
  held a (set_FreeBalance (delete (b, w)) s) = held a s - (if b =? a then free_balance b w s else 0).
Proof.
  unfold held, asset_free, asset_reserved. simpl. rewrite msum_delete, mval_of_asset.
  unfold free_balance. case_match; lia.
Qed.

Lemma held_insert_reserved a b w x s :
  held a (set_ReservedBalance (insert (b, w) x) s) =
  held a s + (if b =? a then x - reserved_balance b w s else 0).
Proof.
  unfold held, asset_free, asset_reserved. simpl. rewrite msum_insert, mval_of_asset.
  rewrite of_asset_pair. unfold reserved_balance. case_match; lia.
Qed.

Lemma held_set_reserved_balance a b w x s :
  held a (set_reserved_balance b w x s) = held a s + (if b =? a then x - reserved_balance b w s else 0).
Proof.
  unfold set_reserved_balance. destruct (Z.eqb_spec x 0) as [->|].
  - unfold held, asset_free, asset_reserved. simpl. rewrite msum_delete, mval_of_asset.
    unfold reserved_balance. case_match; lia.
  - apply held_insert_reserved.
Qed.

Lemma held_set_TotalIssuance a f s : held a (set_TotalIssuance f s) = held a s.
Proof. done. Qed.

Lemma held_deposit_event a e s : held a (deposit_event e s) = held a s.
Proof. done. Qed.

(** ** Well-formedness is kept by non-negative writes *)
Lemma balances_ok_set_free a w x s : 0 <= x -> balances_ok s -> balances_ok (set_free_balance a w x s).
Proof.
  intros Hx [Hf Hr]. split; rewrite ?FreeBalance_set_free_balance, ?ReservedBalance_set_free_balance; [|done].
  intros k y [[_ <-]|[_ Hk]]%lookup_insert_Some; eauto.
Qed.

Lemma balances_ok_insert_free k x s : 0 <= x -> balances_ok s -> balances_ok (set_FreeBalance (insert k x) s).
Proof.
  intros Hx [Hf Hr]. split; simpl; [|done].
  intros k' y [[_ <-]|[_ Hk]]%lookup_insert_Some; eauto.
Qed.

Lemma balances_ok_delete_free k s : balances_ok s -> balances_ok (set_FreeBalance (delete k) s).
Proof. intros [Hf Hr]. split; simpl; [|done]. intros k' y [_ Hk]%lookup_delete_Some. eauto. Qed.

Lemma balances_ok_insert_reserved k x s :
  0 <= x -> balances_ok s -> balances_ok (set_ReservedBalance (insert k x) s).
Proof.
  intros Hx [Hf Hr]. split; simpl; [done|].
  intros k' y [[_ <-]|[_ Hk]]%lookup_insert_Some; eauto.
Qed.

Lemma balances_ok_set_reserved a w x s :
  0 <= x -> balances_ok s -> balances_ok (set_reserved_balance a w x s).
Proof.
  intros Hx Hs. unfold set_reserved_balance. case_match; [|by apply balances_ok_insert_reserved].
  destruct Hs as [Hf Hr]. split; simpl; [done|]. intros k' y [_ Hk]%lookup_delete_Some. eauto.
Qed.

Lemma balances_ok_set_TotalIssuance f s : balances_ok s -> balances_ok (set_TotalIssuance f s).
Proof. intros [Hf Hr]. by split. Qed.

Lemma balances_ok_deposit_event e s : balances_ok s -> balances_ok (deposit_event e s).
Proof. intros [Hf Hr]. by split. Qed.
End Accounting.

Create HintDb ga.
Create Rewrite HintDb ga.
#[export] Hint Resolve balances_ok_set_free balances_ok_insert_free balances_ok_delete_free
  balances_ok_insert_reserved balances_ok_set_reserved balances_ok_set_TotalIssuance
  balances_ok_deposit_event free_balance_nonneg reserved_balance_nonneg : ga.

#[export] Hint Rewrite @held_set_free_balance @held_insert_free @held_delete_free @held_insert_reserved
  @held_set_reserved_balance @held_set_TotalIssuance @held_deposit_event
  @free_balance_set_free_balance @reserved_balance_set_free_balance
  @reserved_balance_set_reserved_balance @free_balance_set_reserved_balance
  @total_issuance_set_free_balance @total_issuance_set_reserved_balance @total_issuance_insert : ga.

(** Rewrites with the accounting lemmas and closes the case analysis. *)
Ltac ga_simpl := autorewrite with ga in *; rewrite ?Z.eqb_refl in *;
  repeat case_decide; simplify_eq/=.
