(* ===== verification/GenericAssetInv.v ===== *)
(** * Generic asset: the solvency invariant

    The invariant that ties balances to issuance, its preservation by every
    operation of the pallet that keeps it, and the lemmas on each operation's
    effect that the theorems of [GenericAssetTheorems] are read off from. *)

From S2P Require Import Prelude Support GenericAssetTypes GenericAsset GenericAssetProps.

(** The extrinsics as data ([enum Call] of [decl_module!]) and their dispatch. *)
Inductive Call :=
| C_create (owner : AccountId) (options : AssetOptions) (info : AssetInfo)
| C_transfer (asset : AssetId) (to : AccountId) (amount : Balance)
| C_transfer_all (asset : AssetId) (to : AccountId)
| C_update_permission (asset : AssetId) (new_permission : PermissionsV1)
| C_update_asset_info (asset : AssetId) (info : AssetInfo)
| C_mint (asset : AssetId) (to : AccountId) (amount : Balance)
| C_burn (asset : AssetId) (target : AccountId) (amount : Balance)
| C_create_reserved (asset : AssetId) (options : AssetOptions) (info : AssetInfo).

Section Invariant.
Context `{GaConfig}.
Implicit Types (s : State) (a b : AssetId) (w v : AccountId).

Definition dispatch (c : Call) (origin : Origin) : D State unit :=
  match c with
  | C_create owner options info => create origin owner options info
  | C_transfer asset to amount => transfer origin asset to amount
  | C_transfer_all asset to => transfer_all origin asset to
  | C_update_permission asset p => update_permission origin asset p
  | C_update_asset_info asset info => update_asset_info origin asset info
  | C_mint asset to amount => mint_call origin asset to amount
  | C_burn asset target amount => burn_call origin asset target amount
  | C_create_reserved asset options info => create_reserved origin asset options info
  end.

(** The arguments of a call are values of their machine types. *)
Definition call_ok (c : Call) : Prop :=
  match c with
  | C_transfer _ _ amount | C_mint _ _ amount | C_burn _ _ amount => in_range BALANCE_BITS amount
  | C_create _ options _ | C_create_reserved _ options _ => in_range BALANCE_BITS (initial_issuance options)
  | _ => True
  end.

(** Solvency: every asset's issuance is exactly what the accounts hold, it fits
    a [u128], and neither an issuance nor permissions exist at or above the next
    id. *)
Record inv s : Prop := {
  inv_ok : balances_ok s;
  inv_issuance : forall a, held a s = total_issuance a s;
  inv_max : forall a, total_issuance a s <= MAX_BALANCE;
  inv_fresh : forall a, NextAssetId s <= a -> TotalIssuance s !! a = None;
  inv_perms : forall a, NextAssetId s <= a -> Permissions s !! a = None;
}.

Lemma inv_free_le_max a w s : inv s -> free_balance a w s <= MAX_BALANCE.
Proof.
  intros Hs. pose proof (free_le_held a w s (inv_ok s Hs)).
  rewrite inv_issuance in * by done. pose proof (inv_max s Hs a). lia.
Qed.

(** ** Reclaiming dust *)

(** The free balance a reclaim leaves behind, as a function on accounts. *)
Definition sweep (from : AccountId) (f : AccountId -> Z) (w : AccountId) : Z :=
  let f' v := if v =? from then 0 else f v in
  if w =? dust_account then f' w + f from else f' w.

Lemma reclaim_no_saturation a w s : balances_ok s -> held a s <= MAX_BALANCE ->
  free_balance a dust_account (set_FreeBalance (delete (a, w)) s) + free_balance a w s <= MAX_BALANCE.
Proof.
  intros Hs Hmax. unfold free_balance at 1. simpl. rewrite sget_delete. case_decide as Hd; simplify_eq.
  - pose proof (free_le_held a dust_account s Hs). lia.
  - fold (free_balance a dust_account s).
    pose proof (two_free_le_asset_free a dust_account w s) as H2.
    pose proof (asset_reserved_nonneg a s Hs). unfold held in *.
    specialize (H2 ltac:(congruence) Hs). lia.
Qed.

Lemma reclaim_free_balance_view a w b v s : balances_ok s -> held a s <= MAX_BALANCE ->
  free_balance b v (reclaim_free_balance a w s) =
  if b =? a then sweep w (fun v => free_balance a v s) v else free_balance b v s.
Proof.
  intros Hs Hmax. pose proof (reclaim_no_saturation a w s Hs Hmax) as Hsat.
  pose proof (free_balance_nonneg a w s Hs) as Hnn.
  unfold reclaim_free_balance, on_nonzero_unbalanced, sweep. simpl.
  rewrite saturating_add_small by exact Hsat.
  change (free_balance b v (deposit_event ?e ?s)) with (free_balance b v s).
  destruct (Z.ltb_spec 0 (free_balance a w s)) as [Hpos|Hz]; rewrite ?free_balance_set_free_balance;
    unfold free_balance in *; simpl in *; rewrite ?sget_delete in *; repeat case_decide; simplify_eq;
    repeat match goal with |- context [?x =? ?y] => destruct (Z.eqb_spec x y) end; simplify_eq; lia.
Qed.

Lemma reclaim_held a b w s : balances_ok s -> held b s <= MAX_BALANCE ->
  held a (reclaim_free_balance b w s) = held a s.
Proof.
  intros Hs Hmax. pose proof (reclaim_no_saturation b w s Hs Hmax) as Hsat.
  pose proof (free_balance_nonneg b w s Hs) as Hnn.
  unfold reclaim_free_balance, on_nonzero_unbalanced. simpl.
  rewrite saturating_add_small by exact Hsat.
  case_match; bool_to_prop; autorewrite with ga; case_match; lia.
Qed.

Lemma reclaim_ok b w s : balances_ok s -> held b s <= MAX_BALANCE ->
  balances_ok (reclaim_free_balance b w s).
Proof.
  intros Hs Hmax. pose proof (reclaim_no_saturation b w s Hs Hmax) as Hsat.
  pose proof (free_balance_nonneg b w s Hs) as Hnn.
  unfold reclaim_free_balance, on_nonzero_unbalanced. simpl.
  rewrite saturating_add_small by exact Hsat.
  apply balances_ok_deposit_event. case_match; eauto with ga.
  apply balances_ok_set_free; eauto with ga.
  pose proof (free_balance_nonneg b dust_account _ (balances_ok_delete_free (b, w) s Hs)). lia.
Qed.

Lemma reclaim_TotalIssuance b w s : TotalIssuance (reclaim_free_balance b w s) = TotalIssuance s.
Proof.
  unfold reclaim_free_balance, on_nonzero_unbalanced. simpl.
  case_match; [by rewrite TotalIssuance_set_free_balance | done].
Qed.

Lemma NextAssetId_set_free_balance a w x s : NextAssetId (set_free_balance a w x s) = NextAssetId s.
Proof. done. Qed.

Lemma reclaim_NextAssetId b w s : NextAssetId (reclaim_free_balance b w s) = NextAssetId s.
Proof.
  unfold reclaim_free_balance, on_nonzero_unbalanced. simpl.
  case_match; [by rewrite NextAssetId_set_free_balance | done].
Qed.

Lemma Permissions_set_free_balance a w x s : Permissions (set_free_balance a w x s) = Permissions s.
Proof. done. Qed.

Lemma reclaim_Permissions b w s : Permissions (reclaim_free_balance b w s) = Permissions s.
Proof.
  unfold reclaim_free_balance, on_nonzero_unbalanced. simpl.
  case_match; [by rewrite Permissions_set_free_balance | done].
Qed.

Lemma ReservedBalance_reclaim b w s : ReservedBalance (reclaim_free_balance b w s) = ReservedBalance s.
Proof.
  unfold reclaim_free_balance, on_nonzero_unbalanced. simpl.
  case_match; [by rewrite ReservedBalance_set_free_balance | done].
Qed.

(** The state a non-trivial transfer leaves before and after the dust rule. *)
Definition moved a (from to : AccountId) (amount : Balance) s : State :=
  set_free_balance a from (free_balance a from s - amount)
    (set_free_balance a to (free_balance a to s + amount) s).

Definition settled a (from to : AccountId) (amount : Balance) s : State :=
  if from =? to then s
  else if free_balance a from s - amount <? minimum_balance a s
  then reclaim_free_balance a from (moved a from to amount s) else moved a from to amount s.

Lemma AssetMeta_set_free_balance a w x s : AssetMeta (set_free_balance a w x s) = AssetMeta s.
Proof. done. Qed.

Lemma minimum_balance_set_free_balance a w x b s :
  minimum_balance b (set_free_balance a w x s) = minimum_balance b s.
Proof. unfold minimum_balance, asset_meta. by rewrite AssetMeta_set_free_balance. Qed.

(** When a withdrawal passes the locks. *)
Definition locks_allow a w (amount : Balance) (reasons : Z) (new_balance : Balance) s : bool :=
  (amount =? 0) || forallb (lock_allows reasons new_balance) (locks a w s).

Lemma ensure_can_withdraw_eq a w amount reasons nb s :
  ensure_can_withdraw a w amount reasons nb s =
  (if locks_allow a w amount reasons nb s then Ok tt
   else Err (GenericAsset GaError.LiquidityRestrictions), s).
Proof.
  unfold ensure_can_withdraw, locks_allow, bind, gets, ret, fail.
  destruct (amount =? 0); [done|]. simpl. case_bool_decide as Hl; [by rewrite Hl | by case_match].
Qed.

(** [make_transfer] as a decision table. *)
Lemma make_transfer_eq a from to amount req s :
  make_transfer a from to amount req s =
  if free_balance a from s <? amount then (Err (GenericAsset GaError.InsufficientBalance), s)
  else if MAX_BALANCE <? free_balance a to s + amount then (Err (GenericAsset GaError.TransferOverflow), s)
  else if negb (locks_allow a from amount WithdrawReasons.TRANSFER (free_balance a from s - amount) s)
  then (Err (GenericAsset GaError.LiquidityRestrictions), s)
  else (Ok tt, settled a from to amount s).
Proof.
  unfold make_transfer, settled, moved, bind, gets, ok_or, modify, ret, checked_sub, checked_add, fail.
  rewrite Z.leb_antisym. destruct (free_balance a from s <? amount) eqn:E1; simpl; [done|].
  fold MAX_BALANCE. rewrite Z.leb_antisym.
  destruct (MAX_BALANCE <? free_balance a to s + amount) eqn:E2; simpl; [done|].
  rewrite ensure_can_withdraw_eq. destruct (locks_allow _ _ _ _ _ _); simpl; [|done].
  destruct (from =? to); [done|]. rewrite !minimum_balance_set_free_balance. by case_match.
Qed.

(** ** What a transfer does *)

(** The transfer as a function on the balances of the accounts. *)
Definition move (from to : AccountId) (amount : Z) (f : AccountId -> Z) (w : AccountId) : Z :=
  if w =? from then f from - amount else if w =? to then f to + amount else f w.

Lemma moved_view a from to amount b w s : from <> to ->
  free_balance b w (moved a from to amount s) =
  if b =? a then move from to amount (fun v => free_balance a v s) w else free_balance b w s.
Proof.
  intros Hne. unfold moved, move. rewrite !free_balance_set_free_balance.
  repeat case_decide; simplify_eq;
    repeat match goal with |- context [?x =? ?y] => destruct (Z.eqb_spec x y) end; simplify_eq; lia.
Qed.

Lemma moved_held a from to amount b s : from <> to -> held b (moved a from to amount s) = held b s.
Proof.
  intros Hne. unfold moved. autorewrite with ga. repeat case_decide; simplify_eq; case_match; lia.
Qed.

Lemma moved_ok a from to amount s : 0 <= amount <= free_balance a from s ->
  balances_ok s -> balances_ok (moved a from to amount s).
Proof.
  intros Hle Hs. pose proof (free_balance_nonneg a to s Hs). unfold moved. eauto with ga lia.
Qed.

Lemma moved_TotalIssuance a from to amount s : TotalIssuance (moved a from to amount s) = TotalIssuance s.
Proof. unfold moved. by rewrite !TotalIssuance_set_free_balance. Qed.

Lemma moved_NextAssetId a from to amount s : NextAssetId (moved a from to amount s) = NextAssetId s.
Proof. unfold moved. by rewrite !NextAssetId_set_free_balance. Qed.

Lemma moved_Permissions a from to amount s : Permissions (moved a from to amount s) = Permissions s.
Proof. unfold moved. by rewrite !Permissions_set_free_balance. Qed.

(** A step that keeps the held amounts, the issuance and the next id keeps the
    invariant. *)
Lemma inv_frame s s' : inv s -> balances_ok s' -> (forall a, held a s' = held a s) ->
  TotalIssuance s' = TotalIssuance s -> NextAssetId s' = NextAssetId s ->
  Permissions s' = Permissions s -> inv s'.
Proof.
  intros Hs Hok Hheld Hti Hnext Hperm. split; [done | | | |].
  - intros a. rewrite Hheld, inv_issuance by done. unfold total_issuance. by rewrite Hti.
  - intros a. unfold total_issuance. rewrite Hti. apply Hs.
  - intros a Ha. rewrite Hti. apply Hs. by rewrite <- Hnext.
  - intros a Ha. rewrite Hperm. apply Hs. by rewrite <- Hnext.
Qed.

Lemma settled_inv a from to amount s : 0 <= amount <= free_balance a from s ->
  inv s -> inv (settled a from to amount s).
Proof.
  intros Hle Hs. unfold settled. destruct (Z.eqb_spec from to) as [|Hne]; [done|].
  assert (Hm : inv (moved a from to amount s)).
  { apply (inv_frame s); eauto using moved_ok, moved_held, moved_TotalIssuance, moved_NextAssetId,
      moved_Permissions, inv_ok. }
  case_match; [|done].
  assert (Hmax : held a (moved a from to amount s) <= MAX_BALANCE)
    by (rewrite inv_issuance by done; apply Hm).
  apply (inv_frame (moved a from to amount s));
    eauto using reclaim_ok, reclaim_held, reclaim_TotalIssuance, reclaim_NextAssetId,
      reclaim_Permissions, inv_ok.
Qed.

Lemma settled_view a from to amount b w s :
  from <> to -> 0 <= amount <= free_balance a from s -> inv s ->
  free_balance b w (settled a from to amount s) =
  if b =? a then
    let f := move from to amount (fun v => free_balance a v s) in
    if f from <? minimum_balance a s then sweep from f w else f w
  else free_balance b w s.
Proof.
  intros Hne Hle Hs. assert (Hok := inv_ok s Hs).
  assert (Hmax : held a (moved a from to amount s) <= MAX_BALANCE)
    by (rewrite moved_held, inv_issuance by done; apply Hs).
  unfold settled. rewrite (proj2 (Z.eqb_neq _ _) Hne).
  replace (move from to amount (fun v => free_balance a v s) from) with (free_balance a from s - amount)
    by (unfold move; by rewrite Z.eqb_refl).
  case_match; [|by apply moved_view].
  rewrite reclaim_free_balance_view by (done || by apply moved_ok).
  unfold sweep. rewrite !moved_view by done. by destruct (b =? a); rewrite ?Z.eqb_refl.
Qed.

(** ** Preservation by the operations *)
Lemma make_transfer_inv a from to amount req : 0 <= amount -> preserves inv (make_transfer a from to amount req).
Proof.
  intros Hnn s Hs. rewrite make_transfer_eq. repeat case_match; simpl; try done.
  apply settled_inv; [bool_to_prop; lia | done].
Qed.

Lemma inv_deposit_event e s : inv s -> inv (deposit_event e s).
Proof. intros Hs. apply (inv_frame s); eauto using balances_ok_deposit_event, inv_ok. Qed.

Lemma make_transfer_with_event_inv a from to amount req : 0 <= amount ->
  preserves inv (make_transfer_with_event a from to amount req).
Proof.
  intros Hnn. apply preserves_bind; [by apply make_transfer_inv | intros _].
  apply preserves_if; [apply preserves_modify, inv_deposit_event | by apply preserves_reader].
Qed.

(** Changing one account's free balance and the issuance by the same amount. *)
Lemma inv_issue_to a w x s : inv s -> 0 <= free_balance a w s + x ->
  total_issuance a s + x <= MAX_BALANCE -> a < NextAssetId s ->
  inv (set_free_balance a w (free_balance a w s + x)
         (set_TotalIssuance (insert a (total_issuance a s + x)) s)).
Proof.
  intros Hs Hnn Hmax Hid.
  split; [eauto using inv_ok with ga | | | |].
  - intros b. rewrite held_set_free_balance, held_set_TotalIssuance, total_issuance_set_free_balance,
      total_issuance_insert, inv_issuance by done.
    change (free_balance a w (set_TotalIssuance ?f s)) with (free_balance a w s).
    destruct (Z.eqb_spec a b); case_decide; simplify_eq; lia.
  - intros b. rewrite total_issuance_set_free_balance, total_issuance_insert.
    case_decide; [done | apply Hs].
  - intros b. rewrite NextAssetId_set_free_balance, TotalIssuance_set_free_balance. simpl. intros Hb.
    rewrite lookup_insert_ne by lia. by apply Hs.
  - intros b. rewrite NextAssetId_set_free_balance, Permissions_set_free_balance. simpl. apply Hs.
Qed.

Lemma check_permission_known a w what s : inv s -> check_permission a w what s = true -> a < NextAssetId s.
Proof.
  intros Hs Hc. destruct (Z.lt_ge_cases a (NextAssetId s)) as [|Hge]; [done|].
  unfold check_permission, get_permission, sget in Hc. rewrite inv_perms in Hc by done.
  by destruct what.
Qed.

Lemma mint_free_inv a who to amount : 0 <= amount -> preserves inv (mint_free a who to amount).
Proof.
  intros Hnn s Hs. unfold mint_free. run_dispatch. bool_to_prop.
  apply inv_issue_to; eauto using check_permission_known.
  pose proof (free_balance_nonneg a to s (inv_ok s Hs)). lia.
Qed.

Lemma burn_free_inv a who to amount : 0 <= amount -> preserves inv (burn_free a who to amount).
Proof.
  intros Hnn s Hs. unfold burn_free. run_dispatch. bool_to_prop.
  apply (inv_issue_to a to (- amount)); eauto using check_permission_known; try lia.
  pose proof (inv_max s Hs a). lia.
Qed.

(** A fresh asset with its whole issuance on one account. *)
Lemma inv_new_asset a w x perm meta e next s :
  inv s -> 0 <= x <= MAX_BALANCE -> TotalIssuance s !! a = None -> a < next -> NextAssetId s <= next ->
  inv (deposit_event e (set_AssetMeta meta (set_Permissions (insert a perm)
        (set_free_balance a w x (set_TotalIssuance (insert a x) (set_NextAssetId next s)))))).
Proof.
  intros Hs Hx Hnew Ha Hnext.
  assert (Hheld : held a s = 0) by (rewrite inv_issuance by done; unfold total_issuance, sget; by rewrite Hnew).
  pose proof (free_le_held a w s (inv_ok s Hs)). pose proof (free_balance_nonneg a w s (inv_ok s Hs)).
  assert (Hzero : free_balance a w s = 0) by lia.
  set (s1 := set_TotalIssuance (insert a x) (set_NextAssetId next s)).
  set (s2 := set_free_balance a w x s1).
  assert (Hheld2 : forall b, held b s2 = held b s + (if a =? b then x else 0)).
  { intros b. unfold s2. rewrite held_set_free_balance.
    change (held b s1) with (held b s). change (free_balance a w s1) with (free_balance a w s).
    rewrite Hzero. case_match; lia. }
  assert (Hti : forall b, total_issuance b s2 = if decide (a = b) then x else total_issuance b s).
  { intros b. unfold s2, s1. rewrite total_issuance_set_free_balance, total_issuance_insert. done. }
  assert (Hok2 : balances_ok s2).
  { apply balances_ok_set_free, balances_ok_set_TotalIssuance; [lia|].
    destruct (inv_ok s Hs) as [Hf Hr]. by split. }
  split.
  - apply balances_ok_deposit_event. destruct Hok2 as [Hf Hr]. by split.
  - intros b. change (held b s2 = total_issuance b s2). rewrite Hheld2, Hti.
    pose proof (inv_issuance s Hs b). destruct (Z.eqb_spec a b); case_decide; simplify_eq; lia.
  - intros b. change (total_issuance b s2 <= MAX_BALANCE). rewrite Hti. case_decide; [lia | apply Hs].
  - intros b. change (NextAssetId s2 <= b -> TotalIssuance s2 !! b = None). unfold s2.
    rewrite NextAssetId_set_free_balance, TotalIssuance_set_free_balance. unfold s1. simpl. intros Hb.
    rewrite lookup_insert_ne by lia. apply Hs. lia.
  - intros b. change (NextAssetId s2 <= b -> <[a := perm]> (Permissions s2) !! b = None). unfold s2.
    rewrite NextAssetId_set_free_balance, Permissions_set_free_balance. unfold s1. simpl. intros Hb.
    rewrite lookup_insert_ne by lia. apply Hs. lia.
Qed.

Lemma set_NextAssetId_same s : set_NextAssetId (NextAssetId s) s = s.
Proof. by destruct s. Qed.

Lemma checked_pow10_nonneg n x : checked_pow10 n = Some x -> 0 <= x.
Proof.
  unfold checked_pow10. case_match; [|done]. intros [= <-]. apply Z.pow_nonneg. lia.
Qed.

Lemma create_asset_inv asset from options info : 0 <= initial_issuance options ->
  preserves inv (create_asset asset from options info).
Proof.
  intros Hnn s Hs. unfold create_asset, claim_asset_id. run_dispatch; bool_to_prop;
    match goal with Hp : checked_pow10 _ = Some ?z |- _ =>
      apply checked_pow10_nonneg in Hp;
      assert (0 <= saturate BALANCE_BITS z) by (unfold saturate, umax, BALANCE_BITS; lia) end.
  - rewrite <- (set_NextAssetId_same s) at 1. apply inv_new_asset; try done; try lia.
    + split; [nia | done].
    + by eapply bool_decide_eq_true.
  - apply inv_new_asset; try done; try lia; [split; [nia | done]|]. apply inv_fresh; [done | lia].
Qed.
End Invariant.

(** ** A concrete configuration for the witnesses *)
Module Demo.
#[local] Instance config : GaConfig := {|
  SysState := gmap Z Z;
  providers w m := sget 0 w m;
  inc_providers w m := <[w := sget 0 w m + 1]> m;
  dust_account := 99;
|}.

(** Asset 1 with existential deposit 5: account 10 holds 100 and account 11 holds 20. *)
Definition s0 : State := {|
  TotalIssuance := {[1 := 120]};
  FreeBalance := {[(1, 10) := 100; (1, 11) := 20]};
  ReservedBalance := ∅;
  NextAssetId := 1000;
  Permissions := {[1 := V1 (PermissionsV1_new 10)]};
  Locks := ∅;
  StakingAssetId := 1;
  SpendingAssetId := 1;
  AssetMeta := {[1 := AssetInfo_new [] 4 5]};
  StorageVersion := 1;
  sys := ∅;
  events := [];
|}.

Definition gc : GenesisConfig := {|
  gc_assets := [1; 2];
  gc_initial_balance := 50;
  gc_endowed_accounts := [10; 11];
  gc_permissions := [(1, 10)];
  gc_next_asset_id := 1000;
  gc_staking_asset_id := 1;
  gc_spending_asset_id := 2;
  gc_asset_meta := [];
|}.
Lemma s0_inv : inv s0.
Proof.
  assert (Hf : FreeBalance s0 = <[(1, 10) := 100]> (<[(1, 11) := 20]> ∅)) by done.
  assert (Ht : TotalIssuance s0 = <[1 := 120]> ∅) by done.
  assert (Hp : Permissions s0 = <[1 := V1 (PermissionsV1_new 10)]> ∅) by done.
  assert (Hheld : forall a, held a s0 = if 1 =? a then 120 else 0).
  { intros a. unfold held, asset_free, asset_reserved. rewrite Hf. change (ReservedBalance s0) with (∅ : gmap (Z * Z) Z).
    rewrite !msum_insert, !msum_empty, !mval_of_asset, !of_asset_pair. destruct (1 =? a); vm_compute; reflexivity. }
  assert (Hti : forall a, total_issuance a s0 = if 1 =? a then 120 else 0).
  { intros a. unfold total_issuance, sget. rewrite Ht, lookup_insert, lookup_empty.
    destruct (Z.eqb_spec 1 a); case_decide; simplify_eq; done. }
  split.
  - split; [rewrite Hf | done]. intros k x. rewrite !lookup_insert_Some, lookup_empty. naive_solver lia.
  - intros a. by rewrite Hheld, Hti.
  - intros a. rewrite Hti. by destruct (1 =? a).
  - intros a Ha. simpl in Ha. rewrite Ht, lookup_insert_ne by lia. apply lookup_empty.
  - intros a Ha. simpl in Ha. rewrite Hp, lookup_insert_ne by lia. apply lookup_empty.
Qed.

(** The same chain with 100 of account 10's balance locked for any reason. *)
Definition s_locked : State :=
  set_Locks (insert (1, 10) [{| lock_id := 7; lock_amount := 90; lock_reasons := All |}]) s0.

(** The same chain after account 10 reserved 40. *)
Definition s_reserved : State := snd (reserve 1 10 40 s0).
End Demo.
