(* ===== verification/GenericAssetTheorems.v ===== *)
(** * Generic asset: theorems

    The correctness properties of the pallet: solvency of every reachable
    state, atomicity of the extrinsics, the functional behaviour of transfers,
    reserves, locks and imbalances, the authority the permissions give, and
    the places where the accounting of the code does not close. *)

From S2P Require Import Prelude Support GenericAssetTypes GenericAsset GenericAssetProps GenericAssetInv.

Section Theorems.
Context `{GaConfig}.
Implicit Types (s : State) (a b : AssetId) (w v : AccountId).

(** ** Solvency along every run *)

(** Extrinsics applied one after the other.  A failed one leaves behind what it
    wrote before it failed. *)
Inductive run : State -> State -> Prop :=
| run_refl s : run s s
| run_step s s1 c origin : call_ok c -> run s s1 -> run s (snd (dispatch c origin s1)).

Lemma dispatch_inv c origin : call_ok c -> preserves inv (dispatch c origin).
Proof.
  assert (Hr : forall A (m : D State A), reader m -> preserves inv m) by (intros A m Hm; by apply preserves_reader).
  assert (He : forall e, @preserves DispatchError _ _ inv (modify (deposit_event e)))
    by (intros e; apply preserves_modify, inv_deposit_event).
  destruct c; simpl; unfold in_range; intros Hc.
  - apply preserves_bind; [|intros _; apply create_asset_inv, Hc].
    apply Hr. destruct origin; eauto with dispatch.
  - apply preserves_bind; [apply Hr; eauto with dispatch | intros ?].
    apply preserves_bind; [apply Hr; eauto with dispatch | intros ?]. apply make_transfer_with_event_inv, Hc.
  - intros s Hs. unfold transfer_all, bind, gets. destruct origin; simpl; try done.
    apply make_transfer_with_event_inv; [apply free_balance_nonneg, Hs | done].
  - intros s Hs. unfold update_permission. destruct origin; run_dispatch. apply inv_deposit_event.
    match goal with Hc : check_permission _ _ _ _ = true |- _ => apply check_permission_known in Hc; [|done] end.
    destruct (inv_ok s Hs). split; try apply Hs; [by split|]. simpl. intros b Hb.
    rewrite lookup_insert_ne by lia. by apply Hs.
  - intros s Hs. unfold update_asset_info. destruct origin; run_dispatch. apply inv_deposit_event.
    apply (inv_frame s); try done. by destruct (inv_ok s Hs).
  - apply preserves_bind; [apply Hr; eauto with dispatch | intros ?].
    apply preserves_bind; [apply mint_free_inv, Hc | intros _; apply He].
  - apply preserves_bind; [apply Hr; eauto with dispatch | intros ?].
    apply preserves_bind; [apply burn_free_inv, Hc | intros _; apply He].
  - apply preserves_bind; [apply Hr; eauto with dispatch | intros _; apply create_asset_inv, Hc].
Qed.

(** C1: from a solvent state, every sequence of extrinsics, whatever their
    origins and whether they succeed or fail, leads to a solvent state: for
    every asset the total issuance is exactly the sum of all free and reserved
    balances, it fits a [u128], and ids not yet handed out carry no issuance. *)
Theorem run_solvent s s' : inv s -> run s s' -> inv s'.
Proof.
  intros Hs Hrun. induction Hrun as [|s s1 c origin Hc _ IH]; [done|]. apply dispatch_inv; auto.
Qed.

(** ** Atomicity *)
Lemma reader_ensure_can_withdraw a w amount reasons nb : reader (ensure_can_withdraw a w amount reasons nb).
Proof. intros s. by rewrite ensure_can_withdraw_eq. Qed.

Lemma make_transfer_noop a from to amount req : noop_on_err (make_transfer a from to amount req).
Proof. intros s e s' Hr. rewrite make_transfer_eq in Hr. repeat case_match; by simplify_eq. Qed.

Lemma make_transfer_with_event_noop a from to amount req :
  noop_on_err (make_transfer_with_event a from to amount req).
Proof. apply noop_bind_infallible; [apply make_transfer_noop | eauto with dispatch]. Qed.

Lemma create_asset_noop asset from options info : noop_on_err (create_asset asset from options info).
Proof.
  do 3 (apply noop_bind_reader; [eauto with dispatch | intros]).
  apply noop_bind_infallible; [|eauto 20 with dispatch].
  destruct asset; unfold claim_asset_id; solve_noop.
Qed.

(** C36: no extrinsic of the pallet leaves a partial write behind: when it
    returns an error the storage is exactly what it was, although none of them
    is declared transactional. *)
Theorem extrinsics_noop_on_err c origin : noop_on_err (dispatch c origin).
Proof.
  destruct c; simpl.
  - apply noop_bind_reader; [|intros; apply create_asset_noop].
    destruct origin; eauto with dispatch.
  - do 2 (apply noop_bind_reader; [eauto with dispatch | intros]). apply make_transfer_with_event_noop.
  - do 2 (apply noop_bind_reader; [eauto with dispatch | intros]). apply make_transfer_with_event_noop.
  - unfold update_permission. solve_noop.
  - unfold update_asset_info. solve_noop.
  - unfold mint_call, mint_free. solve_noop.
  - unfold burn_call, burn_free. solve_noop.
  - apply noop_bind_reader; [eauto with dispatch | intros]. apply create_asset_noop.
Qed.

(** ** Genesis *)
Lemma foldl_insert_const {V} (x : V) (l : list Z) (m : gmap Z V) a :
  foldl (fun m id => <[id := x]> m) m l !! a = if decide (a ∈ l) then Some x else m !! a.
Proof.
  revert m. induction l as [|b l IH]; intros m; simpl; [done|]. rewrite IH, lookup_insert.
  repeat case_decide; set_solver.
Qed.

Lemma foldl_insert_keys {V V'} (f : V -> V') (l : list (Z * V)) (m : gmap Z V') a :
  a ∉ l.*1 -> foldl (fun m '(id, x) => <[id := f x]> m) m l !! a = m !! a.
Proof.
  revert m. induction l as [|[b x] l IH]; intros m Ha; simpl in *; [done|].
  rewrite IH by set_solver. rewrite lookup_insert_ne; set_solver.
Qed.

(** Endowing the accounts of a list with one asset. *)
Definition endow (x : Balance) a (l : list AccountId) s : State :=
  foldl (fun s w => set_free_balance a w x s) s l.

Lemma endow_spec x a l s :
  0 <= x -> NoDup l -> balances_ok s -> (forall w, w ∈ l -> free_balance a w s = 0) ->
  balances_ok (endow x a l s) /\
  (forall b, held b (endow x a l s) = held b s + (if a =? b then x * Z.of_nat (length l) else 0)) /\
  (forall b w, b <> a -> free_balance b w (endow x a l s) = free_balance b w s) /\
  TotalIssuance (endow x a l s) = TotalIssuance s /\
  NextAssetId (endow x a l s) = NextAssetId s /\
  Permissions (endow x a l s) = Permissions s.
Proof.
  intros Hx. revert s. induction l as [|w l IH]; intros s Hnd Hok Hz; simpl.
  { split_and!; try done. intros b. case_match; lia. }
  apply NoDup_cons in Hnd as [Hw Hnd].
  assert (Hz' : forall v, v ∈ l -> free_balance a v (set_free_balance a w x s) = 0).
  { intros v Hv. rewrite free_balance_set_free_balance. case_decide; [set_solver|]. apply Hz. set_solver. }
  destruct (IH (set_free_balance a w x s)) as (H1 & H2 & H3 & H4 & H5 & H6); try done; eauto with ga.
  split_and!; try done.
  - intros b. rewrite H2, held_set_free_balance, (Hz w) by set_solver. case_match; lia.
  - intros b v Hb. rewrite H3, free_balance_set_free_balance by done. case_decide; simplify_eq; done.
Qed.

Lemma endow_all_spec x l assets s :
  0 <= x -> NoDup l -> NoDup assets -> balances_ok s ->
  (forall a w, a ∈ assets -> free_balance a w s = 0) ->
  let s' := foldl (fun s a => endow x a l s) s assets in
  balances_ok s' /\
  (forall b, held b s' = held b s + (if decide (b ∈ assets) then x * Z.of_nat (length l) else 0)) /\
  TotalIssuance s' = TotalIssuance s /\ NextAssetId s' = NextAssetId s /\ Permissions s' = Permissions s.
Proof.
  intros Hx Hl. revert s. induction assets as [|a assets IH]; intros s Hnd Hok Hz; cbv zeta; cbn [foldl].
  { split_and!; try done. intros b. rewrite decide_False by set_solver. lia. }
  apply NoDup_cons in Hnd as [Ha Hnd].
  destruct (endow_spec x a l s) as (H1 & H2 & H3 & H4 & H5 & H6); try done.
  { intros w _. apply Hz. set_solver. }
  destruct (IH (endow x a l s)) as (I1 & I2 & I4 & I5 & I6); try done.
  { intros b w Hb. rewrite H3; [apply Hz; set_solver | set_solver]. }
  split_and!; try congruence.
  intros b. rewrite I2, H2. destruct (Z.eqb_spec a b); repeat case_decide;
    first [lia | exfalso; set_solver].
Qed.

(** The genesis configuration starts the chain in a solvent state, provided
    the configured accounts and assets are listed once, the genesis issuance
    fits the balance type and the configured ids lie below the next id. *)
Theorem genesis_solvent config sys0 :
  NoDup (gc_assets config) -> NoDup (gc_endowed_accounts config) ->
  0 <= gc_initial_balance config ->
  Z.of_nat (length (gc_endowed_accounts config)) < 2 ^ 32 ->
  gc_initial_balance config * Z.of_nat (length (gc_endowed_accounts config)) <= MAX_BALANCE ->
  Forall (fun a => a < gc_next_asset_id config) (gc_assets config) ->
  Forall (fun '(a, _) => a < gc_next_asset_id config) (gc_permissions config) ->
  inv (genesis_build config sys0).
Proof.
  intros Hna Hnw Hb Hlen Hmax Hassets Hperms.
  assert (Hiss : genesis_issuance config =
                 gc_initial_balance config * Z.of_nat (length (gc_endowed_accounts config))).
  { unfold genesis_issuance, wrapping_mul. rewrite (wrap_small 32) by (unfold in_range, umax; lia).
    apply wrap_small. split; [nia | exact Hmax]. }
  destruct (endow_all_spec (gc_initial_balance config) (gc_endowed_accounts config) (gc_assets config)
    (genesis_storage config sys0)) as (H1 & H2 & H3 & H4 & H5); try done.
  change (foldl _ _ _) with (genesis_endow config (genesis_storage config sys0)) in *.
  set (s1 := genesis_endow config (genesis_storage config sys0)) in *.
  assert (Hti : forall a, TotalIssuance s1 !! a =
                          if decide (a ∈ gc_assets config) then Some (genesis_issuance config) else None).
  { intros a. rewrite H3. simpl. by rewrite foldl_insert_const. }
  assert (H0 : forall a, held a (genesis_storage config sys0) = 0) by (intros a; done).
  split.
  - destruct H1 as [Hf Hr]. by split.
  - intros a. change (held a s1 = total_issuance a s1). unfold total_issuance, sget.
    rewrite H2, H0, Hti. case_decide; simpl; lia.
  - intros a. change (total_issuance a s1 <= MAX_BALANCE). unfold total_issuance, sget. rewrite Hti.
    case_decide; simpl; [lia | done].
  - intros a. change (NextAssetId s1 <= a -> TotalIssuance s1 !! a = None). rewrite H4, Hti. simpl.
    rewrite Forall_forall in Hassets. case_decide as Hd; [|done]. apply Hassets in Hd. lia.
  - intros a. change (NextAssetId s1 <= a -> Permissions s1 !! a = None). rewrite H4, H5. simpl. intros Ha.
    rewrite (foldl_insert_keys (fun owner => into_versions (PermissionsV1_new owner))); [done|].
    rewrite Forall_forall in Hperms. intros [[b owner] [-> Hin]]%list_elem_of_fmap.
    apply Hperms in Hin. simpl in *. lia.
Qed.
End Theorems.

(** ** Witnesses *)
Lemma run_solvent_witness :
  inv (snd (dispatch (C_mint 1 12 7) (Signed 10) (snd (dispatch (C_transfer 1 11 97) (Signed 10) Demo.s0)))).
Proof.
  apply (run_solvent Demo.s0); [apply Demo.s0_inv|].
  apply run_step; [vm_compute; split; discriminate|].
  apply run_step; [vm_compute; split; discriminate|]. apply run_refl.
Defined.

Lemma genesis_solvent_witness : inv (@genesis_build Demo.config Demo.gc ∅).
Proof.
  apply genesis_solvent.
  - apply (bool_decide_unpack _). vm_compute. exact I.
  - apply (bool_decide_unpack _). vm_compute. exact I.
  - vm_compute. discriminate.
  - vm_compute. reflexivity.
  - vm_compute. discriminate.
  - repeat constructor.
  - repeat constructor.
Defined.
