(* ===== verification/GenericAssetOps.v ===== *)
(** * Generic asset: the balance operations

    Functional correctness of transfers, reserves, slashes, deposits and
    withdrawals, each with the solvency it keeps once the imbalance it returns
    is dropped, and the branches in which the code loses or creates value. *)

From S2P Require Import Prelude Support GenericAssetTypes GenericAsset GenericAssetProps GenericAssetInv.

Section Ops.
Context `{GaConfig}.
Implicit Types (s : State) (a b : AssetId) (w v : AccountId).

(** ** Transfers *)

(** The contract of a transfer on the balances of one asset: move the amount,
    then give a remainder below the existential deposit to the dust account. *)
Definition transfer_spec (min : Z) (from to : AccountId) (amount : Z) (f : AccountId -> Z)
    : AccountId -> Z :=
  if from =? to then f
  else
    let f' := move from to amount f in
    if f' from <? min then sweep from f' else f'.

(** The remainder a transfer leaves with the sender, and whether the dust rule
    takes it. *)
Definition leaves_dust a (from to : AccountId) (amount : Z) s : bool :=
  negb (from =? to) && (free_balance a from s - amount <? minimum_balance a s).

(** The one event a transfer emits by itself. *)
Definition transfer_events a (from to : AccountId) (amount : Z) s : list Event :=
  if leaves_dust a from to amount s
  then [DustReclaimed a from (free_balance a from s - amount)] else [].

(** An account that is given a balance and has no provider gets one. *)
Definition provided (w : AccountId) (y : SysState) : SysState :=
  if providers w y =? 0 then inc_providers w y else y.

Definition transfer_sys a (from to : AccountId) (amount : Z) s : SysState :=
  if from =? to then sys s
  else
    let y := provided from (provided to (sys s)) in
    if leaves_dust a from to amount s && (0 <? free_balance a from s - amount)
    then provided dust_account y else y.

(** Everything a transfer does not write. *)
Definition transfer_frame s s' : Prop :=
  ReservedBalance s' = ReservedBalance s /\ TotalIssuance s' = TotalIssuance s /\
  Locks s' = Locks s /\ Permissions s' = Permissions s /\ NextAssetId s' = NextAssetId s /\
  AssetMeta s' = AssetMeta s /\ StakingAssetId s' = StakingAssetId s /\
  SpendingAssetId s' = SpendingAssetId s /\ StorageVersion s' = StorageVersion s.

Lemma settled_frame a from to amount s : transfer_frame s (settled a from to amount s).
Proof.
  unfold transfer_frame, settled, reclaim_free_balance, on_nonzero_unbalanced.
  repeat case_match; by split_and!.
Qed.

Lemma moved_from a from to amount s : from <> to ->
  free_balance a from (moved a from to amount s) = free_balance a from s - amount.
Proof. intros Hne. rewrite moved_view by done. unfold move. by rewrite !Z.eqb_refl. Qed.

Lemma settled_traces a from to amount s :
  events (settled a from to amount s) = events s ++ transfer_events a from to amount s /\
  sys (settled a from to amount s) = transfer_sys a from to amount s.
Proof.
  unfold settled, transfer_events, transfer_sys, leaves_dust.
  destruct (Z.eqb_spec from to) as [|Hne]; simpl; [by rewrite app_nil_r|].
  case_match; [|by rewrite app_nil_r]. unfold reclaim_free_balance.
  rewrite moved_from by done. by destruct (0 <? _).
Qed.

(** C2: [make_transfer] refines the transfer contract.  It succeeds exactly
    when the sender can afford the amount, the recipient's balance does not
    overflow and the sender's locks allow it; it then changes the balances of
    the asset as [transfer_spec] says, emits [DustReclaimed] exactly when the
    dust rule takes the remainder, gives a provider to the accounts credited,
    and writes no other balance and no other storage of the pallet: reserves,
    issuance, locks, permissions and metadata stay.  Otherwise it names the
    first failing condition and changes nothing. *)
Theorem make_transfer_refines a from to amount req s :
  inv s -> 0 <= amount ->
  match make_transfer a from to amount req s with
  | (Ok _, s') =>
      amount <= free_balance a from s /\
      free_balance a to s + amount <= MAX_BALANCE /\
      locks_allow a from amount WithdrawReasons.TRANSFER (free_balance a from s - amount) s = true /\
      (forall w, free_balance a w s' =
        transfer_spec (minimum_balance a s) from to amount (fun v => free_balance a v s) w) /\
      (forall b w, b <> a -> free_balance b w s' = free_balance b w s) /\
      transfer_frame s s' /\
      events s' = events s ++ transfer_events a from to amount s /\
      sys s' = transfer_sys a from to amount s
  | (Err e, s') =>
      s' = s /\
      ((e = GenericAsset GaError.InsufficientBalance /\ free_balance a from s < amount) \/
       (e = GenericAsset GaError.TransferOverflow /\ amount <= free_balance a from s /\
        MAX_BALANCE < free_balance a to s + amount) \/
       (e = GenericAsset GaError.LiquidityRestrictions /\ amount <= free_balance a from s /\
        free_balance a to s + amount <= MAX_BALANCE /\
        locks_allow a from amount WithdrawReasons.TRANSFER (free_balance a from s - amount) s = false))
  | (Panic, _) => False
  end.
Proof.
  intros Hs Hnn. rewrite make_transfer_eq. repeat case_match; simplify_eq; bool_to_prop; [naive_solver..|].
  split_and!; try done; [| | apply settled_frame | apply settled_traces..].
  - intros w. unfold transfer_spec. destruct (Z.eqb_spec from to) as [->|Hne].
    + unfold settled. by rewrite Z.eqb_refl.
    + rewrite settled_view, Z.eqb_refl by (done || lia). cbv zeta. by case_match.
  - intros b w Hb. destruct (Z.eqb_spec from to) as [->|Hne].
    + unfold settled. by rewrite Z.eqb_refl.
    + rewrite settled_view, (proj2 (Z.eqb_neq b a) Hb) by (done || lia). done.
Qed.

(** A successful transfer never dips into locked funds: the amount sent is
    at most the free balance less any lock that is not restricted to fees. *)
Theorem transfer_respects_locks a from to amount req s s' l :
  make_transfer a from to amount req s = (Ok tt, s') -> amount <> 0 ->
  l ∈ locks a from s -> lock_reasons l <> Fee -> amount <= free_balance a from s - lock_amount l.
Proof.
  intros Hok Hnz Hl Hfee. rewrite make_transfer_eq in Hok. repeat case_match; simplify_eq.
  bool_to_prop. unfold locks_allow in *. rewrite (proj2 (Z.eqb_neq _ _) Hnz) in *. simpl in *.
  rewrite forallb_forall in *. apply list_elem_of_In in Hl.
  match goal with Hall : forall x, In x _ -> _ |- _ => specialize (Hall l Hl) end.
  unfold lock_allows in *. change (Reasons_from WithdrawReasons.TRANSFER) with Misc in *.
  destruct (Z.leb_spec (lock_amount l) (free_balance a from s - amount)); [lia|].
  by destruct (lock_reasons l).
Qed.

(** ** Reserves *)
Lemma wrapping_add_balance a w v x s : inv s -> 0 <= x <= reserved_balance a v s ->
  wrapping_add BALANCE_BITS (free_balance a w s) x = free_balance a w s + x.
Proof.
  intros Hs Hx. pose proof (free_reserved_le_held a w v s (inv_ok s Hs)).
  pose proof (free_balance_nonneg a w s (inv_ok s Hs)). rewrite inv_issuance in * by done.
  pose proof (inv_max s Hs a). apply wrap_small. unfold in_range. unfold MAX_BALANCE in *. lia.
Qed.

Lemma Permissions_set_reserved_balance a w x s : Permissions (set_reserved_balance a w x s) = Permissions s.
Proof. done. Qed.
Lemma NextAssetId_set_reserved_balance a w x s : NextAssetId (set_reserved_balance a w x s) = NextAssetId s.
Proof. done. Qed.
Lemma TotalIssuance_set_reserved_balance a w x s :
  TotalIssuance (set_reserved_balance a w x s) = TotalIssuance s.
Proof. done. Qed.

Lemma free_balance_insert_free a w x b v s :
  free_balance b v (set_FreeBalance (insert (a, w) x) s) =
  if decide ((a, w) = (b, v)) then x else free_balance b v s.
Proof. unfold free_balance. simpl. by rewrite sget_insert. Qed.

(** The state after moving [x] from the reserve of [payee] to the free balance
    of [beneficiary], and its solvency. *)
Lemma release_inv a payee beneficiary x s : inv s -> 0 <= x <= reserved_balance a payee s ->
  inv (set_FreeBalance (insert (a, beneficiary) (free_balance a beneficiary s + x))
        (set_reserved_balance a payee (reserved_balance a payee s - x) s)).
Proof.
  intros Hs Hx. pose proof (free_balance_nonneg a beneficiary s (inv_ok s Hs)).
  apply (inv_frame s); try done; simpl;
    rewrite ?TotalIssuance_set_reserved_balance, ?NextAssetId_set_reserved_balance,
      ?Permissions_set_reserved_balance; try done.
  - apply balances_ok_insert_free, balances_ok_set_reserved; [lia..|apply Hs].
  - intros b. rewrite held_insert_free, held_set_reserved_balance, free_balance_set_reserved_balance.
    case_match; lia.
Qed.

(** [unreserve] moves the smaller of the amount and the reserve back to the
    free balance, returns what it could not move, and keeps solvency. *)
Theorem unreserve_correct a w amount s :
  inv s -> 0 <= amount ->
  let '(rest, s') := unreserve a w amount s in
  let moved := Z.min (reserved_balance a w s) amount in
  rest = amount - moved /\
  free_balance a w s' = free_balance a w s + moved /\
  reserved_balance a w s' = reserved_balance a w s - moved /\
  inv s'.
Proof.
  intros Hs Hnn. pose proof (reserved_balance_nonneg a w s (inv_ok s Hs)). unfold unreserve.
  rewrite (wrapping_add_balance a w w) by (done || lia). split_and!; [done | | |].
  - rewrite free_balance_insert_free. by case_decide.
  - change (reserved_balance a w (set_FreeBalance ?f ?s)) with (reserved_balance a w s).
    rewrite reserved_balance_set_reserved_balance. by case_decide.
  - apply release_inv; [done | lia].
Qed.

Lemma set_reserved_set_Free a w x f s :
  set_reserved_balance a w x (set_FreeBalance f s) = set_FreeBalance f (set_reserved_balance a w x s).
Proof. done. Qed.

(** [repatriate_reserved] moves up to the amount from the payee's reserve
    to the beneficiary's free balance, also when both are the same account,
    returns the shortfall and keeps solvency. *)
Theorem repatriate_reserved_correct a payee beneficiary amount s :
  inv s -> 0 <= amount ->
  let '(rest, s') := repatriate_reserved a payee beneficiary amount s in
  let moved := Z.min (reserved_balance a payee s) amount in
  rest = amount - moved /\
  free_balance a beneficiary s' = free_balance a beneficiary s + moved /\
  reserved_balance a payee s' = reserved_balance a payee s - moved /\
  inv s'.
Proof.
  intros Hs Hnn. pose proof (reserved_balance_nonneg a payee s (inv_ok s Hs)). unfold repatriate_reserved.
  destruct (Z.eqb_spec amount 0) as [->|]; [split_and!; (done || lia)|].
  rewrite (wrapping_add_balance a beneficiary payee) by (done || lia).
  rewrite set_reserved_set_Free. split_and!; [done | | |].
  - rewrite free_balance_insert_free. by case_decide.
  - change (reserved_balance a payee (set_FreeBalance ?f ?s)) with (reserved_balance a payee s).
    rewrite reserved_balance_set_reserved_balance. by case_decide.
  - apply release_inv; [done | lia].
Qed.

(** The part of a reserve that stays above the existential deposit. *)
Lemma reserve_eq a w amount s : inv s -> 0 <= amount <= free_balance a w s ->
  reserve a w amount s =
  (Ok tt, set_ReservedBalance (insert (a, w) (reserved_balance a w s + amount))
     (if free_balance a w s - amount <? minimum_balance a s then reclaim_free_balance a w s
      else set_FreeBalance (insert (a, w) (free_balance a w s - amount)) s)).
Proof.
  intros Hs Hle. pose proof (free_reserved_le_held a w w s (inv_ok s Hs)).
  pose proof (reserved_balance_nonneg a w s (inv_ok s Hs)).
  rewrite inv_issuance in * by done. pose proof (inv_max s Hs a). unfold MAX_BALANCE in *.
  unfold reserve, bind, gets, modify, wrapping_add, wrapping_sub.
  destruct (Z.ltb_spec (free_balance a w s) amount); [lia|].
  rewrite !wrap_small by (unfold in_range; lia). by destruct (_ <? minimum_balance a s).
Qed.

Lemma reserved_inv a w amount s : inv s -> 0 <= amount <= free_balance a w s ->
  inv (set_ReservedBalance (insert (a, w) (reserved_balance a w s + amount))
        (set_FreeBalance (insert (a, w) (free_balance a w s - amount)) s)).
Proof.
  intros Hs Hle. pose proof (reserved_balance_nonneg a w s (inv_ok s Hs)).
  apply (inv_frame s); try done.
  - apply balances_ok_insert_reserved, balances_ok_insert_free; [lia..|apply Hs].
  - intros b. rewrite held_insert_reserved, held_insert_free.
    change (reserved_balance a w (set_FreeBalance ?f s)) with (reserved_balance a w s).
    case_match; lia.
Qed.

(** A reserve that leaves at least the existential deposit free moves
    exactly the amount from the free to the reserved balance and keeps
    solvency; one the free balance cannot cover fails without a write. *)
Theorem reserve_correct a w amount s :
  inv s -> 0 <= amount -> minimum_balance a s <= free_balance a w s - amount \/ free_balance a w s < amount ->
  match reserve a w amount s with
  | (Ok _, s') =>
      amount <= free_balance a w s /\
      free_balance a w s' = free_balance a w s - amount /\
      reserved_balance a w s' = reserved_balance a w s + amount /\ inv s'
  | (Err e, s') =>
      e = GenericAsset GaError.InsufficientBalance /\ free_balance a w s < amount /\ s' = s
  | (Panic, _) => False
  end.
Proof.
  intros Hs Hnn Hmin. destruct (Z.lt_ge_cases (free_balance a w s) amount) as [Hlt|Hge].
  { unfold reserve, bind, gets, fail. by rewrite (proj2 (Z.ltb_lt _ _) Hlt). }
  destruct Hmin as [Hmin|]; [|lia].
  pose proof (reserved_balance_nonneg a w s (inv_ok s Hs)).
  rewrite reserve_eq by (done || lia). rewrite (proj2 (Z.ltb_ge _ _)) by lia.
  split_and!; [done | | |].
  - change (free_balance a w (set_ReservedBalance ?f ?s)) with (free_balance a w s).
    rewrite free_balance_insert_free. by case_decide.
  - unfold reserved_balance. simpl. rewrite sget_insert. by case_decide.
  - apply reserved_inv; [done | lia].
Qed.

(** A reserve that would leave less than the existential deposit hands the
    whole free balance, not the remainder, to the dust account and still adds
    the amount to the reserve: what the accounts hold grows by the reserved
    amount while the total issuance stays the same. *)
Theorem reserve_below_deposit_inflates a w amount s :
  inv s -> 0 <= amount <= free_balance a w s -> free_balance a w s - amount < minimum_balance a s ->
  exists s', reserve a w amount s = (Ok tt, s') /\
    held a s' = held a s + amount /\ total_issuance a s' = total_issuance a s.
Proof.
  intros Hs Hle Hmin. rewrite reserve_eq by done. rewrite (proj2 (Z.ltb_lt _ _) Hmin).
  assert (Hmax : held a s <= MAX_BALANCE) by (rewrite inv_issuance by done; apply Hs).
  eexists; split_and!; [done | |].
  - rewrite held_insert_reserved, Z.eqb_refl, reclaim_held by (done || apply Hs).
    unfold reserved_balance. rewrite ReservedBalance_reclaim. lia.
  - change (total_issuance a (set_ReservedBalance ?f ?s)) with (total_issuance a s).
    unfold total_issuance. by rewrite reclaim_TotalIssuance.
Qed.

(** ** Operations that return an imbalance *)

(** Dropping the imbalance of exactly what the accounts lost or gained. *)
Lemma drop_negative_inv a x s s' : inv s -> a < NextAssetId s -> balances_ok s' ->
  0 <= x <= held a s -> (forall b, held b s' = held b s - (if a =? b then x else 0)) ->
  TotalIssuance s' = TotalIssuance s -> NextAssetId s' = NextAssetId s ->
  Permissions s' = Permissions s -> inv (drop_negative (NegativeImbalance_new x a) s').
Proof.
  intros Hs Ha Hok Hx Hheld Hti Hn Hp. pose proof (inv_issuance s Hs a).
  assert (Ht : forall b, total_issuance b s' = total_issuance b s)
    by (intros b; unfold total_issuance; by rewrite Hti).
  unfold drop_negative. simpl. unfold saturating_sub. rewrite Ht, Z.max_r by lia.
  split; [by apply balances_ok_set_TotalIssuance | | | |].
  - intros b. rewrite held_set_TotalIssuance, total_issuance_insert, Hheld, Ht, inv_issuance by done.
    destruct (Z.eqb_spec a b); case_decide; simplify_eq; lia.
  - intros b. rewrite total_issuance_insert, Ht. pose proof (inv_max s Hs a). pose proof (inv_max s Hs b).
    case_decide; lia.
  - intros b. simpl. rewrite Hn, Hti. intros Hb. rewrite lookup_insert_ne by lia. by apply Hs.
  - intros b. simpl. rewrite Hn, Hp. apply Hs.
Qed.

Lemma drop_positive_inv a x s s' : inv s -> a < NextAssetId s -> balances_ok s' ->
  0 <= x -> total_issuance a s + x <= MAX_BALANCE ->
  (forall b, held b s' = held b s + (if a =? b then x else 0)) ->
  TotalIssuance s' = TotalIssuance s -> NextAssetId s' = NextAssetId s ->
  Permissions s' = Permissions s -> inv (drop_positive (PositiveImbalance_new x a) s').
Proof.
  intros Hs Ha Hok Hx Hmax Hheld Hti Hn Hp.
  assert (Ht : forall b, total_issuance b s' = total_issuance b s)
    by (intros b; unfold total_issuance; by rewrite Hti).
  unfold drop_positive. simpl. rewrite saturating_add_small, Ht by (rewrite Ht; exact Hmax).
  split; [by apply balances_ok_set_TotalIssuance | | | |].
  - intros b. rewrite held_set_TotalIssuance, total_issuance_insert, Hheld, Ht, inv_issuance by done.
    destruct (Z.eqb_spec a b); case_decide; simplify_eq; lia.
  - intros b. rewrite total_issuance_insert, Ht. pose proof (inv_max s Hs b). case_decide; lia.
  - intros b. simpl. rewrite Hn, Hti. intros Hb. rewrite lookup_insert_ne by lia. by apply Hs.
  - intros b. simpl. rewrite Hn, Hp. apply Hs.
Qed.

(** An asset somebody holds has been created. *)
Lemma held_pos_known a s : inv s -> 0 < held a s -> a < NextAssetId s.
Proof.
  intros Hs Hpos. destruct (Z.lt_ge_cases a (NextAssetId s)) as [|Hge]; [done|].
  rewrite inv_issuance in Hpos by done. unfold total_issuance, sget in Hpos.
  rewrite inv_fresh in Hpos by done. simpl in Hpos. lia.
Qed.

Lemma slash_eq a w amount s : balances_ok s -> 0 <= amount ->
  let free_slash := Z.min (free_balance a w s) amount in
  let reserve_slash := Z.min (reserved_balance a w s) (amount - free_slash) in
  exists s', slash a w amount s =
    ((if amount =? free_slash + reserve_slash then None
      else Some (amount - free_slash - reserve_slash)), s') /\
  balances_ok s' /\
  (forall b, held b s' = held b s - (if a =? b then free_slash + reserve_slash else 0)) /\
  free_balance a w s' = free_balance a w s - free_slash /\
  reserved_balance a w s' = reserved_balance a w s - reserve_slash /\
  TotalIssuance s' = TotalIssuance s /\ NextAssetId s' = NextAssetId s /\ Permissions s' = Permissions s.
Proof.
  intros Hok Hnn fs rs. pose proof (free_balance_nonneg a w s Hok). pose proof (reserved_balance_nonneg a w s Hok).
  unfold slash. fold fs. set (s1 := set_free_balance a w (free_balance a w s - fs) s).
  assert (Hok1 : balances_ok s1) by (apply balances_ok_set_free; [lia | done]).
  assert (Hr1 : reserved_balance a w s1 = reserved_balance a w s) by apply reserved_balance_set_free_balance.
  assert (Hh1 : forall b, held b s1 = held b s - (if a =? b then fs else 0)).
  { intros b. unfold s1. rewrite held_set_free_balance. case_match; lia. }
  assert (Hf1 : free_balance a w s1 = free_balance a w s - fs).
  { unfold s1. rewrite free_balance_set_free_balance. by case_decide. }
  destruct (Z.ltb_spec fs amount) as [Hlt|Hge].
  - unfold slash_reserved. rewrite Hr1. fold rs. eexists; split_and!.
    + replace (amount - fs =? rs) with (amount =? fs + rs); [done|].
      destruct (Z.eqb_spec amount (fs + rs)), (Z.eqb_spec (amount - fs) rs); lia.
    + apply balances_ok_set_reserved; [lia | done].
    + intros b. rewrite held_set_reserved_balance, Hh1, Hr1. case_match; lia.
    + by rewrite free_balance_set_reserved_balance.
    + rewrite reserved_balance_set_reserved_balance. by case_decide.
    + by rewrite TotalIssuance_set_reserved_balance; apply TotalIssuance_set_free_balance.
    + by rewrite NextAssetId_set_reserved_balance; apply NextAssetId_set_free_balance.
    + by rewrite Permissions_set_reserved_balance; apply Permissions_set_free_balance.
  - exists s1. assert (rs = 0) by lia. split_and!; try done.
    + destruct (Z.eqb_spec amount (fs + rs)); [done | lia].
    + intros b. rewrite Hh1. case_match; lia.
    + lia.
Qed.

(** Slashing takes from the free balance first and then from the reserve,
    up to the amount; the negative imbalance it returns is worth exactly what
    was taken, the rest is reported, and dropping the imbalance restores
    solvency. *)
Theorem ac_slash_correct (U : State -> AssetId) w value s :
  inv s -> 0 <= value -> U s < NextAssetId s ->
  let '((ni, rest), s') := ac_slash U w value s in
  let a := U s in
  let free_slash := Z.min (free_balance a w s) value in
  let reserve_slash := Z.min (reserved_balance a w s) (value - free_slash) in
  ni = NegativeImbalance_new (free_slash + reserve_slash) a /\
  rest = value - (free_slash + reserve_slash) /\
  free_balance a w s' = free_balance a w s - free_slash /\
  reserved_balance a w s' = reserved_balance a w s - reserve_slash /\
  inv (drop_negative ni s').
Proof.
  intros Hs Hnn HU. unfold ac_slash.
  destruct (slash_eq (U s) w value s (inv_ok s Hs) Hnn) as (s' & -> & Hok & Hh & Hf & Hr & Ht & Hn & Hp).
  pose proof (free_reserved_le_held (U s) w w s (inv_ok s Hs)).
  pose proof (free_balance_nonneg (U s) w s (inv_ok s Hs)).
  pose proof (reserved_balance_nonneg (U s) w s (inv_ok s Hs)).
  set (x := Z.min (free_balance (U s) w s) value
            + Z.min (reserved_balance (U s) w s) (value - Z.min (free_balance (U s) w s) value)) in *.
  assert (Hinv : inv (drop_negative (NegativeImbalance_new x (U s)) s'))
    by (apply (drop_negative_inv _ _ s); try done; lia).
  destruct (Z.eqb_spec value x) as [Hv|Hv]; simpl.
  - replace (NegativeImbalance_new value (U s)) with (NegativeImbalance_new x (U s)) by (by f_equal).
    split_and!; try done; lia.
  - replace (value - (value - Z.min (free_balance (U s) w s) value
      - Z.min (reserved_balance (U s) w s) (value - Z.min (free_balance (U s) w s) value))) with x by lia.
    split_and!; try done; lia.
Qed.

(** [MultiCurrency::withdraw] of a positive value either fails without a
    write or debits exactly the value, and dropping the imbalance it returns
    lowers the issuance by the same amount, so solvency is kept. *)
Theorem mc_withdraw_correct w a value reasons ex s :
  inv s -> 0 < value ->
  match mc_withdraw w a value reasons ex s with
  | (Ok ni, s') =>
      ni = NegativeImbalance_new value a /\
      value <= free_balance a w s /\
      locks_allow a w value reasons (free_balance a w s - value) s = true /\
      free_balance a w s' = free_balance a w s - value /\
      inv (drop_negative ni s')
  | (Err _, s') => s' = s
  | (Panic, _) => False
  end.
Proof.
  intros Hs Hpos. unfold mc_withdraw, bind, gets, ok_or, modify, ret, fail.
  rewrite (proj2 (Z.eqb_neq value 0)) by lia.
  destruct (checked_sub (free_balance a w s) value) as [nb|] eqn:Hsub; [|done]. bool_to_prop.
  rewrite ensure_can_withdraw_eq. destruct (locks_allow _ _ _ _ _ _) eqn:Hl; [|done]. simpl.
  pose proof (free_le_held a w s (inv_ok s Hs)).
  split_and!; try done.
  - rewrite free_balance_set_free_balance. by case_decide.
  - apply (drop_negative_inv _ _ s); try done.
    + apply held_pos_known; [done | lia].
    + apply balances_ok_set_free; [lia | apply Hs].
    + lia.
    + intros b. rewrite held_set_free_balance. case_match; lia.
Qed.

(** [MultiCurrency::deposit_creating] of a value that does not overflow
    the issuance of an existing asset credits exactly the value and returns an
    imbalance of that value, and dropping it keeps solvency. *)
Theorem mc_deposit_creating_correct w a value s :
  inv s -> 0 < value -> a < NextAssetId s -> total_issuance a s + value <= MAX_BALANCE ->
  let '(p, s') := mc_deposit_creating w a value s in
  p = PositiveImbalance_new value a /\
  free_balance a w s' = free_balance a w s + value /\
  inv (drop_positive p s').
Proof.
  intros Hs Hpos Ha Hmax. pose proof (free_le_held a w s (inv_ok s Hs)).
  pose proof (free_balance_nonneg a w s (inv_ok s Hs)). rewrite inv_issuance in * by done.
  unfold mc_deposit_creating, mc_make_free_balance_be. rewrite (proj2 (Z.eqb_neq value 0)) by lia.
  unfold wrapping_add. rewrite wrap_small by (unfold in_range; unfold MAX_BALANCE in *; lia).
  rewrite (proj2 (Z.leb_le _ _)) by lia. split_and!.
  - f_equal. lia.
  - rewrite free_balance_set_free_balance. by case_decide.
  - replace (free_balance a w s + value - free_balance a w s) with value by lia.
    apply (drop_positive_inv _ _ s); try done; [| lia | |..].
    + apply balances_ok_set_free; [lia | apply Hs].
    + intros b. rewrite held_set_free_balance. case_match; lia.
Qed.

(** [AssetCurrency::withdraw] to a balance below the existential deposit
    returns an imbalance of the whole value although no account gave it up: the
    free balance went to the dust account in full.  Dropping the imbalance then
    leaves the issuance short of what the accounts hold by the value. *)
Theorem ac_withdraw_below_deposit_unbacked (U : State -> AssetId) w value reasons req s ni s' :
  inv s -> 0 < value -> free_balance (U s) w s - value < minimum_balance (U s) s ->
  ac_withdraw U w value reasons req s = (Ok ni, s') ->
  ni_amount ni = value /\ held (U s) s' = held (U s) s /\
  held (U s) (drop_negative ni s') = total_issuance (U s) (drop_negative ni s') + value.
Proof.
  intros Hs Hpos Hmin Hr.
  assert (Hmax : held (U s) s <= MAX_BALANCE) by (rewrite inv_issuance by done; apply Hs).
  unfold ac_withdraw, bind, gets, ok_or, modify, ret, fail in Hr.
  destruct (checked_sub _ value) as [nb|] eqn:Hsub; [|done]. bool_to_prop.
  rewrite ensure_can_withdraw_eq in Hr. destruct (locks_allow _ _ _ _ _ _); [|done]. simpl in Hr.
  rewrite (proj2 (Z.ltb_lt _ _) Hmin) in Hr. simplify_eq/=.
  pose proof (free_le_held (U s) w s (inv_ok s Hs)). pose proof (inv_issuance s Hs (U s)).
  assert (Hheld : held (U s) (reclaim_free_balance (U s) w s) = held (U s) s)
    by (apply reclaim_held; [apply Hs | done]).
  split_and!; [done | done|]. unfold drop_negative. simpl.
  rewrite held_set_TotalIssuance, total_issuance_insert, Hheld. case_decide; [|done].
  unfold saturating_sub, total_issuance. rewrite reclaim_TotalIssuance.
  fold (total_issuance (U s) s). lia.
Qed.

(** [AssetCurrency::burn] leaves the total issuance as it was, because the
    reduced value is computed but not stored; dropping the positive imbalance
    it returns then raises the issuance by the burned amount. *)
Theorem ac_burn_does_not_burn (U : State -> AssetId) amount s :
  0 <= amount -> 0 <= total_issuance (U s) s -> total_issuance (U s) s + amount <= MAX_BALANCE ->
  let '(p, s') := ac_burn U amount s in
  total_issuance (U s) s' = total_issuance (U s) s /\
  pi_amount p = Z.min amount (total_issuance (U s) s) /\
  total_issuance (U s) (drop_positive p s') =
    total_issuance (U s) s + Z.min amount (total_issuance (U s) s).
Proof.
  intros Hnn Hti Hmax. unfold ac_burn, drop_positive. simpl.
  assert (Hm : (match checked_sub (total_issuance (U s) s) amount with
                | Some _ => amount | None => total_issuance (U s) s end)
               = Z.min amount (total_issuance (U s) s)).
  { destruct (checked_sub _ _) eqn:Hc; bool_to_prop; lia. }
  rewrite Hm, !total_issuance_insert. rewrite !decide_True by done.
  split_and!; [done..|]. rewrite saturating_add_small; [done|]. unfold MAX_BALANCE, BALANCE_BITS in *. lia.
Qed.
End Ops.

(** ** Witnesses *)
Lemma s_reserved_inv : inv Demo.s_reserved.
Proof.
  change Demo.s_reserved with
    (set_ReservedBalance (insert (1, 10) (reserved_balance 1 10 Demo.s0 + 40))
       (set_FreeBalance (insert (1, 10) (free_balance 1 10 Demo.s0 - 40)) Demo.s0)).
  apply reserved_inv; [apply Demo.s0_inv | vm_compute; split; discriminate].
Qed.

(** A transfer of 30 from account 10 to account 11. *)
Lemma make_transfer_refines_witness : exists s',
  make_transfer 1 10 11 30 AllowDeath Demo.s0 = (Ok tt, s') /\
  free_balance 1 10 s' = 70 /\ free_balance 1 11 s' = 50.
Proof.
  assert (Ht := make_transfer_refines 1 10 11 30 AllowDeath Demo.s0 Demo.s0_inv ltac:(lia)).
  destruct (make_transfer 1 10 11 30 AllowDeath Demo.s0) as [[[]|e|] s'] eqn:E.
  - exists s'. destruct Ht as (_ & _ & _ & Hf & _). split; [reflexivity|]. rewrite !Hf. split; reflexivity.
  - vm_compute in E. discriminate.
  - vm_compute in E. discriminate.
Defined.

(** With 90 of 100 locked, the 10 that were sent are all that could be. *)
Lemma transfer_respects_locks_witness :
  fst (make_transfer 1 10 11 10 AllowDeath Demo.s_locked) = Ok tt /\
  10 <= free_balance 1 10 Demo.s_locked - 90.
Proof.
  split; [reflexivity|].
  apply (transfer_respects_locks 1 10 11 10 AllowDeath Demo.s_locked
    (snd (make_transfer 1 10 11 10 AllowDeath Demo.s_locked))
    {| lock_id := 7; lock_amount := 90; lock_reasons := All |}).
  - reflexivity.
  - discriminate.
  - apply list_elem_of_In. left. reflexivity.
  - discriminate.
Defined.

Lemma unreserve_correct_witness :
  inv (snd (unreserve 1 10 60 Demo.s_reserved)) /\ fst (unreserve 1 10 60 Demo.s_reserved) = 20.
Proof.
  destruct (unreserve_correct 1 10 60 Demo.s_reserved s_reserved_inv ltac:(lia)) as (Hr & _ & _ & Hi).
  split; [exact Hi | exact Hr].
Defined.

Lemma repatriate_reserved_correct_witness :
  inv (snd (repatriate_reserved 1 10 11 25 Demo.s_reserved)) /\
  free_balance 1 11 (snd (repatriate_reserved 1 10 11 25 Demo.s_reserved)) = 45.
Proof.
  destruct (repatriate_reserved_correct 1 10 11 25 Demo.s_reserved s_reserved_inv ltac:(lia))
    as (_ & Hf & _ & Hi).
  split; [exact Hi | exact Hf].
Defined.

Lemma reserve_correct_witness :
  fst (reserve 1 10 40 Demo.s0) = Ok tt /\ free_balance 1 10 (snd (reserve 1 10 40 Demo.s0)) = 60.
Proof.
  assert (Ht := reserve_correct 1 10 40 Demo.s0 Demo.s0_inv ltac:(lia)
    ltac:(left; vm_compute; discriminate)).
  split; [reflexivity|]. destruct (reserve 1 10 40 Demo.s0) as [[[]|e|] s'] eqn:E.
  - apply Ht.
  - vm_compute in E. discriminate.
  - vm_compute in E. discriminate.
Defined.

(** Reserving 97 of 100 with an existential deposit of 5. *)
Lemma reserve_below_deposit_inflates_witness : exists s',
  reserve 1 10 97 Demo.s0 = (Ok tt, s') /\ held 1 s' = held 1 Demo.s0 + 97.
Proof.
  destruct (reserve_below_deposit_inflates 1 10 97 Demo.s0 Demo.s0_inv
    ltac:(vm_compute; split; discriminate) ltac:(vm_compute; reflexivity)) as (s' & H1 & H2 & _).
  exists s'. split; assumption.
Defined.

Lemma ac_slash_correct_witness :
  inv (drop_negative (fst (fst (ac_slash staking_asset_id 10 130 Demo.s_reserved)))
         (snd (ac_slash staking_asset_id 10 130 Demo.s_reserved))) /\
  snd (fst (ac_slash staking_asset_id 10 130 Demo.s_reserved)) = 30.
Proof.
  destruct (ac_slash_correct staking_asset_id 10 130 Demo.s_reserved s_reserved_inv ltac:(lia)
    ltac:(vm_compute; reflexivity)) as (_ & Hr & _ & _ & Hi).
  split; [exact Hi | exact Hr].
Defined.

Lemma mc_withdraw_correct_witness :
  fst (mc_withdraw 10 1 60 WithdrawReasons.all KeepAlive Demo.s0) = Ok (NegativeImbalance_new 60 1) /\
  free_balance 1 10 (snd (mc_withdraw 10 1 60 WithdrawReasons.all KeepAlive Demo.s0)) = 40.
Proof.
  assert (Ht := mc_withdraw_correct 10 1 60 WithdrawReasons.all KeepAlive Demo.s0 Demo.s0_inv ltac:(lia)).
  split; [reflexivity|].
  destruct (mc_withdraw 10 1 60 WithdrawReasons.all KeepAlive Demo.s0) as [[ni|e|] s'] eqn:E.
  - destruct Ht as (_ & _ & _ & Hf & _). exact Hf.
  - vm_compute in E. discriminate.
  - vm_compute in E. discriminate.
Defined.

Lemma mc_deposit_creating_correct_witness :
  fst (mc_deposit_creating 12 1 8 Demo.s0) = PositiveImbalance_new 8 1 /\
  inv (drop_positive (fst (mc_deposit_creating 12 1 8 Demo.s0)) (snd (mc_deposit_creating 12 1 8 Demo.s0))).
Proof.
  destruct (mc_deposit_creating_correct 12 1 8 Demo.s0 Demo.s0_inv ltac:(lia) ltac:(vm_compute; reflexivity)
    ltac:(vm_compute; discriminate)) as (Hp & _ & Hi).
  split; [exact Hp | exact Hi].
Defined.

(** Withdrawing 97 of 100 with an existential deposit of 5. *)
Lemma ac_withdraw_below_deposit_unbacked_witness :
  held 1 (drop_negative (NegativeImbalance_new 97 1)
            (snd (ac_withdraw staking_asset_id 10 97 WithdrawReasons.all KeepAlive Demo.s0))) =
  total_issuance 1 (drop_negative (NegativeImbalance_new 97 1)
            (snd (ac_withdraw staking_asset_id 10 97 WithdrawReasons.all KeepAlive Demo.s0))) + 97.
Proof.
  apply (ac_withdraw_below_deposit_unbacked staking_asset_id 10 97 WithdrawReasons.all KeepAlive Demo.s0
    (NegativeImbalance_new 97 1)); [apply Demo.s0_inv | lia | vm_compute; reflexivity | reflexivity].
Defined.

Lemma ac_burn_does_not_burn_witness :
  total_issuance 1 (drop_positive (fst (ac_burn staking_asset_id 20 Demo.s0))
                      (snd (ac_burn staking_asset_id 20 Demo.s0))) = 140.
Proof.
  destruct (ac_burn_does_not_burn staking_asset_id 20 Demo.s0 ltac:(lia) ltac:(vm_compute; discriminate)
    ltac:(vm_compute; discriminate)) as (_ & _ & Ht).
  exact Ht.
Defined.
