(* ===== verification/GenericAssetAuth.v ===== *)
(** * Generic asset: locks, permissions, imbalances

    Specifications of the lock operations, the authority the permissions give,
    the algebra of imbalances and the versioned permission encoding. *)

From S2P Require Import Prelude Support GenericAssetTypes GenericAsset GenericAssetProps GenericAssetInv.

Section Auth.
Context `{GaConfig}.
Implicit Types (s : State) (a b : AssetId) (w v : AccountId).

(** ** Locks *)
Definition with_id (id : LockIdentifier) (ls : list BalanceLock) : list BalanceLock :=
  List.filter (fun l => lock_id l =? id) ls.

Definition without_id (id : LockIdentifier) (ls : list BalanceLock) : list BalanceLock :=
  List.filter (fun l => negb (lock_id l =? id)) ls.

Lemma replace_lock_None id merge ls : replace_lock id merge None ls = (without_id id ls, None).
Proof.
  induction ls as [|l ls IH]; simpl; [done|]. destruct (lock_id l =? id); simpl; by rewrite IH.
Qed.

(** With a pending new lock, the first lock of that id absorbs it and the rest
    of that id disappear; with none, it stays pending. *)
Lemma replace_lock_with_id id merge nl ls : (forall l, lock_id l = id -> lock_id (merge l nl) = id) ->
  let r := replace_lock id merge (Some nl) ls in
  with_id id r.1 = match with_id id ls with [] => [] | l :: _ => [merge l nl] end /\
  r.2 = match with_id id ls with [] => Some nl | _ => None end /\
  without_id id r.1 = without_id id ls.
Proof.
  intros Hm. induction ls as [|l ls IH]; simpl; [done|].
  destruct (lock_id l =? id) eqn:E; simpl.
  - rewrite replace_lock_None. simpl. rewrite Hm, Z.eqb_refl by (by apply Z.eqb_eq). simpl.
    assert (with_id id (without_id id ls) = []).
    { unfold with_id, without_id. clear. induction ls as [|l ls IH]; simpl; [done|].
      destruct (lock_id l =? id) eqn:E; simpl; [done | by rewrite E]. }
    assert (without_id id (without_id id ls) = without_id id ls).
    { unfold without_id. clear. induction ls as [|l ls IH]; simpl; [done|].
      destruct (lock_id l =? id) eqn:E; simpl; [done | by rewrite E; simpl; f_equal]. }
    split_and!; [by f_equal | done | done].
  - destruct (replace_lock id merge (Some nl) ls) as [rest left_over]. simpl in *. rewrite E. simpl.
    destruct IH as (IH1 & IH2 & IH3). split_and!; [done | done | by f_equal].
Qed.

Lemma with_id_app id l1 l2 : with_id id (l1 ++ l2) = with_id id l1 ++ with_id id l2.
Proof. apply List.filter_app. Qed.

Lemma without_id_app id l1 l2 : without_id id (l1 ++ l2) = without_id id l1 ++ without_id id l2.
Proof. apply List.filter_app. Qed.

Lemma push_replace_lock id merge nl ls : lock_id nl = id ->
  (forall l, lock_id l = id -> lock_id (merge l nl) = id) ->
  let ls' := push_left_over (replace_lock id merge (Some nl) ls) in
  with_id id ls' = [match with_id id ls with [] => nl | l :: _ => merge l nl end] /\
  without_id id ls' = without_id id ls.
Proof.
  intros Hid Hm. destruct (replace_lock_with_id id merge nl ls Hm) as (H1 & H2 & H3). simpl in *.
  destruct (replace_lock id merge (Some nl) ls) as [ls1 left_over]. simpl in *. subst left_over.
  destruct (with_id id ls) as [|l rest]; simpl; [|done].
  rewrite with_id_app, without_id_app, H1, H3. unfold with_id, without_id. simpl.
  rewrite Hid, Z.eqb_refl. simpl. by rewrite app_nil_r.
Qed.

Lemma locks_set_Locks_insert a w ls b v s :
  locks b v (set_Locks (insert (a, w) ls) s) = if decide ((a, w) = (b, v)) then ls else locks b v s.
Proof. unfold locks, sget. simpl. rewrite lookup_insert. by case_decide. Qed.

(** [set_lock] leaves exactly one lock with the id, the new one, keeps
    every lock with another id in order, and touches no other account or asset. *)
Theorem set_lock_correct id a w amount reasons s :
  let s' := set_lock id a w amount reasons s in
  with_id id (locks a w s') =
    [{| lock_id := id; lock_amount := amount; lock_reasons := Reasons_from reasons |}] /\
  without_id id (locks a w s') = without_id id (locks a w s) /\
  (forall b v, (b, v) <> (a, w) -> locks b v s' = locks b v s) /\
  FreeBalance s' = FreeBalance s.
Proof.
  cbv zeta. unfold set_lock. rewrite !locks_set_Locks_insert, !decide_True by done.
  set (nl := {| lock_id := id; lock_amount := amount; lock_reasons := Reasons_from reasons |}).
  destruct (push_replace_lock id (fun _ nl => nl) nl (locks a w s)) as [H1 H2]; [done | done|].
  rewrite H1, H2. split_and!; [by case_match | done | | done].
  intros b v Hne. rewrite locks_set_Locks_insert. by case_decide.
Qed.

(** [extend_lock] only ever strengthens: afterwards exactly one lock has
    the id, its amount is the maximum of the first old one and the new one and
    its reasons cover both; other locks are kept. *)
Theorem extend_lock_correct id a w amount reasons s :
  let s' := extend_lock id a w amount reasons s in
  let nl := {| lock_id := id; lock_amount := amount; lock_reasons := Reasons_from reasons |} in
  with_id id (locks a w s') =
    [match with_id id (locks a w s) with
     | [] => nl
     | l :: _ => {| lock_id := id; lock_amount := Z.max (lock_amount l) amount;
                    lock_reasons := if decide (lock_reasons l = Reasons_from reasons)
                                    then lock_reasons l else All |}
     end] /\
  without_id id (locks a w s') = without_id id (locks a w s).
Proof.
  cbv zeta. unfold extend_lock. rewrite !locks_set_Locks_insert, !decide_True by done.
  set (nl := {| lock_id := id; lock_amount := amount; lock_reasons := Reasons_from reasons |}).
  destruct (push_replace_lock id extend nl (locks a w s)) as [H1 H2]; [done | done|].
  rewrite H1, H2. split; [|done]. f_equal. destruct (with_id id (locks a w s)) as [|l ls] eqn:E; [done|].
  assert (Hl : lock_id l = id).
  { apply Z.eqb_eq. assert (Hin : In l (with_id id (locks a w s))) by (rewrite E; by left).
    by apply filter_In in Hin as [_ ?]. }
  unfold extend. simpl. by rewrite Hl.
Qed.

Lemma without_id_with_id id ls : with_id id (without_id id ls) = [].
Proof.
  unfold with_id, without_id. induction ls as [|l ls IH]; simpl; [done|].
  destruct (lock_id l =? id) eqn:E; simpl; [done | by rewrite E].
Qed.

(** [remove_lock] removes every lock with the id and nothing else, and
    frees the storage entry of an account left without locks. *)
Theorem remove_lock_correct id a w s :
  let s' := remove_lock id a w s in
  with_id id (locks a w s') = [] /\
  locks a w s' = without_id id (locks a w s) /\
  (without_id id (locks a w s) = [] -> Locks s' !! (a, w) = None) /\
  (forall b v, (b, v) <> (a, w) -> locks b v s' = locks b v s).
Proof.
  cbv zeta. unfold remove_lock. fold (without_id id (locks a w s)).
  assert (Hl : locks a w (remove_lock id a w s) = without_id id (locks a w s)).
  { unfold remove_lock. fold (without_id id (locks a w s)). case_bool_decide as Hnil.
    - rewrite Hnil. unfold locks, sget. simpl. by rewrite lookup_delete_eq.
    - by rewrite locks_set_Locks_insert, decide_True. }
  unfold remove_lock in Hl. fold (without_id id (locks a w s)) in Hl. rewrite Hl.
  split_and!; [apply without_id_with_id | done | |].
  - intros Hnil. rewrite bool_decide_true by done. simpl. apply lookup_delete_eq.
  - intros b v Hne. case_bool_decide.
    + unfold locks, sget. simpl. rewrite lookup_delete_ne; [done | congruence].
    + rewrite locks_set_Locks_insert. by case_decide.
Qed.

(** ** Authority *)
Lemma Permissions_settled a from to amount s : Permissions (settled a from to amount s) = Permissions s.
Proof. unfold settled. repeat case_match; rewrite ?reclaim_Permissions, ?moved_Permissions; done. Qed.

Lemma TotalIssuance_settled' a from to amount s :
  TotalIssuance (settled a from to amount s) = TotalIssuance s.
Proof. unfold settled. repeat case_match; rewrite ?reclaim_TotalIssuance, ?moved_TotalIssuance; done. Qed.

Lemma transfer_frame a from to amount req s :
  Permissions (snd (make_transfer_with_event a from to amount req s)) = Permissions s /\
  TotalIssuance (snd (make_transfer_with_event a from to amount req s)) = TotalIssuance s.
Proof.
  unfold make_transfer_with_event, bind, modify, ret. rewrite make_transfer_eq.
  repeat case_match; simplify_eq; try done; simpl;
    by rewrite Permissions_settled, TotalIssuance_settled'.
Qed.

(** Creating an asset writes only at the id it claims: an unused reserved one or
    the next one. *)
Lemma create_asset_frame asset from options info s a :
  let s' := snd (create_asset asset from options info s) in
  (TotalIssuance s' !! a = TotalIssuance s !! a /\ Permissions s' !! a = Permissions s !! a) \/
  (asset = Some a /\ TotalIssuance s !! a = None) \/ (asset = None /\ a = NextAssetId s).
Proof.
  cbv zeta. unfold create_asset, claim_asset_id, bind, ensure, ok_or, gets, modify, ret, fail.
  destruct asset as [id|]; simpl; repeat (case_match; simplify_eq/=; try (left; split; reflexivity)).
  - destruct (decide (id = a)) as [->|Hne].
    + right; left. split; [done|]. by eapply bool_decide_eq_true.
    + left. by rewrite !lookup_insert_ne.
  - match goal with |- _ \/ _ \/ (_ /\ a = NextAssetId ?st) =>
      destruct (decide (NextAssetId st = a)) as [<-|Hne] end; [by right; right|].
    left. by rewrite !lookup_insert_ne.
Qed.

(** The permissions of an asset in use change only through
    [update_permission] signed by the holder of its update permission. *)
Theorem permissions_change_authorised c origin s a :
  inv s -> is_Some (TotalIssuance s !! a) ->
  Permissions (snd (dispatch c origin s)) !! a <> Permissions s !! a ->
  exists w p, origin = Signed w /\ c = C_update_permission a p /\ check_permission a w Update s = true.
Proof.
  intros Hs [x Hx] Hch.
  assert (Hc : forall asset from o i, Permissions (snd (create_asset asset from o i s)) !! a = Permissions s !! a).
  { intros asset from o i. destruct (create_asset_frame asset from o i s a) as [[_ ?]|[[_ ?]|[_ ->]]];
      [done | congruence|]. rewrite inv_fresh in Hx by (done || lia). done. }
  destruct c; simpl in Hch.
  - unfold create, bind in Hch. by destruct origin; simpl in Hch; rewrite ?Hc in Hch.
  - unfold transfer, bind, ensure in Hch. destruct origin; simpl in Hch; try done.
    destruct (amount =? 0); simpl in Hch; [done|]. by rewrite (proj1 (transfer_frame _ _ _ _ _ _)) in Hch.
  - unfold transfer_all, bind in Hch. destruct origin; simpl in Hch; try done.
    by rewrite (proj1 (transfer_frame _ _ _ _ _ _)) in Hch.
  - unfold update_permission, bind, gets, modify, fail in Hch. destruct origin as [|w|]; simpl in Hch; try done.
    destruct (check_permission asset w Update s) eqn:Hcp; simpl in Hch; [|done].
    destruct (decide (asset = a)) as [->|Hne]; [eauto|]. by rewrite lookup_insert_ne in Hch.
  - revert Hch. unfold update_asset_info. destruct origin; run_dispatch.
  - revert Hch. unfold mint_call, mint_free. destruct origin; run_dispatch.
  - revert Hch. unfold burn_call, burn_free. destruct origin; run_dispatch.
  - unfold create_reserved, bind in Hch. by destruct origin; simpl in Hch; rewrite ?Hc in Hch.
Qed.

(** The issuance of an asset in use changes only through a mint signed by
    the holder of its mint permission, by exactly the minted amount, or a burn
    signed by the holder of its burn permission. *)
Theorem issuance_change_authorised c origin s a :
  inv s -> is_Some (TotalIssuance s !! a) ->
  total_issuance a (snd (dispatch c origin s)) <> total_issuance a s ->
  exists w who amount, origin = Signed w /\
    ((c = C_mint a who amount /\ check_permission a w Mint s = true /\
      total_issuance a (snd (dispatch c origin s)) = total_issuance a s + amount) \/
     (c = C_burn a who amount /\ check_permission a w Burn s = true /\
      total_issuance a (snd (dispatch c origin s)) = total_issuance a s - amount)).
Proof.
  intros Hs [x Hx] Hch.
  assert (Hc : forall asset from o i,
    total_issuance a (snd (create_asset asset from o i s)) = total_issuance a s).
  { intros asset from o i. unfold total_issuance, sget.
    destruct (create_asset_frame asset from o i s a) as [[-> _]|[[_ ?]|[_ ->]]];
      [done | congruence|]. rewrite inv_fresh in Hx by (done || lia). done. }
  destruct c; simpl in Hch |- *.
  - unfold create, bind in Hch. by destruct origin; simpl in Hch; rewrite ?Hc in Hch.
  - unfold transfer, bind, ensure in Hch. destruct origin; simpl in Hch; try done.
    destruct (amount =? 0); simpl in Hch; [done|]. unfold total_issuance in Hch.
    by rewrite (proj2 (transfer_frame _ _ _ _ _ _)) in Hch.
  - unfold transfer_all, bind in Hch. destruct origin; simpl in Hch; try done.
    unfold total_issuance in Hch. by rewrite (proj2 (transfer_frame _ _ _ _ _ _)) in Hch.
  - revert Hch. unfold update_permission. destruct origin; run_dispatch.
  - revert Hch. unfold update_asset_info. destruct origin; run_dispatch.
  - revert Hch. unfold mint_call, mint_free. destruct origin as [|w|]; run_dispatch.
    bool_to_prop. intros Hch. exists w, to, amount. split; [done|]. left.
    revert Hch. unfold total_issuance, sget. simpl. rewrite !lookup_insert. by case_decide; simplify_eq.
  - revert Hch. unfold burn_call, burn_free. destruct origin as [|w|]; run_dispatch.
    bool_to_prop. intros Hch. exists w, target, amount. split; [done|]. right.
    revert Hch. unfold total_issuance, sget. simpl. rewrite !lookup_insert. by case_decide; simplify_eq.
  - unfold create_reserved, bind in Hch. by destruct origin; simpl in Hch; rewrite ?Hc in Hch.
Qed.

(** ** What locks mean for the reported balances *)

(** The reported balances treat locks as stacked: with locks that overlay
    on the same funds and add up to more than the free balance, the available
    amount wraps around to a number near [2^128]. *)
Theorem get_all_balances_wraps w a s :
  balances_ok s -> free_balance a w s <= MAX_BALANCE ->
  let staked := ab_staked (get_all_balances w a s) in
  free_balance a w s < staked <= MAX_BALANCE ->
  ab_available (get_all_balances w a s) = 2 ^ BALANCE_BITS + free_balance a w s - staked.
Proof.
  intros Hs Hmax staked Hlt. pose proof (free_balance_nonneg a w s Hs).
  unfold get_all_balances, ab_available. fold (get_all_balances w a s).
  change (foldl _ 0 (locks a w s)) with staked.
  unfold wrapping_sub, wrap. unfold MAX_BALANCE, umax, BALANCE_BITS in *.
  rewrite <- (Z.mod_add _ 1) by lia. rewrite Z.mod_small; lia.
Qed.
End Auth.

(** ** Imbalances *)
Lemma pi_split_sum i amount : 0 <= amount -> 0 <= pi_amount i ->
  let '(p1, p2) := pi_split i amount in
  pi_amount p1 + pi_amount p2 = pi_amount i /\ 0 <= pi_amount p2 /\ pi_amount p1 <= amount /\
  pi_asset_id p1 = pi_asset_id i /\ pi_asset_id p2 = pi_asset_id i.
Proof. intros. unfold pi_split. split_and!; simpl; (done || lia). Qed.

(** Splitting and merging imbalances loses nothing: the two parts add up
    to the whole, the first part is at most what was asked for, and merging the
    parts gives the token back. *)
Theorem split_merge_roundtrip i amount :
  0 <= amount -> in_range BALANCE_BITS (pi_amount i) ->
  let '(p1, p2) := pi_split i amount in
  pi_amount p1 <= amount /\ 0 <= pi_amount p2 /\ pi_merge p1 p2 = i.
Proof.
  intros Hnn Hr. destruct (pi_split i amount) as [p1 p2] eqn:E.
  pose proof (pi_split_sum i amount Hnn (proj1 Hr)) as Hs. rewrite E in Hs.
  destruct Hs as (Hsum & H2 & H1 & Ha & _). split_and!; [done | done|].
  unfold pi_merge, PositiveImbalance_new. rewrite Ha, saturating_add_small, Hsum by (rewrite Hsum; apply Hr).
  by destruct i.
Qed.

(** The signed value of a token after an offset. *)
Definition pi_signed (r : SameOrOther PositiveImbalance NegativeImbalance) : Z :=
  match r with Same p => pi_amount p | Other n => - ni_amount n end.

Definition ni_signed (r : SameOrOther NegativeImbalance PositiveImbalance) : Z :=
  match r with Same n => ni_amount n | Other p => - pi_amount p end.

(** Offsetting two imbalances yields exactly their signed difference, and
    never a negative amount, in both directions. *)
Theorem offset_difference p n :
  pi_signed (pi_offset p n) = pi_amount p - ni_amount n /\
  ni_signed (ni_offset n p) = ni_amount n - pi_amount p /\
  match pi_offset p n with Same q => 0 <= pi_amount q | Other q => 0 < ni_amount q end.
Proof.
  unfold pi_offset, ni_offset, pi_signed, ni_signed.
  destruct (Z.leb_spec (ni_amount n) (pi_amount p)), (Z.leb_spec (pi_amount p) (ni_amount n));
    simpl; split_and!; lia.
Qed.

(** ** Versioned permissions *)

(** Decoding the stored form of versioned permissions gives them back and
    consumes exactly their bytes, for every payload codec that does so; bytes
    with another version number are rejected. *)
Theorem permission_versions_roundtrip enc dec v rest :
  (forall p bytes, dec (enc p ++ bytes) = Some (p, bytes)) ->
  PermissionVersions_decode dec (PermissionVersions_encode enc v ++ rest) = Some (v, rest) /\
  (forall version bytes, version <> PermissionVersionNumber_V1 ->
    PermissionVersions_decode dec (version :: bytes) = None).
Proof.
  intros Hcodec. split.
  - destruct v as [p]. simpl. by rewrite Hcodec.
  - intros version bytes Hv. simpl. by rewrite (proj2 (Z.eqb_neq _ _) Hv).
Qed.

(** ** Witnesses *)
Lemma permissions_change_authorised_witness : exists w p, Signed 10 = Signed w /\
  C_update_permission 1 (PermissionsV1_new 11) = C_update_permission 1 p /\
  check_permission 1 w Update Demo.s0 = true.
Proof.
  apply (permissions_change_authorised _ _ Demo.s0 1 Demo.s0_inv).
  - eexists. reflexivity.
  - vm_compute. discriminate.
Defined.

Lemma issuance_change_authorised_witness : exists w who amount, Signed 10 = Signed w /\
  ((C_mint 1 12 7 = C_mint 1 who amount /\ check_permission 1 w Mint Demo.s0 = true /\
    total_issuance 1 (snd (dispatch (C_mint 1 12 7) (Signed 10) Demo.s0)) =
      total_issuance 1 Demo.s0 + amount) \/
   (C_mint 1 12 7 = C_burn 1 who amount /\ check_permission 1 w Burn Demo.s0 = true /\
    total_issuance 1 (snd (dispatch (C_mint 1 12 7) (Signed 10) Demo.s0)) =
      total_issuance 1 Demo.s0 - amount)).
Proof.
  apply (issuance_change_authorised (C_mint 1 12 7) (Signed 10) Demo.s0 1 Demo.s0_inv).
  - eexists. reflexivity.
  - vm_compute. discriminate.
Defined.

(** Two locks of 90 on a balance of 100. *)
Lemma get_all_balances_wraps_witness :
  ab_available (get_all_balances 10 1 (set_lock 8 1 10 90 WithdrawReasons.all Demo.s_locked)) =
  2 ^ BALANCE_BITS + 100 - 180.
Proof.
  apply (get_all_balances_wraps 10 1 (set_lock 8 1 10 90 WithdrawReasons.all Demo.s_locked)).
  - destruct (inv_ok Demo.s0 Demo.s0_inv). by split.
  - vm_compute. discriminate.
  - vm_compute. split; [reflexivity | discriminate].
Defined.

Lemma split_merge_roundtrip_witness :
  pi_merge (fst (pi_split (PositiveImbalance_new 10 1) 4)) (snd (pi_split (PositiveImbalance_new 10 1) 4)) =
  PositiveImbalance_new 10 1.
Proof.
  apply (split_merge_roundtrip (PositiveImbalance_new 10 1) 4); [lia | vm_compute; split; discriminate].
Defined.

(** A payload codec that writes the three owners as a tag and an account. *)
Definition demo_enc_owner (o : Owner) : list Z := match o with Owner_None => [0; 0] | Address w => [1; w] end.
Definition demo_enc (p : PermissionsV1) : list Z :=
  demo_enc_owner (update p) ++ demo_enc_owner (mint p) ++ demo_enc_owner (burn p).
Definition demo_dec_owner (t w : Z) : Owner := if t =? 0 then Owner_None else Address w.
Definition demo_dec (bytes : list Z) : option (PermissionsV1 * list Z) :=
  match bytes with
  | t1 :: w1 :: t2 :: w2 :: t3 :: w3 :: rest =>
      Some ({| update := demo_dec_owner t1 w1; mint := demo_dec_owner t2 w2; burn := demo_dec_owner t3 w3 |}, rest)
  | _ => None
  end.

Lemma permission_versions_roundtrip_witness :
  PermissionVersions_decode demo_dec
    (PermissionVersions_encode demo_enc (V1 (PermissionsV1_new 7)) ++ [42]) =
  Some (V1 (PermissionsV1_new 7), [42]).
Proof.
  apply (permission_versions_roundtrip demo_enc demo_dec).
  intros [[|u] [|m] [|b]] bytes; reflexivity.
Defined.
