(* ===== verification/MultiCurrency.v ===== *)
(** * The [MultiCurrency] interface

    The trait [MultiCurrency] of [src/crml/support/src/lib.rs] as a class over
    the storage [L] of the pallet that implements it, the laws its clients rely
    on, and the proof that the generic asset pallet discharges them. *)

From S2P Require Import Prelude Support GenericAssetTypes GenericAsset GenericAssetProps GenericAssetInv.

(** The methods of the trait the modelled pallets call, and what dropping an
    imbalance does. *)
Class MultiCurrency (L : Type) := {
  cur_minimum_balance : AssetId -> L -> Balance;
  cur_fee_currency : L -> AssetId;
  cur_staking_currency : L -> AssetId;
  cur_free_balance : AccountId -> AssetId -> L -> Balance;
  cur_transfer : AccountId -> AccountId -> AssetId -> Balance -> ExistenceRequirement -> D L unit;
  cur_withdraw : AccountId -> AssetId -> Balance -> Z -> ExistenceRequirement -> D L NegativeImbalance;
  cur_deposit_creating : AccountId -> AssetId -> Balance -> L -> PositiveImbalance * L;
  cur_deposit_into_existing : AccountId -> AssetId -> Balance -> D L PositiveImbalance;
  cur_ensure_can_withdraw : AccountId -> AssetId -> Balance -> Z -> Balance -> D L unit;
  cur_drop_negative : NegativeImbalance -> L -> L;
  cur_drop_positive : PositiveImbalance -> L -> L;
  cur_reserve : AccountId -> AssetId -> Balance -> D L unit;
  cur_unreserve : AccountId -> AssetId -> Balance -> L -> Balance * L;
  cur_repatriate_reserved : AccountId -> AssetId -> AccountId -> Balance -> L -> Balance * L;
  cur_create : AccountId -> Balance -> Z -> Z -> list Z -> D L AssetId;
}.

(** The free balance of [w] after a transfer of [v] that succeeded; a sender
    left with less than the minimum keeps nothing. *)
Definition after_transfer (min : Balance) (from to : AccountId) (v : Balance)
    (f : AccountId -> Balance) (w : AccountId) : Balance :=
  if (from =? to) || (v =? 0) then f w
  else if w =? from then (if f from - v <? min then 0 else f from - v)
  else if w =? to then f to + v
  else f w.

(** What clients may assume of a transfer in a well-formed ledger.  One account,
    the sink, may additionally receive the remainders other accounts lose. *)
Class MultiCurrencyLaws (L : Type) `{MultiCurrency L} := {
  cur_ok : L -> Prop;
  cur_sink : AccountId;
  cur_free_range : forall l w c, cur_ok l -> in_range BALANCE_BITS (cur_free_balance w c l);
  cur_transfer_spec : forall l from to c v req, cur_ok l -> 0 <= v ->
    match cur_transfer from to c v req l with
    | (Ok _, l') =>
        cur_ok l' /\
        (v <> 0 -> v <= cur_free_balance from c l) /\
        (forall w, w <> cur_sink -> cur_free_balance w c l' =
           after_transfer (cur_minimum_balance c l) from to v (fun w => cur_free_balance w c l) w) /\
        (forall w c', c' <> c -> cur_free_balance w c' l' = cur_free_balance w c' l) /\
        (forall c', cur_minimum_balance c' l' = cur_minimum_balance c' l)
    | (Err _, l') => l' = l
    | (Panic, _) => False
    end;
}.

(** ** The generic asset pallet implements the interface *)
Section Instance_.
Context `{GaConfig}.

#[export] Instance ga_multi_currency : MultiCurrency State := {|
  cur_minimum_balance := minimum_balance;
  cur_fee_currency := spending_asset_id;
  cur_staking_currency := staking_asset_id;
  cur_free_balance w c s := free_balance c w s;
  cur_transfer := mc_transfer;
  cur_withdraw := mc_withdraw;
  cur_deposit_creating := mc_deposit_creating;
  cur_deposit_into_existing := mc_deposit_into_existing;
  cur_ensure_can_withdraw who c amount reasons new_balance := ensure_can_withdraw c who amount reasons new_balance;
  cur_drop_negative := drop_negative;
  cur_drop_positive := drop_positive;
  cur_reserve := mc_reserve;
  cur_unreserve := mc_unreserve;
  cur_repatriate_reserved who c beneficiary amount s := repatriate_reserved c who beneficiary amount s;
  cur_create := mc_create;
|}.

Lemma minimum_balance_settled a from to amount b s :
  minimum_balance b (settled a from to amount s) = minimum_balance b s.
Proof.
  unfold settled, moved, reclaim_free_balance, on_nonzero_unbalanced. repeat case_match; done.
Qed.

Lemma ga_transfer_spec s from to c v req : inv s -> 0 <= v ->
  match mc_transfer from to c v req s with
  | (Ok _, s') =>
      inv s' /\
      (v <> 0 -> v <= free_balance c from s) /\
      (forall w, w <> dust_account -> free_balance c w s' =
         after_transfer (minimum_balance c s) from to v (fun w => free_balance c w s) w) /\
      (forall w c', c' <> c -> free_balance c' w s' = free_balance c' w s) /\
      (forall c', minimum_balance c' s' = minimum_balance c' s)
  | (Err _, s') => s' = s
  | (Panic, _) => False
  end.
Proof.
  intros Hs Hv. unfold mc_transfer, after_transfer. destruct (Z.eqb_spec v 0) as [->|Hnz].
  { simpl. split_and!; try done. intros w _. by rewrite orb_true_r. }
  rewrite make_transfer_eq.
  destruct (Z.ltb_spec (free_balance c from s) v); [done|].
  destruct (Z.ltb_spec MAX_BALANCE (free_balance c to s + v)); [done|].
  destruct (locks_allow _ _ _ _ _ _); [simpl negb; cbv iota | done].
  rewrite orb_false_r. split_and!; [apply settled_inv; [lia | done] | done | | |].
  - intros w Hw. destruct (Z.eqb_spec from to) as [->|Hne]; [by unfold settled; rewrite Z.eqb_refl|].
    rewrite settled_view, Z.eqb_refl by (done || lia). cbv zeta.
    unfold move at 1. rewrite Z.eqb_refl. unfold sweep, move.
    rewrite (proj2 (Z.eqb_neq w dust_account) Hw).
    destruct (Z.eqb_spec w from) as [->|]; case_match; done.
  - intros w c' Hc. destruct (Z.eqb_spec from to) as [->|Hne]; [by unfold settled; rewrite Z.eqb_refl|].
    rewrite settled_view, (proj2 (Z.eqb_neq c' c) Hc) by (done || lia). done.
  - intros c'. apply minimum_balance_settled.
Qed.

Lemma ga_free_range s w c : inv s -> in_range BALANCE_BITS (free_balance c w s).
Proof. intros Hs. split; [apply free_balance_nonneg, Hs | by apply inv_free_le_max]. Qed.

#[export] Instance ga_multi_currency_laws : MultiCurrencyLaws State := {|
  cur_ok := inv;
  cur_sink := dust_account;
  cur_free_range := ga_free_range;
  cur_transfer_spec := ga_transfer_spec;
|}.
End Instance_.
