(* ===== verification/Cennzx.v ===== *)
(** * CENNZX: the spot exchange

    [src/crml/cennzx/src/lib.rs], [types.rs] and [impls.rs].  The pallet keeps
    its liquidity books in [State] and the assets of its pools in the ledger of
    whatever implements [MultiCurrency]; a pool is an account whose address is
    derived from the asset id by a hash. *)

From S2P Require Import Prelude Support MultiCurrency.

(** ** Fee rates ([types.rs])

    A [FeeRate<S>] is a [u128] with an implicit scale; [HighPrecisionUnsigned]
    is [U256]. *)
Definition LOW : Z := 128.
Definition HIGH : Z := 256.

Definition PerMillion_SCALE : Z := 1000000.
Definition PerThousand_SCALE : Z := 1000.

(** [LowPrecisionUnsigned::try_from(h)] *)
Definition low_try_from (h : Z) : option Z := if h <=? umax LOW then Some h else None.

(** [FeeRate::try_from(h)] *)
Definition FeeRate_try_from (h : Z) : option Z := low_try_from h.

(** [TryFrom<FeeRate<PerThousand>> for FeeRate<PerMillion>] *)
Definition FeeRate_from_PerThousand (f : Z) : option Z :=
  let rate := PerMillion_SCALE / PerThousand_SCALE in
  checked_mul LOW f rate.

Definition FeeRate_checked_div (scale a d : Z) : option Z :=
  match checked_div (saturating_mul HIGH a scale) d with
  | Some h => FeeRate_try_from h
  | None => None
  end.

Definition FeeRate_checked_mul (scale a b : Z) : option Z :=
  match checked_div (saturating_mul HIGH a b) scale with
  | Some h => FeeRate_try_from h
  | None => None
  end.

Definition FeeRate_checked_add (a b : Z) : option Z := checked_add LOW a b.

Definition FeeRate_one (scale : Z) : Z := scale.

(** [U256] arithmetic panics when it leaves the range. *)
Definition hp_sub {E} (a b : Z) : outcome E Z := if b <=? a then Ok (a - b) else Panic.

Definition hp_add {E} (a b : Z) : outcome E Z := if a + b <=? umax HIGH then Ok (a + b) else Panic.

(** ** Prices *)
Abbreviation Res := (outcome DispatchError).

(** [ensure!(r.is_ok(), Overflow); r.unwrap()] *)
Definition low_or_overflow (h : Z) : Res Z :=
  ensure? (bool_decide (is_Some (low_try_from h))) orelse Cennzx CennzxError.Overflow in
  match low_try_from h with Some l => Ok l | None => Panic end.

Definition calculate_buy_price (fee_rate : Z) (buy_amount sell_reserve buy_reserve : Balance) : Res Balance :=
  ensure? negb (sell_reserve =? 0) && negb (buy_reserve =? 0) orelse Cennzx CennzxError.EmptyExchangePool in
  ensure? buy_amount <? buy_reserve orelse Cennzx CennzxError.InsufficientExchangePoolReserve in
  let buy_amount_hp := saturate LOW buy_amount in
  let buy_reserve_hp := saturate LOW buy_reserve in
  let sell_reserve_hp := saturate LOW sell_reserve in
  let? denominator_hp := hp_sub buy_reserve_hp buy_amount_hp in
  let? price_hp := some_or (checked_div (saturating_mul HIGH sell_reserve_hp buy_amount_hp) denominator_hp)
    (Cennzx CennzxError.DivideByZero) in
  let? price_lp := low_or_overflow price_hp in
  let? price_plus_one := some_or (checked_add LOW price_lp 1) (Cennzx CennzxError.Overflow) in
  let? fee_rate_plus_one := some_or (FeeRate_checked_add fee_rate (FeeRate_one PerMillion_SCALE))
    (Cennzx CennzxError.Overflow) in
  let? output := some_or (FeeRate_checked_mul PerMillion_SCALE fee_rate_plus_one price_plus_one)
    (Cennzx CennzxError.Overflow) in
  Ok (saturate BALANCE_BITS output).

Definition calculate_sell_price (fee_rate : Z) (sell_amount sell_reserve buy_reserve : Balance) : Res Balance :=
  ensure? negb (sell_reserve =? 0) && negb (buy_reserve =? 0) orelse Cennzx CennzxError.EmptyExchangePool in
  let? div_rate := some_or (FeeRate_checked_add fee_rate (FeeRate_one PerMillion_SCALE))
    (Cennzx CennzxError.Overflow) in
  let? sell_amount_scaled := some_or (FeeRate_checked_div PerMillion_SCALE (saturate LOW sell_amount) div_rate)
    (Cennzx CennzxError.DivideByZero) in
  let sell_reserve_hp := saturate LOW sell_reserve in
  let buy_reserve_hp := saturate LOW buy_reserve in
  let? denominator_hp := hp_add sell_amount_scaled sell_reserve_hp in
  let? price_hp := some_or (checked_div (saturating_mul HIGH buy_reserve_hp sell_amount_scaled) denominator_hp)
    (Cennzx CennzxError.DivideByZero) in
  let? price_lp := low_or_overflow price_hp in
  let price := saturate BALANCE_BITS price_lp in
  ensure? price <? buy_reserve orelse Cennzx CennzxError.InsufficientExchangePoolReserve in
  Ok price.

(** ** Liquidity values *)
Record LiquidityValue := { lv_liquidity : Balance; lv_core : Balance; lv_asset : Balance }.

Record LiquidityPrice := { lp_core : Balance; lp_asset : Balance }.

Definition mul_div (a b c : Balance) : Balance := wrapping_mul BALANCE_BITS a b / c.

Definition calculate_liquidity_value (asset_reserve core_reserve liquidity_to_withdraw total_liquidity : Balance)
    : LiquidityValue :=
  if total_liquidity =? 0 then {| lv_liquidity := 0; lv_core := 0; lv_asset := 0 |}
  else
    let liquidity_amount := Z.min liquidity_to_withdraw total_liquidity in
    {| lv_liquidity := liquidity_amount;
       lv_core := mul_div liquidity_amount core_reserve total_liquidity;
       lv_asset := mul_div liquidity_amount asset_reserve total_liquidity |}.

(** [decl_event!] *)
Inductive Event :=
| AddLiquidity (who : AccountId) (core : Balance) (asset : AssetId) (amount : Balance)
| RemoveLiquidity (who : AccountId) (core : Balance) (asset : AssetId) (amount : Balance)
| AssetBought (sold bought : AssetId) (who : AccountId) (sold_amount bought_amount : Balance)
| AssetSold (sold bought : AssetId) (who : AccountId) (sold_amount bought_amount : Balance).

(** ** Pool addresses ([impls.rs]) *)

(** [u64::to_le_bytes] *)
Fixpoint to_le_bytes (n : nat) (x : Z) : list Z :=
  match n with O => [] | S n => x mod 256 :: to_le_bytes n (x / 256) end.

(** ["cennz-x-spot:"] *)
Definition exchange_prefix : list Z := [99; 101; 110; 110; 122; 45; 120; 45; 115; 112; 111; 116; 58].

Definition exchange_preimage (core_asset_id asset_id : AssetId) : list Z :=
  exchange_prefix ++ to_le_bytes 8 core_asset_id ++ to_le_bytes 8 asset_id.

(** The hash that turns a preimage into an account id. *)
Class Hashing := { hash : list Z -> AccountId }.

Definition exchange_address `{Hashing} (core_asset_id asset_id : AssetId) : AccountId :=
  hash (exchange_preimage core_asset_id asset_id).

Section Cennzx.
Context {L : Type} `{MultiCurrency L} `{Hashing}.

(** [decl_storage!] and the ledger of the currency pallet. *)
Record State := mkState {
  CoreAssetId : AssetId;
  DefaultFeeRate : Z;
  TotalLiquidity : gmap (Z * Z) Balance;
  LiquidityBalance : gmap (Z * Z * Z) Balance;
  ledger : L;
  events : list Event;
}.

Definition set_DefaultFeeRate r (s : State) : State :=
  mkState (CoreAssetId s) r (TotalLiquidity s) (LiquidityBalance s) (ledger s) (events s).
Definition set_TotalLiquidity f (s : State) : State :=
  mkState (CoreAssetId s) (DefaultFeeRate s) (f (TotalLiquidity s)) (LiquidityBalance s) (ledger s) (events s).
Definition set_LiquidityBalance f (s : State) : State :=
  mkState (CoreAssetId s) (DefaultFeeRate s) (TotalLiquidity s) (f (LiquidityBalance s)) (ledger s) (events s).
Definition set_ledger l (s : State) : State :=
  mkState (CoreAssetId s) (DefaultFeeRate s) (TotalLiquidity s) (LiquidityBalance s) l (events s).
Definition deposit_event (e : Event) (s : State) : State :=
  mkState (CoreAssetId s) (DefaultFeeRate s) (TotalLiquidity s) (LiquidityBalance s) (ledger s)
    (events s ++ [e]).

(** A call into the currency pallet. *)
Definition on_ledger {A} (m : D L A) : D State A := fun s =>
  match m (ledger s) with (r, l') => (r, set_ledger l' s) end.

(** [ExchangeAddressGenerator::exchange_address_for] *)
Definition exchange_address_for (asset_id : AssetId) (s : State) : AccountId :=
  exchange_address (CoreAssetId s) asset_id.

Definition balance_of (who : AccountId) (asset : AssetId) (s : State) : Balance :=
  cur_free_balance who asset (ledger s).

Definition total_liquidity (key : Z * Z) (s : State) : Balance := sget 0 key (TotalLiquidity s).

Definition liquidity_balance (key : Z * Z) (who : AccountId) (s : State) : Balance :=
  sget 0 (key, who) (LiquidityBalance s).

Definition mint_liquidity (key : Z * Z) (who : AccountId) (increase : Balance) (s : State) : State :=
  let new_balance := saturating_add BALANCE_BITS (liquidity_balance key who s) increase in
  let s1 := set_LiquidityBalance (insert (key, who) new_balance) s in
  set_TotalLiquidity (insert key (saturating_add BALANCE_BITS (total_liquidity key s1) increase)) s1.

Definition burn_liquidity (key : Z * Z) (who : AccountId) (decrease : Balance) (s : State) : State :=
  let balance := liquidity_balance key who s in
  let decrease := Z.min decrease balance in
  let new_balance := balance - decrease in
  let s1 := set_LiquidityBalance (insert (key, who) new_balance) s in
  set_TotalLiquidity (insert key (saturating_sub (total_liquidity key s1) decrease)) s1.

Definition get_exchange_reserves (asset_id : AssetId) (s : State) : Balance * Balance :=
  let address := exchange_address_for asset_id s in
  (balance_of address (CoreAssetId s) s, balance_of address asset_id s).

Definition liquidity_price (asset_id : AssetId) (liquidity_to_buy : Balance) (s : State) : LiquidityPrice :=
  let total := total_liquidity (CoreAssetId s, asset_id) s in
  let '(core_reserve, asset_reserve) := get_exchange_reserves asset_id s in
  if (total =? 0) || (core_reserve =? 0) then {| lp_core := liquidity_to_buy; lp_asset := 1 |}
  else
    let core_amount := mul_div liquidity_to_buy core_reserve total in
    {| lp_core := core_amount;
       lp_asset := wrapping_add BALANCE_BITS (mul_div core_amount asset_reserve core_reserve) 1 |}.

Definition liquidity_value (asset_id : AssetId) (liquidity_to_withdraw : Balance) (s : State) : LiquidityValue :=
  let '(core_reserve, asset_reserve) := get_exchange_reserves asset_id s in
  calculate_liquidity_value asset_reserve core_reserve liquidity_to_withdraw
    (total_liquidity (CoreAssetId s, asset_id) s).

Definition account_liquidity_value (who : AccountId) (asset_id : AssetId) (s : State) : LiquidityValue :=
  liquidity_value asset_id (liquidity_balance (CoreAssetId s, asset_id) who s) s.

Definition get_asset_to_core_buy_price (asset_id : AssetId) (buy_amount : Balance) (s : State) : Res Balance :=
  ensure? 0 <? buy_amount orelse Cennzx CennzxError.CannotTradeZero in
  let '(core_reserve, asset_reserve) := get_exchange_reserves asset_id s in
  calculate_buy_price (DefaultFeeRate s) buy_amount asset_reserve core_reserve.

Definition get_core_to_asset_buy_price (asset_id : AssetId) (buy_amount : Balance) (s : State) : Res Balance :=
  ensure? 0 <? buy_amount orelse Cennzx CennzxError.CannotTradeZero in
  let '(core_reserve, asset_reserve) := get_exchange_reserves asset_id s in
  calculate_buy_price (DefaultFeeRate s) buy_amount core_reserve asset_reserve.

Definition get_buy_price (asset_to_buy : AssetId) (amount_to_buy : Balance) (asset_to_pay : AssetId)
    (s : State) : Res Balance :=
  ensure? negb (asset_to_buy =? asset_to_pay) orelse Cennzx CennzxError.AssetCannotSwapForItself in
  let? core_asset_amount :=
    if asset_to_buy =? CoreAssetId s then Ok amount_to_buy
    else get_core_to_asset_buy_price asset_to_buy amount_to_buy s in
  if asset_to_pay =? CoreAssetId s then Ok core_asset_amount
  else get_asset_to_core_buy_price asset_to_pay core_asset_amount s.

Definition get_asset_to_core_sell_price (asset_id : AssetId) (sell_amount : Balance) (s : State) : Res Balance :=
  ensure? 0 <? sell_amount orelse Cennzx CennzxError.CannotTradeZero in
  let '(core_reserve, asset_reserve) := get_exchange_reserves asset_id s in
  calculate_sell_price (DefaultFeeRate s) sell_amount asset_reserve core_reserve.

Definition get_core_to_asset_sell_price (asset_id : AssetId) (sell_amount : Balance) (s : State) : Res Balance :=
  ensure? 0 <? sell_amount orelse Cennzx CennzxError.CannotTradeZero in
  let '(core_reserve, asset_reserve) := get_exchange_reserves asset_id s in
  calculate_sell_price (DefaultFeeRate s) sell_amount core_reserve asset_reserve.

Definition get_sell_price (asset_to_sell : AssetId) (amount_to_sell : Balance) (asset_to_payout : AssetId)
    (s : State) : Res Balance :=
  ensure? negb (asset_to_sell =? asset_to_payout) orelse Cennzx CennzxError.AssetCannotSwapForItself in
  let? core_asset_amount :=
    if asset_to_sell =? CoreAssetId s then Ok amount_to_sell
    else get_asset_to_core_sell_price asset_to_sell amount_to_sell s in
  if asset_to_payout =? CoreAssetId s then Ok core_asset_amount
  else get_core_to_asset_sell_price asset_to_payout core_asset_amount s.

(** A pure query followed by [?]. *)
Definition query {A} (q : State -> Res A) : D State A := fun s => (q s, s).

Definition pool_transfer (from to : AccountId) (asset : AssetId) (amount : Balance) : D State unit :=
  on_ledger (cur_transfer from to asset amount KeepAlive).

Definition execute_trade (trader recipient : AccountId) (asset_to_sell asset_to_buy : AssetId)
    (amount_to_sell amount_to_buy : Balance) : D State unit :=
  transactional (
    let* core_asset_id := gets CoreAssetId in
    if (asset_to_sell =? core_asset_id) || (asset_to_buy =? core_asset_id) then
      let* exchange_address :=
        gets (exchange_address_for (if asset_to_buy =? core_asset_id then asset_to_sell else asset_to_buy)) in
      and_also (pool_transfer trader exchange_address asset_to_sell amount_to_sell)
               (pool_transfer exchange_address recipient asset_to_buy amount_to_buy)
    else
      let* exchange_address_a := gets (exchange_address_for asset_to_sell) in
      let* exchange_address_b := gets (exchange_address_for asset_to_buy) in
      let* core_amount := query (get_asset_to_core_sell_price asset_to_sell amount_to_sell) in
      and_also
        (and_also (pool_transfer trader exchange_address_a asset_to_sell amount_to_sell)
                  (pool_transfer exchange_address_a exchange_address_b core_asset_id core_amount))
        (pool_transfer exchange_address_b recipient asset_to_buy amount_to_buy)).

Definition execute_buy (trader recipient : AccountId) (asset_to_sell asset_to_buy : AssetId)
    (amount_to_buy maximum_sell : Balance) : D State Balance :=
  let* amount_to_sell := query (get_buy_price asset_to_buy amount_to_buy asset_to_sell) in
  do* ensure (amount_to_sell <=? maximum_sell) (Cennzx CennzxError.MaximumSellRequirementNotMet) in
  let* balance := gets (balance_of trader asset_to_sell) in
  do* ensure (amount_to_sell <=? balance) (Cennzx CennzxError.InsufficientBalance) in
  do* execute_trade trader recipient asset_to_sell asset_to_buy amount_to_sell amount_to_buy in
  do* modify (deposit_event (AssetBought asset_to_sell asset_to_buy trader amount_to_sell amount_to_buy)) in
  ret amount_to_sell.

Definition execute_sell (trader recipient : AccountId) (asset_to_sell asset_to_buy : AssetId)
    (amount_to_sell minimum_buy : Balance) : D State Balance :=
  let* balance := gets (balance_of trader asset_to_sell) in
  do* ensure (amount_to_sell <=? balance) (Cennzx CennzxError.InsufficientBalance) in
  let* amount_to_buy := query (get_sell_price asset_to_sell amount_to_sell asset_to_buy) in
  do* ensure (minimum_buy <=? amount_to_buy) (Cennzx CennzxError.MinimumBuyRequirementNotMet) in
  do* execute_trade trader recipient asset_to_sell asset_to_buy amount_to_sell amount_to_buy in
  do* modify (deposit_event (AssetSold asset_to_sell asset_to_buy trader amount_to_sell amount_to_buy)) in
  ret amount_to_buy.

(** [BuyFeeAsset::buy_fee_asset] *)
Definition buy_fee_asset (who : AccountId) (amount : Balance) (exchange_op : FeeExchange) : D State Balance :=
  let fee_exchange_asset_id := FeeExchange_asset_id exchange_op in
  let* fee_asset_id := gets (fun s => cur_fee_currency (ledger s)) in
  execute_buy who who fee_exchange_asset_id fee_asset_id amount (FeeExchange_max_payment exchange_op).

(** ** Extrinsics *)
Definition buy_asset (origin : Origin) (recipient : option AccountId) (asset_to_sell asset_to_buy : AssetId)
    (buy_amount maximum_sell : Balance) : D State unit :=
  let* trader := ensure_signed origin in
  do* execute_buy trader (default trader recipient) asset_to_sell asset_to_buy buy_amount maximum_sell in
  ret tt.

Definition sell_asset (origin : Origin) (recipient : option AccountId) (asset_to_sell asset_to_buy : AssetId)
    (sell_amount minimum_buy : Balance) : D State unit :=
  let* trader := ensure_signed origin in
  do* execute_sell trader (default trader recipient) asset_to_sell asset_to_buy sell_amount minimum_buy in
  ret tt.

(** The amounts an [add_liquidity] call settles on: trade asset to pay and
    liquidity to mint. *)
Definition add_liquidity_amounts (total core_reserve trade_reserve max_asset_amount core_amount : Balance)
    : Balance * Balance :=
  if (total =? 0) || (core_reserve =? 0) then (max_asset_amount, core_amount)
  else (wrapping_add BALANCE_BITS (mul_div core_amount trade_reserve core_reserve) 1,
        mul_div core_amount total core_reserve).

Definition add_liquidity (origin : Origin) (asset_id : AssetId)
    (min_liquidity max_asset_amount core_amount : Balance) : D State unit :=
  transactional (
    let* from_account := ensure_signed origin in
    let* core_asset_id := gets CoreAssetId in
    do* ensure (negb (max_asset_amount =? 0) && negb (core_amount =? 0))
      (Cennzx CennzxError.CannotAddLiquidityWithZero) in
    let* core_balance := gets (balance_of from_account core_asset_id) in
    do* ensure (core_amount <=? core_balance) (Cennzx CennzxError.InsufficientCoreAssetBalance) in
    let* asset_balance := gets (balance_of from_account asset_id) in
    do* ensure (max_asset_amount <=? asset_balance) (Cennzx CennzxError.InsufficientTradeAssetBalance) in
    let exchange_key := (core_asset_id, asset_id) in
    let* total := gets (total_liquidity exchange_key) in
    let* exchange_address := gets (exchange_address_for asset_id) in
    let* core_asset_reserve := gets (balance_of exchange_address core_asset_id) in
    let* trade_asset_reserve := gets (balance_of exchange_address asset_id) in
    let '(trade_asset_amount, liquidity_minted) :=
      add_liquidity_amounts total core_asset_reserve trade_asset_reserve max_asset_amount core_amount in
    do* ensure (min_liquidity <=? liquidity_minted) (Cennzx CennzxError.MinimumLiquidityRequirementNotMet) in
    do* ensure (trade_asset_amount <=? max_asset_amount)
      (Cennzx CennzxError.MaximumTradeAssetRequirementNotMet) in
    do* pool_transfer from_account exchange_address core_asset_id core_amount in
    do* pool_transfer from_account exchange_address asset_id trade_asset_amount in
    do* modify (mint_liquidity exchange_key from_account liquidity_minted) in
    modify (deposit_event (AddLiquidity from_account core_amount asset_id trade_asset_amount))).

Definition remove_liquidity (origin : Origin) (asset_id : AssetId)
    (liquidity_to_withdraw min_asset_withdraw min_core_withdraw : Balance) : D State unit :=
  transactional (
    let* from_account := ensure_signed origin in
    let* core_asset_id := gets CoreAssetId in
    let exchange_key := (core_asset_id, asset_id) in
    let* account_liquidity := gets (liquidity_balance exchange_key from_account) in
    do* ensure (liquidity_to_withdraw <=? account_liquidity) (Cennzx CennzxError.InsufficientLiquidity) in
    let* withdraw_value := gets (liquidity_value asset_id liquidity_to_withdraw) in
    let* total := gets (total_liquidity exchange_key) in
    do* ensure (0 <? total) (Cennzx CennzxError.EmptyExchangePool) in
    do* ensure (min_core_withdraw <=? lv_core withdraw_value)
      (Cennzx CennzxError.MinimumCoreAssetRequirementNotMet) in
    do* ensure (min_asset_withdraw <=? lv_asset withdraw_value)
      (Cennzx CennzxError.MinimumTradeAssetRequirementNotMet) in
    let* exchange_address := gets (exchange_address_for asset_id) in
    do* pool_transfer exchange_address from_account core_asset_id (lv_core withdraw_value) in
    do* pool_transfer exchange_address from_account asset_id (lv_asset withdraw_value) in
    do* modify (burn_liquidity exchange_key from_account liquidity_to_withdraw) in
    modify (deposit_event (RemoveLiquidity from_account (lv_core withdraw_value) asset_id
                             (lv_asset withdraw_value)))).

Definition set_fee_rate (origin : Origin) (new_fee_rate : Z) : D State unit :=
  do* ensure_root origin in
  modify (set_DefaultFeeRate new_fee_rate).
End Cennzx.

#[global] Arguments State L : clear implicits.
#[global] Arguments low_or_overflow : simpl never.
#[global] Arguments FeeRate_checked_add : simpl never.
#[global] Arguments FeeRate_checked_mul : simpl never.
#[global] Arguments FeeRate_checked_div : simpl never.
#[global] Arguments calculate_buy_price : simpl never.
#[global] Arguments calculate_sell_price : simpl never.
