(* ===== verification/CennzxPricing.v ===== *)
(** * CENNZX: pricing

    The arithmetic of the price functions: what they compute, that they never
    panic, that every price keeps the product of the reserves from shrinking,
    and what share of the pool liquidity is worth. *)

From S2P Require Import Prelude Support MultiCurrency Cennzx.

(** ** The reference prices *)

(** What a buyer of [x] owes before fees, rounded up past the exact value. *)
Definition buy_quote (x sell_reserve buy_reserve : Z) : Z := sell_reserve * x / (buy_reserve - x) + 1.

Definition buy_price (fee x sell_reserve buy_reserve : Z) : Z :=
  (fee + PerMillion_SCALE) * buy_quote x sell_reserve buy_reserve / PerMillion_SCALE.

(** The part of a sale that is priced once the fee is taken off. *)
Definition sell_scaled (fee x : Z) : Z := x * PerMillion_SCALE / (fee + PerMillion_SCALE).

Definition sell_price (fee x sell_reserve buy_reserve : Z) : Z :=
  buy_reserve * sell_scaled fee x / (sell_scaled fee x + sell_reserve).

Lemma umax_low : umax LOW = 340282366920938463463374607431768211455.
Proof. reflexivity. Qed.

Lemma umax_high : umax HIGH = (umax LOW + 1) * (umax LOW + 1) - 1.
Proof. reflexivity. Qed.

Lemma saturate_low z : in_range BALANCE_BITS z -> saturate LOW z = z.
Proof. unfold in_range, saturate. change BALANCE_BITS with LOW. lia. Qed.

Lemma saturate_balance z : z <= umax LOW -> saturate BALANCE_BITS z = z.
Proof. unfold saturate. change BALANCE_BITS with LOW. lia. Qed.

(** Products of two 128-bit numbers do not saturate in 256 bits. *)
Lemma saturating_mul_exact a b : in_range LOW a -> in_range LOW b -> saturating_mul HIGH a b = a * b.
Proof. unfold in_range, saturating_mul. rewrite umax_high. intros. apply Z.min_l. nia. Qed.

Lemma low_try_from_Some h x : low_try_from h = Some x <-> x = h /\ h <= umax LOW.
Proof.
  unfold low_try_from. destruct (Z.leb_spec h (umax LOW)); split; [naive_solver | naive_solver | done | lia].
Qed.

Lemma low_or_overflow_eq h :
  low_or_overflow h = if h <=? umax LOW then Ok h else Err (Cennzx CennzxError.Overflow).
Proof. unfold low_or_overflow, low_try_from, obind, check. by destruct (h <=? umax LOW). Qed.

(** [calculate_buy_price] as a decision table over the reference price. *)
Lemma calculate_buy_price_Ok fee x sr br p :
  in_range LOW fee -> in_range LOW x -> in_range LOW sr -> in_range LOW br ->
  calculate_buy_price fee x sr br = Ok p ->
  p = buy_price fee x sr br /\ 0 < sr /\ x < br /\ p <= umax LOW.
Proof.
  intros Hfee Hx Hsr Hbr Hp. unfold calculate_buy_price, obind, check, hp_sub in Hp.
  rewrite !saturate_low in Hp by done.
  destruct (negb (sr =? 0) && negb (br =? 0)) eqn:E1; [|done]. bool_to_prop.
  destruct (Z.ltb_spec x br) as [Hlt|]; [|done].
  rewrite (proj2 (Z.leb_le x br)) in Hp by lia.
  unfold checked_div in Hp. rewrite (proj2 (Z.eqb_neq (br - x) 0)) in Hp by lia.
  rewrite saturating_mul_exact in Hp by done. simpl in Hp. rewrite low_or_overflow_eq in Hp.
  destruct (Z.leb_spec (sr * x / (br - x)) (umax LOW)) as [Hq|]; [|done].
  destruct (checked_add LOW _ 1) as [q1|] eqn:E2; [|done]. bool_to_prop. simpl in Hp.
  destruct (FeeRate_checked_add _ _) as [f1|] eqn:E3; [|done]. unfold FeeRate_checked_add in E3. bool_to_prop.
  simpl in Hp. unfold FeeRate_checked_mul, checked_div, FeeRate_one in *. simpl in Hp.
  assert (Hq0 : 0 <= sr * x / (br - x)) by (apply Z.div_pos; unfold in_range in *; nia).
  rewrite saturating_mul_exact in Hp by (unfold in_range in *; split; unfold PerMillion_SCALE in *; lia).
  unfold FeeRate_try_from in Hp. destruct (low_try_from _) as [o|] eqn:E4; [|done].
  apply low_try_from_Some in E4 as [-> Ho]. simpl in Hp. rewrite saturate_balance in Hp by done.
  unfold in_range in *. split_and!; [|lia|lia|]; injection Hp as <-; done.
Qed.

Lemma calculate_sell_price_Ok fee x sr br p :
  in_range LOW fee -> in_range LOW x -> in_range LOW sr -> in_range LOW br ->
  calculate_sell_price fee x sr br = Ok p ->
  p = sell_price fee x sr br /\ 0 < sr /\ 0 < br /\ p < br.
Proof.
  intros Hfee Hx Hsr Hbr Hp. unfold calculate_sell_price, obind, check, hp_add in Hp.
  rewrite !saturate_low in Hp by done.
  destruct (negb (sr =? 0) && negb (br =? 0)) eqn:E1; [|done]. bool_to_prop.
  destruct (FeeRate_checked_add _ _) as [d|] eqn:E2; [|done]. unfold FeeRate_checked_add in E2. bool_to_prop.
  simpl in Hp. unfold FeeRate_checked_div, FeeRate_one, checked_div in Hp.
  rewrite saturating_mul_exact in Hp by (try done; split; discriminate).
  rewrite (proj2 (Z.eqb_neq (fee + PerMillion_SCALE) 0)) in Hp by (unfold in_range, PerMillion_SCALE in *; lia).
  unfold FeeRate_try_from in Hp. fold (sell_scaled fee x) in Hp.
  destruct (low_try_from _) as [sc|] eqn:E3; [|done]. apply low_try_from_Some in E3 as [-> Hsc]. simpl in Hp.
  assert (Hsc0 : 0 <= sell_scaled fee x).
  { unfold sell_scaled, in_range, PerMillion_SCALE in *. apply Z.div_pos; lia. }
  rewrite (proj2 (Z.leb_le _ (umax HIGH))) in Hp by (rewrite umax_high; unfold in_range in *; nia).
  rewrite (proj2 (Z.eqb_neq (sell_scaled fee x + sr) 0)) in Hp by (unfold in_range in *; lia).
  rewrite saturating_mul_exact in Hp by done. simpl in Hp. rewrite low_or_overflow_eq in Hp.
  fold (sell_price fee x sr br) in Hp.
  destruct (Z.leb_spec (sell_price fee x sr br) (umax LOW)) as [Hpr|]; [|done].
  rewrite saturate_balance in Hp by done.
  destruct (Z.ltb_spec (sell_price fee x sr br) br); [|done].
  unfold in_range in *. split_and!; [congruence | lia | lia | congruence].
Qed.

(** ** The product of the reserves *)
Lemma buy_quote_bound x sr br : 0 <= x < br -> 0 < sr -> sr * x < buy_quote x sr br * (br - x).
Proof.
  intros Hx Hsr. unfold buy_quote. pose proof (Z.mul_succ_div_gt (sr * x) (br - x)). lia.
Qed.

Lemma buy_price_ge_quote fee x sr br : 0 <= fee -> 0 <= buy_quote x sr br ->
  buy_quote x sr br <= buy_price fee x sr br.
Proof.
  intros Hfee Hq. unfold buy_price. apply Z.div_le_lower_bound; unfold PerMillion_SCALE; nia.
Qed.

Lemma buy_price_product fee x sr br : 0 <= fee -> 0 <= x < br -> 0 < sr ->
  sr * br < (sr + buy_price fee x sr br) * (br - x).
Proof.
  intros Hfee Hx Hsr. pose proof (buy_quote_bound x sr br Hx Hsr) as Hb.
  assert (Hq : 0 <= buy_quote x sr br) by (unfold buy_quote; pose proof (Z.div_pos (sr * x) (br - x)); nia).
  pose proof (buy_price_ge_quote fee x sr br Hfee Hq). nia.
Qed.

Lemma buy_price_pos fee x sr br : 0 <= fee -> 0 <= x < br -> 0 < sr -> 0 < buy_price fee x sr br.
Proof.
  intros Hfee Hx Hsr. assert (Hq : 0 < buy_quote x sr br).
  { unfold buy_quote. pose proof (Z.div_pos (sr * x) (br - x) ltac:(nia) ltac:(lia)). lia. }
  pose proof (buy_price_ge_quote fee x sr br Hfee ltac:(lia)). lia.
Qed.

Lemma sell_scaled_le fee x : 0 <= fee -> 0 <= x -> 0 <= sell_scaled fee x <= x.
Proof.
  intros Hfee Hx. unfold sell_scaled, PerMillion_SCALE. split; [apply Z.div_pos; lia|].
  apply Z.div_le_upper_bound; nia.
Qed.

Lemma sell_price_product fee x sr br : 0 <= fee -> 0 <= x -> 0 < sr -> 0 <= br ->
  sr * br <= (sr + x) * (br - sell_price fee x sr br) /\ 0 <= sell_price fee x sr br <= br.
Proof.
  intros Hfee Hx Hsr Hbr. pose proof (sell_scaled_le fee x Hfee Hx) as Hs. unfold sell_price.
  set (y := sell_scaled fee x) in *. set (p := br * y / (y + sr)).
  assert (Hp : p * (y + sr) <= br * y) by (unfold p; rewrite Z.mul_comm; apply Z.mul_div_le; lia).
  assert (Hp0 : 0 <= p) by (unfold p; apply Z.div_pos; nia).
  assert (Hpb : p <= br) by (unfold p; apply Z.div_le_upper_bound; nia).
  split; [|done]. nia.
Qed.

(** A buy price always covers the constant product: after taking [x] out
    of one reserve and putting the price into the other the product of the
    reserves has strictly grown; the price is positive. *)
Theorem buy_price_grows_product fee x sr br p :
  in_range LOW fee -> in_range LOW x -> in_range LOW sr -> in_range LOW br ->
  calculate_buy_price fee x sr br = Ok p ->
  0 < p /\ x < br /\ sr * br < (sr + p) * (br - x).
Proof.
  intros Hfee Hx Hsr Hbr Hp.
  destruct (calculate_buy_price_Ok fee x sr br p Hfee Hx Hsr Hbr Hp) as (-> & H1 & H2 & _).
  unfold in_range in *. pose proof (buy_price_product fee x sr br ltac:(lia) ltac:(lia) H1).
  split_and!; [nia | done | done].
Qed.

(** A sell price never takes more than the constant product allows: the
    product of the reserves does not shrink and the payout stays below the
    reserve it is paid from. *)
Theorem sell_price_keeps_product fee x sr br p :
  in_range LOW fee -> in_range LOW x -> in_range LOW sr -> in_range LOW br ->
  calculate_sell_price fee x sr br = Ok p ->
  0 <= p < br /\ sr * br <= (sr + x) * (br - p).
Proof.
  intros Hfee Hx Hsr Hbr Hp.
  destruct (calculate_sell_price_Ok fee x sr br p Hfee Hx Hsr Hbr Hp) as (-> & H1 & H2 & H3).
  unfold in_range in *. pose proof (sell_price_product fee x sr br ltac:(lia) ltac:(lia) H1 ltac:(lia)).
  split; [lia | tauto].
Qed.

(** Buying and selling straight back never profits: with the reserves the
    purchase left behind, selling the bought amount returns strictly less than
    what was paid. *)
Theorem buy_then_sell_loses fee x sr br p r :
  in_range LOW fee -> in_range LOW x -> in_range LOW sr -> in_range LOW br -> in_range LOW (sr + p) ->
  calculate_buy_price fee x sr br = Ok p ->
  calculate_sell_price fee x (br - x) (sr + p) = Ok r -> r < p.
Proof.
  intros Hfee Hx Hsr Hbr Hsp Hp Hr.
  destruct (calculate_buy_price_Ok fee x sr br p Hfee Hx Hsr Hbr Hp) as (-> & H1 & H2 & _).
  set (p := buy_price fee x sr br) in *.
  assert (Hbx : in_range LOW (br - x)) by (unfold in_range in *; lia).
  destruct (calculate_sell_price_Ok fee x (br - x) (sr + p) r Hfee Hx Hbx Hsp Hr) as (-> & H3 & H4 & H5).
  unfold in_range in *.
  pose proof (buy_price_product fee x sr br ltac:(lia) ltac:(lia) H1) as Hk1. fold p in Hk1.
  pose proof (sell_price_product fee x (br - x) (sr + p) ltac:(lia) ltac:(lia) H3 ltac:(lia)) as [Hk2 _].
  nia.
Qed.

(** ** No panic *)
Lemma low_or_overflow_no_panic h : low_or_overflow h <> Panic.
Proof. rewrite low_or_overflow_eq. by case_match. Qed.

(** Neither price function ever panics: the subtraction and the addition in
    [U256] stay in range and the checked [unwrap] is never reached with nothing
    in it. *)
Theorem prices_never_panic fee x sr br :
  in_range LOW fee -> in_range LOW x -> in_range LOW sr -> in_range LOW br ->
  calculate_buy_price fee x sr br <> Panic /\ calculate_sell_price fee x sr br <> Panic.
Proof.
  intros Hfee Hx Hsr Hbr. pose proof low_or_overflow_no_panic as Hno. split.
  - unfold calculate_buy_price, obind, check, hp_sub. rewrite !saturate_low by done.
    destruct (negb (sr =? 0) && negb (br =? 0)); [|done]. destruct (Z.ltb_spec x br); [|done].
    rewrite (proj2 (Z.leb_le x br)) by lia. unfold some_or.
    destruct (checked_div _ _); [|done]. destruct (low_or_overflow z) eqn:E; [|done|by apply Hno in E].
    repeat (case_match; try done).
  - unfold calculate_sell_price, obind, check, hp_add. rewrite !saturate_low by done.
    destruct (negb (sr =? 0) && negb (br =? 0)); [|done]. unfold some_or.
    destruct (FeeRate_checked_add _ _); [|done].
    destruct (FeeRate_checked_div _ _ _) as [sc|] eqn:Ed; [|done].
    assert (Hsc : sc <= umax LOW).
    { unfold FeeRate_checked_div, FeeRate_try_from in Ed. destruct (checked_div _ _); [|done].
      by apply low_try_from_Some in Ed as [-> ?]. }
    rewrite (proj2 (Z.leb_le _ (umax HIGH))) by (rewrite umax_high; unfold in_range in *; nia).
    destruct (checked_div _ (sc + sr)); [|done].
    destruct (low_or_overflow z0) eqn:E; [|done|by apply Hno in E]. repeat (case_match; try done).
Qed.

(** ** Liquidity *)
Lemma wrap_le z : 0 <= z -> 0 <= wrap BALANCE_BITS z <= z.
Proof.
  intros Hz. unfold wrap. change (2 ^ BALANCE_BITS) with (umax LOW + 1).
  pose proof (Z.mod_pos_bound z (umax LOW + 1) ltac:(done)).
  pose proof (Z.mod_le z (umax LOW + 1) Hz ltac:(done)). lia.
Qed.

Lemma mul_div_le a b c : 0 <= a -> 0 <= b -> 0 < c -> 0 <= mul_div a b c /\ mul_div a b c * c <= a * b.
Proof.
  intros Ha Hb Hc. unfold mul_div, wrapping_mul. pose proof (wrap_le (a * b) ltac:(nia)) as Hw.
  split; [apply Z.div_pos; lia|].
  pose proof (Z.mul_div_le (wrap BALANCE_BITS (a * b)) c Hc). lia.
Qed.

Lemma mul_div_exact a b c : 0 <= a * b <= umax LOW -> mul_div a b c = a * b / c.
Proof. intros Hab. unfold mul_div, wrapping_mul. by rewrite wrap_small. Qed.

(** Withdrawing liquidity never pays out more than the share of the pool it
    stands for, in either asset, and never more than the reserves, also when
    the unchecked multiplication wraps. *)
Theorem liquidity_value_within_share asset_reserve core_reserve liquidity total :
  0 <= asset_reserve -> 0 <= core_reserve -> 0 <= liquidity -> 0 < total ->
  let v := calculate_liquidity_value asset_reserve core_reserve liquidity total in
  lv_liquidity v = Z.min liquidity total /\
  0 <= lv_core v <= core_reserve /\ lv_core v * total <= lv_liquidity v * core_reserve /\
  0 <= lv_asset v <= asset_reserve /\ lv_asset v * total <= lv_liquidity v * asset_reserve.
Proof.
  intros Ha Hc Hl Ht. unfold calculate_liquidity_value. rewrite (proj2 (Z.eqb_neq total 0)) by lia. simpl.
  pose proof (mul_div_le (Z.min liquidity total) core_reserve total ltac:(lia) Hc Ht).
  pose proof (mul_div_le (Z.min liquidity total) asset_reserve total ltac:(lia) Ha Ht).
  split_and!; try done; nia.
Qed.

(** As long as the products fit the balance type, adding liquidity to a
    running pool dilutes nobody: the liquidity minted is at most the share the
    core asset buys, and the trade asset paid is more than its share. *)
Theorem add_liquidity_no_dilution total core_reserve trade_reserve max_asset core_amount :
  0 < total -> 0 < core_reserve -> 0 <= trade_reserve -> 0 < core_amount ->
  core_amount * trade_reserve < umax LOW -> core_amount * total <= umax LOW ->
  let '(trade_amount, minted) :=
    add_liquidity_amounts total core_reserve trade_reserve max_asset core_amount in
  minted * core_reserve <= core_amount * total /\
  core_amount * trade_reserve < trade_amount * core_reserve /\
  core_amount * total < (minted + 1) * core_reserve.
Proof.
  intros Ht Hc Hr Ha Hov1 Hov2. unfold add_liquidity_amounts.
  rewrite (proj2 (Z.eqb_neq total 0)), (proj2 (Z.eqb_neq core_reserve 0)) by lia. simpl.
  rewrite !mul_div_exact by nia.
  assert (Hd : 0 <= core_amount * trade_reserve / core_reserve <= core_amount * trade_reserve).
  { split; [apply Z.div_pos; nia | apply Z.div_le_upper_bound; nia]. }
  unfold wrapping_add. rewrite wrap_small by (unfold in_range; change BALANCE_BITS with LOW; lia).
  pose proof (Z.mul_div_le (core_amount * total) core_reserve Hc).
  pose proof (Z.mul_succ_div_gt (core_amount * total) core_reserve Hc).
  pose proof (Z.mul_succ_div_gt (core_amount * trade_reserve) core_reserve Hc).
  split_and!; nia.
Qed.

(** Without that bound it does not hold: the 128-bit product wraps, and a
    provider who adds as much core asset as the pool has pays a single unit of
    the trade asset for half of the pool. *)
Theorem add_liquidity_overflow_dilutes :
  let core_reserve := 2 ^ 40 in
  let trade_reserve := 2 ^ 88 in
  let total := 2 ^ 40 in
  add_liquidity_amounts total core_reserve trade_reserve (2 ^ 90) core_reserve = (1, 2 ^ 40).
Proof. reflexivity. Qed.

(** ** Pool addresses *)
Lemma to_le_bytes_inj n x y : 0 <= x < 256 ^ Z.of_nat n -> 0 <= y < 256 ^ Z.of_nat n ->
  to_le_bytes n x = to_le_bytes n y -> x = y.
Proof.
  revert x y. induction n as [|n IH]; intros x y Hx Hy Heq.
  - simpl in *. lia.
  - injection Heq as H1 H2. rewrite Nat2Z.inj_succ, Z.pow_succ_r in * by lia.
    apply IH in H2; [|split; [apply Z.div_pos; lia | apply Z.div_lt_upper_bound; lia]..].
    rewrite (Z.div_mod x 256), (Z.div_mod y 256) by lia. congruence.
Qed.

Lemma length_to_le_bytes n x : length (to_le_bytes n x) = n.
Proof. revert x. induction n; intros x; simpl; [done | by f_equal]. Qed.

(** Pools of different asset pairs are derived from different preimages,
    so under a hash without collisions on these inputs every pair has an account
    of its own. *)
Theorem exchange_address_injective `{Hashing} core asset core' asset' :
  in_range 64 core -> in_range 64 asset -> in_range 64 core' -> in_range 64 asset' ->
  (forall b b', length b = 29%nat -> length b' = 29%nat -> hash b = hash b' -> b = b') ->
  exchange_address core asset = exchange_address core' asset' -> core = core' /\ asset = asset'.
Proof.
  unfold in_range, umax. intros Hc Ha Hc' Ha' Hhash Heq.
  apply Hhash in Heq; [|unfold exchange_preimage; rewrite !length_app, !length_to_le_bytes; done..].
  unfold exchange_preimage in Heq. apply app_inv_head in Heq.
  apply app_inj_1 in Heq as [H1 H2]; [|by rewrite !length_to_le_bytes].
  apply to_le_bytes_inj in H1, H2; simpl; try lia.
Qed.

(** ** Witnesses *)
Lemma buy_price_grows_product_witness :
  calculate_buy_price 3000 100 1000 1000 = Ok 112 /\ 1000 * 1000 < (1000 + 112) * (1000 - 100).
Proof.
  split; [reflexivity|].
  apply (buy_price_grows_product 3000 100 1000 1000 112); vm_compute; split; discriminate.
Defined.

Lemma sell_price_keeps_product_witness :
  calculate_sell_price 3000 100 1000 1000 = Ok 90 /\ 1000 * 1000 <= (1000 + 100) * (1000 - 90).
Proof.
  split; [reflexivity|].
  apply (sell_price_keeps_product 3000 100 1000 1000 90); vm_compute; split; discriminate.
Defined.

Lemma buy_then_sell_loses_witness :
  calculate_sell_price 3000 100 (1000 - 100) (1000 + 112) = Ok 110 /\ 110 < 112.
Proof.
  split; [reflexivity|].
  apply (buy_then_sell_loses 3000 100 1000 1000 112 110); vm_compute; split; discriminate.
Defined.

Lemma prices_never_panic_witness :
  calculate_buy_price (umax LOW) 5 7 (umax LOW) <> Panic /\
  calculate_sell_price (umax LOW) 5 7 (umax LOW) <> Panic.
Proof. apply prices_never_panic; vm_compute; split; discriminate. Defined.

Lemma liquidity_value_within_share_witness :
  lv_core (calculate_liquidity_value 700 500 30 100) = 150 /\
  lv_core (calculate_liquidity_value 700 500 30 100) <= 500.
Proof.
  split; [reflexivity|].
  destruct (liquidity_value_within_share 700 500 30 100) as (_ & [_ H2] & _); [lia..|]. exact H2.
Defined.

Lemma add_liquidity_no_dilution_witness :
  add_liquidity_amounts 100 500 700 1000 50 = (71, 10) /\ 50 * 700 < 71 * 500.
Proof.
  split; [reflexivity|].
  destruct (add_liquidity_no_dilution 100 500 700 1000 50) as (_ & H2 & _);
    try lia; try (vm_compute; (reflexivity || discriminate)); exact H2.
Defined.

Module DemoHash.
#[local] Instance hashing : Hashing := {| hash b := Z.pos (encode b) |}.
End DemoHash.

Lemma exchange_address_injective_witness :
  @exchange_address DemoHash.hashing 1 2 = @exchange_address DemoHash.hashing 1 2 -> 1 = 1 /\ 2 = 2.
Proof.
  apply (@exchange_address_injective DemoHash.hashing 1 2 1 2); try (vm_compute; split; discriminate).
  intros b b' _ _ Hb. injection Hb. apply encode_inj.
Defined.
