(* ===== verification/CennzxTheorems.v ===== *)
(** * CENNZX: theorems on trades and liquidity

    Proved against the [MultiCurrency] interface: trades are atomic and honour
    the trader's limits, a direct trade moves its two amounts and, while the pool
    keeps the minimum balance, does not shrink the product of the reserves, and
    the liquidity books add up until they saturate. *)

From S2P Require Import Prelude Support MultiCurrency Cennzx CennzxPricing.

Section Theorems.
Context {L : Type} {cur : MultiCurrency L} {laws : MultiCurrencyLaws L} {hashing : Hashing}.
Implicit Types (s : State L) (w : AccountId) (a : AssetId).

(** ** Atomicity *)
Lemma execute_trade_noop trader recipient sell buy p x :
  noop_on_err (execute_trade (L := L) trader recipient sell buy p x).
Proof. apply noop_transactional. Qed.

Lemma reader_query {A} (q : State L -> Res A) : reader (query q).
Proof. done. Qed.

#[local] Hint Resolve reader_query : dispatch.

Lemma execute_buy_noop trader recipient sell buy x max :
  noop_on_err (execute_buy (L := L) trader recipient sell buy x max).
Proof.
  do 4 (apply noop_bind_reader; [eauto with dispatch | intros]).
  apply noop_bind_infallible; [apply execute_trade_noop | eauto with dispatch].
Qed.

Lemma execute_sell_noop trader recipient sell buy x min :
  noop_on_err (execute_sell (L := L) trader recipient sell buy x min).
Proof.
  do 4 (apply noop_bind_reader; [eauto with dispatch | intros]).
  apply noop_bind_infallible; [apply execute_trade_noop | eauto with dispatch].
Qed.

(** Every extrinsic of the exchange is atomic: whichever transfer or check
    fails, an error leaves the ledger of the currency and the liquidity books
    exactly as they were. *)
Theorem exchange_noop_on_err origin recipient sell buy x limit asset core_amount :
  noop_on_err (buy_asset (L := L) origin recipient sell buy x limit) /\
  noop_on_err (sell_asset (L := L) origin recipient sell buy x limit) /\
  noop_on_err (add_liquidity (L := L) origin asset x limit core_amount) /\
  noop_on_err (remove_liquidity (L := L) origin asset x limit core_amount) /\
  noop_on_err (set_fee_rate (L := L) origin x).
Proof.
  split_and!.
  - apply noop_bind_reader; [eauto with dispatch | intros].
    apply noop_bind_infallible; [apply execute_buy_noop | eauto with dispatch].
  - apply noop_bind_reader; [eauto with dispatch | intros].
    apply noop_bind_infallible; [apply execute_sell_noop | eauto with dispatch].
  - apply noop_transactional.
  - apply noop_transactional.
  - unfold set_fee_rate. solve_noop.
Qed.

(** ** One transfer of the ledger *)
Lemma pool_transfer_Ok from to c v s s' : cur_ok (ledger s) -> 0 <= v ->
  pool_transfer from to c v s = (Ok tt, s') ->
  cur_ok (ledger s') /\ s' = set_ledger (ledger s') s /\
  (forall w, w <> cur_sink -> balance_of w c s' =
     after_transfer (cur_minimum_balance c (ledger s)) from to v (fun w => balance_of w c s) w) /\
  (forall w c', c' <> c -> balance_of w c' s' = balance_of w c' s) /\
  (forall c', cur_minimum_balance c' (ledger s') = cur_minimum_balance c' (ledger s)).
Proof.
  intros Hok Hv Ht. pose proof (cur_transfer_spec (ledger s) from to c v KeepAlive Hok Hv) as Hs.
  unfold pool_transfer, on_ledger in Ht. destruct (cur_transfer _ _ _ _ _ _) as [[[]|e|] l']; simplify_eq/=.
  destruct Hs as (H1 & _ & H3 & H4 & H5). by split_and!.
Qed.

(** The pool account of a trade in which one of the assets is the core asset. *)
Definition direct_pool (sell buy : AssetId) s : AccountId :=
  exchange_address_for (if buy =? CoreAssetId s then sell else buy) s.

Lemma after_transfer_credit min from to v f w : from <> to -> w = to -> after_transfer min from to v f w = f to + v.
Proof.
  intros Hne ->. unfold after_transfer. rewrite (proj2 (Z.eqb_neq from to) Hne).
  rewrite (proj2 (Z.eqb_neq to from)) by done. rewrite Z.eqb_refl. simpl.
  destruct (Z.eqb_spec v 0); lia.
Qed.

Lemma after_transfer_debit min from to v f : from <> to -> min <= f from - v \/ v = 0 ->
  after_transfer min from to v f from = f from - v.
Proof.
  intros Hne Hmin. unfold after_transfer. rewrite (proj2 (Z.eqb_neq from to) Hne), Z.eqb_refl. simpl.
  destruct (Z.eqb_spec v 0); [lia|]. rewrite (proj2 (Z.ltb_ge _ _)) by lia. done.
Qed.

(** What a trade over one pool does to every account but the one remainders go
    to: the trader pays the pool in the sold asset, the pool pays the recipient
    in the bought asset, each payment with the rule for remainders, and nothing
    else of the ledger changes. *)
Definition trade_settled (trader recipient : AccountId) (sell buy : AssetId) (p x : Balance) s s' : Prop :=
  let pool := direct_pool sell buy s in
  (forall w, w <> cur_sink -> balance_of w sell s' =
     after_transfer (cur_minimum_balance sell (ledger s)) trader pool p (fun v => balance_of v sell s) w) /\
  (forall w, w <> cur_sink -> balance_of w buy s' =
     after_transfer (cur_minimum_balance buy (ledger s)) pool recipient x (fun v => balance_of v buy s) w) /\
  (forall w c, c <> sell -> c <> buy -> balance_of w c s' = balance_of w c s).

Lemma direct_trade trader recipient sell buy p x s s' :
  cur_ok (ledger s) -> sell <> buy -> (sell = CoreAssetId s \/ buy = CoreAssetId s) ->
  0 <= p -> 0 <= x ->
  execute_trade trader recipient sell buy p x s = (Ok tt, s') ->
  cur_ok (ledger s') /\ s' = set_ledger (ledger s') s /\ trade_settled trader recipient sell buy p x s s'.
Proof.
  intros Hok Hne Hcore Hp Hx Ht.
  assert (Hc : (sell =? CoreAssetId s) || (buy =? CoreAssetId s) = true).
  { apply orb_true_iff. rewrite !Z.eqb_eq. tauto. }
  unfold execute_trade, transactional, bind, gets in Ht. rewrite Hc in Ht.
  fold (direct_pool sell buy s) in Ht. unfold trade_settled. set (pool := direct_pool sell buy s) in *. cbv zeta.
  destruct (and_also _ _ s) as [[[]|e|] s2] eqn:Ha; simplify_eq.
  apply and_also_Ok in Ha as ([] & s1 & H1 & H2).
  apply pool_transfer_Ok in H1 as (Hok1 & He1 & Hb1 & Ho1 & Hm1); [|done..].
  apply pool_transfer_Ok in H2 as (Hok2 & He2 & Hb2 & Ho2 & Hm2); [|done..].
  split_and!; [done | by rewrite He2, He1 | | |].
  - intros w Hw. rewrite Ho2, Hb1 by done. done.
  - intros w Hw. rewrite Hb2, Hm1 by done. unfold after_transfer. by rewrite !Ho1 by congruence.
  - intros w c Hs Hb. by rewrite Ho2, Ho1 by congruence.
Qed.

(** The reserves a trade leaves: the paid amount is in, the bought amount is
    out, or the whole reserve is when less than the minimum would stay. *)
Lemma trade_settled_pool trader recipient sell buy p x s s' :
  let pool := direct_pool sell buy s in
  trade_settled trader recipient sell buy p x s s' ->
  pool <> trader -> pool <> recipient -> pool <> cur_sink ->
  balance_of pool sell s' = balance_of pool sell s + p /\
  (cur_minimum_balance buy (ledger s) <= balance_of pool buy s - x \/ x = 0 ->
   balance_of pool buy s' = balance_of pool buy s - x) /\
  (balance_of pool buy s - x < cur_minimum_balance buy (ledger s) -> x <> 0 -> balance_of pool buy s' = 0).
Proof.
  intros pool (Hs & Hb & _) Hpt Hpr Hps. fold pool in Hs, Hb. split_and!.
  - rewrite Hs by done. by apply after_transfer_credit.
  - intros Hmin. rewrite Hb by done. by apply after_transfer_debit.
  - intros Hmin Hx. rewrite Hb by done. unfold after_transfer.
    rewrite (proj2 (Z.eqb_neq _ _) Hpr), (proj2 (Z.eqb_neq _ _) Hx), Z.eqb_refl. simpl.
    by rewrite (proj2 (Z.ltb_lt _ _) Hmin).
Qed.

(** ** Trades *)

(** The reserves of the pool of a direct trade are those its price was computed from. *)
Lemma direct_buy_price sell buy x p s :
  (sell = CoreAssetId s \/ buy = CoreAssetId s) ->
  get_buy_price buy x sell s = Ok p ->
  sell <> buy /\ 0 < x /\
  calculate_buy_price (DefaultFeeRate s) x (balance_of (direct_pool sell buy s) sell s)
    (balance_of (direct_pool sell buy s) buy s) = Ok p.
Proof.
  intros Hcore Hp. unfold get_buy_price, get_core_to_asset_buy_price, get_asset_to_core_buy_price,
    get_exchange_reserves, direct_pool, obind, check in *.
  destruct (Z.eqb_spec buy sell) as [|Hne]; [done|]. simpl in Hp.
  destruct (Z.eqb_spec buy (CoreAssetId s)) as [Hb|Hb].
  - destruct (Z.eqb_spec sell (CoreAssetId s)); [congruence|].
    destruct (Z.ltb_spec 0 x); [|done]. rewrite Hb. split_and!; [congruence | done | done].
  - destruct Hcore as [Hs|]; [|done]. rewrite (proj2 (Z.eqb_eq _ _) Hs) in Hp.
    destruct (Z.ltb_spec 0 x); [|done].
    destruct (calculate_buy_price _ _ _ _) eqn:E; simplify_eq. split_and!; [congruence | done..].
Qed.

Lemma direct_sell_price sell buy x p s :
  (sell = CoreAssetId s \/ buy = CoreAssetId s) ->
  get_sell_price sell x buy s = Ok p ->
  sell <> buy /\ 0 < x /\
  calculate_sell_price (DefaultFeeRate s) x (balance_of (direct_pool sell buy s) sell s)
    (balance_of (direct_pool sell buy s) buy s) = Ok p.
Proof.
  intros Hcore Hp. unfold get_sell_price, get_core_to_asset_sell_price, get_asset_to_core_sell_price,
    get_exchange_reserves, direct_pool, obind, check in *.
  destruct (Z.eqb_spec sell buy) as [|Hne]; [done|]. simpl in Hp.
  destruct (Z.eqb_spec sell (CoreAssetId s)) as [Hs|Hs].
  - destruct (Z.eqb_spec buy (CoreAssetId s)); [congruence|].
    destruct (Z.ltb_spec 0 x); [|done]. rewrite Hs. split_and!; [congruence | done | done].
  - destruct Hcore as [|Hb]; [done|]. rewrite (proj2 (Z.eqb_eq _ _) Hb) in *.
    destruct (Z.ltb_spec 0 x); [|done].
    destruct (calculate_sell_price _ _ _ _) eqn:E; simplify_eq. split_and!; [congruence | done..].
Qed.

(** A purchase over one pool, up to the shape of its price. *)
Lemma execute_buy_direct trader recipient sell buy x max s p s' :
  let pool := direct_pool sell buy s in
  cur_ok (ledger s) -> in_range LOW (DefaultFeeRate s) -> in_range LOW x ->
  (sell = CoreAssetId s \/ buy = CoreAssetId s) ->
  execute_buy trader recipient sell buy x max s = (Ok p, s') ->
  p <= max /\ p <= balance_of trader sell s /\ 0 < p /\ 0 < x /\
  s' = deposit_event (AssetBought sell buy trader p x) (set_ledger (ledger s') s) /\
  trade_settled trader recipient sell buy p x s s' /\
  balance_of pool sell s * balance_of pool buy s < (balance_of pool sell s + p) * (balance_of pool buy s - x).
Proof.
  intros pool Hok Hfee Hx Hcore He.
  unfold execute_buy, bind, query, ensure, gets, modify, ret, fail in He.
  destruct (get_buy_price buy x sell s) as [p'|e|] eqn:Hp; [|done..].
  destruct (Z.leb_spec p' max) as [Hmax|]; [|done].
  destruct (Z.leb_spec p' (balance_of trader sell s)) as [Hbal|]; [|done].
  destruct (execute_trade trader recipient sell buy p' x s) as [[[]|e|] s1] eqn:Ht; [|done..].
  injection He as -> <-.
  apply direct_buy_price in Hp as (Hne & Hpos & Hp); [|done].
  pose proof (cur_free_range (ledger s) pool sell Hok) as Hr1.
  pose proof (cur_free_range (ledger s) pool buy Hok) as Hr2.
  apply calculate_buy_price_Ok in Hp as (Hpe & H1 & H2 & _); [|done..].
  fold pool in Hpe, H1, H2.
  assert (Hprod := buy_price_product (DefaultFeeRate s) x (balance_of pool sell s) (balance_of pool buy s)
    (proj1 Hfee) (conj (Z.lt_le_incl _ _ Hpos) H2) H1). rewrite <- Hpe in Hprod.
  assert (Hp0 := buy_price_pos (DefaultFeeRate s) x (balance_of pool sell s) (balance_of pool buy s)
    (proj1 Hfee) (conj (Z.lt_le_incl _ _ Hpos) H2) H1). rewrite <- Hpe in Hp0.
  apply direct_trade in Ht as (_ & Hs & Ht); try done; [|lia..].
  split_and!; [done..| | exact Ht | done]. simpl. by rewrite <- Hs.
Qed.

(** No purchase over one pool panics. *)
Lemma pool_transfer_no_panic from to c v s : cur_ok (ledger s) -> 0 <= v ->
  fst (pool_transfer from to c v s) <> Panic /\ cur_ok (ledger (snd (pool_transfer from to c v s))).
Proof.
  intros Hok Hv. pose proof (cur_transfer_spec (ledger s) from to c v KeepAlive Hok Hv) as Hs.
  unfold pool_transfer, on_ledger. destruct (cur_transfer _ _ _ _ _ _) as [[[]|e|] l']; [|by simplify_eq/=|done].
  by destruct Hs.
Qed.

Lemma and_also_no_panic {A B} (m1 : D (State L) A) (m2 : D (State L) B) s :
  fst (m1 s) <> Panic -> fst (m2 (snd (m1 s))) <> Panic -> fst (and_also m1 m2 s) <> Panic.
Proof. unfold and_also. intros H1 H2. by destruct (m1 s) as [[] s1]; simpl in *; destruct (m2 s1) as [[] s2]. Qed.

Lemma get_buy_price_no_panic sell buy x s : cur_ok (ledger s) -> in_range LOW (DefaultFeeRate s) -> in_range LOW x ->
  (sell = CoreAssetId s \/ buy = CoreAssetId s) -> get_buy_price buy x sell s <> Panic.
Proof.
  intros Hok Hfee Hx Hcore.
  assert (Hno : forall a b w v, calculate_buy_price (DefaultFeeRate s) x (balance_of w a s) (balance_of v b s) <> Panic).
  { intros. apply prices_never_panic; try done; by apply cur_free_range. }
  unfold get_buy_price, get_core_to_asset_buy_price, get_asset_to_core_buy_price, get_exchange_reserves, obind, check.
  destruct (buy =? sell); [done|]. simpl. destruct (Z.eqb_spec buy (CoreAssetId s)) as [Hb|Hb].
  - destruct (Z.eqb_spec sell (CoreAssetId s)); repeat case_match; done || (by exfalso; eapply Hno).
  - destruct Hcore as [Hs|]; [|done]. rewrite (proj2 (Z.eqb_eq _ _) Hs).
    repeat case_match; done || (by exfalso; eapply Hno).
Qed.

Lemma execute_buy_no_panic trader recipient sell buy x max s : cur_ok (ledger s) -> in_range LOW (DefaultFeeRate s) ->
  in_range LOW x -> (sell = CoreAssetId s \/ buy = CoreAssetId s) ->
  fst (execute_buy trader recipient sell buy x max s) <> Panic.
Proof.
  intros Hok Hfee Hx Hcore. pose proof (get_buy_price_no_panic sell buy x s Hok Hfee Hx Hcore) as Hno.
  unfold execute_buy, bind, query, ensure, gets, modify, ret, fail.
  destruct (get_buy_price buy x sell s) as [p|e|] eqn:Hp; [|done..].
  destruct (p <=? max); [|done]. destruct (p <=? balance_of trader sell s); [|done].
  apply direct_buy_price in Hp as (Hne & Hpos & Hp); [|done].
  assert (Hp0 : 0 <= p).
  { apply calculate_buy_price_Ok in Hp as (-> & H1 & H2 & _); try done; try by apply cur_free_range.
    apply Z.lt_le_incl, buy_price_pos; [apply Hfee | split; [by apply Z.lt_le_incl | done] | done]. }
  assert (Ht : fst (execute_trade trader recipient sell buy p x s) <> Panic).
  { assert (Hc : (sell =? CoreAssetId s) || (buy =? CoreAssetId s) = true).
    { apply orb_true_iff. rewrite !Z.eqb_eq. tauto. }
    unfold execute_trade, transactional, bind, gets. rewrite Hc.
    match goal with |- context [and_also ?m1 ?m2 s] => pose proof (and_also_no_panic m1 m2 s) as Ha; destruct (and_also m1 m2 s) as [[]] eqn:E end;
      [done|done|].
    destruct (pool_transfer_no_panic trader (exchange_address_for (if buy =? CoreAssetId s then sell else buy) s) sell p s) as [N1 N2]; [done..|].
    apply Ha; [done|]. apply pool_transfer_no_panic; [done | lia]. }
  destruct (execute_trade trader recipient sell buy p x s) as [[[]|e|] s1]; done.
Qed.

(** C8: a successful purchase over one pool charges the trader the price, at
    most the stated maximum and at most what the trader has; the trader's
    balance falls by it, the recipient's rises by the bought amount, and no
    other balance but the pool's changes.  The pool ends with the price added
    to one reserve, the bought amount taken from the other, and a strictly
    larger product; when less than the minimum balance would stay in the
    reserve, it ends empty instead. *)
Theorem buy_keeps_pool trader recipient sell buy x max s p s' :
  let pool := direct_pool sell buy s in
  cur_ok (ledger s) -> in_range LOW (DefaultFeeRate s) -> in_range LOW x ->
  (sell = CoreAssetId s \/ buy = CoreAssetId s) ->
  pool <> trader -> pool <> recipient -> pool <> cur_sink ->
  execute_buy trader recipient sell buy x max s = (Ok p, s') ->
  p <= max /\ p <= balance_of trader sell s /\
  s' = deposit_event (AssetBought sell buy trader p x) (set_ledger (ledger s') s) /\
  trade_settled trader recipient sell buy p x s s' /\
  balance_of pool sell s' = balance_of pool sell s + p /\
  (recipient <> cur_sink -> balance_of recipient buy s' = balance_of recipient buy s + x) /\
  (cur_minimum_balance buy (ledger s) <= balance_of pool buy s - x ->
     balance_of pool buy s' = balance_of pool buy s - x /\
     balance_of pool sell s * balance_of pool buy s < balance_of pool sell s' * balance_of pool buy s') /\
  (balance_of pool buy s - x < cur_minimum_balance buy (ledger s) -> balance_of pool buy s' = 0).
Proof.
  intros pool Hok Hfee Hx Hcore Hpt Hpr Hps He.
  destruct (execute_buy_direct trader recipient sell buy x max s p s') as (Hm & Hb & _ & Hx0 & Hs & Ht & Hk); try done.
  destruct (trade_settled_pool trader recipient sell buy p x s s') as (P1 & P2 & P3); try done.
  fold pool in Hk, P1, P2, P3. split_and!; try done.
  - intros Hr. rewrite (proj1 (proj2 Ht)) by done. by apply after_transfer_credit.
  - intros Hmin. rewrite P1, P2 by auto. done.
  - intros Hmin. apply P3; [done | lia].
Qed.

(** C13: a successful sale over one pool takes the sold amount, which the
    trader has, and pays the recipient the price, at least the stated minimum;
    no other balance but the pool's changes.  The pool ends with the sold
    amount added to one reserve, the payout taken from the other, and a product
    that has not shrunk; when a payout would leave less than the minimum
    balance in the reserve, it ends empty instead. *)
Theorem sell_keeps_pool trader recipient sell buy x min s p s' :
  let pool := direct_pool sell buy s in
  cur_ok (ledger s) -> in_range LOW (DefaultFeeRate s) -> in_range LOW x ->
  (sell = CoreAssetId s \/ buy = CoreAssetId s) ->
  pool <> trader -> pool <> recipient -> pool <> cur_sink ->
  execute_sell trader recipient sell buy x min s = (Ok p, s') ->
  min <= p /\ x <= balance_of trader sell s /\
  s' = deposit_event (AssetSold sell buy trader x p) (set_ledger (ledger s') s) /\
  trade_settled trader recipient sell buy x p s s' /\
  balance_of pool sell s' = balance_of pool sell s + x /\
  (recipient <> cur_sink -> balance_of recipient buy s' = balance_of recipient buy s + p) /\
  (cur_minimum_balance buy (ledger s) <= balance_of pool buy s - p \/ p = 0 ->
     balance_of pool buy s' = balance_of pool buy s - p /\
     balance_of pool sell s * balance_of pool buy s <= balance_of pool sell s' * balance_of pool buy s') /\
  (balance_of pool buy s - p < cur_minimum_balance buy (ledger s) -> p <> 0 -> balance_of pool buy s' = 0).
Proof.
  intros pool Hok Hfee Hx Hcore Hpt Hpr Hps He.
  unfold execute_sell, bind, query, ensure, gets, modify, ret, fail in He.
  destruct (Z.leb_spec x (balance_of trader sell s)) as [Hbal|]; [|done].
  destruct (get_sell_price sell x buy s) as [p'|e|] eqn:Hp; [|done..].
  destruct (Z.leb_spec min p') as [Hm|]; [|done].
  destruct (execute_trade trader recipient sell buy x p' s) as [[[]|e|] s1] eqn:Ht; [|done..].
  injection He as -> <-.
  apply direct_sell_price in Hp as (Hne & Hpos & Hp); [|done].
  pose proof (cur_free_range (ledger s) pool sell Hok) as Hr1.
  pose proof (cur_free_range (ledger s) pool buy Hok) as Hr2.
  apply calculate_sell_price_Ok in Hp as (Hpe & H1 & H2 & H3); [|done..].
  fold pool in Hpe, H1, H2, H3.
  destruct (sell_price_product (DefaultFeeRate s) x (balance_of pool sell s) (balance_of pool buy s)
    (proj1 Hfee) (Z.lt_le_incl _ _ Hpos) H1 (Z.lt_le_incl _ _ H2)) as [Hprod Hp0]. rewrite <- Hpe in Hprod, Hp0.
  apply direct_trade in Ht as (_ & Hs & Ht); try done; [|lia..].
  change (trade_settled trader recipient sell buy x p s (deposit_event (AssetSold sell buy trader x p) s1)) in Ht.
  destruct (trade_settled_pool _ _ _ _ _ _ _ _ Ht) as (P1 & P2 & P3); try done. fold pool in P1, P2, P3.
  split_and!; try done.
  - simpl. by rewrite <- Hs.
  - intros Hr. rewrite (proj1 (proj2 Ht)) by done. by apply after_transfer_credit.
  - intros Hmin. rewrite P1, P2 by auto. done.
Qed.

(** ** The liquidity books *)
Definition of_pool (key : Z * Z) (k : Z * Z * Z) (v : Balance) : Z := if decide (k.1 = key) then v else 0.

Definition pool_shares (key : Z * Z) s : Z := msum (of_pool key) (LiquidityBalance s).

(** The total liquidity of every pool is the sum of the holdings in it. *)
Record books s : Prop := {
  books_nonneg : forall k v, LiquidityBalance s !! k = Some v -> 0 <= v;
  books_total : forall key, total_liquidity key s = pool_shares key s;
}.

Lemma liquidity_balance_nonneg key w s : books s -> 0 <= liquidity_balance key w s.
Proof.
  intros Hs. unfold liquidity_balance, sget. destruct (LiquidityBalance s !! (key, w)) eqn:E; simpl; [|lia].
  by eapply books_nonneg.
Qed.

Lemma mval_of_pool (key key' : Z * Z) w (m : gmap (Z * Z * Z) Balance) :
  mval (of_pool key) (key', w) m = if decide (key' = key) then sget 0 (key', w) m else 0.
Proof. unfold mval, of_pool, sget. simpl. by destruct (m !! (key', w)); case_decide. Qed.

Lemma share_le_total key w s : books s -> liquidity_balance key w s <= total_liquidity key s.
Proof.
  intros Hs. rewrite books_total by done.
  pose proof (mval_le_msum (of_pool key) (LiquidityBalance s) (key, w)) as Hle.
  rewrite mval_of_pool, decide_True in Hle by done. apply Hle. intros k v Hk. unfold of_pool.
  case_decide; [by eapply books_nonneg | lia].
Qed.

(** Writing one holding and moving the total by the difference. *)
Lemma books_write key w x total s : books s -> 0 <= x ->
  total = total_liquidity key s + (x - liquidity_balance key w s) ->
  books (set_TotalLiquidity (insert key total) (set_LiquidityBalance (insert (key, w) x) s)).
Proof.
  intros Hs Hx ->. split; simpl.
  - intros k v [[_ <-]|[_ Hk]]%lookup_insert_Some; [done | by eapply books_nonneg].
  - intros key'. unfold total_liquidity, pool_shares. simpl. rewrite msum_insert, mval_of_pool.
    unfold sget at 1. rewrite lookup_insert. unfold of_pool at 2. simpl.
    pose proof (books_total s Hs key') as Ht. unfold total_liquidity, pool_shares, sget in *.
    unfold liquidity_balance, sget in *. repeat case_decide; simplify_eq; simpl; lia.
Qed.

Lemma mint_liquidity_books key w x s : books s -> 0 <= x -> total_liquidity key s + x <= MAX_BALANCE ->
  books (mint_liquidity key w x s).
Proof.
  intros Hs Hx Hmax. pose proof (share_le_total key w s Hs). pose proof (liquidity_balance_nonneg key w s Hs).
  unfold mint_liquidity. cbv zeta.
  change (total_liquidity key (set_LiquidityBalance ?f s)) with (total_liquidity key s).
  unfold MAX_BALANCE in Hmax. rewrite !saturating_add_small by lia. apply books_write; [done | lia | lia].
Qed.

Lemma burn_liquidity_books key w x s : books s -> 0 <= x -> books (burn_liquidity key w x s).
Proof.
  intros Hs Hx. pose proof (share_le_total key w s Hs). pose proof (liquidity_balance_nonneg key w s Hs).
  unfold burn_liquidity. cbv zeta.
  change (total_liquidity key (set_LiquidityBalance ?f s)) with (total_liquidity key s).
  unfold saturating_sub. rewrite Z.max_r by lia. apply books_write; [done | lia | lia].
Qed.

Lemma books_frame s s' : books s -> TotalLiquidity s' = TotalLiquidity s ->
  LiquidityBalance s' = LiquidityBalance s -> books s'.
Proof.
  intros [H1 H2] Ht Hl. split; unfold total_liquidity, pool_shares in *; by rewrite ?Ht, ?Hl.
Qed.

Lemma preserves_books_ledger {A} (m : D L A) : preserves books (on_ledger m).
Proof. intros s Hs. unfold on_ledger. destruct (m (ledger s)). by apply (books_frame s). Qed.

Lemma preserves_books_modify f : (forall s, TotalLiquidity (f s) = TotalLiquidity s) ->
  (forall s, LiquidityBalance (f s) = LiquidityBalance s) ->
  @preserves DispatchError _ _ books (modify f).
Proof. intros H1 H2 s Hs. apply (books_frame s); [done | apply H1 | apply H2]. Qed.

Lemma preserves_and_also {A B} (P : State L -> Prop) (m1 : D (State L) A) (m2 : D (State L) B) :
  preserves P m1 -> preserves P m2 -> preserves P (and_also m1 m2).
Proof.
  intros H1 H2 s Hs. specialize (H1 s Hs). unfold and_also.
  destruct (m1 s) as [[r1|e|] s1]; simpl in *; [|by apply H2 in H1; destruct (m2 s1) as [[]] | done];
    apply H2 in H1; by destruct (m2 s1) as [[]].
Qed.

Lemma execute_trade_books trader recipient sell buy p x :
  preserves books (execute_trade trader recipient sell buy p x).
Proof.
  apply preserves_transactional, preserves_bind; [apply preserves_reader; eauto with dispatch | intros core].
  apply preserves_if.
  - apply preserves_bind; [apply preserves_reader; eauto with dispatch | intros pool].
    apply preserves_and_also; apply preserves_books_ledger.
  - do 3 (apply preserves_bind; [apply preserves_reader; eauto with dispatch | intros ?]).
    repeat apply preserves_and_also; apply preserves_books_ledger.
Qed.

(** The extrinsics as data. *)
Inductive Call :=
| C_buy_asset (recipient : option AccountId) (sell buy : AssetId) (amount max : Balance)
| C_sell_asset (recipient : option AccountId) (sell buy : AssetId) (amount min : Balance)
| C_add_liquidity (asset : AssetId) (min_liquidity max_asset core : Balance)
| C_remove_liquidity (asset : AssetId) (liquidity min_asset min_core : Balance)
| C_set_fee_rate (rate : Z).

Definition dispatch (c : Call) (origin : Origin) : D (State L) unit :=
  match c with
  | C_buy_asset r sell buy amount max => buy_asset origin r sell buy amount max
  | C_sell_asset r sell buy amount min => sell_asset origin r sell buy amount min
  | C_add_liquidity asset min max core => add_liquidity origin asset min max core
  | C_remove_liquidity asset l min_asset min_core => remove_liquidity origin asset l min_asset min_core
  | C_set_fee_rate r => set_fee_rate origin r
  end.

(** Arguments are in range, and an addition of liquidity does not push the
    total of the pool past the balance type. *)
Definition call_ok (c : Call) s : Prop :=
  match c with
  | C_add_liquidity asset _ max_asset core =>
      0 <= core /\
      let pool := exchange_address_for asset s in
      let key := (CoreAssetId s, asset) in
      total_liquidity key s +
        snd (add_liquidity_amounts (total_liquidity key s) (balance_of pool (CoreAssetId s) s)
               (balance_of pool asset s) max_asset core) <= MAX_BALANCE
  | C_remove_liquidity _ liquidity _ _ => 0 <= liquidity
  | _ => True
  end.

Lemma minted_nonneg total core_reserve trade_reserve max_asset core :
  0 <= core -> 0 <= core_reserve ->
  0 <= snd (add_liquidity_amounts total core_reserve trade_reserve max_asset core).
Proof.
  intros Hc Hr. unfold add_liquidity_amounts. case_match; simpl; [done|]. bool_to_prop.
  unfold mul_div, wrapping_mul. apply Z.div_pos; [|lia]. apply wrap_range. done.
Qed.

Lemma pool_transfer_frame from to c v s : exists l, snd (pool_transfer from to c v s) = set_ledger l s.
Proof. unfold pool_transfer, on_ledger. destruct (cur_transfer _ _ _ _ _ _). by eexists. Qed.

Lemma preserves_books_execute_buy trader recipient sell buy x max :
  preserves books (execute_buy trader recipient sell buy x max).
Proof.
  do 4 (apply preserves_bind; [apply preserves_reader; eauto with dispatch | intros ?]).
  apply preserves_bind; [apply execute_trade_books | intros ?].
  apply preserves_bind; [by apply preserves_books_modify | intros ?].
  apply preserves_reader; eauto with dispatch.
Qed.

Lemma preserves_books_execute_sell trader recipient sell buy x min :
  preserves books (execute_sell trader recipient sell buy x min).
Proof.
  do 4 (apply preserves_bind; [apply preserves_reader; eauto with dispatch | intros ?]).
  apply preserves_bind; [apply execute_trade_books | intros ?].
  apply preserves_bind; [by apply preserves_books_modify | intros ?].
  apply preserves_reader; eauto with dispatch.
Qed.

Lemma add_liquidity_books origin asset min max_asset core s :
  cur_ok (ledger s) -> books s -> call_ok (C_add_liquidity asset min max_asset core) s ->
  books (snd (add_liquidity origin asset min max_asset core s)).
Proof.
  intros Hok Hs [Hcore Hmax]. cbv zeta in Hmax.
  unfold add_liquidity, transactional, bind, ensure, gets, modify, ret, fail.
  destruct origin as [|w|]; simpl; try done.
  set (pool := exchange_address_for asset s) in *. set (key := (CoreAssetId s, asset)) in *.
  assert (Hminted := minted_nonneg (total_liquidity key s) (balance_of pool (CoreAssetId s) s)
    (balance_of pool asset s) max_asset core Hcore (proj1 (cur_free_range (ledger s) pool (CoreAssetId s) Hok))).
  destruct (add_liquidity_amounts _ _ _ _ _) as [trade minted] eqn:Ha. simpl in Hmax, Hminted.
  destruct (negb (max_asset =? 0) && negb (core =? 0)); simpl; [|done].
  destruct (core <=? balance_of w (CoreAssetId s) s); simpl; [|done].
  destruct (max_asset <=? balance_of w asset s); simpl; [|done].
  fold pool. rewrite Ha.
  destruct (min <=? minted); simpl; [|done]. destruct (trade <=? max_asset); simpl; [|done].
  destruct (pool_transfer_frame w pool (CoreAssetId s) core s) as [l1 H1].
  destruct (pool_transfer w pool (CoreAssetId s) core s) as [[[]|e|] s1]; simpl in H1; subst s1; simpl;
    [|done | by apply (books_frame s)].
  destruct (pool_transfer_frame w pool asset trade (set_ledger l1 s)) as [l2 H2].
  destruct (pool_transfer w pool asset trade (set_ledger l1 s)) as [[[]|e|] s2]; simpl in H2; subst s2; simpl;
    [|done | by apply (books_frame s)].
  apply (books_frame (mint_liquidity key w minted (set_ledger l2 (set_ledger l1 s)))); [|done..].
  apply mint_liquidity_books; [by apply (books_frame s) | done | exact Hmax].
Qed.

Lemma remove_liquidity_books origin asset liquidity min_asset min_core : 0 <= liquidity ->
  preserves books (remove_liquidity origin asset liquidity min_asset min_core).
Proof.
  intros Hl. apply preserves_transactional.
  do 10 (apply preserves_bind; [apply preserves_reader; eauto with dispatch | intros ?]).
  do 2 (apply preserves_bind; [apply preserves_books_ledger | intros ?]).
  apply preserves_bind; [|intros ?; by apply preserves_books_modify].
  apply preserves_modify. intros s Hs. by apply burn_liquidity_books.
Qed.

Lemma dispatch_books c origin s :
  cur_ok (ledger s) -> books s -> call_ok c s -> books (snd (dispatch c origin s)).
Proof.
  intros Hok Hs Hc. destruct c; simpl.
  - apply (preserves_bind books); [apply preserves_reader; eauto with dispatch | intros ? | done].
    apply preserves_bind; [apply preserves_books_execute_buy | intros ?].
    apply preserves_reader; eauto with dispatch.
  - apply (preserves_bind books); [apply preserves_reader; eauto with dispatch | intros ? | done].
    apply preserves_bind; [apply preserves_books_execute_sell | intros ?].
    apply preserves_reader; eauto with dispatch.
  - by apply add_liquidity_books.
  - by apply remove_liquidity_books.
  - apply (preserves_bind books); [apply preserves_reader; eauto with dispatch | intros ? | done].
    by apply preserves_books_modify.
Qed.

(** Amounts are unsigned integers of the balance type. *)
Definition args_ok (c : Call) : Prop :=
  match c with
  | C_add_liquidity _ _ _ core => 0 <= core
  | C_remove_liquidity _ liquidity _ _ => 0 <= liquidity
  | _ => True
  end.

(** The shares a call would mint take the pool's total past the largest balance. *)
Definition saturates (c : Call) s : Prop :=
  match c with
  | C_add_liquidity asset _ max_asset core =>
      let pool := exchange_address_for asset s in
      let key := (CoreAssetId s, asset) in
      MAX_BALANCE < total_liquidity key s +
        snd (add_liquidity_amounts (total_liquidity key s) (balance_of pool (CoreAssetId s) s)
               (balance_of pool asset s) max_asset core)
  | _ => False
  end.

(** C31: the liquidity books add up: in every pool the total liquidity stays
    equal to the sum of the holdings of all accounts under every extrinsic,
    successful or not, with one exception: a call that adds so much liquidity
    that the total passes the largest balance, where the code saturates. *)
Theorem liquidity_books_add_up c origin s :
  cur_ok (ledger s) -> books s -> args_ok c ->
  books (snd (dispatch c origin s)) \/ saturates c s.
Proof.
  intros Hok Hs Hc. destruct c; try (left; by apply dispatch_books).
  destruct (Z.le_gt_cases (total_liquidity (CoreAssetId s, asset) s +
    snd (add_liquidity_amounts (total_liquidity (CoreAssetId s, asset) s)
      (balance_of (exchange_address_for asset s) (CoreAssetId s) s)
      (balance_of (exchange_address_for asset s) asset s) max_asset core)) MAX_BALANCE) as [Hle|Hgt].
  - left. by apply dispatch_books.
  - by right.
Qed.
End Theorems.

(** ** Witnesses

    An exchange over the generic asset pallet: the core asset is 1, the pool of
    asset 2 holds 500 core and 400 trade asset, account 10 holds 500 and 600. *)
Module DemoExchange.
#[local] Existing Instance GenericAssetInv.Demo.config.
#[local] Existing Instance CennzxPricing.DemoHash.hashing.

Definition pool : AccountId := exchange_address 1 2.

Definition demo_ledger : GenericAsset.State := {|
  GenericAsset.TotalIssuance := <[1 := 1000]> (<[2 := 1000]> ∅);
  GenericAsset.FreeBalance :=
    <[(1, pool) := 500]> (<[(2, pool) := 400]> (<[(1, 10) := 500]> (<[(2, 10) := 600]> ∅)));
  GenericAsset.ReservedBalance := ∅;
  GenericAsset.NextAssetId := 1000;
  GenericAsset.Permissions := ∅;
  GenericAsset.Locks := ∅;
  GenericAsset.StakingAssetId := 1;
  GenericAsset.SpendingAssetId := 1;
  GenericAsset.AssetMeta := ∅;
  GenericAsset.StorageVersion := 1;
  GenericAsset.sys := ∅;
  GenericAsset.events := [];
|}.

Definition demo : State GenericAsset.State := {|
  CoreAssetId := 1;
  DefaultFeeRate := 3000;
  TotalLiquidity := <[(1, 2) := 500]> ∅;
  LiquidityBalance := <[(1, 2, 10) := 500]> ∅;
  ledger := demo_ledger;
  events := [];
|}.

Lemma demo_ledger_inv : GenericAssetInv.inv demo_ledger.
Proof.
  assert (Hheld : forall a, GenericAssetProps.held a demo_ledger =
                            (if 1 =? a then 1000 else 0) + (if 2 =? a then 1000 else 0)).
  { intros a. unfold GenericAssetProps.held, GenericAssetProps.asset_free, GenericAssetProps.asset_reserved.
    change (GenericAsset.ReservedBalance demo_ledger) with (∅ : gmap (Z * Z) Z).
    change (GenericAsset.FreeBalance demo_ledger) with
      (<[(1, pool) := 500]> (<[(2, pool) := 400]> (<[(1, 10) := 500]> (<[(2, 10) := 600]>
         (∅ : gmap (Z * Z) Z))))).
    rewrite !msum_insert, !msum_empty, !GenericAssetProps.mval_of_asset, !GenericAssetProps.of_asset_pair.
    destruct (1 =? a), (2 =? a); vm_compute; reflexivity. }
  assert (Hti : forall a, GenericAsset.TotalIssuance demo_ledger !! a =
                          if decide (1 = a) then Some 1000 else if decide (2 = a) then Some 1000 else None).
  { intros a. change (GenericAsset.TotalIssuance demo_ledger) with (<[1 := 1000]> (<[2 := 1000]> (∅ : gmap Z Z))).
    rewrite !lookup_insert, lookup_empty. done. }
  split.
  - split; [|done]. intros k x. simpl. rewrite !lookup_insert_Some, lookup_empty. naive_solver lia.
  - intros a. rewrite Hheld. unfold GenericAsset.total_issuance, sget. rewrite Hti.
    destruct (Z.eqb_spec 1 a), (Z.eqb_spec 2 a); repeat case_decide; simplify_eq; done.
  - intros a. unfold GenericAsset.total_issuance, sget. rewrite Hti. repeat case_decide; done.
  - intros a Ha. rewrite Hti. simpl in Ha. repeat case_decide; [lia | lia | done].
  - done.
Qed.

Lemma demo_books : books demo.
Proof.
  split; simpl.
  - intros k v. rewrite lookup_insert_Some, lookup_empty. naive_solver lia.
  - intros key. unfold total_liquidity, pool_shares, sget. simpl. rewrite msum_insert, msum_empty.
    rewrite lookup_insert, lookup_empty. unfold mval, of_pool. simpl. rewrite lookup_empty.
    repeat case_decide; simplify_eq; done.
Qed.
End DemoExchange.

#[local] Existing Instance GenericAssetInv.Demo.config.
#[local] Existing Instance CennzxPricing.DemoHash.hashing.

Lemma buy_keeps_pool_witness : exists s',
  execute_buy 10 10 1 2 40 100 DemoExchange.demo = (Ok 56, s') /\
  balance_of DemoExchange.pool 1 s' = balance_of DemoExchange.pool 1 DemoExchange.demo + 56 /\
  balance_of DemoExchange.pool 2 s' = balance_of DemoExchange.pool 2 DemoExchange.demo - 40 /\
  balance_of 10 2 s' = balance_of 10 2 DemoExchange.demo + 40.
Proof.
  destruct (execute_buy 10 10 1 2 40 100 DemoExchange.demo) as [r s'] eqn:E.
  assert (Hr : r = Ok 56) by (apply (f_equal fst) in E; simpl in E; rewrite <- E; vm_compute; reflexivity).
  subst r. exists s'. split; [reflexivity|].
  destruct (buy_keeps_pool 10 10 1 2 40 100 DemoExchange.demo 56 s') as (_ & _ & _ & _ & H1 & H2 & H3 & _).
  - exact DemoExchange.demo_ledger_inv.
  - vm_compute. split; discriminate.
  - vm_compute. split; discriminate.
  - left. reflexivity.
  - vm_compute. discriminate.
  - vm_compute. discriminate.
  - vm_compute. discriminate.
  - exact E.
  - split_and!; [exact H1 | apply H3; vm_compute; discriminate | apply H2; vm_compute; discriminate].
Defined.

Lemma sell_keeps_pool_witness : exists p s',
  execute_sell 10 11 2 1 50 10 DemoExchange.demo = (Ok p, s') /\
  balance_of DemoExchange.pool 2 s' = balance_of DemoExchange.pool 2 DemoExchange.demo + 50 /\
  balance_of DemoExchange.pool 1 s' = balance_of DemoExchange.pool 1 DemoExchange.demo - p /\
  balance_of 11 1 s' = balance_of 11 1 DemoExchange.demo + p.
Proof.
  destruct (execute_sell 10 11 2 1 50 10 DemoExchange.demo) as [r s'] eqn:E.
  assert (Hr : r = Ok 54) by (apply (f_equal fst) in E; simpl in E; rewrite <- E; vm_compute; reflexivity).
  subst r. exists 54, s'. split; [reflexivity|].
  destruct (sell_keeps_pool 10 11 2 1 50 10 DemoExchange.demo 54 s') as (_ & _ & _ & _ & H1 & H2 & H3 & _).
  - exact DemoExchange.demo_ledger_inv.
  - vm_compute. split; discriminate.
  - vm_compute. split; discriminate.
  - right. reflexivity.
  - vm_compute. discriminate.
  - vm_compute. discriminate.
  - vm_compute. discriminate.
  - exact E.
  - split_and!; [exact H1 | apply H3; left; vm_compute; discriminate | apply H2; vm_compute; discriminate].
Defined.

Lemma liquidity_books_add_up_witness :
  books (snd (dispatch (C_add_liquidity 2 10 200 50) (Signed 10) DemoExchange.demo)).
Proof.
  destruct (liquidity_books_add_up (C_add_liquidity 2 10 200 50) (Signed 10) DemoExchange.demo) as [Hb|Hs].
  - exact DemoExchange.demo_ledger_inv.
  - exact DemoExchange.demo_books.
  - vm_compute. discriminate.
  - exact Hb.
  - exfalso. vm_compute in Hs. discriminate.
Defined.

(** Past the largest balance the totals saturate and the books come apart: with
    half the range already minted over a reserve of one unit, a provider who
    adds one more doubles the shares, and the total stops one short. *)
Module DemoSaturated.
Definition full_ledger : GenericAsset.State :=
  GenericAsset.set_FreeBalance (insert (1, DemoExchange.pool) 1) DemoExchange.demo_ledger.

Definition full : State GenericAsset.State := {|
  CoreAssetId := 1;
  DefaultFeeRate := 3000;
  TotalLiquidity := <[(1, 2) := 2 ^ 127]> ∅;
  LiquidityBalance := <[(1, 2, 11) := 2 ^ 127]> ∅;
  ledger := full_ledger;
  events := [];
|}.

Lemma full_books : books full.
Proof.
  split; simpl.
  - intros k v. rewrite lookup_insert_Some, lookup_empty. naive_solver lia.
  - intros key. unfold total_liquidity, pool_shares, sget. simpl. rewrite msum_insert, msum_empty.
    rewrite lookup_insert, lookup_empty. unfold mval, of_pool. simpl. rewrite lookup_empty.
    repeat case_decide; simplify_eq; done.
Qed.
End DemoSaturated.

Theorem saturated_liquidity_breaks_books :
  books DemoSaturated.full /\
  let '(r, s') := dispatch (C_add_liquidity 2 1 500 1) (Signed 10) DemoSaturated.full in
  r = Ok tt /\ total_liquidity (1, 2) s' = 2 ^ 128 - 1 /\ pool_shares (1, 2) s' = 2 ^ 128 /\ ~ books s'.
Proof.
  split; [exact DemoSaturated.full_books|].
  set (d := dispatch _ _ _).
  assert (Hr : fst d = Ok tt) by (vm_compute; reflexivity).
  assert (Ht : total_liquidity (1, 2) (snd d) = 2 ^ 128 - 1) by (vm_compute; reflexivity).
  assert (Hp : pool_shares (1, 2) (snd d) = 2 ^ 128) by (vm_compute; reflexivity).
  destruct d as [r s']. simpl in *. split_and!; [done..|].
  intros Hb. apply books_total with (key := (1, 2)) in Hb. rewrite Ht, Hp in Hb. discriminate.
Qed.
