(* ===== verification/Search.v ===== *)
(** * Binary search in ordered vectors

    The pallets keep the council and the offers on a token as ordered [Vec]s
    and find entries with the standard library's [binary_search]. The algorithm,
    its specification on strictly ordered lists, and insertion and removal. *)

From Stdlib Require Export Sorting.Sorted.
From S2P Require Import Prelude.

(** [<[T]>::binary_search]: [inl] is [Ok], [inr] is [Err]. The interval shrinks
    in every round, so its length is enough fuel. *)
Fixpoint binary_search_loop (fuel : nat) (l : list Z) (x : Z) (left right : nat) : nat + nat :=
  match fuel with
  | O => inr left
  | S fuel =>
      if (left <? right)%nat then
        let mid := (left + (right - left) / 2)%nat in
        match Z.compare (nth mid l 0) x with
        | Lt => binary_search_loop fuel l x (S mid) right
        | Gt => binary_search_loop fuel l x left mid
        | Eq => inl mid
        end
      else inr left
  end.

Definition binary_search (l : list Z) (x : Z) : nat + nat :=
  binary_search_loop (S (length l)) l x 0 (length l).

(** [Iterator::position] of an element. *)
Fixpoint position (key : Z) (l : list Z) : option nat :=
  match l with
  | [] => None
  | k :: l => if k =? key then Some O else S <$> position key l
  end.

(** ** Specification *)
Lemma position_lookup key l i : position key l = Some i -> l !! i = Some key.
Proof.
  revert i. induction l as [|k l IH]; intros i; [done|]. simpl. destruct (Z.eqb_spec k key) as [->|]; [by intros [= <-]|].
  intros (j & Hj & ->)%fmap_Some. by apply IH.
Qed.

Lemma position_None key l : position key l = None -> key ∉ l.
Proof.
  induction l as [|k l IH]; [set_solver|]. simpl. destruct (Z.eqb_spec k key) as [->|]; [done|].
  intros H%fmap_None. set_solver.
Qed.

Lemma sorted_lookup_lt (l : list Z) i j a b : StronglySorted Z.lt l ->
  l !! i = Some a -> l !! j = Some b -> (i < j)%nat -> a < b.
Proof.
  intros Hs. revert i j. induction Hs as [|x l Hs IH Hx]; intros i j Ha Hb Hij; [done|].
  destruct j as [|j]; [lia|]. simpl in Hb. destruct i as [|i]; simplify_eq/=.
  - rewrite Forall_forall in Hx. apply Hx. by eapply list_elem_of_lookup_2.
  - by apply (IH i j); [..|lia].
Qed.

Lemma binary_search_loop_spec fuel l x left right : StronglySorted Z.lt l ->
  (right - left < fuel)%nat -> (left <= right <= length l)%nat ->
  (forall j y, l !! j = Some y -> (j < left)%nat -> y < x) ->
  (forall j y, l !! j = Some y -> (right <= j)%nat -> x < y) ->
  match binary_search_loop fuel l x left right with
  | inl i => l !! i = Some x
  | inr i => (i <= length l)%nat /\ forall j y, l !! j = Some y -> if decide (j < i)%nat then y < x else x < y
  end.
Proof.
  intros Hs. revert left right. induction fuel as [|fuel IH]; intros left right Hf Hb Hl Hr; [lia|].
  cbn [binary_search_loop]. cbv zeta.
  destruct (Nat.ltb_spec left right) as [Hlt|Hge].
  - set (mid := (left + (right - left) / 2)%nat).
    assert (Hmid : (left <= mid < right)%nat).
    { unfold mid. pose proof (Nat.div_lt (right - left) 2). lia. }
    destruct (lookup_lt_is_Some_2 l mid) as [y Hy]; [lia|].
    rewrite (nth_lookup_Some l mid 0 y Hy).
    pose proof (fun i j a b => sorted_lookup_lt l i j a b Hs) as Hord.
    destruct (Z.compare_spec y x) as [->|Hyx|Hyx]; [done|..]; apply IH; try lia.
    + intros j z Hz Hj. destruct (decide (j = mid)) as [->|]; [congruence|].
      pose proof (Hord j mid z y Hz Hy). lia.
    + done.
    + done.
    + intros j z Hz Hj. destruct (decide (j = mid)) as [->|]; [simplify_eq; lia|].
      pose proof (Hord mid j y z Hy Hz). lia.
  - split; [lia|]. intros j y Hy. case_decide; [by eapply Hl | eapply Hr; [done|lia]].
Qed.

Lemma binary_search_spec l x : StronglySorted Z.lt l ->
  match binary_search l x with
  | inl i => l !! i = Some x
  | inr i => (i <= length l)%nat /\ forall j y, l !! j = Some y -> if decide (j < i)%nat then y < x else x < y
  end.
Proof.
  intros Hs. apply binary_search_loop_spec; try done; try lia.
  intros j y Hy. apply lookup_lt_Some in Hy. lia.
Qed.

Lemma sorted_of_lookup (l : list Z) :
  (forall i j a b, l !! i = Some a -> l !! j = Some b -> (i < j)%nat -> a < b) -> StronglySorted Z.lt l.
Proof.
  induction l as [|x l IH]; intros Hl; constructor.
  - apply IH. intros i j a b Ha Hb Hij. apply (Hl (S i) (S j)); auto with lia.
  - apply Forall_forall. intros y [j Hj]%list_elem_of_lookup. apply (Hl O (S j)); auto with lia.
Qed.

(** Searching for a member of a strictly ordered list finds its index. *)
Lemma binary_search_found l i x : StronglySorted Z.lt l -> l !! i = Some x -> binary_search l x = inl i.
Proof.
  intros Hs Hi. pose proof (binary_search_spec l x Hs) as Hb. destruct (binary_search l x) as [j|j].
  - f_equal. destruct (decide (i = j)) as [|Hne]; [done|].
    destruct (decide (i < j)%nat) as [Hlt|Hge].
    + pose proof (sorted_lookup_lt l i j x x Hs Hi Hb Hlt). lia.
    + pose proof (sorted_lookup_lt l j i x x Hs Hb Hi). lia.
  - destruct Hb as [_ Hb]. specialize (Hb i x Hi). case_decide; lia.
Qed.

Lemma binary_search_absent l x : StronglySorted Z.lt l -> x ∉ l -> exists i, binary_search l x = inr i.
Proof.
  intros Hs Hx. pose proof (binary_search_spec l x Hs) as Hb. destruct (binary_search l x) as [i|i]; [|by exists i].
  destruct Hx. by eapply list_elem_of_lookup_2.
Qed.

(** [Vec::insert] *)
Lemma lookup_insert_at {A} (l : list A) i x j : (i <= length l)%nat ->
  (take i l ++ x :: drop i l) !! j =
  if decide (j < i)%nat then l !! j else if decide (j = i) then Some x else l !! (j - 1)%nat.
Proof.
  intros Hi. assert (Ht : length (take i l) = i) by (rewrite length_take; lia). repeat case_decide.
  - rewrite lookup_app_l by lia. by rewrite lookup_take_lt.
  - subst j. rewrite lookup_app_r by lia. by rewrite Ht, Nat.sub_diag.
  - rewrite lookup_app_r by lia. rewrite Ht. replace (j - i)%nat with (S (j - 1 - i)) by lia.
    simpl. rewrite lookup_drop. f_equal. lia.
Qed.

Lemma sorted_insert_at l x i : StronglySorted Z.lt l -> binary_search l x = inr i ->
  (i <= length l)%nat /\ StronglySorted Z.lt (take i l ++ x :: drop i l).
Proof.
  intros Hs Hb. pose proof (binary_search_spec l x Hs) as Hspec. rewrite Hb in Hspec.
  destruct Hspec as [Hi Hx]. split; [done|]. apply sorted_of_lookup. intros j k a b.
  rewrite !lookup_insert_at by done. intros Ha Hb' Hjk.
  repeat case_decide; simplify_eq; try lia.
  - by eapply (sorted_lookup_lt l j k).
  - specialize (Hx _ _ Ha). case_decide; lia.
  - eapply (sorted_lookup_lt l j (k - 1)); eauto. lia.
  - specialize (Hx _ _ Hb'). case_decide; lia.
  - eapply (sorted_lookup_lt l (j - 1) (k - 1)); eauto. lia.
Qed.

Lemma sorted_delete l i : StronglySorted Z.lt l -> StronglySorted Z.lt (delete i l).
Proof.
  intros Hs. apply sorted_of_lookup. intros j k a b. rewrite !list_lookup_delete. intros Ha Hb Hjk.
  eapply sorted_lookup_lt; [done|exact Ha|exact Hb|]. repeat case_decide; lia.
Qed.
