(* ===== verification/GovernanceVotes.v ===== *)
(** * Governance: council votes

    [src/crml/governance/src/types.rs]: the bit fields in which a proposal
    records the votes of the council members by index. The abstract counterpart
    of a bit field is the ballot, the list of what each councillor said. *)

From S2P Require Import Prelude Support.

Definition VOTE_BITS : Z := 128.

Record ProposalVoteInfo := mkVotes { vote_bits : Z * Z; active_bits : Z * Z }.

#[global] Instance ProposalVoteInfo_eq_dec : EqDecision ProposalVoteInfo.
Proof. solve_decision. Defined.

Definition ProposalVoteInfo_default : ProposalVoteInfo := mkVotes (0, 0) (0, 0).

Record CouncilVoteCount := { yes : Z; no : Z }.

(** [!x], [x << n] and [x >> n] on [u128]. *)
Definition bnot (x : Z) : Z := Z.lxor x (umax VOTE_BITS).
Definition shl (x n : Z) : Z := wrap VOTE_BITS (Z.shiftl x n).
Definition shr (x n : Z) : Z := Z.shiftr x n.

Definition get_vote (v : ProposalVoteInfo) (index : Z) : option bool :=
  if index <=? 127 then
    if 0 <? Z.land (active_bits v).1 (shl 1 index) then Some (0 <? Z.land (vote_bits v).1 (shl 1 index))
    else None
  else
    let index := index - 128 in
    if 0 <? Z.land (active_bits v).2 (shl 1 index) then Some (0 <? Z.land (vote_bits v).2 (shl 1 index))
    else None.

Definition record_vote (v : ProposalVoteInfo) (index : Z) (vote : bool) : ProposalVoteInfo :=
  if index <=? 127 then
    let on_mask := shl 1 index in
    mkVotes (if vote then Z.lor (vote_bits v).1 on_mask else (vote_bits v).1, (vote_bits v).2)
            (Z.lor (active_bits v).1 on_mask, (active_bits v).2)
  else
    let on_mask := shl 1 (index - 128) in
    mkVotes ((vote_bits v).1, if vote then Z.lor (vote_bits v).2 on_mask else (vote_bits v).2)
            ((active_bits v).1, Z.lor (active_bits v).2 on_mask).

(** Whether bit [i] of [x] is set, as a number. *)
Definition bit_at (x : Z) (i : nat) : Z := Z.b2z (Z.testbit x (Z.of_nat i)).

(** [u128::count_ones] *)
Definition count_ones (x : Z) : Z := foldr (fun i acc => bit_at x i + acc) 0 (seq 0 128).

Definition count_votes (v : ProposalVoteInfo) : CouncilVoteCount :=
  let active_count := wrapping_add 32 (count_ones (active_bits v).1) (count_ones (active_bits v).2) in
  let yes_count := wrapping_add 32 (count_ones (vote_bits v).1) (count_ones (vote_bits v).2) in
  let no_count := wrapping_sub 32 active_count yes_count in
  {| yes := yes_count; no := no_count |}.

(** The two shifts [insert_voter] and [remove_voter] apply to each word. *)
Definition insert_bit (x index : Z) : Z :=
  let low_mask := shl 1 index - 1 in
  let high_mask := bnot low_mask in
  Z.lor (shl (Z.land x high_mask) 1) (Z.land x low_mask).

Definition remove_bit (x index : Z) : Z :=
  let low_mask := shl 1 index - 1 in
  let high_mask := shl (bnot low_mask) 1 in
  Z.lor (shr (Z.land x high_mask) 1) (Z.land x low_mask).

Definition insert_voter (v : ProposalVoteInfo) (index : Z) : ProposalVoteInfo :=
  if index <=? 127 then
    mkVotes (insert_bit (vote_bits v).1 index, (vote_bits v).2)
            (insert_bit (active_bits v).1 index, (active_bits v).2)
  else
    mkVotes ((vote_bits v).1, insert_bit (vote_bits v).2 (index - 128))
            ((active_bits v).1, insert_bit (active_bits v).2 (index - 128)).

Definition remove_voter (v : ProposalVoteInfo) (index : Z) : ProposalVoteInfo :=
  if index <=? 127 then
    mkVotes (remove_bit (vote_bits v).1 index, (vote_bits v).2)
            (remove_bit (active_bits v).1 index, (active_bits v).2)
  else
    mkVotes ((vote_bits v).1, remove_bit (vote_bits v).2 (index - 128))
            ((active_bits v).1, remove_bit (active_bits v).2 (index - 128)).

(** ** The ballot *)

(** What each of the [n] councillors said. *)
Definition ballot (n : nat) (v : ProposalVoteInfo) : list (option bool) :=
  (fun i => get_vote v (Z.of_nat i)) <$> seq 0 n.

Definition count_of (b : option bool) (l : list (option bool)) : Z :=
  Z.of_nat (length (filter (fun o => o = b) l)).

(** A bit field of a council of [n] members: nobody above [n] has voted, and
    only votes cast can be in favour. *)
Record votes_ok (n : nat) (v : ProposalVoteInfo) : Prop := {
  votes_range : 0 <= (active_bits v).1 /\ 0 <= (vote_bits v).1;
  votes_high : (active_bits v).2 = 0 /\ (vote_bits v).2 = 0;
  votes_absent : forall i, (n <= i)%nat -> Z.testbit (active_bits v).1 (Z.of_nat i) = false;
  votes_active : forall i, Z.testbit (vote_bits v).1 (Z.of_nat i) = true ->
                 Z.testbit (active_bits v).1 (Z.of_nat i) = true;
}.

(** ** Words, bit by bit *)
Lemma shl_one i : 0 <= i < VOTE_BITS -> shl 1 i = 2 ^ i.
Proof.
  intros Hi. unfold shl. rewrite Z.shiftl_1_l. apply wrap_small. split.
  - pose proof (Z.pow_nonneg 2 i). lia.
  - unfold umax. pose proof (Z.pow_lt_mono_r 2 i VOTE_BITS). lia.
Qed.

Lemma land_pow2 x i : 0 <= i -> Z.land x (2 ^ i) = if Z.testbit x i then 2 ^ i else 0.
Proof.
  intros Hi. apply Z.bits_inj'. intros j Hj. rewrite Z.land_spec, Z.pow2_bits_eqb by done.
  destruct (Z.eqb_spec i j) as [->|Hne].
  - destruct (Z.testbit x j); [by rewrite Z.pow2_bits_true | by rewrite Z.bits_0].
  - rewrite andb_false_r. destruct (Z.testbit x i); [by rewrite Z.pow2_bits_false | by rewrite Z.bits_0].
Qed.

Lemma test_mask x i : 0 <= i < VOTE_BITS -> (0 <? Z.land x (shl 1 i)) = Z.testbit x i.
Proof.
  intros Hi. rewrite shl_one, land_pow2 by lia. destruct (Z.testbit x i); [|done].
  apply Z.ltb_lt, Z.pow_pos_nonneg; lia.
Qed.

Lemma shl_testbit x k j : 0 <= k -> 0 <= j < VOTE_BITS ->
  Z.testbit (shl x k) j = (k <=? j) && Z.testbit x (j - k).
Proof.
  intros Hk Hj. unfold shl, wrap. rewrite Z.mod_pow2_bits_low by lia.
  destruct (Z.leb_spec k j); simpl.
  - rewrite Z.shiftl_spec by lia. done.
  - rewrite Z.shiftl_spec_low by lia. done.
Qed.

Lemma shl_testbit_high x k j : VOTE_BITS <= j -> Z.testbit (shl x k) j = false.
Proof. intros Hj. unfold shl, wrap. apply Z.mod_pow2_bits_high. split; [done | exact Hj]. Qed.

Lemma low_mask_testbit i j : 0 <= i < VOTE_BITS -> 0 <= j -> Z.testbit (shl 1 i - 1) j = (j <? i).
Proof.
  intros Hi Hj. rewrite shl_one by done. rewrite Z.sub_1_r, <- Z.ones_equiv, Z.testbit_ones by lia.
  destruct (Z.leb_spec 0 j); [done|lia].
Qed.

Lemma bnot_testbit x j : 0 <= j -> Z.testbit (bnot x) j = xorb (Z.testbit x j) (j <? VOTE_BITS).
Proof.
  intros Hj. unfold bnot. rewrite Z.lxor_spec. f_equal. unfold umax.
  rewrite Z.sub_1_r, <- Z.ones_equiv, Z.testbit_ones by done. destruct (Z.leb_spec 0 j); [done|lia].
Qed.

Lemma insert_bit_testbit x i j : 0 <= i < VOTE_BITS -> 0 <= j < VOTE_BITS ->
  Z.testbit (insert_bit x i) j =
    if j <? i then Z.testbit x j else if j =? i then false else Z.testbit x (j - 1).
Proof.
  intros Hi Hj. unfold insert_bit. rewrite Z.lor_spec, shl_testbit, !Z.land_spec, low_mask_testbit by lia.
  destruct (Z.eq_dec j 0) as [->|Hj0].
  - change (1 <=? 0) with false. simpl andb. rewrite orb_false_l.
    destruct (Z.ltb_spec 0 i), (Z.eqb_spec 0 i); try lia; by rewrite ?andb_true_r, ?andb_false_r.
  - rewrite bnot_testbit, low_mask_testbit by lia.
    destruct (Z.leb_spec 1 j), (Z.ltb_spec j i), (Z.ltb_spec (j - 1) i), (Z.ltb_spec (j - 1) VOTE_BITS),
      (Z.eqb_spec j i); try lia; simpl; rewrite ?andb_true_r, ?andb_false_r, ?orb_false_r; done.
Qed.

Lemma remove_bit_testbit x i j : 0 <= i < VOTE_BITS -> 0 <= j ->
  Z.testbit x (j + 1) = false \/ j + 1 < VOTE_BITS ->
  Z.testbit (remove_bit x i) j = if j <? i then Z.testbit x j else Z.testbit x (j + 1).
Proof.
  intros Hi Hj Hx. unfold remove_bit, shr.
  rewrite Z.lor_spec, Z.shiftr_spec, !Z.land_spec, low_mask_testbit by lia.
  destruct (decide (j + 1 < VOTE_BITS)) as [Hlt|Hge].
  - rewrite shl_testbit, bnot_testbit, low_mask_testbit by lia.
    replace (j + 1 - 1) with j by lia.
    destruct (Z.leb_spec 1 (j + 1)), (Z.ltb_spec j i), (Z.ltb_spec j VOTE_BITS); try lia; simpl;
      rewrite ?andb_true_r, ?andb_false_r, ?orb_false_r; done.
  - destruct Hx as [Hx|]; [|lia]. rewrite Hx. simpl.
    destruct (Z.ltb_spec j i); [lia|]. by rewrite andb_false_r.
Qed.

Lemma insert_bit_nonneg x i : 0 <= x -> 0 <= i < VOTE_BITS -> 0 <= insert_bit x i.
Proof.
  intros Hx Hi. unfold insert_bit. apply Z.lor_nonneg. split.
  - unfold shl, wrap. apply Z.mod_pos_bound. done.
  - apply Z.land_nonneg. by left.
Qed.

Lemma remove_bit_nonneg x i : 0 <= x -> 0 <= remove_bit x i.
Proof.
  intros Hx. unfold remove_bit. apply Z.lor_nonneg.
  split; [apply Z.shiftr_nonneg|]; apply Z.land_nonneg; by left.
Qed.

(** ** Bit fields against ballots *)
Section Ballot.
Context (n : nat) (v : ProposalVoteInfo).
Hypothesis small : (n <= 128)%nat.
Hypothesis ok : votes_ok n v.

Lemma get_vote_bits i : get_vote v (Z.of_nat i) =
  if Z.testbit (active_bits v).1 (Z.of_nat i) then Some (Z.testbit (vote_bits v).1 (Z.of_nat i)) else None.
Proof.
  unfold get_vote. destruct (Z.leb_spec (Z.of_nat i) 127) as [Hi|Hi].
  - rewrite !test_mask by (unfold VOTE_BITS; lia). done.
  - destruct (votes_high _ _ ok) as [-> _]. rewrite (votes_absent _ _ ok) by lia. done.
Qed.

Lemma get_vote_absent i : (n <= i)%nat -> get_vote v (Z.of_nat i) = None.
Proof. intros Hi. rewrite get_vote_bits, (votes_absent _ _ ok) by done. done. Qed.

Lemma vote_needs_active i : Z.testbit (active_bits v).1 (Z.of_nat i) = false ->
  Z.testbit (vote_bits v).1 (Z.of_nat i) = false.
Proof.
  intros Ha. destruct (Z.testbit (vote_bits v).1 _) eqn:E; [|done].
  apply (votes_active _ _ ok) in E. congruence.
Qed.

Lemma votes_ok_record i b : (i < n)%nat -> votes_ok n (record_vote v (Z.of_nat i) b).
Proof.
  intros Hi. destruct ok as [[Ha Hv] [Ha2 Hv2] Habs Hact]. unfold record_vote.
  destruct (Z.leb_spec (Z.of_nat i) 127); [|lia]. rewrite shl_one by (unfold VOTE_BITS; lia).
  assert (0 <= 2 ^ Z.of_nat i) by (apply Z.pow_nonneg; lia).
  split; simpl.
  - split; [by apply Z.lor_nonneg | destruct b; [by apply Z.lor_nonneg | done]].
  - done.
  - intros j Hj. rewrite Z.lor_spec, Habs, Z.pow2_bits_false by lia. done.
  - intros j. rewrite Z.lor_spec. destruct b; [rewrite Z.lor_spec|];
      intros Hj; [apply orb_true_iff in Hj as [Hj| ->]|]; rewrite ?(Hact _ Hj), ?orb_true_r; done.
Qed.

Lemma get_vote_record i j b : (i < n)%nat -> (j < n)%nat -> get_vote v (Z.of_nat i) = None ->
  get_vote (record_vote v (Z.of_nat i) b) (Z.of_nat j) =
  if decide (i = j) then Some b else get_vote v (Z.of_nat j).
Proof.
  intros Hi Hj Hnone. rewrite get_vote_bits in Hnone |- *.
  destruct (Z.testbit (active_bits v).1 (Z.of_nat i)) eqn:Ei; [done|].
  pose proof (vote_needs_active _ Ei) as Hv.
  unfold get_vote, record_vote. destruct (Z.leb_spec (Z.of_nat i) 127); [|lia].
  destruct (Z.leb_spec (Z.of_nat j) 127); [|lia]. simpl.
  rewrite !test_mask, shl_one by (unfold VOTE_BITS; lia).
  rewrite Z.lor_spec, Z.pow2_bits_eqb by lia. case_decide as Hij.
  - subst j. rewrite Z.eqb_refl, orb_true_r. f_equal.
    destruct b; [|done]. rewrite Z.lor_spec, Z.pow2_bits_true by lia. apply orb_true_r.
  - replace (Z.of_nat i =? Z.of_nat j) with false by (symmetry; apply Z.eqb_neq; lia).
    rewrite orb_false_r. destruct b; [|done].
    rewrite Z.lor_spec, Z.pow2_bits_false, orb_false_r by lia. done.
Qed.

Lemma insert_bit_high x i j : 0 <= i < VOTE_BITS -> VOTE_BITS <= j ->
  Z.testbit (insert_bit x i) j = false.
Proof.
  intros Hi Hj. unfold insert_bit. rewrite Z.lor_spec, shl_testbit_high, Z.land_spec, low_mask_testbit by lia.
  destruct (Z.ltb_spec j i); [lia|]. by rewrite andb_false_r.
Qed.

Lemma insert_voter_low i : (i <= n)%nat -> (n < 128)%nat ->
  insert_voter v (Z.of_nat i) =
  mkVotes (insert_bit (vote_bits v).1 (Z.of_nat i), 0) (insert_bit (active_bits v).1 (Z.of_nat i), 0).
Proof.
  intros Hi Hn. unfold insert_voter. destruct (votes_high _ _ ok) as [-> ->].
  destruct (Z.leb_spec (Z.of_nat i) 127); [done|lia].
Qed.

Lemma votes_ok_insert i : (i <= n)%nat -> (n < 128)%nat -> votes_ok (S n) (insert_voter v (Z.of_nat i)).
Proof.
  intros Hi Hn. destruct ok as [[Ha Hv] _ Habs Hact]. rewrite insert_voter_low by done.
  assert (Hb : 0 <= Z.of_nat i < VOTE_BITS) by (unfold VOTE_BITS; lia).
  split; simpl; [by split; apply insert_bit_nonneg | done | |].
  - intros j Hj. destruct (decide (Z.of_nat j < VOTE_BITS)); [|apply insert_bit_high; lia].
    rewrite insert_bit_testbit by lia.
    destruct (Z.ltb_spec (Z.of_nat j) (Z.of_nat i)), (Z.eqb_spec (Z.of_nat j) (Z.of_nat i)); [lia..|done|].
    replace (Z.of_nat j - 1) with (Z.of_nat (j - 1)) by lia. apply Habs. lia.
  - intros j. destruct (decide (Z.of_nat j < VOTE_BITS)); [|by rewrite !insert_bit_high by lia].
    rewrite !insert_bit_testbit by lia.
    destruct (Z.ltb_spec (Z.of_nat j) (Z.of_nat i)), (Z.eqb_spec (Z.of_nat j) (Z.of_nat i)); [lia|apply Hact|done|].
    replace (Z.of_nat j - 1) with (Z.of_nat (j - 1)) by lia. apply Hact.
Qed.

Lemma get_vote_insert i j : (i <= n)%nat -> (n < 128)%nat -> (j <= n)%nat ->
  get_vote (insert_voter v (Z.of_nat i)) (Z.of_nat j) =
  if decide (j < i)%nat then get_vote v (Z.of_nat j)
  else if decide (j = i) then None else get_vote v (Z.of_nat (j - 1)).
Proof.
  intros Hi Hn Hj. rewrite insert_voter_low by done. rewrite !get_vote_bits.
  unfold get_vote. destruct (Z.leb_spec (Z.of_nat j) 127); [|lia]. simpl.
  rewrite !test_mask, !insert_bit_testbit by (unfold VOTE_BITS; lia).
  replace (Z.of_nat j - 1) with (Z.of_nat j - Z.of_nat 1) by lia.
  destruct (Z.ltb_spec (Z.of_nat j) (Z.of_nat i)), (Z.eqb_spec (Z.of_nat j) (Z.of_nat i));
    repeat case_decide; try lia; try done.
  by rewrite Nat2Z.inj_sub by lia.
Qed.

Lemma remove_voter_low i : (i < n)%nat ->
  remove_voter v (Z.of_nat i) =
  mkVotes (remove_bit (vote_bits v).1 (Z.of_nat i), 0) (remove_bit (active_bits v).1 (Z.of_nat i), 0).
Proof.
  intros Hi. unfold remove_voter. destruct (votes_high _ _ ok) as [-> ->].
  destruct (Z.leb_spec (Z.of_nat i) 127); [done|lia].
Qed.

(** Removal shifts every bit above the index down, at every position: bits
    outside the council are clear. *)
Lemma remove_bits i j : (i < n)%nat ->
  Z.testbit (remove_bit (active_bits v).1 (Z.of_nat i)) (Z.of_nat j) =
    Z.testbit (active_bits v).1 (Z.of_nat (if decide (j < i)%nat then j else S j)) /\
  Z.testbit (remove_bit (vote_bits v).1 (Z.of_nat i)) (Z.of_nat j) =
    Z.testbit (vote_bits v).1 (Z.of_nat (if decide (j < i)%nat then j else S j)).
Proof.
  intros Hi. assert (Hb : Z.testbit (active_bits v).1 (Z.of_nat j + 1) = false \/ Z.of_nat j + 1 < VOTE_BITS).
  { destruct (decide (Z.of_nat j + 1 < VOTE_BITS)) as [|Hge]; [by right | left].
    replace (Z.of_nat j + 1) with (Z.of_nat (S j)) by lia. apply (votes_absent _ _ ok).
    unfold VOTE_BITS in Hge. lia. }
  assert (Hb' : Z.testbit (vote_bits v).1 (Z.of_nat j + 1) = false \/ Z.of_nat j + 1 < VOTE_BITS).
  { destruct Hb as [Hb|Hb]; [left | by right]. replace (Z.of_nat j + 1) with (Z.of_nat (S j)) in * by lia.
    by apply vote_needs_active. }
  rewrite !remove_bit_testbit by (unfold VOTE_BITS in *; lia || done).
  replace (Z.of_nat j + 1) with (Z.of_nat (S j)) by lia.
  case_decide; destruct (Z.ltb_spec (Z.of_nat j) (Z.of_nat i)); try lia; done.
Qed.

Lemma votes_ok_remove i : (i < n)%nat -> votes_ok (pred n) (remove_voter v (Z.of_nat i)).
Proof.
  intros Hi. destruct ok as [[Ha Hv] _ Habs Hact]. rewrite remove_voter_low by done.
  split; simpl; [by split; apply remove_bit_nonneg | done | |].
  - intros j Hj. destruct (remove_bits i j Hi) as [-> _]. case_decide; apply Habs; lia.
  - intros j. destruct (remove_bits i j Hi) as [-> ->]. apply Hact.
Qed.

Lemma get_vote_remove i j : (i < n)%nat -> (j < pred n)%nat ->
  get_vote (remove_voter v (Z.of_nat i)) (Z.of_nat j) =
  get_vote v (Z.of_nat (if decide (j < i)%nat then j else S j)).
Proof.
  intros Hi Hj. rewrite get_vote_bits, remove_voter_low by done. unfold get_vote.
  destruct (Z.leb_spec (Z.of_nat j) 127); [|lia]. simpl. rewrite !test_mask by (unfold VOTE_BITS; lia).
  destruct (remove_bits i j Hi) as [-> ->]. done.
Qed.
End Ballot.

(** ** The ballot as a list *)
Lemma ballot_lookup n v i : ballot n v !! i = if decide (i < n)%nat then Some (get_vote v (Z.of_nat i)) else None.
Proof.
  unfold ballot. rewrite list_lookup_fmap. case_decide.
  - rewrite lookup_seq_lt by done. done.
  - rewrite lookup_seq_ge by lia. done.
Qed.

Lemma ballot_length n v : length (ballot n v) = n.
Proof. unfold ballot. by rewrite length_fmap, length_seq. Qed.

(** Summing bits over a range of positions. *)
Definition bits_sum (x : Z) (l : list nat) : Z := foldr (fun i acc => bit_at x i + acc) 0 l.

Lemma bits_sum_app x l1 l2 : bits_sum x (l1 ++ l2) = bits_sum x l1 + bits_sum x l2.
Proof. induction l1; simpl; lia. Qed.

Lemma bits_sum_zero x l : (forall i, i ∈ l -> Z.testbit x (Z.of_nat i) = false) -> bits_sum x l = 0.
Proof.
  induction l as [|i l IH]; [done|]. intros Hl. simpl. unfold bit_at.
  rewrite Hl, IH by set_solver. done.
Qed.

Lemma bits_sum_bound x l : 0 <= bits_sum x l <= Z.of_nat (length l).
Proof. induction l as [|i l IH]; simpl; [lia|]. unfold bit_at. destruct (Z.testbit x _); simpl; lia. Qed.

Lemma count_ones_upto n x : (n <= 128)%nat -> (forall i, (n <= i)%nat -> Z.testbit x (Z.of_nat i) = false) ->
  count_ones x = bits_sum x (seq 0 n).
Proof.
  intros Hn Hx. change (count_ones x) with (bits_sum x (seq 0 128)).
  replace 128%nat with (n + (128 - n))%nat at 1 by lia. rewrite seq_app, bits_sum_app.
  rewrite (bits_sum_zero x (seq (0 + n) _)); [lia|].
  intros i Hi%elem_of_seq. apply Hx. lia.
Qed.

Lemma count_of_cons b o l : count_of b (o :: l) = (if decide (o = b) then 1 else 0) + count_of b l.
Proof. unfold count_of. rewrite filter_cons. case_decide; simpl; lia. Qed.

Lemma ballot_sums n v l : (n <= 128)%nat -> votes_ok n v ->
  count_of (Some true) ((fun i => get_vote v (Z.of_nat i)) <$> l) = bits_sum (vote_bits v).1 l /\
  count_of (Some false) ((fun i => get_vote v (Z.of_nat i)) <$> l) =
    bits_sum (active_bits v).1 l - bits_sum (vote_bits v).1 l.
Proof.
  intros Hn Hok. induction l as [|i l [IH1 IH2]]; [done|].
  rewrite !fmap_cons, !count_of_cons, IH1, IH2. simpl. unfold bit_at. rewrite (get_vote_bits n v) by done.
  destruct (Z.testbit (active_bits v).1 (Z.of_nat i)) eqn:Ea.
  - destruct (Z.testbit (vote_bits v).1 (Z.of_nat i)); repeat case_decide; simplify_eq; simpl; lia.
  - rewrite (vote_needs_active n v) by done. repeat case_decide; simplify_eq; simpl; lia.
Qed.

Lemma count_votes_ballot n v : (n <= 128)%nat -> votes_ok n v ->
  yes (count_votes v) = count_of (Some true) (ballot n v) /\
  no (count_votes v) = count_of (Some false) (ballot n v).
Proof.
  intros Hn Hok. unfold ballot. destruct (ballot_sums n v (seq 0 n) Hn Hok) as [-> ->].
  unfold count_votes. destruct (votes_high _ _ Hok) as [-> ->].
  change (count_ones 0) with 0. simpl yes. simpl no.
  rewrite (count_ones_upto n (active_bits v).1) by (done || apply (votes_absent _ _ Hok)).
  rewrite (count_ones_upto n (vote_bits v).1)
    by (done || intros; eapply vote_needs_active, votes_absent; eauto).
  destruct (ballot_sums n v (seq 0 n) Hn Hok) as [_ Hno].
  pose proof (bits_sum_bound (vote_bits v).1 (seq 0 n)) as Hb1.
  pose proof (bits_sum_bound (active_bits v).1 (seq 0 n)) as Hb2.
  rewrite length_seq in *. unfold count_of in Hno.
  set (a := bits_sum (active_bits v).1 (seq 0 n)) in *. set (y := bits_sum (vote_bits v).1 (seq 0 n)) in *.
  assert (Hw : forall z, 0 <= z <= 128 -> wrap 32 z = z).
  { intros z Hz. apply wrap_small. unfold in_range. change (umax 32) with 4294967295. lia. }
  unfold wrapping_add, wrapping_sub. rewrite !Z.add_0_r, (Hw a), (Hw y) by lia. by rewrite Hw by lia.
Qed.

#[global] Arguments count_votes : simpl never.
#[global] Arguments record_vote : simpl never.
#[global] Arguments get_vote : simpl never.
#[global] Arguments insert_voter : simpl never.
#[global] Arguments remove_voter : simpl never.
#[global] Arguments yes : simpl never.
#[global] Arguments no : simpl never.
