(* ===== verification/Governance.v ===== *)
(** * The governance pallet

    [src/crml/governance/src/lib.rs]: council proposals, council votes, the
    veto referendum and enactment. The pallets it talks to (currency, staking,
    identity registrations, scheduler) are the class [GovEnv] over a world [W];
    the runtime call a proposal carries is decoded and dispatched by the
    section variables of [enact_referendum]. *)

From S2P Require Import Prelude Support Search GovernanceVotes.

Abbreviation ProposalId := Z (only parsing).
Abbreviation VotingPower := Z (only parsing).

Definition BLOCK_BITS : Z := 32.
Definition PROPOSAL_BITS : Z := 64.

Definition REFERENDUM_LENGTH : Z := 21600.
Definition REFERENDUM_CHECK_INTERVAL : Z := 1000.

Record Proposal := {
  sponsor : AccountId;
  justification_uri : list Z;
  enactment_delay : BlockNumber;
}.

Inductive ProposalStatusInfo :=
| Deliberation
| ReferendumDeliberation
| ApprovedWaitingEnactment
| ApprovedEnacted (ok : bool)
| ApprovedEnactmentCancelled
| Disapproved
| ReferendumVetoed.

#[global] Instance ProposalStatusInfo_eq_dec : EqDecision ProposalStatusInfo.
Proof. solve_decision. Defined.

(** [decl_event!] *)
Inductive Event :=
| SubmitProposal (id : ProposalId)
| EnactReferendum (id : ProposalId) (ok : bool)
| ProposalVeto (id : ProposalId)
| ReferendumVeto (id : ProposalId)
| ReferendumCreated (id : ProposalId)
| ReferendumApproved (id : ProposalId).

(** The constants of [Config]. *)
Class GovConfig := {
  MaxCouncilSize : Z;
  MinimumRegisteredIdentities : Z;
}.

(** The pallets behind [Config]: [frame_system] (block number), [Currency],
    [StakingAmount], [Registration], [Scheduler] and [Permill]. The imbalance
    [slash_reserved] returns and the amount [unreserve] returns are dropped by
    every caller here; a dropped imbalance settles the issuance. *)
Class GovEnv (W : Type) := {
  block_number : W -> BlockNumber;
  active_balance : AccountId -> W -> Balance;
  total_staked : W -> Balance;
  registered_identity_count : AccountId -> W -> Z;
  bond_reserve : AccountId -> Balance -> D W unit;
  bond_unreserve : AccountId -> Balance -> W -> W;
  bond_slash : AccountId -> Balance -> W -> W;
  schedule_named : ProposalId -> BlockNumber -> W -> bool * W;
  cancel_named : ProposalId -> W -> bool * W;
  permill_from_rational : Balance -> Balance -> Z;
}.

Section Governance.
Context {W : Type} {config : GovConfig} {wenv : GovEnv W}.

(** [decl_storage!] and the world. [Council] is absent until first written. *)
Record State := mkState {
  Proposals : gmap ProposalId Proposal;
  ProposalCalls : gmap ProposalId (list Z);
  ProposalVotes : gmap ProposalId ProposalVoteInfo;
  ProposalStatus : gmap ProposalId ProposalStatusInfo;
  ReferendumVotes : gmap (ProposalId * AccountId) VotingPower;
  ReferendumVetoSum : gmap ProposalId Balance;
  ReferendumStartTime : gmap ProposalId BlockNumber;
  Council : option (list AccountId);
  NextProposalId : ProposalId;
  ProposalBond : Balance;
  MinVoterStakedAmount : Balance;
  ReferendumThreshold : Z;
  MinimumCouncilStake : Balance;
  world : W;
  events : list Event;
}.

Definition set_Proposals f s := mkState (f (Proposals s)) (ProposalCalls s) (ProposalVotes s) (ProposalStatus s)
  (ReferendumVotes s) (ReferendumVetoSum s) (ReferendumStartTime s) (Council s) (NextProposalId s) (ProposalBond s)
  (MinVoterStakedAmount s) (ReferendumThreshold s) (MinimumCouncilStake s) (world s) (events s).
Definition set_ProposalCalls f s := mkState (Proposals s) (f (ProposalCalls s)) (ProposalVotes s) (ProposalStatus s)
  (ReferendumVotes s) (ReferendumVetoSum s) (ReferendumStartTime s) (Council s) (NextProposalId s) (ProposalBond s)
  (MinVoterStakedAmount s) (ReferendumThreshold s) (MinimumCouncilStake s) (world s) (events s).
Definition set_ProposalVotes f s := mkState (Proposals s) (ProposalCalls s) (f (ProposalVotes s)) (ProposalStatus s)
  (ReferendumVotes s) (ReferendumVetoSum s) (ReferendumStartTime s) (Council s) (NextProposalId s) (ProposalBond s)
  (MinVoterStakedAmount s) (ReferendumThreshold s) (MinimumCouncilStake s) (world s) (events s).
Definition set_ProposalStatus f s := mkState (Proposals s) (ProposalCalls s) (ProposalVotes s) (f (ProposalStatus s))
  (ReferendumVotes s) (ReferendumVetoSum s) (ReferendumStartTime s) (Council s) (NextProposalId s) (ProposalBond s)
  (MinVoterStakedAmount s) (ReferendumThreshold s) (MinimumCouncilStake s) (world s) (events s).
Definition set_ReferendumVotes f s := mkState (Proposals s) (ProposalCalls s) (ProposalVotes s) (ProposalStatus s)
  (f (ReferendumVotes s)) (ReferendumVetoSum s) (ReferendumStartTime s) (Council s) (NextProposalId s) (ProposalBond s)
  (MinVoterStakedAmount s) (ReferendumThreshold s) (MinimumCouncilStake s) (world s) (events s).
Definition set_ReferendumVetoSum f s := mkState (Proposals s) (ProposalCalls s) (ProposalVotes s) (ProposalStatus s)
  (ReferendumVotes s) (f (ReferendumVetoSum s)) (ReferendumStartTime s) (Council s) (NextProposalId s) (ProposalBond s)
  (MinVoterStakedAmount s) (ReferendumThreshold s) (MinimumCouncilStake s) (world s) (events s).
Definition set_ReferendumStartTime f s := mkState (Proposals s) (ProposalCalls s) (ProposalVotes s) (ProposalStatus s)
  (ReferendumVotes s) (ReferendumVetoSum s) (f (ReferendumStartTime s)) (Council s) (NextProposalId s) (ProposalBond s)
  (MinVoterStakedAmount s) (ReferendumThreshold s) (MinimumCouncilStake s) (world s) (events s).
Definition set_Council c s := mkState (Proposals s) (ProposalCalls s) (ProposalVotes s) (ProposalStatus s)
  (ReferendumVotes s) (ReferendumVetoSum s) (ReferendumStartTime s) (Some c) (NextProposalId s) (ProposalBond s)
  (MinVoterStakedAmount s) (ReferendumThreshold s) (MinimumCouncilStake s) (world s) (events s).
Definition set_NextProposalId n s := mkState (Proposals s) (ProposalCalls s) (ProposalVotes s) (ProposalStatus s)
  (ReferendumVotes s) (ReferendumVetoSum s) (ReferendumStartTime s) (Council s) n (ProposalBond s)
  (MinVoterStakedAmount s) (ReferendumThreshold s) (MinimumCouncilStake s) (world s) (events s).
(** The four parameters only root may set: bond, voter stake, veto threshold
    and council stake. *)
Definition set_params b v t m s := mkState (Proposals s) (ProposalCalls s) (ProposalVotes s) (ProposalStatus s)
  (ReferendumVotes s) (ReferendumVetoSum s) (ReferendumStartTime s) (Council s) (NextProposalId s) b
  v t m (world s) (events s).
Definition set_world w s := mkState (Proposals s) (ProposalCalls s) (ProposalVotes s) (ProposalStatus s)
  (ReferendumVotes s) (ReferendumVetoSum s) (ReferendumStartTime s) (Council s) (NextProposalId s) (ProposalBond s)
  (MinVoterStakedAmount s) (ReferendumThreshold s) (MinimumCouncilStake s) w (events s).
Definition deposit_event e s := mkState (Proposals s) (ProposalCalls s) (ProposalVotes s) (ProposalStatus s)
  (ReferendumVotes s) (ReferendumVetoSum s) (ReferendumStartTime s) (Council s) (NextProposalId s) (ProposalBond s)
  (MinVoterStakedAmount s) (ReferendumThreshold s) (MinimumCouncilStake s) (world s) (events s ++ [e]).

Definition council (s : State) : list AccountId := default [] (Council s).

Definition proposal_votes (id : ProposalId) (s : State) : ProposalVoteInfo :=
  sget ProposalVoteInfo_default id (ProposalVotes s).

Definition referendum_veto_sum (id : ProposalId) (s : State) : Balance := sget 0 id (ReferendumVetoSum s).

(** Storage writes by key. *)
Definition put_status (id : ProposalId) (st : ProposalStatusInfo) : State -> State :=
  set_ProposalStatus (insert id st).

Definition on_world {A} (m : D W A) : D State A := fun s =>
  match m (world s) with (r, w') => (r, set_world w' s) end.

(** ** Eligibility *)
Definition check_registrations (account : AccountId) : D State unit :=
  let* registration := gets (fun s => registered_identity_count account (world s)) in
  ensure (MinimumRegisteredIdentities <=? registration) (Governance GovError.NotEnoughRegistrations).

Definition check_council_account_validity (account : AccountId) : D State unit :=
  let* staked_amount := gets (fun s => active_balance account (world s)) in
  let* minimum := gets MinimumCouncilStake in
  do* ensure (minimum <=? staked_amount) (Governance GovError.NotEnoughStaked) in
  check_registrations account.

Definition check_voter_account_validity (account : AccountId) (staked_amount : Balance) : D State unit :=
  let* minimum := gets MinVoterStakedAmount in
  do* ensure (minimum <? staked_amount) (Governance GovError.NotEnoughStaked) in
  check_registrations account.

(** [self.council().binary_search(&who)], where only [Ok] is accepted. *)
Definition councilor_index (who : AccountId) : D State nat :=
  let* c := gets council in
  match binary_search c who with
  | inl i => ret i
  | inr _ => fail (Governance GovError.NotCouncilor)
  end.

(** ** Council proposals *)
Definition submit_proposal (origin : Origin) (call uri : list Z) (delay : BlockNumber) : D State unit :=
  let* who := ensure_signed origin in
  do* check_council_account_validity who in
  let* sponsor_idx := councilor_index who in
  let* proposal_id := gets NextProposalId in
  let* bond := gets ProposalBond in
  do* on_world (bond_reserve who bond) in
  let delay := Z.max 1 delay in
  do* modify (set_Proposals (insert proposal_id
    {| sponsor := who; justification_uri := uri; enactment_delay := delay |})) in
  do* modify (set_ProposalCalls (insert proposal_id call)) in
  let votes := record_vote ProposalVoteInfo_default (wrap 8 (Z.of_nat sponsor_idx)) true in
  do* modify (set_ProposalVotes (insert proposal_id votes)) in
  do* modify (put_status proposal_id Deliberation) in
  modify (set_NextProposalId (saturating_add PROPOSAL_BITS proposal_id 1)).

(** More than half of the council in favour: start the referendum. *)
Definition start_referendum (id : ProposalId) (s : State) : State :=
  let start_time := block_number (world s) in
  let s := put_status id ReferendumDeliberation s in
  let s := set_ProposalVotes (delete id) s in
  let s := set_ReferendumStartTime (insert id start_time) s in
  let s := set_ReferendumVetoSum (insert id 0) s in
  deposit_event (ReferendumCreated id) s.

(** More than half of the council against: clean up. *)
Definition disapprove (id : ProposalId) (proposal : Proposal) (s : State) : State :=
  let s := deposit_event (ProposalVeto id) s in
  let s := set_world (bond_slash (sponsor proposal) (ProposalBond s) (world s)) s in
  let s := set_Proposals (delete id) s in
  let s := set_ProposalCalls (delete id) s in
  let s := set_ProposalVotes (delete id) s in
  put_status id Disapproved s.

(** [Council::decode_len().unwrap_or(1) as u32 / 2] *)
Definition vote_threshold (s : State) : Z :=
  wrap 32 (default 1 (Z.of_nat ∘ length <$> Council s)) / 2.

Definition vote_on_proposal (origin : Origin) (id : ProposalId) (vote : bool) : D State unit :=
  let* who := ensure_signed origin in
  let* voter_idx := councilor_index who in
  let* stored := gets Proposals in
  let* proposal := ok_or (stored !! id) (Governance GovError.ProposalMissing) in
  let* votes := gets (proposal_votes id) in
  let voter_idx := wrap 8 (Z.of_nat voter_idx) in
  do* ensure (bool_decide (get_vote votes voter_idx = None)) (Governance GovError.DoubleVote) in
  let votes := record_vote votes voter_idx vote in
  let tally := count_votes votes in
  do* modify (set_ProposalVotes (insert id votes)) in
  let* threshold := gets vote_threshold in
  if threshold <? yes tally then
    let* calls := gets ProposalCalls in
    if bool_decide (is_Some (calls !! id)) then modify (start_referendum id)
    else modify (put_status id (ApprovedEnacted true))
  else if threshold <? no tally then modify (disapprove id proposal)
  else ret tt.

(** ** The council *)
Definition add_council_member (origin : Origin) (new_member : AccountId) : D State unit :=
  do* ensure_root origin in
  let* c := gets council in
  do* check_council_account_validity new_member in
  do* ensure (Z.of_nat (length c) <? MaxCouncilSize) (Governance GovError.MaxCouncilReached) in
  match binary_search c new_member with
  | inr idx =>
      do* modify (set_ProposalVotes (fmap (fun v => insert_voter v (wrap 8 (Z.of_nat idx))))) in
      modify (set_Council (take idx c ++ new_member :: drop idx c))
  | inl _ => ret tt
  end.

Definition remove_council_member (origin : Origin) (remove_member : AccountId) : D State unit :=
  do* ensure_root origin in
  let* c := gets council in
  do* ensure (1 <? Z.of_nat (length c)) (Governance GovError.MinCouncilReached) in
  match binary_search c remove_member with
  | inl idx =>
      do* modify (set_ProposalVotes (fmap (fun v => remove_voter v (wrap 8 (Z.of_nat idx))))) in
      modify (set_Council (delete idx c))
  | inr _ => ret tt
  end.

(** ** Referenda *)
Definition cancel_enactment (origin : Origin) (id : ProposalId) : D State unit :=
  do* ensure_root origin in
  let* stored := gets Proposals in
  let* proposal := ok_or (stored !! id) (Governance GovError.ProposalMissing) in
  let* cancelled := state (fun s => let '(b, w) := cancel_named id (world s) in (b, set_world w s)) in
  do* ensure cancelled (Governance GovError.ProposalMissing) in
  do* modify (fun s => set_world (bond_slash (sponsor proposal) (ProposalBond s) (world s)) s) in
  do* modify (put_status id ApprovedEnactmentCancelled) in
  do* modify (set_ProposalCalls (delete id)) in
  do* modify (set_ProposalVotes (delete id)) in
  modify (set_ReferendumStartTime (delete id)).

Definition vote_against_referendum (origin : Origin) (id : ProposalId) : D State unit :=
  let* who := ensure_signed origin in
  let* starts := gets ReferendumStartTime in
  let* start_time := ok_or (starts !! id) (Governance GovError.ProposalMissing) in
  let* statuses := gets ProposalStatus in
  do* ensure (bool_decide (statuses !! id = Some ReferendumDeliberation))
    (Governance GovError.ReferendumNotDeliberating) in
  let* cast := gets ReferendumVotes in
  do* ensure (bool_decide (cast !! (id, who) = None)) (Governance GovError.DoubleVote) in
  let* staked_amount := gets (fun s => active_balance who (world s)) in
  do* check_voter_account_validity who staked_amount in
  let* now := gets (fun s => block_number (world s)) in
  do* ensure (start_time <=? now) (Governance GovError.ReferendumNotStarted) in
  do* modify (set_ReferendumVotes (insert (id, who) staked_amount)) in
  modify (fun s => set_ReferendumVetoSum
    (insert id (wrapping_add BALANCE_BITS (referendum_veto_sum id s) staked_amount)) s).

(** [ReferendumVotes::remove_prefix(id)] *)
Definition remove_prefix (id : ProposalId) (m : gmap (ProposalId * AccountId) VotingPower) :=
  filter (fun kv => kv.1.1 <> id) m.

(** Whether the vetoes cast reach the threshold. *)
Definition vetoed (id : ProposalId) (s : State) : bool :=
  ReferendumThreshold s <=? permill_from_rational (referendum_veto_sum id s) (total_staked (world s)).

Definition end_referendum (id : ProposalId) (s : State) : State :=
  match Proposals s !! id with
  | None => s
  | Some proposal =>
      let s := set_ReferendumVotes (remove_prefix id) s in
      if vetoed id s then
        let s := deposit_event (ReferendumVeto id) s in
        let s := set_world (bond_slash (sponsor proposal) (ProposalBond s) (world s)) s in
        let s := set_Proposals (delete id) s in
        let s := set_ProposalCalls (delete id) s in
        let s := set_ReferendumStartTime (delete id) s in
        let s := set_ReferendumVetoSum (delete id) s in
        put_status id ReferendumVetoed s
      else if bool_decide (is_Some (ProposalCalls s !! id)) then
        let at_block := wrapping_add BLOCK_BITS (block_number (world s)) (enactment_delay proposal) in
        let s := set_world (schedule_named id at_block (world s)).2 s in
        let s := deposit_event (ReferendumApproved id) s in
        put_status id ApprovedWaitingEnactment s
      else put_status id (ApprovedEnacted true) s
  end.

(** One referendum of the [on_initialize] loop. *)
Definition check_referendum (now : BlockNumber) (acc : State * Z) (entry : ProposalId * BlockNumber) : State * Z :=
  let '(id, start) := entry in
  let '(s, n) := acc in
  if wrapping_add BLOCK_BITS start REFERENDUM_LENGTH <=? now then
    if bool_decide (ProposalStatus s !! id = Some ReferendumDeliberation) then (end_referendum id s, n + 1)
    else (s, n)
  else (s, n).

(** The entries are those at the start of the block: the loop only removes the
    entry it has just visited. *)
Definition on_initialize (now : BlockNumber) (s : State) : State * Z :=
  if now mod REFERENDUM_CHECK_INTERVAL =? 0 then
    let '(s', n) := foldl (check_referendum now) (s, 0) (map_to_list (ReferendumStartTime s)) in
    (s', n * 1000000)
  else (s, 0).

(** ** Parameters *)
Definition update_params (origin : Origin) (f : State -> State) : D State unit :=
  do* ensure_root origin in modify f.

Definition set_proposal_bond (origin : Origin) (b : Balance) : D State unit :=
  update_params origin (fun s => set_params b (MinVoterStakedAmount s) (ReferendumThreshold s) (MinimumCouncilStake s) s).
Definition set_minimum_council_stake (origin : Origin) (b : Balance) : D State unit :=
  update_params origin (fun s => set_params (ProposalBond s) (MinVoterStakedAmount s) (ReferendumThreshold s) b s).
Definition set_referendum_threshold (origin : Origin) (p : Z) : D State unit :=
  update_params origin (fun s => set_params (ProposalBond s) (MinVoterStakedAmount s) p (MinimumCouncilStake s) s).
Definition set_minimum_voter_staked_amount (origin : Origin) (b : Balance) : D State unit :=
  update_params origin (fun s => set_params (ProposalBond s) b (ReferendumThreshold s) (MinimumCouncilStake s) s).

(** ** Queries *)
Definition get_council (s : State) : list AccountId := council s.
Definition get_proposal_votes (s : State) : list (ProposalId * ProposalVoteInfo) := map_to_list (ProposalVotes s).

(** ** Enactment *)
Section Enactment.
Context {C : Type} (decode_call : list Z -> option C) (dispatch_call : C -> State -> bool * State).

Definition enact_referendum (origin : Origin) (id : ProposalId) : D State unit :=
  do* ensure_root origin in
  let* calls := gets ProposalCalls in
  let* proposal_call := ok_or (calls !! id) (Governance GovError.ProposalMissing) in
  let* stored := gets Proposals in
  let* proposal := ok_or (stored !! id) (Governance GovError.ProposalMissing) in
  match decode_call proposal_call with
  | Some call =>
      let* ok := state (dispatch_call call) in
      do* modify (deposit_event (EnactReferendum id ok)) in
      do* modify (fun s => set_world (bond_unreserve (sponsor proposal) (ProposalBond s) (world s)) s) in
      do* modify (put_status id (ApprovedEnacted ok)) in
      do* modify (set_Proposals (delete id)) in
      do* modify (set_ProposalCalls (delete id)) in
      do* modify (set_ReferendumVetoSum (delete id)) in
      modify (set_ReferendumStartTime (delete id))
  | None => ret tt
  end.

(** [decl_module!]: the calls of the pallet. *)
Inductive Call :=
| C_submit_proposal (call uri : list Z) (delay : BlockNumber)
| C_vote_on_proposal (id : ProposalId) (vote : bool)
| C_add_council_member (who : AccountId)
| C_remove_council_member (who : AccountId)
| C_cancel_enactment (id : ProposalId)
| C_vote_against_referendum (id : ProposalId)
| C_enact_referendum (id : ProposalId)
| C_set_proposal_bond (b : Balance)
| C_set_minimum_council_stake (b : Balance)
| C_set_referendum_threshold (p : Z)
| C_set_minimum_voter_staked_amount (b : Balance).

Definition dispatch (c : Call) (origin : Origin) : D State unit :=
  match c with
  | C_submit_proposal call uri delay => submit_proposal origin call uri delay
  | C_vote_on_proposal id vote => vote_on_proposal origin id vote
  | C_add_council_member who => add_council_member origin who
  | C_remove_council_member who => remove_council_member origin who
  | C_cancel_enactment id => cancel_enactment origin id
  | C_vote_against_referendum id => vote_against_referendum origin id
  | C_enact_referendum id => enact_referendum origin id
  | C_set_proposal_bond b => set_proposal_bond origin b
  | C_set_minimum_council_stake b => set_minimum_council_stake origin b
  | C_set_referendum_threshold p => set_referendum_threshold origin p
  | C_set_minimum_voter_staked_amount b => set_minimum_voter_staked_amount origin b
  end.
End Enactment.
End Governance.

#[global] Arguments State W : clear implicits.
