(* ===== verification/GovernanceProps.v ===== *)
(** * Governance: invariant and preservation

    The invariant of the governance storage: an ordered council within its
    limit, votes that only councillors have cast, and a running veto tally
    equal to the vetoes on record. Every call, every block and every change of
    the other pallets preserves it, as a step relation with rule induction. *)

From S2P Require Import Prelude Support Search GovernanceVotes Governance.

Section Props.
Context {W : Type} {config : GovConfig} {wenv : GovEnv W}.
Implicit Types (s : State W) (id : ProposalId) (who : AccountId).

(** The stake behind the vetoes on record against a proposal. *)
Definition of_referendum (id : ProposalId) (k : ProposalId * AccountId) (v : VotingPower) : Z :=
  if decide (k.1 = id) then v else 0.

Definition veto_power id s : Z := msum (of_referendum id) (ReferendumVotes s).

(** Statuses in which the proposal and its call are still needed. *)
Definition pending (st : ProposalStatusInfo) : bool :=
  match st with Deliberation | ReferendumDeliberation | ApprovedWaitingEnactment => true | _ => false end.

(** Statuses before any referendum. *)
Definition early (st : option ProposalStatusInfo) : Prop := st = None \/ st = Some Deliberation.

Record inv s : Prop := {
  inv_sorted : StronglySorted Z.lt (council s);
  inv_size : Z.of_nat (length (council s)) <= MaxCouncilSize;
  inv_votes : forall id v, ProposalVotes s !! id = Some v -> votes_ok (length (council s)) v;
  inv_fresh : forall id, NextProposalId s <= id ->
              ProposalStatus s !! id = None /\ Proposals s !! id = None;
  inv_early : forall id who, early (ProposalStatus s !! id) -> ReferendumVotes s !! (id, who) = None;
  inv_veto : forall id, ProposalStatus s !! id = Some ReferendumDeliberation ->
             referendum_veto_sum id s = veto_power id s /\ is_Some (ReferendumStartTime s !! id);
  inv_pending : forall id st, ProposalStatus s !! id = Some st -> pending st = true ->
                is_Some (Proposals s !! id) /\ is_Some (ProposalCalls s !! id);
}.

(** What a call must respect: a fresh identifier is left for a submission, the
    council only votes while it deliberates, and the stakes vetoing a
    proposal add up within [u128]. *)
Definition call_ok (c : Call) (origin : Origin) s : Prop :=
  match c with
  | C_submit_proposal _ _ _ => NextProposalId s < umax PROPOSAL_BITS
  | C_vote_on_proposal id _ => ProposalStatus s !! id = Some Deliberation
  | C_vote_against_referendum id =>
      forall who, origin = Signed who ->
        0 <= active_balance who (world s) /\ 0 <= veto_power id s /\
        veto_power id s + active_balance who (world s) <= MAX_BALANCE
  | _ => True
  end.

Lemma veto_power_zero id s : (forall who, ReferendumVotes s !! (id, who) = None) -> veto_power id s = 0.
Proof.
  intros Hn. apply msum_zero. intros [k w] v Hk. unfold of_referendum. simpl.
  case_decide; [|done]. subst. by rewrite Hn in Hk.
Qed.

Lemma inv_set_world w s : inv s -> inv (set_world w s).
Proof. intros [? ? ? ? ? ? ?]. by constructor. Qed.

Lemma inv_set_params b v t m s : inv s -> inv (set_params b v t m s).
Proof. intros [? ? ? ? ? ? ?]. by constructor. Qed.

Lemma gov_inv_deposit_event e s : inv s -> inv (deposit_event e s).
Proof. intros [? ? ? ? ? ? ?]. by constructor. Qed.

Lemma inv_init b v t m w es : 0 <= MaxCouncilSize -> inv (mkState ∅ ∅ ∅ ∅ ∅ ∅ ∅ None 0 b v t m w es).
Proof.
  intros Hm. split; simpl; try done.
  - constructor.
Qed.

(** A councillor's index is below the size of the council. *)
Lemma councilor_index_Ok who s i s' : inv s -> councilor_index who s = (Ok i, s') ->
  s' = s /\ binary_search (council s) who = inl i /\ council s !! i = Some who /\ (i < length (council s))%nat.
Proof.
  intros Hs. unfold councilor_index, bind, gets, ret, fail.
  pose proof (binary_search_spec (council s) who (inv_sorted s Hs)) as Hb.
  destruct (binary_search (council s) who) as [j|j]; [|done]. intros [= <- <-].
  split_and!; [done | done | done | by eapply lookup_lt_Some].
Qed.

Lemma wrap8_index n i : (i < n)%nat -> Z.of_nat n <= 128 -> wrap 8 (Z.of_nat i) = Z.of_nat i.
Proof. intros Hi Hn. apply wrap_small. unfold in_range. change (umax 8) with 255. lia. Qed.

Lemma votes_ok_default n : votes_ok n ProposalVoteInfo_default.
Proof. split; simpl; try done; intros i; rewrite Z.bits_0; done. Qed.

Lemma votes_ok_proposal id s : inv s -> votes_ok (length (council s)) (proposal_votes id s).
Proof.
  intros Hs. unfold proposal_votes, sget. destruct (ProposalVotes s !! id) eqn:E; simpl.
  - by eapply inv_votes.
  - apply votes_ok_default.
Qed.

Lemma proposal_known id p s : inv s -> Proposals s !! id = Some p -> id < NextProposalId s.
Proof.
  intros Hs Hp. destruct (decide (NextProposalId s <= id)) as [Hge|]; [|lia].
  destruct (inv_fresh s Hs id Hge) as [_ Hn]. congruence.
Qed.

(** ** Changes confined to one proposal *)
Lemma veto_power_ext id s s' :
  (forall who, ReferendumVotes s' !! (id, who) = ReferendumVotes s !! (id, who)) -> veto_power id s' = veto_power id s.
Proof.
  intros Hext. unfold veto_power.
  assert (Hz : forall (k : Z * Z) (v : Z), ~ ((k, v).1.1 = id) -> of_referendum id k v = 0).
  { intros k v Hk. unfold of_referendum. by case_decide. }
  rewrite <- (msum_filter _ (fun kv : (Z * Z) * Z => kv.1.1 = id) (ReferendumVotes s')) by exact Hz.
  rewrite <- (msum_filter _ (fun kv : (Z * Z) * Z => kv.1.1 = id) (ReferendumVotes s)) by exact Hz.
  f_equal. apply map_eq. intros [k w]. apply option_eq. intros v. rewrite !map_lookup_filter_Some. simpl.
  split; intros [Hl ->]; (split; [|done]); [by rewrite <- Hext | by rewrite Hext].
Qed.

(** [s'] differs from [s] only at proposal [id], now of status [st]. *)
Record only_at id st s s' : Prop := {
  at_council : Council s' = Council s;
  at_next : NextProposalId s' = NextProposalId s;
  at_status : ProposalStatus s' = <[id := st]> (ProposalStatus s);
  at_others : forall j, j <> id ->
    Proposals s' !! j = Proposals s !! j /\ ProposalCalls s' !! j = ProposalCalls s !! j /\
    ReferendumVetoSum s' !! j = ReferendumVetoSum s !! j /\
    ReferendumStartTime s' !! j = ReferendumStartTime s !! j;
  at_vetoes : forall j who, j <> id -> ReferendumVotes s' !! (j, who) = ReferendumVotes s !! (j, who);
  at_votes : forall j v, ProposalVotes s' !! j = Some v -> votes_ok (length (council s)) v;
}.

Lemma inv_only_at id st s s' : inv s -> only_at id st s s' -> id < NextProposalId s ->
  (early (Some st) -> forall who, ReferendumVotes s' !! (id, who) = None) ->
  (st = ReferendumDeliberation ->
     referendum_veto_sum id s' = veto_power id s' /\ is_Some (ReferendumStartTime s' !! id)) ->
  (pending st = true -> is_Some (Proposals s' !! id) /\ is_Some (ProposalCalls s' !! id)) ->
  inv s'.
Proof.
  intros [I1 I2 I3 I4 I5 I6 I7] [Hc Hn Hst Ho Hv Hvotes] Hid He Hr Hp.
  assert (Hcouncil : council s' = council s) by (unfold council; by rewrite Hc).
  split; rewrite ?Hcouncil, ?Hn, ?Hst; try done.
  - intros j Hj. destruct (decide (j = id)) as [->|Hne]; [lia|].
    destruct (Ho j Hne) as (-> & _). rewrite lookup_insert_ne by done. by apply I4.
  - intros j w Hj. destruct (decide (j = id)) as [->|Hne].
    + apply He. by rewrite lookup_insert_eq in Hj.
    + rewrite Hv by done. apply I5. by rewrite lookup_insert_ne in Hj by done.
  - intros j Hj. destruct (decide (j = id)) as [->|Hne].
    + apply Hr. rewrite lookup_insert_eq in Hj. congruence.
    + rewrite lookup_insert_ne in Hj by done. destruct (Ho j Hne) as (_ & _ & Hsum & ->).
      rewrite (veto_power_ext j s s') by (intros; by apply Hv).
      unfold referendum_veto_sum, sget. rewrite Hsum. by apply I6.
  - intros j st' Hj Hpend. destruct (decide (j = id)) as [->|Hne].
    + rewrite lookup_insert_eq in Hj. simplify_eq. by apply Hp.
    + rewrite lookup_insert_ne in Hj by done. destruct (Ho j Hne) as (-> & -> & _). by eapply I7.
Qed.

(** ** Votes of the council *)
Hypothesis council_fits : MaxCouncilSize <= 128.

Lemma index_below i who s : inv s -> council s !! i = Some who ->
  (i < length (council s) <= 128)%nat /\ wrap 8 (Z.of_nat i) = Z.of_nat i.
Proof.
  intros Hs Hi. apply lookup_lt_Some in Hi. pose proof (inv_size s Hs).
  split; [lia|]. apply (wrap8_index (length (council s))); lia.
Qed.

Lemma vote_threshold_half i who s : inv s -> council s !! i = Some who ->
  vote_threshold s = Z.of_nat (length (council s)) / 2.
Proof.
  intros Hs Hi. destruct (index_below i who s Hs Hi) as [Hb _]. unfold vote_threshold, council in *.
  destruct (Council s) as [c|]; [|done]. simpl in *. rewrite wrap_small; [done|].
  unfold in_range. change (umax 32) with 4294967295. lia.
Qed.

(** The state after councillor [i] has voted [b] on [id]. *)
Definition voted id (i : nat) (b : bool) (p : Proposal) s : State W :=
  let n := length (council s) in
  let votes := record_vote (proposal_votes id s) (Z.of_nat i) b in
  let s1 := set_ProposalVotes (insert id votes) s in
  if Z.of_nat n / 2 <? count_of (Some true) (ballot n votes) then
    if bool_decide (is_Some (ProposalCalls s !! id)) then start_referendum id s1
    else put_status id (ApprovedEnacted true) s1
  else if Z.of_nat n / 2 <? count_of (Some false) (ballot n votes) then disapprove id p s1
  else s1.

Lemma vote_on_proposal_cases origin id b s r s' : inv s -> vote_on_proposal origin id b s = (r, s') ->
  (s' = s /\ exists e, r = Err e) \/
  exists who i p, r = Ok tt /\ origin = Signed who /\ council s !! i = Some who /\
    Proposals s !! id = Some p /\ get_vote (proposal_votes id s) (Z.of_nat i) = None /\ s' = voted id i b p s.
Proof.
  intros Hs. unfold vote_on_proposal. destruct origin as [|who|]; simpl; [intros [= <- <-]; by eauto| |intros [= <- <-]; by eauto].
  unfold bind at 1 2. simpl. destruct (councilor_index who s) as [[i|e|] s0] eqn:Ei.
  2: { unfold councilor_index, bind, gets, ret, fail in Ei. destruct (binary_search _ _); simplify_eq.
       intros [= <- <-]. by eauto. }
  2: { unfold councilor_index, bind, gets, ret, fail in Ei. destruct (binary_search _ _); simplify_eq. }
  apply councilor_index_Ok in Ei as (-> & _ & Hi & Hlt); [|done].
  destruct (index_below i who s Hs Hi) as [Hb Hw]. rewrite Hw. clear Hw.
  unfold bind, gets, ok_or, ensure, modify, ret, fail. simpl.
  destruct (Proposals s !! id) as [p|] eqn:Ep; [|intros [= <- <-]; by eauto]. simpl.
  destruct (bool_decide (get_vote _ _ = None)) eqn:Eb; [|intros [= <- <-]; by eauto].
  apply bool_decide_eq_true in Eb. intros Hr. right. exists who, i, p.
  assert (Hok : votes_ok (length (council s)) (record_vote (proposal_votes id s) (Z.of_nat i) b)).
  { apply votes_ok_record; [lia | by apply votes_ok_proposal | lia]. }
  destruct (count_votes_ballot _ _ (proj2 Hb) Hok) as [Hy Hn]. unfold voted. rewrite <- Hy, <- Hn.
  change (vote_threshold (set_ProposalVotes _ s)) with (vote_threshold s) in Hr.
  rewrite (vote_threshold_half i who s Hs Hi) in Hr.
  destruct (_ <? yes _); [simpl in Hr; destruct (bool_decide _)|destruct (_ <? no _)];
    injection Hr as <- <-; by split_and!.
Qed.

Lemma inv_set_votes id v s : inv s -> votes_ok (length (council s)) v -> inv (set_ProposalVotes (insert id v) s).
Proof.
  intros [I1 I2 I3 I4 I5 I6 I7] Hv. split; simpl; try done.
  intros j u [[-> <-]|[_ Hj]]%lookup_insert_Some; [done | by eapply I3].
Qed.

(** A handler that writes only keys of [id] leaves the other proposals alone. *)
Ltac off_key := let j := fresh "j" in let Hj := fresh "Hj" in
  intros j Hj; rewrite ?lookup_insert_ne, ?lookup_delete_ne by done; done.

Lemma inv_start_referendum id s : inv s -> id < NextProposalId s ->
  ProposalStatus s !! id = Some Deliberation -> inv (start_referendum id s).
Proof.
  intros Hs Hid Hst. apply (inv_only_at id ReferendumDeliberation s); try done.
  - split; simpl; try done.
    + off_key.
    + intros j v [_ Hv]%lookup_delete_Some. by eapply inv_votes.
  - intros [|]; done.
  - intros _. unfold referendum_veto_sum, sget. simpl. rewrite !lookup_insert_eq. split; [|by eexists].
    rewrite veto_power_zero; [done|]. intros w. apply (inv_early s Hs). by right.
  - intros _. by apply (inv_pending s Hs id Deliberation).
Qed.

Lemma inv_disapprove id p s : inv s -> id < NextProposalId s -> inv (disapprove id p s).
Proof.
  intros Hs Hid. apply (inv_only_at id Disapproved s); try done; [|by intros [|]].
  split; simpl; try done.
  - off_key.
  - intros j v [_ Hv]%lookup_delete_Some. by eapply inv_votes.
Qed.

Lemma inv_put_status id st s : inv s -> id < NextProposalId s -> st <> Deliberation ->
  st <> ReferendumDeliberation -> st <> ApprovedWaitingEnactment -> inv (put_status id st s).
Proof.
  intros Hs Hid H1 H2 H3. apply (inv_only_at id st s); try done.
  - split; simpl; try done. by apply inv_votes.
  - intros [|]; congruence.
  - by destruct st.
Qed.

Lemma inv_voted id i who b p s : inv s -> council s !! i = Some who -> Proposals s !! id = Some p ->
  ProposalStatus s !! id = Some Deliberation -> inv (voted id i b p s).
Proof.
  intros Hs Hi Hp Hst. destruct (index_below i who s Hs Hi) as [Hb _].
  pose proof (proposal_known id p s Hs Hp) as Hid.
  assert (Hs1 : inv (set_ProposalVotes (insert id (record_vote (proposal_votes id s) (Z.of_nat i) b)) s)).
  { apply inv_set_votes; [done|]. apply votes_ok_record; [lia | by apply votes_ok_proposal | lia]. }
  unfold voted. destruct (_ <? _); [destruct (bool_decide _)|destruct (_ <? _)]; try done.
  - by apply inv_start_referendum.
  - by apply inv_put_status.
  - by apply inv_disapprove.
Qed.

(** ** Changes of the council *)
Lemma inv_add_member m i s : inv s -> Z.of_nat (length (council s)) < MaxCouncilSize ->
  binary_search (council s) m = inr i ->
  inv (set_Council (take i (council s) ++ m :: drop i (council s))
         (set_ProposalVotes (fmap (fun v => insert_voter v (wrap 8 (Z.of_nat i)))) s)).
Proof.
  intros Hs Hlen Hb. destruct (sorted_insert_at _ _ _ (inv_sorted s Hs) Hb) as [Hi Hsorted].
  assert (Hl : length (take i (council s) ++ m :: drop i (council s)) = S (length (council s))).
  { rewrite length_app, length_take. simpl. rewrite length_drop. lia. }
  rewrite (wrap8_index (S i)) by lia. destruct Hs as [I1 I2 I3 I4 I5 I6 I7].
  split; unfold council; simpl; fold (council s); try done.
  - rewrite Hl. lia.
  - intros id v. rewrite lookup_fmap, Hl. intros (u & Hu & ->)%fmap_Some. apply votes_ok_insert; (lia || by eapply I3).
Qed.

Lemma inv_remove_member m i s : inv s -> binary_search (council s) m = inl i ->
  inv (set_Council (delete i (council s))
         (set_ProposalVotes (fmap (fun v => remove_voter v (wrap 8 (Z.of_nat i)))) s)).
Proof.
  intros Hs Hb. pose proof (binary_search_spec (council s) m (inv_sorted s Hs)) as Hi. rewrite Hb in Hi.
  destruct (index_below i m s Hs Hi) as [Hlt ->]. destruct Hs as [I1 I2 I3 I4 I5 I6 I7].
  assert (Hl : length (delete i (council s)) = pred (length (council s))) by (rewrite length_delete; [lia|by eexists]).
  split; unfold council; simpl; fold (council s); try done.
  - by apply sorted_delete.
  - rewrite Hl. lia.
  - intros id v. rewrite lookup_fmap, Hl. intros (u & Hu & ->)%fmap_Some.
    apply votes_ok_remove; (lia || by eapply I3).
Qed.

(** ** Referenda *)
Lemma remove_prefix_other id j who m : j <> id -> remove_prefix id m !! (j, who) = m !! (j, who).
Proof.
  intros Hj. unfold remove_prefix. apply option_eq. intros v. rewrite map_lookup_filter_Some. simpl. naive_solver.
Qed.

Lemma remove_prefix_self id who m : remove_prefix id m !! (id, who) = None.
Proof. unfold remove_prefix. apply map_lookup_filter_None. right. simpl. naive_solver. Qed.

Ltac ended := split; simpl; try done;
  first [off_key | by apply inv_votes | by intros; apply remove_prefix_other].

Lemma inv_end_referendum id s : inv s -> ProposalStatus s !! id = Some ReferendumDeliberation ->
  inv (end_referendum id s).
Proof.
  intros Hs Hst. unfold end_referendum. destruct (Proposals s !! id) as [p|] eqn:Ep; [|done].
  pose proof (proposal_known id p s Hs Ep) as Hid.
  destruct (vetoed _ _); [|simpl; destruct (bool_decide _) eqn:Eb].
  - apply (inv_only_at id ReferendumVetoed s); try done; [|by intros [|]].
    by ended.
  - apply bool_decide_eq_true in Eb.
    apply (inv_only_at id ApprovedWaitingEnactment s); try done; (by intros [|]) || by ended.
  - apply (inv_only_at id (ApprovedEnacted true) s); try done; [|by intros [|]].
    by ended.
Qed.

Lemma inv_on_initialize now s : inv s -> inv (on_initialize now s).1.
Proof.
  intros Hs. unfold on_initialize. destruct (_ =? _); [|done].
  assert (Hl : forall l acc, inv acc.1 -> inv (foldl (check_referendum now) acc l).1).
  { induction l as [|[id start] l IH]; intros [t n] Ht; [done|]. simpl. apply IH.
    destruct (_ <=? _); [|done]. destruct (bool_decide _) eqn:Eb; [|done].
    apply bool_decide_eq_true in Eb. by apply inv_end_referendum. }
  specialize (Hl (map_to_list (ReferendumStartTime s)) (s, 0) Hs).
  destruct (foldl _ _ _) as [t n]. done.
Qed.

Lemma inv_cast_veto id who v s : inv s -> ProposalStatus s !! id = Some ReferendumDeliberation ->
  ReferendumVotes s !! (id, who) = None -> 0 <= v -> 0 <= veto_power id s -> veto_power id s + v <= MAX_BALANCE ->
  inv (set_ReferendumVetoSum (insert id (wrapping_add BALANCE_BITS (referendum_veto_sum id s) v))
         (set_ReferendumVotes (insert (id, who) v) s)).
Proof.
  intros Hs Hst Hnone Hv Hp Hmax.
  assert (Hid : id < NextProposalId s).
  { destruct (decide (NextProposalId s <= id)); [|lia]. destruct (inv_fresh s Hs id); [done|congruence]. }
  destruct (inv_veto s Hs id Hst) as [Hsum Hstart].
  apply (inv_only_at id ReferendumDeliberation s); try done.
  - split; simpl; try done; [by rewrite insert_id | off_key | | by apply inv_votes].
    intros j w Hj. rewrite lookup_insert_ne by congruence. done.
  - by intros [|].
  - intros _. split; [|done]. unfold referendum_veto_sum at 1, sget. simpl. rewrite lookup_insert_eq. simpl.
    unfold veto_power. simpl. rewrite msum_insert. unfold mval. rewrite Hnone.
    unfold of_referendum at 2. simpl. rewrite decide_True by done.
    fold (veto_power id s). rewrite Hsum. unfold wrapping_add. rewrite wrap_small; [lia|].
    unfold in_range, MAX_BALANCE in *. lia.
  - intros _. by apply (inv_pending s Hs id ReferendumDeliberation).
Qed.

(** ** Calls *)
Lemma inv_submit who i call uri delay s : inv s -> NextProposalId s < umax PROPOSAL_BITS ->
  council s !! i = Some who ->
  let id := NextProposalId s in
  inv (set_NextProposalId (saturating_add PROPOSAL_BITS id 1) (put_status id Deliberation
        (set_ProposalVotes (insert id (record_vote ProposalVoteInfo_default (wrap 8 (Z.of_nat i)) true))
          (set_ProposalCalls (insert id call)
            (set_Proposals (insert id {| sponsor := who; justification_uri := uri;
                                         enactment_delay := Z.max 1 delay |}) s))))).
Proof.
  intros Hs Hmax Hi id. destruct (index_below i who s Hs Hi) as [Hb ->].
  assert (Hnone : forall w, ReferendumVotes s !! (id, w) = None).
  { intros w. apply (inv_early s Hs). left. by apply (inv_fresh s Hs). }
  rewrite saturating_add_small by (unfold id; lia). destruct Hs as [I1 I2 I3 I4 I5 I6 I7].
  split; simpl; try done.
  - intros j v [[_ <-]|[_ Hj]]%lookup_insert_Some; [|by eapply I3].
    apply (votes_ok_record (length (council s))); [lia | apply votes_ok_default | lia].
  - intros j Hj. rewrite !lookup_insert_ne by lia. apply I4. unfold id in *. lia.
  - intros j w Hj. destruct (decide (j = id)) as [->|Hne]; [apply Hnone|].
    apply I5. by rewrite lookup_insert_ne in Hj by done.
  - intros j [[_ ?]|[Hne Hj]]%lookup_insert_Some; [done|]. by apply I6.
  - intros j st [[<- <-]|[Hne Hj]]%lookup_insert_Some Hp.
    + rewrite !lookup_insert_eq. split; by eexists.
    + rewrite !lookup_insert_ne by done. by eapply I7.
Qed.

Lemma inv_forget id st s s' : inv s -> id < NextProposalId s ->
  (s' = set_ReferendumStartTime (delete id) (set_ProposalVotes (delete id) (set_ProposalCalls (delete id)
          (put_status id st s))) \/
   s' = set_ReferendumStartTime (delete id) (set_ReferendumVetoSum (delete id) (set_ProposalCalls (delete id)
          (set_Proposals (delete id) (put_status id st s))))) ->
  pending st = false -> inv s'.
Proof.
  intros Hs Hid Hs' Hp. apply (inv_only_at id st s); try done.
  - destruct Hs' as [-> | ->]; split; simpl; try done; try off_key; [|by apply inv_votes].
    intros j v [_ Hv]%lookup_delete_Some. by eapply inv_votes.
  - intros [|[= ->]]; done.
  - by intros ->.
  - by rewrite Hp.
Qed.

Lemma inv_cancel id origin s : inv s -> inv (cancel_enactment origin id s).2.
Proof.
  intros Hs. unfold cancel_enactment. destruct origin; simpl; try done.
  unfold bind, gets, ok_or, ensure, modify, state, ret, fail. simpl.
  destruct (Proposals s !! id) as [p|] eqn:Ep; [|done]. simpl.
  destruct (cancel_named id (world s)) as [b w]. destruct b; simpl; [|by apply inv_set_world].
  eapply (inv_forget id ApprovedEnactmentCancelled
    (set_world (bond_slash (sponsor p) (ProposalBond s) w) (set_world w s))); [..|by left|done].
  - by do 2 apply inv_set_world.
  - by apply (proposal_known id p s).
Qed.

(** Calls carried by proposals preserve the invariant. *)
Context {C : Type} (decode_call : list Z -> option C) (dispatch_call : C -> State W -> bool * State W).

Lemma inv_enact id origin s : (forall c t, inv t -> inv (dispatch_call c t).2 /\
    NextProposalId t <= NextProposalId (dispatch_call c t).2) ->
  inv s -> inv (enact_referendum decode_call dispatch_call origin id s).2.
Proof.
  intros Hd Hs. unfold enact_referendum. destruct origin; simpl; try done.
  unfold bind, gets, ok_or, ensure, modify, state, ret, fail. simpl.
  destruct (ProposalCalls s !! id) as [bytes|]; [|done]. simpl.
  destruct (Proposals s !! id) as [p|] eqn:Ep; [|done]. simpl.
  destruct (decode_call bytes) as [c|]; [|done].
  destruct (Hd c s Hs) as [Ht Hn]. destruct (dispatch_call c s) as [ok t]. simpl in *.
  eapply (inv_forget id (ApprovedEnacted ok)
    (set_world (bond_unreserve (sponsor p) (ProposalBond t) (world t)) (deposit_event (EnactReferendum id ok) t)));
    [..|by right|done].
  - by apply inv_set_world, gov_inv_deposit_event.
  - simpl. pose proof (proposal_known id p s Hs Ep). lia.
Qed.

Lemma check_council_reader who s : (check_council_account_validity who s).2 = s.
Proof. unfold check_council_account_validity, check_registrations. run_dispatch. Qed.

Lemma check_voter_reader who v s : (check_voter_account_validity who v s).2 = s.
Proof. unfold check_voter_account_validity, check_registrations. run_dispatch. Qed.

Lemma bind_reader {A B} (m : D (State W) A) (k : A -> D (State W) B) s :
  (m s).2 = s -> (forall a, m s = (Ok a, s) -> inv (k a s).2) -> inv s -> inv (bind m k s).2.
Proof.
  intros Hm Hk Hs. unfold bind. destruct (m s) as [[a|e|] s'] eqn:E; simpl in Hm; subst s'; [by apply Hk|done..].
Qed.

Lemma inv_submit_proposal origin call uri delay s : inv s -> NextProposalId s < umax PROPOSAL_BITS ->
  inv (submit_proposal origin call uri delay s).2.
Proof.
  intros Hs Hmax. destruct origin as [|who|]; simpl; try done. unfold submit_proposal. simpl.
  apply bind_reader; [done | intros w [= <-] | done].
  apply bind_reader; [apply check_council_reader | intros _ _ | done].
  unfold bind at 1. destruct (councilor_index who s) as [[i|e|] s0] eqn:Ei.
  2, 3: unfold councilor_index, bind, gets, ret, fail in Ei; destruct (binary_search _ _); simplify_eq; done.
  apply councilor_index_Ok in Ei as (-> & _ & Hi & _); [|done].
  unfold bind, gets, modify, on_world, ret. simpl.
  destruct (bond_reserve who (ProposalBond s) (world s)) as [[[]|e|] w']; simpl; try by apply inv_set_world.
  by apply (inv_submit who i call uri delay (set_world w' s)); [apply inv_set_world|..].
Qed.

Lemma inv_vote_against origin id s : inv s -> call_ok (C_vote_against_referendum id) origin s ->
  inv (vote_against_referendum origin id s).2.
Proof.
  intros Hs Hc. destruct origin as [|who|]; simpl; try done. destruct (Hc who eq_refl) as (Hv & Hp & Hmax).
  unfold vote_against_referendum. simpl. apply bind_reader; [done | intros w [= <-] | done].
  unfold bind at 1, gets at 1. simpl. apply bind_reader; [by destruct (_ !! id) | intros start _ | done].
  unfold bind at 1, gets at 1. apply bind_reader; [by run_dispatch | intros [] Hst | done].
  unfold bind at 1, gets at 1. apply bind_reader; [by run_dispatch | intros [] Hno | done].
  unfold bind at 1, gets at 1. apply bind_reader; [apply check_voter_reader | intros _ _ | done].
  unfold bind at 1, gets at 1. apply bind_reader; [by run_dispatch | intros [] _ | done].
  unfold ensure, ret, fail in Hst, Hno.
  destruct (bool_decide (ProposalStatus s !! id = _)) eqn:E1; simplify_eq.
  destruct (bool_decide (ReferendumVotes s !! _ = None)) eqn:E2; simplify_eq.
  apply bool_decide_eq_true in E1, E2. by apply (inv_cast_veto id who (active_balance who (world s)) s).
Qed.

Lemma inv_dispatch c origin s : (forall c t, inv t -> inv (dispatch_call c t).2 /\
    NextProposalId t <= NextProposalId (dispatch_call c t).2) ->
  inv s -> call_ok c origin s -> inv (dispatch decode_call dispatch_call c origin s).2.
Proof.
  intros Hd Hs Hc. destruct c as [call uri delay|id b|m|m|id|id|id|b|b|t|b]; simpl in *.
  - by apply inv_submit_proposal.
  - destruct (vote_on_proposal origin id b s) as [r s'] eqn:E.
    apply vote_on_proposal_cases in E as [[-> _]|(who & i & p & _ & _ & Hi & Hp & _ & ->)]; [done| |done].
    by apply (inv_voted id i who).
  - destruct origin; simpl; try done. unfold add_council_member. simpl.
    apply bind_reader; [done | intros _ _ | done]. unfold bind at 1, gets at 1.
    apply bind_reader; [apply check_council_reader | intros _ _ | done].
    unfold bind at 1, ensure. destruct (Z.ltb_spec (Z.of_nat (length (council s))) MaxCouncilSize); [|done]. simpl.
    destruct (binary_search (council s) m) as [i|i] eqn:Eb; [done|]. by apply inv_add_member.
  - destruct origin; simpl; try done. unfold remove_council_member. simpl.
    apply bind_reader; [done | intros _ _ | done]. unfold bind at 1, gets at 1.
    unfold bind at 1, ensure. destruct (_ <? _); [|done]. simpl.
    destruct (binary_search (council s) m) as [i|i] eqn:Eb; [|done]. by apply (inv_remove_member m).
  - by apply inv_cancel.
  - by apply inv_vote_against.
  - by apply inv_enact.
  - destruct origin; simpl; try done. by apply inv_set_params.
  - destruct origin; simpl; try done. by apply inv_set_params.
  - destruct origin; simpl; try done. by apply inv_set_params.
  - destruct origin; simpl; try done. by apply inv_set_params.
Qed.

(** ** Steps: a call, a block, or anything the other pallets do *)
Inductive gov_step : State W -> State W -> Prop :=
| step_call c origin s : call_ok c origin s -> gov_step s (dispatch decode_call dispatch_call c origin s).2
| step_block now s : gov_step s (on_initialize now s).1
| step_world w s : gov_step s (set_world w s).

Lemma inv_steps s s' : (forall c t, inv t -> inv (dispatch_call c t).2 /\
    NextProposalId t <= NextProposalId (dispatch_call c t).2) ->
  inv s -> rtc gov_step s s' -> inv s'.
Proof.
  intros Hd Hs Hrun. induction Hrun as [|s t u Hst _ IH]; [done|]. apply IH. destruct Hst.
  - by apply inv_dispatch.
  - by apply inv_on_initialize.
  - by apply inv_set_world.
Qed.
End Props.
