(* ===== verification/GovernanceTheorems.v ===== *)
(** * Governance: theorems

    The reachable-state invariant, council votes as ballots, the life of a
    referendum, and two consequences of the code that its documentation does
    not intend: a second council vote clears the veto tally, and a bond
    changed while proposals are open strands reserves. *)

From S2P Require Import Prelude Support Search GovernanceVotes Governance GovernanceProps.

(** What councillor [who] has said on proposal [id]. *)
Definition vote_of {W} (who : AccountId) (id : ProposalId) (s : State W) : option bool :=
  match binary_search (council s) who with
  | inl i => get_vote (proposal_votes id s) (Z.of_nat i)
  | inr _ => None
  end.

Lemma ballot_record n v i b : (n <= 128)%nat -> votes_ok n v -> (i < n)%nat ->
  get_vote v (Z.of_nat i) = None ->
  ballot n (record_vote v (Z.of_nat i) b) = <[i := Some b]> (ballot n v).
Proof.
  intros Hn Hok Hi Hnone. apply list_eq. intros j. rewrite list_lookup_insert, !ballot_lookup, ballot_length.
  destruct (decide (j < n)%nat) as [Hj|Hj].
  - rewrite (get_vote_record n v) by done. destruct (decide (i = j)), (decide (i = j /\ (i < n)%nat)); naive_solver.
  - rewrite decide_False by lia. done.
Qed.

Lemma get_vote_default i : get_vote ProposalVoteInfo_default i = None.
Proof. unfold get_vote. simpl. by destruct (i <=? 127). Qed.

Section Theorems.
Context {W : Type} {config : GovConfig} {wenv : GovEnv W}.
Implicit Types (s : State W) (id : ProposalId) (who : AccountId).
Hypothesis council_fits : MaxCouncilSize <= 128.

Lemma vote_of_member i who id s : inv s -> council s !! i = Some who ->
  vote_of who id s = get_vote (proposal_votes id s) (Z.of_nat i).
Proof. intros Hs Hi. unfold vote_of. by rewrite (binary_search_found _ i) by (by apply inv_sorted || done). Qed.

Lemma vote_of_outsider who id s : inv s -> who ∉ council s -> vote_of who id s = None.
Proof.
  intros Hs Hi. unfold vote_of. destruct (binary_search_absent (council s) who) as [i ->]; [by apply inv_sorted|done..].
Qed.

(** The stored votes after a [translate]. *)
Lemma proposal_votes_translate f id s : (forall i, get_vote (f ProposalVoteInfo_default) i = None) ->
  forall i c, get_vote (proposal_votes id (set_Council c (set_ProposalVotes (fmap f) s))) i =
  get_vote (f (proposal_votes id s)) i.
Proof.
  intros Hf i c. unfold proposal_votes, sget. simpl. rewrite lookup_fmap.
  destruct (ProposalVotes s !! id); simpl; [done|]. by rewrite Hf, get_vote_default.
Qed.

Lemma insert_voter_default idx i : get_vote (insert_voter ProposalVoteInfo_default idx) i = None.
Proof.
  unfold insert_voter, get_vote. simpl. assert (Hz : forall k, insert_bit 0 k = 0) by done.
  destruct (idx <=? 127); simpl; rewrite ?Hz; by destruct (i <=? 127).
Qed.

Lemma remove_voter_default idx i : get_vote (remove_voter ProposalVoteInfo_default idx) i = None.
Proof.
  unfold remove_voter, get_vote. simpl. assert (Hz : forall k, remove_bit 0 k = 0) by done.
  destruct (idx <=? 127); simpl; rewrite ?Hz; by destruct (i <=? 127).
Qed.

(** The state a successful [add_council_member] leaves. *)
Lemma add_council_member_Ok m s s' : add_council_member Root m s = (Ok tt, s') ->
  (exists i, binary_search (council s) m = inl i /\ s' = s) \/
  exists i, binary_search (council s) m = inr i /\ Z.of_nat (length (council s)) < MaxCouncilSize /\
    s' = set_Council (take i (council s) ++ m :: drop i (council s))
           (set_ProposalVotes (fmap (fun v => insert_voter v (wrap 8 (Z.of_nat i)))) s).
Proof.
  unfold add_council_member. unfold bind at 1. simpl. unfold bind at 1, gets at 1. simpl.
  unfold bind at 1. pose proof (check_council_reader m s) as Hr.
  destruct (check_council_account_validity m s) as [[[]|e|] s0]; simpl in Hr; subst s0; try done.
  unfold bind at 1, ensure. destruct (Z.ltb_spec (Z.of_nat (length (council s))) MaxCouncilSize); [|done]. simpl.
  destruct (binary_search (council s) m) as [i|i]; intros [= <-]; [left|right]; eauto.
Qed.

Lemma remove_council_member_Ok m s s' : remove_council_member Root m s = (Ok tt, s') ->
  (exists i, binary_search (council s) m = inr i /\ s' = s) \/
  exists i, binary_search (council s) m = inl i /\
    s' = set_Council (delete i (council s))
           (set_ProposalVotes (fmap (fun v => remove_voter v (wrap 8 (Z.of_nat i)))) s).
Proof.
  unfold remove_council_member. unfold bind at 1. simpl. unfold bind at 1, gets at 1. simpl.
  unfold bind at 1, ensure. destruct (_ <? _); [|done]. simpl.
  destruct (binary_search (council s) m) as [i|i]; intros [= <-]; [right|left]; eauto.
Qed.

Lemma vote_of_add m i id who s : inv s -> Z.of_nat (length (council s)) < MaxCouncilSize ->
  binary_search (council s) m = inr i ->
  let s' := set_Council (take i (council s) ++ m :: drop i (council s))
              (set_ProposalVotes (fmap (fun v => insert_voter v (wrap 8 (Z.of_nat i)))) s) in
  vote_of who id s' = vote_of who id s.
Proof.
  intros Hs Hlen Hb s'. assert (Hs' : inv s') by by apply inv_add_member.
  destruct (sorted_insert_at _ _ _ (inv_sorted s Hs) Hb) as [Hi _].
  assert (Hc : forall j, council s' !! j = if decide (j < i)%nat then council s !! j
            else if decide (j = i) then Some m else council s !! (j - 1)%nat).
  { intros j. by apply lookup_insert_at. }
  assert (Hm : m ∉ council s).
  { intros [j Hj]%list_elem_of_lookup.
    rewrite (binary_search_found _ j) in Hb by (by apply inv_sorted || done). done. }
  assert (Hg : forall j, (j <= length (council s))%nat -> get_vote (proposal_votes id s') (Z.of_nat j) =
     if decide (j < i)%nat then get_vote (proposal_votes id s) (Z.of_nat j)
     else if decide (j = i) then None else get_vote (proposal_votes id s) (Z.of_nat (j - 1))).
  { intros j Hj. unfold s'. rewrite (wrap8_index (S i)) by lia.
    rewrite proposal_votes_translate by apply insert_voter_default.
    apply (get_vote_insert (length (council s))); try lia. by apply votes_ok_proposal. }
  destruct (decide (who ∈ council s)) as [[j Hj]%list_elem_of_lookup|Hout].
  - rewrite (vote_of_member j who id s) by done. pose proof (lookup_lt_Some _ _ _ Hj) as Hlt.
    destruct (decide (j < i)%nat) as [Hji|Hji].
    + rewrite (vote_of_member j who id s'), Hg by (done || lia || by rewrite Hc, decide_True). by rewrite decide_True.
    + assert (Hj' : council s' !! S j = Some who).
      { rewrite Hc, decide_False, decide_False by lia. by replace (S j - 1)%nat with j by lia. }
      rewrite (vote_of_member (S j) who id s'), Hg by (done || lia).
      rewrite decide_False, decide_False by lia. by replace (S j - 1)%nat with j by lia.
  - rewrite (vote_of_outsider who id s) by done. destruct (decide (who = m)) as [->|Hne].
    + rewrite (vote_of_member i m id s'), Hg by (done || lia || by rewrite Hc, decide_False, decide_True by lia).
      by rewrite decide_False, decide_True by lia.
    + apply vote_of_outsider; [done|]. intros [j Hj]%list_elem_of_lookup. rewrite Hc in Hj.
      repeat case_decide; simplify_eq; by apply list_elem_of_lookup_2 in Hj.
Qed.

Lemma vote_of_remove m i id who s : inv s -> binary_search (council s) m = inl i ->
  let s' := set_Council (delete i (council s))
              (set_ProposalVotes (fmap (fun v => remove_voter v (wrap 8 (Z.of_nat i)))) s) in
  vote_of who id s' = if decide (who = m) then None else vote_of who id s.
Proof.
  intros Hs Hb s'. assert (Hs' : inv s') by by apply (inv_remove_member council_fits m).
  pose proof (binary_search_spec (council s) m (inv_sorted s Hs)) as Hi. rewrite Hb in Hi.
  destruct (index_below council_fits i m s Hs Hi) as [Hlt Hw].
  assert (Hc : forall j, council s' !! j = council s !! (if decide (j < i)%nat then j else S j)).
  { intros j. apply list_lookup_delete. }
  assert (Hg : forall j, (j < pred (length (council s)))%nat -> get_vote (proposal_votes id s') (Z.of_nat j) =
     get_vote (proposal_votes id s) (Z.of_nat (if decide (j < i)%nat then j else S j))).
  { intros j Hj. unfold s'. rewrite Hw, proposal_votes_translate by apply remove_voter_default.
    apply (get_vote_remove (length (council s))); try lia. by apply votes_ok_proposal. }
  assert (Hin : forall w, w ∈ council s' -> w ∈ council s /\ w <> m).
  { intros w [j Hj]%list_elem_of_lookup. rewrite Hc in Hj. split; [by eapply list_elem_of_lookup_2|].
    intros ->. pose proof (binary_search_found _ _ m (inv_sorted s Hs) Hj) as Hf. rewrite Hb in Hf.
    simplify_eq. case_decide; lia. }
  case_decide as Hwho; [apply vote_of_outsider; [done|]; naive_solver|].
  destruct (decide (who ∈ council s)) as [[j Hj]%list_elem_of_lookup|Hout].
  2: { rewrite !vote_of_outsider by naive_solver. done. }
  rewrite (vote_of_member j who id s) by done. pose proof (lookup_lt_Some _ _ _ Hj).
  assert (j <> i) by (intros ->; congruence).
  destruct (decide (j < i)%nat) as [Hji|Hji].
  - rewrite (vote_of_member j who id s'), Hg by (done || lia || by rewrite Hc, decide_True).
    by rewrite decide_True.
  - assert (Hj' : council s' !! (j - 1)%nat = Some who).
    { rewrite Hc, decide_False by lia. by replace (S (j - 1)) with j by lia. }
    rewrite (vote_of_member (j - 1) who id s'), Hg by (done || lia).
    rewrite decide_False by lia. by replace (S (j - 1)) with j by lia.
Qed.

(** C40: changing the council keeps the record straight: after a successful
    [add_council_member] every councillor's vote on every proposal reads as
    before and the new member has not voted; after a successful
    [remove_council_member] only the removed member's vote is gone, although
    both renumber the bits in which all votes are stored. *)
Theorem council_change_keeps_votes m id who s s' : inv s ->
  (add_council_member Root m s = (Ok tt, s') -> vote_of who id s' = vote_of who id s) /\
  (remove_council_member Root m s = (Ok tt, s') ->
     vote_of who id s' = if decide (who = m) then None else vote_of who id s).
Proof.
  intros Hs. split; intros Hm.
  - apply add_council_member_Ok in Hm as [(i & _ & ->)|(i & Hb & Hlen & ->)]; [done|]. by apply vote_of_add.
  - apply remove_council_member_Ok in Hm as [(i & Hb & ->)|(i & Hb & ->)]; [|by apply vote_of_remove].
    case_decide as Hw; [|done]. subst who. unfold vote_of. by rewrite Hb.
Qed.

(** A council vote decides by strict majority of the whole council. With
    the voter's choice entered in the ballot of a proposal, more than half in
    favour opens the referendum at the current block with an empty tally;
    otherwise more than half against disapproves the proposal, forgets it and
    slashes the sponsor's bond; otherwise only the ballot changes. *)
Theorem vote_tally_decides who id b s s' : inv s -> is_Some (ProposalCalls s !! id) ->
  vote_on_proposal (Signed who) id b s = (Ok tt, s') ->
  exists i p, council s !! i = Some who /\ Proposals s !! id = Some p /\ vote_of who id s = None /\
  let n := length (council s) in
  let new_ballot := <[i := Some b]> (ballot n (proposal_votes id s)) in
  if Z.of_nat n / 2 <? count_of (Some true) new_ballot then
    ProposalStatus s' !! id = Some ReferendumDeliberation /\ referendum_veto_sum id s' = 0 /\
    ReferendumStartTime s' !! id = Some (block_number (world s))
  else if Z.of_nat n / 2 <? count_of (Some false) new_ballot then
    ProposalStatus s' !! id = Some Disapproved /\ Proposals s' !! id = None /\ ProposalCalls s' !! id = None /\
    world s' = bond_slash (sponsor p) (ProposalBond s) (world s)
  else
    ProposalStatus s' = ProposalStatus s /\ Proposals s' = Proposals s /\
    ballot n (proposal_votes id s') = new_ballot.
Proof.
  intros Hs Hcall Hv.
  apply vote_on_proposal_cases in Hv as [[_ [e He]]|(w & i & p & _ & [= <-] & Hi & Hp & Hnone & ->)]; [done| |done..].
  exists i, p. destruct (index_below council_fits i who s Hs Hi) as [Hb _].
  split_and!; [done|done|by rewrite (vote_of_member i)|]. cbv zeta.
  rewrite <- ballot_record by (done || lia || by apply votes_ok_proposal).
  unfold voted. destruct (_ <? count_of (Some true) _); [|destruct (_ <? count_of (Some false) _)].
  - rewrite bool_decide_true by done. unfold referendum_veto_sum, sget. simpl. by rewrite !lookup_insert_eq.
  - simpl. by rewrite lookup_insert_eq, !lookup_delete_eq.
  - split_and!; [done|done|]. unfold proposal_votes at 1, sget. simpl. by rewrite lookup_insert_eq.
Qed.

(** The council may vote on a proposal again after its referendum has
    started: a renewed majority in favour sets the veto tally back to zero and
    restarts the clock, while the vetoes cast stay on record, so that their
    voters cannot repeat them. *)
Theorem revote_resets_vetoes who i id b s s' : inv s -> is_Some (ProposalCalls s !! id) ->
  ProposalStatus s !! id = Some ReferendumDeliberation -> council s !! i = Some who ->
  Z.of_nat (length (council s)) / 2 <
    count_of (Some true) (<[i := Some b]> (ballot (length (council s)) (proposal_votes id s))) ->
  vote_on_proposal (Signed who) id b s = (Ok tt, s') ->
  referendum_veto_sum id s' = 0 /\ veto_power id s' = referendum_veto_sum id s /\
  ReferendumStartTime s' !! id = Some (block_number (world s)) /\
  forall v, is_Some (ReferendumVotes s !! (id, v)) ->
    vote_against_referendum (Signed v) id s' = (Err (Governance GovError.DoubleVote), s').
Proof.
  intros Hs Hcall Hst Hi Hmaj Hv.
  apply vote_on_proposal_cases in Hv as [[_ [e He]]|(w & k & p & _ & [= <-] & Hk & Hp & Hnone & ->)]; [done| |done..].
  assert (k = i) as ->.
  { pose proof (binary_search_found _ _ _ (inv_sorted s Hs) Hi) as E1.
    rewrite (binary_search_found _ _ _ (inv_sorted s Hs) Hk) in E1. congruence. }
  destruct (index_below council_fits i who s Hs Hi) as [Hb _].
  rewrite <- ballot_record in Hmaj by (done || lia || by apply votes_ok_proposal).
  apply Z.ltb_lt in Hmaj. unfold voted. rewrite Hmaj, bool_decide_true by done.
  destruct (inv_veto s Hs id Hst) as [-> _].
  split_and!; [| |by apply lookup_insert_eq|].
  - unfold referendum_veto_sum, sget. simpl. by rewrite lookup_insert_eq.
  - by apply veto_power_ext.
  - intros v [x Hx]. unfold vote_against_referendum, bind, gets, ok_or, ensure, ret, fail. simpl.
    rewrite lookup_insert_eq. simpl. case_bool_decide as Hd; [|by rewrite lookup_insert_eq in Hd].
    case_bool_decide as Hd2; [simpl in Hd2; congruence | done].
Qed.

(** ** The life of a referendum *)

(** Slashing a bond and scheduling a call leave the staked total alone. *)
Class GovEnvLaws : Prop := {
  slash_keeps_stake : forall who b w, total_staked (bond_slash who b w) = total_staked w;
  schedule_keeps_stake : forall id at_block w, total_staked (schedule_named id at_block w).2 = total_staked w;
}.

(** [t] agrees with [s] on all that decides the referendum [id]. *)
Record same_at id s (t : State W) : Prop := {
  same_status : ProposalStatus t !! id = ProposalStatus s !! id;
  same_proposal : Proposals t !! id = Proposals s !! id;
  same_call : ProposalCalls t !! id = ProposalCalls s !! id;
  same_vetoes : ReferendumVetoSum t !! id = ReferendumVetoSum s !! id;
  same_threshold : ReferendumThreshold t = ReferendumThreshold s;
  same_staked : total_staked (world t) = total_staked (world s);
}.

Context {laws : GovEnvLaws}.

Lemma end_referendum_other j id s : j <> id -> same_at id s (end_referendum j s).
Proof.
  intros Hne. unfold end_referendum. destruct (Proposals s !! j) as [p|]; [|done].
  destruct (vetoed _ _); [|destruct (bool_decide _)]; split; simpl;
    rewrite ?lookup_insert_ne, ?lookup_delete_ne, ?slash_keeps_stake, ?schedule_keeps_stake by done; done.
Qed.

Lemma same_at_trans id s t u : same_at id s t -> same_at id t u -> same_at id s u.
Proof. intros [] []. split; congruence. Qed.

Lemma check_others now id l s acc : id ∉ l.*1 -> same_at id s acc.1 ->
  same_at id s (foldl (check_referendum now) acc l).1.
Proof.
  revert acc. induction l as [|[j start] l IH]; intros [t n] Hid Hs; [done|]. simpl in *.
  apply not_elem_of_cons in Hid as [Hne Hid]. apply IH; [done|].
  destruct (_ <=? _); [|done]. destruct (bool_decide _); [|done].
  eapply same_at_trans; [done | by apply end_referendum_other].
Qed.

(** How a referendum that is due ends. *)
Lemma end_referendum_status id s : is_Some (Proposals s !! id) -> is_Some (ProposalCalls s !! id) ->
  ProposalStatus (end_referendum id s) !! id =
    Some (if vetoed id s then ReferendumVetoed else ApprovedWaitingEnactment) /\
  (vetoed id s = true -> Proposals (end_referendum id s) !! id = None).
Proof.
  intros [p Hp] Hc. unfold end_referendum. rewrite Hp.
  change (vetoed id (set_ReferendumVotes (remove_prefix id) s)) with (vetoed id s).
  destruct (vetoed id s); simpl.
  - by rewrite lookup_insert_eq, lookup_delete_eq.
  - rewrite bool_decide_true by done. simpl. by rewrite lookup_insert_eq.
Qed.

Lemma vetoed_same id s t : same_at id s t -> vetoed id t = vetoed id s.
Proof. intros []. unfold vetoed, referendum_veto_sum, sget. congruence. Qed.

(** Every referendum ends on time and only then. At a check block, a
    referendum older than [REFERENDUM_LENGTH] blocks is vetoed exactly when the
    stake that vetoed it reaches the threshold, its proposal being forgotten,
    and otherwise waits for enactment; a younger one keeps deliberating. *)
Theorem referendum_decided now id start s : inv s -> now mod REFERENDUM_CHECK_INTERVAL = 0 ->
  ReferendumStartTime s !! id = Some start -> 0 <= start -> start + REFERENDUM_LENGTH <= umax BLOCK_BITS ->
  ProposalStatus s !! id = Some ReferendumDeliberation ->
  let s' := (on_initialize now s).1 in
  ProposalStatus s' !! id = Some (
    if start + REFERENDUM_LENGTH <=? now
    then if vetoed id s then ReferendumVetoed else ApprovedWaitingEnactment
    else ReferendumDeliberation) /\
  (start + REFERENDUM_LENGTH <= now -> vetoed id s = true -> Proposals s' !! id = None).
Proof.
  clear council_fits. intros Hs Hnow Hstart Hpos Hmax Hst. unfold on_initialize. rewrite Hnow. simpl.
  destruct (inv_pending s Hs id _ Hst eq_refl) as [Hp Hc].
  assert (Hin : (id, start) ∈ map_to_list (ReferendumStartTime s)) by by apply elem_of_map_to_list.
  pose proof (NoDup_fst_map_to_list (ReferendumStartTime s)) as Hnd.
  apply list_elem_of_split in Hin as (l1 & l2 & Hl). rewrite Hl in Hnd |- *.
  rewrite fmap_app in Hnd. simpl in Hnd. apply NoDup_app in Hnd as (_ & Hl1 & Hl2).
  apply NoDup_cons in Hl2 as [Hl2 _].
  assert (Hn1 : id ∉ l1.*1) by (intros Hin; apply (Hl1 id Hin); set_solver).
  rewrite foldl_app. simpl.
  pose proof (check_others now id l1 s (s, 0) Hn1) as H1.
  destruct (foldl (check_referendum now) (s, 0) l1) as [t n]. simpl in H1 |- *.
  specialize (H1 ltac:(done)). rewrite (same_status _ _ _ H1), Hst, bool_decide_true by done.
  unfold wrapping_add. rewrite wrap_small by (unfold in_range, REFERENDUM_LENGTH in *; lia).
  pose proof (vetoed_same id s t H1) as Hv.
  destruct (Z.leb_spec (start + REFERENDUM_LENGTH) now) as [Hle|Hgt].
  - destruct (end_referendum_status id t) as [E1 E2];
      [by rewrite (same_proposal _ _ _ H1) | by rewrite (same_call _ _ _ H1) |].
    pose proof (check_others now id l2 (end_referendum id t) (end_referendum id t, n + 1) Hl2 ltac:(done)) as H2.
    destruct (foldl _ _ l2) as [u k]. simpl in *. rewrite (same_status _ _ _ H2), (same_proposal _ _ _ H2).
    rewrite E1, Hv. split; [done|]. intros _ Hveto. apply E2. by rewrite Hv.
  - pose proof (check_others now id l2 t (t, n) Hl2 ltac:(done)) as H2.
    destruct (foldl _ _ l2) as [u k]. simpl in *. rewrite (same_status _ _ _ H2), (same_status _ _ _ H1), Hst.
    split; [done|lia].
Qed.
End Theorems.
