(* ===== verification/GovernanceRuntime.v ===== *)
(** * Governance: reachable states and the bond

    The invariant of every reachable state from empty storage, the pallet
    wired to the generic asset ledger the way the runtime does
    ([SpendingAssetCurrency]), what a changed bond does to that ledger, and
    concrete runs for the theorems of [GovernanceTheorems]. *)

From S2P Require Import Prelude Support MultiCurrency Search GovernanceVotes Governance GovernanceProps GovernanceTheorems.

(** Storage before the first block. *)
Definition initial {W} (bond stake threshold council_stake : Z) (w : W) : State W :=
  mkState ∅ ∅ ∅ ∅ ∅ ∅ ∅ None 0 bond stake threshold council_stake w [].

(** C14: in every state reachable from empty storage, by calls of the pallet,
    by blocks and by arbitrary changes of the other pallets, the council is
    strictly ordered (hence without duplicates) and within its limit, every
    recorded vote belongs to a councillor, identifiers from [NextProposalId] on
    are unused, a deliberating proposal has its call stored, and during a
    referendum the running veto tally equals the stake of the vetoes cast. The
    calls proposals carry are assumed to keep the same invariant and not to
    lower [NextProposalId]; the council is assumed not to vote on a proposal it
    is no longer deliberating. *)
Theorem governance_reachable {W} {config : GovConfig} {wenv : GovEnv W} {C} (decode_call : list Z -> option C)
    (dispatch_call : C -> State W -> bool * State W) bond stake threshold council_stake w s :
  0 <= MaxCouncilSize <= 128 ->
  (forall c t, inv t -> inv (dispatch_call c t).2 /\ NextProposalId t <= NextProposalId (dispatch_call c t).2) ->
  rtc (gov_step decode_call dispatch_call) (initial bond stake threshold council_stake w) s ->
  inv s.
Proof.
  intros [H0 Hmax] Hd. apply inv_steps; [done | done | by apply inv_init].
Qed.

(** ** The ledger behind [T::Currency] *)
Module Runtime.
#[local] Existing Instance GenericAssetInv.Demo.config.

Record World := mkWorld {
  ledger : GenericAsset.State;
  now : BlockNumber;
  stakes : gmap AccountId Balance;
  registrations : gmap AccountId Z;
  agenda : gmap ProposalId BlockNumber;
}.

Definition set_ledger l w := mkWorld l (now w) (stakes w) (registrations w) (agenda w).
Definition set_now n w := mkWorld (ledger w) n (stakes w) (registrations w) (agenda w).
Definition set_agenda a w := mkWorld (ledger w) (now w) (stakes w) (registrations w) a.

#[export] Instance env : GovEnv World := {|
  block_number := now;
  active_balance who w := sget 0 who (stakes w);
  total_staked w := msum (fun _ v => v) (stakes w);
  registered_identity_count who w := sget 0 who (registrations w);
  bond_reserve who b := fun w =>
    match GenericAsset.reserve (GenericAsset.spending_asset_id (ledger w)) who b (ledger w) with
    | (r, l) => (r, set_ledger l w)
    end;
  bond_unreserve who b w :=
    set_ledger (GenericAsset.unreserve (GenericAsset.spending_asset_id (ledger w)) who b (ledger w)).2 w;
  bond_slash who b w :=
    let '((imbalance, _), l) := GenericAsset.ac_slash_reserved GenericAsset.spending_asset_id who b (ledger w) in
    set_ledger (GenericAsset.drop_negative imbalance l) w;
  schedule_named id at_block w :=
    if decide (is_Some (agenda w !! id)) then (false, w) else (true, set_agenda (<[id := at_block]> (agenda w)) w);
  cancel_named id w :=
    if decide (is_Some (agenda w !! id)) then (true, set_agenda (delete id (agenda w)) w) else (false, w);
  permill_from_rational p q := Z.min p (Z.max 1 q) * 1000000 / Z.max 1 q;
|}.

#[export] Instance laws : GovEnvLaws (wenv := env).
Proof.
  split.
  - intros who b w. simpl. destruct (GenericAsset.ac_slash_reserved GenericAsset.spending_asset_id who b (ledger w)) as [[i x] l]. done.
  - intros id at_block w. simpl. by case_decide.
Qed.

#[export] Instance config : GovConfig := {| MaxCouncilSize := 128; MinimumRegisteredIdentities := 1 |}.

Definition world0 : World := {|
  ledger := GenericAssetInv.Demo.s0;
  now := 500;
  stakes := {[9 := 300; 10 := 300; 11 := 300; 12 := 300; 20 := 400]};
  registrations := {[9 := 1; 10 := 1; 11 := 1; 12 := 1; 20 := 1]};
  agenda := ∅;
|}.

(** The calls proposals carry here: setting the bond, encoded as one number. *)
Definition decode (bytes : list Z) : option Z := head bytes.
Definition dispatch_bond (b : Z) (s : State World) : bool * State World := (true, (set_proposal_bond Root b s).2).

Definition start : State World := initial 60 100 330000 100 world0.

Definition run (c : Call) (origin : Origin) (s : State World) : State World :=
  (dispatch decode dispatch_bond c origin s).2.

(** Three councillors, and a proposal of account 10 to set the bond to 7. *)
Definition with_council : State World :=
  run (C_add_council_member 12) Root (run (C_add_council_member 10) Root (run (C_add_council_member 11) Root start)).
Definition proposed : State World := run (C_submit_proposal [7] [] 5) (Signed 10) with_council.
Definition opened : State World := run (C_vote_on_proposal 0 true) (Signed 11) proposed.
Definition vetoed_by_20 : State World := run (C_vote_against_referendum 0) (Signed 20) opened.
Definition revoted : State World := run (C_vote_on_proposal 0 true) (Signed 10) vetoed_by_20.
End Runtime.

Import Runtime.

(** The bond is taken at the rate of the day, not as it was reserved: here
    account 10 reserves a bond of 60, root lowers [ProposalBond] to 25 while the
    proposal is open, and the council disapproves it. The slash takes 25, no
    proposal is left, and 35 of the sponsor's balance stay reserved for ever. *)
Theorem bond_change_strands_reserve :
  let s := run (C_vote_on_proposal 0 false) (Signed 12)
             (run (C_vote_on_proposal 0 false) (Signed 11)
               (run (C_set_proposal_bond 25) Root proposed)) in
  GenericAsset.reserved_balance 1 10 (ledger (world proposed)) = 60 /\
  ProposalStatus s !! 0 = Some Disapproved /\ Proposals s = ∅ /\
  GenericAsset.reserved_balance 1 10 (ledger (world s)) = 35.
Proof. vm_compute. split_and!; reflexivity. Qed.

(** ** Concrete runs *)
Lemma dispatch_bond_inv (c : Z) (t : State World) : inv t ->
  inv (dispatch_bond c t).2 /\ NextProposalId t <= NextProposalId (dispatch_bond c t).2.
Proof. intros Ht. split; [by apply inv_set_params | simpl; lia]. Qed.

Lemma runtime_council_fits : MaxCouncilSize <= 128.
Proof. done. Qed.

(** Each call of the demonstration run is a step. *)
Lemma run_step c origin s t : rtc (gov_step decode dispatch_bond) s t -> call_ok c origin t ->
  rtc (gov_step decode dispatch_bond) s (run c origin t).
Proof. intros Hrun Hok. eapply rtc_r; [done|]. by apply step_call. Qed.

Lemma proposed_reachable : rtc (gov_step decode dispatch_bond) start proposed.
Proof. repeat (apply run_step); try reflexivity; try exact I; vm_compute; reflexivity. Qed.

Lemma opened_reachable : rtc (gov_step decode dispatch_bond) start opened.
Proof. apply run_step; [apply proposed_reachable|]. vm_compute. reflexivity. Qed.

Lemma vetoed_reachable : rtc (gov_step decode dispatch_bond) start vetoed_by_20.
Proof.
  apply run_step; [apply opened_reachable|]. intros who [= <-]. vm_compute. split_and!; discriminate.
Qed.

Lemma governance_reachable_witness :
  referendum_veto_sum 0 vetoed_by_20 = 400 /\ inv vetoed_by_20.
Proof.
  split; [reflexivity|].
  apply (governance_reachable decode dispatch_bond 60 100 330000 100 world0 vetoed_by_20).
  - vm_compute. split; discriminate.
  - exact dispatch_bond_inv.
  - exact vetoed_reachable.
Defined.

Lemma start_run_inv s : rtc (gov_step decode dispatch_bond) start s -> inv s.
Proof.
  apply (inv_steps runtime_council_fits decode dispatch_bond); [exact dispatch_bond_inv | by apply inv_init].
Qed.

Lemma proposed_inv : inv proposed.
Proof. apply start_run_inv, proposed_reachable. Qed.

Lemma opened_inv : inv opened.
Proof. apply start_run_inv, opened_reachable. Qed.

Lemma vetoed_inv : inv vetoed_by_20.
Proof. apply start_run_inv, vetoed_reachable. Qed.

(** The council's second vote has started. *)
Lemma revoted_inv : inv revoted.
Proof.
  assert (E : revoted = set_ProposalVotes (insert 0 (record_vote ProposalVoteInfo_default 0 true)) vetoed_by_20)
    by (vm_compute; reflexivity).
  rewrite E. apply inv_set_votes; [apply vetoed_inv|].
  assert (El : length (council vetoed_by_20) = 3%nat) by (vm_compute; reflexivity). rewrite El.
  apply (votes_ok_record 3 ProposalVoteInfo_default ltac:(lia) (votes_ok_default 3) 0 true). lia.
Qed.

(** The result of a call, given that it succeeds. *)
Lemma call_result {A} (m : D (State World) A) s (a : A) : (m s).1 = Ok a -> m s = (Ok a, (m s).2).
Proof. destruct (m s). simpl. congruence. Qed.

Lemma council_change_keeps_votes_witness :
  vote_of 10 0 (add_council_member Root 9 proposed).2 = vote_of 10 0 proposed /\ vote_of 10 0 proposed = Some true.
Proof.
  split; [|vm_compute; reflexivity].
  apply (proj1 (council_change_keeps_votes runtime_council_fits 9 0 10 proposed _ proposed_inv)).
  apply call_result. vm_compute. reflexivity.
Defined.

Lemma vote_tally_decides_witness : exists i p,
  council proposed !! i = Some 11 /\ Proposals proposed !! 0 = Some p /\ vote_of 11 0 proposed = None /\
  ProposalStatus (vote_on_proposal (Signed 11) 0 true proposed).2 !! 0 = Some ReferendumDeliberation.
Proof.
  destruct (vote_tally_decides runtime_council_fits 11 0 true proposed (vote_on_proposal (Signed 11) 0 true proposed).2)
    as (i & p & Hi & Hp & Hv & _).
  - exact proposed_inv.
  - vm_compute. eexists. reflexivity.
  - apply call_result. vm_compute. reflexivity.
  - exists i, p. split_and!; [exact Hi | exact Hp | exact Hv | vm_compute; reflexivity].
Defined.

Lemma revote_resets_vetoes_witness :
  referendum_veto_sum 0 revoted = 400 /\
  referendum_veto_sum 0 (vote_on_proposal (Signed 11) 0 true revoted).2 = 0.
Proof.
  split; [vm_compute; reflexivity|].
  destruct (revote_resets_vetoes runtime_council_fits 11 1 0 true revoted (vote_on_proposal (Signed 11) 0 true revoted).2)
    as [H _].
  - exact revoted_inv.
  - vm_compute. eexists. reflexivity.
  - vm_compute. reflexivity.
  - vm_compute. reflexivity.
  - vm_compute. reflexivity.
  - apply call_result. vm_compute. reflexivity.
  - exact H.
Defined.

Lemma referendum_decided_witness :
  ProposalStatus (on_initialize 23000 vetoed_by_20).1 !! 0 = Some ApprovedWaitingEnactment.
Proof.
  destruct (referendum_decided (laws := laws) 23000 0 500 vetoed_by_20) as [H _].
  - exact vetoed_inv.
  - vm_compute. reflexivity.
  - vm_compute. reflexivity.
  - vm_compute. discriminate.
  - vm_compute. discriminate.
  - vm_compute. reflexivity.
  - rewrite H. vm_compute. reflexivity.
Defined.
