(* ===== verification/AddressMapping.v ===== *)
(** * Shared helpers of the support crate

    [src/crml/support/src/lib.rs]: the mapping between 20-byte EVM addresses
    and 32-byte account identifiers, and the scaling of wei amounts to CPAY.
    Addresses are lists of bytes; [account_number] reads a 32-byte account as
    the big-endian number that names it elsewhere in the development. *)

From S2P Require Import Prelude Support.

(** ["cvm:"] and ["crt:"] *)
Definition cvm_prefix : list Z := [99; 118; 109; 58].
Definition crt_prefix : list Z := [99; 114; 116; 58].

(** The prefix followed by seven zero bytes. *)
Definition check_prefix : list Z := cvm_prefix ++ replicate 7 0.

(** [PrefixedAddressMapping::into_account_id] *)
Definition into_account_id (address : list Z) : list Z :=
  let raw_account := check_prefix ++ address in
  let checksum := foldl Z.lxor 0 raw_account in
  raw_account ++ [checksum].

(** [PrefixedAddressMapping::from_account_id] *)
Definition from_account_id (raw_account : list Z) : list Z :=
  if bool_decide (take 11 raw_account = check_prefix) then take 20 (drop 11 raw_account)
  else if bool_decide (raw_account = replicate 32 0) then replicate 20 0
  else crt_prefix ++ replicate 16 0.

Definition account_number (raw_account : list Z) : AccountId := foldl (fun acc b => acc * 256 + b) 0 raw_account.

Definition CPAY_UNIT_VALUE : Z := 10 ^ 14.

Definition scale_wei_to_4dp (value : Z) : Z :=
  let quotient := value / CPAY_UNIT_VALUE in
  let remainder := value mod CPAY_UNIT_VALUE in
  if remainder =? 0 then quotient else wrapping_add BALANCE_BITS quotient 1.

(** The source's test [address_mapping]. *)
Example address_mapping :
  into_account_id [168; 110; 18; 46; 219; 220; 186; 75; 242; 74; 42; 191; 137; 245; 194; 48; 179; 125; 244; 157]
  = [99; 118; 109; 58; 0; 0; 0; 0; 0; 0; 0; 168; 110; 18; 46; 219; 220; 186; 75; 242; 74; 42; 191; 137; 245; 194; 48;
     179; 125; 244; 157; 74].
Proof. reflexivity. Qed.

Lemma from_prefixed address checksum : length address = 20%nat ->
  from_account_id (check_prefix ++ address ++ [checksum]) = address.
Proof.
  intros Hlen. unfold from_account_id.
  rewrite (take_app_length' check_prefix), bool_decide_true, (drop_app_length' check_prefix) by done.
  by apply take_app_length'.
Qed.

(** An EVM address survives the trip to an account identifier and back,
    every account with the EVM prefix maps back to its 20 address bytes
    whatever its checksum byte, and the image is always a 32-byte account whose
    bytes xor to zero. *)
Theorem address_mapping_roundtrip address : length address = 20%nat ->
  from_account_id (into_account_id address) = address /\
  (forall checksum, from_account_id (check_prefix ++ address ++ [checksum]) = address) /\
  length (into_account_id address) = 32%nat /\
  foldl Z.lxor 0 (into_account_id address) = 0.
Proof.
  intros Hlen. split_and!.
  - unfold into_account_id. rewrite <- app_assoc. by apply from_prefixed.
  - intros c. by apply from_prefixed.
  - unfold into_account_id. rewrite !length_app, Hlen. done.
  - unfold into_account_id. rewrite foldl_app. simpl foldl at 1. apply Z.lxor_nilpotent.
Qed.

(** Wei amounts are rounded up to whole CPAY units, never down and never
    by a full unit. *)
Theorem scale_wei_rounds_up value : in_range BALANCE_BITS value ->
  value <= scale_wei_to_4dp value * CPAY_UNIT_VALUE < value + CPAY_UNIT_VALUE.
Proof.
  intros Hv. unfold in_range, umax, BALANCE_BITS in Hv.
  pose proof (Z.div_mod value CPAY_UNIT_VALUE ltac:(done)) as Hdm.
  pose proof (Z.mod_pos_bound value CPAY_UNIT_VALUE ltac:(done)) as Hmod.
  unfold scale_wei_to_4dp. cbv zeta. destruct (Z.eqb_spec (value mod CPAY_UNIT_VALUE) 0) as [Hz|Hz]; [lia|].
  unfold wrapping_add. rewrite wrap_small; [lia|].
  assert (0 <= value / CPAY_UNIT_VALUE) by (apply Z.div_pos; [lia|done]).
  assert (value / CPAY_UNIT_VALUE <= value / 1) by (apply Z.div_le_compat_l; [lia|done]).
  rewrite Z.div_1_r in *. unfold in_range, umax, BALANCE_BITS.
  split; [lia|]. unfold CPAY_UNIT_VALUE in *. nia.
Qed.

Lemma address_mapping_roundtrip_witness : from_account_id (into_account_id (replicate 20 7)) = replicate 20 7.
Proof. apply (address_mapping_roundtrip (replicate 20 7)). reflexivity. Defined.

Lemma scale_wei_rounds_up_witness :
  scale_wei_to_4dp (10 ^ 14 + 1) = 2 /\ 10 ^ 14 + 1 <= scale_wei_to_4dp (10 ^ 14 + 1) * CPAY_UNIT_VALUE.
Proof.
  split; [reflexivity|]. apply (scale_wei_rounds_up (10 ^ 14 + 1)). vm_compute. split; discriminate.
Defined.
