(* ===== verification/TokenApprovals.v ===== *)
(** * The token approvals pallet

    [src/crml/token-approvals/src/lib.rs]: ERC-721 and ERC-20 approvals kept
    for the EVM precompiles. EVM addresses are lists of 20 bytes. The NFT
    pallet's ownership check is an argument of [erc721_approval]; the NFT pallet
    calls [on_nft_transfer] back through the subscription interface. *)

From S2P Require Import Prelude Support AddressMapping.

Abbreviation H160 := (list Z) (only parsing).
Abbreviation TokenId := (Z * Z * Z)%type (only parsing).

(** [H160::default()] *)
Definition H160_default : H160 := replicate 20 0.

Record State := mkState {
  ERC721Approvals : gmap TokenId H160;
  ERC20Approvals : gmap (H160 * AssetId * H160) Balance;
}.

Definition set_ERC721Approvals f s := mkState (f (ERC721Approvals s)) (ERC20Approvals s).
Definition set_ERC20Approvals f s := mkState (ERC721Approvals s) (f (ERC20Approvals s)).

Definition erc721_approvals (token : TokenId) (s : State) : H160 := sget H160_default token (ERC721Approvals s).

Definition erc20_approvals (caller : H160) (asset : AssetId) (spender : H160) (s : State) : Balance :=
  sget 0 (caller, asset, spender) (ERC20Approvals s).

Definition remove_erc721_approval (token : TokenId) (s : State) : State := set_ERC721Approvals (delete token) s.

(** [OnTransferSubscriber] *)
Definition on_nft_transfer (token : TokenId) (s : State) : State := remove_erc721_approval token s.

Definition erc721_approval (check_ownership : AccountId -> TokenId -> bool) (origin : Origin)
    (caller operator_account : H160) (token : TokenId) : D State unit :=
  do* ensure_none origin in
  do* ensure (negb (bool_decide (caller = operator_account))) (TokenApprovals ApprovalError.CallerNotOperator) in
  let owner := account_number (into_account_id caller) in
  do* ensure (check_ownership owner token) (TokenApprovals ApprovalError.NotTokenOwner) in
  modify (set_ERC721Approvals (insert token operator_account)).

Definition erc20_approval (origin : Origin) (caller spender : H160) (asset : AssetId) (amount : Balance)
    : D State unit :=
  do* ensure_none origin in
  do* ensure (negb (bool_decide (caller = spender))) (TokenApprovals ApprovalError.CallerNotOperator) in
  modify (set_ERC20Approvals (insert (caller, asset, spender) amount)).

Definition erc20_remove_approval (origin : Origin) (caller spender : H160) (asset : AssetId) : D State unit :=
  do* ensure_none origin in
  modify (set_ERC20Approvals (delete (caller, asset, spender))).
