(* ===== verification/NftTypes.v ===== *)
(** * NFT pallet: types

    [src/crml/nft/src/types.rs]: metadata schemes and their sanitising,
    royalty schedules, listings, offers and marketplaces. Byte strings are
    lists of numbers below 256; UTF-8 checking and trimming follow
    [core::str]. *)

From S2P Require Import Prelude Support.

Abbreviation CollectionId := Z (only parsing).
Abbreviation SeriesId := Z (only parsing).
Abbreviation SerialNumber := Z (only parsing).
Abbreviation TokenCount := Z (only parsing).
Abbreviation ListingId := Z (only parsing).
Abbreviation OfferId := Z (only parsing).
Abbreviation MarketplaceId := Z (only parsing).
Abbreviation Permill := Z (only parsing).
Abbreviation TokenId := (Z * Z * Z)%type (only parsing).
Abbreviation bytes := (list Z) (only parsing).

Definition ID_BITS : Z := 32.
Definition LISTING_BITS : Z := 128.
Definition OFFER_BITS : Z := 64.

Definition AUCTION_EXTENSION_PERIOD : Z := 40.
Definition MAX_COLLECTION_NAME_LENGTH : Z := 32.
Definition MAX_ENTITLEMENTS : Z := 8.
Definition PERMILL_ACCURACY : Z := 1000000.

(** [Permill * Balance] of [sp_arithmetic]. *)
Class PermillOps := { permill_mul : Permill -> Balance -> Balance }.

(** ** UTF-8 *)
Definition between (lo hi b : Z) : bool := (lo <=? b) && (b <=? hi).
Definition continuation (b : Z) : bool := between 128 191 b.

(** Whether a lead byte and second byte start a well-formed sequence of three
    or four bytes. *)
Definition lead3 (b0 b1 : Z) : bool :=
  ((b0 =? 224) && between 160 191 b1) || (between 225 236 b0 && continuation b1) ||
  ((b0 =? 237) && between 128 159 b1) || (between 238 239 b0 && continuation b1).
Definition lead4 (b0 b1 : Z) : bool :=
  ((b0 =? 240) && between 144 191 b1) || (between 241 243 b0 && continuation b1) ||
  ((b0 =? 244) && between 128 143 b1).

(** [core::str::from_utf8(l).is_ok()] *)
Fixpoint from_utf8_ok (l : bytes) : bool :=
  match l with
  | [] => true
  | b0 :: l1 =>
      if between 0 127 b0 then from_utf8_ok l1
      else match l1 with
      | [] => false
      | b1 :: l2 =>
          if between 194 223 b0 && continuation b1 then from_utf8_ok l2
          else match l2 with
          | [] => false
          | b2 :: l3 =>
              if lead3 b0 b1 && continuation b2 then from_utf8_ok l3
              else match l3 with
              | [] => false
              | b3 :: l4 => if lead4 b0 b1 && continuation b2 && continuation b3 then from_utf8_ok l4 else false
              end
          end
      end
  end.

(** ** Trimming: the characters with the Unicode property [White_Space] *)
Definition ascii_space (b : Z) : bool := between 9 13 b || (b =? 32).
Definition space2 (b0 b1 : Z) : bool := (b0 =? 194) && ((b1 =? 133) || (b1 =? 160)).
Definition space3 (b0 b1 b2 : Z) : bool :=
  ((b0 =? 225) && (b1 =? 154) && (b2 =? 128)) ||
  ((b0 =? 226) && (b1 =? 128) && (between 128 138 b2 || (b2 =? 168) || (b2 =? 169) || (b2 =? 175))) ||
  ((b0 =? 226) && (b1 =? 129) && (b2 =? 159)) ||
  ((b0 =? 227) && (b1 =? 128) && (b2 =? 128)).

Fixpoint trim_start (l : bytes) : bytes :=
  match l with
  | b0 :: l1 =>
      if ascii_space b0 then trim_start l1
      else match l1 with
      | b1 :: l2 =>
          if space2 b0 b1 then trim_start l2
          else match l2 with
          | b2 :: l3 => if space3 b0 b1 b2 then trim_start l3 else l
          | [] => l
          end
      | [] => l
      end
  | [] => []
  end.

(** The same from the end, on the reversed string. *)
Fixpoint trim_rev (l : bytes) : bytes :=
  match l with
  | b0 :: l1 =>
      if ascii_space b0 then trim_rev l1
      else match l1 with
      | b1 :: l2 =>
          if space2 b1 b0 then trim_rev l2
          else match l2 with
          | b2 :: l3 => if space3 b2 b1 b0 then trim_rev l3 else l
          | [] => l
          end
      | [] => l
      end
  | [] => []
  end.

Definition trim (l : bytes) : bytes := rev (trim_rev (rev (trim_start l))).

Definition ends_with (suffix l : bytes) : bool := bool_decide (drop (length l - length suffix) l = suffix).
Definition starts_with (prefix l : bytes) : bool := bool_decide (take (length prefix) l = prefix).

(** ** Metadata schemes *)
Inductive MetadataScheme :=
| Https (path : bytes)
| Http (path : bytes)
| IpfsDir (path : bytes)
| IpfsShared (path : bytes).

Definition ascii_bytes (s : string) : bytes :=
  (fun c => Z.of_N (Ascii.N_of_ascii c)) <$> String.list_ascii_of_string s.

Definition scheme_prefix (m : MetadataScheme) : bytes :=
  match m with
  | Http _ => ascii_bytes "http://"
  | Https _ => ascii_bytes "https://"
  | IpfsDir _ => ascii_bytes "ipfs://"
  | IpfsShared _ => ascii_bytes "ipfs://"
  end.

(** The closure [santitize_]. *)
Definition sanitize_path (prefix path : bytes) : option bytes :=
  if bool_decide (path = []) then None
  else if from_utf8_ok path then
    let path := trim path in
    let path := if ends_with (ascii_bytes "/") path then take (length path - 1) path else path in
    let path := if starts_with prefix path then drop (length prefix) path else path in
    Some path
  else None.

Definition sanitize (m : MetadataScheme) : option MetadataScheme :=
  match m with
  | Http path => Http <$> sanitize_path (scheme_prefix m) path
  | Https path => Https <$> sanitize_path (scheme_prefix m) path
  | IpfsDir path => IpfsDir <$> sanitize_path (scheme_prefix m) path
  | IpfsShared path => IpfsShared <$> sanitize_path (scheme_prefix m) path
  end.

Definition from_index (index : Z) (metadata_path : bytes) : option MetadataScheme :=
  if index =? 0 then Some (Https metadata_path)
  else if index =? 1 then Some (Http metadata_path)
  else if index =? 2 then Some (IpfsDir metadata_path)
  else if index =? 3 then Some (IpfsShared metadata_path)
  else None.

(** The cases of the source's own test [metadata_path_sanitize]. *)
Example metadata_path_sanitize :
  sanitize (Http []) = None /\
  sanitize (Http (ascii_bytes " http://test.com/")) = Some (Http (ascii_bytes "test.com")) /\
  sanitize (Https (ascii_bytes "https://test.com/ ")) = Some (Https (ascii_bytes "test.com")) /\
  sanitize (IpfsDir (ascii_bytes "ipfs://notarealCIDblah/")) = Some (IpfsDir (ascii_bytes "notarealCIDblah")) /\
  sanitize (Http (ascii_bytes "test.com")) = Some (Http (ascii_bytes "test.com")).
Proof. vm_compute. done. Qed.

(** ** Attributes *)
Inductive NFTAttributeValue :=
| I32 (v : Z) | U8 (v : Z) | U16 (v : Z) | U32 (v : Z) | U64 (v : Z) | U128 (v : Z)
| Bytes32 (v : bytes) | Bytes (v : bytes) | AString (v : bytes) | Hash (v : bytes) | Timestamp (v : Z) | Url (v : bytes).

(** ** Royalties *)
Record RoyaltiesSchedule := { entitlements : list (AccountId * Permill) }.

Definition no_royalties : RoyaltiesSchedule := {| entitlements := [] |}.

(** [.iter().map(|(_who, share)| share.deconstruct()).sum::<u32>()] *)
Definition sum_entitlements (l : list (AccountId * Permill)) : Z :=
  foldl (fun acc e => wrapping_add 32 acc e.2) 0 l.

Definition validate (r : RoyaltiesSchedule) : bool :=
  negb (bool_decide (entitlements r = [])) &&
  (Z.of_nat (length (entitlements r)) <=? MAX_ENTITLEMENTS) &&
  (sum_entitlements (entitlements r) <=? PERMILL_ACCURACY).

Definition calculate_total_entitlement (r : RoyaltiesSchedule) : Permill :=
  if negb (validate r) then 0
  else Z.min (sum_entitlements (entitlements r)) PERMILL_ACCURACY.

(** ** Listings, offers, marketplaces *)
Record FixedPriceListing := {
  fp_payment_asset : AssetId;
  fp_fixed_price : Balance;
  fp_close : BlockNumber;
  fp_buyer : option AccountId;
  fp_seller : AccountId;
  fp_tokens : list TokenId;
  fp_royalties_schedule : RoyaltiesSchedule;
  fp_marketplace_id : option MarketplaceId;
}.

Record AuctionListing := {
  au_payment_asset : AssetId;
  au_reserve_price : Balance;
  au_close : BlockNumber;
  au_seller : AccountId;
  au_tokens : list TokenId;
  au_royalties_schedule : RoyaltiesSchedule;
  au_marketplace_id : option MarketplaceId;
}.

Inductive Listing := FixedPrice (l : FixedPriceListing) | Auction (l : AuctionListing).

Record Marketplace := { mk_account : AccountId; mk_entitlement : Permill }.

Inductive TokenLockReason := Listed (id : ListingId).

Record SimpleOffer := {
  of_token_id : TokenId;
  of_asset_id : AssetId;
  of_amount : Balance;
  of_buyer : AccountId;
  of_marketplace_id : option MarketplaceId;
}.

Inductive OfferType := Simple (o : SimpleOffer).

Inductive AuctionClosureReason := ExpiredNoBids | SettlementFailed | VendorCancelled.

Record CollectionInfo := { ci_name : bytes; ci_owner : AccountId; ci_royalties : list (AccountId * Permill) }.

Record TokenInfo := {
  ti_attributes : list NFTAttributeValue;
  ti_owner : AccountId;
  ti_royalties : list (AccountId * Permill);
}.
