(* ===== verification/Nft.v ===== *)
(** * The NFT pallet

    [src/crml/nft/src/lib.rs]: collections, series and tokens, fixed price
    sales, auctions, offers and marketplaces. Payments go through the
    [MultiCurrency] interface to the ledger [L]; every transferred token is
    announced to the subscriber, whose storage is [A]. *)

From S2P Require Import Prelude Support GenericAssetTypes MultiCurrency Search NftTypes.

(** [OnTransferSubscriber] *)
Class OnTransfer (A : Type) := { on_nft_transfer : TokenId -> A -> A }.

(** The constants of [Config]. *)
Class NftConfig := { DefaultListingDuration : BlockNumber }.

(** [decl_event!] *)
Inductive Event :=
| CreateCollection (c : CollectionId) (name : bytes) (owner : AccountId)
| CreateSeries (c : CollectionId) (s : SeriesId) (n : TokenCount) (owner : AccountId)
| CreateTokens (c : CollectionId) (s : SeriesId) (n : TokenCount) (owner : AccountId)
| Transfer (from : AccountId) (c : CollectionId) (s : SeriesId) (ns : list SerialNumber) (to : AccountId)
| Burn (c : CollectionId) (s : SeriesId) (ns : list SerialNumber)
| FixedPriceSaleListed (c : CollectionId) (l : ListingId) (m : option MarketplaceId)
| FixedPriceSaleComplete (c : CollectionId) (l : ListingId) (buyer : AccountId)
| FixedPriceSaleClosed (c : CollectionId) (l : ListingId)
| FixedPriceSalePriceUpdated (c : CollectionId) (l : ListingId)
| AuctionOpen (c : CollectionId) (l : ListingId) (m : option MarketplaceId)
| AuctionSold (c : CollectionId) (l : ListingId) (asset : AssetId) (price : Balance) (winner : AccountId)
| AuctionClosed (c : CollectionId) (l : ListingId) (reason : AuctionClosureReason)
| Bid (c : CollectionId) (l : ListingId) (amount : Balance)
| RegisteredMarketplace (who : AccountId) (e : Permill) (m : MarketplaceId)
| OfferMade (o : OfferId) (amount : Balance) (asset : AssetId) (m : option MarketplaceId) (buyer : AccountId)
| OfferAccepted (o : OfferId)
| OfferRejected (o : OfferId)
| OfferCancelled (o : OfferId)
| TokenBalancesUpdated (c : CollectionId) (s : SeriesId).

Section Nft.
Context {L A : Type} {cur : MultiCurrency L} {sub : OnTransfer A} {permill : PermillOps} {config : NftConfig}.

(** [decl_storage!], the block number, and the storage of the pallets called.
    Double maps are keyed by pairs; [TokenOwner] by the token identifier. *)
Record State := mkState {
  CollectionOwner : gmap CollectionId AccountId;
  CollectionName : gmap CollectionId bytes;
  CollectionRoyalties : gmap CollectionId RoyaltiesSchedule;
  TokenLocks : gmap TokenId TokenLockReason;
  TokenOwner : gmap TokenId AccountId;
  TokenBalance : gmap AccountId (gmap (CollectionId * SeriesId) TokenCount);
  NextMarketplaceId : MarketplaceId;
  RegisteredMarketplaces : gmap MarketplaceId Marketplace;
  SeriesAttributes : gmap (CollectionId * SeriesId) (list NFTAttributeValue);
  SeriesName : gmap (CollectionId * SeriesId) bytes;
  SeriesRoyalties : gmap (CollectionId * SeriesId) RoyaltiesSchedule;
  SeriesIssuance : gmap (CollectionId * SeriesId) TokenCount;
  SeriesMetadataScheme : gmap (CollectionId * SeriesId) MetadataScheme;
  NextCollectionId : CollectionId;
  NextSeriesId : gmap CollectionId SeriesId;
  NextSerialNumber : gmap (CollectionId * SeriesId) SerialNumber;
  NextListingId : ListingId;
  Listings : gmap ListingId Listing;
  OpenCollectionListings : gmap (CollectionId * ListingId) bool;
  ListingWinningBid : gmap ListingId (AccountId * Balance);
  ListingEndSchedule : gmap (BlockNumber * ListingId) bool;
  Offers : gmap OfferId OfferType;
  TokenOffers : gmap TokenId (list OfferId);
  NextOfferId : OfferId;
  block_number : BlockNumber;
  ledger : L;
  subscriber : A;
  events : list Event;
}.

Definition eta (s : State) : State := mkState
  (CollectionOwner s) (CollectionName s) (CollectionRoyalties s) (TokenLocks s) (TokenOwner s) (TokenBalance s)
  (NextMarketplaceId s) (RegisteredMarketplaces s) (SeriesAttributes s) (SeriesName s) (SeriesRoyalties s)
  (SeriesIssuance s) (SeriesMetadataScheme s) (NextCollectionId s) (NextSeriesId s) (NextSerialNumber s)
  (NextListingId s) (Listings s) (OpenCollectionListings s) (ListingWinningBid s) (ListingEndSchedule s)
  (Offers s) (TokenOffers s) (NextOfferId s) (block_number s) (ledger s) (subscriber s) (events s).

Definition set_CollectionOwner : (gmap Z Z -> gmap Z Z) -> State -> State := ltac:(setter eta CollectionOwner).
Definition set_CollectionName : (gmap Z bytes -> gmap Z bytes) -> State -> State := ltac:(setter eta CollectionName).
Definition set_CollectionRoyalties : (gmap Z RoyaltiesSchedule -> gmap Z RoyaltiesSchedule) -> State -> State :=
  ltac:(setter eta CollectionRoyalties).
Definition set_TokenLocks : (gmap TokenId TokenLockReason -> gmap TokenId TokenLockReason) -> State -> State :=
  ltac:(setter eta TokenLocks).
Definition set_TokenOwner : (gmap TokenId Z -> gmap TokenId Z) -> State -> State := ltac:(setter eta TokenOwner).
Definition set_TokenBalance : (gmap Z (gmap (Z * Z) Z) -> gmap Z (gmap (Z * Z) Z)) -> State -> State :=
  ltac:(setter eta TokenBalance).
Definition set_NextMarketplaceId : (Z -> Z) -> State -> State := ltac:(setter eta NextMarketplaceId).
Definition set_RegisteredMarketplaces : (gmap Z Marketplace -> gmap Z Marketplace) -> State -> State :=
  ltac:(setter eta RegisteredMarketplaces).
Definition set_SeriesAttributes : (gmap (Z * Z) (list NFTAttributeValue) -> gmap (Z * Z) (list NFTAttributeValue)) ->
  State -> State := ltac:(setter eta SeriesAttributes).
Definition set_SeriesName : (gmap (Z * Z) bytes -> gmap (Z * Z) bytes) -> State -> State := ltac:(setter eta SeriesName).
Definition set_SeriesRoyalties : (gmap (Z * Z) RoyaltiesSchedule -> gmap (Z * Z) RoyaltiesSchedule) -> State -> State :=
  ltac:(setter eta SeriesRoyalties).
Definition set_SeriesIssuance : (gmap (Z * Z) Z -> gmap (Z * Z) Z) -> State -> State := ltac:(setter eta SeriesIssuance).
Definition set_SeriesMetadataScheme : (gmap (Z * Z) MetadataScheme -> gmap (Z * Z) MetadataScheme) -> State -> State :=
  ltac:(setter eta SeriesMetadataScheme).
Definition set_NextCollectionId : (Z -> Z) -> State -> State := ltac:(setter eta NextCollectionId).
Definition set_NextSeriesId : (gmap Z Z -> gmap Z Z) -> State -> State := ltac:(setter eta NextSeriesId).
Definition set_NextSerialNumber : (gmap (Z * Z) Z -> gmap (Z * Z) Z) -> State -> State :=
  ltac:(setter eta NextSerialNumber).
Definition set_NextListingId : (Z -> Z) -> State -> State := ltac:(setter eta NextListingId).
Definition set_Listings : (gmap Z Listing -> gmap Z Listing) -> State -> State := ltac:(setter eta Listings).
Definition set_OpenCollectionListings : (gmap (Z * Z) bool -> gmap (Z * Z) bool) -> State -> State :=
  ltac:(setter eta OpenCollectionListings).
Definition set_ListingWinningBid : (gmap Z (Z * Z) -> gmap Z (Z * Z)) -> State -> State :=
  ltac:(setter eta ListingWinningBid).
Definition set_ListingEndSchedule : (gmap (Z * Z) bool -> gmap (Z * Z) bool) -> State -> State :=
  ltac:(setter eta ListingEndSchedule).
Definition set_Offers : (gmap Z OfferType -> gmap Z OfferType) -> State -> State := ltac:(setter eta Offers).
Definition set_TokenOffers : (gmap TokenId (list Z) -> gmap TokenId (list Z)) -> State -> State :=
  ltac:(setter eta TokenOffers).
Definition set_NextOfferId : (Z -> Z) -> State -> State := ltac:(setter eta NextOfferId).
Definition set_ledger : (L -> L) -> State -> State := ltac:(setter eta ledger).
Definition set_subscriber : (A -> A) -> State -> State := ltac:(setter eta subscriber).
Definition set_events : (list Event -> list Event) -> State -> State := ltac:(setter eta events).

Definition deposit_event (e : Event) : D State unit := modify (set_events (fun es => es ++ [e])).

Definition on_ledger {B} (m : D L B) : D State B := fun s =>
  match m (ledger s) with (r, l') => (r, set_ledger (fun _ => l') s) end.

(** ** Storage reads *)
Definition token_owner (token : TokenId) (s : State) : AccountId := sget default_account token (TokenOwner s).

Definition token_balance (who : AccountId) (s : State) : gmap (CollectionId * SeriesId) TokenCount :=
  sget ∅ who (TokenBalance s).

Definition is_locked (token : TokenId) (s : State) : bool := bool_decide (is_Some (TokenLocks s !! token)).

(** [IsTokenOwner::check_ownership] *)
Definition check_ownership (account : AccountId) (token : TokenId) (s : State) : bool :=
  token_owner token s =? account.

Definition series_exists (collection_id : CollectionId) (series_id : SeriesId) (s : State) : bool :=
  bool_decide (is_Some (SeriesMetadataScheme s !! (collection_id, series_id))).

(** Fails unless [who] is the registered owner of the collection. *)
Definition ensure_collection_owner (who : AccountId) (collection_id : CollectionId) : D State unit :=
  let* owners := gets CollectionOwner in
  match owners !! collection_id with
  | Some owner => ensure (owner =? who) (Nft NftError.NoPermission)
  | None => fail (Nft NftError.NoCollection)
  end.

(** ** Token bookkeeping *)

(** [balances.entry(key).or_default() += quantity] *)
Definition credit_tokens (who : AccountId) (key : CollectionId * SeriesId) (quantity : TokenCount) (s : State) : State :=
  let balances := token_balance who s in
  set_TokenBalance (insert who (<[key := wrapping_add ID_BITS (sget 0 key balances) quantity]> balances)) s.

(** The [try_mutate] of [burn_batch] and [do_transfer_unchecked]. *)
Definition debit_tokens (who : AccountId) (key : CollectionId * SeriesId) (quantity : TokenCount) : D State unit :=
  let* balances := gets (token_balance who) in
  match balances !! key with
  | Some balance =>
      let new_balance := saturating_sub balance quantity in
      modify (set_TokenBalance (insert who
        (if new_balance =? 0 then delete key balances else <[key := new_balance]> balances)))
  | None => fail (Nft NftError.NoToken)
  end.

(** [let _ = result;] *)
Definition ignore_err (m : D State unit) : D State unit := fun s =>
  match m s with
  | (Err _, s') => (Ok tt, s')
  | r => r
  end.

Definition do_transfer_unchecked (collection_id : CollectionId) (series_id : SeriesId)
    (serial_numbers : list SerialNumber) (current_owner new_owner : AccountId) : D State unit :=
  do* for_each serial_numbers (fun n =>
    do* modify (set_TokenOwner (insert (collection_id, series_id, n) new_owner)) in
    modify (set_subscriber (on_nft_transfer (collection_id, series_id, n)))) in
  let quantity := wrap ID_BITS (Z.of_nat (length serial_numbers)) in
  do* ignore_err (debit_tokens current_owner (collection_id, series_id) quantity) in
  modify (credit_tokens new_owner (collection_id, series_id) quantity).

(** The serial numbers of [serial_number..serial_number + quantity]. *)
Definition serial_range (serial_number : SerialNumber) (quantity : TokenCount) : list SerialNumber :=
  seqZ serial_number (wrapping_add ID_BITS serial_number quantity - serial_number).

Definition do_mint (owner : AccountId) (collection_id : CollectionId) (series_id : SeriesId)
    (serial_number : SerialNumber) (quantity : TokenCount) : D State unit :=
  let key := (collection_id, series_id) in
  do* (if 0 <? quantity then
    do* for_each (serial_range serial_number quantity) (fun n =>
      modify (set_TokenOwner (insert (collection_id, series_id, n) owner))) in
    do* modify (credit_tokens owner key quantity) in
    modify (fun s => set_NextSerialNumber
      (insert key (saturating_add ID_BITS (sget 0 key (NextSerialNumber s)) quantity)) s)
  else modify (set_NextSerialNumber (insert key 0))) in
  modify (fun s => set_SeriesIssuance
    (insert key (saturating_add ID_BITS (sget 0 key (SeriesIssuance s)) quantity)) s).

(** ** Collections and series *)
Definition name_ok (name : bytes) : bool :=
  negb (bool_decide (name = [])) && (Z.of_nat (length name) <=? MAX_COLLECTION_NAME_LENGTH).

Definition migrate_to_metadata_scheme (origin : Origin) (collection_id : CollectionId) (series_id : SeriesId)
    (scheme : MetadataScheme) : D State unit :=
  let* who := ensure_signed origin in
  do* ensure_collection_owner who collection_id in
  let* exists_ := gets (series_exists collection_id series_id) in
  do* ensure (negb exists_) (Nft NftError.NoPermission) in
  let* sanitized := ok_or (sanitize scheme) (Nft NftError.InvalidMetadataPath) in
  modify (set_SeriesMetadataScheme (insert (collection_id, series_id) sanitized)).

Definition set_owner (origin : Origin) (collection_id : CollectionId) (new_owner : AccountId) : D State unit :=
  let* who := ensure_signed origin in
  do* ensure_collection_owner who collection_id in
  modify (set_CollectionOwner (insert collection_id new_owner)).

Definition set_series_name (origin : Origin) (collection_id : CollectionId) (series_id : SeriesId) (name : bytes)
    : D State unit :=
  let* who := ensure_signed origin in
  do* ensure_collection_owner who collection_id in
  let* exists_ := gets (series_exists collection_id series_id) in
  do* ensure exists_ (Nft NftError.NoSeries) in
  let* names := gets SeriesName in
  do* ensure (bool_decide (names !! (collection_id, series_id) = None)) (Nft NftError.NameAlreadySet) in
  do* ensure (name_ok name) (Nft NftError.CollectionNameInvalid) in
  do* ensure (from_utf8_ok name) (Nft NftError.CollectionNameInvalid) in
  modify (set_SeriesName (insert (collection_id, series_id) name)).

Definition register_marketplace (origin : Origin) (marketplace_account : option AccountId) (entitlement : Permill)
    : D State unit :=
  let* who := ensure_signed origin in
  do* ensure (entitlement <=? PERMILL_ACCURACY) (Nft NftError.RoyaltiesInvalid) in
  let account := default who marketplace_account in
  let* marketplace_id := gets NextMarketplaceId in
  do* ensure (bool_decide (is_Some (checked_add ID_BITS marketplace_id 1))) (Nft NftError.NoAvailableIds) in
  do* modify (set_RegisteredMarketplaces (insert marketplace_id
    {| mk_account := account; mk_entitlement := entitlement |})) in
  do* deposit_event (RegisteredMarketplace account entitlement marketplace_id) in
  modify (set_NextMarketplaceId (fun i => wrapping_add ID_BITS i 1)).

Definition create_collection (origin : Origin) (name : bytes) (royalties_schedule : option RoyaltiesSchedule)
    : D State unit :=
  let* who := ensure_signed origin in
  do* ensure (name_ok name) (Nft NftError.CollectionNameInvalid) in
  do* ensure (from_utf8_ok name) (Nft NftError.CollectionNameInvalid) in
  let* collection_id := gets NextCollectionId in
  do* ensure (bool_decide (is_Some (checked_add ID_BITS collection_id 1))) (Nft NftError.NoAvailableIds) in
  do* match royalties_schedule with
      | Some r =>
          do* ensure (validate r) (Nft NftError.RoyaltiesInvalid) in
          modify (set_CollectionRoyalties (insert collection_id r))
      | None => ret tt
      end in
  do* modify (set_CollectionOwner (insert collection_id who)) in
  do* modify (set_CollectionName (insert collection_id name)) in
  do* modify (set_NextCollectionId (fun c => wrapping_add ID_BITS c 1)) in
  deposit_event (CreateCollection collection_id name who).

Definition do_mint_series (who : AccountId) (collection_id : CollectionId) (quantity : TokenCount)
    (owner : option AccountId) (metadata_scheme : MetadataScheme) (royalties_schedule : option RoyaltiesSchedule)
    : D State SeriesId :=
  do* ensure_collection_owner who collection_id in
  let* series_id := gets (fun s => sget 0 collection_id (NextSeriesId s)) in
  do* ensure (bool_decide (is_Some (checked_add ID_BITS series_id 1))) (Nft NftError.NoAvailableIds) in
  let* scheme := ok_or (sanitize metadata_scheme) (Nft NftError.InvalidMetadataPath) in
  do* modify (set_SeriesMetadataScheme (insert (collection_id, series_id) scheme)) in
  do* match royalties_schedule with
      | Some r =>
          do* ensure (validate r) (Nft NftError.RoyaltiesInvalid) in
          modify (set_SeriesRoyalties (insert (collection_id, series_id) r))
      | None => ret tt
      end in
  let owner := default who owner in
  do* do_mint owner collection_id series_id 0 quantity in
  do* modify (fun s => set_NextSeriesId
    (insert collection_id (wrapping_add ID_BITS (sget 0 collection_id (NextSeriesId s)) 1)) s) in
  do* deposit_event (CreateSeries collection_id series_id quantity owner) in
  ret series_id.

Definition mint_series (origin : Origin) (collection_id : CollectionId) (quantity : TokenCount)
    (owner : option AccountId) (metadata_scheme : MetadataScheme) (royalties_schedule : option RoyaltiesSchedule)
    : D State unit :=
  transactional (
    let* who := ensure_signed origin in
    do* do_mint_series who collection_id quantity owner metadata_scheme royalties_schedule in
    ret tt).

Definition mint_additional (origin : Origin) (collection_id : CollectionId) (series_id : SeriesId)
    (quantity : TokenCount) (owner : option AccountId) : D State unit :=
  transactional (
    let* who := ensure_signed origin in
    do* ensure (0 <? quantity) (Nft NftError.NoToken) in
    do* ensure_collection_owner who collection_id in
    let* serials := gets NextSerialNumber in
    do* ensure (bool_decide (is_Some (serials !! (collection_id, series_id)))) (Nft NftError.NoToken) in
    let serial_number := sget 0 (collection_id, series_id) serials in
    do* ensure (bool_decide (is_Some (checked_add ID_BITS serial_number quantity))) (Nft NftError.NoAvailableIds) in
    let owner := default who owner in
    do* do_mint owner collection_id series_id serial_number quantity in
    deposit_event (CreateTokens collection_id series_id quantity owner)).

(** ** Transfers and burning *)

(** The checks every moved token passes: not listed, owned by the caller. *)
Definition ensure_movable (who : AccountId) (token : TokenId) : D State unit :=
  let* locked := gets (is_locked token) in
  do* ensure (negb locked) (Nft NftError.TokenListingProtection) in
  let* owner := gets (token_owner token) in
  ensure (owner =? who) (Nft NftError.NoPermission).

Definition transfer_batch (origin : Origin) (collection_id : CollectionId) (series_id : SeriesId)
    (serial_numbers : list SerialNumber) (new_owner : AccountId) : D State unit :=
  transactional (
    let* who := ensure_signed origin in
    do* ensure (negb (bool_decide (serial_numbers = []))) (Nft NftError.NoToken) in
    do* for_each serial_numbers (fun n => ensure_movable who (collection_id, series_id, n)) in
    do* do_transfer_unchecked collection_id series_id serial_numbers who new_owner in
    deposit_event (Transfer who collection_id series_id serial_numbers new_owner)).

Definition transfer (origin : Origin) (token : TokenId) (new_owner : AccountId) : D State unit :=
  transfer_batch origin token.1.1 token.1.2 [token.2] new_owner.

Definition burn_batch (origin : Origin) (collection_id : CollectionId) (series_id : SeriesId)
    (serial_numbers : list SerialNumber) : D State unit :=
  let key := (collection_id, series_id) in
  transactional (
    let* who := ensure_signed origin in
    do* ensure (negb (bool_decide (serial_numbers = []))) (Nft NftError.NoToken) in
    do* for_each serial_numbers (fun n =>
      do* ensure_movable who (collection_id, series_id, n) in
      modify (set_TokenOwner (delete (collection_id, series_id, n)))) in
    let quantity := wrap ID_BITS (Z.of_nat (length serial_numbers)) in
    do* debit_tokens who key quantity in
    let* issuance := gets (fun s => sget 0 key (SeriesIssuance s)) in
    do* (if saturating_sub issuance quantity =? 0 then
      do* modify (set_SeriesAttributes (delete key)) in
      do* modify (set_SeriesIssuance (delete key)) in
      do* modify (set_SeriesMetadataScheme (delete key)) in
      modify (set_SeriesRoyalties (delete key))
    else modify (set_SeriesIssuance (insert key (saturating_sub issuance quantity)))) in
    deposit_event (Burn collection_id series_id serial_numbers)).

Definition burn (origin : Origin) (token : TokenId) : D State unit :=
  burn_batch origin token.1.1 token.1.2 [token.2].

(** ** Royalties of a sale *)

(** [tokens[0]] *)
Definition first_token (tokens : list TokenId) : D State TokenId :=
  match tokens with t :: _ => ret t | [] => panic end.

Definition check_bundle_royalties (tokens : list TokenId) (marketplace_id : option MarketplaceId)
    : D State RoyaltiesSchedule :=
  let* '(bundle_collection_id, bundle_series_id, _serial) := first_token tokens in
  do* for_each tokens (fun '(collection_id, series_id, _) =>
    do* ensure (collection_id =? bundle_collection_id) (Nft NftError.MixedBundleSale) in
    let* royalties := gets SeriesRoyalties in
    ensure ((series_id =? bundle_series_id) || bool_decide (royalties !! (collection_id, series_id) = None))
      (Nft NftError.RoyaltiesProtection)) in
  let* series_royalties := gets (fun s => SeriesRoyalties s !! (bundle_collection_id, bundle_series_id)) in
  let* collection_royalties := gets (fun s => CollectionRoyalties s !! bundle_collection_id) in
  let royalties := default (default no_royalties collection_royalties) series_royalties in
  match marketplace_id with
  | Some marketplace_id =>
      let* registered := gets RegisteredMarketplaces in
      let* marketplace := ok_or (registered !! marketplace_id) (Nft NftError.MarketplaceNotRegistered) in
      let royalties := {| entitlements :=
        entitlements royalties ++ [(mk_account marketplace, mk_entitlement marketplace)] |} in
      do* ensure (validate royalties) (Nft NftError.RoyaltiesInvalid) in
      ret royalties
  | None => ret royalties
  end.

(** ** Listing tokens *)
Definition lock_tokens (who : AccountId) (listing_id : ListingId) (tokens : list TokenId) : D State unit :=
  for_each tokens (fun token =>
    do* ensure_movable who token in
    modify (set_TokenLocks (insert token (Listed listing_id)))).

Definition unlock_tokens (tokens : list TokenId) (s : State) : State :=
  foldl (fun s token => set_TokenLocks (delete token) s) s tokens.

(** What [sell_bundle] and [auction_bundle] share: the checks, the locks, the
    schedule entry and the new listing, given its end block and royalties. *)
Definition list_bundle (who : AccountId) (tokens : list TokenId) (duration : option BlockNumber)
    (marketplace_id : option MarketplaceId) (make : BlockNumber -> RoyaltiesSchedule -> Listing)
    (listed : CollectionId -> ListingId -> option MarketplaceId -> Event) : D State unit :=
  do* ensure (negb (bool_decide (tokens = []))) (Nft NftError.NoToken) in
  let* royalties_schedule := check_bundle_royalties tokens marketplace_id in
  let* listing_id := gets NextListingId in
  do* ensure (bool_decide (is_Some (checked_add LISTING_BITS listing_id 1))) (Nft NftError.NoAvailableIds) in
  let* '(bundle_collection_id, _series, _serial) := first_token tokens in
  do* lock_tokens who listing_id tokens in
  let* now := gets block_number in
  let listing_end_block := saturating_add 32 now (default DefaultListingDuration duration) in
  do* modify (set_ListingEndSchedule (insert (listing_end_block, listing_id) true)) in
  do* modify (set_OpenCollectionListings (insert (bundle_collection_id, listing_id) true)) in
  do* modify (set_Listings (insert listing_id (make listing_end_block royalties_schedule))) in
  do* modify (set_NextListingId (fun i => wrapping_add LISTING_BITS i 1)) in
  deposit_event (listed bundle_collection_id listing_id marketplace_id).

Definition sell_bundle (origin : Origin) (tokens : list TokenId) (buyer : option AccountId) (payment_asset : AssetId)
    (fixed_price : Balance) (duration : option BlockNumber) (marketplace_id : option MarketplaceId) : D State unit :=
  transactional (
    let* who := ensure_signed origin in
    list_bundle who tokens duration marketplace_id (fun close royalties => FixedPrice
      {| fp_payment_asset := payment_asset; fp_fixed_price := fixed_price; fp_close := close; fp_buyer := buyer;
         fp_seller := who; fp_tokens := tokens; fp_royalties_schedule := royalties;
         fp_marketplace_id := marketplace_id |}) FixedPriceSaleListed).

Definition sell (origin : Origin) (token : TokenId) (buyer : option AccountId) (payment_asset : AssetId)
    (fixed_price : Balance) (duration : option BlockNumber) (marketplace_id : option MarketplaceId) : D State unit :=
  transactional (sell_bundle origin [token] buyer payment_asset fixed_price duration marketplace_id).

Definition auction_bundle (origin : Origin) (tokens : list TokenId) (payment_asset : AssetId)
    (reserve_price : Balance) (duration : option BlockNumber) (marketplace_id : option MarketplaceId) : D State unit :=
  transactional (
    let* who := ensure_signed origin in
    list_bundle who tokens duration marketplace_id (fun close royalties => Auction
      {| au_payment_asset := payment_asset; au_reserve_price := reserve_price; au_close := close; au_seller := who;
         au_tokens := tokens; au_royalties_schedule := royalties; au_marketplace_id := marketplace_id |}) AuctionOpen).

Definition auction (origin : Origin) (token : TokenId) (payment_asset : AssetId) (reserve_price : Balance)
    (duration : option BlockNumber) (marketplace_id : option MarketplaceId) : D State unit :=
  auction_bundle origin [token] payment_asset reserve_price duration marketplace_id.

(** ** Buying *)
Definition offset_or_fail (imbalance : NegativeImbalance) (deposit : PositiveImbalance) : D State NegativeImbalance :=
  match ni_offset imbalance deposit with
  | Same value => ret value
  | Other _ => fail (Nft NftError.InternalPayment)
  end.

(** The royalty loop of [buy]: what is left of the withdrawn funds and of the
    seller's share. *)
Fixpoint pay_entitlements (asset : AssetId) (price : Balance) (l : list (AccountId * Permill))
    (imbalance : NegativeImbalance) (for_seller : Balance) : D State (NegativeImbalance * Balance) :=
  match l with
  | [] => ret (imbalance, for_seller)
  | (who, entitlement) :: l =>
      let royalty := permill_mul entitlement price in
      let for_seller := wrapping_sub BALANCE_BITS for_seller royalty in
      let* deposit := on_ledger (cur_deposit_into_existing who asset royalty) in
      let* imbalance := offset_or_fail imbalance deposit in
      pay_entitlements asset price l imbalance for_seller
  end.

Definition pay_for_listing (buyer : AccountId) (listing : FixedPriceListing) : D State unit :=
  let asset := fp_payment_asset listing in
  let price := fp_fixed_price listing in
  if calculate_total_entitlement (fp_royalties_schedule listing) =? 0 then
    on_ledger (cur_transfer buyer (fp_seller listing) asset price AllowDeath)
  else
    let* imbalance := on_ledger (cur_withdraw buyer asset price WithdrawReasons.TRANSFER AllowDeath) in
    let* '(imbalance, for_seller) :=
      pay_entitlements asset price (entitlements (fp_royalties_schedule listing)) imbalance price in
    let* deposit := on_ledger (cur_deposit_into_existing (fp_seller listing) asset for_seller) in
    let* imbalance := offset_or_fail imbalance deposit in
    modify (set_ledger (cur_drop_negative imbalance)).

Definition remove_fixed_price_listing (listing_id : ListingId) (s : State) : State :=
  let listing_type := Listings s !! listing_id in
  let s := set_Listings (delete listing_id) s in
  let s := set_ListingWinningBid (delete listing_id) s in
  match listing_type with
  | Some (FixedPrice listing) => set_ListingEndSchedule (delete (fp_close listing, listing_id)) s
  | _ => s
  end.

(** If a buyer is specified in the listing, the caller must be that buyer. *)
Definition ensure_buyer (who : AccountId) (listing : FixedPriceListing) : D State unit :=
  match fp_buyer listing with
  | Some buyer => ensure (who =? buyer) (Nft NftError.NoPermission)
  | None => ret tt
  end.

Definition buy (origin : Origin) (listing_id : ListingId) : D State unit :=
  transactional (
    let* who := ensure_signed origin in
    let* listing := gets (fun s => Listings s !! listing_id) in
    match listing with
    | Some (FixedPrice listing) =>
        do* ensure_buyer who listing in
        let* '(collection_id, series_id, _serial) := ok_or (head (fp_tokens listing)) (Nft NftError.NoToken) in
        do* pay_for_listing who listing in
        do* modify (unlock_tokens (fp_tokens listing)) in
        let serial_numbers := (fun token : TokenId => token.2) <$> fp_tokens listing in
        do* modify (set_OpenCollectionListings (delete (collection_id, listing_id))) in
        do* do_transfer_unchecked collection_id series_id serial_numbers (fp_seller listing) who in
        do* modify (remove_fixed_price_listing listing_id) in
        deposit_event (FixedPriceSaleComplete collection_id listing_id who)
    | _ => fail (Nft NftError.NotForFixedPriceSale)
    end).

Definition update_fixed_price (origin : Origin) (listing_id : ListingId) (new_price : Balance) : D State unit :=
  let* who := ensure_signed origin in
  let* listing := gets (fun s => Listings s !! listing_id) in
  match listing with
  | Some (FixedPrice sale) =>
      do* ensure (fp_seller sale =? who) (Nft NftError.NoPermission) in
      let* '(collection_id, _series, _serial) := first_token (fp_tokens sale) in
      do* modify (set_Listings (insert listing_id (FixedPrice
        {| fp_payment_asset := fp_payment_asset sale; fp_fixed_price := new_price; fp_close := fp_close sale;
           fp_buyer := fp_buyer sale; fp_seller := fp_seller sale; fp_tokens := fp_tokens sale;
           fp_royalties_schedule := fp_royalties_schedule sale; fp_marketplace_id := fp_marketplace_id sale |}))) in
      deposit_event (FixedPriceSalePriceUpdated collection_id listing_id)
  | _ => fail (Nft NftError.NotForFixedPriceSale)
  end.

(** ** Auctions *)

(** Locks the bidder's or offerer's funds. *)
Definition lock_funds (who : AccountId) (asset : AssetId) (amount : Balance) : D State unit :=
  let* balance := gets (fun s => cur_free_balance who asset (ledger s)) in
  do* match checked_sub balance amount with
      | Some after => on_ledger (cur_ensure_can_withdraw who asset amount WithdrawReasons.RESERVE after)
      | None => ret tt
      end in
  on_ledger (cur_reserve who asset amount).

Definition unreserve_funds (who : AccountId) (asset : AssetId) (amount : Balance) (s : State) : State :=
  set_ledger (fun l => (cur_unreserve who asset amount l).2) s.

Definition bid (origin : Origin) (listing_id : ListingId) (amount : Balance) : D State unit :=
  transactional (
    let* who := ensure_signed origin in
    let* listing := gets (fun s => Listings s !! listing_id) in
    match listing with
    | Some (Auction listing) =>
        let* current := gets (fun s => ListingWinningBid s !! listing_id) in
        do* match current with
            | Some current_bid => ensure (current_bid.2 <? amount) (Nft NftError.BidTooLow)
            | None => ensure (au_reserve_price listing <=? amount) (Nft NftError.BidTooLow)
            end in
        do* lock_funds who (au_payment_asset listing) amount in
        do* match current with
            | Some current_bid => modify (unreserve_funds current_bid.1 (au_payment_asset listing) current_bid.2)
            | None => ret tt
            end in
        do* modify (set_ListingWinningBid (insert listing_id (who, amount))) in
        let* current_block := gets block_number in
        let listing_end_block := au_close listing in
        let blocks_till_close := wrapping_sub 32 listing_end_block current_block in
        let new_closing_block := wrapping_add 32 current_block AUCTION_EXTENSION_PERIOD in
        do* (if blocks_till_close <=? AUCTION_EXTENSION_PERIOD then
          do* modify (set_ListingEndSchedule (delete (listing_end_block, listing_id))) in
          do* modify (set_ListingEndSchedule (insert (new_closing_block, listing_id) true)) in
          modify (set_Listings (insert listing_id (Auction
            {| au_payment_asset := au_payment_asset listing; au_reserve_price := au_reserve_price listing;
               au_close := new_closing_block; au_seller := au_seller listing; au_tokens := au_tokens listing;
               au_royalties_schedule := au_royalties_schedule listing;
               au_marketplace_id := au_marketplace_id listing |})))
        else ret tt) in
        let* '(collection_id, _series, _serial) := first_token (au_tokens listing) in
        deposit_event (Bid collection_id listing_id amount)
    | _ => fail (Nft NftError.NotForAuction)
    end).

(** Removes a listing and everything that refers to it. *)
Definition close_listing (listing_id : ListingId) (close : BlockNumber) (tokens : list TokenId)
    (closed : CollectionId -> Event) : D State unit :=
  do* modify (set_Listings (delete listing_id)) in
  do* modify (set_ListingEndSchedule (delete (close, listing_id))) in
  do* modify (unlock_tokens tokens) in
  let* '(collection_id, _series, _serial) := first_token tokens in
  do* modify (set_OpenCollectionListings (delete (collection_id, listing_id))) in
  deposit_event (closed collection_id).

Definition cancel_sale (origin : Origin) (listing_id : ListingId) : D State unit :=
  let* who := ensure_signed origin in
  let* listing := gets (fun s => Listings s !! listing_id) in
  match listing with
  | Some (FixedPrice sale) =>
      do* ensure (fp_seller sale =? who) (Nft NftError.NoPermission) in
      close_listing listing_id (fp_close sale) (fp_tokens sale) (fun c => FixedPriceSaleClosed c listing_id)
  | Some (Auction auction) =>
      do* ensure (au_seller auction =? who) (Nft NftError.NoPermission) in
      let* winning := gets (fun s => ListingWinningBid s !! listing_id) in
      do* ensure (bool_decide (winning = None)) (Nft NftError.TokenListingProtection) in
      close_listing listing_id (au_close auction) (au_tokens auction)
        (fun c => AuctionClosed c listing_id VendorCancelled)
  | None => ret tt
  end.

(** ** Settlement of auctions and accepted offers *)

(** The royalty loop: pays out of the buyer's reserve and returns what is left
    for the seller. *)
Fixpoint repatriate_entitlements (buyer : AccountId) (asset : AssetId) (amount : Balance)
    (l : list (AccountId * Permill)) (for_seller : Balance) : D State Balance :=
  match l with
  | [] => ret for_seller
  | (who, entitlement) :: l =>
      let royalty := permill_mul entitlement amount in
      do* modify (set_ledger (fun st => (cur_repatriate_reserved buyer asset who royalty st).2)) in
      repatriate_entitlements buyer asset amount l (wrapping_sub BALANCE_BITS for_seller royalty)
  end.

Definition process_payment_and_transfer (buyer seller : AccountId) (asset_id : AssetId) (token_ids : list TokenId)
    (amount : Balance) (royalties_schedule : RoyaltiesSchedule) : D State unit :=
  transactional (
    let for_royalties := permill_mul (calculate_total_entitlement royalties_schedule) amount in
    let* for_seller :=
      if negb (for_royalties =? 0)
      then repatriate_entitlements buyer asset_id amount (entitlements royalties_schedule) amount
      else ret amount in
    let* seller_balance := gets (fun s => cur_free_balance seller asset_id (ledger s)) in
    do* modify (set_ledger (fun st => (cur_repatriate_reserved buyer asset_id seller for_seller st).2)) in
    let* new_balance := gets (fun s => cur_free_balance seller asset_id (ledger s)) in
    do* ensure (saturating_add BALANCE_BITS seller_balance for_seller <=? new_balance)
      (Nft NftError.InternalPayment) in
    let* '(collection_id, series_id, _serial) := first_token token_ids in
    do_transfer_unchecked collection_id series_id ((fun token : TokenId => token.2) <$> token_ids) seller buyer).

(** One listing that closes; settlement errors release the winner's funds. *)
Definition close_expired (listing_id : ListingId) : D State unit :=
  let* listing := gets (fun s => Listings s !! listing_id) in
  do* modify (set_Listings (delete listing_id)) in
  match listing with
  | Some (FixedPrice listing) =>
      do* modify (unlock_tokens (fp_tokens listing)) in
      let* '(collection_id, _series, _serial) := first_token (fp_tokens listing) in
      do* modify (set_OpenCollectionListings (delete (collection_id, listing_id))) in
      deposit_event (FixedPriceSaleClosed collection_id listing_id)
  | Some (Auction listing) =>
      do* modify (unlock_tokens (au_tokens listing)) in
      let* '(collection_id, _series, _serial) := first_token (au_tokens listing) in
      do* modify (set_OpenCollectionListings (delete (collection_id, listing_id))) in
      let* winning := gets (fun s => ListingWinningBid s !! listing_id) in
      do* modify (set_ListingWinningBid (delete listing_id)) in
      match winning with
      | Some (winner, hammer_price) =>
          fun s =>
            match process_payment_and_transfer winner (au_seller listing) (au_payment_asset listing)
                    (au_tokens listing) hammer_price (au_royalties_schedule listing) s with
            | (Ok _, s') =>
                deposit_event (AuctionSold collection_id listing_id (au_payment_asset listing) hammer_price winner) s'
            | (Err _, s') =>
                (do* modify (unreserve_funds winner (au_payment_asset listing) hammer_price) in
                 deposit_event (AuctionClosed collection_id listing_id SettlementFailed)) s'
            | (Panic, s') => (Panic, s')
            end
      | None => deposit_event (AuctionClosed collection_id listing_id ExpiredNoBids)
      end
  | None => ret tt
  end.

(** The listings scheduled to close at a block, [drain_prefix(now)]. *)
Definition scheduled_at (now : BlockNumber) (s : State) : list ListingId :=
  (fun kv : (BlockNumber * ListingId) * bool => kv.1.2) <$>
    filter (fun kv : (BlockNumber * ListingId) * bool => kv.1.1 = now) (map_to_list (ListingEndSchedule s)).

Definition close_listings_at (now : BlockNumber) : D State Z :=
  let* ids := gets (scheduled_at now) in
  do* for_each ids (fun listing_id =>
    do* modify (set_ListingEndSchedule (delete (now, listing_id))) in
    close_expired listing_id) in
  ret (wrap 32 (Z.of_nat (length ids))).

Definition on_initialize (now : BlockNumber) : D State Z := close_listings_at now.

(** ** Offers *)
Definition make_simple_offer (origin : Origin) (token : TokenId) (amount : Balance) (asset_id : AssetId)
    (marketplace_id : option MarketplaceId) : D State unit :=
  transactional (
    let* who := ensure_signed origin in
    do* ensure (negb (amount =? 0)) (Nft NftError.ZeroOffer) in
    let* owner := gets (token_owner token) in
    do* ensure (negb (owner =? who)) (Nft NftError.IsTokenOwner) in
    let* offer_id := gets NextOfferId in
    do* ensure (bool_decide (is_Some (checked_add OFFER_BITS offer_id 1))) (Nft NftError.NoAvailableIds) in
    let* lock := gets (fun s => TokenLocks s !! token) in
    do* match lock with
        | Some (Listed listing_id) =>
            let* listing := gets (fun s => Listings s !! listing_id) in
            match listing with
            | Some (Auction _) => fail (Nft NftError.TokenOnAuction)
            | None | Some (FixedPrice _) => ret tt
            end
        | None => ret tt
        end in
    do* lock_funds who asset_id amount in
    do* modify (fun s => set_TokenOffers (insert token (sget [] token (TokenOffers s) ++ [offer_id])) s) in
    do* modify (set_Offers (insert offer_id (Simple
      {| of_token_id := token; of_asset_id := asset_id; of_amount := amount; of_buyer := who;
         of_marketplace_id := marketplace_id |}))) in
    do* modify (set_NextOfferId (fun i => wrapping_add OFFER_BITS i 1)) in
    deposit_event (OfferMade offer_id amount asset_id marketplace_id who)).

(** [TokenOffers::mutate(token, |offers| offers.binary_search(&id).map(|idx| offers.remove(idx)).unwrap())] *)
Definition remove_token_offer (token : TokenId) (offer_id : OfferId) : D State unit :=
  let* offers := gets (fun s => sget [] token (TokenOffers s)) in
  match binary_search offers offer_id with
  | inl idx => modify (set_TokenOffers (insert token (delete idx offers)))
  | inr _ => panic
  end.

Definition cancel_offer (origin : Origin) (offer_id : OfferId) : D State unit :=
  let* who := ensure_signed origin in
  let* offer := gets (fun s => Offers s !! offer_id) in
  match offer with
  | Some (Simple offer) =>
      do* ensure (of_buyer offer =? who) (Nft NftError.NotBuyer) in
      do* modify (unreserve_funds who (of_asset_id offer) (of_amount offer)) in
      do* modify (set_Offers (delete offer_id)) in
      do* remove_token_offer (of_token_id offer) offer_id in
      deposit_event (OfferCancelled offer_id)
  | None => fail (Nft NftError.InvalidOffer)
  end.

Definition accept_offer (origin : Origin) (offer_id : OfferId) : D State unit :=
  transactional (
    let* who := ensure_signed origin in
    let* offer := gets (fun s => Offers s !! offer_id) in
    match offer with
    | Some (Simple offer) =>
        let token := of_token_id offer in
        let* owner := gets (token_owner token) in
        do* ensure (owner =? who) (Nft NftError.NoPermission) in
        let* royalties_schedule := check_bundle_royalties [token] (of_marketplace_id offer) in
        do* process_payment_and_transfer (of_buyer offer) who (of_asset_id offer) [token] (of_amount offer)
          royalties_schedule in
        do* modify (set_Offers (delete offer_id)) in
        do* remove_token_offer token offer_id in
        deposit_event (OfferAccepted offer_id)
    | None => fail (Nft NftError.InvalidOffer)
    end).

(** ** Repairing token balances *)

(** The owners of the tokens up to a serial number, with how many each owns. *)
Definition count_owners (collection_id : CollectionId) (series_id : SeriesId) (token_count : TokenCount) (s : State)
    : gmap AccountId TokenCount :=
  foldl (fun m n =>
    let owner := token_owner (collection_id, series_id, n) s in
    <[owner := wrapping_add ID_BITS (sget 0 owner m) 1]> m) ∅ (seqZ 0 token_count).

Definition update_token_balance (origin : Origin) (collection_id : CollectionId) (series_id : SeriesId)
    : D State unit :=
  transactional (
    do* ensure_signed origin in
    let* owners := gets CollectionOwner in
    do* ensure (bool_decide (is_Some (owners !! collection_id))) (Nft NftError.NoCollection) in
    let* exists_ := gets (series_exists collection_id series_id) in
    do* ensure exists_ (Nft NftError.NoSeries) in
    let* token_count := gets (fun s => sget 0 (collection_id, series_id) (NextSerialNumber s)) in
    do* ensure (0 <? token_count) (Nft NftError.NoToken) in
    let* counts := gets (count_owners collection_id series_id token_count) in
    do* for_each (map_to_list counts) (fun '(account, balance) =>
      modify (fun s => set_TokenBalance
        (insert account (<[(collection_id, series_id) := balance]> (token_balance account s))) s)) in
    deposit_event (TokenBalancesUpdated collection_id series_id)).

(** ** Queries *)
Definition collection_info (collection_id : CollectionId) (s : State) : option CollectionInfo :=
  let name := sget [] collection_id (CollectionName s) in
  let owner := sget default_account collection_id (CollectionOwner s) in
  if bool_decide (name = []) then None
  else Some {| ci_name := name; ci_owner := owner;
               ci_royalties := match CollectionRoyalties s !! collection_id with
                               | Some r => entitlements r
                               | None => []
                               end |}.

Definition token_info (collection_id : CollectionId) (series_id : SeriesId) (serial_number : SerialNumber) (s : State)
    : TokenInfo :=
  {| ti_attributes := sget [] (collection_id, series_id) (SeriesAttributes s);
     ti_owner := token_owner (collection_id, series_id, serial_number) s;
     ti_royalties := match SeriesRoyalties s !! (collection_id, series_id) with
                     | Some r => entitlements r
                     | None => match CollectionRoyalties s !! collection_id with
                               | Some r => entitlements r
                               | None => []
                               end
                     end |}.
End Nft.

#[global] Arguments State L A : clear implicits.
