(* ===== verification/NftProps.v ===== *)
(** * NFT pallet: token bookkeeping

    The books of the pallet: [TokenBalance] and [SeriesIssuance] count what
    [TokenOwner] records. Minting, transferring distinct tokens and burning
    keep them. *)

From S2P Require Import Prelude Support GenericAssetTypes MultiCurrency Search NftTypes Nft.

Section Props.
Context {L A : Type} {cur : MultiCurrency L} {sub : OnTransfer A} {permill : PermillOps} {config : NftConfig}.
Implicit Types (s : State L A) (who : AccountId) (key : CollectionId * SeriesId) (ns : list SerialNumber).

(** A series key and serial number as a token identifier. *)
Definition token_of key (n : SerialNumber) : TokenId := (key.1, key.2, n).

Definition is_owned who key (t : TokenId) (o : AccountId) : Z :=
  if decide (t.1 = key /\ o = who) then 1 else 0.
Definition in_series key (t : TokenId) (o : AccountId) : Z := if decide (t.1 = key) then 1 else 0.

(** How many tokens of a series an account owns, and how many exist. *)
Definition owned who key (m : gmap TokenId AccountId) : Z := msum (is_owned who key) m.
Definition supply key (m : gmap TokenId AccountId) : Z := msum (in_series key) m.

Definition balance_of who key s : Z := sget 0 key (token_balance who s).
Definition issuance key s : Z := sget 0 key (SeriesIssuance s).
Definition next_serial key s : Z := sget 0 key (NextSerialNumber s).

Record books s : Prop := {
  books_balance : forall who key, balance_of who key s = owned who key (TokenOwner s);
  books_issuance : forall key, issuance key s = supply key (TokenOwner s);
  books_supply : forall key, supply key (TokenOwner s) <= next_serial key s <= umax ID_BITS;
  books_serial : forall t o, TokenOwner s !! t = Some o -> 0 <= t.2 < next_serial t.1 s;
  books_series : forall c, 0 <= sget 0 c (NextSeriesId s) /\
    forall x, sget 0 c (NextSeriesId s) <= x -> NextSerialNumber s !! (c, x) = None;
}.

(** ** Counting *)
Lemma is_owned_bounds who key t o : 0 <= is_owned who key t o <= in_series key t o.
Proof. unfold is_owned, in_series. repeat case_decide; naive_solver lia. Qed.

Lemma owned_nonneg who key m : 0 <= owned who key m.
Proof. apply msum_nonneg. intros t o _. apply is_owned_bounds. Qed.

Lemma supply_nonneg key m : 0 <= supply key m.
Proof. apply msum_nonneg. intros t o _. unfold in_series. case_decide; lia. Qed.

Lemma owned_le_supply who key m : owned who key m <= supply key m.
Proof.
  induction m as [|t o m Ht IH] using map_ind; [done|].
  unfold owned, supply in *. rewrite !msum_insert_fresh by done. pose proof (is_owned_bounds who key t o). lia.
Qed.

(** Giving a token of [from] to [to]. *)
Lemma owned_give who key t from to m : m !! t = Some from ->
  owned who key (<[t := to]> m) = owned who key m - is_owned who key t from + is_owned who key t to.
Proof. intros Ht. unfold owned. rewrite msum_insert. unfold mval. by rewrite Ht. Qed.

Lemma supply_give key t from to m : m !! t = Some from -> supply key (<[t := to]> m) = supply key m.
Proof. intros Ht. unfold supply. rewrite msum_insert. unfold mval. rewrite Ht. unfold in_series. lia. Qed.

(** Handing out or taking away a list of distinct tokens. *)
Definition give (key : CollectionId * SeriesId) (to : AccountId) ns (m : gmap TokenId AccountId) : gmap TokenId AccountId :=
  foldl (fun m n => <[token_of key n := to]> m) m ns.
Definition take_away (key : CollectionId * SeriesId) ns (m : gmap TokenId AccountId) : gmap TokenId AccountId :=
  foldl (fun m n => delete (token_of key n) m) m ns.

Lemma token_of_inj key n n' : token_of key n = token_of key n' -> n = n'.
Proof. unfold token_of. congruence. Qed.

Lemma token_of_key key n : (token_of key n).1 = key.
Proof. by destruct key. Qed.

Lemma give_lookup key to ns m t : give key to ns m !! t =
  if decide (t.1 = key /\ t.2 ∈ ns) then Some to else m !! t.
Proof.
  revert m. induction ns as [|n ns IH]; intros m; simpl.
  - case_decide as H; [|done]. destruct H as [_ H]. by apply not_elem_of_nil in H.
  - rewrite IH. destruct (decide (t = token_of key n)) as [->|Hne].
    + rewrite lookup_insert_eq, token_of_key. simpl. repeat case_decide; set_solver.
    + rewrite lookup_insert_ne by done. destruct (decide (t.1 = key /\ t.2 ∈ ns)) as [[H1 H2]|H].
      * rewrite decide_True; [done|]. split; [done|by right].
      * rewrite decide_False; [done|]. intros [H1 H2]. apply H. split; [done|].
        apply elem_of_cons in H2 as [H2|H2]; [|done]. destruct Hne. destruct t as [[c x] k]. simpl in *.
        subst. done.
Qed.

Lemma take_away_lookup key ns m t : take_away key ns m !! t =
  if decide (t.1 = key /\ t.2 ∈ ns) then None else m !! t.
Proof.
  revert m. induction ns as [|n ns IH]; intros m; simpl.
  - case_decide as H; [|done]. destruct H as [_ H]. by apply not_elem_of_nil in H.
  - rewrite IH. destruct (decide (t = token_of key n)) as [->|Hne].
    + rewrite lookup_delete_eq, token_of_key. simpl. repeat case_decide; set_solver.
    + rewrite lookup_delete_ne by done. destruct (decide (t.1 = key /\ t.2 ∈ ns)) as [[H1 H2]|H].
      * rewrite decide_True; [done|]. split; [done|by right].
      * rewrite decide_False; [done|]. intros [H1 H2]. apply H. split; [done|].
        apply elem_of_cons in H2 as [H2|H2]; [|done]. destruct Hne. destruct t as [[c x] k]. simpl in *.
        subst. done.
Qed.

(** One token of the series counts for its owner only. *)
Lemma is_owned_token who key key' n o :
  is_owned who key' (token_of key n) o = if decide (key = key' /\ o = who) then 1 else 0.
Proof. unfold is_owned. by rewrite token_of_key. Qed.

Lemma owned_give_all who key key' from to ns m : NoDup ns ->
  (forall n, n ∈ ns -> m !! token_of key n = Some from) ->
  owned who key' (give key to ns m) = owned who key' m +
    Z.of_nat (length ns) * ((if decide (key = key' /\ to = who) then 1 else 0) -
                            (if decide (key = key' /\ from = who) then 1 else 0)) /\
  supply key' (give key to ns m) = supply key' m.
Proof.
  intros Hnd. revert m. induction Hnd as [|n ns Hn Hnd IH]; intros m Hm; simpl; [lia|].
  assert (Ht : m !! token_of key n = Some from) by (apply Hm; left).
  destruct (IH (<[token_of key n := to]> m)) as [-> ->].
  { intros k Hk. rewrite lookup_insert_ne; [apply Hm; by right|]. intros ->%token_of_inj. done. }
  rewrite (owned_give who key' _ from to m Ht), (supply_give key' _ from to m Ht), !is_owned_token. lia.
Qed.

Lemma owned_take_all who key key' from ns m : NoDup ns ->
  (forall n, n ∈ ns -> m !! token_of key n = Some from) ->
  owned who key' (take_away key ns m) = owned who key' m -
    Z.of_nat (length ns) * (if decide (key = key' /\ from = who) then 1 else 0) /\
  supply key' (take_away key ns m) = supply key' m - Z.of_nat (length ns) * (if decide (key = key') then 1 else 0).
Proof.
  intros Hnd. revert m. induction Hnd as [|n ns Hn Hnd IH]; intros m Hm; simpl; [lia|].
  assert (Ht : m !! token_of key n = Some from) by (apply Hm; left).
  destruct (IH (delete (token_of key n) m)) as [-> ->].
  { intros k Hk. rewrite lookup_delete_ne; [apply Hm; by right|]. intros ->%token_of_inj. done. }
  unfold owned, supply. rewrite !msum_delete. unfold mval. rewrite Ht, is_owned_token.
  unfold in_series. rewrite token_of_key. lia.
Qed.

(** Handing out tokens that did not exist. *)
Lemma owned_mint_all who key key' to ns m : NoDup ns ->
  (forall n, n ∈ ns -> m !! token_of key n = None) ->
  owned who key' (give key to ns m) = owned who key' m +
    Z.of_nat (length ns) * (if decide (key = key' /\ to = who) then 1 else 0) /\
  supply key' (give key to ns m) = supply key' m + Z.of_nat (length ns) * (if decide (key = key') then 1 else 0).
Proof.
  intros Hnd. revert m. induction Hnd as [|n ns Hn Hnd IH]; intros m Hm; simpl; [lia|].
  assert (Ht : m !! token_of key n = None) by (apply Hm; left).
  destruct (IH (<[token_of key n := to]> m)) as [-> ->].
  { intros k Hk. rewrite lookup_insert_ne; [apply Hm; by right|]. intros ->%token_of_inj. done. }
  unfold owned, supply. rewrite !msum_insert_fresh by done. rewrite is_owned_token.
  unfold in_series. rewrite token_of_key. lia.
Qed.

Lemma owned_at_least key from ns m : NoDup ns -> (forall n, n ∈ ns -> m !! token_of key n = Some from) ->
  Z.of_nat (length ns) <= owned from key m.
Proof.
  intros Hnd Hm. destruct (owned_take_all from key key from ns m Hnd Hm) as [Ho _].
  rewrite decide_True in Ho by done. pose proof (owned_nonneg from key (take_away key ns m)). lia.
Qed.

(** ** What the operations do *)

(** The state after the tokens [ns] of a series went from [from] to [to]. *)
Definition reassigned key (to : AccountId) ns s : State L A :=
  set_subscriber (fun a => foldl (fun a n => on_nft_transfer (token_of key n) a) a ns)
    (set_TokenOwner (give key to ns) s).

Definition debited who key (q : TokenCount) s : State L A :=
  match token_balance who s !! key with
  | Some b => set_TokenBalance (insert who (if saturating_sub b q =? 0 then delete key (token_balance who s)
                                            else <[key := saturating_sub b q]> (token_balance who s))) s
  | None => s
  end.

Definition quantity ns : TokenCount := wrap ID_BITS (Z.of_nat (length ns)).

Definition transferred key ns (from to : AccountId) s : State L A :=
  credit_tokens to key (quantity ns) (debited from key (quantity ns) (reassigned key to ns s)).

Lemma do_transfer_eq c x ns from to s :
  do_transfer_unchecked c x ns from to s = (Ok tt, transferred (c, x) ns from to s).
Proof.
  unfold do_transfer_unchecked. unfold bind at 1.
  assert (Hl : for_each (E := DispatchError) ns (fun n =>
      do* modify (set_TokenOwner (insert (c, x, n) to)) in
      modify (set_subscriber (on_nft_transfer (c, x, n)))) s = (Ok tt, reassigned (c, x) to ns s)).
  { revert s. induction ns as [|n ns IH]; intros s; simpl.
    - unfold reassigned. simpl. by destruct s.
    - unfold bind at 1 2, modify. rewrite IH. done. }
  rewrite Hl. unfold transferred, debited, bind, ignore_err, debit_tokens, gets, modify, quantity. simpl.
  unfold bind, fail. simpl. by destruct (token_balance from (reassigned (c, x) to ns s) !! (c, x)).
Qed.

Lemma balance_debited who key q b who' key' s : token_balance who s !! key = Some b -> 0 <= q <= b ->
  balance_of who' key' (debited who key q s) =
  balance_of who' key' s - (if decide (key = key' /\ who = who') then q else 0).
Proof.
  intros Hb Hq. unfold debited. rewrite Hb. unfold balance_of, token_balance at 1, sget. simpl.
  unfold saturating_sub. rewrite Z.max_r by lia.
  destruct (decide (who = who')) as [->|Hw].
  - rewrite lookup_insert_eq. simpl. destruct (decide (key = key')) as [->|Hk].
    + rewrite decide_True by done. unfold token_balance, sget in *. rewrite Hb. simpl.
      destruct (Z.eqb_spec (b - q) 0); [rewrite lookup_delete_eq; simpl; lia | by rewrite lookup_insert_eq].
    + rewrite decide_False by naive_solver. unfold token_balance, sget.
      destruct (_ =? _); [rewrite lookup_delete_ne by done | rewrite lookup_insert_ne by done]; lia.
  - rewrite lookup_insert_ne, decide_False by naive_solver. unfold token_balance, sget. lia.
Qed.

Lemma balance_credited who key q who' key' s :
  balance_of who' key' (credit_tokens who key q s) =
  if decide (key = key' /\ who = who') then wrapping_add ID_BITS (balance_of who' key' s) q else balance_of who' key' s.
Proof.
  unfold credit_tokens, balance_of, token_balance at 1, sget. simpl.
  destruct (decide (who = who')) as [->|Hw].
  - rewrite lookup_insert_eq. simpl. destruct (decide (key = key')) as [->|Hk].
    + rewrite lookup_insert_eq, decide_True by done. done.
    + rewrite lookup_insert_ne, decide_False by naive_solver. done.
  - rewrite lookup_insert_ne, decide_False by naive_solver. done.
Qed.

Lemma quantity_small ns : Z.of_nat (length ns) <= umax ID_BITS -> quantity ns = Z.of_nat (length ns).
Proof. intros H. apply wrap_small. unfold in_range. lia. Qed.

Lemma owned_bound who key s : books s -> 0 <= owned who key (TokenOwner s) <= umax ID_BITS.
Proof.
  intros Hs. pose proof (owned_nonneg who key (TokenOwner s)). pose proof (owned_le_supply who key (TokenOwner s)).
  pose proof (books_supply s Hs key). lia.
Qed.

(** Transferring distinct tokens of [from] keeps the books. *)
Lemma books_transferred key ns from to s : books s -> ns <> [] -> NoDup ns ->
  (forall n, n ∈ ns -> TokenOwner s !! token_of key n = Some from) -> books (transferred key ns from to s).
Proof.
  intros Hs Hne Hnd Hm.
  pose proof (owned_at_least key from ns _ Hnd Hm) as Hlen. pose proof (owned_bound from key s Hs) as Hb.
  assert (Hpos : 0 < Z.of_nat (length ns)) by (destruct ns; [done | simpl; lia]).
  assert (Hq : quantity ns = Z.of_nat (length ns)) by (apply quantity_small; lia).
  pose proof (books_balance s Hs from key) as Hbal.
  assert (Hsome : exists b, token_balance from s !! key = Some b /\ b = owned from key (TokenOwner s)).
  { unfold balance_of, sget in Hbal. destruct (token_balance from s !! key) as [b|]; simpl in Hbal; [eauto | lia]. }
  destruct Hsome as (b & Hb1 & Hb2).
  assert (Hsup : forall k, supply k (give key to ns (TokenOwner s)) = supply k (TokenOwner s)).
  { intros k. by destruct (owned_give_all from key k from to ns (TokenOwner s) Hnd Hm). }
  assert (Hdeb : forall w k, balance_of w k (debited from key (quantity ns) (reassigned key to ns s)) =
            owned w k (TokenOwner s) - (if decide (key = k /\ from = w) then Z.of_nat (length ns) else 0)).
  { intros w k. rewrite Hq. rewrite (balance_debited from key _ b) by (done || lia).
    change (balance_of w k (reassigned key to ns s)) with (balance_of w k s). by rewrite (books_balance s Hs). }
  assert (Hown : TokenOwner (transferred key ns from to s) = give key to ns (TokenOwner s)).
  { unfold transferred, credit_tokens, debited. simpl. by destruct (_ !! key). }
  assert (Hrest : SeriesIssuance (transferred key ns from to s) = SeriesIssuance s /\
                  NextSerialNumber (transferred key ns from to s) = NextSerialNumber s /\
                  NextSeriesId (transferred key ns from to s) = NextSeriesId s).
  { unfold transferred, credit_tokens, debited. simpl. by destruct (_ !! key). }
  destruct Hrest as (H1 & H2 & H3). split; unfold issuance, next_serial; rewrite ?Hown, ?H1, ?H2, ?H3.
  - intros w k. unfold transferred. rewrite balance_credited, Hdeb, Hq.
    destruct (owned_give_all w key k from to ns (TokenOwner s) Hnd Hm) as [Ho _]. rewrite Ho.
    assert (Hw : owned w k (give key to ns (TokenOwner s)) <= supply k (give key to ns (TokenOwner s)))
      by apply owned_le_supply.
    rewrite Hsup in Hw. pose proof (books_supply s Hs k). pose proof (owned_bound w k s Hs).
    destruct (decide (key = k /\ to = w)), (decide (key = k /\ from = w)); try lia;
      unfold wrapping_add; rewrite wrap_small by (unfold in_range; lia); lia.
  - intros k. rewrite Hsup. by apply books_issuance.
  - intros k. rewrite Hsup. by apply books_supply.
  - intros t o. rewrite give_lookup. case_decide as Ht; [|by apply books_serial].
    intros _. destruct Ht as [<- Ht]. destruct t as [[c x] n]. simpl in *.
    by apply (books_serial s Hs (c, x, n) from), (Hm n).
  - by apply books_series.
Qed.

(** ** Frames: the storage the books are about *)
Record same_tokens s (s' : State L A) : Prop := {
  st_owner : TokenOwner s' = TokenOwner s;
  st_balance : TokenBalance s' = TokenBalance s;
  st_issuance : SeriesIssuance s' = SeriesIssuance s;
  st_serial : NextSerialNumber s' = NextSerialNumber s;
  st_series : NextSeriesId s' = NextSeriesId s;
}.

Lemma nft_books_frame s s' : same_tokens s s' -> books s -> books s'.
Proof.
  intros [H1 H2 H3 H4 H5] [B1 B2 B3 B4 B5].
  split; unfold balance_of, token_balance, issuance, next_serial; rewrite ?H1, ?H2, ?H3, ?H4, ?H5; done.
Qed.

Lemma books_set_events f s : books s -> books (set_events f s).
Proof. by apply nft_books_frame. Qed.

Lemma same_tokens_refl s : same_tokens s s.
Proof. done. Qed.

Lemma same_tokens_trans s t u : same_tokens s t -> same_tokens t u -> same_tokens s u.
Proof. intros [] []. split; congruence. Qed.

Lemma frame_bind {B C} s (m : D (State L A) B) (k : B -> D (State L A) C) :
  preserves (same_tokens s) m -> (forall b, preserves (same_tokens s) (k b)) -> preserves (same_tokens s) (bind m k).
Proof. apply preserves_bind. Qed.

Lemma frame_on_ledger {B} s (m : D L B) : preserves (same_tokens s) (on_ledger m).
Proof. intros t Ht. unfold on_ledger. destruct (m (ledger t)) as [r l]. simpl. destruct Ht. by constructor. Qed.

Lemma frame_ret {B} s (b : B) : preserves (same_tokens s) (ret (E := DispatchError) b).
Proof. by intros t Ht. Qed.

Lemma frame_offset s i d : preserves (same_tokens s) (offset_or_fail i d).
Proof. intros t Ht. unfold offset_or_fail. by destruct (ni_offset i d). Qed.

Lemma frame_set_ledger s f : preserves (same_tokens s) (modify (E := DispatchError) (set_ledger f)).
Proof. intros t Ht. destruct Ht. by constructor. Qed.

Lemma frame_pay_entitlements s asset price l i v : preserves (same_tokens s) (pay_entitlements asset price l i v).
Proof.
  revert i v. induction l as [|[w e] l IH]; intros i v; [apply frame_ret|]. simpl.
  apply frame_bind; [apply frame_on_ledger | intros d]. apply frame_bind; [apply frame_offset | intros i']. apply IH.
Qed.

Lemma frame_pay_for_listing s buyer l : preserves (same_tokens s) (pay_for_listing buyer l).
Proof.
  unfold pay_for_listing. destruct (_ =? 0); [apply frame_on_ledger|].
  apply frame_bind; [apply frame_on_ledger | intros i]. apply frame_bind; [apply frame_pay_entitlements | intros [i' v]].
  apply frame_bind; [apply frame_on_ledger | intros d]. apply frame_bind; [apply frame_offset | intros i''].
  apply frame_set_ledger.
Qed.

Lemma frame_repatriate s buyer asset amount l v : preserves (same_tokens s) (repatriate_entitlements buyer asset amount l v).
Proof.
  revert v. induction l as [|[w e] l IH]; intros v; [apply frame_ret|]. simpl.
  apply frame_bind; [apply frame_set_ledger | intros _]. apply IH.
Qed.

Lemma unlock_tokens_frame ts s : same_tokens s (unlock_tokens ts s).
Proof.
  revert s. induction ts as [|t ts IH]; intros s; [done|]. simpl.
  eapply same_tokens_trans; [|apply IH]. done.
Qed.

(** ** Checked tokens *)
Lemma ensure_movable_reader who t s : (ensure_movable who t s).2 = s.
Proof. unfold ensure_movable. run_dispatch. Qed.

Lemma ensure_movable_Ok who t s s' : ensure_movable who t s = (Ok tt, s') ->
  TokenLocks s !! t = None /\ token_owner t s = who.
Proof.
  unfold ensure_movable, is_locked, bind, gets, ensure, ret, fail. case_bool_decide as Hl; simpl; [done|].
  destruct (Z.eqb_spec (token_owner t s) who); [|done]. intros _. split; [|done].
  destruct (TokenLocks s !! t); [|done]. destruct Hl. by eexists.
Qed.

(** An owner other than the default account really holds the token. *)
Lemma token_owner_Some who t s : who <> default_account -> token_owner t s = who -> TokenOwner s !! t = Some who.
Proof. unfold token_owner, sget. intros Hw. destruct (TokenOwner s !! t); simpl; congruence. Qed.

Lemma transactional_Ok {B} (m : D (State L A) B) b s s' : transactional m s = (Ok b, s') -> m s = (Ok b, s').
Proof. unfold transactional. destruct (m s) as [[|e|] t]; congruence. Qed.

Lemma transfer_batch_Ok who c x ns to s s' : who <> default_account ->
  transfer_batch (Signed who) c x ns to s = (Ok tt, s') ->
  ns <> [] /\ (forall n, n ∈ ns -> TokenLocks s !! (c, x, n) = None /\ TokenOwner s !! (c, x, n) = Some who) /\
  s' = set_events (fun es => es ++ [Transfer who c x ns to]) (transferred (c, x) ns who to s).
Proof.
  intros Hw H%transactional_Ok. unfold bind at 1, ensure_signed, ret at 1 in H. unfold bind at 1, ensure in H.
  case_bool_decide as Hne; [done|]. simpl in H. unfold bind at 1 in H.
  destruct (for_each ns _ s) as [[[]|e|] s1] eqn:Hl; try done.
  apply for_each_check in Hl as [-> Hl]; [|intros n; apply ensure_movable_reader].
  unfold bind in H. rewrite do_transfer_eq in H. unfold deposit_event, modify in H. injection H as <-.
  split_and!; [done| |done]. intros n Hn. apply Hl, ensure_movable_Ok in Hn as [H1 H2].
  split; [done | by apply token_owner_Some].
Qed.

(** ** Burning *)
Lemma burn_loop who c x ns s s' : who <> default_account ->
  for_each (E := DispatchError) ns (fun n =>
    do* ensure_movable who (c, x, n) in
    modify (set_TokenOwner (delete (c, x, n)))) s = (Ok tt, s') ->
  s' = set_TokenOwner (take_away (c, x) ns) s /\ NoDup ns /\
  forall n, n ∈ ns -> TokenLocks s !! (c, x, n) = None /\ TokenOwner s !! (c, x, n) = Some who.
Proof.
  intros Hw. revert s. induction ns as [|n ns IH]; intros s; simpl.
  - intros [= <-]. split_and!; [by destruct s | constructor |]. intros n Hn. by apply not_elem_of_nil in Hn.
  - unfold bind at 1 2. pose proof (ensure_movable_reader who (c, x, n) s) as Hr.
    destruct (ensure_movable who (c, x, n) s) as [[[]|e|] s1] eqn:E; simpl in Hr; subst s1; try done.
    apply ensure_movable_Ok in E as [Hlock Hown]. apply token_owner_Some in Hown; [|done].
    unfold modify at 1. intros (-> & Hnd & Hns)%IH. simpl in Hns.
    assert (Hn : n ∉ ns). { intros Hn. destruct (Hns n Hn) as [_ H]. by rewrite lookup_delete_eq in H. }
    split_and!; [done | by constructor |].
    intros k [->|Hk]%elem_of_cons; [done|]. destruct (Hns k Hk) as [H1 H2]. split; [done|].
    by apply lookup_delete_Some in H2 as [_ H2].
Qed.

(** The issuance entry of a series after [q] of its tokens are burned. *)
Definition after_burn key (q : TokenCount) s : State L A :=
  let i := issuance key s in
  if saturating_sub i q =? 0 then
    set_SeriesRoyalties (delete key) (set_SeriesMetadataScheme (delete key)
      (set_SeriesIssuance (delete key) (set_SeriesAttributes (delete key) s)))
  else set_SeriesIssuance (insert key (saturating_sub i q)) s.

Lemma burn_batch_Ok who c x ns s s' : who <> default_account ->
  burn_batch (Signed who) c x ns s = (Ok tt, s') ->
  ns <> [] /\ NoDup ns /\
  (forall n, n ∈ ns -> TokenLocks s !! (c, x, n) = None /\ TokenOwner s !! (c, x, n) = Some who) /\
  s' = set_events (fun es => es ++ [Burn c x ns])
         (after_burn (c, x) (quantity ns) (debited who (c, x) (quantity ns) (set_TokenOwner (take_away (c, x) ns) s))).
Proof.
  intros Hw H%transactional_Ok. unfold bind at 1, ensure_signed, ret at 1 in H. unfold bind at 1, ensure in H.
  case_bool_decide as Hne; [done|]. simpl in H. unfold bind at 1 in H.
  destruct (for_each ns _ s) as [[[]|e|] s1] eqn:Hl; try done.
  apply burn_loop in Hl as (-> & Hnd & Hns); [|done].
  split_and!; [done|done|done|]. unfold bind at 1 in H. unfold debit_tokens, bind at 1, gets at 1 in H.
  unfold debited. unfold quantity.
  destruct (token_balance who _ !! (c, x)) as [b|]; [|done]. simpl in H.
  unfold bind, gets, modify, deposit_event in H. unfold after_burn, issuance. simpl in H |- *.
  destruct (_ =? 0) in H |- *; simpl in H; injection H as <-; done.
Qed.

Lemma books_burned who key ns s : books s -> ns <> [] -> NoDup ns ->
  (forall n, n ∈ ns -> TokenOwner s !! token_of key n = Some who) ->
  books (after_burn key (quantity ns) (debited who key (quantity ns) (set_TokenOwner (take_away key ns) s))).
Proof.
  intros Hs Hne Hnd Hm.
  pose proof (owned_at_least key who ns _ Hnd Hm) as Hlen. pose proof (owned_bound who key s Hs) as Hb.
  pose proof (owned_le_supply who key (TokenOwner s)) as Hsup.
  assert (Hpos : 0 < Z.of_nat (length ns)) by (destruct ns; [done | simpl; lia]).
  assert (Hq : quantity ns = Z.of_nat (length ns)) by (apply quantity_small; lia). rewrite Hq.
  pose proof (books_balance s Hs who key) as Hbal.
  assert (Hsome : exists b, token_balance who s !! key = Some b /\ b = owned who key (TokenOwner s)).
  { unfold balance_of, sget in Hbal. destruct (token_balance who s !! key) as [b|]; simpl in Hbal; [eauto | lia]. }
  destruct Hsome as (b & Hb1 & Hb2).
  set (s1 := set_TokenOwner (take_away key ns) s).
  set (s2 := debited who key (Z.of_nat (length ns)) s1).
  assert (H2 : TokenOwner s2 = take_away key ns (TokenOwner s) /\ SeriesIssuance s2 = SeriesIssuance s /\
               NextSerialNumber s2 = NextSerialNumber s /\ NextSeriesId s2 = NextSeriesId s).
  { unfold s2, debited. by destruct (_ !! key). }
  destruct H2 as (H2a & H2b & H2c & H2d).
  assert (Hbal2 : forall w k, balance_of w k s2 = owned w k (take_away key ns (TokenOwner s))).
  { intros w k. unfold s2. rewrite (balance_debited who key _ b) by (done || lia).
    change (balance_of w k s1) with (balance_of w k s). rewrite (books_balance s Hs).
    destruct (owned_take_all w key k who ns _ Hnd Hm) as [-> _]. case_decide; lia. }
  assert (Hsup2 : forall k, supply k (take_away key ns (TokenOwner s)) =
            supply k (TokenOwner s) - Z.of_nat (length ns) * (if decide (key = k) then 1 else 0)).
  { intros k. by destruct (owned_take_all who key k who ns _ Hnd Hm). }
  assert (Hiss : issuance key s2 = supply key (TokenOwner s)).
  { unfold issuance. rewrite H2b. apply (books_issuance s Hs). }
  set (s3 := after_burn key (Z.of_nat (length ns)) s2).
  assert (H3 : TokenOwner s3 = TokenOwner s2 /\ TokenBalance s3 = TokenBalance s2 /\
               NextSerialNumber s3 = NextSerialNumber s2 /\ NextSeriesId s3 = NextSeriesId s2).
  { unfold s3, after_burn. by destruct (_ =? 0). }
  destruct H3 as (H3a & H3b & H3c & H3d).
  split.
  - intros w k. unfold balance_of, token_balance. rewrite H3b, H3a, H2a. apply Hbal2.
  - intros k. rewrite H3a, H2a, Hsup2. unfold issuance, s3, after_burn. rewrite Hiss.
    unfold saturating_sub. rewrite Z.max_r by lia. pose proof (books_issuance s Hs k) as Hk.
    unfold issuance, sget in *. destruct (Z.eqb_spec (supply key (TokenOwner s) - Z.of_nat (length ns)) 0) as [Hz|Hz];
      simpl; rewrite H2b; destruct (decide (key = k)) as [<-|Hne'].
    + rewrite lookup_delete_eq. simpl. lia.
    + rewrite lookup_delete_ne by done. rewrite Hk. lia.
    + rewrite lookup_insert_eq. simpl. lia.
    + rewrite lookup_insert_ne by done. rewrite Hk. lia.
  - intros k. unfold next_serial. rewrite H3a, H2a, H3c, H2c, Hsup2. pose proof (books_supply s Hs k) as Hk.
    unfold next_serial in Hk. case_decide; lia.
  - intros t o. unfold next_serial. rewrite H3a, H2a, H3c, H2c, take_away_lookup. case_decide; [done|].
    by apply (books_serial s Hs).
  - rewrite H3c, H2c, H3d, H2d. by apply books_series.
Qed.

(** ** Minting *)

(** The state after minting [q] tokens from serial number [n]. *)
Definition minted (owner : AccountId) key (n : SerialNumber) (q : TokenCount) s : State L A :=
  let s1 :=
    if 0 <? q then
      let s := set_TokenOwner (give key owner (serial_range n q)) s in
      let s := credit_tokens owner key q s in
      set_NextSerialNumber (insert key (saturating_add ID_BITS (next_serial key s) q)) s
    else set_NextSerialNumber (insert key 0) s in
  set_SeriesIssuance (insert key (saturating_add ID_BITS (issuance key s1) q)) s1.

Lemma do_mint_eq owner c x n q s : do_mint owner c x n q s = (Ok tt, minted owner (c, x) n q s).
Proof.
  unfold do_mint, minted. unfold bind at 1. destruct (0 <? q); [|done].
  unfold bind at 1.
  assert (Hl : for_each (E := DispatchError) (serial_range n q)
      (fun k => modify (set_TokenOwner (insert (c, x, k) owner))) s =
      (Ok tt, set_TokenOwner (give (c, x) owner (serial_range n q)) s)).
  { rewrite for_each_modify. f_equal. generalize (serial_range n q) as l. intros l. revert s.
    induction l as [|k l IH]; intros s; [by destruct s|]. simpl. rewrite IH. done. }
  rewrite Hl. done.
Qed.

Lemma serial_range_eq n q : 0 <= n -> 0 <= q -> n + q <= umax ID_BITS -> serial_range n q = seqZ n q.
Proof.
  intros Hn Hq Hmax. unfold serial_range, wrapping_add. rewrite wrap_small by (unfold in_range; lia).
  f_equal. lia.
Qed.

(** Minting fresh serial numbers keeps the books. *)
Section Minting.
Context (owner : AccountId) (key : CollectionId * SeriesId) (q : TokenCount) (s : State L A).
Hypothesis Hs : books s.
Hypothesis Hser : key.2 < sget 0 key.1 (NextSeriesId s).

Lemma fresh_series_key c x : sget 0 c (NextSeriesId s) <= x -> key <> (c, x).
Proof. intros Hx ->. simpl in Hser. lia. Qed.

Lemma books_minted_none : next_serial key s = 0 -> books (minted owner key (next_serial key s) 0 s).
Proof.
  intros Hzero. unfold minted. pose proof (books_supply s Hs key) as Hsup.
  pose proof (supply_nonneg key (TokenOwner s)) as Hpos.
  simpl.
  change (issuance key (set_NextSerialNumber _ s)) with (issuance key s).
  rewrite (books_issuance s Hs), saturating_add_small by lia.
  split; simpl.
  - apply (books_balance s Hs).
  - intros k. pose proof (books_issuance s Hs k) as Hk. unfold issuance, sget in *. simpl.
    destruct (decide (key = k)) as [<-|Hne]; [rewrite lookup_insert_eq; simpl; lia | by rewrite lookup_insert_ne].
  - intros k. pose proof (books_supply s Hs k) as Hk. unfold next_serial, sget in *. simpl.
    destruct (decide (key = k)) as [<-|Hne]; [rewrite lookup_insert_eq; simpl; lia | by rewrite lookup_insert_ne].
  - intros t o Ho. pose proof (books_serial s Hs t o Ho) as Ht. unfold next_serial, sget in *. simpl.
    destruct (decide (key = t.1)) as [Hk|Hne]; [rewrite <- Hk in Ht; lia | by rewrite lookup_insert_ne].
  - intros c. destruct (books_series s Hs c) as [Hc Hf]. split; [done|]. intros x Hx.
    rewrite lookup_insert_ne by by apply fresh_series_key. by apply Hf.
Qed.

Lemma books_minted_some : 0 < q -> next_serial key s + q <= umax ID_BITS ->
  books (minted owner key (next_serial key s) q s).
Proof.
  intros Hq0 Hmax. pose proof (books_supply s Hs key) as Hsup. pose proof (supply_nonneg key (TokenOwner s)) as Hpos.
  unfold minted. rewrite (proj2 (Z.ltb_lt 0 q) Hq0).
  set (n := next_serial key s) in *. rewrite serial_range_eq by lia.
  assert (Hm : forall k, k ∈ seqZ n q -> TokenOwner s !! token_of key k = None).
  { intros k Hk%elem_of_seqZ. destruct (TokenOwner s !! token_of key k) eqn:E; [|done].
    apply (books_serial s Hs) in E. rewrite token_of_key in E. simpl in E. fold n in E. lia. }
  assert (Hlen : Z.of_nat (length (seqZ n q)) = q) by (rewrite length_seqZ; lia).
  pose proof (NoDup_seqZ n q) as Hnd. simpl.
  change (next_serial key (credit_tokens owner key q (set_TokenOwner (give key owner (seqZ n q)) s))) with n.
  rewrite (saturating_add_small ID_BITS n q) by lia.
  change (issuance key (set_NextSerialNumber _ _)) with (issuance key s).
  rewrite (books_issuance s Hs), saturating_add_small by lia.
  assert (Hcount : forall w k, owned w k (give key owner (seqZ n q) (TokenOwner s)) =
      owned w k (TokenOwner s) + q * (if decide (key = k /\ owner = w) then 1 else 0) /\
      supply k (give key owner (seqZ n q) (TokenOwner s)) =
      supply k (TokenOwner s) + q * (if decide (key = k) then 1 else 0)).
  { intros w k. destruct (owned_mint_all w key k owner _ _ Hnd Hm) as [-> ->]. by rewrite Hlen. }
  split; simpl.
  - intros w k. change (balance_of w k _) with
      (balance_of w k (credit_tokens owner key q (set_TokenOwner (give key owner (seqZ n q)) s))).
    rewrite balance_credited. change (balance_of w k (set_TokenOwner _ s)) with (balance_of w k s).
    rewrite (books_balance s Hs), (proj1 (Hcount w k)).
    pose proof (owned_nonneg w key (TokenOwner s)). pose proof (owned_le_supply w key (TokenOwner s)).
    case_decide as Hk; [|lia]. destruct Hk as [<- <-].
    unfold wrapping_add. rewrite wrap_small by (unfold in_range; lia). lia.
  - intros k. rewrite (proj2 (Hcount owner k)). unfold issuance, sget. simpl. pose proof (books_issuance s Hs k) as Hk.
    unfold issuance, sget in Hk. destruct (decide (key = k)) as [<-|Hne].
    + rewrite lookup_insert_eq. simpl. lia.
    + rewrite lookup_insert_ne by done. lia.
  - intros k. rewrite (proj2 (Hcount owner k)). unfold next_serial, sget. simpl. pose proof (books_supply s Hs k) as Hk.
    unfold next_serial, sget in Hk. destruct (decide (key = k)) as [<-|Hne].
    + rewrite lookup_insert_eq. simpl. lia.
    + rewrite lookup_insert_ne by done. lia.
  - intros t o. rewrite give_lookup. unfold next_serial at 1, sget. simpl.
    destruct (decide (key = t.1)) as [Hk|Hk]; [rewrite <- Hk, lookup_insert_eq|rewrite lookup_insert_ne by done].
    + simpl. case_decide as Ht; [intros _; destruct Ht as [_ Ht%elem_of_seqZ]; unfold n in *; pose proof (books_supply s Hs key); lia|].
      intros Ho%(books_serial s Hs). rewrite <- Hk in Ho. fold n in Ho. lia.
    + rewrite decide_False by naive_solver. apply (books_serial s Hs).
  - intros c. destruct (books_series s Hs c) as [Hc Hf]. split; [done|]. intros x Hx.
    rewrite lookup_insert_ne by by apply fresh_series_key. by apply Hf.
Qed.
End Minting.
End Props.
