(* ===== verification/NftTheorems.v ===== *)
(** * NFT pallet: theorems

    Tokens are moved only by their owners and only when they are not listed,
    the books always count what is owned, and three sequences of calls in which
    the pallet gives tokens to the wrong account. *)

From S2P Require Import Prelude Support GenericAssetTypes MultiCurrency Search NftTypes Nft NftProps TokenApprovals.
From S2P Require Import AddressMapping.

Section Theorems.
Context {L A : Type} {cur : MultiCurrency L} {sub : OnTransfer A} {permill : PermillOps} {config : NftConfig}.
Implicit Types (s : Nft.State L A) (who : AccountId) (key : CollectionId * SeriesId).

Lemma ensure_collection_owner_Ok who c s s' : ensure_collection_owner who c s = (Ok tt, s') ->
  s' = s /\ CollectionOwner s !! c = Some who.
Proof.
  unfold ensure_collection_owner, bind, gets, ensure, ret, fail.
  destruct (CollectionOwner s !! c) as [o|]; [|done]. destruct (Z.eqb_spec o who); [|done].
  intros [= <-]. by subst.
Qed.

Lemma mint_additional_Ok who c x q owner s s' :
  mint_additional (Signed who) c x q owner s = (Ok tt, s') ->
  0 < q /\ CollectionOwner s !! c = Some who /\ is_Some (NextSerialNumber s !! (c, x)) /\
  next_serial (c, x) s + q <= umax ID_BITS /\
  s' = set_events (fun es => es ++ [CreateTokens c x q (default who owner)])
         (minted (default who owner) (c, x) (next_serial (c, x) s) q s).
Proof.
  intros H%transactional_Ok. unfold bind at 1, ensure_signed, ret at 1 in H. unfold bind at 1, ensure at 1 in H.
  destruct (Z.ltb_spec 0 q); [|done]. simpl in H. unfold bind at 1 in H.
  destruct (ensure_collection_owner who c s) as [[[]|e|] s1] eqn:Ho; try done.
  apply ensure_collection_owner_Ok in Ho as [-> Ho]. unfold bind at 1, gets at 1 in H. unfold bind at 1, ensure at 1 in H.
  case_bool_decide as Hsome; [|done]. simpl in H. unfold bind at 1, ensure at 1 in H.
  case_bool_decide as Hadd; [|done]. simpl in H. destruct Hadd as [v [-> Hadd]%checked_add_Some].
  unfold bind in H. rewrite do_mint_eq in H. injection H as <-. by split_and!.
Qed.

(** What [mint_series] writes before it mints. *)
Definition series_created (c x : Z) (scheme : MetadataScheme) (r : option RoyaltiesSchedule) s : Nft.State L A :=
  let s := set_SeriesMetadataScheme (insert (c, x) scheme) s in
  match r with Some r => set_SeriesRoyalties (insert (c, x) r) s | None => s end.

Lemma mint_series_Ok who c q owner scheme r s s' :
  mint_series (Signed who) c q owner scheme r s = (Ok tt, s') ->
  let x := sget 0 c (NextSeriesId s) in
  CollectionOwner s !! c = Some who /\ x + 1 <= umax ID_BITS /\ exists scheme',
  s' = set_events (fun es => es ++ [CreateSeries c x q (default who owner)])
         (set_NextSeriesId (insert c (wrapping_add ID_BITS x 1))
           (minted (default who owner) (c, x) 0 q (series_created c x scheme' r s))).
Proof.
  intros H%transactional_Ok x. unfold bind at 1, ensure_signed, ret at 1 in H. unfold bind at 1, do_mint_series in H.
  unfold bind at 1 in H. destruct (ensure_collection_owner who c s) as [[[]|e|] s1] eqn:Ho; try done.
  apply ensure_collection_owner_Ok in Ho as [-> Ho]. split; [done|]. unfold bind at 1, gets at 1 in H. fold x in H.
  unfold bind at 1, ensure at 1 in H. case_bool_decide as Hadd; [|done]. simpl in H.
  destruct Hadd as [v [_ Hadd]%checked_add_Some]. split; [done|]. unfold bind at 1, ok_or in H.
  destruct (sanitize scheme) as [scheme'|]; [|done]. simpl in H. exists scheme'. unfold series_created.
  unfold bind at 1, modify at 1 in H.
  destruct r as [r|]; [unfold bind at 1, bind at 1, ensure in H; destruct (validate r); [|done]; simpl in H|];
    unfold bind in H; simpl in H; rewrite do_mint_eq in H; injection H as <-;
    unfold minted; destruct (0 <? q); done.
Qed.

(** The calls that mint, move or burn tokens. *)
Inductive TokenCall :=
| C_mint_series (c : CollectionId) (q : TokenCount) (owner : option AccountId) (scheme : MetadataScheme)
    (r : option RoyaltiesSchedule)
| C_mint_additional (c : CollectionId) (x : SeriesId) (q : TokenCount) (owner : option AccountId)
| C_transfer_batch (c : CollectionId) (x : SeriesId) (ns : list SerialNumber) (new_owner : AccountId)
| C_burn_batch (c : CollectionId) (x : SeriesId) (ns : list SerialNumber)
| C_buy (id : ListingId)
| C_accept_offer (id : OfferId).

Definition dispatch (c : TokenCall) (origin : Origin) : D (Nft.State L A) unit :=
  match c with
  | C_mint_series c q owner scheme r => mint_series origin c q owner scheme r
  | C_mint_additional c x q owner => mint_additional origin c x q owner
  | C_transfer_batch c x ns new_owner => transfer_batch origin c x ns new_owner
  | C_burn_batch c x ns => burn_batch origin c x ns
  | C_buy id => buy origin id
  | C_accept_offer id => accept_offer origin id
  end.

(** Arguments of their machine type, distinct serial numbers in a transfer, and
    a listing whose tokens are distinct, of one series and still the seller's. *)
Definition call_ok (c : TokenCall) s : Prop :=
  match c with
  | C_mint_series _ q _ _ _ | C_mint_additional _ _ q _ => in_range ID_BITS q
  | C_transfer_batch _ _ ns _ => NoDup ns
  | C_burn_batch _ _ _ | C_accept_offer _ => True
  | C_buy id => forall l, Listings s !! id = Some (FixedPrice l) ->
      exists key ns, fp_tokens l = token_of key <$> ns /\ NoDup ns /\
        forall n, n ∈ ns -> TokenOwner s !! token_of key n = Some (fp_seller l)
  end.

Lemma books_mint_series who c q owner scheme r s s' : books s -> in_range ID_BITS q ->
  mint_series (Signed who) c q owner scheme r s = (Ok tt, s') -> books s'.
Proof.
  intros Hs Hq H. apply mint_series_Ok in H as (_ & Hx & scheme' & ->).
  set (x := sget 0 c (NextSeriesId s)) in *. set (o := default who owner).
  apply books_set_events.
  set (s2 := set_NextSeriesId (insert c (wrapping_add ID_BITS x 1)) (series_created c x scheme' r s)).
  assert (E : set_NextSeriesId (insert c (wrapping_add ID_BITS x 1)) (minted o (c, x) 0 q (series_created c x scheme' r s))
            = minted o (c, x) 0 q s2).
  { unfold s2, minted. destruct (0 <? q); by destruct r. }
  rewrite E. assert (Hsame : TokenOwner s2 = TokenOwner s /\ TokenBalance s2 = TokenBalance s /\
    SeriesIssuance s2 = SeriesIssuance s /\ NextSerialNumber s2 = NextSerialNumber s /\
    NextSeriesId s2 = <[c := wrapping_add ID_BITS x 1]> (NextSeriesId s)) by (unfold s2; by destruct r).
  clearbody s2. destruct Hsame as (H1 & H2 & H3 & H4 & H5).
  destruct (books_series s Hs c) as [Hx0 Hfresh]. fold x in Hx0, Hfresh.
  assert (Hnone : NextSerialNumber s !! (c, x) = None) by (apply Hfresh; lia).
  assert (Hw : wrapping_add ID_BITS x 1 = x + 1) by (apply wrap_small; unfold in_range; lia).
  assert (Hs2 : books s2).
  { destruct Hs as [B1 B2 B3 B4 B5].
    split; unfold NftProps.balance_of, token_balance, issuance, next_serial; rewrite ?H1, ?H2, ?H3, ?H4, ?H5, ?Hw; try done.
    intros c'. destruct (B5 c') as [Hc Hf]. unfold sget in *. destruct (decide (c = c')) as [<-|Hne].
    - rewrite lookup_insert_eq. simpl. split; [lia|]. intros y Hy. apply Hf. fold x. unfold x, sget in *. lia.
    - rewrite lookup_insert_ne by done. done. }
  assert (Hn0 : next_serial (c, x) s2 = 0) by (unfold next_serial, sget; by rewrite H4, Hnone).
  assert (Hser : (c, x).2 < sget 0 (c, x).1 (NextSeriesId s2)).
  { rewrite H5. unfold sget. simpl. rewrite lookup_insert_eq, Hw. simpl. lia. }
  unfold in_range in Hq. destruct (decide (q = 0)) as [->|Hq0].
  - pose proof (books_minted_none o (c, x) s2 Hs2 Hser Hn0) as Hb. rewrite Hn0 in Hb. exact Hb.
  - pose proof (books_minted_some o (c, x) q s2 Hs2 Hser) as Hb. rewrite Hn0 in Hb. apply Hb; lia.
Qed.

Lemma books_mint_additional who c x q owner s s' : books s -> in_range ID_BITS q ->
  mint_additional (Signed who) c x q owner s = (Ok tt, s') -> books s'.
Proof.
  intros Hs Hq H. apply mint_additional_Ok in H as (Hq0 & _ & [n Hn] & Hmax & ->).
  apply books_set_events. apply books_minted_some; try done.
  destruct (books_series s Hs c) as [_ Hfresh]. simpl.
  destruct (decide (sget 0 c (NextSeriesId s) <= x)) as [Hx|]; [|lia]. apply Hfresh in Hx. congruence.
Qed.

Lemma ensure_buyer_Ok who l s s' : ensure_buyer who l s = (Ok tt, s') ->
  s' = s /\ (fp_buyer l = None \/ fp_buyer l = Some who).
Proof.
  unfold ensure_buyer, ensure, ret, fail. destruct (fp_buyer l) as [b|]; [|intros [= <-]; auto].
  destruct (Z.eqb_spec who b); [|done]. intros [= <-]. subst. auto.
Qed.

Lemma remove_listing_frame id s : same_tokens s (remove_fixed_price_listing id s).
Proof. unfold remove_fixed_price_listing. destruct (Listings s !! id) as [[]|]; by constructor. Qed.

Lemma serials_of key (ns : list SerialNumber) : ((fun t : TokenId => t.2) ∘ token_of key) <$> ns = ns.
Proof. induction ns as [|n ns IH]; [done|]. rewrite fmap_cons, IH. done. Qed.

(** What a successful purchase leaves: the serial numbers of all listed tokens
    are given to the buyer in the series of the first one. *)
Lemma buy_Ok who id s s' : buy (Signed who) id s = (Ok tt, s') ->
  exists l c x n ts s2, Listings s !! id = Some (FixedPrice l) /\ fp_tokens l = (c, x, n) :: ts /\
    same_tokens s s2 /\
    s' = set_events (fun es => es ++ [FixedPriceSaleComplete c id who]) (remove_fixed_price_listing id
           (transferred (c, x) ((fun t : TokenId => t.2) <$> fp_tokens l) (fp_seller l) who s2)).
Proof.
  intros H%transactional_Ok. unfold bind at 1, ensure_signed, ret at 1 in H. unfold bind at 1, gets at 1 in H.
  destruct (Listings s !! id) as [[l|l]|] eqn:El; try done. exists l.
  unfold bind at 1 in H. destruct (ensure_buyer who l s) as [[[]|e|] s1] eqn:Eb; try done.
  apply ensure_buyer_Ok in Eb as [-> _]. unfold bind at 1, ok_or in H.
  destruct (fp_tokens l) as [|[[c x] n] ts] eqn:Et; [done|]. exists c, x, n, ts.
  unfold bind, modify in H. simpl in H.
  pose proof (frame_pay_for_listing s who l s (same_tokens_refl s)) as Hpay.
  destruct (pay_for_listing who l s) as [[[]|e|] s1]; try done. simpl in Hpay.
  rewrite do_transfer_eq in H. injection H as <-.
  eexists. split_and!; [done|done| |reflexivity].
  eapply same_tokens_trans; [exact Hpay|].
  eapply same_tokens_trans; [apply (unlock_tokens_frame ((c, x, n) :: ts))|]. by constructor.
Qed.

Lemma books_buy who id s s' : books s -> call_ok (C_buy id) s -> buy (Signed who) id s = (Ok tt, s') -> books s'.
Proof.
  intros Hs Hok (l & c & x & n & ts & s2 & El & Et & Hf & ->)%buy_Ok.
  destruct (Hok l El) as (key & ns & Htok & Hnd & Hown).
  assert (Hkey : (c, x) = key /\ ns <> []).
  { rewrite Htok in Et. destruct ns as [|k ns]; [done|]. rewrite fmap_cons in Et. injection Et as <- <- _ _.
    split; [by destruct key | done]. }
  destruct Hkey as [-> Hne]. rewrite Htok, <- list_fmap_compose, serials_of.
  apply books_set_events. eapply nft_books_frame; [apply remove_listing_frame|].
  apply books_transferred; [exact (nft_books_frame s s2 Hf Hs) | done | done |].
  intros k Hk. rewrite (st_owner _ _ Hf). by apply Hown.
Qed.

Lemma check_bundle_reader ts m : reader (check_bundle_royalties (L := L) (A := A) ts m).
Proof.
  apply reader_bind; [by destruct ts | intros [[c x] n]].
  apply reader_bind; [apply reader_for_each; intros [[c' x'] n']; eauto with dispatch | intros _].
  do 2 (apply reader_bind; [eauto with dispatch | intros ?]). destruct m; eauto 10 with dispatch.
Qed.

Lemma repatriate_listings buyer asset amount l v s :
  let s' := (repatriate_entitlements buyer asset amount l v s).2 in
  TokenLocks s' = TokenLocks s /\ Listings s' = Listings s.
Proof.
  revert v s. induction l as [|[w e] l IH]; intros v s; [done|]. simpl. unfold bind, modify.
  set (s1 := set_ledger _ s). destruct (IH (wrapping_sub BALANCE_BITS v (permill_mul e amount)) s1) as [-> ->]. done.
Qed.

Lemma process_payment_Ok buyer seller asset c x n ns amount r s s' :
  process_payment_and_transfer buyer seller asset (token_of (c, x) <$> n :: ns) amount r s = (Ok tt, s') ->
  exists s1, same_tokens s s1 /\ TokenLocks s1 = TokenLocks s /\ Listings s1 = Listings s /\
    s' = transferred (c, x) (n :: ns) seller buyer s1.
Proof.
  intros H%transactional_Ok. unfold bind at 1 in H.
  set (m := if negb _ then _ else _) in H.
  assert (Hm : same_tokens s (m s).2 /\ TokenLocks (m s).2 = TokenLocks s /\ Listings (m s).2 = Listings s).
  { unfold m. destruct (negb _); [|done].
    split; [by apply frame_repatriate, same_tokens_refl | apply repatriate_listings]. }
  destruct (m s) as [[v|e|] s1]; try done. simpl in Hm. destruct Hm as (Hf & Hk & Hli).
  unfold bind at 1, gets at 1 in H. unfold bind at 1, modify at 1 in H. unfold bind at 1, gets at 1 in H.
  unfold bind at 1, ensure in H. destruct (_ <=? _); [|done]. simpl in H. unfold bind, ret in H. simpl in H.
  rewrite <- (list_fmap_compose (token_of (c, x)) (fun t : TokenId => t.2)), serials_of, do_transfer_eq in H.
  injection H as <-. eexists. split_and!; [| | |reflexivity]; try done.
  eapply same_tokens_trans; [exact Hf|]. by constructor.
Qed.

Lemma remove_token_offer_frame t id s : same_tokens s (remove_token_offer t id s).2.
Proof. unfold remove_token_offer, bind, gets, modify, panic. destruct (binary_search _ _); by constructor. Qed.

Lemma books_accept who id s s' : books s -> who <> default_account ->
  accept_offer (Signed who) id s = (Ok tt, s') -> books s'.
Proof.
  intros Hs Hw H%transactional_Ok. unfold bind at 1, ensure_signed, ret at 1 in H. unfold bind at 1, gets at 1 in H.
  destruct (Offers s !! id) as [[o]|]; [|done]. destruct (of_token_id o) as [[c x] n] eqn:Et. cbv zeta in H.
  unfold bind at 1, gets at 1 in H. unfold bind at 1, ensure in H.
  destruct (Z.eqb_spec (token_owner (c, x, n) s) who) as [Hown|]; [|done]. simpl in H.
  apply token_owner_Some in Hown; [|done]. unfold bind at 1 in H.
  pose proof (check_bundle_reader [(c, x, n)] (of_marketplace_id o) s) as Hr.
  destruct (check_bundle_royalties _ _ s) as [[r|e|] s1]; simpl in Hr; subst s1; try done. unfold bind at 1 in H.
  destruct (process_payment_and_transfer _ _ _ _ _ _ s) as [[[]|e|] s1] eqn:Ep; try done.
  apply (process_payment_Ok _ _ _ c x n []) in Ep as (s0 & Hf & _ & _ & ->).
  unfold bind, modify in H. set (s2 := set_Offers _ _) in H.
  pose proof (remove_token_offer_frame (c, x, n) id s2) as Hfr.
  destruct (remove_token_offer (c, x, n) id s2) as [[[]|e|] s3]; try done. injection H as <-. simpl in Hfr.
  apply books_set_events. eapply nft_books_frame; [exact Hfr|]. unfold s2.
  apply (nft_books_frame (transferred (c, x) [n] who (of_buyer o) s0)); [by constructor|].
  apply books_transferred; [exact (nft_books_frame s s0 Hf Hs) | done | by repeat constructor; apply not_elem_of_nil |].
  intros k ->%list_elem_of_singleton. by rewrite (st_owner _ _ Hf).
Qed.

(** C15: the token books stay right. Through every call that mints, moves or
    burns tokens, each account's [TokenBalance] in each series is the number of
    tokens it owns there, [SeriesIssuance] is the number of tokens in
    existence, serial numbers of existing tokens lie below
    [NextSerialNumber] and every counter stays within [u32]; a call that fails
    changes nothing. The caller is not the default account, the serial numbers
    of a transfer are distinct, and the tokens of a listing being bought are
    distinct, of one series and still the seller's. *)
Theorem nft_books_preserved c who s : books s -> who <> default_account -> call_ok c s ->
  match dispatch c (Signed who) s with
  | (Ok _, s') => books s'
  | (Err _, s') => s' = s
  | (Panic, _) => True
  end.
Proof.
  intros Hs Hw Hok. destruct (dispatch c (Signed who) s) as [[[]|e|] s'] eqn:E; [| |done].
  - destruct c as [c q owner scheme r|c x q owner|c x ns new_owner|c x ns|id|id]; simpl in *.
    + by eapply books_mint_series.
    + by eapply books_mint_additional.
    + apply transfer_batch_Ok in E as (Hne & Hns & ->); [|done]. apply books_set_events.
      apply books_transferred; try done. intros n Hn. by apply Hns.
    + apply burn_batch_Ok in E as (Hne & Hnd & Hns & ->); [|done]. apply books_set_events.
      apply books_burned; try done. intros n Hn. by apply Hns.
    + by eapply books_buy.
    + by eapply books_accept.
  - destruct c; simpl in E; eapply noop_transactional; exact E.
Qed.

Lemma transferred_locks key ns from to s : TokenLocks (transferred key ns from to s) = TokenLocks s.
Proof. unfold transferred, credit_tokens, debited. simpl. by destruct (_ !! key). Qed.

Lemma transferred_owner key ns from to s :
  TokenOwner (transferred key ns from to s) = give key to ns (TokenOwner s).
Proof. unfold transferred, credit_tokens, debited. simpl. by destruct (_ !! key). Qed.

Lemma transferred_listings key ns from to s : Listings (transferred key ns from to s) = Listings s.
Proof. unfold transferred, credit_tokens, debited. simpl. by destruct (_ !! key). Qed.

(** A token moves or disappears only by its owner's order and never while
    it is listed. A successful [transfer_batch] or [burn_batch] touches exactly
    the named tokens: each was the caller's and unlocked, a transfer makes the
    new owner theirs, a burn removes them, and every other token keeps its
    owner. *)
Theorem tokens_moved_by_owner who c x ns new_owner s : who <> default_account ->
  (forall s', transfer_batch (Signed who) c x ns new_owner s = (Ok tt, s') -> forall t,
     TokenOwner s' !! t = (if decide (t.1 = (c, x) /\ t.2 ∈ ns) then Some new_owner else TokenOwner s !! t) /\
     (t.1 = (c, x) -> t.2 ∈ ns -> TokenLocks s !! t = None /\ TokenOwner s !! t = Some who)) /\
  (forall s', burn_batch (Signed who) c x ns s = (Ok tt, s') -> forall t,
     TokenOwner s' !! t = (if decide (t.1 = (c, x) /\ t.2 ∈ ns) then None else TokenOwner s !! t) /\
     (t.1 = (c, x) -> t.2 ∈ ns -> TokenLocks s !! t = None /\ TokenOwner s !! t = Some who)).
Proof.
  intros Hw. split; intros s' H t.
  - apply transfer_batch_Ok in H as (_ & Hns & ->); [|done]. split.
    + change (TokenOwner (set_events _ ?u)) with (TokenOwner u). by rewrite transferred_owner, give_lookup.
    + destruct t as [[c' x'] n]. simpl. intros [= -> ->] Hn. by apply Hns.
  - apply burn_batch_Ok in H as (_ & _ & Hns & ->); [|done]. split.
    + rewrite <- take_away_lookup. unfold after_burn, debited. simpl.
      destruct (_ !! (c, x)); by destruct (_ =? 0).
    + destruct t as [[c' x'] n]. simpl. intros [= -> ->] Hn. by apply Hns.
Qed.

(** Buying a bundle whose tokens come from different series hands over
    the wrong tokens. The bundle check admits tokens of several series of a
    collection, but the purchase moves every serial number within the series of
    the first token: the buyer becomes owner of token [n'] of the first series,
    whoever owned it, and the listed token of the other series stays with its
    owner. *)
Theorem mixed_bundle_moves_wrong_token who id l c x n x' n' s s' :
  Listings s !! id = Some (FixedPrice l) -> fp_tokens l = [(c, x, n); (c, x', n')] -> x <> x' ->
  buy (Signed who) id s = (Ok tt, s') ->
  TokenOwner s' !! (c, x, n') = Some who /\ TokenOwner s' !! (c, x', n') = TokenOwner s !! (c, x', n').
Proof.
  intros El Et Hx (l' & c' & y & k & ts & s2 & El' & Et' & Hf & ->)%buy_Ok.
  rewrite El in El'. injection El' as <-. rewrite Et in Et'. injection Et' as <- <- <- <-.
  change (TokenOwner (set_events _ ?u)) with (TokenOwner u).
  rewrite (st_owner _ _ (remove_listing_frame id _)), transferred_owner, Et, (st_owner _ _ Hf), !give_lookup. simpl.
  split; [rewrite decide_True by (split; [done | set_solver]) | rewrite decide_False by naive_solver]; done.
Qed.

(** Accepting an offer ignores the token's listing. After a successful
    [accept_offer] the token is the buyer's, but its lock and its fixed price
    listing are still in place, so that anyone can buy it again from the
    previous owner. *)
Theorem accept_offer_keeps_listing who id o s s' : who <> default_account ->
  Offers s !! id = Some (Simple o) -> accept_offer (Signed who) id s = (Ok tt, s') ->
  TokenOwner s' !! of_token_id o = Some (of_buyer o) /\ TokenLocks s' = TokenLocks s /\ Listings s' = Listings s.
Proof.
  intros Hw Ho H%transactional_Ok. unfold bind at 1, ensure_signed, ret at 1 in H.
  unfold bind at 1, gets at 1 in H. rewrite Ho in H.
  destruct (of_token_id o) as [[c x] n] eqn:Et. cbv zeta in H.
  unfold bind at 1, gets at 1 in H. unfold bind at 1, ensure in H.
  destruct (Z.eqb_spec (token_owner (c, x, n) s) who) as [Hown|]; [|done]. simpl in H. unfold bind at 1 in H.
  pose proof (check_bundle_reader [(c, x, n)] (of_marketplace_id o) s) as Hr.
  destruct (check_bundle_royalties _ _ s) as [[r|e|] s1]; simpl in Hr; subst s1; try done. unfold bind at 1 in H.
  destruct (process_payment_and_transfer _ _ _ _ _ _ s) as [[[]|e|] s1] eqn:Ep; try done.
  apply (process_payment_Ok _ _ _ c x n []) in Ep as (s0 & Hf & Hl & Hli & ->).
  unfold bind, modify in H. unfold remove_token_offer, bind, gets, modify in H.
  destruct (binary_search _ _); [|done]. injection H as <-.
  change (TokenLocks (set_events _ (set_TokenOffers _ (set_Offers _ ?u)))) with (TokenLocks u).
  change (TokenOwner (set_events _ (set_TokenOffers _ (set_Offers _ ?u)))) with (TokenOwner u).
  change (Listings (set_events _ (set_TokenOffers _ (set_Offers _ ?u)))) with (Listings u).
  rewrite transferred_locks, transferred_owner, transferred_listings, Hl, Hli, give_lookup.
  split_and!; [|done|done]. rewrite decide_True; [done|]. split; [done|by left].
Qed.

(** A serial number repeated in [transfer_batch] is counted twice: the
    recipient's [TokenBalance] ends one above the number of tokens owned. *)
Theorem repeated_serial_inflates who c x n new_owner s s' : books s -> who <> default_account -> who <> new_owner ->
  transfer_batch (Signed who) c x [n; n] new_owner s = (Ok tt, s') -> supply (c, x) (TokenOwner s) + 2 <= umax ID_BITS ->
  NftProps.balance_of new_owner (c, x) s' = owned new_owner (c, x) (TokenOwner s') + 1.
Proof.
  intros Hs Hw Hne H Hmax. apply transfer_batch_Ok in H as (_ & Hns & ->); [|done].
  destruct (Hns n ltac:(left)) as [_ Hown].
  change (TokenOwner (set_events _ ?u)) with (TokenOwner u).
  change (NftProps.balance_of new_owner (c, x) (set_events _ ?u)) with (NftProps.balance_of new_owner (c, x) u).
  rewrite transferred_owner. unfold transferred. rewrite balance_credited, decide_True by done.
  change (quantity [n; n]) with 2.
  assert (Hdeb : NftProps.balance_of new_owner (c, x) (debited who (c, x) 2 (reassigned (c, x) new_owner [n; n] s)) =
                 owned new_owner (c, x) (TokenOwner s)).
  { rewrite <- (books_balance s Hs). unfold debited. destruct (token_balance who _ !! (c, x)); [|done].
    unfold NftProps.balance_of, token_balance at 1, sget. simpl. by rewrite lookup_insert_ne. }
  rewrite Hdeb. pose proof (owned_nonneg new_owner (c, x) (TokenOwner s)).
  pose proof (owned_le_supply new_owner (c, x) (TokenOwner s)).
  unfold wrapping_add. rewrite wrap_small by (unfold in_range; lia). simpl.
  change (token_of (c, x) n) with (c, x, n).
  rewrite (owned_give new_owner (c, x) (c, x, n) new_owner new_owner) by apply lookup_insert_eq.
  rewrite (owned_give new_owner (c, x) (c, x, n) who new_owner) by done.
  unfold is_owned. simpl. repeat case_decide; naive_solver lia.
Qed.
End Theorems.
