(* ===== verification/NftRuntime.v ===== *)
(** * NFT pallet: concrete runs

    The pallet wired as in the runtime: payments in the generic asset ledger,
    transfers announced to the token approvals pallet. Two theorems about the
    wired pallets and the runs that exercise the theorems of [NftTheorems]. *)

From S2P Require Import Prelude Support GenericAssetTypes MultiCurrency Search NftTypes Nft NftProps NftTheorems.
From S2P Require Import TokenApprovals.

#[export] Instance approvals_subscriber : OnTransfer TokenApprovals.State :=
  {| Nft.on_nft_transfer := TokenApprovals.on_nft_transfer |}.

Section Approvals.
Context {L : Type} {cur : MultiCurrency L} {permill : PermillOps} {config : NftConfig}.
Implicit Types (s : Nft.State L TokenApprovals.State).

(** Approvals after a list of announced transfers. *)
Lemma announced_approvals key ns a t :
  ERC721Approvals (foldl (fun a n => TokenApprovals.on_nft_transfer (token_of key n) a) a ns) !! t =
  if decide (t.1 = key /\ t.2 ∈ ns) then None else ERC721Approvals a !! t.
Proof.
  revert a. induction ns as [|n ns IH]; intros a; simpl.
  - rewrite decide_False; [done|]. intros [_ H]. by apply not_elem_of_nil in H.
  - rewrite IH. simpl. destruct (decide (t = token_of key n)) as [->|Hne].
    + rewrite lookup_delete_eq, token_of_key. simpl. repeat case_decide; set_solver.
    + rewrite lookup_delete_ne by done. destruct (decide (t.1 = key /\ t.2 ∈ ns)) as [[H1 H2]|H].
      * rewrite decide_True; [done|]. split; [done|by right].
      * rewrite decide_False; [done|]. intros [H1 H2]. apply H. split; [done|].
        apply elem_of_cons in H2 as [H2|H2]; [|done]. destruct Hne. destruct t as [[c x] k]. simpl in *. by subst.
Qed.

Lemma announced_erc20 key ns a :
  ERC20Approvals (foldl (fun a n => TokenApprovals.on_nft_transfer (token_of key n) a) a ns) = ERC20Approvals a.
Proof. revert a. induction ns as [|n ns IH]; intros a; [done|]. simpl. by rewrite IH. Qed.

(** An ERC-721 approval never survives a transfer. After a successful
    [transfer_batch] the approvals of exactly the transferred tokens are gone,
    and all other approvals, ERC-20 ones included, are untouched. *)
Theorem transfer_clears_approvals who c x ns new_owner s s' : who <> default_account ->
  transfer_batch (Signed who) c x ns new_owner s = (Ok tt, s') ->
  (forall t, ERC721Approvals (subscriber s') !! t =
     if decide (t.1 = (c, x) /\ t.2 ∈ ns) then None else ERC721Approvals (subscriber s) !! t) /\
  ERC20Approvals (subscriber s') = ERC20Approvals (subscriber s).
Proof.
  intros Hw H. apply transfer_batch_Ok in H as (_ & _ & ->); [|done].
  assert (E : subscriber (set_events (fun es => es ++ [Transfer who c x ns new_owner]) (transferred (c, x) ns who new_owner s)) =
              foldl (fun a n => TokenApprovals.on_nft_transfer (token_of (c, x) n) a) (subscriber s) ns).
  { unfold transferred, credit_tokens, debited. simpl. by destruct (_ !! (c, x)). }
  rewrite E. split; [intros t; apply announced_approvals | apply announced_erc20].
Qed.
End Approvals.

Module Demo.
#[export] Existing Instance GenericAssetInv.Demo.config.
#[export] Instance permill : PermillOps := {| permill_mul p b := p * b / PERMILL_ACCURACY |}.
#[export] Instance nft_config : NftConfig := {| DefaultListingDuration := 1000 |}.

Abbreviation S := (Nft.State GenericAsset.State TokenApprovals.State).

(** Accounts 10, 11 and 12 hold 100 each of asset 1. *)
Definition ledger0 : GenericAsset.State := {|
  GenericAsset.TotalIssuance := {[1 := 300]};
  GenericAsset.FreeBalance := {[(1, 10) := 100; (1, 11) := 100; (1, 12) := 100]};
  GenericAsset.ReservedBalance := ∅;
  GenericAsset.NextAssetId := 1000;
  GenericAsset.Permissions := ∅;
  GenericAsset.Locks := ∅;
  GenericAsset.StakingAssetId := 1;
  GenericAsset.SpendingAssetId := 1;
  GenericAsset.AssetMeta := ∅;
  GenericAsset.StorageVersion := 1;
  GenericAsset.sys := ∅;
  GenericAsset.events := [];
|}.

(** Account 10 owns collection 0. *)
Definition empty : S := Nft.mkState {[0 := 10]} {[0 := ascii_bytes "art"]} ∅ ∅ ∅ ∅ 0 ∅ ∅ ∅ ∅ ∅ ∅ 1 ∅ ∅ 0 ∅ ∅ ∅ ∅ ∅ ∅ 0 7
  ledger0 (TokenApprovals.mkState {[(0, 0, 0) := H160_default]} ∅) [].

Definition mint (q : TokenCount) : D S unit := mint_series (Signed 10) 0 q None (Https (ascii_bytes "art.org")) None.

(** Tokens 0 and 1 of series 0, both account 10's. *)
Definition minted2 : S := (mint 2 empty).2.

(** Series 1 minted as well, and token 1 of series 0 given to account 11. *)
Definition two_series : S := (bind (mint 2) (fun _ => transfer (Signed 10) (0, 0, 1) 11) minted2).2.

(** Account 10 lists token 0 of series 0 with token 1 of series 1. *)
Definition bundled : S := (sell_bundle (Signed 10) [(0, 0, 0); (0, 1, 1)] None 1 30 None None two_series).2.

(** Account 10 lists token 0 for 30, and account 11 offers 20 for it. *)
Definition offered : S :=
  (bind (sell (Signed 10) (0, 0, 0) None 1 30 None None)
        (fun _ => make_simple_offer (Signed 11) (0, 0, 0) 20 1 None) minted2).2.
Definition accepted : S := (accept_offer (Signed 10) 0 offered).2.
End Demo.
Import Demo.

Lemma empty_books : books empty.
Proof. by split. Qed.

Lemma nft_call_result {B} (m : D S B) s (b : B) : (m s).1 = Ok b -> m s = (Ok b, (m s).2).
Proof. destruct (m s). simpl. congruence. Qed.

Lemma minted2_books : books minted2.
Proof.
  apply (books_mint_series 10 0 2 None (Https (ascii_bytes "art.org")) None empty); [apply empty_books | done |].
  apply nft_call_result. vm_compute. reflexivity.
Qed.

(** ** Runs for the theorems *)
Lemma nodup01 : NoDup [0; 1].
Proof. repeat constructor; set_solver. Qed.

Lemma nft_books_preserved_witness :
  NftProps.balance_of 11 (0, 0) (transfer_batch (Signed 10) 0 0 [0; 1] 11 minted2).2 = 2 /\
  books (transfer_batch (Signed 10) 0 0 [0; 1] 11 minted2).2.
Proof.
  split; [vm_compute; reflexivity|].
  pose proof (nft_books_preserved (C_transfer_batch 0 0 [0; 1] 11) 10 minted2 minted2_books) as H.
  assert (E : (transfer_batch (Signed 10) 0 0 [0; 1] 11 minted2).1 = Ok tt) by (vm_compute; reflexivity).
  apply nft_call_result in E. cbn [dispatch] in H. rewrite E in H. apply H; [discriminate | exact nodup01].
Defined.

Lemma tokens_moved_by_owner_witness :
  TokenOwner (transfer_batch (Signed 10) 0 0 [1] 11 minted2).2 !! (0, 0, 1) = Some 11 /\
  TokenOwner minted2 !! (0, 0, 1) = Some 10.
Proof.
  destruct (tokens_moved_by_owner 10 0 0 [1] 11 minted2) as [H _]; [discriminate|].
  assert (E : (transfer_batch (Signed 10) 0 0 [1] 11 minted2).1 = Ok tt) by (vm_compute; reflexivity).
  apply nft_call_result in E. destruct (H _ E (0, 0, 1)) as [H1 H2]. rewrite H1. split; [vm_compute; reflexivity|].
  apply H2; [reflexivity | left].
Defined.

Lemma mixed_bundle_moves_wrong_token_witness :
  TokenOwner bundled !! (0, 0, 1) = Some 11 /\ TokenOwner (buy (Signed 12) 0 bundled).2 !! (0, 0, 1) = Some 12.
Proof.
  split; [vm_compute; reflexivity|].
  assert (E : (buy (Signed 12) 0 bundled).1 = Ok tt) by (vm_compute; reflexivity). apply nft_call_result in E.
  destruct (Listings bundled !! 0) as [[l|l]|] eqn:El; [|vm_compute in El; discriminate..].
  assert (Ht : fp_tokens l = [(0, 0, 0); (0, 1, 1)]) by (vm_compute in El; injection El as <-; reflexivity).
  exact (proj1 (mixed_bundle_moves_wrong_token 12 0 l 0 0 0 1 1 bundled _ El Ht ltac:(discriminate) E)).
Defined.

(** The token accepted by account 11 is sold again, from account 10, to 12. *)
Lemma accept_offer_keeps_listing_witness :
  TokenOwner accepted !! (0, 0, 0) = Some 11 /\ Listings accepted = Listings offered /\
  TokenOwner (buy (Signed 12) 0 accepted).2 !! (0, 0, 0) = Some 12 /\
  GenericAsset.free_balance 1 11 (ledger (buy (Signed 12) 0 accepted).2) = 80.
Proof.
  assert (E : (accept_offer (Signed 10) 0 offered).1 = Ok tt) by (vm_compute; reflexivity). apply nft_call_result in E.
  destruct (Offers offered !! 0) as [[o]|] eqn:Eo; [|vm_compute in Eo; discriminate].
  destruct (accept_offer_keeps_listing 10 0 o offered accepted ltac:(discriminate) Eo E) as (H1 & _ & H2).
  assert (Ho : of_token_id o = (0, 0, 0) /\ of_buyer o = 11) by (vm_compute in Eo; injection Eo as <-; split; reflexivity).
  destruct Ho as [Ho1 Ho2]. rewrite Ho1, Ho2 in H1.
  split; [exact H1|]. split; [exact H2|]. split; vm_compute; reflexivity.
Defined.

Lemma repeated_serial_inflates_witness :
  NftProps.balance_of 11 (0, 0) (transfer_batch (Signed 10) 0 0 [0; 0] 11 minted2).2 =
  owned 11 (0, 0) (TokenOwner (transfer_batch (Signed 10) 0 0 [0; 0] 11 minted2).2) + 1.
Proof.
  apply (repeated_serial_inflates 10 0 0 0 11 minted2).
  - exact minted2_books.
  - discriminate.
  - discriminate.
  - apply nft_call_result. vm_compute. reflexivity.
  - vm_compute. discriminate.
Defined.

Lemma transfer_clears_approvals_witness :
  ERC721Approvals (subscriber minted2) !! (0, 0, 0) = Some H160_default /\
  ERC721Approvals (subscriber (transfer_batch (Signed 10) 0 0 [0] 11 minted2).2) !! (0, 0, 0) = None.
Proof.
  split; [vm_compute; reflexivity|].
  assert (E : (transfer_batch (Signed 10) 0 0 [0] 11 minted2).1 = Ok tt) by (vm_compute; reflexivity).
  apply nft_call_result in E.
  destruct (transfer_clears_approvals 10 0 0 [0] 11 minted2 _ ltac:(discriminate) E) as [H _].
  rewrite (H (0, 0, 0)). reflexivity.
Defined.
