(* ===== verification/NftQueries.v ===== *)
(** * NFT queries and the storage migration

    [src/crml/nft/src/lib.rs] and [migration.rs]: what wallets ask the pallet
    for over RPC, the tokens of an account in a collection and the open listings
    of a collection page by page, and the upgrade of listings of the first
    release.  Iteration over a storage map comes in no particular order: the
    queries sort what they collect. *)

From stdpp Require Import sorting.
From S2P Require Import Prelude Support GenericAssetTypes MultiCurrency NftTypes Nft NftRuntime Search.

Definition MAX_COLLECTION_LISTING_LIMIT : Z := 100.

(** The order of tuples. *)
Definition token_le (a b : TokenId) : Prop :=
  a.1.1 < b.1.1 \/ (a.1.1 = b.1.1 /\ (a.1.2 < b.1.2 \/ (a.1.2 = b.1.2 /\ a.2 <= b.2))).

#[global] Instance token_le_dec : RelDecision token_le.
Proof. intros a b. unfold token_le. apply _. Defined.

Section Queries.
Context {L A : Type}.
Implicit Types s : Nft.State L A.

(** [iter_prefix] *)
Definition owned_in_series (collection_id : CollectionId) (series_id : SeriesId) (address : AccountId) s : list TokenId :=
  merge_sort token_le
    (fst <$> filter (fun kv => kv.1.1 = (collection_id, series_id) /\ kv.2 = address) (map_to_list (Nft.TokenOwner s))).

Definition collected_tokens (collection_id : CollectionId) (address : AccountId) s : list TokenId :=
  let next_series_id := sget 0 collection_id (Nft.NextSeriesId s) in
  concat ((fun series_id => owned_in_series collection_id series_id address s) <$> seqZ 0 next_series_id).

Definition open_listing_ids (collection_id : CollectionId) s : list ListingId :=
  merge_sort Z.le ((fun kv => kv.1.2) <$> filter (fun kv => kv.1.1 = collection_id) (map_to_list (Nft.OpenCollectionListings s))).

Definition listing_of s (listing_id : ListingId) : option (ListingId * Listing) := pair listing_id <$> Nft.Listings s !! listing_id.

Definition collection_listings (collection_id : CollectionId) (cursor limit : Z) s : option Z * list (ListingId * Listing) :=
  let listing_ids := open_listing_ids collection_id s in
  let last_id := last listing_ids in
  let page := take (Z.to_nat (Z.min limit MAX_COLLECTION_LISTING_LIMIT)) (filter (fun listing_id => cursor <= listing_id) listing_ids) in
  let highest_cursor := foldl (fun _ listing_id => listing_id) 0 page in
  let response := omap (listing_of s) page in
  let new_cursor :=
    match last_id with
    | Some id => if negb (highest_cursor =? id) then Some (wrapping_add 128 highest_cursor 1) else None
    | None => None
    end in
  (new_cursor, response).

(** A client that follows the cursors. *)
Fixpoint all_pages (fuel : nat) (collection_id : CollectionId) (cursor limit : Z) s : option (list (ListingId * Listing)) :=
  match fuel with
  | O => None
  | S fuel =>
      match collection_listings collection_id cursor limit s with
      | (None, response) => Some response
      | (Some cursor, response) => app response <$> all_pages fuel collection_id cursor limit s
      end
  end.

(** ** Tokens *)
#[local] Instance token_le_total : Total token_le.
Proof. intros a b. unfold token_le. lia. Qed.

#[local] Instance token_le_trans : Transitive token_le.
Proof. intros a b c. unfold token_le. lia. Qed.

Lemma owned_in_series_elem c x address t s :
  t ∈ owned_in_series c x address s <-> t.1 = (c, x) /\ Nft.TokenOwner s !! t = Some address.
Proof.
  unfold owned_in_series. rewrite (merge_sort_Permutation token_le), list_elem_of_fmap. split.
  - intros ([t' o] & -> & Hin). apply list_elem_of_filter in Hin as [[Hp Ho] Hin]. simpl in *. subst o. by apply elem_of_map_to_list in Hin.
  - intros [Hp Ho]. exists (t, address). split; [done|]. apply list_elem_of_filter. split; [done | by apply elem_of_map_to_list].
Qed.

Lemma owned_in_series_nodup c x address s : NoDup (owned_in_series c x address s).
Proof.
  unfold owned_in_series. rewrite (merge_sort_Permutation token_le). apply NoDup_fmap_fst.
  - intros t a b Ha Hb. apply list_elem_of_filter in Ha as [_ Ha], Hb as [_ Hb].
    apply elem_of_map_to_list in Ha, Hb. congruence.
  - apply NoDup_filter, NoDup_map_to_list.
Qed.

(** Strictly in order, hence without repetition. *)
Definition token_lt (a b : TokenId) : Prop := token_le a b /\ a <> b.

Lemma strictly_sorted {B} (R : relation B) l : NoDup l -> StronglySorted R l -> StronglySorted (fun a b => R a b /\ a <> b) l.
Proof.
  intros Hn Hs. induction Hs as [|b l Hs IH Hf]; constructor; apply NoDup_cons in Hn as [Hb Hn]; [by apply IH|].
  rewrite Forall_forall in Hf |- *. intros x Hx. split; [by apply Hf|]. by intros ->.
Qed.

Lemma series_sorted c x address s : StronglySorted token_lt (owned_in_series c x address s).
Proof. apply strictly_sorted; [apply owned_in_series_nodup | apply (StronglySorted_merge_sort token_le); apply _]. Qed.

Lemma collected_sorted c address s xs : StronglySorted Z.lt xs ->
  StronglySorted token_lt (concat ((fun x => owned_in_series c x address s) <$> xs)) /\
  forall t, t ∈ concat ((fun x => owned_in_series c x address s) <$> xs) <-> t.1.1 = c /\ t.1.2 ∈ xs /\ Nft.TokenOwner s !! t = Some address.
Proof.
  induction 1 as [|x xs Hs [IH IHe] Hf]; simpl.
  { split; [constructor|]. intros t. split; [by intros ?%not_elem_of_nil | by intros (_ & ?%not_elem_of_nil & _)]. }
  rewrite Forall_forall in Hf. split.
  - apply StronglySorted_app. split_and!; [|apply series_sorted | exact IH].
    intros [[c1 x1] n1] [[c2 x2] n2] H1 H2. apply owned_in_series_elem in H1 as [[= -> ->] _]. apply IHe in H2 as (Hc & Hx & _). simpl in *.
    apply Hf in Hx. unfold token_lt, token_le. simpl. split; [lia|]. intros [=]. lia.
  - intros [[c1 x1] n1]. rewrite elem_of_app, owned_in_series_elem, IHe, elem_of_cons. simpl. split; [|intuition congruence].
    intros [([= -> ->] & Ho)|(-> & Hx & Ho)]; auto.
Qed.

Lemma seqZ_sorted m n : StronglySorted Z.lt (seqZ m n).
Proof.
  destruct (Z.le_gt_cases n 0) as [Hn|Hn]; [rewrite seqZ_nil by done; constructor|].
  revert m. pattern n. apply Zlt_0_ind; [|lia]. clear n Hn. intros n IH Hn m. destruct (decide (n = 0)) as [->|]; [constructor|].
  rewrite seqZ_cons by lia. constructor; [apply IH; lia|]. apply Forall_forall. intros x Hx. apply elem_of_seqZ in Hx. lia.
Qed.

(** The query for the tokens of an account in a collection answers exactly the
    tokens the account owns there in the series created so far, each once and in
    the order of their ids, although storage is iterated in no order. *)
Theorem collected_tokens_exact c address s :
  StronglySorted token_lt (collected_tokens c address s) /\
  forall t, t ∈ collected_tokens c address s <->
    t.1.1 = c /\ 0 <= t.1.2 < sget 0 c (Nft.NextSeriesId s) /\ Nft.TokenOwner s !! t = Some address.
Proof.
  destruct (collected_sorted c address s _ (seqZ_sorted 0 (sget 0 c (Nft.NextSeriesId s)))) as [Hs He]. split; [exact Hs|].
  intros t. unfold collected_tokens. rewrite He, elem_of_seqZ. by rewrite Z.add_0_l.
Qed.

(** ** Listings *)
Lemma open_ids_elem c id s : id ∈ open_listing_ids c s <-> is_Some (Nft.OpenCollectionListings s !! (c, id)).
Proof.
  unfold open_listing_ids. rewrite (merge_sort_Permutation Z.le), list_elem_of_fmap. split.
  - intros ([[c' id'] b] & -> & Hin). apply list_elem_of_filter in Hin as [Hc Hin]. simpl in *. subst c'. apply elem_of_map_to_list in Hin. by eexists.
  - intros [b Hb]. exists ((c, id), b). split; [done|]. apply list_elem_of_filter. split; [done | by apply elem_of_map_to_list].
Qed.

Lemma open_ids_sorted c s : StronglySorted Z.lt (open_listing_ids c s).
Proof.
  assert (Hs : StronglySorted (fun a b => a <= b /\ a <> b) (open_listing_ids c s)).
  { apply strictly_sorted; [|apply (StronglySorted_merge_sort Z.le); apply _].
    unfold open_listing_ids. rewrite (merge_sort_Permutation Z.le).
    apply NoDup_fmap_2_strong; [|apply NoDup_filter, NoDup_map_to_list].
    intros [[c1 i1] b1] [[c2 i2] b2] H1 H2. simpl. intros ->. apply list_elem_of_filter in H1 as [Hc1 H1], H2 as [Hc2 H2]. simpl in *. subst.
    apply elem_of_map_to_list in H1, H2. congruence. }
  revert Hs. generalize (open_listing_ids c s). induction 1 as [|a l _ IH Hf]; constructor; [done|].
  eapply Forall_impl; [exact Hf|]. simpl. lia.
Qed.

Lemma assigned_last (l : list Z) d : foldl (fun _ x => x) d l = default d (last l).
Proof. induction l as [|x l IH] using rev_ind; [done|]. by rewrite foldl_app, last_snoc. Qed.

Lemma filter_none cursor (l : list Z) : Forall (fun i => i < cursor) l -> filter (fun i => cursor <= i) l = [].
Proof. induction 1 as [|i l Hi _ IH]; [done|]. rewrite filter_cons_False by lia. exact IH. Qed.

Lemma filter_from cursor pre rest : Forall (fun i => i < cursor) pre -> Forall (fun i => cursor <= i) rest ->
  filter (fun i => cursor <= i) (pre ++ rest) = rest.
Proof.
  intros Hpre Hrest. rewrite filter_app, filter_none by done. simpl.
  induction Hrest as [|i rest Hi _ IH]; [done|]. rewrite filter_cons_True by done. by rewrite IH.
Qed.

(** The cursor of a page that is not the last leads to what follows it. *)
Lemma page_cursor c cursor limit s pre page rest : open_listing_ids c s = pre ++ page ++ rest ->
  Forall (in_range 128) (open_listing_ids c s) -> Forall (fun i => i < cursor) pre -> Forall (fun i => cursor <= i) (page ++ rest) ->
  page = take (Z.to_nat (Z.min limit MAX_COLLECTION_LISTING_LIMIT)) (page ++ rest) -> page <> [] ->
  exists highest, last page = Some highest /\
    collection_listings c cursor limit s =
      (if bool_decide (rest = []) then None else Some (highest + 1), omap (listing_of s) page) /\
    Forall (fun i => i < highest + 1) (pre ++ page) /\ Forall (fun i => highest + 1 <= i) rest.
Proof.
  intros Hids Hrange Hpre Hrest Hpage Hne. destruct page as [|highest page' _] using rev_ind; [done|]. clear Hne.
  exists highest. rewrite last_snoc. split; [done|].
  pose proof (open_ids_sorted c s) as Hs. rewrite Hids in Hs. pose proof Hs as Hs'. rewrite app_assoc in Hs'.
  assert (Hhi : highest ∈ pre ++ page' ++ [highest]) by set_solver.
  assert (Hafter : Forall (fun i => highest + 1 <= i) rest).
  { apply Forall_forall. intros x Hx. pose proof (StronglySorted_app_1_elem_of _ _ _ _ _ Hs' Hhi Hx). lia. }
  split; [|split; [|exact Hafter]].
  - unfold collection_listings. cbv zeta. rewrite Hids, filter_from, <- Hpage, assigned_last, last_snoc by done. cbn [default].
    destruct rest as [|y rest' _] using rev_ind.
    + rewrite app_nil_r, app_assoc, last_snoc, Z.eqb_refl. by rewrite bool_decide_eq_true_2.
    + rewrite (app_assoc pre), (app_assoc (pre ++ _)), last_snoc, bool_decide_eq_false_2 by (by destruct rest').
      apply Forall_app in Hafter as [_ Hy]. apply Forall_cons in Hy as [Hy _]. unfold id. rewrite (proj2 (Z.eqb_neq highest y)) by lia. cbn [negb].
      unfold wrapping_add. rewrite wrap_small; [done|].
      rewrite Hids, Forall_forall in Hrange. pose proof (Hrange highest ltac:(set_solver)). pose proof (Hrange y ltac:(set_solver)).
      unfold in_range in *. lia.
  - apply Forall_forall. intros x Hx. rewrite app_assoc in Hx, Hs'. apply elem_of_app in Hx as [Hx|Hx%list_elem_of_singleton]; [|lia].
    apply StronglySorted_app_1_l in Hs'. pose proof (StronglySorted_app_1_elem_of _ _ _ x highest Hs' Hx ltac:(set_solver)). lia.
Qed.

Lemma pages_follow c limit s : 0 < limit -> Forall (in_range 128) (open_listing_ids c s) -> forall n pre rest cursor,
  open_listing_ids c s = pre ++ rest -> Forall (fun i => i < cursor) pre -> Forall (fun i => cursor <= i) rest -> rest <> [] ->
  (length rest <= n)%nat -> all_pages n c cursor limit s = Some (omap (listing_of s) rest).
Proof.
  intros Hl Hrange n. induction n as [|n IH]; intros pre rest cursor Hids Hpre Hrest Hne Hlen; [destruct rest; simpl in *; [done | lia]|].
  set (k := Z.to_nat (Z.min limit MAX_COLLECTION_LISTING_LIMIT)).
  assert (Hk : (1 <= k)%nat) by (unfold k, MAX_COLLECTION_LISTING_LIMIT; lia).
  pose proof (take_drop k rest) as Hsplit. rewrite <- Hsplit in Hids, Hrest.
  assert (Hpage : take k rest <> []) by (destruct rest, k; simpl; done || lia).
  destruct (page_cursor c cursor limit s pre (take k rest) (drop k rest) Hids Hrange Hpre Hrest) as (hi & _ & Hrun & Hlo & Hhi);
    [by rewrite Hsplit | done |].
  cbn [all_pages]. rewrite Hrun. case_bool_decide as Hr.
  - rewrite <- Hsplit at 2. by rewrite Hr, app_nil_r.
  - rewrite (IH (pre ++ take k rest) (drop k rest)); [|by rewrite <- app_assoc | done | done | done | rewrite length_drop; lia].
    cbn. rewrite <- omap_app, Hsplit. done.
Qed.

Lemma length_omap_le {B C} (f : B -> option C) l : (length (omap f l) <= length l)%nat.
Proof. induction l as [|b l IH]; [done|]. csimpl. destruct (f b); simpl; lia. Qed.

(** Ids that have a listing are answered one by one. *)
Lemma listings_of_ids s ids : Forall (fun id => is_Some (Nft.Listings s !! id)) ids ->
  fst <$> omap (listing_of s) ids = ids /\ Forall (fun p => Nft.Listings s !! p.1 = Some p.2) (omap (listing_of s) ids).
Proof.
  induction 1 as [|id ids [l Hl] _ [IH1 IH2]]; [done|].
  assert (Hid : listing_of s id = Some (id, l)) by (unfold listing_of; by rewrite Hl). csimpl. rewrite !Hid. csimpl.
  split; [by f_equal | by constructor].
Qed.

(** C39: following the cursors from zero, a client gets every open listing of the
    collection exactly once, with its content, in the order of ids, in at most as
    many pages as there are open listings, or one empty page when there are none,
    whatever positive page size it asks for; no page has more than 100. *)
Theorem listings_paginate c limit s : 0 < limit ->
  (forall id, is_Some (Nft.OpenCollectionListings s !! (c, id)) -> in_range 128 id /\ is_Some (Nft.Listings s !! id)) ->
  exists answer, all_pages (Nat.max 1 (length (open_listing_ids c s))) c 0 limit s = Some answer /\
  fst <$> answer = open_listing_ids c s /\ StronglySorted Z.lt (open_listing_ids c s) /\
  (forall id, id ∈ open_listing_ids c s <-> is_Some (Nft.OpenCollectionListings s !! (c, id))) /\
  Forall (fun p => Nft.Listings s !! p.1 = Some p.2) answer /\
  (forall cursor, (length (collection_listings c cursor limit s).2 <= 100)%nat).
Proof.
  intros Hl Hopen. assert (Hr : Forall (in_range 128) (open_listing_ids c s)).
  { apply Forall_forall. intros id Hid%open_ids_elem. by apply Hopen. }
  destruct (listings_of_ids s (open_listing_ids c s)) as [Hfst Hall].
  { apply Forall_forall. intros id Hid%open_ids_elem. by apply Hopen. }
  exists (omap (listing_of s) (open_listing_ids c s)). split_and!; [|done | apply open_ids_sorted | intros id; apply open_ids_elem | done |].
  - destruct (decide (open_listing_ids c s = [])) as [He|He].
    + rewrite He. cbn [length Nat.max all_pages]. unfold collection_listings. rewrite He. cbn. by rewrite take_nil.
    + apply (pages_follow c limit s Hl Hr _ [] _ 0); [done | constructor | | done | lia].
      eapply Forall_impl; [exact Hr|]. unfold in_range. simpl. lia.
  - intros cursor. unfold collection_listings. cbn [snd].
    etransitivity; [apply length_omap_le|]. rewrite length_take. unfold MAX_COLLECTION_LISTING_LIMIT. lia.
Qed.

(** A cursor past the last listing does not end the iteration: the answer is an
    empty page and the cursor 1, from where a client would start over. *)
Theorem cursor_past_end_restarts c cursor limit s id : last (open_listing_ids c s) = Some id -> 0 < id < cursor ->
  collection_listings c cursor limit s = (Some 1, []).
Proof.
  intros Hlast [Hid Hc]. unfold collection_listings. cbv zeta. rewrite Hlast.
  assert (filter (fun i => cursor <= i) (open_listing_ids c s) = []) as ->.
  { pose proof (open_ids_sorted c s) as Hs. apply last_Some in Hlast as [l' Hl]. rewrite Hl in Hs |- *.
    apply filter_none, Forall_forall. intros x Hx. apply elem_of_app in Hx as [Hx|Hx%list_elem_of_singleton]; [|lia].
    pose proof (StronglySorted_app_1_elem_of _ _ _ x id Hs Hx ltac:(set_solver)). lia. }
  rewrite take_nil. cbn [foldl omap list_omap]. rewrite (proj2 (Z.eqb_neq 0 id)) by lia. reflexivity.
Qed.
End Queries.

(** ** The upgrade of listings

    Listings of the first release had no marketplace. *)
Record V1AuctionListing := {
  v1a_payment_asset : AssetId; v1a_reserve_price : Balance; v1a_close : BlockNumber; v1a_seller : AccountId; v1a_tokens : list TokenId;
  v1a_royalties_schedule : RoyaltiesSchedule;
}.

Record V1FixedPriceListing := {
  v1f_payment_asset : AssetId; v1f_fixed_price : Balance; v1f_close : BlockNumber; v1f_buyer : option AccountId; v1f_seller : AccountId;
  v1f_tokens : list TokenId; v1f_royalties_schedule : RoyaltiesSchedule;
}.

Inductive V1Listing := V1FixedPrice (l : V1FixedPriceListing) | V1Auction (l : V1AuctionListing).

Inductive MetadataBaseURI := V1Ipfs | V1Https (path : bytes).

(** The storage an upgrade touches; the listings of either release live under
    the same keys. *)
Record UpgradeStorage := mkUpgrade {
  up_version : Z;
  up_collection_metadata_uri : gmap CollectionId MetadataBaseURI;
  up_is_single_issue : gmap (CollectionId * SeriesId) bool;
  up_listings : gmap ListingId (V1Listing + Listing);
}.

(** [Releases] *)
Definition Releases_V1 : Z := 1.
Definition Releases_V2 : Z := 2.

Definition listing_migrated (listing : V1Listing) : Listing :=
  match listing with
  | V1FixedPrice l => FixedPrice {|
      fp_fixed_price := v1f_fixed_price l; fp_close := v1f_close l; fp_payment_asset := v1f_payment_asset l;
      fp_seller := v1f_seller l; fp_buyer := v1f_buyer l; fp_tokens := v1f_tokens l;
      fp_royalties_schedule := v1f_royalties_schedule l; fp_marketplace_id := None |}
  | V1Auction l => Auction {|
      au_reserve_price := v1a_reserve_price l; au_close := v1a_close l; au_payment_asset := v1a_payment_asset l;
      au_seller := v1a_seller l; au_tokens := v1a_tokens l; au_royalties_schedule := v1a_royalties_schedule l;
      au_marketplace_id := None |}
  end.

(** What [v1_storage::Listings::iter] yields: entries of the first release. *)
Definition v1_listings (u : UpgradeStorage) : list (ListingId * V1Listing) :=
  omap (fun kv => match kv.2 with inl l => Some (kv.1, l) | inr _ => None end) (map_to_list (up_listings u)).

Definition nft_on_runtime_upgrade (u : UpgradeStorage) : Z * UpgradeStorage :=
  if up_version u =? Releases_V1 then
    let listings := v1_listings u in
    let weight := Z.of_nat (length listings) in
    let migrated := foldl (fun m kv => <[kv.1 := inr (listing_migrated kv.2)]> m) (up_listings u) listings in
    (wrapping_add 64 6000000 (wrapping_mul 64 weight 100000), mkUpgrade Releases_V2 ∅ ∅ migrated)
  else (0, u).

Lemma migrate_fold ls (m : gmap ListingId (V1Listing + Listing)) id :
  NoDup ls.*1 -> foldl (fun m kv => <[kv.1 := inr (listing_migrated kv.2)]> m) m ls !! id =
  match list_to_map (M := gmap ListingId V1Listing) ls !! id with Some l => Some (inr (listing_migrated l)) | None => m !! id end.
Proof.
  revert m. induction ls as [|[i l] ls IH]; intros m Hn; [done|]. simpl in *. apply NoDup_cons in Hn as [Hi Hn]. rewrite IH by done.
  destruct (decide (i = id)) as [->|Hne]; [|by rewrite !lookup_insert_ne].
  rewrite (not_elem_of_list_to_map_1 ls id Hi). by rewrite !lookup_insert_eq.
Qed.

Lemma v1_keys_nodup (l : list (ListingId * (V1Listing + Listing))) : NoDup l.*1 ->
  NoDup (omap (fun kv => match kv.2 with inl l => Some (kv.1, l) | inr _ => None end) l).*1.
Proof.
  induction l as [|[i [a|b]] l IH]; csimpl; intros Hn; [constructor| |]; apply NoDup_cons in Hn as [Hi Hn]; [|by apply IH].
  constructor; [|by apply IH]. contradict Hi. apply list_elem_of_fmap in Hi as ([j a'] & -> & Hi).
  apply list_elem_of_omap in Hi as ([k [x|x]] & Hk & Heq); simplify_eq/=. apply list_elem_of_fmap. by exists (j, inl a').
Qed.

(** Upgrading storage of the first release turns every listing into one of the
    present release with the same terms and no marketplace, loses and adds none,
    and clears the retired maps; a second upgrade changes nothing. *)
Theorem upgrade_migrates_listings u : up_version u = Releases_V1 ->
  (forall id l, up_listings u !! id = Some l -> exists l1, l = inl l1) ->
  let u' := (nft_on_runtime_upgrade u).2 in
  (forall id, up_listings u' !! id = match up_listings u !! id with Some (inl l) => Some (inr (listing_migrated l)) | _ => None end) /\
  up_version u' = Releases_V2 /\ up_collection_metadata_uri u' = ∅ /\ up_is_single_issue u' = ∅ /\
  nft_on_runtime_upgrade u' = (0, u').
Proof.
  intros Hv Hold u'. unfold u', nft_on_runtime_upgrade. rewrite Hv. cbn [Z.eqb Releases_V1 Pos.eqb snd]. split; [|done].
  intros id. cbn [up_listings].
  assert (Hls : forall i l, (i, l) ∈ v1_listings u <-> up_listings u !! i = Some (inl l)).
  { intros i l. unfold v1_listings. rewrite list_elem_of_omap. split.
    - intros ([j [l1|l2]] & Hin & Heq); simplify_eq/=. by apply elem_of_map_to_list.
    - intros Hl. exists (i, inl l). split; [by apply elem_of_map_to_list | done]. }
  assert (Hnd : NoDup (v1_listings u).*1).
  { apply v1_keys_nodup, NoDup_fst_map_to_list. }
  rewrite migrate_fold by done. destruct (list_to_map _ !! id) as [l|] eqn:Hl.
  - apply elem_of_list_to_map_2, Hls in Hl. by rewrite Hl.
  - apply not_elem_of_list_to_map_2 in Hl. destruct (up_listings u !! id) as [l|] eqn:Hu; [|done].
    destruct (Hold id l Hu) as [l1 ->]. destruct Hl. apply list_elem_of_fmap. exists (id, l1). split; [done | by apply Hls].
Qed.

(** ** Concrete storage *)
Module QueryDemo.
Import NftRuntime.Demo.

(** Account 10 lists three tokens of two series. *)
Definition listed : S := Eval vm_compute in
  (bind (sell (Signed 10) (0, 0, 0) None 1 30 None None) (fun _ =>
   bind (sell (Signed 10) (0, 1, 0) None 1 40 None None) (fun _ =>
   auction (Signed 10) (0, 1, 1) 1 50 None None)) two_series).2.

Definition v1 : UpgradeStorage := mkUpgrade 1 {[0 := V1Ipfs]} {[(0, 0) := true]}
  {[5 := inl (V1FixedPrice {|
       v1f_payment_asset := 1; v1f_fixed_price := 30; v1f_close := 99; v1f_buyer := None;
       v1f_seller := 10; v1f_tokens := [(0, 0, 0)]; v1f_royalties_schedule := {| entitlements := [] |} |})]}.
End QueryDemo.
Import QueryDemo.

(** Two pages of at most two listings. *)
Lemma listings_paginate_witness : exists answer,
  all_pages 3 0 0 2 listed = Some answer /\ fst <$> answer = [0; 1; 2] /\
  (fst (collection_listings 0 0 2 listed), fst (collection_listings 0 2 2 listed)) = (Some 2, None).
Proof.
  assert (Hids : open_listing_ids 0 listed = [0; 1; 2]) by (vm_compute; reflexivity).
  assert (Hr : forall id, is_Some (Nft.OpenCollectionListings listed !! (0, id)) -> in_range 128 id /\ is_Some (Nft.Listings listed !! id)).
  { intros id Hid%open_ids_elem. rewrite Hids in Hid.
    repeat (apply elem_of_cons in Hid as [->|Hid]; [split; [vm_compute; split; discriminate | eexists; vm_compute; reflexivity]|]). by apply not_elem_of_nil in Hid. }
  destruct (listings_paginate 0 2 listed ltac:(lia) Hr) as (answer & Hp & Hf & _). rewrite Hids in Hp, Hf.
  exists answer. split; [exact Hp|]. split; [exact Hf | vm_compute; reflexivity].
Defined.
