(* ===== verification/EthAbi.v ===== *)
(** * Ethereum ABI encoding

    The [EthAbiCodec] implementations of [src/crml/support/src/lib.rs] and
    [src/crml/erc20-peg/src/types.rs], and the ["0x"] hex strings of the
    Ethereum JSON-RPC ([src/crml/eth-bridge/src/types.rs]). Addresses and hashes
    are lists of 20 and 32 bytes, a [U256] is a [Z]. *)

From S2P Require Import Prelude Support.

Abbreviation bytes := (list Z) (only parsing).

(** ** Big-endian words *)

(** The [n] low bytes of [z], most significant first. *)
Fixpoint be_bytes (n : nat) (z : Z) : bytes :=
  match n with
  | O => []
  | S n => be_bytes n (z / 256) ++ [z mod 256]
  end.

(** The number a big-endian byte string denotes. *)
Definition be_number (l : bytes) : Z := foldl (fun acc b => acc * 256 + b) 0 l.

Definition is_byte (b : Z) : Prop := 0 <= b < 256.

(** [EthAbiCodec for U256] and [EthAbiCodec for u64]: one 32-byte word. *)
Definition encode_U256 (z : Z) : bytes := be_bytes 32 z.

Definition encode_u64 (z : Z) : bytes := be_bytes 32 z.

(** ** Peg messages ([erc20-peg/src/types.rs]) *)
Record Erc20DepositEvent := mkDeposit {
  dep_token_address : bytes;
  dep_amount : Z;
  dep_beneficiary : bytes;
}.

Record WithdrawMessage := mkWithdraw {
  wm_token_address : bytes;
  wm_amount : Z;
  wm_beneficiary : bytes;
}.

(** [buf[i..j].copy_from_slice(src)] *)
Definition copy_slice (i : nat) (src buf : bytes) : bytes := take i buf ++ src ++ drop (i + length src) buf.

(** [&data[i..j]] within the data. *)
Definition slice (i j : nat) (data : bytes) : bytes := take (j - i) (drop i data).

Definition encode_WithdrawMessage (m : WithdrawMessage) : bytes :=
  let buf := replicate 96 0 in
  let buf := copy_slice 12 (wm_token_address m) buf in
  let buf := copy_slice 32 (be_bytes 32 (wm_amount m)) buf in
  copy_slice 76 (wm_beneficiary m) buf.

Definition encode_Erc20DepositEvent (e : Erc20DepositEvent) : bytes :=
  let buf := replicate 96 0 in
  let buf := copy_slice 12 (dep_token_address e) buf in
  let buf := copy_slice 32 (be_bytes 32 (dep_amount e)) buf in
  copy_slice 64 (dep_beneficiary e) buf.

Definition decode_Erc20DepositEvent (data : bytes) : option Erc20DepositEvent :=
  if negb (length data =? 96)%nat then None
  else Some {| dep_token_address := slice 12 32 data;
               dep_amount := be_number (slice 32 64 data);
               dep_beneficiary := slice 64 96 data |}.

#[global] Instance Erc20DepositEvent_eq_dec : EqDecision Erc20DepositEvent.
Proof. solve_decision. Defined.
#[global] Instance WithdrawMessage_eq_dec : EqDecision WithdrawMessage.
Proof. solve_decision. Defined.

(** ** Hex strings

    Characters are their ASCII codes. *)

(** The value of a hexadecimal digit. *)
Definition hex_digit (c : Z) : option Z :=
  if (48 <=? c) && (c <=? 57) then Some (c - 48)
  else if (97 <=? c) && (c <=? 102) then Some (c - 87)
  else if (65 <=? c) && (c <=? 70) then Some (c - 55)
  else None.

(** [u8::from_str_radix] of a string of two characters: a leading ["+"] is
    accepted. *)
Definition from_str_radix_16 (a b : Z) : option Z :=
  if a =? 43 then hex_digit b
  else match hex_digit a, hex_digit b with
       | Some x, Some y => Some (16 * x + y)
       | _, _ => None
       end.

(** [decode_hex] on a string of even length. *)
Fixpoint decode_hex (s : list Z) : option bytes :=
  match s with
  | a :: b :: s =>
      match from_str_radix_16 a b, decode_hex s with
      | Some x, Some l => Some (x :: l)
      | _, _ => None
      end
  | _ => Some []
  end.

(** [BytesVisitor::visit_str]: an error value for a malformed prefix or length,
    a panic ([expect]) for a character that is no hexadecimal digit. *)
Definition visit_str (value : list Z) : outcome unit bytes :=
  match value with
  | 48 :: 120 :: digits =>
      if Nat.even (length digits) then
        match decode_hex digits with Some l => Ok l | None => Panic end
      else Err tt
  | _ => Err tt
  end.

(** [Serialize for Bytes]: ["0x"] and the digits of [rustc_hex]. *)
Definition serialize_Bytes (to_hex : bytes -> list Z) (l : bytes) : list Z := 48 :: 120 :: to_hex l.

(** The lower case digit of a number below sixteen. *)
Definition hex_char (d : Z) : Z := if d <? 10 then 48 + d else 87 + d.

(** What [rustc_hex] documents: two lower case digits per byte. *)
Definition lower_hex (l : bytes) : list Z := concat ((fun b => [hex_char (b / 16); hex_char (b mod 16)]) <$> l).

(** ** Properties of words *)
Lemma be_bytes_length n z : length (be_bytes n z) = n.
Proof. revert z. induction n as [|n IH]; intros z; [done|]. simpl. rewrite length_app, IH. simpl. lia. Qed.

Lemma be_bytes_are_bytes n z : Forall is_byte (be_bytes n z).
Proof.
  revert z. induction n as [|n IH]; intros z; [constructor|]. simpl. apply Forall_app. split; [apply IH|].
  constructor; [|constructor]. unfold is_byte. pose proof (Z.mod_pos_bound z 256). lia.
Qed.

Lemma be_number_snoc l b : be_number (l ++ [b]) = be_number l * 256 + b.
Proof. unfold be_number. by rewrite foldl_app. Qed.

Lemma be_number_be_bytes n z : 0 <= z < 256 ^ Z.of_nat n -> be_number (be_bytes n z) = z.
Proof.
  revert z. induction n as [|n IH]; intros z Hz; [simpl in *; unfold be_number; simpl; lia|].
  simpl be_bytes. rewrite be_number_snoc, IH.
  - pose proof (Z.div_mod z 256). lia.
  - rewrite Nat2Z.inj_succ, Z.pow_succ_r in Hz by lia.
    split; [apply Z.div_pos; lia | apply Z.div_lt_upper_bound; lia].
Qed.

Lemma be_bytes_be_number l : Forall is_byte l -> be_bytes (length l) (be_number l) = l.
Proof.
  induction l as [|b l IH] using rev_ind; [done|].
  rewrite Forall_app, Forall_singleton. intros [Hl Hb]. unfold is_byte in Hb.
  rewrite length_app, Nat.add_comm, be_number_snoc. simpl.
  rewrite Z.div_add_l, (Z.div_small b) by lia.
  rewrite Z.add_0_r, IH by done. f_equal. f_equal.
  rewrite Z.add_comm, Z.mod_add, Z.mod_small by lia. done.
Qed.

Lemma be_number_bounds l : Forall is_byte l -> 0 <= be_number l < 256 ^ Z.of_nat (length l).
Proof.
  induction l as [|b l IH] using rev_ind; [done|].
  rewrite Forall_app, Forall_singleton. intros [Hl Hb]. specialize (IH Hl). unfold is_byte in Hb.
  rewrite length_app, be_number_snoc, Nat2Z.inj_add, Z.pow_add_r by lia.
  change (256 ^ Z.of_nat (length [b])) with 256. lia.
Qed.

(** ** Peg messages *)
Definition deposit_wf (e : Erc20DepositEvent) : Prop :=
  length (dep_token_address e) = 20%nat /\ in_range 256 (dep_amount e) /\ length (dep_beneficiary e) = 32%nat.

Lemma copy_slice_app (n : nat) (pre src mid post : bytes) : length pre = n -> length mid = length src ->
  copy_slice n src (pre ++ mid ++ post) = pre ++ src ++ post.
Proof.
  intros Hn Hm. unfold copy_slice. rewrite take_app_length' by done. f_equal. f_equal.
  rewrite app_assoc. apply drop_app_length'. rewrite length_app. lia.
Qed.

Lemma zeros_split : replicate 96 0 = replicate 12 0 ++ replicate 20 0 ++ replicate 32 0 ++ replicate 32 0.
Proof. reflexivity. Qed.

(** The three words of a deposit event. *)
Lemma encode_deposit_words e : deposit_wf e ->
  encode_Erc20DepositEvent e =
    replicate 12 0 ++ dep_token_address e ++ be_bytes 32 (dep_amount e) ++ dep_beneficiary e.
Proof.
  intros (Ht & _ & Hb). unfold encode_Erc20DepositEvent. cbv zeta. rewrite zeros_split.
  rewrite (copy_slice_app 12) by (rewrite ?length_replicate; lia).
  rewrite (app_assoc (replicate 12 0)), (copy_slice_app 32)
    by (rewrite ?be_bytes_length, ?length_app, ?length_replicate; lia).
  rewrite (app_assoc _ (be_bytes _ _)), <- (app_nil_r (replicate 32 0)).
  rewrite (copy_slice_app 64) by (rewrite ?length_app, ?be_bytes_length, ?length_replicate; lia).
  by rewrite app_nil_r, <- !app_assoc.
Qed.

(** The three words of a withdrawal message. *)
Lemma encode_withdraw_words m : length (wm_token_address m) = 20%nat -> length (wm_beneficiary m) = 20%nat ->
  encode_WithdrawMessage m =
    replicate 12 0 ++ wm_token_address m ++ be_bytes 32 (wm_amount m) ++ replicate 12 0 ++ wm_beneficiary m.
Proof.
  intros Ht Hb. unfold encode_WithdrawMessage. cbv zeta. rewrite zeros_split.
  rewrite (copy_slice_app 12) by (rewrite ?length_replicate; lia).
  rewrite (app_assoc (replicate 12 0)), (copy_slice_app 32)
    by (rewrite ?be_bytes_length, ?length_app, ?length_replicate; lia).
  change (replicate 32 0) with (replicate 12 0 ++ replicate 20 0).
  rewrite (app_assoc _ (be_bytes _ _)), (app_assoc _ (replicate 12 0)), <- (app_nil_r (replicate 20 0)).
  rewrite (copy_slice_app 76) by (rewrite ?length_app, ?be_bytes_length, ?length_replicate; lia).
  by rewrite app_nil_r, <- !app_assoc.
Qed.

(** A word of [n] bytes at offset [k]. *)
Lemma slice_app (n k : nat) (pre w post : bytes) : length pre = k -> length w = n ->
  slice k (k + n) (pre ++ w ++ post) = w.
Proof.
  intros Hk Hn. unfold slice. rewrite drop_app_length' by done.
  replace (k + n - k)%nat with n by lia. by apply take_app_length'.
Qed.

Lemma decode_encode_deposit e : deposit_wf e -> decode_Erc20DepositEvent (encode_Erc20DepositEvent e) = Some e.
Proof.
  intros Hwf. rewrite encode_deposit_words by done. destruct Hwf as (Ht & Ha & Hb).
  destruct e as [t a b]; cbn [dep_token_address dep_amount dep_beneficiary] in *. unfold decode_Erc20DepositEvent.
  rewrite !length_app, be_bytes_length, length_replicate, Ht, Hb. simpl negb. cbv iota.
  f_equal. f_equal.
  - apply (slice_app 20 12); [apply length_replicate | done].
  - rewrite (app_assoc (replicate 12 0)), (slice_app 32 32).
    + apply be_number_be_bytes. unfold in_range, umax in Ha. simpl Z.of_nat. change (256 ^ 32) with (2 ^ 256). lia.
    + rewrite length_app, length_replicate. lia.
    + apply be_bytes_length.
  - rewrite (app_assoc (replicate 12 0)), (app_assoc _ (be_bytes _ _)), <- (app_nil_r b) at 1.
    apply (slice_app 32 64); [|done].
    rewrite !length_app, be_bytes_length, length_replicate. lia.
Qed.

Lemma decode_deposit_inv data e : Forall is_byte data -> decode_Erc20DepositEvent data = Some e ->
  deposit_wf e /\ encode_Erc20DepositEvent e = replicate 12 0 ++ drop 12 data.
Proof.
  intros Hbytes. unfold decode_Erc20DepositEvent. destruct (Nat.eqb_spec (length data) 96) as [Hlen|]; [|done].
  simpl. intros [= <-].
  assert (Hs : forall i j, (i <= j <= 96)%nat -> length (slice i j data) = (j - i)%nat).
  { intros i j Hij. unfold slice. rewrite length_take, length_drop. lia. }
  assert (Hw : Forall is_byte (slice 32 64 data)) by (by apply Forall_take, Forall_drop).
  assert (Hwf : deposit_wf {| dep_token_address := slice 12 32 data; dep_amount := be_number (slice 32 64 data);
                              dep_beneficiary := slice 64 96 data |}).
  { split_and!; simpl; [apply Hs; lia | | apply Hs; lia].
    pose proof (be_number_bounds _ Hw) as Hr. rewrite Hs in Hr by lia.
    change (256 ^ Z.of_nat (64 - 32)) with (2 ^ 256) in Hr. unfold in_range, umax. lia. }
  split; [done|]. rewrite encode_deposit_words by done. cbn [dep_token_address dep_amount dep_beneficiary].
  pose proof (be_bytes_be_number _ Hw) as Hr. rewrite Hs in Hr by lia. simpl Nat.sub in Hr. rewrite Hr.
  apply (app_inv_head_iff (replicate 12 0)). unfold slice. rewrite <- (take_drop 20 (drop 12 data)) at 2.
  apply (app_inv_head_iff (take 20 (drop 12 data))).
  rewrite drop_drop, <- (take_drop 32 (drop (12 + 20) data)). apply (app_inv_head_iff (take 32 _)).
  rewrite drop_drop. apply take_ge. rewrite length_drop. lia.
Qed.

(** Deposit events survive encoding and decoding, and every byte string of
    three words decodes to a well-formed event that encodes to the same words
    up to the twelve padding bytes of the token address, which are ignored. *)
Theorem deposit_abi_roundtrip :
  (forall e, deposit_wf e -> decode_Erc20DepositEvent (encode_Erc20DepositEvent e) = Some e) /\
  (forall data, Forall is_byte data ->
    match decode_Erc20DepositEvent data with
    | Some e => length data = 96%nat /\ deposit_wf e /\ encode_Erc20DepositEvent e = replicate 12 0 ++ drop 12 data
    | None => length data <> 96%nat
    end).
Proof.
  split; [exact decode_encode_deposit|]. intros data Hb.
  destruct (decode_Erc20DepositEvent data) as [e|] eqn:He.
  - split; [|by apply decode_deposit_inv].
    unfold decode_Erc20DepositEvent in He. by destruct (Nat.eqb_spec (length data) 96).
  - unfold decode_Erc20DepositEvent in He. by destruct (Nat.eqb_spec (length data) 96).
Qed.

(** ** Hex strings *)
Lemma hex_digit_char d : 0 <= d < 16 -> hex_digit (hex_char d) = Some d.
Proof.
  intros Hd. unfold hex_char, hex_digit. destruct (Z.ltb_spec d 10).
  - rewrite (proj2 (Z.leb_le 48 _)), (proj2 (Z.leb_le (48 + d) 57)) by lia. simpl. f_equal. lia.
  - rewrite (proj2 (Z.leb_gt (87 + d) 57)), andb_false_r by lia.
    rewrite (proj2 (Z.leb_le 97 _)), (proj2 (Z.leb_le (87 + d) 102)) by lia. simpl. f_equal. lia.
Qed.

Lemma decode_hex_digits l : Forall is_byte l ->
  decode_hex (lower_hex l) = Some l.
Proof.
  unfold lower_hex.
  induction 1 as [|b l Hb Hl IH]; [done|]. unfold is_byte in Hb.
  assert (0 <= b / 16 < 16) by (split; [apply Z.div_pos | apply Z.div_lt_upper_bound]; lia).
  pose proof (Z.mod_pos_bound b 16 ltac:(lia)). pose proof (Z.div_mod b 16 ltac:(lia)).
  rewrite fmap_cons, concat_cons. cbn [app decode_hex]. rewrite IH. unfold from_str_radix_16.
  assert (hex_char (b / 16) <> 43) as ->%Z.eqb_neq by (unfold hex_char; destruct (Z.ltb_spec (b / 16) 10); lia).
  rewrite !hex_digit_char by lia. do 2 f_equal. lia.
Qed.

(** Bytes sent to the Ethereum node as a hex string are read back unchanged. *)
Theorem hex_bytes_roundtrip (to_hex : bytes -> list Z) l : (forall l, to_hex l = lower_hex l) ->
  Forall is_byte l -> visit_str (serialize_Bytes to_hex l) = Ok l.
Proof.
  intros Hhex Hl. unfold visit_str, serialize_Bytes. rewrite Hhex.
  assert (Nat.even (length (lower_hex l)) = true) as ->.
  { clear Hl. induction l as [|b l IH]; [done|]. exact IH. }
  by rewrite decode_hex_digits.
Qed.

Lemma hex_bytes_roundtrip_witness : visit_str (serialize_Bytes lower_hex [0; 171; 255]) = Ok [0; 171; 255].
Proof.
  apply (hex_bytes_roundtrip lower_hex [0; 171; 255]); [reflexivity|].
  repeat constructor; discriminate.
Defined.
