(* ===== verification/EthBridgeTypes.v ===== *)
(** * Data of the Ethereum bridge

    [src/crml/eth-bridge/src/types.rs], the bridge part of
    [src/primitives/src/eth.rs] and the storage of
    [src/crml/eth-bridge/src/lib.rs]. An authority key is the number its 33 bytes
    denote; addresses and hashes are byte lists. *)

From S2P Require Import Prelude Support EthAbi.

Abbreviation EthAddress := (list Z) (only parsing).
Abbreviation EthHash := (list Z) (only parsing).
Abbreviation EthyId := Z (only parsing).
Abbreviation EventClaimId := Z (only parsing).
Abbreviation EventTypeId := Z (only parsing).
Abbreviation EventProofId := Z (only parsing).
Abbreviation EthCallId := Z (only parsing).

(** [u64] identifiers, timestamps and block numbers; [u32] type identifiers. *)
Definition U64 : Z := 64.
Definition U32 : Z := 32.

(** [H160::default()], [H256::default()] *)
Definition zero_address : EthAddress := replicate 20 0.
Definition zero_hash : EthHash := replicate 32 0.

(** ** Oracle calls *)
Record CheckedEthCallRequest := mkCallRequest {
  cr_input : bytes;
  cr_target : EthAddress;
  cr_timestamp : Z;
  cr_max_block_look_behind : Z;
  cr_try_block_number : Z;
  cr_check_timestamp : Z;
}.

Inductive CheckedEthCallResult :=
| CallOk (return_data : bytes) (block timestamp : Z)
| ReturnDataExceedsLimit
| ReturnDataEmpty
| CallDataProviderErr
| InvalidEthBlock
| InvalidTimestamp.

#[global] Instance CheckedEthCallResult_eq_dec : EqDecision CheckedEthCallResult.
Proof. solve_decision. Defined.

(** The derived [Ord]: variants in order, then fields in order. *)
Fixpoint bytes_compare (a b : bytes) : comparison :=
  match a, b with
  | [], [] => Eq
  | [], _ :: _ => Lt
  | _ :: _, [] => Gt
  | x :: a, y :: b => match Z.compare x y with Eq => bytes_compare a b | c => c end
  end.

Definition variant_index (r : CheckedEthCallResult) : Z :=
  match r with
  | CallOk _ _ _ => 0
  | ReturnDataExceedsLimit => 1
  | ReturnDataEmpty => 2
  | CallDataProviderErr => 3
  | InvalidEthBlock => 4
  | InvalidTimestamp => 5
  end.

Definition result_compare (a b : CheckedEthCallResult) : comparison :=
  match a, b with
  | CallOk d1 b1 t1, CallOk d2 b2 t2 =>
      match bytes_compare d1 d2 with
      | Eq => match Z.compare b1 b2 with Eq => Z.compare t1 t2 | c => c end
      | c => c
      end
  | _, _ => Z.compare (variant_index a) (variant_index b)
  end.

(** ** Event claims *)
Record EventClaim := mkEventClaim {
  ec_tx_hash : EthHash;
  ec_data : bytes;
  ec_contract_address : EthAddress;
  ec_event_signature : EthHash;
}.

Inductive EventClaimResult :=
| Valid
| DataProviderErr
| TxStatusFailed
| UnexpectedContractAddress
| NoTxLogs
| NotEnoughConfirmations
| UnexpectedData
| Expired.

#[global] Instance EventClaimResult_eq_dec : EqDecision EventClaimResult.
Proof. solve_decision. Defined.

Inductive NotarizationPayload :=
| PayloadCall (call_id : EthCallId) (authority_index : Z) (result : CheckedEthCallResult)
| PayloadEvent (event_claim_id : EventClaimId) (authority_index : Z) (result : EventClaimResult).

Definition type_id (p : NotarizationPayload) : Z :=
  match p with PayloadCall _ _ _ => 0 | PayloadEvent _ _ _ => 1 end.

Definition authority_index (p : NotarizationPayload) : Z :=
  match p with PayloadCall _ i _ => i | PayloadEvent _ i _ => i end.

Definition payload_id (p : NotarizationPayload) : Z :=
  match p with PayloadCall id _ _ => id | PayloadEvent id _ _ => id end.

(** ** What the Ethereum node answers

    The fields of logs, receipts and blocks the bridge reads. *)
Record Log := mkLog {
  log_address : EthAddress;
  log_topics : list EthHash;
  log_data : bytes;
  log_transaction_hash : option EthHash;
}.

Record TransactionReceipt := mkReceipt {
  rc_block_number : Z;
  rc_logs : list Log;
  rc_status : option Z;
  rc_to : option EthAddress;
}.

Record EthBlock := mkBlock { blk_number : option Z; blk_timestamp : Z }.

Inductive LatestOrNumber := Latest | Number (n : Z).

Inductive BridgeRpcError := RpcHttpFetch | RpcInvalidJSON | RpcOcwConfig.

(** ** Notary sets and proofs ([primitives/src/eth.rs]) *)
Record ValidatorSet := mkValidatorSet { vs_validators : list EthyId; vs_id : Z }.

Inductive ConsensusLog :=
| AuthoritiesChange (s : ValidatorSet)
| OnDisabled (i : Z)
| OpaqueSigningRequest (message : bytes) (event_id : EventProofId)
| PendingAuthoritiesChange (s : ValidatorSet) (event_id : EventProofId).

Inductive EthCallFailure := FailReturnDataExceedsLimit | FailReturnDataEmpty | FailInternal.

(** [decl_event!] *)
Inductive Event :=
| Verified (id : EventClaimId)
| Invalid (id : EventClaimId)
| AuthoritySetChange (proof : EventProofId) (set_id : Z)
| ProofDelayed (proof : EventProofId).

(** ** Storage

    [decl_storage!] in three groups: event claims, the notary set with the
    proofs it signs, and the [eth_call] oracle. The notary group also holds the
    events and digest logs of the block, which [frame_system] keeps. *)
Record ClaimStore := mkClaimStore {
  EventClaims : gmap EventClaimId (EthHash * EventTypeId);
  EventData : gmap EventClaimId bytes;
  EventNotarizations : gmap (EventClaimId * EthyId) EventClaimResult;
  EventTypeToTypeId : gmap (EthAddress * EthHash) EventTypeId;
  TypeIdToEventType : gmap EventTypeId (EthAddress * EthHash);
  NextEventClaimId : EventClaimId;
  NextEventTypeId : EventTypeId;
  ProcessedTxBuckets : gset (Z * EthHash);
  ProcessedTxHashes : gset EthHash;
  PendingTxHashes : gmap EthHash EventClaimId;
  EventConfirmations : Z;
  EventDeadlineSeconds : Z;
}.

Definition set_EventClaims f c := mkClaimStore (f (EventClaims c)) (EventData c) (EventNotarizations c) (EventTypeToTypeId c) (TypeIdToEventType c) (NextEventClaimId c) (NextEventTypeId c) (ProcessedTxBuckets c) (ProcessedTxHashes c) (PendingTxHashes c) (EventConfirmations c) (EventDeadlineSeconds c).
Definition set_EventData f c := mkClaimStore (EventClaims c) (f (EventData c)) (EventNotarizations c) (EventTypeToTypeId c) (TypeIdToEventType c) (NextEventClaimId c) (NextEventTypeId c) (ProcessedTxBuckets c) (ProcessedTxHashes c) (PendingTxHashes c) (EventConfirmations c) (EventDeadlineSeconds c).
Definition set_EventNotarizations f c := mkClaimStore (EventClaims c) (EventData c) (f (EventNotarizations c)) (EventTypeToTypeId c) (TypeIdToEventType c) (NextEventClaimId c) (NextEventTypeId c) (ProcessedTxBuckets c) (ProcessedTxHashes c) (PendingTxHashes c) (EventConfirmations c) (EventDeadlineSeconds c).
Definition set_EventTypeToTypeId f c := mkClaimStore (EventClaims c) (EventData c) (EventNotarizations c) (f (EventTypeToTypeId c)) (TypeIdToEventType c) (NextEventClaimId c) (NextEventTypeId c) (ProcessedTxBuckets c) (ProcessedTxHashes c) (PendingTxHashes c) (EventConfirmations c) (EventDeadlineSeconds c).
Definition set_TypeIdToEventType f c := mkClaimStore (EventClaims c) (EventData c) (EventNotarizations c) (EventTypeToTypeId c) (f (TypeIdToEventType c)) (NextEventClaimId c) (NextEventTypeId c) (ProcessedTxBuckets c) (ProcessedTxHashes c) (PendingTxHashes c) (EventConfirmations c) (EventDeadlineSeconds c).
Definition set_NextEventClaimId f c := mkClaimStore (EventClaims c) (EventData c) (EventNotarizations c) (EventTypeToTypeId c) (TypeIdToEventType c) (f (NextEventClaimId c)) (NextEventTypeId c) (ProcessedTxBuckets c) (ProcessedTxHashes c) (PendingTxHashes c) (EventConfirmations c) (EventDeadlineSeconds c).
Definition set_NextEventTypeId f c := mkClaimStore (EventClaims c) (EventData c) (EventNotarizations c) (EventTypeToTypeId c) (TypeIdToEventType c) (NextEventClaimId c) (f (NextEventTypeId c)) (ProcessedTxBuckets c) (ProcessedTxHashes c) (PendingTxHashes c) (EventConfirmations c) (EventDeadlineSeconds c).
Definition set_ProcessedTxBuckets f c := mkClaimStore (EventClaims c) (EventData c) (EventNotarizations c) (EventTypeToTypeId c) (TypeIdToEventType c) (NextEventClaimId c) (NextEventTypeId c) (f (ProcessedTxBuckets c)) (ProcessedTxHashes c) (PendingTxHashes c) (EventConfirmations c) (EventDeadlineSeconds c).
Definition set_ProcessedTxHashes f c := mkClaimStore (EventClaims c) (EventData c) (EventNotarizations c) (EventTypeToTypeId c) (TypeIdToEventType c) (NextEventClaimId c) (NextEventTypeId c) (ProcessedTxBuckets c) (f (ProcessedTxHashes c)) (PendingTxHashes c) (EventConfirmations c) (EventDeadlineSeconds c).
Definition set_PendingTxHashes f c := mkClaimStore (EventClaims c) (EventData c) (EventNotarizations c) (EventTypeToTypeId c) (TypeIdToEventType c) (NextEventClaimId c) (NextEventTypeId c) (ProcessedTxBuckets c) (ProcessedTxHashes c) (f (PendingTxHashes c)) (EventConfirmations c) (EventDeadlineSeconds c).
Definition set_EventConfirmations f c := mkClaimStore (EventClaims c) (EventData c) (EventNotarizations c) (EventTypeToTypeId c) (TypeIdToEventType c) (NextEventClaimId c) (NextEventTypeId c) (ProcessedTxBuckets c) (ProcessedTxHashes c) (PendingTxHashes c) (f (EventConfirmations c)) (EventDeadlineSeconds c).
Definition set_EventDeadlineSeconds f c := mkClaimStore (EventClaims c) (EventData c) (EventNotarizations c) (EventTypeToTypeId c) (TypeIdToEventType c) (NextEventClaimId c) (NextEventTypeId c) (ProcessedTxBuckets c) (ProcessedTxHashes c) (PendingTxHashes c) (EventConfirmations c) (f (EventDeadlineSeconds c)).

Record NotaryStore := mkNotaryStore {
  ActivationThreshold : Z;
  DelayedEventProofs : gmap EventProofId bytes;
  NextProofId : EventProofId;
  NotaryKeys : option (list EthyId);
  NextNotaryKeys : list EthyId;
  NotarySetId : Z;
  NotarySetProofId : EventProofId;
  BridgePaused : bool;
  DelayedEventProofsPerBlock : Z;
  bridge_events : list Event;
  digest : list ConsensusLog;
}.

Definition set_ActivationThreshold f n := mkNotaryStore (f (ActivationThreshold n)) (DelayedEventProofs n) (NextProofId n) (NotaryKeys n) (NextNotaryKeys n) (NotarySetId n) (NotarySetProofId n) (BridgePaused n) (DelayedEventProofsPerBlock n) (bridge_events n) (digest n).
Definition set_DelayedEventProofs f n := mkNotaryStore (ActivationThreshold n) (f (DelayedEventProofs n)) (NextProofId n) (NotaryKeys n) (NextNotaryKeys n) (NotarySetId n) (NotarySetProofId n) (BridgePaused n) (DelayedEventProofsPerBlock n) (bridge_events n) (digest n).
Definition set_NextProofId f n := mkNotaryStore (ActivationThreshold n) (DelayedEventProofs n) (f (NextProofId n)) (NotaryKeys n) (NextNotaryKeys n) (NotarySetId n) (NotarySetProofId n) (BridgePaused n) (DelayedEventProofsPerBlock n) (bridge_events n) (digest n).
Definition set_NotaryKeys f n := mkNotaryStore (ActivationThreshold n) (DelayedEventProofs n) (NextProofId n) (f (NotaryKeys n)) (NextNotaryKeys n) (NotarySetId n) (NotarySetProofId n) (BridgePaused n) (DelayedEventProofsPerBlock n) (bridge_events n) (digest n).
Definition set_NextNotaryKeys f n := mkNotaryStore (ActivationThreshold n) (DelayedEventProofs n) (NextProofId n) (NotaryKeys n) (f (NextNotaryKeys n)) (NotarySetId n) (NotarySetProofId n) (BridgePaused n) (DelayedEventProofsPerBlock n) (bridge_events n) (digest n).
Definition set_NotarySetId f n := mkNotaryStore (ActivationThreshold n) (DelayedEventProofs n) (NextProofId n) (NotaryKeys n) (NextNotaryKeys n) (f (NotarySetId n)) (NotarySetProofId n) (BridgePaused n) (DelayedEventProofsPerBlock n) (bridge_events n) (digest n).
Definition set_NotarySetProofId f n := mkNotaryStore (ActivationThreshold n) (DelayedEventProofs n) (NextProofId n) (NotaryKeys n) (NextNotaryKeys n) (NotarySetId n) (f (NotarySetProofId n)) (BridgePaused n) (DelayedEventProofsPerBlock n) (bridge_events n) (digest n).
Definition set_BridgePaused f n := mkNotaryStore (ActivationThreshold n) (DelayedEventProofs n) (NextProofId n) (NotaryKeys n) (NextNotaryKeys n) (NotarySetId n) (NotarySetProofId n) (f (BridgePaused n)) (DelayedEventProofsPerBlock n) (bridge_events n) (digest n).
Definition set_DelayedEventProofsPerBlock f n := mkNotaryStore (ActivationThreshold n) (DelayedEventProofs n) (NextProofId n) (NotaryKeys n) (NextNotaryKeys n) (NotarySetId n) (NotarySetProofId n) (BridgePaused n) (f (DelayedEventProofsPerBlock n)) (bridge_events n) (digest n).
Definition set_bridge_events f n := mkNotaryStore (ActivationThreshold n) (DelayedEventProofs n) (NextProofId n) (NotaryKeys n) (NextNotaryKeys n) (NotarySetId n) (NotarySetProofId n) (BridgePaused n) (DelayedEventProofsPerBlock n) (f (bridge_events n)) (digest n).
Definition set_digest f n := mkNotaryStore (ActivationThreshold n) (DelayedEventProofs n) (NextProofId n) (NotaryKeys n) (NextNotaryKeys n) (NotarySetId n) (NotarySetProofId n) (BridgePaused n) (DelayedEventProofsPerBlock n) (bridge_events n) (f (digest n)).

Record CallStore := mkCallStore {
  NextEthCallId : EthCallId;
  EthCallRequests : list EthCallId;
  EthCallNotarizations : gmap (EthCallId * EthyId) CheckedEthCallResult;
  EthCallNotarizationsAggregated : gmap EthCallId (list (CheckedEthCallResult * Z));
  EthCallRequestInfo : gmap EthCallId CheckedEthCallRequest;
}.

Definition set_NextEthCallId f k := mkCallStore (f (NextEthCallId k)) (EthCallRequests k) (EthCallNotarizations k) (EthCallNotarizationsAggregated k) (EthCallRequestInfo k).
Definition set_EthCallRequests f k := mkCallStore (NextEthCallId k) (f (EthCallRequests k)) (EthCallNotarizations k) (EthCallNotarizationsAggregated k) (EthCallRequestInfo k).
Definition set_EthCallNotarizations f k := mkCallStore (NextEthCallId k) (EthCallRequests k) (f (EthCallNotarizations k)) (EthCallNotarizationsAggregated k) (EthCallRequestInfo k).
Definition set_EthCallNotarizationsAggregated f k := mkCallStore (NextEthCallId k) (EthCallRequests k) (EthCallNotarizations k) (f (EthCallNotarizationsAggregated k)) (EthCallRequestInfo k).
Definition set_EthCallRequestInfo f k := mkCallStore (NextEthCallId k) (EthCallRequests k) (EthCallNotarizations k) (EthCallNotarizationsAggregated k) (f (EthCallRequestInfo k)).

(** The pallet and the rest of the runtime. *)
Record State (W : Type) := mkState {
  claims : ClaimStore;
  notaries : NotaryStore;
  calls : CallStore;
  world : W;
}.
Arguments mkState {W} claims notaries calls world.
Arguments claims {W} s.
Arguments notaries {W} s.
Arguments calls {W} s.
Arguments world {W} s.

Definition on_claims {W} f (s : State W) : State W := mkState (f (claims s)) (notaries s) (calls s) (world s).
Definition on_notaries {W} f (s : State W) : State W := mkState (claims s) (f (notaries s)) (calls s) (world s).
Definition on_calls {W} f (s : State W) : State W := mkState (claims s) (notaries s) (f (calls s)) (world s).
Definition on_world {W} f (s : State W) : State W := mkState (claims s) (notaries s) (calls s) (f (world s)).
