(* ===== verification/EthBridge.v ===== *)
(** * The Ethereum bridge pallet

    [src/crml/eth-bridge/src/lib.rs]: event claims and their notarization,
    [eth_call] requests and their notarization, event proofs, and the change of
    the notary set with the sessions of an era. The validator set, the clock,
    rewards, session tracking and the subscribers of the bridge are the class
    [BridgeEnv] over a world [W]. The offchain worker is in [EthBridgeOcw]. *)

From S2P Require Import Prelude Support EthAbi EthBridgeTypes.

Definition BUCKET_FACTOR_S : Z := 3600.
Definition CLAIM_PRUNING_INTERVAL : Z := BUCKET_FACTOR_S / 5.

(** [Config::NotarizationThreshold] in percent, [Percent::from_rational] of
    [sp_arithmetic], and the order in which a map over identifiers is
    iterated, which the hash of its keys decides. *)
Class BridgeConfig := {
  NotarizationThreshold : Z;
  percent_from_rational : Z -> Z -> Z;
  iter_order : forall V, gmap Z V -> list (Z * V);
}.

(** The parts of the runtime the pallet's [Config] names. A subscriber that
    panics yields [None]. *)
Class BridgeEnv (W : Type) := {
  authority_set : W -> list AccountId;
  unix_now : W -> Z;
  reward_notary : AccountId -> W -> W;
  is_next_session_final : W -> bool * bool;
  is_active_session_final : W -> bool;
  on_success : EventClaimId -> EthAddress -> EthHash -> bytes -> W -> option W;
  on_failure : EventClaimId -> EthAddress -> EthHash -> bytes -> W -> option W;
  on_eth_call_complete : EthCallId -> bytes -> Z -> Z -> W -> option W;
  on_eth_call_failed : EthCallId -> EthCallFailure -> W -> option W;
}.

(** ** Operations that only touch the pallet *)
Section Storage.
Context {W : Type}.
Abbreviation St := (State W).

Definition notary_keys (n : NotaryStore) : list EthyId := default [] (NotaryKeys n).

Definition write_claims (f : ClaimStore -> ClaimStore) : D St unit := modify (on_claims f).
Definition write_notaries (f : NotaryStore -> NotaryStore) : D St unit := modify (on_notaries f).
Definition write_calls (f : CallStore -> CallStore) : D St unit := modify (on_calls f).

Definition deposit_event (e : Event) : D St unit := write_notaries (set_bridge_events (fun l => l ++ [e])).
Definition deposit_log (l : ConsensusLog) : D St unit := write_notaries (set_digest (fun d => d ++ [l])).

Definition validator_set (n : NotaryStore) : ValidatorSet :=
  {| vs_validators := notary_keys n; vs_id := NotarySetId n |}.

(** The type id of an event, assigned when the event is seen first. *)
Definition event_type_id (event : EthAddress * EthHash) : D St EventTypeId :=
  let* c := gets claims in
  match EventTypeToTypeId c !! event with
  | Some id => ret id
  | None =>
      let next := NextEventTypeId c in
      do* write_claims (set_EventTypeToTypeId (insert event next)) in
      do* write_claims (set_TypeIdToEventType (insert next event)) in
      do* write_claims (set_NextEventTypeId (fun _ => wrapping_add U32 next 1)) in
      ret next
  end.

(** [EventClaimVerifier::submit_event_claim] *)
Definition submit_event_claim (contract_address : EthAddress) (event_signature tx_hash : EthHash)
    (event_data : bytes) : D St EventClaimId :=
  let* c := gets claims in
  do* ensure (negb (bool_decide (tx_hash ∈ ProcessedTxHashes c))) (EthBridge BridgeError.AlreadyNotarized) in
  do* ensure (bool_decide (PendingTxHashes c !! tx_hash = None)) (EthBridge BridgeError.DuplicateClaim) in
  let* type_id := event_type_id (contract_address, event_signature) in
  let* event_claim_id := gets (fun s => NextEventClaimId (claims s)) in
  do* write_claims (set_EventData (insert event_claim_id event_data)) in
  do* write_claims (set_EventClaims (insert event_claim_id (tx_hash, type_id))) in
  do* write_claims (set_NextEventClaimId (fun _ => wrapping_add U64 event_claim_id 1)) in
  do* write_claims (set_PendingTxHashes (insert tx_hash event_claim_id)) in
  ret event_claim_id.

Definition do_generate_event_proof (event_proof_id : EventProofId) (packed_event_with_id : bytes) : D St unit :=
  deposit_log (OpaqueSigningRequest packed_event_with_id event_proof_id).

(** [EventClaimVerifier::generate_event_proof] of an ABI encoded event. *)
Definition generate_event_proof (event : bytes) : D St EventProofId :=
  let* n := gets notaries in
  let event_proof_id := NextProofId n in
  do* write_notaries (set_NextProofId (fun _ => wrapping_add U64 event_proof_id 1)) in
  let packed_event_with_id := event ++ encode_u64 (vs_id (validator_set n)) ++ encode_u64 event_proof_id in
  do* (if BridgePaused n then
    do* write_notaries (set_DelayedEventProofs (insert event_proof_id packed_event_with_id)) in
    deposit_event (ProofDelayed event_proof_id)
  else do_generate_event_proof event_proof_id packed_event_with_id) in
  ret event_proof_id.

(** ** Administration *)
Definition set_event_confirmations (origin : Origin) (confirmations : Z) : D St unit :=
  do* ensure_root origin in
  write_claims (set_EventConfirmations (fun _ => confirmations)).

Definition set_event_deadline (origin : Origin) (seconds : Z) : D St unit :=
  do* ensure_root origin in
  write_claims (set_EventDeadlineSeconds (fun _ => seconds)).

Definition set_delayed_event_proofs_per_block (origin : Origin) (count : Z) : D St unit :=
  do* ensure_root origin in
  write_notaries (set_DelayedEventProofsPerBlock (fun _ => count)).
End Storage.

Section Bridge.
Context {W : Type} {config : BridgeConfig} {wenv : BridgeEnv W}.
Abbreviation St := (State W).

(** A call of a subscriber. *)
Definition notify (f : W -> option W) : D St unit := fun s =>
  match f (world s) with
  | Some w => (Ok tt, on_world (fun _ => w) s)
  | None => (Panic, s)
  end.

(** [T::AuthoritySet::validators().len() as u32] *)
Definition notary_count (s : St) : Z := wrap U32 (Z.of_nat (length (authority_set (world s)))).

(** ** Event notarization *)

(** The votes on a claim that satisfy [P]. *)
Definition count_notarizations (P : EventClaimResult -> bool) (id : EventClaimId) (c : ClaimStore) : Z :=
  Z.of_nat (size (filter (fun kv => kv.1.1 = id /\ P kv.2 = true) (EventNotarizations c))).

Definition is_valid (r : EventClaimResult) : bool := match r with Valid => true | _ => false end.

Definition remove_prefix {V} (id : Z) (m : gmap (Z * EthyId) V) : gmap (Z * EthyId) V :=
  filter (fun kv => kv.1.1 <> id) m.

(** [a % b] of unsigned integers. *)
Definition rem (a b : Z) : D St Z := if b =? 0 then panic else ret (a mod b).

(** Takes a claim with its data and votes out of storage. *)
Definition take_claim (id : EventClaimId) : D St (EthHash * EventTypeId * bytes) :=
  let* c := gets claims in
  let* event_data := ok_or (EventData c !! id) (EthBridge BridgeError.InvalidClaim) in
  do* write_claims (set_EventData (delete id)) in
  do* write_claims (set_EventNotarizations (remove_prefix id)) in
  let '(eth_tx_hash, event_type_id) := sget (zero_hash, 0) id (EventClaims c) in
  do* write_claims (set_EventClaims (delete id)) in
  ret (eth_tx_hash, event_type_id, event_data).

Definition event_of_type (event_type_id : EventTypeId) (c : ClaimStore) : EthAddress * EthHash :=
  sget (zero_address, zero_hash) event_type_id (TypeIdToEventType c).

(** The claim did not notarize. *)
Definition reject_claim (id : EventClaimId) : D St unit :=
  let* claim := take_claim id in
  let '(eth_tx_hash, event_type_id, event_data) := claim in
  let* event := gets (fun s => event_of_type event_type_id (claims s)) in
  do* write_claims (set_PendingTxHashes (delete eth_tx_hash)) in
  do* deposit_event (Invalid id) in
  notify (on_failure id event.1 event.2 event_data).

(** The claim is notarized: its transaction is noted as processed in the bucket
    of the current time. *)
Definition accept_claim (id : EventClaimId) : D St unit :=
  let* claim := take_claim id in
  let '(eth_tx_hash, event_type_id, event_data) := claim in
  let* event := gets (fun s => event_of_type event_type_id (claims s)) in
  let* ttl := gets (fun s => EventDeadlineSeconds (claims s)) in
  let* now := gets (fun s => unix_now (world s)) in
  let* r := rem (wrapping_add U64 now ttl) ttl in
  let bucket_index := r / BUCKET_FACTOR_S in
  do* write_claims (set_ProcessedTxBuckets (union {[ (bucket_index, eth_tx_hash) ]})) in
  do* write_claims (set_ProcessedTxHashes (union {[ eth_tx_hash ]})) in
  do* write_claims (set_PendingTxHashes (delete eth_tx_hash)) in
  do* deposit_event (Verified id) in
  notify (on_success id event.1 event.2 event_data).

Definition handle_event_notarization (event_claim_id : EventClaimId) (result : EventClaimResult)
    (notary_id : EthyId) : D St unit :=
  let* c := gets claims in
  do* ensure (bool_decide (is_Some (EventClaims c !! event_claim_id))) (EthBridge BridgeError.InvalidClaim) in
  do* write_claims (set_EventNotarizations (insert (event_claim_id, notary_id) result)) in
  let* n := gets notary_count in
  let* yay_count := gets (fun s => count_notarizations is_valid event_claim_id (claims s)) in
  let* nay_count := gets (fun s => count_notarizations (fun r => negb (is_valid r)) event_claim_id (claims s)) in
  if 100 - NotarizationThreshold <? percent_from_rational nay_count n then reject_claim event_claim_id
  else if NotarizationThreshold <=? percent_from_rational yay_count n then accept_claim event_claim_id
  else ret tt.

(** ** Call notarization *)

(** [*notarizations.entry(result).or_insert(0) += 1] on an ordered map. *)
Fixpoint increment (r : CheckedEthCallResult) (l : list (CheckedEthCallResult * Z)) : list (CheckedEthCallResult * Z) :=
  match l with
  | [] => [(r, 1)]
  | (r', n) :: l' =>
      match result_compare r r' with
      | Eq => (r', wrapping_add U32 n 1) :: l'
      | Lt => (r, 1) :: l
      | Gt => (r', n) :: increment r l'
      end
  end.

(** The loop over the counts: the first result with consensus, or the total. *)
Fixpoint find_consensus (n total : Z) (l : list (CheckedEthCallResult * Z)) : CheckedEthCallResult + Z :=
  match l with
  | [] => inr total
  | (r, count) :: l =>
      if NotarizationThreshold <=? percent_from_rational count n then inl r
      else find_consensus n (wrapping_add U32 total count) l
  end.

Definition can_reach_consensus (n outstanding : Z) (l : list (CheckedEthCallResult * Z)) : bool :=
  existsb (fun '(_, count) =>
    NotarizationThreshold <=? percent_from_rational (wrapping_add U32 count outstanding) n) l.

(** [requests.iter().position(|x| *x == call_id).map(|idx| requests.remove(idx))] *)
Fixpoint remove_first (id : EthCallId) (l : list EthCallId) : list EthCallId :=
  match l with
  | [] => []
  | x :: l => if x =? id then l else x :: remove_first id l
  end.

Definition do_callback_and_clean_up (call_id : EthCallId) (result : CheckedEthCallResult) : D St unit :=
  do* notify (match result with
              | CallOk return_data block timestamp => on_eth_call_complete call_id return_data block timestamp
              | ReturnDataEmpty => on_eth_call_failed call_id FailReturnDataEmpty
              | ReturnDataExceedsLimit => on_eth_call_failed call_id FailReturnDataExceedsLimit
              | _ => on_eth_call_failed call_id FailInternal
              end) in
  do* write_calls (set_EthCallNotarizations (remove_prefix call_id)) in
  do* write_calls (set_EthCallNotarizationsAggregated (delete call_id)) in
  do* write_calls (set_EthCallRequestInfo (delete call_id)) in
  write_calls (set_EthCallRequests (remove_first call_id)).

Definition handle_call_notarization (call_id : EthCallId) (result : CheckedEthCallResult) (notary_id : EthyId)
    : D St unit :=
  let* k := gets calls in
  do* ensure (bool_decide (is_Some (EthCallRequestInfo k !! call_id))) (EthBridge BridgeError.InvalidClaim) in
  do* write_calls (set_EthCallNotarizations (insert (call_id, notary_id) result)) in
  let notarizations := increment result (sget [] call_id (EthCallNotarizationsAggregated k)) in
  let* n := gets notary_count in
  match find_consensus n 0 notarizations with
  | inl agreed => do_callback_and_clean_up call_id agreed
  | inr total_count =>
      let outstanding_count := saturating_sub n total_count in
      if (total_count =? n) || negb (can_reach_consensus n outstanding_count notarizations)
      then do_callback_and_clean_up call_id result
      else write_calls (set_EthCallNotarizationsAggregated (insert call_id notarizations))
  end.

(** ** The notarization extrinsic *)
Definition submit_notarization (origin : Origin) (payload : NotarizationPayload) : D St unit :=
  transactional (
    do* ensure_none origin in
    let index := Z.to_nat (authority_index payload) in
    let* keys := gets (fun s => notary_keys (notaries s)) in
    let* notary_public_key := ok_or (keys !! index) (EthBridge BridgeError.InvalidNotarization) in
    do* match payload with
        | PayloadCall call_id _ result => handle_call_notarization call_id result notary_public_key
        | PayloadEvent event_claim_id _ result => handle_event_notarization event_claim_id result notary_public_key
        end in
    modify (on_world (fun w =>
      match authority_set w !! index with Some v => reward_notary v w | None => w end))).

(** [ValidateUnsigned::validate_unsigned]: what the transaction pool and the
    block author check before an unsigned notarization is applied. *)
Inductive Validity :=
| ValidTransaction (provides : Z * Z * Z)
| InvalidBadProof.

Definition validate_unsigned {Signature} (verify : EthyId -> NotarizationPayload -> Signature -> bool)
    (payload : NotarizationPayload) (signature : Signature) (s : St) : Validity :=
  match notary_keys (notaries s) !! Z.to_nat (authority_index payload) with
  | None => InvalidBadProof
  | Some notary_public_key =>
      if bool_decide (is_Some (EventNotarizations (claims s) !! (payload_id payload, notary_public_key)))
      then InvalidBadProof
      else if negb (verify notary_public_key payload signature) then InvalidBadProof
      else ValidTransaction (type_id payload, payload_id payload, authority_index payload)
  end.

(** ** Blocks *)

(** The hashes a bucket holds. *)
Definition bucket_hashes (bucket : Z) (c : ClaimStore) : gset EthHash :=
  set_map snd (filter (fun kv => kv.1 = bucket) (ProcessedTxBuckets c)).

Definition prune_bucket (bucket : Z) (c : ClaimStore) : ClaimStore :=
  set_ProcessedTxBuckets (filter (fun kv => kv.1 <> bucket))
    (set_ProcessedTxHashes (fun p => p ∖ bucket_hashes bucket c) c).

(** Drops the bucket of the current time. *)
Definition prune_claims : D St unit :=
  let* now := gets (fun s => unix_now (world s)) in
  let* ttl := gets (fun s => EventDeadlineSeconds (claims s)) in
  let* r := rem now ttl in
  write_claims (prune_bucket (r / BUCKET_FACTOR_S)).

(** Logs proofs that were delayed while the bridge was paused. *)
Definition process_delayed : D St unit :=
  let* n := gets notaries in
  let max_delayed_events := Z.to_nat (DelayedEventProofsPerBlock n) in
  for_each (take max_delayed_events (iter_order _ (DelayedEventProofs n))) (fun '(id, packed_event_with_id) =>
    do* do_generate_event_proof id packed_event_with_id in
    write_notaries (set_DelayedEventProofs (delete id))).

Definition on_initialize (block_number : BlockNumber) : D St unit :=
  do* (if block_number mod CLAIM_PRUNING_INTERVAL =? 0 then prune_claims else ret tt) in
  let* n := gets notaries in
  if negb (bool_decide (DelayedEventProofs n = ∅)) && negb (BridgePaused n) then process_delayed else ret tt.

(** ** Sessions *)

(** Announces the keys of the next session and the proof that will attest them. *)
Definition log_notary_change (next_keys : list EthyId) : D St unit :=
  do* write_notaries (set_NextNotaryKeys (fun _ => next_keys)) in
  let* n := gets notaries in
  let event_proof_id := NextProofId n in
  let next_validator_set_id := wrapping_add U64 (NotarySetId n) 1 in
  do* deposit_event (AuthoritySetChange event_proof_id next_validator_set_id) in
  do* write_notaries (set_NotarySetProofId (fun _ => event_proof_id)) in
  do* write_notaries (set_NextProofId (fun _ => wrapping_add U64 event_proof_id 1)) in
  deposit_log (PendingAuthoritiesChange
    {| vs_validators := next_keys; vs_id := next_validator_set_id |} event_proof_id).

Definition handle_authorities_change (new queued : list EthyId) : D St unit :=
  let* w := gets world in
  if (is_next_session_final w).1 then log_notary_change queued
  else if is_active_session_final w then
    do* write_notaries (set_BridgePaused (fun _ => true)) in
    let* n := gets notaries in
    if bool_decide (NextNotaryKeys n = []) then log_notary_change new else ret tt
  else ret tt.

(** [OneSessionHandler] *)
Definition on_genesis_session (keys : list EthyId) : D St unit :=
  if bool_decide (keys = []) then ret tt
  else
    let* n := gets notaries in
    if bool_decide (NotaryKeys n = None) then write_notaries (set_NotaryKeys (fun _ => Some keys)) else panic.

Definition on_new_session (validators queued_validators : list EthyId) : D St unit :=
  let* w := gets world in
  if (is_next_session_final w).1 || is_active_session_final w
  then handle_authorities_change validators queued_validators else ret tt.

Definition on_before_session_ending : D St unit :=
  let* w := gets world in
  if is_active_session_final w then
    do* write_notaries (set_BridgePaused (fun _ => false)) in
    let* next_notary_keys := gets (fun s => NextNotaryKeys (notaries s)) in
    do* write_notaries (set_NextNotaryKeys (fun _ => [])) in
    do* write_notaries (set_NotaryKeys (fun _ => Some next_notary_keys)) in
    write_notaries (set_NotarySetId (fun id => wrapping_add U64 id 1))
  else ret tt.

(** [EthCallOracle::checked_eth_call] *)
Definition checked_eth_call (target : EthAddress) (input : bytes)
    (timestamp try_block_number max_block_look_behind : Z) : D St EthCallId :=
  let* call_id := gets (fun s => NextEthCallId (calls s)) in
  let* now := gets (fun s => unix_now (world s)) in
  do* write_calls (set_EthCallRequestInfo (insert call_id
    {| cr_check_timestamp := now; cr_input := input; cr_target := target; cr_timestamp := timestamp;
       cr_try_block_number := try_block_number; cr_max_block_look_behind := max_block_look_behind |})) in
  do* write_calls (set_EthCallRequests (fun l => l ++ [call_id])) in
  do* write_calls (set_NextEthCallId (fun _ => wrapping_add U64 call_id 1)) in
  ret call_id.
End Bridge.
