(* ===== verification/EthBridgeOcw.v ===== *)
(** * The offchain worker of the Ethereum bridge

    What a validator's node does after each block
    ([src/crml/eth-bridge/src/lib.rs], [offchain_worker] and the functions it
    calls): it checks one pending claim and one pending [eth_call] against its
    Ethereum node and submits a signed notarization for each. The Ethereum node
    is the class [EthereumRpc], one answer per question during a run; signing
    is an argument. *)

From S2P Require Import Prelude Support Search EthAbi EthBridgeTypes EthBridge.

Definition CLAIMS_PER_BLOCK : nat := 1.
Definition CALLS_PER_BLOCK : nat := 1.

(** [trait BridgeEthereumRpcApi] *)
Class EthereumRpc := {
  get_block_by_number : LatestOrNumber -> BridgeRpcError + option EthBlock;
  get_transaction_receipt : EthHash -> BridgeRpcError + option TransactionReceipt;
  rpc_eth_call : EthAddress -> bytes -> LatestOrNumber -> BridgeRpcError + bytes;
}.

Section Ocw.
Context {W : Type} {config : BridgeConfig} {wenv : BridgeEnv W} {rpc : EthereumRpc}.
Abbreviation St := (State W).

(** The first log of the transaction that carries the topic. *)
Definition matching_log (tx_hash topic : EthHash) (logs : list Log) : option Log :=
  head (filter (fun l => log_transaction_hash l = Some tx_hash /\ topic ∈ log_topics l) logs).

(** The checks on the age of the block the transaction is in. *)
Definition check_age (observed_block_number now : Z) (c : ClaimStore) : EventClaimResult :=
  match get_block_by_number Latest with
  | inl _ | inr None => DataProviderErr
  | inr (Some latest_block) =>
      let block_confirmations := saturating_sub (default 0 (blk_number latest_block)) observed_block_number in
      if block_confirmations <? EventConfirmations c then NotEnoughConfirmations
      else if EventDeadlineSeconds c <? wrapping_mul U64 block_confirmations 14 then Expired
      else
        match get_block_by_number (Number observed_block_number) with
        | inl _ | inr None => DataProviderErr
        | inr (Some observed_block) =>
            if EventDeadlineSeconds c <? saturating_sub now (saturate U64 (blk_timestamp observed_block))
            then Expired else Valid
        end
  end.

Definition offchain_try_notarize_event (claim : EventClaim) (s : St) : EventClaimResult :=
  match get_transaction_receipt (ec_tx_hash claim) with
  | inl _ => DataProviderErr
  | inr None => NoTxLogs
  | inr (Some tx_receipt) =>
      if default 0 (rc_status tx_receipt) =? 0 then TxStatusFailed
      else if negb (bool_decide (rc_to tx_receipt = Some (ec_contract_address claim)))
      then UnexpectedContractAddress
      else
        match matching_log (ec_tx_hash claim) (ec_event_signature claim) (rc_logs tx_receipt) with
        | None => NoTxLogs
        | Some log =>
            if negb (bool_decide (log_data log = ec_data claim)) then UnexpectedData
            else if negb (bool_decide (log_address log = ec_contract_address claim))
            then UnexpectedContractAddress
            else check_age (rc_block_number tx_receipt) (unix_now (world s)) (claims s)
        end
  end.

(** The block at which a call is executed: the hinted one if it is recent
    enough, the latest one otherwise. *)
Definition call_target (request : CheckedEthCallRequest) (latest_number latest_timestamp now : Z)
    : option (Z * Z) :=
  let check_delay := saturating_sub now (cr_check_timestamp request) in
  let extra_look_behind := check_delay / 12 in
  let oldest_acceptable_eth_block :=
    saturating_sub (saturating_sub latest_number (cr_max_block_look_behind request)) extra_look_behind in
  if (oldest_acceptable_eth_block <=? cr_try_block_number request) && (cr_try_block_number request <? latest_number)
  then
    match get_block_by_number (Number (cr_try_block_number request)) with
    | inl _ | inr None => None
    | inr (Some target_block) =>
        Some (cr_try_block_number request, saturate U64 (blk_timestamp target_block))
    end
  else Some (latest_number, latest_timestamp).

Definition offchain_try_eth_call (request : CheckedEthCallRequest) (s : St) : CheckedEthCallResult :=
  match get_block_by_number Latest with
  | inl _ | inr None => CallDataProviderErr
  | inr (Some latest_block) =>
      let latest_eth_block_timestamp := saturate U64 (blk_timestamp latest_block) in
      if latest_eth_block_timestamp =? umax U64 then InvalidTimestamp
      else if latest_eth_block_timestamp <? cr_timestamp request then InvalidTimestamp
      else
        match blk_number latest_block with
        | None => InvalidEthBlock
        | Some number =>
            if (number =? 0) || (number =? umax U64) then InvalidEthBlock
            else
              match call_target request number latest_eth_block_timestamp (unix_now (world s)) with
              | None => CallDataProviderErr
              | Some (target_block_number, target_block_timestamp) =>
                  match rpc_eth_call (cr_target request) (cr_input request) (Number target_block_number) with
                  | inl _ => CallDataProviderErr
                  | inr return_data =>
                      if bool_decide (return_data = []) then ReturnDataEmpty
                      else if (length return_data =? 32)%nat
                      then CallOk return_data target_block_number target_block_timestamp
                      else ReturnDataExceedsLimit
                  end
              end
        end
  end.

(** ** The worker *)
Section Keys.
Context {Signature : Type} (sign : EthyId -> NotarizationPayload -> option Signature).

(** [offchain_send_notarization]: the submitted transaction, if signing works. *)
Definition send (key : EthyId) (payload : NotarizationPayload) : list (NotarizationPayload * Signature) :=
  match sign key payload with Some signature => [(payload, signature)] | None => [] end.

(** The first local key that is a notary key, with its index as a [u16]. *)
Fixpoint find_active_ethy_key (local_keys notary_keys : list EthyId) : option (EthyId * Z) :=
  match local_keys with
  | [] => None
  | key :: local_keys =>
      match position key notary_keys with
      | Some i => Some (key, wrap 16 (Z.of_nat i))
      | None => find_active_ethy_key local_keys notary_keys
      end
  end.

Definition do_event_notarization_ocw (active_key : EthyId) (index : Z) (s : St)
    : list (NotarizationPayload * Signature) :=
  if BridgePaused (notaries s) then []
  else
    flat_map (fun '(event_claim_id, (tx_hash, type_id)) =>
      if bool_decide (is_Some (EventNotarizations (claims s) !! (event_claim_id, active_key))) then []
      else
        match EventData (claims s) !! event_claim_id with
        | None => []
        | Some event_data =>
            let event := event_of_type type_id (claims s) in
            let result := offchain_try_notarize_event
              {| ec_tx_hash := tx_hash; ec_data := event_data; ec_contract_address := event.1;
                 ec_event_signature := event.2 |} s in
            send active_key (PayloadEvent event_claim_id index result)
        end)
      (take CLAIMS_PER_BLOCK (iter_order _ (EventClaims (claims s)))).

Definition do_call_notarization_ocw (active_key : EthyId) (index : Z) (s : St)
    : list (NotarizationPayload * Signature) :=
  flat_map (fun call_id =>
    if bool_decide (is_Some (EthCallNotarizations (calls s) !! (call_id, active_key))) then []
    else
      match EthCallRequestInfo (calls s) !! call_id with
      | None => []
      | Some request => send active_key (PayloadCall call_id index (offchain_try_eth_call request s))
      end)
    (take CALLS_PER_BLOCK (EthCallRequests (calls s))).

Definition offchain_worker (is_validator : bool) (local_keys : list EthyId) (s : St)
    : list (NotarizationPayload * Signature) :=
  if negb is_validator then []
  else
    match find_active_ethy_key local_keys (notary_keys (notaries s)) with
    | None => []
    | Some (active_key, index) =>
        let supports := Z.of_nat (length (notary_keys (notaries s))) in
        if percent_from_rational supports (Z.of_nat (length (authority_set (world s))))
           <? ActivationThreshold (notaries s) then []
        else do_event_notarization_ocw active_key index s ++ do_call_notarization_ocw active_key index s
    end.
End Keys.

(** ** Correctness *)

(** What a [Valid] verdict attests: the transaction succeeded, went to the
    contract, its first matching log is the claimed event, and the block is
    deep and recent enough. *)
Definition attested (claim : EventClaim) (s : St) : Prop :=
  exists receipt status log latest observed,
    get_transaction_receipt (ec_tx_hash claim) = inr (Some receipt) /\
    rc_status receipt = Some status /\ status <> 0 /\
    rc_to receipt = Some (ec_contract_address claim) /\
    matching_log (ec_tx_hash claim) (ec_event_signature claim) (rc_logs receipt) = Some log /\
    log_data log = ec_data claim /\ log_address log = ec_contract_address claim /\
    get_block_by_number Latest = inr (Some latest) /\
    get_block_by_number (Number (rc_block_number receipt)) = inr (Some observed) /\
    let confirmations := saturating_sub (default 0 (blk_number latest)) (rc_block_number receipt) in
    EventConfirmations (claims s) <= confirmations /\
    wrapping_mul U64 confirmations 14 <= EventDeadlineSeconds (claims s) /\
    saturating_sub (unix_now (world s)) (saturate U64 (blk_timestamp observed)) <= EventDeadlineSeconds (claims s).

Lemma check_age_valid n now c : check_age n now c = Valid <->
  exists latest observed,
    get_block_by_number Latest = inr (Some latest) /\ get_block_by_number (Number n) = inr (Some observed) /\
    let confirmations := saturating_sub (default 0 (blk_number latest)) n in
    EventConfirmations c <= confirmations /\ wrapping_mul U64 confirmations 14 <= EventDeadlineSeconds c /\
    saturating_sub now (saturate U64 (blk_timestamp observed)) <= EventDeadlineSeconds c.
Proof.
  unfold check_age. split.
  - intros H. repeat (case_match; try discriminate H); bool_to_prop. eauto 10.
  - intros (latest & observed & -> & -> & H1 & H2 & H3).
    rewrite (proj2 (Z.ltb_ge _ _) H1), (proj2 (Z.ltb_ge _ _) H2), (proj2 (Z.ltb_ge _ _) H3). done.
Qed.

(** A notary votes that a claim is valid exactly when its Ethereum node
    attests the event. *)
Theorem notarizes_attested_events claim s : offchain_try_notarize_event claim s = Valid <-> attested claim s.
Proof.
  unfold offchain_try_notarize_event, attested. split.
  - intros H. repeat (case_match; try discriminate H).
    apply check_age_valid in H as (latest & observed & Hl & Ho & H). bool_to_prop.
    repeat match goal with E : bool_decide _ = true |- _ => apply bool_decide_eq_true in E end.
    match goal with E : default 0 ?st <> 0 |- _ => destruct st as [status|] eqn:Hst; [|done] end.
    eauto 20.
  - intros (receipt & status & log & latest & observed & -> & Hst & Hnz & Hto & -> & Hd & Ha & H).
    rewrite Hst. simpl. rewrite (proj2 (Z.eqb_neq _ _) Hnz), !bool_decide_true by done.
    apply check_age_valid. eauto.
Qed.

(** *** The worker's submissions *)
Section Submissions.
Context {Signature : Type} (sign : EthyId -> NotarizationPayload -> option Signature).
Context (verify : EthyId -> NotarizationPayload -> Signature -> bool).
Hypothesis verify_sign : forall key payload signature, sign key payload = Some signature -> verify key payload signature = true.

Lemma find_active_key_lookup local keys key i : find_active_ethy_key local keys = Some (key, i) ->
  Z.of_nat (length keys) <= 2 ^ 16 -> key ∈ local /\ keys !! Z.to_nat i = Some key.
Proof.
  intros H Hlen. induction local as [|k local IH]; [done|]. simpl in H.
  destruct (position k keys) as [j|] eqn:Hj.
  - injection H as <- <-. split; [left|]. apply position_lookup in Hj. pose proof (lookup_lt_Some _ _ _ Hj).
    rewrite wrap_small by (unfold in_range, umax; lia). by rewrite Nat2Z.id.
  - destruct (IH H) as [? ?]. split; [by right | done].
Qed.

Lemma send_elem key p payload signature : (payload, signature) ∈ send sign key p ->
  payload = p /\ sign key p = Some signature.
Proof.
  unfold send. destruct (sign key p) eqn:E; [intros ?%list_elem_of_singleton; naive_solver | intros ?%not_elem_of_nil; done].
Qed.

(** Every event notarization the worker submits concerns a pending claim its
    key has not voted on, carries the verdict of its Ethereum node, and passes
    [validate_unsigned]. *)
Theorem worker_event_votes_valid is_validator local s id index result signature :
  Z.of_nat (length (notary_keys (notaries s))) <= 2 ^ 16 ->
  (forall V (m : gmap Z V), iter_order V m ≡ₚ map_to_list m) ->
  (PayloadEvent id index result, signature) ∈ offchain_worker sign is_validator local s ->
  validate_unsigned verify (PayloadEvent id index result) signature s = ValidTransaction (1, id, index) /\
  exists key tx type_id data, key ∈ local /\
    EventClaims (claims s) !! id = Some (tx, type_id) /\ EventData (claims s) !! id = Some data /\
    let event := event_of_type type_id (claims s) in
    result = offchain_try_notarize_event (mkEventClaim tx data event.1 event.2) s.
Proof.
  intros Hlen Hiter. unfold offchain_worker. destruct is_validator; [|intros ?%not_elem_of_nil; done]. simpl.
  destruct (find_active_ethy_key _ _) as [[key i]|] eqn:Hk; [|intros ?%not_elem_of_nil; done].
  apply find_active_key_lookup in Hk as [Hlocal Hkey]; [|done].
  case_match; [intros ?%not_elem_of_nil; done|]. intros [Hin|Hin]%elem_of_app.
  - unfold do_event_notarization_ocw in Hin. case_match; [by apply not_elem_of_nil in Hin|].
    apply list_elem_of_In, in_flat_map in Hin as ((id' & tx & ty) & Hid & Hin). apply list_elem_of_In in Hid, Hin.
    apply elem_of_take in Hid as (j & Hj & _). apply list_elem_of_lookup_2 in Hj.
    rewrite Hiter in Hj. apply elem_of_map_to_list in Hj.
    case_bool_decide as Hvoted; [by apply not_elem_of_nil in Hin|].
    destruct (EventData (claims s) !! id') as [data|] eqn:Hdata; [|by apply not_elem_of_nil in Hin].
    apply send_elem in Hin as [[= -> -> ->] Hsig]. split; [|naive_solver].
    unfold validate_unsigned. cbn [authority_index payload_id type_id]. rewrite Hkey, bool_decide_false by done.
    by rewrite (verify_sign _ _ _ Hsig).
  - unfold do_call_notarization_ocw in Hin.
    apply list_elem_of_In, in_flat_map in Hin as (call & _ & Hin). apply list_elem_of_In in Hin.
    repeat case_match; try (by apply not_elem_of_nil in Hin). by apply send_elem in Hin as [? _].
Qed.
End Submissions.
End Ocw.
