(* ===== verification/EthBridgeProps.v ===== *)
(** * Invariants of the Ethereum bridge

    The consistency of the claim, notary and call storage, what each operation
    does to it, and its preservation by every step of the runtime that touches
    the pallet. *)

From S2P Require Import Prelude Support EthAbi EthBridgeTypes EthBridge.

(** ** Claims *)
Record claims_ok (c : ClaimStore) : Prop := {
  ok_data : forall id, is_Some (EventClaims c !! id) <-> is_Some (EventData c !! id);
  ok_pending : forall tx id, PendingTxHashes c !! tx = Some id <->
    exists ty, EventClaims c !! id = Some (tx, ty);
  ok_unprocessed : forall tx id, PendingTxHashes c !! tx = Some id -> tx ∉ ProcessedTxHashes c;
  ok_ids : forall id, is_Some (EventClaims c !! id) -> 0 <= id < NextEventClaimId c;
  ok_next : in_range U64 (NextEventClaimId c);
  ok_types : forall e t, EventTypeToTypeId c !! e = Some t <-> TypeIdToEventType c !! t = Some e;
  ok_type_ids : forall t, is_Some (TypeIdToEventType c !! t) -> 0 <= t < NextEventTypeId c;
  ok_next_type : in_range U32 (NextEventTypeId c);
  ok_typed : forall id tx t, EventClaims c !! id = Some (tx, t) -> is_Some (TypeIdToEventType c !! t);
  ok_votes : forall id k, is_Some (EventNotarizations c !! (id, k)) -> is_Some (EventClaims c !! id);
  ok_buckets : forall tx, tx ∈ ProcessedTxHashes c <-> exists b, (b, tx) ∈ ProcessedTxBuckets c;
  ok_one_bucket : forall tx b b', (b, tx) ∈ ProcessedTxBuckets c -> (b', tx) ∈ ProcessedTxBuckets c -> b = b';
}.

Definition with_type (e : EthAddress * EthHash) (c : ClaimStore) : ClaimStore :=
  match EventTypeToTypeId c !! e with
  | Some _ => c
  | None =>
      set_NextEventTypeId (fun _ => wrapping_add U32 (NextEventTypeId c) 1)
        (set_TypeIdToEventType (insert (NextEventTypeId c) e)
          (set_EventTypeToTypeId (insert e (NextEventTypeId c)) c))
  end.

Definition type_of (e : EthAddress * EthHash) (c : ClaimStore) : EventTypeId :=
  match EventTypeToTypeId c !! e with Some t => t | None => NextEventTypeId c end.

(** The claim storage after a claim on [tx] was queued. *)
Definition with_claim (e : EthAddress * EthHash) (tx : EthHash) (data : bytes) (c : ClaimStore) : ClaimStore :=
  let id := NextEventClaimId c in
  set_PendingTxHashes (insert tx id)
    (set_NextEventClaimId (fun _ => wrapping_add U64 id 1)
      (set_EventClaims (insert id (tx, type_of e c))
        (set_EventData (insert id data) (with_type e c)))).

(** The claim storage without the claim [id] on [tx]. *)
Definition without_claim (id : EventClaimId) (tx : EthHash) (c : ClaimStore) : ClaimStore :=
  set_PendingTxHashes (delete tx)
    (set_EventClaims (delete id)
      (set_EventNotarizations (remove_prefix id) (set_EventData (delete id) c))).

Definition processed (bucket : Z) (tx : EthHash) (c : ClaimStore) : ClaimStore :=
  set_ProcessedTxHashes (union {[ tx ]}) (set_ProcessedTxBuckets (union {[ (bucket, tx) ]}) c).

Lemma lookup_remove_prefix {V} (id i k : Z) (m : gmap (Z * Z) V) :
  remove_prefix id m !! (i, k) = if decide (i = id) then None else m !! (i, k).
Proof.
  unfold remove_prefix. destruct (decide (i = id)) as [->|Hne].
  - apply map_lookup_filter_None. right. intros v _ []. done.
  - destruct (m !! (i, k)) as [v|] eqn:E.
    + by apply map_lookup_filter_Some.
    + apply map_lookup_filter_None. by left.
Qed.

Lemma with_type_ok e c : claims_ok c -> NextEventTypeId c < umax U32 ->
  claims_ok (with_type e c) /\ TypeIdToEventType (with_type e c) !! type_of e c = Some e.
Proof.
  intros Hok Hmax. unfold with_type, type_of. destruct (EventTypeToTypeId c !! e) as [t|] eqn:He.
  { split; [done|]. by apply (ok_types c Hok). }
  split; [|apply lookup_insert_eq].
  pose proof (ok_next_type c Hok) as Hn.
  assert (Hw : wrapping_add U32 (NextEventTypeId c) 1 = NextEventTypeId c + 1).
  { unfold wrapping_add. apply wrap_small. unfold in_range in *. lia. }
  assert (Hfresh : TypeIdToEventType c !! NextEventTypeId c = None).
  { apply eq_None_not_Some. intros H%(ok_type_ids c Hok). lia. }
  destruct Hok. constructor; cbn; try done.
  - intros e' t. destruct (decide (e' = e)) as [->|Hne].
    + rewrite lookup_insert_eq. destruct (decide (t = NextEventTypeId c)) as [->|Ht].
      * rewrite lookup_insert_eq. naive_solver.
      * rewrite lookup_insert_ne by done. split; [naive_solver|]. intros H%ok_types0. congruence.
    + rewrite lookup_insert_ne by done. destruct (decide (t = NextEventTypeId c)) as [->|Ht].
      * rewrite lookup_insert_eq. split; [|naive_solver]. intros H%ok_types0. congruence.
      * by rewrite lookup_insert_ne.
  - intros t. rewrite Hw. destruct (decide (t = NextEventTypeId c)) as [->|Ht]; [unfold in_range in *; lia|].
    rewrite lookup_insert_ne by done. intros H%ok_type_ids0. lia.
  - rewrite Hw. unfold in_range in *. lia.
  - intros id tx t Hid. destruct (decide (t = NextEventTypeId c)) as [->|Ht]; [by rewrite lookup_insert_eq|].
    rewrite lookup_insert_ne by done. eauto.
Qed.

Lemma with_claim_ok e tx data c : claims_ok c -> NextEventTypeId c < umax U32 -> NextEventClaimId c < umax U64 ->
  tx ∉ ProcessedTxHashes c -> PendingTxHashes c !! tx = None -> claims_ok (with_claim e tx data c).
Proof.
  intros Hok Ht Hmax Hnew Hpend. destruct (with_type_ok e c Hok Ht) as [Hok' Htype].
  assert (Hsame : NextEventClaimId (with_type e c) = NextEventClaimId c /\
    PendingTxHashes (with_type e c) = PendingTxHashes c /\ ProcessedTxHashes (with_type e c) = ProcessedTxHashes c).
  { unfold with_type. by destruct (EventTypeToTypeId c !! e). }
  destruct Hsame as (Hid & Hpd & Hpr).
  pose proof (ok_next c Hok) as Hn. pose proof (ok_ids c Hok) as Hids.
  unfold with_claim. set (ty := type_of e c) in *. set (c1 := with_type e c) in *.
  rewrite <- Hid in *. rewrite <- Hpr in Hnew. rewrite <- Hpd in Hpend. clearbody c1 ty. clear Hid Hpd Hpr Hids Hok Ht.
  set (id := NextEventClaimId c1) in *.
  assert (Hw : wrapping_add U64 id 1 = id + 1).
  { unfold wrapping_add. apply wrap_small. unfold in_range in *. lia. }
  assert (Hfresh : EventClaims c1 !! id = None).
  { apply eq_None_not_Some. intros H%(ok_ids c1 Hok'). unfold id in H. lia. }
  assert (Hdata : EventData c1 !! id = None).
  { apply eq_None_not_Some. intros H%(ok_data c1 Hok'). rewrite Hfresh in H. by destruct H. }
  destruct Hok'. constructor; cbn; try done.
  - intros i. destruct (decide (i = id)) as [->|]; [rewrite !lookup_insert_eq | rewrite !lookup_insert_ne by done]; naive_solver.
  - intros tx' i. destruct (decide (tx' = tx)) as [->|Hne].
    + rewrite lookup_insert_eq. destruct (decide (i = id)) as [->|Hi].
      * rewrite lookup_insert_eq. naive_solver.
      * rewrite lookup_insert_ne by done. split; [naive_solver|]. intros H%ok_pending0. congruence.
    + rewrite lookup_insert_ne by done. destruct (decide (i = id)) as [->|Hi].
      * rewrite lookup_insert_eq. split; [|naive_solver]. intros [ty' H]%ok_pending0. congruence.
      * rewrite lookup_insert_ne by done. apply ok_pending0.
  - intros tx' i. destruct (decide (tx' = tx)) as [->|Hne]; [done|]. rewrite lookup_insert_ne by done. eauto.
  - intros i. rewrite Hw. destruct (decide (i = id)) as [->|]; [unfold in_range in *; lia|].
    rewrite lookup_insert_ne by done. intros H%ok_ids0. unfold id. lia.
  - rewrite Hw. unfold in_range in *. lia.
  - intros i tx' t. destruct (decide (i = id)) as [->|]; [rewrite lookup_insert_eq; naive_solver|].
    rewrite lookup_insert_ne by done. eauto.
  - intros i k Hv. destruct (decide (i = id)) as [->|]; [by rewrite lookup_insert_eq|].
    rewrite lookup_insert_ne by done. eauto.
Qed.

Lemma without_claim_ok id tx ty c : claims_ok c -> EventClaims c !! id = Some (tx, ty) ->
  claims_ok (without_claim id tx c).
Proof.
  intros Hok Hid. pose proof (proj2 (ok_pending c Hok tx id) (ex_intro _ ty Hid)) as Hp.
  destruct Hok. constructor; cbn; try done.
  - intros i. destruct (decide (i = id)) as [->|]; [by rewrite !lookup_delete_eq | by rewrite !lookup_delete_ne].
  - intros tx' i. destruct (decide (tx' = tx)) as [->|Hne].
    + rewrite lookup_delete_eq. split; [done|]. intros [ty' H].
      apply lookup_delete_Some in H as [Hi H]. enough (i = id) by done.
      assert (PendingTxHashes c !! tx = Some i) by (apply ok_pending0; eauto). congruence.
    + rewrite lookup_delete_ne by done. destruct (decide (i = id)) as [->|Hi].
      * rewrite lookup_delete_eq. split; [|naive_solver]. intros [ty' H]%ok_pending0. congruence.
      * by rewrite lookup_delete_ne.
  - intros tx' i [Hne H]%lookup_delete_Some. eauto.
  - intros i [? [Hne H]%lookup_delete_Some]. eauto.
  - intros i tx' t [Hne H]%lookup_delete_Some. eauto.
  - intros i k. rewrite lookup_remove_prefix. case_decide as Hi; [by intros []|].
    rewrite lookup_delete_ne by done. apply ok_votes0.
Qed.

Lemma processed_ok b tx c : claims_ok c -> tx ∉ ProcessedTxHashes c -> PendingTxHashes c !! tx = None ->
  claims_ok (processed b tx c).
Proof.
  intros Hok Hnew Hpend. destruct Hok. constructor; cbn; try done.
  - intros tx' i H. pose proof (ok_unprocessed0 _ _ H). assert (tx' <> tx) by congruence. set_solver.
  - intros tx'. rewrite elem_of_union, elem_of_singleton, ok_buckets0. set_solver.
  - intros tx' b1 b2. rewrite !elem_of_union, !elem_of_singleton.
    assert (forall b, (b, tx) ∉ ProcessedTxBuckets c) by (intros b' Hb'; apply Hnew, ok_buckets0; eauto).
    intros [?|?] [?|?]; simplify_eq; [done| naive_solver | naive_solver | eauto].
Qed.

Lemma elem_of_bucket_hashes b tx c : tx ∈ bucket_hashes b c <-> (b, tx) ∈ ProcessedTxBuckets c.
Proof.
  unfold bucket_hashes. rewrite elem_of_map. split.
  - intros ([b' tx'] & -> & [Hb ?]%elem_of_filter). simpl in *. by subst.
  - intros H. exists (b, tx). by rewrite elem_of_filter.
Qed.

Lemma prune_bucket_ok b c : claims_ok c -> claims_ok (prune_bucket b c).
Proof.
  intros Hok. destruct Hok. constructor; cbn; try done.
  - intros tx id H. pose proof (ok_unprocessed0 _ _ H). set_solver.
  - intros tx. rewrite elem_of_difference, elem_of_bucket_hashes, ok_buckets0. split.
    + intros [[b' Hb'] Hb]. exists b'. apply elem_of_filter. simpl. split; [by intros -> | done].
    + intros [b' [Hne Hb']%elem_of_filter]. simpl in Hne. split; [by eauto|]. intros Hb. by apply Hne, (ok_one_bucket0 tx).
  - intros tx b1 b2 [_ H1]%elem_of_filter [_ H2]%elem_of_filter. eauto.
Qed.

Lemma vote_ok id k r c : claims_ok c -> is_Some (EventClaims c !! id) ->
  claims_ok (set_EventNotarizations (insert (id, k) r) c).
Proof.
  intros Hok Hid. destruct Hok. constructor; cbn; try done.
  intros i k'. destruct (decide ((i, k') = (id, k))) as [[= -> ->]|Hne]; [done|]. rewrite lookup_insert_ne by done. apply ok_votes0.
Qed.

(** ** Calls *)
Record calls_ok (k : CallStore) : Prop := {
  ok_requests : NoDup (EthCallRequests k);
  ok_info : forall id, id ∈ EthCallRequests k <-> is_Some (EthCallRequestInfo k !! id);
  ok_call_ids : forall id, id ∈ EthCallRequests k -> 0 <= id < NextEthCallId k;
  ok_next_call : in_range U64 (NextEthCallId k);
  ok_call_votes : forall id key, is_Some (EthCallNotarizations k !! (id, key)) -> id ∈ EthCallRequests k;
  ok_aggregated : forall id, is_Some (EthCallNotarizationsAggregated k !! id) -> id ∈ EthCallRequests k;
}.

Definition without_call (id : EthCallId) (k : CallStore) : CallStore :=
  set_EthCallRequests (remove_first id)
    (set_EthCallRequestInfo (delete id)
      (set_EthCallNotarizationsAggregated (delete id)
        (set_EthCallNotarizations (remove_prefix id) k))).

Lemma elem_of_remove_first id x l : NoDup l -> x ∈ remove_first id l <-> x ∈ l /\ x <> id.
Proof.
  induction 1 as [|y l Hy Hnd IH]; simpl; [set_solver|].
  destruct (Z.eqb_spec y id) as [->|Hne]; [set_solver|]. rewrite !elem_of_cons, IH. naive_solver.
Qed.

Lemma remove_first_NoDup id l : NoDup l -> NoDup (remove_first id l).
Proof.
  induction 1 as [|y l Hy Hnd IH]; simpl; [constructor|].
  destruct (Z.eqb_spec y id); [done|]. constructor; [|done]. rewrite elem_of_remove_first by done. naive_solver.
Qed.

Lemma without_call_ok id k : calls_ok k -> calls_ok (without_call id k).
Proof.
  intros Hok. destruct Hok. constructor; cbn; try done; [by apply remove_first_NoDup|..];
    setoid_rewrite elem_of_remove_first; try done.
  - intros i. destruct (decide (i = id)) as [->|].
    + rewrite lookup_delete_eq. split; [naive_solver | by intros []].
    + rewrite lookup_delete_ne by done. rewrite ok_info0. naive_solver.
  - intros i [? _]. eauto.
  - intros i key. rewrite lookup_remove_prefix. case_decide as Hi; [by intros []|]. eauto.
  - intros i. destruct (decide (i = id)) as [->|]; [rewrite lookup_delete_eq; by intros []|].
    rewrite lookup_delete_ne by done. eauto.
Qed.

Lemma call_vote_ok id key r k : calls_ok k -> id ∈ EthCallRequests k ->
  calls_ok (set_EthCallNotarizations (insert (id, key) r) k).
Proof.
  intros Hok Hid. destruct Hok. constructor; cbn; try done.
  intros i key'. destruct (decide ((i, key') = (id, key))) as [[= -> ->]|Hne]; [done|].
  rewrite lookup_insert_ne by done. apply ok_call_votes0.
Qed.

Lemma aggregate_ok id l k : calls_ok k -> id ∈ EthCallRequests k ->
  calls_ok (set_EthCallNotarizationsAggregated (insert id l) k).
Proof.
  intros Hok Hid. destruct Hok. constructor; cbn; try done.
  intros i. destruct (decide (i = id)) as [->|Hne]; [done|]. rewrite lookup_insert_ne by done. apply ok_aggregated0.
Qed.

Definition with_call (r : CheckedEthCallRequest) (k : CallStore) : CallStore :=
  let id := NextEthCallId k in
  set_NextEthCallId (fun _ => wrapping_add U64 id 1)
    (set_EthCallRequests (fun l => l ++ [id]) (set_EthCallRequestInfo (insert id r) k)).

Lemma with_call_ok r k : calls_ok k -> NextEthCallId k < umax U64 -> calls_ok (with_call r k).
Proof.
  intros Hok Hmax. unfold with_call. set (id := NextEthCallId k) in *. destruct Hok. fold id in ok_next_call0.
  assert (Hw : wrapping_add U64 id 1 = id + 1).
  { unfold wrapping_add. apply wrap_small. unfold in_range in *. lia. }
  assert (Hnew : id ∉ EthCallRequests k) by (intros H%ok_call_ids0; unfold id in H; lia).
  constructor; cbn; try done.
  - apply NoDup_app. split_and!; [done | set_solver | apply NoDup_singleton].
  - intros i. rewrite elem_of_app, list_elem_of_singleton. destruct (decide (i = id)) as [->|Hne].
    + rewrite lookup_insert_eq. naive_solver.
    + rewrite lookup_insert_ne by done. rewrite ok_info0. naive_solver.
  - intros i. rewrite Hw, elem_of_app, list_elem_of_singleton. intros [H%ok_call_ids0| ->]; [unfold id|unfold in_range in *]; lia.
  - rewrite Hw. unfold in_range in *. lia.
  - intros i key H. apply elem_of_app. left. eauto.
  - intros i H. apply elem_of_app. left. eauto.
Qed.

Lemma bytes_compare_refl l : bytes_compare l l = Eq.
Proof. induction l as [|x l IH]; [done|]. simpl. by rewrite Z.compare_refl. Qed.

Lemma result_compare_refl r : result_compare r r = Eq.
Proof. destruct r; try done. simpl. by rewrite bytes_compare_refl, !Z.compare_refl. Qed.

(** ** Proofs *)
Record proofs_ok (n : NotaryStore) : Prop := {
  ok_next_proof : in_range U64 (NextProofId n);
  ok_delayed : forall id, is_Some (DelayedEventProofs n !! id) -> 0 <= id < NextProofId n;
}.

Lemma proofs_ok_frame n n' : proofs_ok n -> NextProofId n' = NextProofId n ->
  (forall id, is_Some (DelayedEventProofs n' !! id) -> is_Some (DelayedEventProofs n !! id)) -> proofs_ok n'.
Proof. intros [H1 H2] Hn Hd. constructor; rewrite Hn; eauto. Qed.

Lemma next_proof_ok n n' : proofs_ok n -> NextProofId n < umax U64 ->
  NextProofId n' = wrapping_add U64 (NextProofId n) 1 ->
  (forall id, is_Some (DelayedEventProofs n' !! id) -> id = NextProofId n \/ is_Some (DelayedEventProofs n !! id)) ->
  proofs_ok n'.
Proof.
  intros [H1 H2] Hmax Hn Hd.
  assert (Hw : wrapping_add U64 (NextProofId n) 1 = NextProofId n + 1).
  { unfold wrapping_add. apply wrap_small. unfold in_range in *. lia. }
  constructor; rewrite Hn, Hw; [unfold in_range in *; lia|].
  intros id [->|?%H2]%Hd; unfold in_range in *; lia.
Qed.

Record bridge_ok {W} (s : State W) : Prop := {
  bridge_claims_ok : claims_ok (claims s);
  bridge_calls_ok : calls_ok (calls s);
  bridge_proofs_ok : proofs_ok (notaries s);
}.

(** ** What the operations do *)
Section Effects.
Context {W : Type} {config : BridgeConfig} {wenv : BridgeEnv W}.
Implicit Types s : State W.

Definition add_event (e : Event) : NotaryStore -> NotaryStore := set_bridge_events (fun l => l ++ [e]).

Lemma event_type_id_eq e s :
  event_type_id e s = (Ok (type_of e (claims s)), on_claims (with_type e) s).
Proof.
  unfold event_type_id, type_of, on_claims, with_type, bind, gets. destruct (EventTypeToTypeId (claims s) !! e); [|done].
  by destruct s.
Qed.

Lemma submit_event_claim_eq a sg tx data s : submit_event_claim a sg tx data s =
  if decide (tx ∈ ProcessedTxHashes (claims s)) then (Err (EthBridge BridgeError.AlreadyNotarized), s)
  else match PendingTxHashes (claims s) !! tx with
       | Some _ => (Err (EthBridge BridgeError.DuplicateClaim), s)
       | None => (Ok (NextEventClaimId (claims s)), on_claims (with_claim (a, sg) tx data) s)
       end.
Proof.
  unfold submit_event_claim. unfold bind at 1, gets at 1. cbv beta iota.
  case_decide as Hp; [by rewrite bool_decide_true|]. rewrite bool_decide_false by done. cbn [negb].
  unfold bind at 1, ensure at 1, ret at 1. destruct (PendingTxHashes (claims s) !! tx) eqn:Hpd; [done|].
  rewrite bool_decide_true by done. unfold bind at 1, ensure, ret at 1. cbv beta iota.
  unfold bind at 1. rewrite event_type_id_eq. cbv beta iota zeta.
  assert (Hid : NextEventClaimId (with_type (a, sg) (claims s)) = NextEventClaimId (claims s)).
  { unfold with_type. by destruct (EventTypeToTypeId (claims s) !! (a, sg)). }
  unfold bind, gets, write_claims, modify, ret, on_claims. cbn [claims]. cbv beta iota zeta. rewrite Hid. done.
Qed.

Lemma take_claim_eq id tx ty data s :
  EventClaims (claims s) !! id = Some (tx, ty) -> EventData (claims s) !! id = Some data ->
  take_claim id s = (Ok (tx, ty, data), on_claims (fun c =>
    set_EventClaims (delete id) (set_EventNotarizations (remove_prefix id) (set_EventData (delete id) c))) s).
Proof.
  intros Hid Hd. unfold take_claim, bind, gets, ok_or, sget. rewrite Hd, Hid. done.
Qed.

(** The end of a claim: the state the subscriber is called in. *)
Definition closed (id : EventClaimId) (tx : EthHash) (f : ClaimStore -> ClaimStore) (e : Event) s : State W :=
  mkState (without_claim id tx (f (claims s))) (add_event e (notaries s)) (calls s) (world s).

Lemma reject_claim_eq id tx ty data s :
  EventClaims (claims s) !! id = Some (tx, ty) -> EventData (claims s) !! id = Some data ->
  let event := event_of_type ty (claims s) in
  reject_claim id s = notify (on_failure id event.1 event.2 data) (closed id tx (fun c => c) (Invalid id) s).
Proof.
  intros Hid Hd. cbv zeta. unfold reject_claim. unfold bind at 1. rewrite (take_claim_eq _ _ _ _ _ Hid Hd). done.
Qed.

Lemma accept_claim_eq id tx ty data s :
  EventClaims (claims s) !! id = Some (tx, ty) -> EventData (claims s) !! id = Some data ->
  EventDeadlineSeconds (claims s) <> 0 ->
  let event := event_of_type ty (claims s) in
  let ttl := EventDeadlineSeconds (claims s) in
  let bucket := wrapping_add U64 (unix_now (world s)) ttl mod ttl / BUCKET_FACTOR_S in
  accept_claim id s =
    notify (on_success id event.1 event.2 data) (closed id tx (processed bucket tx) (Verified id) s).
Proof.
  intros Hid Hd Hnz. cbv zeta. unfold accept_claim. unfold bind at 1. rewrite (take_claim_eq _ _ _ _ _ Hid Hd).
  unfold rem. cbv beta iota zeta. unfold bind at 1, gets at 1. cbv beta iota.
  unfold bind at 1, gets at 1. cbv beta iota. unfold bind at 1, gets at 1. cbv beta iota.
  unfold on_claims at 1 2. cbn [claims EventDeadlineSeconds set_EventClaims set_EventNotarizations set_EventData].
  rewrite (proj2 (Z.eqb_neq _ _) Hnz). done.
Qed.
End Effects.
