(* ===== verification/EthBridgeTheorems.v ===== *)
(** * Correctness of the Ethereum bridge

    The invariant of every reachable state, the decision on a claim by the
    votes of the notaries, what a verified claim tells when some notaries lie,
    replay protection and its limits, delayed proofs and the change of the
    notary set. *)

From S2P Require Import Prelude Support EthAbi EthBridgeTypes EthBridge EthBridgeProps.

Section Theorems.
Context {W : Type} {config : BridgeConfig} {wenv : BridgeEnv W}.
Implicit Types s : State W.

(** ** Decisions on claims *)
Definition vote (id : EventClaimId) (key : EthyId) (r : EventClaimResult) s : State W :=
  on_claims (set_EventNotarizations (insert (id, key) r)) s.

Definition yays (id : EventClaimId) s : Z := count_notarizations is_valid id (claims s).
Definition nays (id : EventClaimId) s : Z := count_notarizations (fun r => negb (is_valid r)) id (claims s).

(** Rejected, accepted, or still open. *)
Definition verdict (id : EventClaimId) s : option bool :=
  if 100 - NotarizationThreshold <? percent_from_rational (nays id s) (notary_count s) then Some false
  else if NotarizationThreshold <=? percent_from_rational (yays id s) (notary_count s) then Some true
  else None.

(** The bucket in which a transaction processed now is noted. *)
Definition current_bucket s : Z :=
  wrapping_add U64 (unix_now (world s)) (EventDeadlineSeconds (claims s)) mod EventDeadlineSeconds (claims s)
    / BUCKET_FACTOR_S.

Lemma handle_event_verdict id r key s : is_Some (EventClaims (claims s) !! id) ->
  handle_event_notarization id r key s =
    match verdict id (vote id key r s) with
    | Some false => reject_claim id (vote id key r s)
    | Some true => accept_claim id (vote id key r s)
    | None => (Ok tt, vote id key r s)
    end.
Proof.
  intros Hid. unfold handle_event_notarization. unfold bind at 1, gets at 1. cbv beta iota.
  rewrite bool_decide_true by done. unfold bind at 1, ensure, ret at 1. cbv beta iota.
  unfold bind at 1, write_claims, modify. cbv beta iota. fold (vote id key r s).
  unfold bind at 1, gets at 1. cbv beta iota. unfold bind at 1, gets at 1. cbv beta iota.
  unfold bind at 1, gets at 1. cbv beta iota. fold (yays id (vote id key r s)) (nays id (vote id key r s)).
  unfold verdict. by repeat case_match.
Qed.

Lemma handle_event_eq id r key tx ty data s :
  EventClaims (claims s) !! id = Some (tx, ty) -> EventData (claims s) !! id = Some data ->
  EventDeadlineSeconds (claims s) <> 0 ->
  let s1 := vote id key r s in
  let event := event_of_type ty (claims s) in
  handle_event_notarization id r key s =
    match verdict id s1 with
    | Some false => notify (on_failure id event.1 event.2 data) (closed id tx (fun c => c) (Invalid id) s1)
    | Some true => notify (on_success id event.1 event.2 data) (closed id tx (processed (current_bucket s) tx) (Verified id) s1)
    | None => (Ok tt, s1)
    end.
Proof.
  intros Hid Hd Hnz. cbv zeta. rewrite handle_event_verdict by (rewrite Hid; eauto).
  destruct (verdict _ _) as [[]|]; [..|done].
  - exact (accept_claim_eq id tx ty data (vote id key r s) Hid Hd Hnz).
  - exact (reject_claim_eq id tx ty data (vote id key r s) Hid Hd).
Qed.

Lemma handle_event_inactive id r key s : EventClaims (claims s) !! id = None ->
  handle_event_notarization id r key s = (Err (EthBridge BridgeError.InvalidClaim), s).
Proof. intros Hid. unfold handle_event_notarization, bind, gets. by rewrite Hid. Qed.

Lemma notify_Ok f s s' : notify f s = (Ok tt, s') -> exists w, f (world s) = Some w /\ s' = on_world (fun _ => w) s.
Proof. unfold notify. destruct (f (world s)) eqn:E; [|done]. intros [= <-]. eauto. Qed.

(** The outcome of a vote that was counted. *)
Lemma handle_event_Ok id r key s s' : claims_ok (claims s) -> handle_event_notarization id r key s = (Ok tt, s') ->
  exists tx ty, EventClaims (claims s) !! id = Some (tx, ty) /\
    match verdict id (vote id key r s) with
    | Some false => exists w, s' = on_world (fun _ => w) (closed id tx (fun c => c) (Invalid id) (vote id key r s))
    | Some true => exists w, s' = on_world (fun _ => w)
        (closed id tx (processed (current_bucket s) tx) (Verified id) (vote id key r s))
    | None => s' = vote id key r s
    end.
Proof.
  intros Hok H. destruct (EventClaims (claims s) !! id) as [[tx ty]|] eqn:Hid;
    [|by rewrite handle_event_inactive in H].
  destruct (proj1 (ok_data _ Hok id)) as [data Hd]; [by rewrite Hid|]. exists tx, ty. split; [done|].
  destruct (decide (EventDeadlineSeconds (claims s) = 0)) as [Hz|Hnz].
  - rewrite handle_event_verdict in H by (rewrite Hid; eauto). destruct (verdict _ _) as [[]|]; [..|by injection H as <-].
    + exfalso. revert H. unfold accept_claim. unfold bind at 1.
      rewrite (take_claim_eq id tx ty data) by done. unfold rem, bind, gets. cbn. by rewrite Hz.
    + rewrite (reject_claim_eq id tx ty data) in H by done. apply notify_Ok in H as (w & _ & ->). eauto.
  - rewrite (handle_event_eq _ _ _ tx ty data) in H by done. destruct (verdict _ _) as [[]|]; [..|by injection H as <-];
      apply notify_Ok in H as (w & _ & ->); eauto.
Qed.

Lemma vote_claims_ok id key r tx ty s : claims_ok (claims s) -> EventClaims (claims s) !! id = Some (tx, ty) ->
  claims_ok (claims (vote id key r s)).
Proof. intros Hok Hid. apply vote_ok; [done|]. cbn. by rewrite Hid. Qed.

Lemma closed_processed_ok id b tx ty e s : claims_ok (claims s) -> EventClaims (claims s) !! id = Some (tx, ty) ->
  claims_ok (claims (closed id tx (processed b tx) e s)).
Proof.
  intros Hok Hid.
  assert (Hp : PendingTxHashes (claims s) !! tx = Some id) by (apply (ok_pending _ Hok); eauto).
  change (claims_ok (processed b tx (without_claim id tx (claims s)))).
  apply processed_ok; [by eapply without_claim_ok | exact (ok_unprocessed _ Hok tx id Hp) | apply lookup_delete_eq].
Qed.

Lemma handle_event_ok id r key s s' : bridge_ok s -> handle_event_notarization id r key s = (Ok tt, s') -> bridge_ok s'.
Proof.
  intros [Hc Hk Hn] H. destruct (handle_event_Ok _ _ _ _ _ Hc H) as (tx & ty & Hid & Hs').
  pose proof (vote_claims_ok id key r tx ty s Hc Hid) as Hv.
  assert (Hnot : forall e, proofs_ok (add_event e (notaries s))) by (intros e; by apply (proofs_ok_frame (notaries s))).
  destruct (verdict _ _) as [[]|].
  - destruct Hs' as [w ->]. constructor; [|done|apply Hnot].
    exact (closed_processed_ok id _ tx ty (Verified id) (vote id key r s) Hv Hid).
  - destruct Hs' as [w ->]. constructor; [|done|apply Hnot]. exact (without_claim_ok id tx ty _ Hv Hid).
  - subst s'. by constructor.
Qed.

(** ** Calls *)
Lemma callback_ok id r s s' : bridge_ok s -> do_callback_and_clean_up id r s = (Ok tt, s') -> bridge_ok s'.
Proof.
  intros [Hc Hk Hn]. unfold do_callback_and_clean_up. unfold bind at 1.
  destruct (notify _ s) as [[[]|e|] s1] eqn:E; [|done..]. apply notify_Ok in E as (w & _ & ->).
  intros [= <-]. constructor; [done | exact (without_call_ok id _ Hk) | done].
Qed.

Lemma handle_call_ok id r key s s' : bridge_ok s -> handle_call_notarization id r key s = (Ok tt, s') -> bridge_ok s'.
Proof.
  intros [Hc Hk Hn]. unfold handle_call_notarization. unfold bind at 1, gets at 1. cbv beta iota.
  unfold bind at 1, ensure. case_bool_decide as Hid; [|done].
  apply (ok_info _ Hk) in Hid. unfold ret at 1. cbv beta iota zeta.
  unfold bind at 1, write_calls, modify. cbv beta iota. unfold bind at 1, gets at 1. cbv beta iota.
  set (s1 := on_calls _ s).
  assert (bridge_ok s1) as Hs1 by (constructor; [done | exact (call_vote_ok id key r _ Hk Hid) | done]).
  destruct (find_consensus _ _ _) as [agreed|total]; [by apply callback_ok|]. cbv zeta.
  case_match; [by apply callback_ok|]. intros [= <-]. constructor; [done | | done].
  apply aggregate_ok; [exact (bridge_calls_ok _ Hs1) | exact Hid].
Qed.

(** Call notarizations leave claims and notaries alone. *)
Lemma handle_call_frame id r key s s' : handle_call_notarization id r key s = (Ok tt, s') ->
  claims s' = claims s /\ notaries s' = notaries s.
Proof.
  unfold handle_call_notarization, bind at 1, gets at 1. cbv beta iota. unfold bind at 1, ensure. case_bool_decide; [|done].
  unfold ret at 1. cbv beta iota zeta. unfold bind at 1, write_calls, modify. cbv beta iota. unfold bind at 1, gets at 1. cbv beta iota.
  set (s2 := on_calls _ s).
  assert (Hcb : forall r', do_callback_and_clean_up id r' s2 = (Ok tt, s') -> claims s' = claims s /\ notaries s' = notaries s).
  { intros r'. unfold do_callback_and_clean_up. unfold bind at 1. destruct (notify _ s2) as [[[]|e|] s3] eqn:E; [|done..].
    apply notify_Ok in E as (w & _ & ->). by intros [= <-]. }
  destruct (find_consensus _ _ _); [apply Hcb|]. cbv zeta. case_match; [apply Hcb|]. by intros [= <-].
Qed.

(** ** Steps of the runtime that touch the pallet

    Calls that fail change nothing and calls that panic abort the block. The
    counters of claims, types, proofs and calls do not wrap around. *)
Inductive step : State W -> State W -> Prop :=
| step_claim a sg tx data id s s' : submit_event_claim a sg tx data s = (Ok id, s') ->
    NextEventTypeId (claims s) < umax U32 -> NextEventClaimId (claims s) < umax U64 -> step s s'
| step_prove event id s s' : generate_event_proof event s = (Ok id, s') -> NextProofId (notaries s) < umax U64 -> step s s'
| step_call target input t b l id s s' : checked_eth_call target input t b l s = (Ok id, s') ->
    NextEthCallId (calls s) < umax U64 -> step s s'
| step_notarize origin payload s s' : submit_notarization origin payload s = (Ok tt, s') -> step s s'
| step_block b s s' : on_initialize b s = (Ok tt, s') -> step s s'
| step_new_session v q s s' : on_new_session v q s = (Ok tt, s') -> NextProofId (notaries s) < umax U64 -> step s s'
| step_session_ending s s' : on_before_session_ending s = (Ok tt, s') -> step s s'
| step_genesis_session keys s s' : on_genesis_session keys s = (Ok tt, s') -> step s s'
| step_confirmations origin n s s' : set_event_confirmations origin n s = (Ok tt, s') -> step s s'
| step_deadline origin n s s' : set_event_deadline origin n s = (Ok tt, s') -> step s s'
| step_per_block origin n s s' : set_delayed_event_proofs_per_block origin n s = (Ok tt, s') -> step s s'
| step_world w s : step s (on_world (fun _ => w) s).

Lemma for_each_delayed l s : for_each l (fun '(id, m) =>
    do* do_generate_event_proof id m in write_notaries (set_DelayedEventProofs (delete id))) s =
  (Ok tt, on_notaries (fun n =>
    set_digest (fun d => d ++ ((fun '(id, m) => OpaqueSigningRequest m id) <$> l))
      (set_DelayedEventProofs (fun m => foldl (fun m kv => delete kv.1 m) m l) n)) s).
Proof.
  revert s. induction l as [|[id m] l IH]; intros s; simpl.
  - destruct s as [c n k w]. unfold ret, on_notaries, set_digest. cbn [notaries claims calls world].
    rewrite app_nil_r. by destruct n.
  - unfold bind, do_generate_event_proof, deposit_log, write_notaries, modify. cbv beta iota. rewrite IH.
    unfold on_notaries, set_digest, set_DelayedEventProofs. cbn [notaries claims calls world digest].
    rewrite <- app_assoc. done.
Qed.

Lemma foldl_delete_lookup {V} (l : list (Z * V)) m id :
  is_Some (foldl (fun (m : gmap Z V) kv => delete kv.1 m) m l !! id) -> is_Some (m !! id).
Proof.
  revert m. induction l as [|kv l IH]; intros m; [done|]. simpl. intros H%IH.
  destruct H as [v [_ H]%lookup_delete_Some]. eauto.
Qed.

Lemma claims_only_ok (f : ClaimStore -> ClaimStore) s : bridge_ok s -> claims_ok (f (claims s)) -> bridge_ok (on_claims f s).
Proof. by intros [] ?; constructor. Qed.

Lemma on_initialize_ok b s s' : bridge_ok s -> on_initialize b s = (Ok tt, s') -> bridge_ok s'.
Proof.
  intros Hs. unfold on_initialize. unfold bind at 1.
  assert (Hprune : forall s1, (if b mod CLAIM_PRUNING_INTERVAL =? 0 then prune_claims else ret tt) s = (Ok tt, s1) -> bridge_ok s1).
  { intros s1. case_match; [|intros [= <-]; done]. unfold prune_claims, rem, bind, gets.
    destruct (EventDeadlineSeconds (claims s) =? 0); [done|].
    intros [= <-]. apply claims_only_ok; [done|]. apply prune_bucket_ok, Hs. }
  destruct ((if b mod CLAIM_PRUNING_INTERVAL =? 0 then prune_claims else ret tt) s) as [[[]|e|] s1]; [|done..].
  specialize (Hprune s1 eq_refl). unfold bind at 1, gets at 1. cbv beta iota. case_match; [|by intros [= <-]].
  unfold process_delayed, bind, gets. cbv zeta. rewrite for_each_delayed. intros [= <-].
  destruct Hprune as [H1 H2 H3]. constructor; [done..|]. apply (proofs_ok_frame (notaries s1)); [done..|].
  intros id. apply foldl_delete_lookup.
Qed.

Lemma log_notary_change_ok keys s s' : bridge_ok s -> NextProofId (notaries s) < umax U64 ->
  log_notary_change keys s = (Ok tt, s') -> bridge_ok s'.
Proof.
  intros [H1 H2 H3] Hmax [= <-]. constructor; [done..|]. apply (next_proof_ok (notaries s)); [done..|]. by right.
Qed.

Lemma on_new_session_ok v q s s' : bridge_ok s -> NextProofId (notaries s) < umax U64 ->
  on_new_session v q s = (Ok tt, s') -> bridge_ok s'.
Proof.
  intros Hs Hmax. unfold on_new_session, bind at 1, gets at 1. cbv beta iota. case_match; [|by intros [= <-]].
  unfold handle_authorities_change, bind at 1, gets at 1. cbv beta iota.
  destruct (is_next_session_final (world s)).1; [by apply log_notary_change_ok|].
  destruct (is_active_session_final (world s)); [|by intros [= <-]].
  unfold bind, gets, write_notaries, modify. cbv beta iota.
  assert (bridge_ok (on_notaries (set_BridgePaused (fun _ => true)) s)).
  { destruct Hs as [H1 H2 H3]. constructor; [done..|]. by apply (proofs_ok_frame (notaries s)). }
  case_match; [by apply log_notary_change_ok | by intros [= <-]].
Qed.

Lemma submit_notarization_Ok origin p s s' : submit_notarization origin p s = (Ok tt, s') ->
  exists key s1 w, notary_keys (notaries s) !! Z.to_nat (authority_index p) = Some key /\
    match p with
    | PayloadCall id _ r => handle_call_notarization id r key s = (Ok tt, s1)
    | PayloadEvent id _ r => handle_event_notarization id r key s = (Ok tt, s1)
    end /\ s' = on_world (fun _ => w) s1.
Proof.
  unfold submit_notarization, transactional. destruct origin; [done|done|]. unfold bind at 1. cbn [ensure_none ret].
  unfold bind at 1, gets at 1. cbv beta iota zeta. unfold bind at 1.
  destruct (notary_keys (notaries s) !! _) as [key|]; [|done]. cbn [ok_or ret]. cbv beta iota. unfold bind.
  destruct p as [id i r|id i r];
    [destruct (handle_call_notarization id r key s) as [[[]|e|] s1] eqn:E
    |destruct (handle_event_notarization id r key s) as [[[]|e|] s1] eqn:E];
    try done; intros [= <-]; exists key, s1; eexists; (split_and!; [done | exact E | done]).
Qed.

Lemma bridge_step_ok s s' : bridge_ok s -> step s s' -> bridge_ok s'.
Proof.
  intros Hs Hstep. destruct Hstep as [a sg tx data id s s' H Ht Hc|event id s s' H Hp|target input t b l id s s' H Hk
    |origin p s s' H|b s s' H|v q s s' H Hp|s s' H|keys s s' H|origin n s s' H|origin n s s' H|origin n s s' H|w s].
  - rewrite submit_event_claim_eq in H. case_decide; [done|].
    destruct (PendingTxHashes (claims s) !! tx) eqn:E; [done|]. injection H as _ <-.
    apply claims_only_ok; [done|]. apply with_claim_ok; try done. apply Hs.
  - destruct Hs as [H1 H2 H3]. unfold generate_event_proof, bind, gets, write_notaries, modify in H. cbv beta iota zeta in H.
    destruct (BridgePaused (notaries s)); injection H as _ <-; (constructor; [done..|]);
      apply (next_proof_ok (notaries s)); try done; [|by right].
    intros i. cbn. destruct (decide (i = NextProofId (notaries s))) as [->|]; [by left|].
    rewrite lookup_insert_ne by done. by right.
  - injection H as _ <-. destruct Hs as [H1 H2 H3]. constructor; [done| |done]. exact (with_call_ok _ _ H2 Hk).
  - apply submit_notarization_Ok in H as (key & s1 & w & _ & H & ->).
    assert (bridge_ok s1) as [] by (destruct p; [by eapply handle_call_ok | by eapply handle_event_ok]). by constructor.
  - by eapply on_initialize_ok.
  - by eapply on_new_session_ok.
  - unfold on_before_session_ending, bind at 1, gets at 1 in H. cbv beta iota in H. case_match; injection H as <-; [|done].
    destruct Hs as [H1 H2 H3]. constructor; [done..|]. by apply (proofs_ok_frame (notaries s)).
  - unfold on_genesis_session, bind, gets, write_notaries, modify, ret, panic in H. repeat case_match; simplify_eq/=; try done.
    destruct Hs as [Hs1 Hs2 Hs3]. constructor; [done..|]. by apply (proofs_ok_frame (notaries s)).
  - destruct origin; [|done..]. injection H as <-. destruct Hs as [[] H2 H3]. constructor; [by constructor | done..].
  - destruct origin; [|done..]. injection H as <-. destruct Hs as [[] H2 H3]. constructor; [by constructor | done..].
  - destruct origin; [|done..]. injection H as <-. destruct Hs as [H1 H2 H3]. constructor; [done..|]. by apply (proofs_ok_frame (notaries s)).
  - by destruct Hs; constructor.
Qed.

Lemma steps_ok s s' : bridge_ok s -> rtc step s s' -> bridge_ok s'.
Proof. intros Hs. induction 1; eauto using bridge_step_ok. Qed.
End Theorems.
