(* ===== verification/EthBridgeSafety.v ===== *)
(** * What the Ethereum bridge guarantees

    Theorems on reachable states of the bridge, with concrete runs: decisions
    on claims, honesty of verified claims, replay protection, delayed proofs,
    the notary set, and two gaps (early pruning, repeated call votes). *)

From S2P Require Import Prelude Support EthAbi EthBridgeTypes EthBridge EthBridgeOcw EthBridgeProps EthBridgeTheorems.

(** Storage before the first block, with the defaults of [decl_storage!]. *)
Definition initial_claims : ClaimStore := mkClaimStore ∅ ∅ ∅ ∅ ∅ 0 0 ∅ ∅ ∅ 3 604800.
Definition initial_notaries : NotaryStore := mkNotaryStore 66 ∅ 0 None [] 0 0 false 5 [] [].
Definition initial_calls : CallStore := mkCallStore 0 [] ∅ ∅ ∅.
Definition initial {W} (w : W) : State W := mkState initial_claims initial_notaries initial_calls w.

Lemma bridge_initial_ok {W} (w : W) : bridge_ok (initial w).
Proof.
  constructor; constructor; cbn; intros; try (vm_compute; split; discriminate); try apply NoDup_nil_2;
    rewrite ?lookup_empty in *; try set_solver; try (split; [|intros [? H]]; rewrite ?lookup_empty in *; done);
    by match goal with H : is_Some _ |- _ => destruct H end.
Qed.

Section Safety.
Context {W : Type} {config : BridgeConfig} {wenv : BridgeEnv W}.
Implicit Types s : State W.

(** C7: in every state reachable from empty storage, claims, their data and
    the pending transactions correspond one to one, no pending transaction is
    also processed, event types and type ids are inverse to each other, votes
    exist only on open claims, processed transactions are exactly those in one
    bucket, call requests are queued once each, and all identifiers are below
    their counters. *)
Theorem bridge_reachable w s : rtc step (initial w) s -> bridge_ok s.
Proof. apply steps_ok, bridge_initial_ok. Qed.

(** ** Decisions *)

(** What the subscribers make of the verdict on a claim: the success callback of
    an accepted one, the failure callback of a rejected one, none of an open one.
    A callback that gives nothing panics. *)
Definition subscribers_called (verdict : option bool) id (event : EthAddress * EthHash) data (w : W) : option W :=
  match verdict with
  | Some true => on_success id event.1 event.2 data w
  | Some false => on_failure id event.1 event.2 data w
  | None => Some w
  end.

(** Points go to the validator at the index of the notary, when there is one. *)
Definition notary_rewarded (i : Z) (w : W) : W :=
  match authority_set w !! Z.to_nat i with Some v => reward_notary v w | None => w end.

(** The storage items a verdict does not touch. *)
Definition verdict_frame s s' : Prop :=
  EventTypeToTypeId (claims s') = EventTypeToTypeId (claims s) /\ TypeIdToEventType (claims s') = TypeIdToEventType (claims s) /\
  NextEventClaimId (claims s') = NextEventClaimId (claims s) /\ NextEventTypeId (claims s') = NextEventTypeId (claims s) /\
  EventConfirmations (claims s') = EventConfirmations (claims s) /\
  EventDeadlineSeconds (claims s') = EventDeadlineSeconds (claims s) /\ calls s' = calls s.

(** A decided claim: gone with its data and its votes, its transaction no longer
    pending, and noted as processed in the current bucket if it was accepted. *)
Definition claim_closed (accepted : bool) id tx s s' : Prop :=
  EventClaims (claims s') = delete id (EventClaims (claims s)) /\
  EventData (claims s') = delete id (EventData (claims s)) /\
  (forall id' key, EventNotarizations (claims s') !! (id', key) =
     if decide (id' = id) then None else EventNotarizations (claims s) !! (id', key)) /\
  PendingTxHashes (claims s') = delete tx (PendingTxHashes (claims s)) /\
  ProcessedTxHashes (claims s') = (if accepted then {[ tx ]} else ∅) ∪ ProcessedTxHashes (claims s) /\
  ProcessedTxBuckets (claims s') =
    (if accepted then {[ (current_bucket s, tx) ]} else ∅) ∪ ProcessedTxBuckets (claims s) /\
  notaries s' = set_bridge_events (fun l => l ++ [if accepted then Verified id else Invalid id]) (notaries s) /\
  verdict_frame s s'.

Lemma closed_prefix (id key : Z) (r : EventClaimResult) (m : gmap (Z * EthyId) EventClaimResult) (id' key' : Z) :
  remove_prefix id (<[(id, key) := r]> m) !! (id', key') = if decide (id' = id) then None else m !! (id', key').
Proof. rewrite lookup_remove_prefix. case_decide; [done|]. rewrite lookup_insert_ne; [done | congruence]. Qed.

(** C10: a counted vote on an open claim decides it by the thresholds and makes
    exactly these writes.  Above the share of nays the claim is closed and the
    failure callback of the subscribers is called with it; at the threshold of
    yays it is closed, its transaction noted as processed, and the success
    callback is called; otherwise the vote is recorded and nobody is called.
    In each case the validator behind the vote is then rewarded, and nothing
    else changes; a callback that panics fails the whole call. *)
Theorem claim_decided id i r key tx ty data s :
  notary_keys (notaries s) !! Z.to_nat i = Some key ->
  EventClaims (claims s) !! id = Some (tx, ty) -> EventData (claims s) !! id = Some data ->
  EventDeadlineSeconds (claims s) <> 0 ->
  let v := verdict id (vote id key r s) in
  match subscribers_called v id (event_of_type ty (claims s)) data (world s) with
  | Some w =>
      exists s', submit_notarization NoOrigin (PayloadEvent id i r) s = (Ok tt, s') /\
        world s' = notary_rewarded i w /\
        match v with
        | Some accepted => claim_closed accepted id tx s s'
        | None =>
            claims s' = set_EventNotarizations (insert (id, key) r) (claims s) /\
            notaries s' = notaries s /\ calls s' = calls s
        end
  | None => fst (submit_notarization NoOrigin (PayloadEvent id i r) s) = Panic
  end.
Proof.
  intros Hkey Hid Hd Hnz v.
  assert (Hrun : submit_notarization NoOrigin (PayloadEvent id i r) s =
    transactional (bind (handle_event_notarization id r key) (fun _ => modify (on_world (notary_rewarded i)))) s).
  { unfold submit_notarization, transactional, bind at 1. cbn [ensure_none ret authority_index].
    unfold bind at 1, gets at 1. cbv beta iota zeta. unfold bind at 1. rewrite Hkey. done. }
  rewrite Hrun. unfold transactional, bind. rewrite (handle_event_eq _ _ _ tx ty data) by done. unfold notify. fold v.
  unfold subscribers_called. destruct v as [[]|].
  - change (world (closed _ _ _ _ _)) with (world s). destruct (on_success _ _ _ _ _) as [w|]; [|done].
    eexists. split; [reflexivity|]. split; [done|]. unfold claim_closed, verdict_frame. cbn. split_and!; try done.
    intros. apply closed_prefix.
  - change (world (closed _ _ _ _ _)) with (world s). destruct (on_failure _ _ _ _ _) as [w|]; [|done].
    eexists. split; [reflexivity|]. split; [done|]. unfold claim_closed, verdict_frame. cbn.
    split_and!; try done; [intros; apply closed_prefix | set_solver..].
  - eexists. split; [reflexivity|]. done.
Qed.

Lemma app_self_nil {A} (l : list A) x : l <> l ++ [x].
Proof. intros H%(f_equal length). rewrite length_app in H. simpl in H. lia. Qed.

(** ** Honest votes behind verified claims *)

(** The keys that voted [Valid] on a claim. *)
Definition valid_voters (id : EventClaimId) (c : ClaimStore) : gset EthyId :=
  set_map snd (dom (filter (fun kv => kv.1.1 = id /\ is_valid kv.2 = true) (EventNotarizations c))).

Lemma elem_of_valid_voters id key c :
  key ∈ valid_voters id c <-> EventNotarizations c !! (id, key) = Some Valid.
Proof.
  unfold valid_voters. rewrite elem_of_map. split.
  - intros ([i k] & -> & [r [Hr [Hi Hv]]%map_lookup_filter_Some]%elem_of_dom). cbn in *. subst i. by destruct r.
  - intros H. exists (id, key). split; [done|]. apply elem_of_dom. exists Valid. by apply map_lookup_filter_Some.
Qed.

Lemma count_valid_le id c (B : gset EthyId) : valid_voters id c ⊆ B ->
  count_notarizations is_valid id c <= Z.of_nat (size B).
Proof.
  intros Hsub. unfold count_notarizations. apply Nat2Z.inj_le.
  set (m := filter _ (EventNotarizations c)).
  assert (Hkeys : forall k, k ∈ (map_to_list m).*1 -> k.1 = id /\ k.2 ∈ B).
  { intros k ([k' r] & -> & Hk)%list_elem_of_fmap. apply elem_of_map_to_list, map_lookup_filter_Some in Hk as (Hk & Hi & Hv).
    destruct k' as [i k]. cbn in *. subst i. destruct r; try done. split; [done|]. by apply Hsub, elem_of_valid_voters. }
  rewrite <- length_map_to_list, <- (length_fmap fst).
  pose proof (NoDup_fst_map_to_list m) as Hnd. revert Hnd Hkeys. generalize (map_to_list m).*1 as l. clear. intros l Hnd Hl.
  transitivity (length l.*2); [by rewrite length_fmap|]. unfold size, set_size. cbn. apply submseteq_length, NoDup_submseteq.
  - apply NoDup_fmap_2_strong; [|done]. intros [i1 k1] [i2 k2] H1%Hl H2%Hl ?. cbn in *. destruct H1, H2. congruence.
  - intros k (k' & -> & [_ Hk]%Hl)%list_elem_of_fmap. by apply elem_of_elements.
Qed.

(** C5: when a claim is verified, then for every set of keys too small to reach
    the threshold by itself some key outside of it voted that the event is
    valid: dishonest notaries below the threshold cannot verify a claim. *)
Theorem verified_by_honest_notary origin p s s' id (B : gset EthyId) :
  bridge_ok s -> submit_notarization origin p s = (Ok tt, s') ->
  bridge_events (notaries s') = bridge_events (notaries s) ++ [Verified id] ->
  (forall a b n, a <= b -> percent_from_rational a n <= percent_from_rational b n) ->
  percent_from_rational (Z.of_nat (size B)) (notary_count s) < NotarizationThreshold ->
  exists i r (key honest : EthyId), p = PayloadEvent id i r /\ notary_keys (notaries s) !! Z.to_nat i = Some key /\
    honest ∉ B /\ EventNotarizations (claims (vote id key r s)) !! (id, honest) = Some Valid.
Proof.
  intros [Hc _ _] H Hev Hmono HB. apply submit_notarization_Ok in H as (key & s1 & w & Hkey & H & ->). destruct p as [ci i r|ci i r].
  - exfalso. apply handle_call_frame in H as [_ H]. cbn in Hev. rewrite H in Hev. by apply app_self_nil in Hev.
  - apply handle_event_Ok in H as (tx & ty & Hid & H); [|done]. unfold verdict in H.
    destruct (_ <? _) in H; [destruct H as [w' ->]; cbn in Hev; by simplify_list_eq|].
    destruct (Z.leb_spec NotarizationThreshold (percent_from_rational (yays ci (vote ci key r s)) (notary_count (vote ci key r s)))).
    + destruct H as [w' ->]. cbn in Hev. assert (ci = id) as -> by (by simplify_list_eq). exists i, r, key.
      destruct (set_choose_or_empty (valid_voters id (claims (vote id key r s)) ∖ B)) as [[k Hk]|Hsub].
      * apply elem_of_difference in Hk as [Hk Hnot]. exists k. split_and!; [done..|]. by apply elem_of_valid_voters.
      * exfalso. assert (Hle : valid_voters id (claims (vote id key r s)) ⊆ B) by set_solver. apply count_valid_le in Hle. apply (Hmono _ _ (notary_count s)) in Hle.
        unfold yays in *. change (notary_count (vote id key r s)) with (notary_count s) in *. lia.
    + subst s1. cbn in Hev. by apply app_self_nil in Hev.
Qed.

(** ** Replay protection *)
Lemma handle_event_processed id r key s s' tx : bridge_ok s -> handle_event_notarization id r key s = (Ok tt, s') ->
  tx ∈ ProcessedTxHashes (claims s) -> tx ∈ ProcessedTxHashes (claims s').
Proof.
  intros [Hc _ _] H Htx. destruct (handle_event_Ok _ _ _ _ _ Hc H) as (tx' & ty & _ & Hs').
  destruct (verdict _ _) as [[]|]; [destruct Hs' as [w ->]..|subst s']; cbn; set_solver.
Qed.

(** The bucket a pruning block drops. *)
Definition pruned_bucket s : Z := unix_now (world s) mod EventDeadlineSeconds (claims s) / BUCKET_FACTOR_S.

Lemma on_initialize_claims b s s' : on_initialize b s = (Ok tt, s') ->
  claims s' = (if b mod CLAIM_PRUNING_INTERVAL =? 0 then prune_bucket (pruned_bucket s) (claims s) else claims s).
Proof.
  unfold on_initialize. unfold bind at 1.
  assert (Hprune : forall s1, (if b mod CLAIM_PRUNING_INTERVAL =? 0 then prune_claims else ret tt) s = (Ok tt, s1) ->
    claims s1 = (if b mod CLAIM_PRUNING_INTERVAL =? 0 then prune_bucket (pruned_bucket s) (claims s) else claims s)).
  { intros s1. case_match; [|by intros [= <-]]. unfold prune_claims, rem, bind, gets.
    destruct (EventDeadlineSeconds (claims s) =? 0); [done|]. by intros [= <-]. }
  destruct ((if b mod CLAIM_PRUNING_INTERVAL =? 0 then prune_claims else ret tt) s) as [[[]|e|] s1]; [|done..].
  rewrite <- (Hprune s1 eq_refl). clear Hprune. unfold bind at 1, gets at 1. cbv beta iota. case_match; [|by intros [= <-]].
  unfold process_delayed, bind at 1, gets at 1. cbv beta iota zeta. rewrite for_each_delayed. by intros [= <-].
Qed.

Lemma on_new_session_claims v q s s' : on_new_session v q s = (Ok tt, s') -> claims s' = claims s.
Proof.
  unfold on_new_session, bind at 1, gets at 1. cbv beta iota. case_match; [|by intros [= <-]].
  unfold handle_authorities_change, bind at 1, gets at 1. cbv beta iota.
  destruct (is_next_session_final (world s)).1; [by intros [= <-]|].
  destruct (is_active_session_final (world s)); [|by intros [= <-]].
  unfold bind at 1, write_notaries at 1, modify at 1. cbv beta iota. unfold bind at 1, gets at 1. cbv beta iota.
  case_bool_decide; by intros [= <-].
Qed.

(** C29: a processed transaction stays processed, and cannot be claimed again,
    through every step except the pruning block that drops its bucket. *)
Theorem processed_until_pruned s s' tx : bridge_ok s -> step s s' -> tx ∈ ProcessedTxHashes (claims s) ->
  (tx ∈ ProcessedTxHashes (claims s') /\
   forall a sg data, submit_event_claim a sg tx data s' = (Err (EthBridge BridgeError.AlreadyNotarized), s')) \/
  (exists b, on_initialize b s = (Ok tt, s') /\ b mod CLAIM_PRUNING_INTERVAL = 0 /\
     (pruned_bucket s, tx) ∈ ProcessedTxBuckets (claims s)).
Proof.
  intros Hs Hstep Htx.
  assert (Hkeep : tx ∈ ProcessedTxHashes (claims s') -> tx ∈ ProcessedTxHashes (claims s') /\
    forall a sg data, submit_event_claim a sg tx data s' = (Err (EthBridge BridgeError.AlreadyNotarized), s')).
  { intros Hin. split; [done|]. intros a sg data. rewrite submit_event_claim_eq. by rewrite decide_True. }
  destruct Hstep as [a sg tx' data id s s' H Ht Hc|event id s s' H Hp|target input t b l id s s' H Hk
    |origin p s s' H|b s s' H|v q s s' H Hp|s s' H|keys s s' H|origin n s s' H|origin n s s' H|origin n s s' H|w s].
  - left. apply Hkeep. rewrite submit_event_claim_eq in H. case_decide; [done|].
    destruct (PendingTxHashes (claims s) !! tx'); [done|]. injection H as _ <-. cbn. unfold with_type. by case_match.
  - left. apply Hkeep. unfold generate_event_proof, bind, gets in H. cbv beta iota zeta in H.
    by destruct (BridgePaused (notaries s)); injection H as _ <-.
  - left. apply Hkeep. by injection H as _ <-.
  - left. apply Hkeep. apply submit_notarization_Ok in H as (key & s1 & w & _ & H & ->). cbn. destruct p.
    + apply handle_call_frame in H as [-> _]. done.
    + by eapply handle_event_processed.
  - pose proof (on_initialize_claims b s s' H) as Hcl. destruct (Z.eqb_spec (b mod CLAIM_PRUNING_INTERVAL) 0) as [Hb|Hb].
    + destruct (decide ((pruned_bucket s, tx) ∈ ProcessedTxBuckets (claims s))) as [Hin|Hout]; [right; eauto|].
      left. apply Hkeep. rewrite Hcl. cbn. apply elem_of_difference. split; [done|]. by rewrite elem_of_bucket_hashes.
    + left. apply Hkeep. by rewrite Hcl.
  - left. apply Hkeep. apply on_new_session_claims in H. by rewrite H.
  - left. apply Hkeep. unfold on_before_session_ending, bind at 1, gets at 1 in H. cbv beta iota in H.
    by case_match; injection H as <-.
  - left. apply Hkeep. unfold on_genesis_session, bind, gets, write_notaries, modify, ret, panic in H.
    by repeat case_match; simplify_eq/=.
  - left. apply Hkeep. destruct origin; [|done..]. by injection H as <-.
  - left. apply Hkeep. destruct origin; [|done..]. by injection H as <-.
  - left. apply Hkeep. destruct origin; [|done..]. by injection H as <-.
  - left. by apply Hkeep.
Qed.

(** The bucket of the moment of processing is the one that a pruning block
    drops during the same hour: an event accepted in state [s] is forgotten by
    a pruning block in the same hour slot of the deadline, and its transaction
    can be claimed, and paid out, a second time. *)
Theorem processed_event_forgotten_in_the_hour id tx ty r key s1 s s' w b a sg data :
  bridge_ok s1 -> EventClaims (claims s1) !! id = Some (tx, ty) ->
  handle_event_notarization id r key s1 = (Ok tt, s) -> verdict id (vote id key r s1) = Some true ->
  let ttl := EventDeadlineSeconds (claims s1) in
  0 <= unix_now (world s1) -> unix_now (world s1) + ttl <= umax U64 -> 0 < ttl ->
  unix_now w mod ttl / BUCKET_FACTOR_S = unix_now (world s1) mod ttl / BUCKET_FACTOR_S ->
  b mod CLAIM_PRUNING_INTERVAL = 0 ->
  on_initialize b (on_world (fun _ => w) s) = (Ok tt, s') ->
  tx ∈ ProcessedTxHashes (claims s) /\ exists id' s'', submit_event_claim a sg tx data s' = (Ok id', s'').
Proof.
  intros Hok Hid H Hv ttl Ht0 Hmax Hpos Hbucket Hb Hinit.
  destruct (handle_event_Ok _ _ _ _ _ (bridge_claims_ok _ Hok) H) as (tx' & ty' & Hid' & Hs).
  assert (tx' = tx) as -> by congruence. rewrite Hv in Hs. destruct Hs as [w1 ->]. cbn.
  split; [set_solver|]. pose proof (submit_event_claim_eq a sg tx data s') as Hsub.
  pose proof (on_initialize_claims _ _ _ Hinit) as Hcl. rewrite Hb, Z.eqb_refl in Hcl. unfold pruned_bucket in Hcl.
  cbn in Hcl. fold ttl in Hcl. rewrite Hbucket in Hcl.
  assert (Hcur : current_bucket s1 = unix_now (world s1) mod ttl / BUCKET_FACTOR_S).
  { unfold current_bucket, wrapping_add. fold ttl. rewrite wrap_small by (unfold in_range; lia).
    rewrite <- (Z.mul_1_l ttl) at 1. by rewrite Z.mod_add by lia. }
  rewrite decide_False in Hsub.
  - assert (Hpend : PendingTxHashes (claims s') !! tx = None) by (rewrite Hcl; apply lookup_delete_eq).
    rewrite Hpend in Hsub. eauto.
  - rewrite Hcl. cbn. intros [_ Hnot]%elem_of_difference. apply Hnot, elem_of_bucket_hashes. cbn.
    rewrite <- Hcur. set_solver.
Qed.

(** ** Delayed proofs *)
Section Drain.
Hypothesis iter_order_perm : forall V (m : gmap Z V), iter_order V m ≡ₚ map_to_list m.

Definition signing_requests (l : list (Z * bytes)) : list ConsensusLog := (fun '(id, m) => OpaqueSigningRequest m id) <$> l.

Lemma foldl_delete_rest (m : gmap Z bytes) l1 l2 : l1 ++ l2 ≡ₚ map_to_list m ->
  map_to_list (foldl (fun m kv => delete kv.1 m) m l1) ≡ₚ l2.
Proof.
  revert m. induction l1 as [|[k v] l1 IH]; intros m Hp; simpl; [done|]. apply IH. cbn.
  assert (Hk : m !! k = Some v) by (apply elem_of_map_to_list; rewrite <- Hp; left).
  rewrite <- (insert_delete_id m k v Hk) in Hp. rewrite map_to_list_insert in Hp by apply lookup_delete_eq.
  by apply (Permutation.Permutation_cons_inv Hp).
Qed.

(** What one block does to the queue of delayed proofs. *)
Lemma on_initialize_delayed b s : BridgePaused (notaries s) = false -> EventDeadlineSeconds (claims s) <> 0 ->
  exists s' now later, on_initialize b s = (Ok tt, s') /\
    now ++ later ≡ₚ map_to_list (DelayedEventProofs (notaries s)) /\
    length now = (Z.to_nat (DelayedEventProofsPerBlock (notaries s)) `min` length (now ++ later))%nat /\
    later ≡ₚ map_to_list (DelayedEventProofs (notaries s')) /\
    digest (notaries s') = digest (notaries s) ++ signing_requests now /\
    BridgePaused (notaries s') = false /\ EventDeadlineSeconds (claims s') = EventDeadlineSeconds (claims s) /\
    DelayedEventProofsPerBlock (notaries s') = DelayedEventProofsPerBlock (notaries s).
Proof.
  intros Hpause Hnz.
  assert (exists c1, (if b mod CLAIM_PRUNING_INTERVAL =? 0 then prune_claims else ret tt) s = (Ok tt, on_claims (fun _ => c1) s) /\
    EventDeadlineSeconds c1 = EventDeadlineSeconds (claims s)) as (c1 & Hc1 & Httl).
  { case_match; [|exists (claims s); by destruct s]. eexists. unfold prune_claims, rem, bind, gets.
    by rewrite (proj2 (Z.eqb_neq _ _) Hnz). }
  unfold on_initialize. unfold bind at 1. rewrite Hc1. unfold bind at 1, gets at 1. cbv beta iota.
  cbn [on_claims notaries]. rewrite Hpause. cbn [negb]. rewrite andb_true_r. case_bool_decide as Hd; cbn [negb].
  - exists (on_claims (fun _ => c1) s), [], []. cbn. rewrite Hd, map_to_list_empty, app_nil_r. split_and!; try done. simpl. lia.
  - set (l := iter_order _ (DelayedEventProofs (notaries s))). set (k := Z.to_nat (DelayedEventProofsPerBlock (notaries s))).
    unfold process_delayed, bind at 1, gets at 1. cbv beta iota zeta. cbn [on_claims notaries]. fold l k. rewrite for_each_delayed.
    eexists _, (take k l), (drop k l). split; [reflexivity|]. rewrite take_drop.
    pose proof (iter_order_perm _ (DelayedEventProofs (notaries s))) as Hl. fold l in Hl.
    split; [done|]. split; [by rewrite length_take|]. split; [|done]. symmetry. cbn. apply foldl_delete_rest. by rewrite take_drop.
Qed.

(** Once the bridge is not paused, the blocks that follow log every delayed
    proof exactly once; as many blocks as the queue is long divided by the
    number of proofs per block, rounded up, are enough to empty it. *)
Theorem delayed_proofs_drain (blocks : list BlockNumber) s :
  BridgePaused (notaries s) = false -> EventDeadlineSeconds (claims s) <> 0 ->
  (size (DelayedEventProofs (notaries s)) <= Z.to_nat (DelayedEventProofsPerBlock (notaries s)) * length blocks)%nat ->
  exists s' l, for_each blocks on_initialize s = (Ok tt, s') /\ DelayedEventProofs (notaries s') = ∅ /\
    l ≡ₚ map_to_list (DelayedEventProofs (notaries s)) /\ digest (notaries s') = digest (notaries s) ++ signing_requests l.
Proof.
  revert s. induction blocks as [|b blocks IH]; intros s Hp Hnz Hsize.
  - assert (He : DelayedEventProofs (notaries s) = ∅) by (apply map_size_empty_inv; simpl in Hsize; lia).
    exists s, []. rewrite He, map_to_list_empty, app_nil_r. done.
  - destruct (on_initialize_delayed b s Hp Hnz) as (s1 & now & later & Hrun & Hperm & Hlen & Hlater & Hdig & Hp1 & Hnz1 & Hk1).
    pose proof (Permutation_length Hperm) as HL. pose proof (Permutation_length Hlater) as HL2.
    rewrite length_map_to_list in HL, HL2. rewrite length_app in HL, Hlen. simpl length in Hsize.
    destruct (IH s1) as (s2 & l & Hrun2 & Hempty & Hl & Hdig2); [done | congruence | rewrite Hk1; lia |].
    exists s2, (now ++ l). split; [simpl; unfold bind; by rewrite Hrun|]. split; [done|]. split.
    + by rewrite Hl, <- Hlater.
    + unfold signing_requests in *. by rewrite Hdig2, Hdig, fmap_app, app_assoc.
Qed.
End Drain.

(** ** The notary set *)

(** The next keys, when set, have been announced with the next set id. *)
Definition announced (n : NotaryStore) : Prop := NextNotaryKeys n = [] \/
  PendingAuthoritiesChange (mkValidatorSet (NextNotaryKeys n) (wrapping_add U64 (NotarySetId n) 1)) (NotarySetProofId n) ∈ digest n.

Lemma announced_frame n n' : announced n -> NextNotaryKeys n' = NextNotaryKeys n -> NotarySetId n' = NotarySetId n ->
  NotarySetProofId n' = NotarySetProofId n -> (forall x, x ∈ digest n -> x ∈ digest n') -> announced n'.
Proof. unfold announced. intros H -> -> -> Hd. naive_solver. Qed.

Lemma log_notary_change_announced keys s s' : log_notary_change keys s = (Ok tt, s') ->
  announced (notaries s') /\ NotaryKeys (notaries s') = NotaryKeys (notaries s).
Proof. intros [= <-]. split; [|done]. right. cbn. apply elem_of_app. right. by left. Qed.


Lemma handle_event_notaries id r key s s' : claims_ok (claims s) -> handle_event_notarization id r key s = (Ok tt, s') ->
  exists l, notaries s' = set_bridge_events (fun e => e ++ l) (notaries s).
Proof.
  intros Hc H. destruct (handle_event_Ok _ _ _ _ _ Hc H) as (tx & ty & _ & Hs').
  destruct (verdict _ _) as [[]|]; [destruct Hs' as [w ->]; by eexists..|]. subst s'. exists [].
  unfold set_bridge_events. cbn. rewrite app_nil_r. by destruct (notaries s).
Qed.

Lemma step_notaries s s' : bridge_ok s -> step s s' -> announced (notaries s) ->
  announced (notaries s') /\
  (NotaryKeys (notaries s') = NotaryKeys (notaries s) \/ NotaryKeys (notaries s) = None \/
   NotaryKeys (notaries s') = Some (NextNotaryKeys (notaries s)) /\
   NotarySetId (notaries s') = wrapping_add U64 (NotarySetId (notaries s)) 1).
Proof.
  intros Hs Hstep Ha.
  assert (Hframe : forall n', NextNotaryKeys n' = NextNotaryKeys (notaries s) -> NotarySetId n' = NotarySetId (notaries s) ->
    NotarySetProofId n' = NotarySetProofId (notaries s) -> NotaryKeys n' = NotaryKeys (notaries s) ->
    (exists l, digest n' = digest (notaries s) ++ l) -> announced n' /\
    (NotaryKeys n' = NotaryKeys (notaries s) \/ NotaryKeys (notaries s) = None \/
     NotaryKeys n' = Some (NextNotaryKeys (notaries s)) /\ NotarySetId n' = wrapping_add U64 (NotarySetId (notaries s)) 1)).
  { intros n' H1 H2 H3 H4 [l H5]. split; [|by left]. apply (announced_frame (notaries s)); try done. rewrite H5. set_solver. }
  assert (Hsame : announced (notaries s) /\
    (NotaryKeys (notaries s) = NotaryKeys (notaries s) \/ NotaryKeys (notaries s) = None \/
     NotaryKeys (notaries s) = Some (NextNotaryKeys (notaries s)) /\
     NotarySetId (notaries s) = wrapping_add U64 (NotarySetId (notaries s)) 1)) by auto.
  destruct Hstep as [a sg tx' data id s s' H Ht Hc|event id s s' H Hp|target input t b l id s s' H Hk
    |origin p s s' H|b s s' H|v q s s' H Hp|s s' H|keys s s' H|origin n s s' H|origin n s s' H|origin n s s' H|w s].
  - rewrite submit_event_claim_eq in H. repeat case_match; simplify_eq/=; done.
  - unfold generate_event_proof, bind, gets in H. cbv beta iota zeta in H.
    destruct (BridgePaused (notaries s)); injection H as _ <-; apply Hframe; try done; [exists []; by rewrite app_nil_r | by eexists].
  - by injection H as _ <-.
  - apply submit_notarization_Ok in H as (key & s1 & w & _ & H & ->). cbn. destruct p.
    + by apply handle_call_frame in H as [_ ->].
    + apply handle_event_notaries in H as [l ->]; [|apply Hs]. apply Hframe; try done. exists []. by rewrite app_nil_r.
  - unfold on_initialize in H. unfold bind at 1 in H.
    destruct ((if b mod CLAIM_PRUNING_INTERVAL =? 0 then prune_claims else ret tt) s) as [[[]|e|] s1] eqn:E; [|done..].
    assert (Hn : notaries s1 = notaries s).
    { case_match; [|by injection E as <-]. unfold prune_claims, rem, bind, gets in E.
      destruct (EventDeadlineSeconds (claims s) =? 0); [done|]. by injection E as <-. }
    unfold bind at 1, gets at 1 in H. cbv beta iota in H. rewrite Hn in H.
    destruct (_ && _); [|injection H as <-; by rewrite Hn].
    unfold process_delayed, bind at 1, gets at 1 in H. cbv beta iota zeta in H. rewrite for_each_delayed in H. injection H as <-.
    unfold on_notaries. cbn [notaries]. rewrite Hn. apply Hframe; try done. by eexists.
  - unfold on_new_session, bind at 1, gets at 1 in H. cbv beta iota in H. destruct (_ || _) in H; [|by injection H as <-].
    unfold handle_authorities_change, bind at 1, gets at 1 in H. cbv beta iota in H.
    destruct (is_next_session_final (world s)).1.
    { apply log_notary_change_announced in H as [H1 H2]. auto. }
    destruct (is_active_session_final (world s)); [|by injection H as <-].
    unfold bind at 1, write_notaries at 1, modify at 1 in H. cbv beta iota in H. unfold bind at 1, gets at 1 in H. cbv beta iota in H.
    case_bool_decide.
    + apply log_notary_change_announced in H as [H1 H2]. auto.
    + injection H as <-. apply Hframe; try done. exists []. by rewrite app_nil_r.
  - unfold on_before_session_ending, bind at 1, gets at 1 in H. cbv beta iota in H.
    destruct (is_active_session_final (world s)); injection H as <-; [|done]. split; [by left|]. right. right. done.
  - unfold on_genesis_session, bind, gets, write_notaries, modify, ret, panic in H.
    repeat case_bool_decide; simplify_eq/=; [done|]. split; [|by right; left].
    apply (announced_frame (notaries s)); done.
  - destruct origin; [|done..]. by injection H as <-.
  - destruct origin; [|done..]. by injection H as <-.
  - destruct origin; [|done..]. injection H as <-. apply Hframe; try done. exists []. by rewrite app_nil_r.
  - done.
Qed.

(** The notary set only changes to announced keys: in every reachable state
    a step that replaces initialised notary keys installs exactly the keys
    scheduled for the next session and increments the set id, and keys that are
    scheduled carry a logged request, under the recorded proof id, that the old
    set attests them with the new id. *)
Theorem notary_change_announced w s s' : rtc step (initial w) s -> step s s' ->
  NotaryKeys (notaries s) <> None -> NotaryKeys (notaries s') <> NotaryKeys (notaries s) ->
  NotaryKeys (notaries s') = Some (NextNotaryKeys (notaries s)) /\
  NotarySetId (notaries s') = wrapping_add U64 (NotarySetId (notaries s)) 1 /\
  (NextNotaryKeys (notaries s) <> [] ->
   PendingAuthoritiesChange (mkValidatorSet (NextNotaryKeys (notaries s)) (NotarySetId (notaries s')))
     (NotarySetProofId (notaries s)) ∈ digest (notaries s)).
Proof.
  intros Hr Hstep Hsome Hne.
  assert (bridge_ok s /\ announced (notaries s)) as [Hok Ha].
  { revert Hr. generalize (initial w) as s0, (bridge_initial_ok w), (or_introl eq_refl : announced (notaries (initial w))).
    clear. intros s0 H0 Ha Hr. induction Hr as [s|s1 s2 s3 Hst _ IH]; [done|].
    apply IH; [by eapply bridge_step_ok | by apply (step_notaries s1)]. }
  destruct (step_notaries s s' Hok Hstep Ha) as [_ [?|[?|[H1 H2]]]]; [done..|]. rewrite H1, H2. split_and!; [done..|].
  intros Hnn. by destruct Ha.
Qed.

(** ** Repeated call votes *)
Lemma submit_call_eq id i r key s : notary_keys (notaries s) !! Z.to_nat i = Some key ->
  submit_notarization NoOrigin (PayloadCall id i r) s =
  transactional (bind (handle_call_notarization id r key) (fun _ => modify (on_world (fun w =>
    match authority_set w !! Z.to_nat i with Some v => reward_notary v w | None => w end)))) s.
Proof.
  intros Hkey. unfold submit_notarization, transactional, bind at 1. cbn [ensure_none ret authority_index].
  unfold bind at 1, gets at 1. cbv beta iota zeta. unfold bind at 1. rewrite Hkey. done.
Qed.

Lemma handle_call_eq id r key s : is_Some (EthCallRequestInfo (calls s) !! id) ->
  let l := increment r (sget [] id (EthCallNotarizationsAggregated (calls s))) in
  let n := notary_count s in
  let s1 := on_calls (set_EthCallNotarizations (insert (id, key) r)) s in
  handle_call_notarization id r key s =
  match find_consensus n 0 l with
  | inl agreed => do_callback_and_clean_up id agreed s1
  | inr total =>
      if (total =? n) || negb (can_reach_consensus n (saturating_sub n total) l)
      then do_callback_and_clean_up id r s1
      else (Ok tt, on_calls (set_EthCallNotarizationsAggregated (insert id l)) s1)
  end.
Proof.
  intros Hid. cbv zeta. unfold handle_call_notarization, bind at 1, gets at 1. cbv beta iota.
  rewrite bool_decide_true by done. unfold bind at 1, ensure, ret at 1. cbv beta iota zeta.
  unfold bind at 1, write_calls at 1, modify at 1. cbv beta iota. unfold bind at 1, gets at 1. cbv beta iota.
  change (notary_count (on_calls _ s)) with (notary_count s). by repeat case_match.
Qed.

(** The duplicate check of [validate_unsigned] looks at event votes only. A
    notary can submit the same call result twice, each submission passes, each
    is counted, and when two votes reach the threshold the result is delivered
    although a single notary reported it. *)
Theorem one_notary_decides_call {Signature} (verify : EthyId -> NotarizationPayload -> Signature -> bool)
    (signature : Signature) id i key data block time s :
  let p := PayloadCall id i (CallOk data block time) in
  let n := notary_count s in
  notary_keys (notaries s) !! Z.to_nat i = Some key -> verify key p signature = true ->
  is_Some (EthCallRequestInfo (calls s) !! id) -> EthCallNotarizationsAggregated (calls s) !! id = None ->
  EventNotarizations (claims s) !! (id, key) = None ->
  1 < n -> percent_from_rational 1 n < NotarizationThreshold ->
  NotarizationThreshold <= percent_from_rational 2 n -> NotarizationThreshold <= percent_from_rational n n ->
  (forall v w, authority_set (reward_notary v w) = authority_set w) ->
  (forall w, is_Some (on_eth_call_complete id data block time w)) ->
  exists s1 s2 w, validate_unsigned verify p signature s = ValidTransaction (0, id, i) /\
    submit_notarization NoOrigin p s = (Ok tt, s1) /\
    EthCallNotarizations (calls s1) !! (id, key) = Some (CallOk data block time) /\
    validate_unsigned verify p signature s1 = ValidTransaction (0, id, i) /\
    submit_notarization NoOrigin p s1 = (Ok tt, s2) /\
    on_eth_call_complete id data block time (world s1) = Some w /\ EthCallRequestInfo (calls s2) !! id = None.
Proof.
  intros p n Hkey Hver Hid Hagg Hev Hn H1 H2 Hnn Hrew Hsub.
  assert (Hn32 : n <= umax U32) by (unfold n, notary_count; apply wrap_range; done).
  set (l1 := [(CallOk data block time, 1)]).
  set (wr := fun w => match authority_set w !! Z.to_nat i with Some v => reward_notary v w | None => w end).
  set (s1 := on_world wr (on_calls (set_EthCallNotarizationsAggregated (insert id l1))
    (on_calls (set_EthCallNotarizations (insert (id, key) (CallOk data block time))) s))).
  assert (Hs1 : submit_notarization NoOrigin p s = (Ok tt, s1)).
  { unfold p. rewrite (submit_call_eq _ _ _ key) by done. unfold transactional, bind. rewrite handle_call_eq by done.
    unfold sget. rewrite Hagg. cbn [default increment find_consensus]. fold n.
    rewrite (proj2 (Z.leb_gt _ _) H1). change (wrapping_add U32 0 1) with 1.
    rewrite (proj2 (Z.eqb_neq _ _)) by lia. cbn [orb].
    assert (can_reach_consensus n (saturating_sub n 1) l1 = true) as Hcan.
    { cbn. unfold saturating_sub, wrapping_add. rewrite wrap_small by (unfold in_range; lia).
      replace (1 + Z.max 0 (n - 1)) with n by lia. by rewrite (proj2 (Z.leb_le _ _) Hnn). }
    fold l1. change (wrapping_add U32 0 1) with 1. by rewrite Hcan. }
  assert (Hcount : notary_count s1 = n).
  { unfold n, notary_count, s1, wr. cbn. case_match; by rewrite ?Hrew. }
  destruct (Hsub (world s1)) as [w Hw].
  assert (Hval : forall s', notary_keys (notaries s') = notary_keys (notaries s) -> claims s' = claims s ->
    validate_unsigned verify p signature s' = ValidTransaction (0, id, i)).
  { intros s' Hk Hc. unfold validate_unsigned, p. cbn [authority_index payload_id type_id]. rewrite Hk, Hkey, Hc, Hev.
    rewrite bool_decide_false by (by intros []). fold p. by rewrite Hver. }
  exists s1. eexists. exists w. split_and!; [by apply Hval | done | apply lookup_insert_eq | by apply Hval | | done |].
  - unfold p. rewrite (submit_call_eq _ _ _ key) by done. unfold transactional, bind. rewrite handle_call_eq by done.
    rewrite Hcount. assert (sget [] id (EthCallNotarizationsAggregated (calls s1)) = l1) as ->.
    { unfold sget, s1. cbn. by rewrite lookup_insert_eq. }
    assert (find_consensus n 0 (increment (CallOk data block time) l1) = inl (CallOk data block time)) as ->.
    { cbn [l1 increment find_consensus]. rewrite result_compare_refl. cbn [find_consensus].
      change (wrapping_add U32 1 1) with 2. by rewrite (proj2 (Z.leb_le _ _) H2). }
    unfold do_callback_and_clean_up. unfold bind at 1, notify. cbn [world on_calls on_world]. rewrite Hw. reflexivity.
  - cbn. apply lookup_delete_eq.
Qed.
End Safety.

(** ** Concrete runs *)
Module BridgeDemo.
Record World := mkWorld { w_validators : list Z; w_now : Z; w_next_final : bool; w_active_final : bool; w_log : list (Z * bytes) }.

Definition set_now (t : Z) (w : World) : World := mkWorld (w_validators w) t (w_next_final w) (w_active_final w) (w_log w).
Definition note (id : Z) (d : bytes) (w : World) : World :=
  mkWorld (w_validators w) (w_now w) (w_next_final w) (w_active_final w) (w_log w ++ [(id, d)]).

#[export] Instance demo_config : BridgeConfig := {|
  NotarizationThreshold := 66;
  percent_from_rational p q := Z.min 100 (100 * p / Z.max q 1);
  iter_order V m := map_to_list m;
|}.

#[export] Instance demo_env : BridgeEnv World := {|
  authority_set := w_validators;
  unix_now := w_now;
  reward_notary _ w := w;
  is_next_session_final w := (w_next_final w, false);
  is_active_session_final := w_active_final;
  on_success id _ _ d w := Some (note id d w);
  on_failure id _ _ d w := Some w;
  on_eth_call_complete id d _ _ w := Some (note id d w);
  on_eth_call_failed id _ w := Some w;
|}.

Definition w0 : World := mkWorld [1; 2; 3] 1000 false false [].
Definition s0 : State World := initial w0.

(** Three notaries, one claim, one vote. *)
Definition keyed : State World := (on_genesis_session [11; 12; 13] s0).2.
Definition claimed : State World := (submit_event_claim [7] [8] [9] [10; 10] keyed).2.
Definition once : State World := (submit_notarization NoOrigin (PayloadEvent 0 0 Valid) claimed).2.
Definition twice : State World := (submit_notarization NoOrigin (PayloadEvent 0 1 Valid) once).2.
Definition asked : State World := (checked_eth_call [7] [1] 900 5 3 keyed).2.

Lemma bridge_run_Ok {A} (m : D (State World) A) s a : (m s).1 = Ok a -> m s = (Ok a, (m s).2).
Proof. destruct (m s). simpl. by intros ->. Qed.

Lemma keyed_reachable : rtc step s0 keyed.
Proof. apply rtc_once, (step_genesis_session [11; 12; 13]), bridge_run_Ok. vm_compute. reflexivity. Qed.

Lemma claimed_reachable : rtc step s0 claimed.
Proof.
  eapply rtc_r; [exact keyed_reachable|].
  apply (step_claim [7] [8] [9] [10; 10] 0); [apply bridge_run_Ok; vm_compute; reflexivity | reflexivity | reflexivity].
Qed.

Lemma once_reachable : rtc step s0 once.
Proof.
  eapply rtc_r; [exact claimed_reachable|].
  assert (H : (submit_notarization NoOrigin (PayloadEvent 0 0 Valid) claimed).1 = Ok tt) by (vm_compute; reflexivity).
  exact (step_notarize _ _ claimed once (bridge_run_Ok _ claimed tt H)).
Qed.

Lemma once_ok : bridge_ok once.
Proof. refine (steps_ok s0 once _ once_reachable). exact (bridge_initial_ok w0). Qed.

Lemma bridge_reachable_witness : rtc step (initial w0) once /\ bridge_ok once.
Proof. split; [exact once_reachable|]. apply (bridge_reachable w0 once). exact once_reachable. Defined.

(** The second of three notaries accepts the claim. *)
Lemma claim_decided_witness :
  verdict 0 (vote 0 12 Valid once) = Some true /\
  exists s', submit_notarization NoOrigin (PayloadEvent 0 1 Valid) once = (Ok tt, s') /\ [9] ∈ ProcessedTxHashes (claims s').
Proof.
  assert (Hv : verdict 0 (vote 0 12 Valid once) = Some true) by (vm_compute; reflexivity).
  split; [exact Hv|].
  assert (H1 : notary_keys (notaries once) !! Z.to_nat 1 = Some 12) by (vm_compute; reflexivity).
  assert (H2 : EventClaims (claims once) !! 0 = Some ([9], 0)) by (vm_compute; reflexivity).
  assert (H3 : EventData (claims once) !! 0 = Some [10; 10]) by (vm_compute; reflexivity).
  assert (H4 : EventDeadlineSeconds (claims once) <> 0) by (vm_compute; discriminate).
  pose proof (claim_decided 0 1 Valid 12 [9] 0 [10; 10] once H1 H2 H3 H4) as H.
  cbv zeta in H. rewrite Hv in H. cbn in H. destruct H as (s' & Hs' & _ & (_ & _ & _ & _ & Hp & _)).
  exists s'. split; [exact Hs'|]. rewrite Hp. set_solver.
Defined.

Lemma percent_monotone a b n : a <= b -> percent_from_rational a n <= percent_from_rational b n.
Proof. intros H. cbn. apply Z.min_le_compat_l, Z.div_le_mono; lia. Qed.

(** Against the key 11 alone. *)
Lemma verified_by_honest_notary_witness : exists honest, honest ∉ ({[ 11 ]} : gset Z) /\
  EventNotarizations (claims (vote 0 12 Valid once)) !! (0, honest) = Some Valid.
Proof.
  assert (H : (submit_notarization NoOrigin (PayloadEvent 0 1 Valid) once).1 = Ok tt) by (vm_compute; reflexivity).
  destruct (verified_by_honest_notary NoOrigin (PayloadEvent 0 1 Valid) once twice 0 {[ 11 ]} once_ok)
    as (i & r & key & honest & Hp & Hkey & Hout & Hin).
  - exact (bridge_run_Ok _ once tt H).
  - vm_compute. reflexivity.
  - exact percent_monotone.
  - vm_compute. reflexivity.
  - exists honest. injection Hp as <- <-. assert (key = 12) as -> by (vm_compute in Hkey; congruence). split; [exact Hout | exact Hin].
Defined.

Lemma twice_step : step once twice.
Proof.
  assert (H : (submit_notarization NoOrigin (PayloadEvent 0 1 Valid) once).1 = Ok tt) by (vm_compute; reflexivity).
  exact (step_notarize _ _ once twice (bridge_run_Ok _ once tt H)).
Qed.

Lemma twice_ok : bridge_ok twice.
Proof. exact (bridge_step_ok once twice once_ok twice_step). Qed.

Definition later : State World := on_world (fun _ => set_now 1600 (world twice)) twice.

Lemma processed_until_pruned_witness : [9] ∈ ProcessedTxHashes (claims twice) /\ [9] ∈ ProcessedTxHashes (claims later).
Proof.
  assert (H9 : [9] ∈ ProcessedTxHashes (claims twice)) by (refine (bool_decide_unpack _ _); vm_compute; exact I).
  split; [exact H9|].
  destruct (processed_until_pruned twice later [9] twice_ok (step_world _ twice) H9) as [[H _]|(b & H & _)]; [exact H|].
  exfalso. apply (f_equal (fun r => w_now (world (snd r)))) in H. revert H.
  assert (Hw : forall b, w_now (world (on_initialize b twice).2) = 1000).
  { intros b'. unfold on_initialize, bind at 1. destruct (b' mod CLAIM_PRUNING_INTERVAL =? 0); vm_compute; reflexivity. }
  rewrite Hw. vm_compute. discriminate.
Defined.

(** Accepted at second 1000, pruned at second 1600, claimed again. *)
Definition accepted : State World := (handle_event_notarization 0 Valid 12 once).2.
Definition pruned : State World := (on_initialize 720 (on_world (fun _ => set_now 1600 w0) accepted)).2.

Lemma processed_event_forgotten_witness : [9] ∈ ProcessedTxHashes (claims accepted) /\
  exists id' s'', submit_event_claim [7] [8] [9] [10; 10] pruned = (Ok id', s'').
Proof.
  assert (H1 : (handle_event_notarization 0 Valid 12 once).1 = Ok tt) by (vm_compute; reflexivity).
  assert (H2 : (on_initialize 720 (on_world (fun _ => set_now 1600 w0) accepted)).1 = Ok tt) by (vm_compute; reflexivity).
  assert (H3 : EventClaims (claims once) !! 0 = Some ([9], 0)) by (vm_compute; reflexivity).
  assert (H4 : verdict 0 (vote 0 12 Valid once) = Some true) by (vm_compute; reflexivity).
  apply (processed_event_forgotten_in_the_hour 0 [9] 0 Valid 12 once accepted pruned (set_now 1600 w0) 720
    [7] [8] [10; 10] once_ok H3 (bridge_run_Ok _ once tt H1) H4); 
    [| | | | | exact (bridge_run_Ok _ _ tt H2)]; vm_compute; (reflexivity || discriminate).
Defined.

(** Seven proofs delayed while the bridge was paused. *)
Definition paused : State World := on_notaries (set_BridgePaused (fun _ => true)) keyed.
Definition delayed : State World := on_notaries (set_BridgePaused (fun _ => false))
  (for_each [1; 2; 3; 4; 5; 6; 7] (fun x => bind (generate_event_proof [x]) (fun _ => ret tt)) paused).2.

Lemma delayed_proofs_drain_witness : size (DelayedEventProofs (notaries delayed)) = 7%nat /\
  exists s', for_each [1; 2] on_initialize delayed = (Ok tt, s') /\ DelayedEventProofs (notaries s') = ∅.
Proof.
  split; [vm_compute; reflexivity|].
  destruct (delayed_proofs_drain (fun V m => Permutation_refl (map_to_list m)) [1; 2] delayed) as (s' & l & H1 & H2 & _).
  - vm_compute. reflexivity.
  - vm_compute. discriminate.
  - vm_compute. repeat constructor.
  - exists s'. split; [exact H1 | exact H2].
Defined.

(** The end of an era: keys queued one session before are installed. *)
Definition rotating : State World := on_world (fun _ => mkWorld [1; 2; 3] 1000 true false []) keyed.
Definition queued : State World := (on_new_session [11; 12; 13] [21; 22] rotating).2.
Definition ending : State World := on_world (fun _ => mkWorld [1; 2; 3] 2000 false true []) queued.
Definition rotated : State World := (on_before_session_ending ending).2.

Lemma ending_reachable : rtc step s0 ending.
Proof.
  assert (Hr : rtc step s0 rotating) by (eapply rtc_r; [exact keyed_reachable | exact (step_world _ keyed)]).
  eapply rtc_r; [|exact (step_world _ queued)]. eapply rtc_r; [exact Hr|].
  assert (H : (on_new_session [11; 12; 13] [21; 22] rotating).1 = Ok tt) by (vm_compute; reflexivity).
  exact (step_new_session _ _ rotating queued (bridge_run_Ok _ rotating tt H) eq_refl).
Qed.

Lemma notary_change_announced_witness : NotaryKeys (notaries rotated) = Some [21; 22] /\ NotarySetId (notaries rotated) = 1.
Proof.
  assert (H : (on_before_session_ending ending).1 = Ok tt) by (vm_compute; reflexivity).
  destruct (notary_change_announced w0 ending rotated ending_reachable) as (H1 & H2 & _).
  - exact (step_session_ending ending rotated (bridge_run_Ok _ ending tt H)).
  - vm_compute. discriminate.
  - vm_compute. discriminate.
  - split; [exact H1 | exact H2].
Defined.

Lemma one_notary_decides_call_witness : exists s1 s2,
  submit_notarization NoOrigin (PayloadCall 0 2 (CallOk [5] 6 7)) asked = (Ok tt, s1) /\
  submit_notarization NoOrigin (PayloadCall 0 2 (CallOk [5] 6 7)) s1 = (Ok tt, s2) /\ EthCallRequestInfo (calls s2) !! 0 = None.
Proof.
  assert (H1 : notary_keys (notaries asked) !! Z.to_nat 2 = Some 13) by (vm_compute; reflexivity).
  assert (H2 : is_Some (EthCallRequestInfo (calls asked) !! 0)) by (refine (bool_decide_unpack _ _); vm_compute; exact I).
  assert (H3 : EthCallNotarizationsAggregated (calls asked) !! 0 = None) by (vm_compute; reflexivity).
  assert (H4 : EventNotarizations (claims asked) !! (0, 13) = None) by (vm_compute; reflexivity).
  assert (H5 : notary_count asked = 3) by (vm_compute; reflexivity).
  destruct (one_notary_decides_call (fun _ _ (_ : unit) => true) tt 0 2 13 [5] 6 7 asked H1 eq_refl H2 H3 H4)
    as (s1 & s2 & w & _ & G1 & _ & _ & G2 & _ & G3);
    [rewrite H5; vm_compute; (reflexivity || discriminate)..| | |].
  - intros v w. reflexivity.
  - intros w. eexists. reflexivity.
  - exists s1, s2. split; [exact G1|]. split; [exact G2 | exact G3].
Defined.

(** An Ethereum node that knows the claimed transaction. *)
#[export] Instance demo_rpc : EthereumRpc := {|
  get_block_by_number b := inr (Some (mkBlock (Some 110) 950));
  get_transaction_receipt tx := inr (Some (mkReceipt 100 [mkLog [7] [[8]] [10; 10] (Some [9])] (Some 1) (Some [7])));
  rpc_eth_call _ _ _ := inr [];
|}.

Lemma worker_event_votes_valid_witness :
  offchain_worker (fun _ _ => Some tt) true [12] claimed = [(PayloadEvent 0 1 Valid, tt)] /\
  validate_unsigned (fun _ _ (_ : unit) => true) (PayloadEvent 0 1 Valid) tt claimed = ValidTransaction (1, 0, 1).
Proof.
  assert (H : offchain_worker (fun _ _ => Some tt) true [12] claimed = [(PayloadEvent 0 1 Valid, tt)]) by (vm_compute; reflexivity).
  split; [exact H|].
  refine (proj1 (worker_event_votes_valid (fun _ _ => Some tt) (fun _ _ (_ : unit) => true) _ true [12] claimed 0 1 Valid tt _ _ _)).
  - reflexivity.
  - vm_compute. discriminate.
  - intros V m. exact (Permutation_refl (map_to_list m)).
  - rewrite H. left.
Defined.
End BridgeDemo.
