(* ===== verification/EthyGadget.v ===== *)
(** * The ethy gadget

    The node side of the bridge: witnesses on event proof requests are signed,
    gossiped and collected until enough validators have signed
    ([src/ethy-gadget/src/witness_record.rs], [gossip.rs], [worker.rs], and the
    proof types of [src/primitives/src/eth.rs]). The asynchronous loop of
    [worker.rs] calls one handler per message; the handlers are modelled as
    transitions of the worker's state. Keys, hashing, the auxiliary database and
    the floating point threshold are the class [EthyCrypto]. *)

From S2P Require Import Prelude Support Search EthAbi EthBridgeTypes.

Abbreviation EventId := Z (only parsing).
Abbreviation AuthorityId := Z (only parsing).
Abbreviation Signature := (list Z) (only parsing).
Abbreviation Digest := (list Z) (only parsing).

(** [AuthoritySignature::default()] *)
Definition empty_signature : Signature := replicate 65 0.

Record Witness := mkWitness {
  wit_digest : Digest;
  wit_event_id : EventId;
  wit_validator_set_id : Z;
  wit_authority_id : AuthorityId;
  wit_signature : Signature;
}.

Record EventProof := mkEventProof {
  ep_digest : Digest;
  ep_event_id : EventId;
  ep_validator_set_id : Z;
  ep_signatures : list Signature;
  ep_block : bytes;
  ep_tag : option bytes;
}.

Definition signature_count (p : EventProof) : nat := length (filter (fun x => x <> empty_signature) (ep_signatures p)).

(** ** Witness record *)
Record WitnessRecord := mkRecord {
  record : gmap EventId (gmap Digest (list (nat * Signature)));
  event_meta : gmap EventId (bytes * option bytes);
  has_voted : gmap EventId (list AuthorityId);
  validators : list AuthorityId;
}.

Definition set_validators (v : list AuthorityId) (r : WitnessRecord) : WitnessRecord :=
  mkRecord (record r) (event_meta r) (has_voted r) v.

Definition clear (event_id : EventId) (r : WitnessRecord) : WitnessRecord :=
  mkRecord (delete event_id (record r)) (delete event_id (event_meta r)) (has_voted r) (validators r).

(** Writes each signature at its index; an index outside of the vector panics. *)
Fixpoint place (proofs : list (nat * Signature)) (signatures : list Signature) : option (list Signature) :=
  match proofs with
  | [] => Some signatures
  | (idx, signature) :: proofs =>
      if (idx <? length signatures)%nat then place proofs (<[idx := signature]> signatures) else None
  end.

Definition signatures_for (event_id : EventId) (digest : Digest) (r : WitnessRecord) : option (list Signature) :=
  proofs ← record r !! event_id ≫= (.!! digest);
  place proofs (replicate (length (validators r)) empty_signature).

Definition has_consensus (event_id : EventId) (digest : Digest) (threshold : nat) (r : WitnessRecord) : bool :=
  let maybe_count := length <$> (record r !! event_id ≫= (.!! digest)) in
  (threshold <=? default O maybe_count)%nat.

Definition event_metadata (event_id : EventId) (r : WitnessRecord) : option (bytes * option bytes) :=
  event_meta r !! event_id.

Definition note_event_metadata (event_id : EventId) (block : bytes) (tag : option bytes) (r : WitnessRecord)
    : WitnessRecord :=
  mkRecord (record r)
    (match event_meta r !! event_id with Some _ => event_meta r | None => <[event_id := (block, tag)]> (event_meta r) end)
    (has_voted r) (validators r).

(** The nested map with a witness of the validator at index [idx] added. *)
Definition record_signature (idx : option nat) (w : Witness) (r : WitnessRecord)
    : gmap EventId (gmap Digest (list (nat * Signature))) :=
  match record r !! wit_event_id w with
  | Some event_digests =>
      match event_digests !! wit_digest w, idx with
      | Some signatures, Some i =>
          <[wit_event_id w := <[wit_digest w := signatures ++ [(i, wit_signature w)]]> event_digests]> (record r)
      | None, Some i => <[wit_event_id w := <[wit_digest w := [(i, wit_signature w)]]> event_digests]> (record r)
      | _, None => record r
      end
  | None =>
      <[wit_event_id w :=
          match idx with Some i => {[ wit_digest w := [(i, wit_signature w)] ]} | None => ∅ end]> (record r)
  end.

Definition known (votes : option (list AuthorityId)) (id : AuthorityId) : bool :=
  match votes with
  | Some votes => match binary_search votes id with inl _ => true | inr _ => false end
  | None => false
  end.

(** [Vec::insert] *)
Definition insert_at (i : nat) (x : AuthorityId) (l : list AuthorityId) : list AuthorityId := take i l ++ x :: drop i l.

Definition mark_voted (votes : option (list AuthorityId)) (id : AuthorityId) : list AuthorityId :=
  match votes with
  | None => [id]
  | Some votes => match binary_search votes id with inr idx => insert_at idx id votes | inl _ => votes end
  end.

Definition note (w : Witness) (r : WitnessRecord) : bool * WitnessRecord :=
  let votes := has_voted r !! wit_event_id w in
  if known votes (wit_authority_id w) then (false, r)
  else
    (true, mkRecord (record_signature (position (wit_authority_id w) (validators r)) w r) (event_meta r)
             (<[wit_event_id w := mark_voted votes (wit_authority_id w)]> (has_voted r)) (validators r)).

(** ** Gossip validator *)
Definition MAX_COMPLETE_EVENT_CACHE : nat := 30.

Record GossipValidator := mkGossip {
  known_votes : gmap EventId (list AuthorityId);
  complete_events : list EventId;
  active_validators : list AuthorityId;
}.

Definition mark_complete (event_id : EventId) (g : GossipValidator) : GossipValidator :=
  let c := if (MAX_COMPLETE_EVENT_CACHE <? length (complete_events g))%nat then tail (complete_events g)
           else complete_events g in
  mkGossip (delete event_id (known_votes g))
    (match binary_search c event_id with inl _ => c | inr idx => insert_at idx event_id c end)
    (active_validators g).

Definition set_active_validators (v : list AuthorityId) (g : GossipValidator) : GossipValidator :=
  mkGossip (known_votes g) (complete_events g) v.

Definition message_expired (w : Witness) (g : GossipValidator) : bool :=
  match binary_search (complete_events g) (wit_event_id w) with inl _ => true | inr _ => false end.

Class EthyCrypto := {
  has_key : AuthorityId -> bool;
  sign : AuthorityId -> bytes -> option Signature;
  keccak_256 : bytes -> Digest;
  verify_prehashed : AuthorityId -> Signature -> Digest -> bool;
  eth_address : AuthorityId -> bytes;
  proof_threshold : nat -> nat;
  insert_aux_ok : EventId -> bool;
}.

Section Gadget.
Context {crypto : EthyCrypto}.

(** [Validator::validate] on a decoded witness: whether to process and keep it. *)
Definition validate (w : Witness) (g : GossipValidator) : bool * GossipValidator :=
  let votes := known_votes g !! wit_event_id w in
  if known votes (wit_authority_id w) then (false, g)
  else if negb (existsb (fun v => v =? wit_authority_id w) (active_validators g)) then (false, g)
  else if verify_prehashed (wit_authority_id w) (wit_signature w) (wit_digest w) then
    (true, mkGossip (<[wit_event_id w := mark_voted votes (wit_authority_id w)]> (known_votes g)) (complete_events g)
             (active_validators g))
  else (false, g).

(** ** Worker *)
Record Worker := mkWorker {
  witness_record : WitnessRecord;
  gossip_validator : GossipValidator;
  wk_validator_set : ValidatorSet;
  aux_proofs : gmap EventId EventProof;
  notified : list EventProof;
  gossiped : list Witness;
  best_grandpa_block : Z;
}.

Definition set_witness_record f k := mkWorker (f (witness_record k)) (gossip_validator k) (wk_validator_set k) (aux_proofs k) (notified k) (gossiped k) (best_grandpa_block k).
Definition set_gossip_validator f k := mkWorker (witness_record k) (f (gossip_validator k)) (wk_validator_set k) (aux_proofs k) (notified k) (gossiped k) (best_grandpa_block k).
Definition set_wk_validator_set f k := mkWorker (witness_record k) (gossip_validator k) (f (wk_validator_set k)) (aux_proofs k) (notified k) (gossiped k) (best_grandpa_block k).
Definition set_aux_proofs f k := mkWorker (witness_record k) (gossip_validator k) (wk_validator_set k) (f (aux_proofs k)) (notified k) (gossiped k) (best_grandpa_block k).
Definition set_notified f k := mkWorker (witness_record k) (gossip_validator k) (wk_validator_set k) (aux_proofs k) (f (notified k)) (gossiped k) (best_grandpa_block k).
Definition set_gossiped f k := mkWorker (witness_record k) (gossip_validator k) (wk_validator_set k) (aux_proofs k) (notified k) (f (gossiped k)) (best_grandpa_block k).
Definition set_best_grandpa_block f k := mkWorker (witness_record k) (gossip_validator k) (wk_validator_set k) (aux_proofs k) (notified k) (gossiped k) (f (best_grandpa_block k)).

Definition insert_aux (event_id : EventId) (p : EventProof) (k : Worker) : Worker :=
  if insert_aux_ok event_id then set_aux_proofs (insert event_id p) k else k.

Definition handle_witness (w : Witness) : D Worker unit :=
  let* first_observation := state (fun k =>
    let '(b, r) := note w (witness_record k) in (b, set_witness_record (fun _ => r) k)) in
  if negb first_observation then ret tt
  else
    do* modify (set_gossiped (fun l => l ++ [w])) in
    let* k := gets (fun k => k) in
    let threshold := proof_threshold (length (vs_validators (wk_validator_set k))) in
    if has_consensus (wit_event_id w) (wit_digest w) threshold (witness_record k) then
      match signatures_for (wit_event_id w) (wit_digest w) (witness_record k) with
      | None => panic
      | Some signatures =>
          let '(block, tag) := default (replicate 32 0, None) (event_metadata (wit_event_id w) (witness_record k)) in
          let event_proof := mkEventProof (wit_digest w) (wit_event_id w) (vs_id (wk_validator_set k)) signatures block tag in
          do* modify (insert_aux (wit_event_id w) event_proof) in
          do* modify (set_notified (fun l => l ++ [event_proof])) in
          do* modify (set_witness_record (clear (wit_event_id w))) in
          modify (set_gossip_validator (mark_complete (wit_event_id w)))
      end
    else ret tt.

(** Ethereum ABI encoding of a validator set change: five words of header and
    one per validator, written into a zeroed buffer. *)
Definition abi_encode_validator_set_change (next : ValidatorSet) (active_validator_set_id : Z) (event_id : EventId) : bytes :=
  let validator_count := length (vs_validators next) in
  let message := replicate (32 * (5 + validator_count)) 0 in
  let message := copy_slice 0 (encode_u64 128) message in
  let message := copy_slice 32 (encode_u64 (vs_id next)) message in
  let message := copy_slice 64 (encode_u64 active_validator_set_id) message in
  let message := copy_slice 96 (encode_u64 event_id) message in
  let message := copy_slice 128 (encode_u64 (Z.of_nat validator_count)) message in
  snd (foldl (fun '(offset, message) key => ((offset + 32)%nat, copy_slice (offset + 12) (eth_address key) message))
         (160%nat, message) (vs_validators next)).

Record Header := mkHeader { h_hash : bytes; h_number : Z; h_logs : list ConsensusLog }.

Record ProofRequest := mkProofRequest { pr_message : bytes; pr_event_id : EventId; pr_tag : option bytes; pr_block : bytes }.

(** ["sys:authority-change"] *)
Definition authority_change_tag : bytes :=
  [115; 121; 115; 58; 97; 117; 116; 104; 111; 114; 105; 116; 121; 45; 99; 104; 97; 110; 103; 101].

Definition extract_proof_requests (header : Header) (active_validator_set_id : Z) : list ProofRequest :=
  omap (fun log =>
    match log with
    | OpaqueSigningRequest message event_id => Some (mkProofRequest message event_id None (h_hash header))
    | PendingAuthoritiesChange next event_id =>
        Some (mkProofRequest (abi_encode_validator_set_change next active_validator_set_id event_id) event_id
                (Some authority_change_tag) (h_hash header))
    | _ => None
    end) (h_logs header).

(** [digest().convert_first]: the first log that announces a change. *)
Definition find_authorities_change (header : Header) : option ValidatorSet :=
  head (omap (fun log => match log with AuthoritiesChange s => Some s | _ => None end) (h_logs header)).

(** The validator set at a header: the announced one or the runtime's answer. *)
Definition worker_validator_set (runtime_answer : option ValidatorSet) (header : Header) : option ValidatorSet :=
  match find_authorities_change header with Some new => Some new | None => runtime_answer end.

Definition GENESIS_AUTHORITY_SET_ID : Z := 0.

Definition update_validator_set (active : option ValidatorSet) (k : Worker) : Worker :=
  match active with
  | Some active =>
      if negb (vs_id active =? vs_id (wk_validator_set k)) ||
         ((vs_id active =? GENESIS_AUTHORITY_SET_ID) && bool_decide (vs_validators (wk_validator_set k) = []))
      then
        set_wk_validator_set (fun _ => active)
          (set_witness_record (set_validators (vs_validators active))
            (set_gossip_validator (set_active_validators (vs_validators active)) k))
      else k
  | None => k
  end.

(** A node without a key only notes where the events come from. *)
Definition note_request (r : ProofRequest) (k : Worker) : Worker :=
  match aux_proofs k !! pr_event_id r with
  | Some p =>
      insert_aux (pr_event_id r)
        (mkEventProof (ep_digest p) (ep_event_id p) (ep_validator_set_id p) (ep_signatures p) (pr_block r) (pr_tag r)) k
  | None => set_witness_record (note_event_metadata (pr_event_id r) (pr_block r) (pr_tag r)) k
  end.

(** The requests of a block signed one after the other; the first signing
    error ends the loop and the handler. *)
Fixpoint sign_requests (authority_id : AuthorityId) (rs : list ProofRequest) : D Worker bool :=
  match rs with
  | [] => ret true
  | r :: rs =>
      match sign authority_id (pr_message r) with
      | None => ret false
      | Some signature =>
          let* set_id := gets (fun k => vs_id (wk_validator_set k)) in
          let w := mkWitness (keccak_256 (pr_message r)) (pr_event_id r) set_id authority_id signature in
          do* modify (set_witness_record (note_event_metadata (pr_event_id r) (pr_block r) (pr_tag r))) in
          do* handle_witness w in
          do* modify (set_gossiped (fun l => l ++ [w])) in
          sign_requests authority_id rs
      end
  end.

Definition handle_finality_notification (header : Header) (runtime_answer : option ValidatorSet) : D Worker unit :=
  do* modify (update_validator_set (worker_validator_set runtime_answer header)) in
  let* k := gets (fun k => k) in
  let requests := extract_proof_requests header (vs_id (wk_validator_set k)) in
  match head (filter (fun key => has_key key = true) (vs_validators (wk_validator_set k))) with
  | None => modify (fun k => foldl (fun k r => note_request r k) k requests)
  | Some authority_id =>
      let* finished := sign_requests authority_id requests in
      if finished then modify (set_best_grandpa_block (fun _ => h_number header)) else ret tt
  end.
End Gadget.
