(* ===== verification/EthyTheorems.v ===== *)
(** * Correctness of the ethy gadget

    Every event proof a node announces carries enough valid signatures of
    distinct validators at their positions; the layout of validator set change
    messages; and what goes wrong when the validator set changes under
    witnesses that are still being collected. *)

From S2P Require Import Prelude Support Search EthAbi EthBridgeTypes EthyGadget.

(** ** Placing signatures *)
Lemma place_spec proofs sigs : NoDup proofs.*1 -> (forall i, i ∈ proofs.*1 -> (i < length sigs)%nat) ->
  exists out, place proofs sigs = Some out /\ length out = length sigs /\
    (forall i sg, (i, sg) ∈ proofs -> out !! i = Some sg) /\ (forall i, i ∉ proofs.*1 -> out !! i = sigs !! i).
Proof.
  revert sigs. induction proofs as [|[i sg] proofs IH]; intros sigs Hnd Hlt.
  { exists sigs. split_and!; [done..| |done]. intros i sg ?%not_elem_of_nil. done. }
  rewrite fmap_cons in Hnd. apply NoDup_cons in Hnd as [Hi Hnd]. simpl in *.
  assert (Hil : (i < length sigs)%nat) by (apply Hlt; left). rewrite (proj2 (Nat.ltb_lt _ _) Hil).
  destruct (IH (<[i := sg]> sigs)) as (out & -> & Hlen & Hin & Hout); [done | |].
  { intros j Hj. rewrite length_insert. apply Hlt. by right. }
  exists out. rewrite length_insert in Hlen. split_and!; [done..| |].
  - intros j sg' [[= -> ->]|Hj]%elem_of_cons; [|by apply Hin]. rewrite Hout by done. by apply list_lookup_insert_eq.
  - intros j Hj. apply not_elem_of_cons in Hj as [Hne Hj]. rewrite Hout by done. by apply list_lookup_insert_ne.
Qed.

(** ** The witness record *)

(** The votes on an event. *)
Definition votes (e : EventId) (r : WitnessRecord) : list AuthorityId := default [] (has_voted r !! e).

(** The signatures recorded for a digest of an event. *)
Definition signed (e : EventId) (d : Digest) (r : WitnessRecord) : list (nat * Signature) :=
  default [] (record r !! e ≫= (.!! d)).

(** [H] lists the witnesses noted so far. *)
Record record_ok (H : list Witness) (r : WitnessRecord) : Prop := {
  rk_sorted : forall e, StronglySorted Z.lt (votes e r);
  rk_signed : forall e d i sg, (i, sg) ∈ signed e d r -> exists w, w ∈ H /\ wit_event_id w = e /\ wit_digest w = d /\
    wit_signature w = sg /\ validators r !! i = Some (wit_authority_id w) /\ wit_authority_id w ∈ votes e r;
  rk_nodup : forall e d, NoDup (signed e d r).*1;
  rk_once : forall e d1 d2 i, i ∈ (signed e d1 r).*1 -> i ∈ (signed e d2 r).*1 -> d1 = d2;
}.

Lemma known_spec l id : StronglySorted Z.lt (default [] l) -> known l id = true <-> id ∈ default [] l.
Proof.
  destruct l as [l|]; simpl; [|intros _; split; [done | by intros ?%not_elem_of_nil]]. intros Hs. split.
  - intros H. pose proof (binary_search_spec l id Hs) as Hb. destruct (binary_search l id); [|done]. by eapply list_elem_of_lookup_2.
  - intros [i Hi]%list_elem_of_lookup. by rewrite (binary_search_found l i id).
Qed.

Lemma mark_voted_spec l id : StronglySorted Z.lt (default [] l) ->
  StronglySorted Z.lt (mark_voted l id) /\ forall x, x ∈ mark_voted l id <-> x = id \/ x ∈ default [] l.
Proof.
  destruct l as [l|]; simpl.
  - intros Hs. pose proof (binary_search_spec l id Hs) as Hb. destruct (binary_search l id) as [i|i] eqn:E.
    + split; [done|]. intros x. apply list_elem_of_lookup_2 in Hb. naive_solver.
    + destruct (sorted_insert_at l id i Hs E) as [Hi Hs']. split; [done|]. intros x. unfold insert_at.
      rewrite elem_of_app, elem_of_cons. rewrite <- (take_drop i l) at 3. rewrite elem_of_app. naive_solver.
  - intros _. split; [repeat constructor|]. intros x. rewrite list_elem_of_singleton. set_solver.
Qed.

(** What noting a witness does to the signatures. *)
Lemma signed_record_signature idx w r e d :
  default [] (record_signature idx w r !! e ≫= (.!! d)) =
  if decide (e = wit_event_id w /\ d = wit_digest w)
  then signed e d r ++ match idx with Some i => [(i, wit_signature w)] | None => [] end
  else signed e d r.
Proof.
  unfold record_signature, signed. destruct (decide (e = wit_event_id w)) as [->|He].
  - destruct (record r !! wit_event_id w) as [ds|] eqn:Hr.
    + destruct (decide (d = wit_digest w)) as [->|Hd].
      * rewrite decide_True by done. destruct (ds !! wit_digest w) as [sg|] eqn:Hs, idx as [i|];
          rewrite ?lookup_insert_eq, ?Hr; simpl; rewrite ?lookup_insert_eq, ?Hs; simpl; rewrite ?app_nil_r; done.
      * rewrite decide_False by naive_solver. destruct (ds !! wit_digest w) as [sg|] eqn:Hs, idx as [i|];
          rewrite ?lookup_insert_eq, ?Hr; simpl; rewrite ?lookup_insert_ne by done; done.
    + rewrite lookup_insert_eq. simpl. destruct (decide (d = wit_digest w)) as [->|Hd].
      * rewrite decide_True by done. destruct idx; [by rewrite lookup_singleton_eq | by rewrite lookup_empty].
      * rewrite decide_False by naive_solver. destruct idx; [by rewrite lookup_singleton_ne | by rewrite lookup_empty].
  - rewrite decide_False by naive_solver. repeat case_match; rewrite ?lookup_insert_ne by done; done.
Qed.

Lemma note_new H w r : record_ok H r -> known (has_voted r !! wit_event_id w) (wit_authority_id w) = false ->
  record_ok (H ++ [w]) (note w r).2.
Proof.
  intros Hok Hk. unfold note. rewrite Hk. cbn [snd].
  pose proof (rk_sorted H r Hok) as Hs.
  assert (Hnew : wit_authority_id w ∉ votes (wit_event_id w) r).
  { intros Hin%known_spec; [congruence | apply Hs]. }
  destruct (mark_voted_spec (has_voted r !! wit_event_id w) (wit_authority_id w) (Hs _)) as [Hs' Hv'].
  set (idx := position (wit_authority_id w) (validators r)).
  set (r' := mkRecord _ _ _ _).
  assert (Hvotes : forall e x, x ∈ votes e r' <-> (e = wit_event_id w /\ x = wit_authority_id w) \/ x ∈ votes e r).
  { intros e x. unfold votes, r'. cbn. destruct (decide (e = wit_event_id w)) as [->|He].
    - rewrite lookup_insert_eq. simpl. rewrite Hv'. naive_solver.
    - rewrite lookup_insert_ne by done. naive_solver. }
  assert (Hsig : forall e d, signed e d r' = if decide (e = wit_event_id w /\ d = wit_digest w)
    then signed e d r ++ match idx with Some i => [(i, wit_signature w)] | None => [] end else signed e d r).
  { intros e d. unfold signed at 1, r'. cbn [record]. apply signed_record_signature. }
  assert (Hfresh : forall d i, idx = Some i -> i ∉ (signed (wit_event_id w) d r).*1).
  { intros d i Hi ([i' sg] & -> & Hin)%list_elem_of_fmap. apply position_lookup in Hi. cbn in Hi.
    apply (rk_signed H r Hok) in Hin as (w' & _ & _ & _ & _ & Hval & Hvoted). congruence. }
  constructor.
  - intros e. unfold votes, r'. cbn. destruct (decide (e = wit_event_id w)) as [->|He];
      [rewrite lookup_insert_eq; exact Hs' | rewrite lookup_insert_ne by done; apply Hs].
  - intros e d i sg. rewrite Hsig. intros Hin.
    assert ((i, sg) ∈ signed e d r \/ (e = wit_event_id w /\ d = wit_digest w /\ idx = Some i /\ sg = wit_signature w)) as [Hold|(-> & -> & Hi & ->)].
    { case_decide as Hc; [|by left]. apply elem_of_app in Hin as [?|Hin]; [by left|]. right.
      destruct idx; [|by apply not_elem_of_nil in Hin]. apply list_elem_of_singleton in Hin. naive_solver. }
    + destruct (rk_signed H r Hok _ _ _ _ Hold) as (w' & Hw' & ? & ? & ? & Hval & Hvoted). exists w'.
      split_and!; try done; [set_solver|]. apply Hvotes. by right.
    + exists w. split_and!; try done; [set_solver | by apply position_lookup | apply Hvotes; by left].
  - intros e d. rewrite Hsig. case_decide as Hc; [|apply (rk_nodup H r Hok)]. destruct Hc as [-> ->].
    rewrite fmap_app. apply NoDup_app. split_and!; [apply (rk_nodup H r Hok) | |destruct idx; [apply NoDup_singleton | constructor]].
    intros i Hi Hi'. destruct idx as [j|] eqn:Hj; [|by apply not_elem_of_nil in Hi'].
    apply list_elem_of_singleton in Hi'. simpl in Hi'. subst j. by apply (Hfresh (wit_digest w) i).
  - assert (Hcases : forall e d i, i ∈ (signed e d r').*1 ->
      i ∈ (signed e d r).*1 \/ (e = wit_event_id w /\ d = wit_digest w /\ idx = Some i)).
    { intros e d i. rewrite Hsig. case_decide as Hc; [|by left]. rewrite fmap_app, elem_of_app. intros [?|Hin]; [by left|]. right.
      destruct idx; [|by apply not_elem_of_nil in Hin]. apply list_elem_of_singleton in Hin. naive_solver. }
    intros e d1 d2 i [H1|(-> & -> & H1)]%Hcases [H2|(He & -> & H2)]%Hcases; try done.
    + by apply (rk_once H r Hok e d1 d2 i).
    + subst e. by apply Hfresh in H1.
    + by apply (Hfresh d2) in H1.
Qed.

Lemma note_ok H w r : record_ok H r -> exists H', record_ok H' (note w r).2 /\ (H' = H \/ H' = H ++ [w]).
Proof.
  intros Hok. destruct (known (has_voted r !! wit_event_id w) (wit_authority_id w)) eqn:Hk.
  - exists H. unfold note. rewrite Hk. auto.
  - exists (H ++ [w]). split; [by apply note_new | by right].
Qed.

Lemma clear_ok H e r : record_ok H r -> record_ok H (clear e r).
Proof.
  intros Hok.
  assert (Hsub : forall e' d, signed e' d (clear e r) = signed e' d r \/ signed e' d (clear e r) = []).
  { intros e' d. unfold signed, clear. cbn. destruct (decide (e' = e)) as [->|]; [rewrite lookup_delete_eq; by right|].
    rewrite lookup_delete_ne by done. by left. }
  constructor.
  - apply (rk_sorted H r Hok).
  - intros e' d i sg. destruct (Hsub e' d) as [->| ->]; [apply (rk_signed H r Hok) | by intros ?%not_elem_of_nil].
  - intros e' d. destruct (Hsub e' d) as [->| ->]; [apply (rk_nodup H r Hok) | constructor].
  - intros e' d1 d2 i. destruct (Hsub e' d1) as [->| ->], (Hsub e' d2) as [->| ->];
      [apply (rk_once H r Hok) | intros _ ?%not_elem_of_nil; done | intros ?%not_elem_of_nil; done..].
Qed.

Lemma meta_ok H e b t r : record_ok H r -> record_ok H (note_event_metadata e b t r).
Proof. by intros []; constructor. Qed.

Section Proofs.
Context {crypto : EthyCrypto}.

Definition witness_valid (w : Witness) : Prop :=
  verify_prehashed (wit_authority_id w) (wit_signature w) (wit_digest w) = true.

(** A proof the validators [vs] stand behind: at least the threshold of them
    signed its digest, each signature at the position of its validator, all
    other positions empty. *)
Definition proof_sound (vs : ValidatorSet) (p : EventProof) : Prop :=
  ep_validator_set_id p = vs_id vs /\ length (ep_signatures p) = length (vs_validators vs) /\
  exists signers : list nat, NoDup signers /\ (proof_threshold (length (vs_validators vs)) <= length signers)%nat /\
    forall i, (i < length (vs_validators vs))%nat ->
      if decide (i ∈ signers)
      then exists key sg, vs_validators vs !! i = Some key /\ ep_signatures p !! i = Some sg /\
             verify_prehashed key sg (ep_digest p) = true
      else ep_signatures p !! i = Some empty_signature.

(** [old] are the proofs announced before the validator set became active. *)
Record worker_ok (old : list EventProof) (k : Worker) : Prop := {
  wk_history : exists H, record_ok H (witness_record k) /\ Forall witness_valid H;
  wk_same_set : validators (witness_record k) = vs_validators (wk_validator_set k);
  wk_gossip : active_validators (gossip_validator k) = vs_validators (wk_validator_set k);
  wk_proofs : exists new, notified k = old ++ new /\ Forall (proof_sound (wk_validator_set k)) new;
}.

Lemma note_recorded w r i : known (has_voted r !! wit_event_id w) (wit_authority_id w) = false ->
  position (wit_authority_id w) (validators r) = Some i ->
  is_Some (record (note w r).2 !! wit_event_id w ≫= (.!! wit_digest w)).
Proof.
  intros Hk Hi. unfold note. rewrite Hk. cbn [snd record]. rewrite Hi. unfold record_signature.
  destruct (record r !! wit_event_id w) as [ds|]; [|rewrite lookup_insert_eq; simpl; by rewrite lookup_singleton_eq].
  destruct (ds !! wit_digest w); rewrite lookup_insert_eq; simpl; by rewrite lookup_insert_eq.
Qed.

Lemma consensus_proof_sound H w r vs block tag : record_ok H r -> Forall witness_valid H ->
  validators r = vs_validators vs -> is_Some (record r !! wit_event_id w ≫= (.!! wit_digest w)) ->
  has_consensus (wit_event_id w) (wit_digest w) (proof_threshold (length (vs_validators vs))) r = true ->
  exists signatures, signatures_for (wit_event_id w) (wit_digest w) r = Some signatures /\
    proof_sound vs (mkEventProof (wit_digest w) (wit_event_id w) (vs_id vs) signatures block tag).
Proof.
  intros Hok HH Hval [proofs Hp] Hc.
  assert (Hs : signed (wit_event_id w) (wit_digest w) r = proofs) by (unfold signed; by rewrite Hp).
  unfold has_consensus in Hc. rewrite Hp in Hc. simpl in Hc. apply Nat.leb_le in Hc.
  pose proof (rk_nodup H r Hok (wit_event_id w) (wit_digest w)) as Hnd. rewrite Hs in Hnd.
  assert (Hin : forall i sg, (i, sg) ∈ proofs -> exists key, vs_validators vs !! i = Some key /\
    verify_prehashed key sg (wit_digest w) = true).
  { intros i sg Hi. rewrite <- Hs in Hi. apply (rk_signed H r Hok) in Hi as (w' & Hw' & _ & Hd & Hsg & Hv & _).
    exists (wit_authority_id w'). rewrite <- Hval, Hv. split; [done|]. rewrite Forall_forall in HH.
    rewrite <- Hd, <- Hsg. by apply HH. }
  destruct (place_spec proofs (replicate (length (validators r)) empty_signature)) as (out & Hout & Hlen & Hset & Hkeep); [done | |].
  { intros i ([j sg] & -> & (key & Hk & _)%Hin)%list_elem_of_fmap. rewrite length_replicate, Hval. by eapply lookup_lt_Some. }
  exists out. unfold signatures_for. rewrite Hp. split; [exact Hout|]. rewrite length_replicate, Hval in Hlen.
  split_and!; [done..|]. exists proofs.*1. split; [done|]. split; [by rewrite length_fmap|]. intros i Hi. case_decide as Hd.
  - apply list_elem_of_fmap in Hd as ([j sg] & -> & Hj). destruct (Hin _ _ Hj) as (key & Hk & Hver).
    exists key, sg. split_and!; [exact Hk | by apply Hset | exact Hver].
  - cbn. rewrite Hkeep by done. apply lookup_replicate_2. by rewrite Hval.
Qed.

Lemma handle_witness_ok old w k : worker_ok old k -> witness_valid w ->
  wit_authority_id w ∈ vs_validators (wk_validator_set k) ->
  exists k', handle_witness w k = (Ok tt, k') /\ worker_ok old k' /\ wk_validator_set k' = wk_validator_set k.
Proof.
  intros [(H & Hok & HH) Hval Hgos (new & Hn & Hnew)] Hw Hmem.
  unfold handle_witness, bind at 1, state. destruct (note w (witness_record k)) as [first r'] eqn:Hnote.
  destruct (known (has_voted (witness_record k) !! wit_event_id w) (wit_authority_id w)) eqn:Hk.
  { unfold note in Hnote. rewrite Hk in Hnote. injection Hnote as <- <-. eexists. split; [reflexivity|]. split; [|done].
    constructor; eauto. }
  pose proof (note_new H w _ Hok Hk) as Hok'. rewrite Hnote in Hok'. cbn [snd] in Hok'.
  destruct (position (wit_authority_id w) (validators (witness_record k))) as [i|] eqn:Hi;
    [|apply position_None in Hi; by rewrite Hval in Hi].
  pose proof (note_recorded w _ i Hk Hi) as Hrec. rewrite Hnote in Hrec. cbn [snd] in Hrec.
  assert (Hval' : validators r' = vs_validators (wk_validator_set k)).
  { rewrite <- Hval. change r' with (false, r').2. unfold note in Hnote. rewrite Hk in Hnote. by injection Hnote as _ <-. }
  assert (first = true) as -> by (unfold note in Hnote; rewrite Hk in Hnote; by injection Hnote as <- _).
  assert (HH' : Forall witness_valid (H ++ [w])) by (apply Forall_app; auto).
  cbn [negb]. unfold bind at 1, modify at 1. cbv beta iota. unfold bind at 1, gets. cbv beta iota zeta.
  cbn [witness_record wk_validator_set set_gossiped set_witness_record].
  destruct (has_consensus _ _ _ _) eqn:Hc.
  - destruct (default (replicate 32 0, None) (event_metadata (wit_event_id w) r')) as [block tag] eqn:Hmeta.
    destruct (consensus_proof_sound _ w r' (wk_validator_set k) block tag Hok' HH' Hval' Hrec Hc) as (sigs & Hsigs & Hsound).
    rewrite Hsigs. eexists. split; [reflexivity|].
    unfold insert_aux. destruct (insert_aux_ok _); (split; [|done]); (constructor; cbn;
      [exists (H ++ [w]); split; [by apply clear_ok | done] | done | done |
       exists (new ++ [mkEventProof (wit_digest w) (wit_event_id w) (vs_id (wk_validator_set k)) sigs block tag]);
       rewrite Hn, <- app_assoc, Forall_app; auto]).
  - eexists. split; [reflexivity|]. split; [|done]. constructor; eauto.
Qed.

(** ** Runs of the worker under one validator set *)
Inductive wstep : Worker -> Worker -> Prop :=
| ws_gossip w g k k' : validate w (gossip_validator k) = (true, g) ->
    handle_witness w (set_gossip_validator (fun _ => g) k) = (Ok tt, k') -> wstep k k'
| ws_finality header answer k k' : handle_finality_notification header answer k = (Ok tt, k') ->
    wk_validator_set k' = wk_validator_set k -> wstep k k'.

Lemma validate_true w g g' : validate w g = (true, g') ->
  witness_valid w /\ wit_authority_id w ∈ active_validators g /\ active_validators g' = active_validators g.
Proof.
  unfold validate. case_match; [done|]. destruct (existsb _ _) eqn:Hex; [|done]. simpl. case_match; [|done]. intros [= <-].
  split_and!; [done| |done]. apply existsb_exists in Hex as (v & Hv & Heq%Z.eqb_eq). subst v. by apply list_elem_of_In.
Qed.

Hypothesis sign_verifies : forall key m sg, sign key m = Some sg -> verify_prehashed key sg (keccak_256 m) = true.

Lemma sign_requests_ok old key rs k : worker_ok old k -> key ∈ vs_validators (wk_validator_set k) ->
  exists b k', sign_requests key rs k = (Ok b, k') /\ worker_ok old k' /\ wk_validator_set k' = wk_validator_set k.
Proof.
  revert k. induction rs as [|r rs IH]; intros k Hk Hkey; simpl; [eauto|].
  destruct (sign key (pr_message r)) as [sg|] eqn:Hsig; [|eauto].
  unfold bind at 1, gets. cbv beta iota zeta. unfold bind at 1, modify at 1. cbv beta iota. unfold bind at 1.
  set (k1 := set_witness_record _ k). set (w := mkWitness _ _ _ _ _).
  assert (Hk1 : worker_ok old k1).
  { destruct Hk as [(H & Hok & HH) ? ? ?]. constructor; try done. exists H. split; [by apply meta_ok | done]. }
  destruct (handle_witness_ok old w k1 Hk1) as (k2 & -> & Hk2 & Hset2).
  { by apply sign_verifies. }
  { done. }
  unfold bind at 1, modify at 1. cbv beta iota. destruct (IH (set_gossiped (fun l => l ++ [w]) k2)) as (b & k3 & -> & Hk3 & Hset3).
  { destruct Hk2. by constructor. }
  { cbn. rewrite Hset2. done. }
  exists b, k3. split_and!; [done..|]. rewrite Hset3. cbn. by rewrite Hset2.
Qed.

Lemma note_requests_ok old rs k : worker_ok old k ->
  worker_ok old (foldl (fun k r => note_request r k) k rs).
Proof.
  revert k. induction rs as [|r rs IH]; intros k Hk; simpl; [done|]. apply IH. unfold note_request, insert_aux.
  destruct Hk as [(H & Hok & HH) ? ? ?]. case_match; [case_match; constructor; eauto|].
  constructor; try done. exists H. split; [by apply meta_ok | done].
Qed.

Lemma note_requests_set rs k : wk_validator_set (foldl (fun k r => note_request r k) k rs) = wk_validator_set k.
Proof.
  revert k. induction rs as [|r rs IH]; intros k; simpl; [done|]. rewrite IH. unfold note_request, insert_aux. by repeat case_match.
Qed.

Lemma update_set_ok old active k : worker_ok old k -> wk_validator_set (update_validator_set active k) = wk_validator_set k ->
  worker_ok old (update_validator_set active k).
Proof.
  intros Hk. unfold update_validator_set. destruct active as [a|]; [|done]. case_match; [|done]. cbn. intros ->.
  destruct Hk as [(hist & Hok & HH) Hval Hgos Hp]. constructor; try done. cbn. exists hist. split; [|done].
  rewrite <- Hval. by destruct (witness_record k).
Qed.

Lemma finality_set header answer old k k' : worker_ok old (update_validator_set (worker_validator_set answer header) k) ->
  handle_finality_notification header answer k = (Ok tt, k') ->
  worker_ok old k' /\ wk_validator_set k' = wk_validator_set (update_validator_set (worker_validator_set answer header) k).
Proof.
  intros Hk. unfold handle_finality_notification, bind at 1, modify at 1. cbv beta iota. unfold bind at 1, gets. cbv beta iota zeta.
  set (k1 := update_validator_set _ k) in *.
  destruct (head (filter _ _)) as [key|] eqn:Hkey.
  - unfold bind. destruct (sign_requests_ok old key (extract_proof_requests header (vs_id (wk_validator_set k1))) k1 Hk)
      as (b & k2 & -> & Hk2 & Hset2).
    { apply head_Some_elem_of in Hkey. by apply list_elem_of_filter in Hkey as [_ ?]. }
    destruct b; intros [= <-]; [|done]. split; [|done]. destruct Hk2. by constructor.
  - intros [= <-]. split; [by apply note_requests_ok | apply note_requests_set].
Qed.

Lemma handle_witness_set w k k' : handle_witness w k = (Ok tt, k') -> wk_validator_set k' = wk_validator_set k.
Proof.
  unfold handle_witness, bind, state, gets, modify, insert_aux. destruct (note w _) as [[] r']; cbn.
  - destruct (has_consensus _ _ _ _); [|by intros [= <-]]. destruct (signatures_for _ _ _); [|done].
    destruct (default _ _). intros [= <-]. by destruct (insert_aux_ok _).
  - by intros [= <-].
Qed.

Lemma sign_requests_set key rs b k k' : sign_requests key rs k = (Ok b, k') -> wk_validator_set k' = wk_validator_set k.
Proof.
  revert k b. induction rs as [|r rs IH]; intros k b; simpl; [by intros [= _ <-]|].
  destruct (sign key _); [|by intros [= _ <-]]. unfold bind, gets, modify. cbv beta iota zeta.
  destruct (handle_witness _ _) as [[[]|e|] k3] eqn:E3; [|done..]. intros ->%IH. cbn. by rewrite (handle_witness_set _ _ _ E3).
Qed.

Lemma finality_keeps_set header answer k k' : handle_finality_notification header answer k = (Ok tt, k') ->
  wk_validator_set k' = wk_validator_set k ->
  wk_validator_set (update_validator_set (worker_validator_set answer header) k) = wk_validator_set k.
Proof.
  intros H Hset. rewrite <- Hset. symmetry. revert H. unfold handle_finality_notification, bind at 1, modify at 1. cbv beta iota.
  unfold bind at 1, gets. cbv beta iota zeta. set (k1 := update_validator_set _ k).
  destruct (head (filter _ _)) as [key|].
  - unfold bind. destruct (sign_requests key _ k1) as [[b|e|] k2] eqn:E; [|done..].
    apply sign_requests_set in E. destruct b; intros [= <-]; done.
  - intros [= <-]. apply note_requests_set.
Qed.

Lemma wstep_ok old k k' : worker_ok old k -> wstep k k' -> worker_ok old k' /\ wk_validator_set k' = wk_validator_set k.
Proof.
  intros Hk Hstep. destruct Hstep as [w g k k' Hv Hh|header answer k k' Hh Hset].
  - apply validate_true in Hv as (Hw & Hin & Hg).
    destruct (handle_witness_ok old w (set_gossip_validator (fun _ => g) k)) as (k2 & H2 & Hk2 & Hset2).
    + destruct Hk. constructor; try done. cbn. by rewrite Hg.
    + done.
    + cbn. by rewrite <- (wk_gossip old k Hk).
    + rewrite Hh in H2. injection H2 as <-. done.
  - split; [|done]. destruct (finality_set header answer old k k') as [Hk' _]; [|done|done].
    apply update_set_ok; [done|]. by eapply finality_keeps_set.
Qed.

(** A worker at the start of a validator set. *)
Definition fresh (vs : ValidatorSet) : Worker :=
  mkWorker (mkRecord ∅ ∅ ∅ (vs_validators vs)) (mkGossip ∅ [] (vs_validators vs)) vs ∅ [] [] 0.

Lemma fresh_ok vs : worker_ok [] (fresh vs).
Proof.
  constructor; try done; [|by exists []]. exists []. split; [|constructor]. constructor.
  - intros e. unfold votes. cbn. rewrite lookup_empty. constructor.
  - intros e d i sg. unfold signed. cbn. rewrite lookup_empty. by intros ?%not_elem_of_nil.
  - intros e d. unfold signed. cbn. rewrite lookup_empty. constructor.
  - intros e d1 d2 i. unfold signed. cbn. rewrite lookup_empty. by intros ?%not_elem_of_nil.
Qed.

(** C12: as long as the validator set stays the same, every proof a node announces
    holds, at their positions, valid signatures on its digest by at least the
    threshold of distinct validators and nothing else, and no witness that
    passes the gossip validation makes the node panic. *)
Theorem event_proofs_sound vs k : rtc wstep (fresh vs) k ->
  Forall (proof_sound vs) (notified k) /\
  forall w g, validate w (gossip_validator k) = (true, g) ->
    exists k', handle_witness w (set_gossip_validator (fun _ => g) k) = (Ok tt, k').
Proof.
  intros Hr. assert (worker_ok [] k /\ wk_validator_set k = vs) as [Hk <-].
  { revert Hr. change vs with (wk_validator_set (fresh vs)) at 2. generalize (fresh vs) (fresh_ok vs). intros k0 Hk0 Hr.
    induction Hr as [k|k1 k2 k3 Hst _ IH]; [done|]. destruct (wstep_ok [] k1 k2 Hk0 Hst) as [Hk2 <-]. by apply IH. }
  split; [destruct (wk_proofs [] k Hk) as (new & -> & Hn); done|].
  intros w g (Hw & Hin & Hg)%validate_true.
  destruct (handle_witness_ok [] w (set_gossip_validator (fun _ => g) k)) as (k' & Hk' & _); [| |by cbn; rewrite <- (wk_gossip [] k Hk)|eauto].
  - destruct Hk. constructor; try done. cbn. by rewrite Hg.
  - done.
Qed.
End Proofs.

(** ** Validator set change messages *)
Section Layout.
Context {crypto : EthyCrypto}.

(** What the bridge contract reads: the offset of the dynamic array, the two
    set identifiers, the event identifier, the length, and one left-padded
    address per validator. *)
Definition change_words (next : ValidatorSet) (active event_id : Z) : list bytes :=
  [encode_u64 128; encode_u64 (vs_id next); encode_u64 active; encode_u64 event_id;
   encode_u64 (Z.of_nat (length (vs_validators next)))] ++
  ((fun key => replicate 12 0 ++ eth_address key) <$> vs_validators next).

Lemma copy_word (i : nat) (pre w post : bytes) (m : nat) : length pre = i -> length w = m ->
  copy_slice i w (pre ++ replicate m 0 ++ post) = pre ++ w ++ post.
Proof. intros Hp Hw. apply copy_slice_app; [done|]. by rewrite length_replicate. Qed.

Lemma copy_first (w post : bytes) (m : nat) : length w = m -> copy_slice 0 w (replicate m 0 ++ post) = w ++ post.
Proof. intros Hw. by apply (copy_word 0 []). Qed.

Lemma place_addresses (pre : bytes) (keys : list AuthorityId) : (forall key, key ∈ keys -> length (eth_address key) = 20%nat) ->
  snd (foldl (fun '(offset, message) key => ((offset + 32)%nat, copy_slice (offset + 12) (eth_address key) message))
         (length pre, pre ++ replicate (32 * length keys) 0) keys) =
  pre ++ concat ((fun key => replicate 12 0 ++ eth_address key) <$> keys).
Proof.
  revert pre. induction keys as [|key keys IH]; intros pre Hl; [done|].
  cbn [foldl length fmap list_fmap concat].
  replace (32 * S (length keys))%nat with (12 + (20 + 32 * length keys))%nat by lia.
  rewrite !replicate_add, (app_assoc pre (replicate 12 0)), copy_word;
    [|by rewrite length_app, length_replicate | apply Hl; left].
  rewrite (app_assoc (pre ++ _) (eth_address key)).
  replace (length pre + 32)%nat with (length ((pre ++ replicate 12 0) ++ eth_address key)).
  2: { rewrite !length_app, length_replicate, (Hl key) by left. lia. }
  rewrite IH by (intros; apply Hl; by right). by rewrite <- !app_assoc.
Qed.

(** The buffer arithmetic of the encoder yields the words of the contract's
    message, one after the other. *)
Theorem validator_change_layout next active event_id :
  (forall key, key ∈ vs_validators next -> length (eth_address key) = 20%nat) ->
  abi_encode_validator_set_change next active event_id = concat (change_words next active event_id).
Proof.
  intros Hl. unfold abi_encode_validator_set_change, change_words.
  set (n := length (vs_validators next)).
  replace (32 * (5 + n))%nat with (32 + (32 + (32 + (32 + (32 + 32 * n)))))%nat by lia. rewrite !replicate_add.
  assert (Hw : forall z, length (encode_u64 z) = 32%nat) by (intros; apply be_bytes_length).
  rewrite copy_first by done.
  rewrite (copy_word 32) by done.
  rewrite (app_assoc (encode_u64 128)), (copy_word 64) by (rewrite ?length_app, ?Hw; done).
  rewrite (app_assoc _ (encode_u64 active)), (copy_word 96) by (rewrite ?length_app, ?Hw; done).
  rewrite (app_assoc _ (encode_u64 event_id)), (copy_word 128) by (rewrite ?length_app, ?Hw; done).
  rewrite (app_assoc _ (encode_u64 (Z.of_nat n))).
  set (pre := (_ ++ encode_u64 (Z.of_nat n))).
  replace 160%nat with (length pre) by (subst pre; rewrite !length_app, !Hw; done).
  etransitivity; [exact (place_addresses pre (vs_validators next) Hl)|]. subst pre. rewrite concat_app, <- !app_assoc. reflexivity.
Qed.
End Layout.

(** ** A concrete network *)
Module EthyDemo.

(** Signatures that carry the key and the digest; more than half must sign. *)
#[export] Instance demo_crypto : EthyCrypto := {
  has_key k := k =? 1;
  sign key m := Some (key :: m);
  keccak_256 m := m;
  verify_prehashed key sg d := bool_decide (sg = key :: d);
  eth_address key := replicate 20 (key mod 256);
  proof_threshold n := S (n / 2);
  insert_aux_ok _ := true;
}.

Definition three : ValidatorSet := mkValidatorSet [1; 2; 3] 0.
Definition witness_of (key event_id : Z) : Witness := mkWitness [9] event_id 0 key [key; 9].

Lemma demo_sign_verifies key m sg : sign key m = Some sg -> verify_prehashed key sg (keccak_256 m) = true.
Proof. intros [= <-]. by apply bool_decide_eq_true_2. Qed.

(** The node after the witnesses of the second and of the third validator. *)
Definition gossip_in (w : Witness) (k : Worker) : Worker :=
  snd (handle_witness w (set_gossip_validator (fun _ => snd (validate w (gossip_validator k))) k)).

Definition after_one : Worker := gossip_in (witness_of 2 7) (fresh three).
Definition after_two : Worker := gossip_in (witness_of 3 7) after_one.

Lemma event_proofs_sound_witness : length (notified after_two) = 1%nat /\ Forall (proof_sound three) (notified after_two).
Proof.
  split; [vm_compute; reflexivity|]. refine (proj1 (event_proofs_sound demo_sign_verifies three after_two _)).
  eapply rtc_l; [|eapply rtc_l; [|apply rtc_refl]].
  - apply (ws_gossip (witness_of 2 7) (snd (validate (witness_of 2 7) (gossip_validator (fresh three))))); vm_compute; reflexivity.
  - apply (ws_gossip (witness_of 3 7) (snd (validate (witness_of 3 7) (gossip_validator after_one)))); vm_compute; reflexivity.
Defined.

Lemma validator_change_layout_witness :
  abi_encode_validator_set_change three 4 5 = concat (change_words three 4 5).
Proof. apply validator_change_layout. intros key _. apply length_replicate. Defined.

(** A change of the validator set keeps the witnesses that are being collected,
    with the positions of the old set. When the new set is shorter the next
    honest witness can reach the threshold with a position outside of it: the
    handler panics. *)
Theorem stale_position_panics :
  let k1 := gossip_in (witness_of 3 7) (fresh three) in
  let header := mkHeader [] 1 [AuthoritiesChange (mkValidatorSet [2; 4] 1)] in
  let k2 := snd (handle_finality_notification header None k1) in
  fst (handle_finality_notification header None k1) = Ok tt /\
  wk_validator_set k2 = mkValidatorSet [2; 4] 1 /\
  fst (validate (witness_of 2 7) (gossip_validator k2)) = true /\
  fst (handle_witness (witness_of 2 7) k2) = Panic.
Proof. vm_compute. done. Qed.
End EthyDemo.
