(* ===== verification/Issuance.v ===== *)
(** * Issuance through the [MultiCurrency] interface

    What a pallet that creates, mints and burns assets may rely on: the laws
    of creation, of a deposit whose imbalance is dropped and of a withdrawal
    whose imbalance is dropped, and their proof for the generic asset pallet. *)

From S2P Require Import Prelude Support GenericAssetTypes GenericAsset GenericAssetProps GenericAssetInv GenericAssetTheorems GenericAssetOps MultiCurrency.

Class MultiCurrencyIssuance (L : Type) {currency : MultiCurrency L} := {
  iss_ok : L -> Prop;
  cur_issuance : AssetId -> L -> Balance;
  cur_known : AssetId -> L -> Prop;
  iss_staking_known : forall l, iss_ok l -> cur_known (cur_staking_currency l) l;
  iss_create : forall l owner decimals symbol, iss_ok l ->
    match cur_create owner 0 decimals 1 symbol l with
    | (Ok a, l') =>
        iss_ok l' /\ ~ cur_known a l /\ cur_known a l' /\ cur_issuance a l' = 0 /\
        (forall b, cur_known b l -> cur_known b l' /\ cur_issuance b l' = cur_issuance b l) /\
        cur_staking_currency l' = cur_staking_currency l
    | (Err _, l') => l' = l
    | (Panic, _) => False
    end;
  iss_mint : forall l w a v, iss_ok l -> cur_known a l -> 0 <= v -> cur_issuance a l + v <= MAX_BALANCE ->
    let '(p, l1) := cur_deposit_creating w a v l in
    let l' := cur_drop_positive p l1 in
    iss_ok l' /\ cur_free_balance w a l' = cur_free_balance w a l + v /\
    (forall b, cur_known b l -> cur_known b l') /\
    (forall b, cur_issuance b l' = cur_issuance b l + (if a =? b then v else 0)) /\
    cur_staking_currency l' = cur_staking_currency l;
  iss_burn : forall l w a v reasons req, iss_ok l -> 0 <= v ->
    match cur_withdraw w a v reasons req l with
    | (Ok n, l1) =>
        let l' := cur_drop_negative n l1 in
        iss_ok l' /\ v <= cur_free_balance w a l /\ cur_free_balance w a l' = cur_free_balance w a l - v /\
        (forall b, cur_known b l -> cur_known b l') /\
        (forall b, cur_issuance b l' = cur_issuance b l - (if a =? b then v else 0)) /\
        cur_staking_currency l' = cur_staking_currency l
    | (Err _, l') => l' = l
    | (Panic, _) => False
    end;
  iss_transfer : forall l from to a v req, iss_ok l -> 0 <= v ->
    match cur_transfer from to a v req l with
    | (Ok _, l') =>
        iss_ok l' /\ (forall b, cur_known b l -> cur_known b l') /\ (forall b, cur_issuance b l' = cur_issuance b l) /\
        cur_staking_currency l' = cur_staking_currency l
    | (Err _, l') => l' = l
    | (Panic, _) => False
    end;
}.

(** ** The generic asset pallet *)
Section Instance_.
Context `{GaConfig}.
Implicit Types s : State.

(** Solvent, with the staking asset and asset zero below the next identifier. *)
Definition ga_ok s : Prop := inv s /\ 0 < NextAssetId s /\ staking_asset_id s < NextAssetId s.

Definition ga_known (a : AssetId) s : Prop := a < NextAssetId s.

Lemma staking_set_free_balance a w x s : staking_asset_id (set_free_balance a w x s) = staking_asset_id s.
Proof. done. Qed.

Lemma ga_create s owner decimals symbol : ga_ok s ->
  match mc_create owner 0 decimals 1 symbol s with
  | (Ok a, s') =>
      ga_ok s' /\ ~ ga_known a s /\ ga_known a s' /\ total_issuance a s' = 0 /\
      (forall b, ga_known b s -> ga_known b s' /\ total_issuance b s' = total_issuance b s) /\
      staking_asset_id s' = staking_asset_id s
  | (Err _, s') => s' = s
  | (Panic, _) => False
  end.
Proof.
  intros (Hs & H0 & Hst). unfold mc_create, bind at 1, gets.
  set (opts := {| initial_issuance := 0; permissions := _ |}). set (info := AssetInfo_new _ _ _).
  pose proof (create_asset_inv None (Some owner) opts info ltac:(done) s Hs) as Hinv.
  destruct (create_asset None (Some owner) opts info s) as [[[]|e|] s'] eqn:Ec; unfold bind; rewrite Ec; cbn [snd] in Hinv.
  - unfold create_asset, claim_asset_id in Ec. step_dispatch Ec. bool_to_prop.
    rewrite Z.mul_0_r in *. unfold ga_ok, ga_known.
    set (s' := set_free_balance _ _ _ _).
    assert (Hn : NextAssetId s' = NextAssetId s3 + 1) by (unfold s'; by rewrite NextAssetId_set_free_balance).
    assert (Hsa : staking_asset_id s' = staking_asset_id s3) by (unfold s'; by rewrite staking_set_free_balance).
    assert (Hti : TotalIssuance s' = <[NextAssetId s3 := 0]> (TotalIssuance s3)) by (unfold s'; by rewrite TotalIssuance_set_free_balance).
    change (staking_asset_id (deposit_event _ _)) with (staking_asset_id s'). change (NextAssetId (deposit_event _ _)) with (NextAssetId s').
    unfold total_issuance. change (TotalIssuance (deposit_event _ _)) with (TotalIssuance s').
    rewrite Hn, Hsa, Hti. unfold sget. split_and!; try done; try lia.
    + by rewrite lookup_insert_eq.
    + intros b Hb. split; [lia|]. by rewrite lookup_insert_ne by lia.
  - by eapply create_asset_noop.
  - unfold create_asset, claim_asset_id in Ec. by step_dispatch Ec.
Qed.

Lemma drop_negative_issuance n b s : 0 <= ni_amount n <= total_issuance (ni_asset_id n) s ->
  total_issuance b (drop_negative n s) = total_issuance b s - (if ni_asset_id n =? b then ni_amount n else 0).
Proof.
  intros Hn. unfold drop_negative. rewrite total_issuance_insert. unfold saturating_sub. rewrite Z.max_r by lia.
  destruct (Z.eqb_spec (ni_asset_id n) b); case_decide; simplify_eq; lia.
Qed.

Lemma drop_positive_issuance p b s : total_issuance (pi_asset_id p) s + pi_amount p <= MAX_BALANCE ->
  total_issuance b (drop_positive p s) = total_issuance b s + (if pi_asset_id p =? b then pi_amount p else 0).
Proof.
  intros Hn. unfold drop_positive. rewrite total_issuance_insert, saturating_add_small by exact Hn.
  destruct (Z.eqb_spec (pi_asset_id p) b); case_decide; simplify_eq; lia.
Qed.

Lemma total_issuance_nonneg a s : inv s -> 0 <= total_issuance a s.
Proof.
  intros Hs. rewrite <- inv_issuance by done. unfold held.
  pose proof (asset_free_nonneg a s (inv_ok s Hs)). pose proof (asset_reserved_nonneg a s (inv_ok s Hs)). lia.
Qed.

Lemma ga_mint s w a v : ga_ok s -> ga_known a s -> 0 <= v -> total_issuance a s + v <= MAX_BALANCE ->
  let '(p, s1) := mc_deposit_creating w a v s in
  let s' := drop_positive p s1 in
  ga_ok s' /\ free_balance a w s' = free_balance a w s + v /\
  (forall b, ga_known b s -> ga_known b s') /\
  (forall b, total_issuance b s' = total_issuance b s + (if a =? b then v else 0)) /\
  staking_asset_id s' = staking_asset_id s.
Proof.
  intros (Hs & H0 & Hst) Ha Hv Hmax. destruct (Z.eq_dec v 0) as [->|Hnz].
  { unfold mc_deposit_creating. cbn [Z.eqb]. cbv iota zeta. split_and!; try done.
    - split_and!; try done. apply (drop_positive_inv 0 0 s); try done; [apply Hs|..].
      + rewrite Z.add_0_r. apply Hs.
      + intros b. case_match; lia.
    - unfold drop_positive. cbn. unfold free_balance. cbn. lia.
    - intros b. rewrite drop_positive_issuance; cbn; [repeat case_match; lia|]. rewrite Z.add_0_r. apply Hs. }
  pose proof (mc_deposit_creating_correct w a v s Hs ltac:(lia) Ha Hmax) as Hd.
  assert (Hst1 : exists b, (mc_deposit_creating w a v s).2 = set_free_balance a w b s).
  { exists (free_balance a w s + v). unfold mc_deposit_creating, mc_make_free_balance_be.
    rewrite (proj2 (Z.eqb_neq v 0) Hnz). pose proof (free_le_held a w s (inv_ok s Hs)).
    pose proof (free_balance_nonneg a w s (inv_ok s Hs)). rewrite inv_issuance in * by done.
    unfold wrapping_add. rewrite wrap_small by (unfold in_range; unfold MAX_BALANCE in *; lia).
    by rewrite (proj2 (Z.leb_le _ _)) by lia. }
  destruct (mc_deposit_creating w a v s) as [p s1]. destruct Hd as (-> & Hfree & Hinv). destruct Hst1 as [nb Hs1]. cbn in Hs1. subst s1.
  split_and!; try done. intros b. rewrite drop_positive_issuance, total_issuance_set_free_balance; [done|].
  cbn. by rewrite total_issuance_set_free_balance.
Qed.

Lemma ga_burn s w a v reasons req : ga_ok s -> 0 <= v ->
  match mc_withdraw w a v reasons req s with
  | (Ok n, s1) =>
      let s' := drop_negative n s1 in
      ga_ok s' /\ v <= free_balance a w s /\ free_balance a w s' = free_balance a w s - v /\
      (forall b, ga_known b s -> ga_known b s') /\
      (forall b, total_issuance b s' = total_issuance b s - (if a =? b then v else 0)) /\
      staking_asset_id s' = staking_asset_id s
  | (Err _, s') => s' = s
  | (Panic, _) => False
  end.
Proof.
  intros (Hs & H0 & Hst) Hv. pose proof (free_balance_nonneg a w s (inv_ok s Hs)) as Hnn. destruct (Z.eq_dec v 0) as [->|Hnz].
  { unfold mc_withdraw. cbn [Z.eqb]. cbv iota zeta. unfold ret. split_and!; try done.
    - split_and!; try done. apply (drop_negative_inv 0 0 s); try done; [apply Hs|..].
      + pose proof (total_issuance_nonneg 0 s Hs). rewrite inv_issuance by done. lia.
      + intros b. case_match; lia.
    - unfold drop_negative. cbn. unfold free_balance. cbn. lia.
    - intros b. rewrite drop_negative_issuance; cbn; [repeat case_match; lia|].
      pose proof (total_issuance_nonneg 0 s Hs). lia. }
  pose proof (mc_withdraw_correct w a v reasons req s Hs ltac:(lia)) as Hd.
  assert (Hst1 : forall n s1, mc_withdraw w a v reasons req s = (Ok n, s1) -> exists b, s1 = set_free_balance a w b s).
  { intros n s1. unfold mc_withdraw. rewrite (proj2 (Z.eqb_neq v 0) Hnz). unfold bind, gets, ok_or, modify.
    destruct (checked_sub _ _) as [nb|]; [|done]. unfold ret at 1. rewrite ensure_can_withdraw_eq.
    unfold ret. destruct (locks_allow a w v reasons nb s); [intros [= _ <-]; by exists nb | done]. }
  destruct (mc_withdraw w a v reasons req s) as [[n|e|] s1]; [|done..].
  destruct (Hst1 n s1 eq_refl) as [nb ->]. destruct Hd as (-> & Hle & _ & Hfree & Hinv).
  pose proof (free_le_held a w s (inv_ok s Hs)). rewrite inv_issuance in * by done.
  split_and!; try done. intros b. rewrite drop_negative_issuance, total_issuance_set_free_balance; [done|].
  cbn. rewrite total_issuance_set_free_balance. lia.
Qed.

Lemma ga_transfer s from to a v req : ga_ok s -> 0 <= v ->
  match mc_transfer from to a v req s with
  | (Ok _, s') =>
      ga_ok s' /\ (forall b, ga_known b s -> ga_known b s') /\ (forall b, total_issuance b s' = total_issuance b s) /\
      staking_asset_id s' = staking_asset_id s
  | (Err _, s') => s' = s
  | (Panic, _) => False
  end.
Proof.
  intros (Hs & H0 & Hst) Hv. pose proof (ga_transfer_spec s from to a v req Hs Hv) as Ht.
  assert (Hk : forall u s', mc_transfer from to a v req s = (Ok u, s') ->
    NextAssetId s' = NextAssetId s /\ TotalIssuance s' = TotalIssuance s /\ staking_asset_id s' = staking_asset_id s).
  { intros u s'. clear Ht. unfold mc_transfer. destruct (v =? 0); [by intros [= _ <-]|]. rewrite make_transfer_eq.
    intros Hm. repeat case_match; simplify_eq. unfold settled, moved, reclaim_free_balance, on_nonzero_unbalanced.
    repeat case_match; done. }
  destruct (mc_transfer from to a v req s) as [[u|e|] s']; [|done..].
  destruct (Hk u s' eq_refl) as (Hn & Hti & Hsa). destruct Ht as [Hinv _]. unfold ga_ok, ga_known, total_issuance.
  rewrite Hn, Hti, Hsa. done.
Qed.

#[export] Instance ga_issuance : MultiCurrencyIssuance State := {|
  iss_ok := ga_ok;
  cur_issuance := total_issuance;
  cur_known := ga_known;
  iss_staking_known s Hs := proj2 (proj2 Hs);
  iss_create := ga_create;
  iss_mint := ga_mint;
  iss_burn := ga_burn;
  iss_transfer := ga_transfer;
|}.
End Instance_.
