(* ===== verification/Erc20Peg.v ===== *)
(** * The ERC-20 peg pallet

    [src/crml/erc20-peg/src/lib.rs] and the claim types of
    [src/crml/erc20-peg/src/types.rs]. Deposits on Ethereum are claimed through
    the bridge and paid out when the claim is verified; withdrawals are paid in
    and proved to Ethereum by the bridge; large claims wait for some blocks and
    are processed when a block has weight to spare. The bridge is reached
    through [EventClaimVerifier], the ledger through [MultiCurrency]. *)

From S2P Require Import Prelude Support GenericAssetTypes MultiCurrency EthAbi EthBridgeTypes.

Abbreviation ClaimId := Z (only parsing).

(** [EventClaimVerifier] of [src/crml/support/src/lib.rs]; the event of
    [generate_event_proof] comes ABI encoded. *)
Class EventClaimVerifier (B : Type) := {
  cl_submit_event_claim : EthAddress -> EthHash -> EthHash -> bytes -> D B Z;
  cl_generate_event_proof : bytes -> D B Z;
}.

(** [Config] of the pallet, the hash of [frame_system] and the weight of a
    storage read and write. *)
Class PegConfig := {
  peg_account : AccountId;
  DepositEventSignature : EthHash;
  peg_hash : bytes -> bytes;
  db_read : Z;
  db_write : Z;
}.

Inductive WithdrawCallOrigin := Runtime | Evm.

Inductive PendingClaim :=
| Deposit (claim : Erc20DepositEvent) (tx_hash : EthHash)
| Withdrawal (message : WithdrawMessage).

#[global] Instance PendingClaim_eq_dec : EqDecision PendingClaim.
Proof. solve_decision. Defined.

(** [decl_event!] *)
Inductive Event :=
| Erc20Claim (claim_id : Z) (who : AccountId)
| Erc20DepositDelayed (claim_id : ClaimId) (block : BlockNumber) (amount : Balance) (who : AccountId)
| Erc20WithdrawalDelayed (claim_id : ClaimId) (block : BlockNumber) (amount : Balance) (who : EthAddress)
| DelayedErc20DepositFailed (tx_hash : EthHash) (who : AccountId)
| DelayedErc20WithdrawalFailed (asset : AssetId) (who : EthAddress)
| Erc20Deposit (claim_id : Z) (asset : AssetId) (amount : Balance) (who : AccountId)
| Erc20Withdraw (proof_id : Z) (asset : AssetId) (amount : Balance) (who : EthAddress)
| Erc20DepositFail (claim_id : Z)
| SetContractAddress (address : EthAddress)
| CENNZDepositsActivated
| ClaimDelaySet (asset : AssetId) (min_balance : Balance) (delay : BlockNumber)
| NoAvailableClaimIds.

(** ** Storage *)
Record PegStore := mkPegStore {
  DepositsActive : bool;
  WithdrawalsActive : bool;
  Erc20ToAssetId : gmap EthAddress AssetId;
  AssetIdToErc20 : gmap AssetId EthAddress;
  Erc20Meta : gmap EthAddress (bytes * Z);
  ClaimDelay : gmap AssetId (Balance * BlockNumber);
  DelayedClaims : gmap ClaimId PendingClaim;
  DelayedClaimSchedule : gmap BlockNumber (list ClaimId);
  ReadyBlocks : list BlockNumber;
  NextDelayedClaimId : ClaimId;
  WithdrawalDigests : gmap Z bytes;
  ContractAddress : EthAddress;
  CENNZDepositsActive : bool;
  peg_events : list Event;
}.

Definition peg_eta (p : PegStore) : PegStore :=
  mkPegStore (DepositsActive p) (WithdrawalsActive p) (Erc20ToAssetId p) (AssetIdToErc20 p) (Erc20Meta p) (ClaimDelay p)
    (DelayedClaims p) (DelayedClaimSchedule p) (ReadyBlocks p) (NextDelayedClaimId p) (WithdrawalDigests p)
    (ContractAddress p) (CENNZDepositsActive p) (peg_events p).

Definition set_DepositsActive : (bool -> bool) -> PegStore -> PegStore := ltac:(setter peg_eta DepositsActive).
Definition set_WithdrawalsActive : (bool -> bool) -> PegStore -> PegStore := ltac:(setter peg_eta WithdrawalsActive).
Definition set_Erc20ToAssetId : (gmap EthAddress AssetId -> gmap EthAddress AssetId) -> PegStore -> PegStore :=
  ltac:(setter peg_eta Erc20ToAssetId).
Definition set_AssetIdToErc20 : (gmap AssetId EthAddress -> gmap AssetId EthAddress) -> PegStore -> PegStore :=
  ltac:(setter peg_eta AssetIdToErc20).
Definition set_Erc20Meta : (gmap EthAddress (bytes * Z) -> gmap EthAddress (bytes * Z)) -> PegStore -> PegStore :=
  ltac:(setter peg_eta Erc20Meta).
Definition set_ClaimDelay : (gmap AssetId (Z * Z) -> gmap AssetId (Z * Z)) -> PegStore -> PegStore :=
  ltac:(setter peg_eta ClaimDelay).
Definition set_DelayedClaims : (gmap ClaimId PendingClaim -> gmap ClaimId PendingClaim) -> PegStore -> PegStore :=
  ltac:(setter peg_eta DelayedClaims).
Definition set_DelayedClaimSchedule : (gmap BlockNumber (list ClaimId) -> gmap BlockNumber (list ClaimId)) ->
    PegStore -> PegStore := ltac:(setter peg_eta DelayedClaimSchedule).
Definition set_ReadyBlocks : (list BlockNumber -> list BlockNumber) -> PegStore -> PegStore :=
  ltac:(setter peg_eta ReadyBlocks).
Definition set_NextDelayedClaimId : (ClaimId -> ClaimId) -> PegStore -> PegStore := ltac:(setter peg_eta NextDelayedClaimId).
Definition set_WithdrawalDigests : (gmap Z bytes -> gmap Z bytes) -> PegStore -> PegStore :=
  ltac:(setter peg_eta WithdrawalDigests).
Definition set_ContractAddress : (EthAddress -> EthAddress) -> PegStore -> PegStore := ltac:(setter peg_eta ContractAddress).
Definition set_CENNZDepositsActive : (bool -> bool) -> PegStore -> PegStore := ltac:(setter peg_eta CENNZDepositsActive).
Definition set_peg_events : (list Event -> list Event) -> PegStore -> PegStore := ltac:(setter peg_eta peg_events).

(** The pallet, the bridge, the ledger and the number of the current block. *)
Record State (B L : Type) := mkState {
  peg : PegStore;
  bridge : B;
  ledger : L;
  block_number : BlockNumber;
}.
Arguments mkState {B L} peg bridge ledger block_number.
Arguments peg {B L} s.
Arguments bridge {B L} s.
Arguments ledger {B L} s.
Arguments block_number {B L} s.

(** [T::AccountId::decode] of a byte string: the first 32 bytes. *)
Definition decode_account (b : bytes) : option AccountId :=
  if (32 <=? length b)%nat then Some (be_number (take 32 b)) else None.

(** The SCALE encoding of [(message, proof_id)]. *)
Definition encode_withdrawal (m : WithdrawMessage) (proof_id : Z) : bytes :=
  wm_token_address m ++ reverse (be_bytes 32 (wm_amount m)) ++ wm_beneficiary m ++ reverse (be_bytes 8 proof_id).

(** ["CENNZ"] *)
Definition cennz_symbol : bytes := [67; 69; 78; 78; 90].

Section Peg.
Context {B L : Type} {bridge_ops : EventClaimVerifier B} {currency : MultiCurrency L} {config : PegConfig}.
Abbreviation St := (State B L).

Definition on_peg (f : PegStore -> PegStore) (s : St) : St := mkState (f (peg s)) (bridge s) (ledger s) (block_number s).

Definition write (f : PegStore -> PegStore) : D St unit := modify (on_peg f).

Definition deposit_event (e : Event) : D St unit := write (set_peg_events (fun l => l ++ [e])).

Definition on_bridge {A} (m : D B A) : D St A := fun s =>
  let '(r, b) := m (bridge s) in (r, mkState (peg s) b (ledger s) (block_number s)).

Definition on_ledger {A} (m : D L A) : D St A := fun s =>
  let '(r, l) := m (ledger s) in (r, mkState (peg s) (bridge s) l (block_number s)).

(** A [Result] kept as a value; a panic is not one. *)
Definition attempt {A} (m : D St A) : D St (A + DispatchError) := fun s =>
  match m s with
  | (Ok a, s') => (Ok (inl a), s')
  | (Err e, s') => (Ok (inr e), s')
  | (Panic, s') => (Panic, s')
  end.

(** [option.unwrap()], [U256::as_u128] *)
Definition unwrap {A} (o : option A) : D St A := match o with Some a => ret a | None => panic end.
Definition as_u128 (z : Z) : D St Z := if z <=? umax 128 then ret z else panic.

(** ** Deposits *)
Definition process_deposit_claim (claim : Erc20DepositEvent) (tx_hash : EthHash) : D St unit :=
  let* p := gets peg in
  let* event_claim_id := attempt (on_bridge (cl_submit_event_claim (ContractAddress p) DepositEventSignature tx_hash
    (encode_Erc20DepositEvent claim))) in
  let* beneficiary := unwrap (decode_account (dep_beneficiary claim)) in
  match event_claim_id with
  | inl claim_id => deposit_event (Erc20Claim claim_id beneficiary)
  | inr _ => deposit_event (DelayedErc20DepositFailed tx_hash beneficiary)
  end.

(** Delays a withdrawal or deposit claim until a later block. *)
Definition delay_claim (delay : BlockNumber) (pending_claim : PendingClaim) : D St unit :=
  let* s := gets (fun s => s) in
  let claim_id := NextDelayedClaimId (peg s) in
  match checked_add U64 claim_id 1 with
  | None => deposit_event NoAvailableClaimIds
  | Some _ =>
      let claim_block := saturating_add U32 (block_number s) delay in
      do* write (set_DelayedClaims (insert claim_id pending_claim)) in
      do* write (set_DelayedClaimSchedule (fun m => <[claim_block := sget [] claim_block m ++ [claim_id]]> m)) in
      do* write (set_NextDelayedClaimId (fun _ => claim_id + 1)) in
      match pending_claim with
      | Withdrawal withdrawal =>
          let* amount := as_u128 (wm_amount withdrawal) in
          deposit_event (Erc20WithdrawalDelayed claim_id claim_block amount (wm_beneficiary withdrawal))
      | Deposit deposit _ =>
          let* beneficiary := unwrap (decode_account (dep_beneficiary deposit)) in
          let* amount := as_u128 (dep_amount deposit) in
          deposit_event (Erc20DepositDelayed claim_id claim_block amount beneficiary)
      end
  end.

Definition deposit_claim (origin : Origin) (tx_hash : EthHash) (claim : Erc20DepositEvent) : D St unit :=
  transactional (
    let* _origin := ensure_signed origin in
    let* p := gets peg in
    do* ensure (DepositsActive p) (Erc20Peg PegError.DepositsPaused) in
    do* ensure (dep_amount claim <? umax 128) (Erc20Peg PegError.InvalidAmount) in
    do* ensure (bool_decide (is_Some (decode_account (dep_beneficiary claim)))) (Erc20Peg PegError.InvalidAddress) in
    match Erc20ToAssetId p !! dep_token_address claim ≫= (ClaimDelay p !!.) with
    | Some (min_amount, delay) =>
        if min_amount <=? dep_amount claim then delay_claim delay (Deposit claim tx_hash)
        else process_deposit_claim claim tx_hash
    | None => process_deposit_claim claim tx_hash
    end).

(** The asset of a token, created when the token is seen first. *)
Definition asset_of (token_address : EthAddress) : D St AssetId :=
  let* p := gets peg in
  match Erc20ToAssetId p !! token_address with
  | Some asset_id => ret asset_id
  | None =>
      let '(symbol, decimals) := default ([], 18) (Erc20Meta p !! token_address) in
      let* created := attempt (on_ledger (cur_create peg_account 0 decimals 1 symbol)) in
      match created with
      | inr _ => fail (Erc20Peg PegError.CreateAssetFailed)
      | inl asset_id =>
          do* write (set_Erc20ToAssetId (insert token_address asset_id)) in
          do* write (set_AssetIdToErc20 (insert asset_id token_address)) in
          ret asset_id
      end
  end.

(** [deposit_creating] whose imbalance is dropped at the end of the block. *)
Definition mint_deposit (beneficiary : AccountId) (asset_id : AssetId) (amount : Balance) : D St unit :=
  let* imbalance := on_ledger (state (cur_deposit_creating beneficiary asset_id amount)) in
  on_ledger (modify (cur_drop_positive imbalance)).

Definition do_deposit (verified_event : Erc20DepositEvent) : D St (AssetId * Balance * AccountId) :=
  let* asset_id := asset_of (dep_token_address verified_event) in
  let* beneficiary := unwrap (decode_account (dep_beneficiary verified_event)) in
  let* amount := as_u128 (dep_amount verified_event) in
  let* s := gets (fun s => s) in
  do* (if (asset_id =? cur_staking_currency (ledger s)) && CENNZDepositsActive (peg s) then
         let* _result := attempt (on_ledger (cur_transfer peg_account beneficiary asset_id amount KeepAlive)) in ret tt
       else mint_deposit beneficiary asset_id amount) in
  ret (asset_id, amount, beneficiary).

(** ** [EventClaimSubscriber] *)
Definition is_deposit_event (contract_address : EthAddress) (event_type : EthHash) (p : PegStore) : bool :=
  bool_decide (contract_address = ContractAddress p) && bool_decide (event_type = DepositEventSignature).

Definition on_success (event_claim_id : Z) (contract_address : EthAddress) (event_type : EthHash) (event_data : bytes)
    : D St unit :=
  let* p := gets peg in
  if is_deposit_event contract_address event_type p then
    match decode_Erc20DepositEvent event_data with
    | Some deposit =>
        let* result := attempt (do_deposit deposit) in
        match result with
        | inl (asset_id, amount, beneficiary) => deposit_event (Erc20Deposit event_claim_id asset_id amount beneficiary)
        | inr _ => deposit_event (Erc20DepositFail event_claim_id)
        end
    | None => ret tt
    end
  else ret tt.

Definition on_failure (event_claim_id : Z) (contract_address : EthAddress) (event_type : EthHash) (_data : bytes)
    : D St unit :=
  let* p := gets peg in
  if is_deposit_event contract_address event_type p then deposit_event (Erc20DepositFail event_claim_id) else ret tt.

(** ** Withdrawals *)
Definition process_withdrawal_payment (origin : AccountId) (asset_id : AssetId) (amount : Balance) : D St unit :=
  let* l := gets ledger in
  if asset_id =? cur_staking_currency l then on_ledger (cur_transfer origin peg_account asset_id amount KeepAlive)
  else
    let* imbalance := on_ledger (cur_withdraw origin asset_id amount WithdrawReasons.TRANSFER KeepAlive) in
    on_ledger (modify (cur_drop_negative imbalance)).

Definition process_withdrawal (message : WithdrawMessage) (asset_id : AssetId) : D St Z :=
  let* amount := as_u128 (wm_amount message) in
  let* event_proof_id := attempt (on_bridge (cl_generate_event_proof (encode_WithdrawMessage message))) in
  match event_proof_id with
  | inl proof_id =>
      do* write (set_WithdrawalDigests (insert proof_id (peg_hash (encode_withdrawal message proof_id)))) in
      do* deposit_event (Erc20Withdraw proof_id asset_id amount (wm_beneficiary message)) in
      ret proof_id
  | inr e =>
      do* deposit_event (DelayedErc20WithdrawalFailed asset_id (wm_beneficiary message)) in
      fail e
  end.

Definition do_withdrawal (origin : AccountId) (asset_id : AssetId) (amount : Balance) (beneficiary : EthAddress)
    (call_origin : WithdrawCallOrigin) : D St Z :=
  let* p := gets peg in
  do* ensure (WithdrawalsActive p) (Erc20Peg PegError.WithdrawalsPaused) in
  let* token_address := ok_or (AssetIdToErc20 p !! asset_id) (Erc20Peg PegError.UnsupportedAsset) in
  let message := {| wm_token_address := token_address; wm_amount := amount; wm_beneficiary := beneficiary |} in
  let immediately :=
    do* process_withdrawal_payment origin asset_id amount in
    process_withdrawal message asset_id in
  match ClaimDelay p !! asset_id with
  | Some (min_amount, delay) =>
      if min_amount <=? amount then
        match call_origin with
        | Runtime =>
            do* process_withdrawal_payment origin asset_id amount in
            do* delay_claim delay (Withdrawal message) in
            ret 0
        | Evm => fail (Erc20Peg PegError.EvmWithdrawalFailed)
        end
      else immediately
  | None => immediately
  end.

Definition withdraw (origin : Origin) (asset_id : AssetId) (amount : Balance) (beneficiary : EthAddress) : D St unit :=
  transactional (
    let* origin := ensure_signed origin in
    do* do_withdrawal origin asset_id amount beneficiary Runtime in
    ret tt).

(** ** Delayed claims *)
Definition take_delayed (claim_id : ClaimId) : D St (option PendingClaim) :=
  state (fun s => (DelayedClaims (peg s) !! claim_id, on_peg (set_DelayedClaims (delete claim_id)) s)).

Definition process_claim (claim_id : ClaimId) : D St unit :=
  let* pending := take_delayed claim_id in
  match pending with
  | Some (Deposit claim tx_hash) => process_deposit_claim claim tx_hash
  | Some (Withdrawal message) =>
      let* p := gets peg in
      match Erc20ToAssetId p !! wm_token_address message with
      | Some asset_id => let* _result := attempt (process_withdrawal message asset_id) in ret tt
      | None => ret tt
      end
  | None => ret tt
  end.

Definition on_initialize (now : BlockNumber) : D St unit :=
  let* p := gets peg in
  match DelayedClaimSchedule p !! now with
  | Some _ => write (set_ReadyBlocks (fun l => l ++ [now]))
  | None => ret tt
  end.

(** The loop over the ready blocks: how many claims and how many whole blocks
    have been processed, both [u8]. *)
Fixpoint idle_blocks (max_claims : Z) (blocks : list BlockNumber) (claim_count block_count : Z) : D St (Z * Z) :=
  match blocks with
  | [] => ret (claim_count, block_count)
  | block :: blocks =>
      let* claim_ids := gets (fun s => sget [] block (DelayedClaimSchedule (peg s))) in
      do* write (set_DelayedClaimSchedule (delete block)) in
      let remaining_claims := Z.to_nat (wrapping_sub 8 max_claims claim_count) in
      let partial := (remaining_claims <? length claim_ids)%nat in
      do* (if partial then write (set_DelayedClaimSchedule (insert block (drop remaining_claims claim_ids))) else ret tt) in
      let claim_ids := if partial then take remaining_claims claim_ids else claim_ids in
      let block_count := if partial then block_count else wrapping_add 8 block_count 1 in
      let claim_count := wrapping_add 8 claim_count (wrap 8 (Z.of_nat (length claim_ids))) in
      do* for_each claim_ids process_claim in
      if max_claims <=? claim_count then ret (claim_count, block_count)
      else idle_blocks max_claims blocks claim_count block_count
  end.

(** The weight of processing one claim. *)
Definition weight_each : Z := saturating_add U64 (saturating_mul U64 db_read 8) (saturating_mul U64 db_write 10).

Definition on_idle (remaining_weight : Z) : D St Z :=
  let initial_read_cost := saturating_mul U64 db_read 1 in
  if remaining_weight <=? initial_read_cost then ret 0
  else
    let* ready_blocks := gets (fun s => ReadyBlocks (peg s)) in
    match ready_blocks with
    | [] => ret 0
    | _ :: _ =>
        if weight_each =? 0 then panic
        else
          let max_claims := saturate 8 ((remaining_weight - initial_read_cost) / weight_each) in
          let* counts := idle_blocks max_claims ready_blocks 0 0 in
          let '(claim_count, block_count) := counts in
          do* (if (length ready_blocks <? Z.to_nat block_count)%nat then panic
               else write (set_ReadyBlocks (fun _ => drop (Z.to_nat block_count) ready_blocks))) in
          ret (wrapping_add U64 initial_read_cost (wrapping_mul U64 weight_each claim_count))
    end.

(** ** Administration *)
Definition activate_deposits (origin : Origin) (activate : bool) : D St unit :=
  do* ensure_root origin in write (set_DepositsActive (fun _ => activate)).

Definition activate_withdrawals (origin : Origin) (activate : bool) : D St unit :=
  do* ensure_root origin in write (set_WithdrawalsActive (fun _ => activate)).

Definition set_contract_address (origin : Origin) (eth_address : EthAddress) : D St unit :=
  transactional (
    do* ensure_root origin in
    do* write (set_ContractAddress (fun _ => eth_address)) in
    deposit_event (SetContractAddress eth_address)).

Definition activate_cennz_deposits (origin : Origin) : D St unit :=
  transactional (
    do* ensure_root origin in
    do* write (set_CENNZDepositsActive (fun _ => true)) in
    deposit_event CENNZDepositsActivated).

Definition set_erc20_meta (origin : Origin) (details : list (EthAddress * bytes * Z)) : D St unit :=
  do* ensure_root origin in
  for_each details (fun '(address, symbol, decimals) => write (set_Erc20Meta (insert address (symbol, decimals)))).

Definition set_claim_delay (origin : Origin) (asset_id : AssetId) (min_balance : Balance) (delay : BlockNumber)
    : D St unit :=
  do* ensure_root origin in
  do* write (set_ClaimDelay (insert asset_id (min_balance, delay))) in
  deposit_event (ClaimDelaySet asset_id min_balance delay).

(** The genesis build: [CENNZ] maps to the staking currency. *)
Definition genesis_build (erc20s : list (EthAddress * bytes * Z)) : D St unit :=
  let* l := gets ledger in
  for_each erc20s (fun '(address, symbol, decimals) =>
    do* (if bool_decide (symbol = cennz_symbol)
         then write (set_Erc20ToAssetId (insert address (cur_staking_currency l))) else ret tt) in
    write (set_Erc20Meta (insert address (symbol, decimals)))).
End Peg.
