(* ===== verification/Erc20PegProps.v ===== *)
(** * Processing delayed peg claims

    What one claim and one idle block do to the queue of delayed claims: the
    loop over ready blocks, with its [u8] counters and its split of a block's
    claims, processes exactly the first claims of the queue, in order. *)

From S2P Require Import Prelude Support GenericAssetTypes MultiCurrency EthAbi EthBridgeTypes Erc20Peg.

(** What the peg relies on: the calls of the bridge end with a value or an
    error. *)
Class VerifierLaws (B : Type) {bridge_ops : EventClaimVerifier B} := {
  submit_no_panic : forall a t h d b, fst (cl_submit_event_claim a t h d b) <> Panic;
  generate_no_panic : forall e b, fst (cl_generate_event_proof e b) <> Panic;
}.

Section Peg.
Context {B L : Type} {bridge_ops : EventClaimVerifier B} {currency : MultiCurrency L} {config : PegConfig}.
Context {bridge_laws : VerifierLaws B}.
Abbreviation St := (State B L).
Implicit Types s : St.

(** ** One claim *)

(** A claim that was accepted: its amount fits and its beneficiary decodes. *)
Definition claim_wf (c : PendingClaim) : Prop :=
  match c with
  | Deposit claim _ => 0 <= dep_amount claim < umax 128 /\ is_Some (decode_account (dep_beneficiary claim))
  | Withdrawal message => 0 <= wm_amount message <= umax 128
  end.

Definition claims_wf (p : PegStore) : Prop := forall id c, DelayedClaims p !! id = Some c -> claim_wf c.

(** What claims do not change. *)
Definition frame s := (ReadyBlocks (peg s), DelayedClaimSchedule (peg s), NextDelayedClaimId (peg s), ClaimDelay (peg s),
  block_number s, (Erc20ToAssetId (peg s), AssetIdToErc20 (peg s), ledger s)).

Lemma process_deposit_claim_ok claim tx s : is_Some (decode_account (dep_beneficiary claim)) ->
  exists s', process_deposit_claim claim tx s = (Ok tt, s') /\ frame s' = frame s /\ DelayedClaims (peg s') = DelayedClaims (peg s).
Proof.
  intros [w Hw]. unfold process_deposit_claim, bind, gets, attempt, on_bridge. rewrite Hw. unfold unwrap, ret.
  pose proof (submit_no_panic (ContractAddress (peg s)) DepositEventSignature tx (encode_Erc20DepositEvent claim) (bridge s)) as Hp.
  destruct (cl_submit_event_claim _ _ _ _ _) as [[id|e|] b']; [| |done]; eexists; done.
Qed.

Lemma process_withdrawal_ok message asset s : wm_amount message <= umax 128 ->
  exists r s', process_withdrawal message asset s = (r, s') /\ r <> Panic /\ frame s' = frame s /\
    DelayedClaims (peg s') = DelayedClaims (peg s).
Proof.
  intros Ha. unfold process_withdrawal, as_u128. rewrite (proj2 (Z.leb_le _ _) Ha). unfold bind, ret, attempt, on_bridge.
  pose proof (generate_no_panic (encode_WithdrawMessage message) (bridge s)) as Hp.
  destruct (cl_generate_event_proof _ _) as [[id|e|] b']; [| |done]; eexists _, _; done.
Qed.

Lemma process_claim_ok id s : claims_wf (peg s) ->
  exists s', process_claim id s = (Ok tt, s') /\ frame s' = frame s /\ DelayedClaims (peg s') = delete id (DelayedClaims (peg s)).
Proof.
  intros Hwf. unfold process_claim, bind at 1, take_delayed, state. set (s1 := on_peg _ s).
  destruct (DelayedClaims (peg s) !! id) as [[claim tx|message]|] eqn:Hc; cbv iota.
  - apply Hwf in Hc as [_ Hd]. destruct (process_deposit_claim_ok claim tx s1 Hd) as (s' & -> & Hf & Hdc). by exists s'.
  - apply Hwf in Hc as [_ Ha]. unfold bind, gets.
    destruct (Erc20ToAssetId (peg s1) !! wm_token_address message) as [asset|]; [|by exists s1].
    destruct (process_withdrawal_ok message asset s1 Ha) as (r & s' & Hr & Hnp & Hf & Hdc).
    unfold attempt. rewrite Hr. destruct r; [| |done]; by exists s'.
  - by exists s1.
Qed.

Lemma process_claims_ok ids s : claims_wf (peg s) ->
  exists s', for_each ids process_claim s = (Ok tt, s') /\ frame s' = frame s /\ claims_wf (peg s') /\
    forall id, DelayedClaims (peg s') !! id = if bool_decide (id ∈ ids) then None else DelayedClaims (peg s) !! id.
Proof.
  revert s. induction ids as [|i ids IH]; intros s Hwf; [by exists s|]. simpl. unfold bind.
  destruct (process_claim_ok i s Hwf) as (s1 & -> & Hf & Hd).
  assert (Hwf1 : claims_wf (peg s1)).
  { intros j c. rewrite Hd. intros [_ Hj]%lookup_delete_Some. by eapply Hwf. }
  destruct (IH s1 Hwf1) as (s2 & -> & Hf2 & Hwf2 & Hd2). exists s2. split_and!; [done | by rewrite Hf2 | done |].
  intros j. rewrite Hd2, Hd. destruct (decide (j = i)) as [->|Hne].
  - rewrite lookup_delete_eq, (bool_decide_eq_true_2 (i ∈ i :: ids)) by left. by case_match.
  - rewrite lookup_delete_ne by done. rewrite (bool_decide_ext (j ∈ i :: ids) (j ∈ ids)); [done|]. rewrite elem_of_cons. naive_solver.
Qed.

(** Claims do not look at the schedule. *)
Lemma process_claim_commutes f id s :
  process_claim id (on_peg (set_DelayedClaimSchedule f) s) =
  (fst (process_claim id s), on_peg (set_DelayedClaimSchedule f) (snd (process_claim id s))).
Proof.
  unfold process_claim, take_delayed, process_deposit_claim, process_withdrawal, deposit_event, write, bind, state, gets, attempt,
    on_bridge, unwrap, as_u128, ret, panic, fail, modify, on_peg.
  cbn. destruct (DelayedClaims (peg s) !! id) as [[claim tx|message]|]; cbn; [| |done].
  - destruct (cl_submit_event_claim _ _ _ _ _) as [[i|e|] b']; [| |done]; by destruct (decode_account _).
  - destruct (Erc20ToAssetId (peg s) !! wm_token_address message) as [a|]; cbn; [|done]. destruct (_ <=? _); [|done].
    by destruct (cl_generate_event_proof _ _) as [[i|e|] b'].
Qed.

Lemma process_claims_commute f ids s :
  for_each ids process_claim (on_peg (set_DelayedClaimSchedule f) s) =
  (fst (for_each ids process_claim s), on_peg (set_DelayedClaimSchedule f) (snd (for_each ids process_claim s))).
Proof.
  revert s. induction ids as [|i ids IH]; intros s; [done|]. simpl. unfold bind.
  rewrite process_claim_commutes. destruct (process_claim i s) as [[[]|e|] s1]; cbn [fst snd]; [apply IH | done..].
Qed.

(** ** The loop over ready blocks *)
Definition claims_of (sched : gmap BlockNumber (list ClaimId)) (block : BlockNumber) : list ClaimId := sget [] block sched.

(** The claims of a list of blocks, in the order they are due. *)
Definition queued (sched : gmap BlockNumber (list ClaimId)) (blocks : list BlockNumber) : list ClaimId :=
  concat (claims_of sched <$> blocks).

Lemma queued_ext sched sched' blocks : (forall x, x ∈ blocks -> sched !! x = sched' !! x) ->
  queued sched blocks = queued sched' blocks.
Proof.
  intros H. unfold queued. f_equal. apply list_fmap_ext. intros i x Hx. unfold claims_of, sget.
  by rewrite H by (by eapply list_elem_of_lookup_2).
Qed.

(** What the loop leaves: [left_] blocks are not finished, the schedule is [sch]. *)
Record idle_result (sched : gmap BlockNumber (list ClaimId)) (blocks : list BlockNumber) (k finished : nat)
    (sch : gmap BlockNumber (list ClaimId)) : Prop := {
  ir_finished : (finished <= length blocks)%nat;
  ir_count : (finished <= length (take k (queued sched blocks)))%nat;
  ir_queue : queued sch (drop finished blocks) = drop k (queued sched blocks);
  ir_left : forall x, x ∈ drop finished blocks -> claims_of sch x <> [];
  ir_done : forall x, x ∈ take finished blocks -> sch !! x = None;
  ir_other : forall x, x ∉ blocks -> sch !! x = sched !! x;
}.

Lemma idle_result_nil sched k : idle_result sched [] k 0 sched.
Proof.
  constructor; try done; simpl.
  - lia.
  - unfold queued. simpl. by rewrite drop_nil.
  - intros x ?%not_elem_of_nil. done.
  - intros x ?%not_elem_of_nil. done.
Qed.

(** The last block is cut after [k] claims. *)
Lemma idle_result_cut sched block blocks k : NoDup (block :: blocks) -> (forall x, x ∈ blocks -> claims_of sched x <> []) ->
  (k < length (claims_of sched block))%nat ->
  idle_result sched (block :: blocks) k 0 (<[block := drop k (claims_of sched block)]> (delete block sched)).
Proof.
  intros [Hb Hnd]%NoDup_cons Hne Hk. set (sch := <[block := _]> _).
  assert (Heq : claims_of sch block = drop k (claims_of sched block)) by (unfold claims_of at 1, sget, sch; by rewrite lookup_insert_eq).
  assert (Hother : forall x, x <> block -> sch !! x = sched !! x).
  { intros x Hx. unfold sch. by rewrite lookup_insert_ne, lookup_delete_ne by done. }
  constructor; try done; try (simpl; lia).
  - unfold queued. simpl. fold (queued sch blocks) (queued sched blocks). rewrite Heq, drop_app_le by lia. f_equal.
    apply queued_ext. intros x Hx. apply Hother. by intros ->.
  - intros x [->|Hx]%elem_of_cons; [rewrite Heq; intros Hd%(f_equal length); rewrite length_drop in Hd; simpl in Hd; lia|].
    unfold claims_of, sget. rewrite Hother by (by intros ->). by apply Hne.
  - intros x ?%not_elem_of_nil. done.
  - intros x [Hx _]%not_elem_of_cons. by apply Hother.
Qed.

(** A block is finished and the loop goes on with the others, or stops. *)
Lemma idle_result_whole sched block blocks k finished sch : NoDup (block :: blocks) -> claims_of sched block <> [] ->
  (length (claims_of sched block) <= k)%nat ->
  idle_result (delete block sched) blocks (k - length (claims_of sched block)) finished sch ->
  idle_result sched (block :: blocks) k (S finished) sch.
Proof.
  intros [Hb Hnd]%NoDup_cons Hne Hk [H1 H2 H3 H4 H5 H6].
  assert (Hq : queued (delete block sched) blocks = queued sched blocks).
  { apply queued_ext. intros x Hx. apply lookup_delete_ne. by intros ->. }
  assert (Hq2 : queued sched (block :: blocks) = claims_of sched block ++ queued sched blocks) by done.
  constructor; rewrite ?Hq2 in *; try rewrite Hq in *; simpl; try done; try lia.
  - rewrite take_app_ge, length_app by done. destruct (claims_of sched block); [done|]. simpl in *. lia.
  - by rewrite drop_app_ge.
  - intros x [->|Hx]%elem_of_cons; [|by apply H5]. rewrite H6 by done. apply lookup_delete_eq.
  - intros x [Hx Hx']%not_elem_of_cons. rewrite H6 by done. by apply lookup_delete_ne.
Qed.

Lemma on_peg_compose f g s :
  on_peg (set_DelayedClaimSchedule f) (on_peg (set_DelayedClaimSchedule g) s) = on_peg (set_DelayedClaimSchedule (fun m => f (g m))) s.
Proof. done. Qed.

Lemma idle_blocks_spec m blocks c b s : claims_wf (peg s) -> NoDup blocks ->
  (forall x, x ∈ blocks -> claims_of (DelayedClaimSchedule (peg s)) x <> []) -> 0 <= b <= c -> c <= m <= 255 ->
  let q := queued (DelayedClaimSchedule (peg s)) blocks in let k := Z.to_nat (m - c) in
  exists s1 finished sch, for_each (take k q) process_claim s = (Ok tt, s1) /\
    idle_blocks m blocks c b s = (Ok (c + Z.of_nat (length (take k q)), b + Z.of_nat finished),
                                  on_peg (set_DelayedClaimSchedule (fun _ => sch)) s1) /\
    idle_result (DelayedClaimSchedule (peg s)) blocks k finished sch.
Proof.
  revert c b s. induction blocks as [|block blocks IH]; intros c b s Hwf Hnd Hne Hb Hm; cbv zeta.
  { exists s, 0%nat, (DelayedClaimSchedule (peg s)). cbn [queued concat fmap list_fmap]. rewrite take_nil. simpl. rewrite !Z.add_0_r.
    split_and!; [done | | apply idle_result_nil]. unfold ret. f_equal. by destruct s as [[] ? ? ?]. }
  set (sched := DelayedClaimSchedule (peg s)) in *. set (k := Z.to_nat (m - c)).
  assert (Hsub : wrapping_sub 8 m c = m - c) by (apply wrap_small; unfold in_range, umax; lia).
  set (ids := claims_of sched block). assert (Hids : ids <> []) by (apply Hne; left).
  change (queued sched (block :: blocks)) with (ids ++ queued sched blocks).
  simpl idle_blocks. unfold bind at 1, gets. cbv beta iota. fold sched. fold (claims_of sched block). fold ids.
  unfold bind at 1, write at 1, modify at 1. cbv beta iota. rewrite Hsub. fold k.
  destruct (Nat.ltb_spec k (length ids)) as [Hlt|Hge].
  - destruct (process_claims_ok (take k ids) s Hwf) as (s1 & Hp & _).
    exists s1, 0%nat, (<[block := drop k ids]> (delete block sched)). rewrite take_app_le by lia. split_and!; [done | |].
    + unfold bind, write, modify. cbv beta iota. rewrite on_peg_compose, process_claims_commute, Hp. cbn [fst snd].
      assert (Hf : DelayedClaimSchedule (peg s1) = sched).
      { destruct (process_claims_ok (take k ids) s Hwf) as (s1' & Hp' & Hf & _). rewrite Hp in Hp'. injection Hp' as <-.
        unfold frame in Hf. by simplify_eq. }
      rewrite length_take_le by lia. unfold k. rewrite (wrap_small 8 (Z.of_nat _)) by (unfold in_range, umax; lia).
      unfold wrapping_add. rewrite wrap_small by (unfold in_range, umax; lia).
      rewrite (proj2 (Z.leb_le m _)) by lia. unfold ret. rewrite Z.add_0_r. f_equal.
      unfold on_peg. f_equal. unfold set_DelayedClaimSchedule. by rewrite Hf.
    + apply idle_result_cut; [done | | done]. intros x Hx. apply Hne. by right.
  - destruct (process_claims_ok ids s Hwf) as (s1 & Hp & Hf & Hwf1 & _).
    assert (Hsch1 : DelayedClaimSchedule (peg s1) = sched) by (unfold frame in Hf; by simplify_eq).
    unfold bind at 1, ret at 1. unfold bind at 1. cbv beta iota. rewrite process_claims_commute, Hp. cbn [fst snd]. cbv iota.
    assert (Hlen : Z.of_nat (length ids) <= m - c) by (unfold k in Hge; lia).
    assert (Hpos : (0 < length ids)%nat) by (destruct ids; [done | simpl; lia]).
    rewrite (wrap_small 8 (Z.of_nat _)) by (unfold in_range, umax; lia).
    unfold wrapping_add. rewrite !wrap_small by (unfold in_range, umax; lia).
    apply NoDup_cons in Hnd as Hnd2. destruct Hnd2 as [Hb' Hnd2].
    destruct (Z.leb_spec m (c + Z.of_nat (length ids))) as [Hstop|Hgo].
    + exists s1, 1%nat, (delete block sched). rewrite take_app_le, take_ge by lia. split_and!; [done | |].
      * unfold ret. f_equal. unfold on_peg. f_equal. unfold set_DelayedClaimSchedule. by rewrite Hsch1.
      * apply idle_result_whole; [done..|]. fold ids. replace (k - length ids)%nat with 0%nat by lia.
        assert (Hext : forall x, x ∈ blocks -> delete block sched !! x = sched !! x)
          by (intros x Hx; apply lookup_delete_ne; by intros ->).
        constructor; rewrite ?drop_0; try done; try lia.
        -- intros x Hx. unfold claims_of, sget. rewrite Hext by done. apply Hne. by right.
        -- intros x ?%not_elem_of_nil. done.
    + set (s2 := on_peg (set_DelayedClaimSchedule (delete block)) s1).
      assert (Hs2 : DelayedClaimSchedule (peg s2) = delete block sched) by (unfold s2; cbn; by rewrite Hsch1).
      assert (Hext : forall x, x ∈ blocks -> delete block sched !! x = sched !! x)
        by (intros x Hx; apply lookup_delete_ne; by intros ->).
      destruct (IH (c + Z.of_nat (length ids)) (b + 1) s2) as (s3 & fin & sch & Hfe & Hib & Hir); [done | done | | lia | lia |].
      { intros x Hx. rewrite Hs2. unfold claims_of, sget. rewrite Hext by done. apply Hne. by right. }
      rewrite Hs2 in *. rewrite (queued_ext _ sched) in Hfe, Hib by done.
      replace (Z.to_nat (m - (c + Z.of_nat (length ids)))) with (k - length ids)%nat in * by lia.
      unfold s2 in Hfe. rewrite process_claims_commute in Hfe.
      destruct (for_each (take (k - length ids) (queued sched blocks)) process_claim s1) as [r s4] eqn:Hfe1.
      cbn [fst snd] in Hfe. injection Hfe as -> <-.
      exists s4, (S fin), sch. rewrite take_app_ge by lia. split_and!.
      * by rewrite (for_each_app _ _ _ _ _ Hp).
      * rewrite Hib, length_app, on_peg_compose. do 2 f_equal. f_equal; lia.
      * by apply idle_result_whole.
Qed.
End Peg.
