(* ===== verification/Erc20PegTheorems.v ===== *)
(** * The delayed claims of the peg are processed

    The peg's blocks, extrinsics and notifications as a step relation; the
    invariant of its claim queue; idle blocks work the queue off in order; every
    pending claim is ready or due later; and the stranded claim of a zero delay. *)

From S2P Require Import Prelude Support GenericAssetTypes MultiCurrency EthAbi EthBridgeTypes Erc20Peg Erc20PegProps Erc20PegQueue.

Section Theorems.
Context {B L : Type} {bridge_ops : EventClaimVerifier B} {currency : MultiCurrency L} {config : PegConfig}.
Context {bridge_laws : VerifierLaws B}.
Abbreviation St := (State B L).
Implicit Types s : St.

(** ** Idle blocks *)

(** How many claims the weight [w] is good for. *)
Definition idle_claims (w : Z) : nat := Z.to_nat (saturate 8 ((w - saturating_mul U64 db_read 1) / weight_each)).

(** The queue taken over by schedule and ready blocks. *)
Definition requeue (sch : gmap BlockNumber (list ClaimId)) (ready : list BlockNumber) s : St :=
  on_peg (fun p => set_ReadyBlocks (fun _ => ready) (set_DelayedClaimSchedule (fun _ => sch) p)) s.

Lemma requeue_id s : requeue (DelayedClaimSchedule (peg s)) (ReadyBlocks (peg s)) s = s.
Proof. by destruct s as [[] ? ? ?]. Qed.

Lemma on_idle_spec w s : queue_ok (queue s) -> in_range U64 w -> 0 <= db_read -> 0 <= db_write -> 0 < weight_each ->
  let k := if w <=? saturating_mul U64 db_read 1 then 0%nat else idle_claims w in
  exists s1 r finished sch, for_each (take k (ready_queue (queue s))) process_claim s = (Ok tt, s1) /\
    on_idle w s = (Ok r, requeue sch (drop finished (ReadyBlocks (peg s))) s1) /\ 0 <= r <= w /\
    idle_result (DelayedClaimSchedule (peg s)) (ReadyBlocks (peg s)) k finished sch.
Proof.
  intros Hq Hw Hr Hwr He k. unfold on_idle, weight_each in *. subst k. set (read := saturating_mul U64 db_read 1).
  assert (Hread : 0 <= read) by (unfold read, saturating_mul, umax, U64; lia).
  assert (Hnoop : idle_result (DelayedClaimSchedule (peg s)) (ReadyBlocks (peg s)) 0 0 (DelayedClaimSchedule (peg s))).
  { constructor; rewrite ?drop_0; try done; try (simpl; lia).
    - intros x Hx. by apply (qo_ready _ Hq).
    - intros x ?%not_elem_of_nil. done. }
  destruct (Z.leb_spec w read) as [Hle|Hgt].
  { exists s, 0, 0%nat, (DelayedClaimSchedule (peg s)). rewrite drop_0, requeue_id. split_and!; try done; apply Hw. }
  unfold bind at 1, gets. unfold idle_claims. fold weight_each in *. fold read. set (m := saturate 8 _).
  assert (Hdiv : 0 <= (w - read) / weight_each) by (apply Z.div_pos; lia).
  assert (Hm : 0 <= m <= 255) by (unfold m, saturate, umax; lia).
  destruct (ReadyBlocks (peg s)) as [|b0 bs] eqn:Hready.
  { assert (Hnil : ready_queue (queue s) = []) by (unfold ready_queue; cbn; by rewrite Hready).
    exists s, 0, 0%nat, (DelayedClaimSchedule (peg s)). rewrite Hnil, take_nil. cbn [drop].
    split_and!; try done; try apply Hw; try lia.
    - rewrite <- Hready. by rewrite requeue_id.
    - constructor; try done; simpl; try lia; [unfold queued; simpl; by rewrite drop_nil|..]; intros x ?%not_elem_of_nil; done. }
  rewrite (proj2 (Z.eqb_neq weight_each 0)) by lia.
  destruct (idle_blocks_spec m (b0 :: bs) 0 0 s) as (s1 & fin & sch & Hfe & Hib & Hir).
  - exact (qo_wf _ Hq).
  - rewrite <- Hready. apply (qo_nodup _ Hq).
  - rewrite <- Hready. intros x Hx. by apply (qo_ready _ Hq).
  - lia.
  - lia.
  - unfold bind. rewrite Hib. rewrite Z.sub_0_r in *.
    rewrite Z.add_0_l, Nat2Z.id, (proj2 (Nat.ltb_ge _ _)) by apply Hir. cbn [write modify].
    eexists s1, _, fin, sch. unfold ready_queue. cbn [queue q_ready q_sched]. rewrite Hready. split_and!; [done | done | | | done].
    + unfold wrapping_add. apply wrap_range. done.
    + rewrite Z.add_0_l. set (n := length _).
      assert (Hn : Z.of_nat n <= m) by (subst n; rewrite length_take; lia).
      assert (weight_each * Z.of_nat n <= w - read).
      { transitivity (weight_each * ((w - read) / weight_each)); [|apply Z.mul_div_le; lia].
        apply Z.mul_le_mono_nonneg_l; [lia|]. unfold m, saturate in Hn. lia. }
      assert (0 <= weight_each * Z.of_nat n) by (apply Z.mul_nonneg_nonneg; lia).
      unfold in_range in Hw. unfold wrapping_mul, wrapping_add. rewrite (wrap_small U64 (weight_each * _)), wrap_small by (unfold in_range; lia).
      lia.
Qed.

(** ** Steps

    [P] restricts the extrinsics. *)
Inductive step (P : Call -> Prop) : St -> St -> Prop :=
| st_block p b l n s' : n + 1 < umax U32 ->
    on_initialize (n + 1) (mkState p b l (n + 1)) = (Ok tt, s') -> step P (mkState p b l n) s'
| st_idle w r s s' : in_range U64 w -> on_idle w s = (Ok r, s') -> step P s s'
| st_call c origin s : call_ok c -> P c -> step P s (snd (dispatch c origin s))
| st_success id a t d s s' : on_success id a t d s = (Ok tt, s') -> step P s s'
| st_failure id a t d s s' : on_failure id a t d s = (Ok tt, s') -> step P s s'
| st_other p b b' l l' n : step P (mkState p b l n) (mkState p b' l' n).

(** The weight model: reads and writes have a cost. *)
Definition weights_ok : Prop := 0 <= db_read /\ 0 <= db_write /\ 0 < weight_each.

Lemma idle_queue w r s s' : weights_ok -> queue_ok (queue s) -> in_range U64 w -> on_idle w s = (Ok r, s') ->
  exists k fin sch, idle_result (q_sched (queue s)) (q_ready (queue s)) k fin sch /\
    q_ready (queue s') = drop fin (q_ready (queue s)) /\ q_sched (queue s') = sch /\
    (forall id, q_claims (queue s') !! id = if bool_decide (id ∈ take k (ready_queue (queue s))) then None else q_claims (queue s) !! id) /\
    q_next (queue s') = q_next (queue s) /\ q_now (queue s') = q_now (queue s) /\ q_delays (queue s') = q_delays (queue s).
Proof.
  intros (Hr & Hwr & He) Hq Hw Hi. destruct (on_idle_spec w s Hq Hw Hr Hwr He) as (s1 & r' & fin & sch & Hfe & Hi' & _ & Hir).
  rewrite Hi in Hi'. injection Hi' as -> ->. set (k := if w <=? _ then _ else _) in *.
  destruct (process_claims_ok (take k (ready_queue (queue s))) s (qo_wf _ Hq)) as (s2 & Hfe2 & Hf & _ & Hd).
  rewrite Hfe in Hfe2. injection Hfe2 as <-. unfold frame in Hf. simplify_eq. exists k, fin, sch. split_and!; done.
Qed.

Lemma elem_of_queued sched blocks id : id ∈ queued sched blocks <-> exists b, b ∈ blocks /\ id ∈ claims_of sched b.
Proof.
  induction blocks as [|b blocks IH]; [split; [by intros ?%not_elem_of_nil | by intros (b & ?%not_elem_of_nil & _)]|].
  change (queued sched (b :: blocks)) with (claims_of sched b ++ queued sched blocks). rewrite elem_of_app, IH.
  setoid_rewrite elem_of_cons. naive_solver.
Qed.

Lemma idle_queue_ok w r s s' : weights_ok -> queue_ok (queue s) -> in_range U64 w -> on_idle w s = (Ok r, s') -> queue_ok (queue s').
Proof.
  intros Hwt Hq Hw Hi. destruct (idle_queue w r s s' Hwt Hq Hw Hi) as (k & fin & sch & [_ _ H3 H4 H5 H6] & Hr & Hs & Hc & Hn & Hnow & _).
  destruct Hq as [Hwf Hnd Hrd Hsc Hnx Hp]. set (q := queue s) in *. set (q' := queue s') in *.
  assert (Hback : forall b id, id ∈ claims_of sch b -> exists b', id ∈ claims_of (q_sched q) b').
  { intros b id Hid. destruct (decide (b ∈ q_ready q)) as [Hb|Hb].
    - rewrite <- (take_drop fin (q_ready q)) in Hb. apply elem_of_app in Hb as [Hb|Hb].
      + unfold claims_of, sget in Hid. rewrite (H5 b Hb) in Hid. by apply not_elem_of_nil in Hid.
      + assert (Hq : id ∈ queued sch (drop fin (q_ready q))) by (apply elem_of_queued; eauto).
        rewrite H3 in Hq.
        assert (Hq' : id ∈ queued (q_sched q) (q_ready q)) by (rewrite <- (take_drop k (queued _ _)); apply elem_of_app; by right).
        apply elem_of_queued in Hq' as (b' & _ & ?). eauto.
    - exists b. unfold claims_of, sget in *. by rewrite H6 in Hid. }
  constructor; rewrite ?Hr, ?Hs, ?Hn, ?Hnow.
  - intros id c. rewrite Hc. case_bool_decide; [done|]. apply Hwf.
  - rewrite <- (take_drop fin (q_ready q)) in Hnd. by apply NoDup_app in Hnd as (_ & _ & ?).
  - intros b Hb. split; [|by apply H4]. apply Hrd. rewrite <- (take_drop fin (q_ready q)). set_solver.
  - intros b ids Hb. destruct (decide (b ∈ q_ready q)) as [Hin|Hin]; [|rewrite H6 in Hb by done; eauto].
    rewrite <- (take_drop fin (q_ready q)) in Hin. apply elem_of_app in Hin as [Hin|Hin]; [by rewrite (H5 b Hin) in Hb|].
    specialize (H4 b Hin). unfold claims_of, sget in H4. by rewrite Hb in H4.
  - intros b id [b' Hid]%Hback. eauto.
  - intros id c. rewrite Hc. case_bool_decide as Hk; [done|]. intros [b Hb]%Hp.
    destruct (decide (b ∈ q_ready q)) as [Hin|Hin].
    + assert (Hid : id ∈ ready_queue q) by (apply elem_of_queued; eauto).
      rewrite <- (take_drop k (ready_queue q)) in Hid. apply elem_of_app in Hid as [Hid|Hid]; [done|].
      unfold ready_queue in Hid. rewrite <- H3 in Hid. apply elem_of_queued in Hid as (b' & _ & ?). eauto.
    + exists b. unfold claims_of, sget. by rewrite H6.
Qed.

(** A delay of zero blocks is never set. *)
Definition prudent (c : Call) : Prop := match c with C_set_claim_delay _ _ d => 0 < d | _ => True end.

Definition any (_ : Call) : Prop := True.

(** What a block's start does to the queue. *)
Definition initialized (q : Queue) : Queue :=
  let now := q_now q + 1 in
  mkQueue (if bool_decide (is_Some (q_sched q !! now)) then q_ready q ++ [now] else q_ready q)
    (q_sched q) (q_claims q) (q_next q) now (q_delays q).

Lemma on_initialize_queue p (b : B) (l : L) n s' : on_initialize (n + 1) (mkState p b l (n + 1)) = (Ok tt, s') ->
  queue s' = initialized (queue (mkState p b l n)).
Proof.
  unfold on_initialize, bind, gets, initialized. cbn. destruct (DelayedClaimSchedule p !! (n + 1)) eqn:E; intros [= <-].
  - by rewrite bool_decide_eq_true_2.
  - rewrite bool_decide_eq_false_2; [done|]. by intros [].
Qed.

Lemma initialized_ok q : queue_ok q -> queue_ok (initialized q).
Proof.
  intros [Hwf Hnd Hr Hs Hn Hp]. constructor; cbn; try done.
  - case_bool_decide; [|done]. apply NoDup_app. split_and!; [done | | apply NoDup_singleton].
    intros x Hx%Hr ->%list_elem_of_singleton. lia.
  - intros b. case_bool_decide as Hnow; [|intros []%Hr; split; [lia | done]].
    intros [[]%Hr| ->%list_elem_of_singleton]%elem_of_app; split; [lia | done | lia|].
    destruct Hnow as [ids Hids]. unfold claims_of, sget. rewrite Hids. by eapply Hs.
Qed.

(** Every step acts on the queue in one of these ways. *)
Inductive queue_step (P : Call -> Prop) : Queue -> Queue -> Prop :=
| qs_same q : queue_step P q q
| qs_block q : queue_step P q (initialized q)
| qs_idle w r s s' : in_range U64 w -> on_idle w s = (Ok r, s') -> queue_step P (queue s) (queue s')
| qs_delay a m d c q : claim_wf c -> q_delays q !! a = Some (m, d) -> queue_step P q (delayed d c q)
| qs_set a m d q : P (C_set_claim_delay a m d) ->
    queue_step P q (mkQueue (q_ready q) (q_sched q) (q_claims q) (q_next q) (q_now q) (<[a := (m, d)]> (q_delays q))).

Lemma step_queue P s s' : step P s s' -> queue_step P (queue s) (queue s').
Proof.
  intros Hst. destruct Hst as [p b l n s' Hn Hi|w r s s' Hw Hi|c origin s Hc HP|id a t d s s' Hs|id a t d s s' Hs|p b b' l l' n].
  - rewrite (on_initialize_queue p b l n s' Hi). constructor.
  - by econstructor.
  - destruct (dispatch_queue c origin s Hc) as [[->|(a & m & d & cl & Hcl & Hd & ->)]|(a & m & d & -> & ->)]; econstructor; done.
  - pose proof (on_success_keeps id a t d s) as Hk. rewrite Hs in Hk. cbn in Hk. rewrite Hk. constructor.
  - pose proof (on_failure_keeps id a t d s) as Hk. rewrite Hs in Hk. cbn in Hk. rewrite Hk. constructor.
  - constructor.
Qed.

Section Weighted.
Hypothesis Hweights : weights_ok.

Lemma queue_step_ok P q q' : queue_step P q q' -> queue_ok q -> queue_ok q'.
Proof.
  intros Hst. destruct Hst; intros Hq; [done | by apply initialized_ok | by eapply idle_queue_ok | by apply delayed_ok | by destruct Hq].
Qed.

Lemma steps_queue_ok P s s' : rtc (step P) s s' -> queue_ok (queue s) -> queue_ok (queue s').
Proof. induction 1 as [|s1 s2 s3 Hst _ IH]; [done|]. intros Hq. apply IH. by eapply queue_step_ok, Hq; apply step_queue. Qed.

Definition delays_positive (q : Queue) : Prop := forall a m d, q_delays q !! a = Some (m, d) -> 0 < d.

Lemma queue_step_timely q q' : queue_step prudent q q' -> queue_ok q -> delays_positive q -> timely q ->
  delays_positive q' /\ timely q'.
Proof.
  intros Hst Hq Hd Ht. destruct Hst as [q|q|w r s s' Hw Hi|a m d c q Hc Ha|a m d q HP].
  - done.
  - split; [done|]. intros b Hu Hb Hle. cbn in *. case_bool_decide as Hnow.
    + destruct (decide (b = q_now q + 1)) as [->|Hne]; [set_solver|]. apply elem_of_app. left. apply Ht; [lia | done | lia].
    + apply Ht; [lia | done|]. destruct (decide (b = q_now q + 1)) as [->|Hne]; [done | lia].
  - destruct (idle_queue w r s s' Hweights Hq Hw Hi) as (k & fin & sch & Hir & Hr & Hs & _ & _ & Hnow & Hdel). split.
    + intros a m d. rewrite Hdel. apply Hd.
    + intros b Hu [ids Hids] Hle. rewrite Hnow in Hle, Hu. rewrite Hs in Hids. rewrite Hr.
      destruct (decide (b ∈ q_ready (queue s))) as [Hb|Hb].
      * rewrite <- (take_drop fin (q_ready _)) in Hb. apply elem_of_app in Hb as [Hb|Hb]; [|done].
        by rewrite (ir_done _ _ _ _ _ Hir b Hb) in Hids.
      * exfalso. apply Hb, Ht; [done | | done]. rewrite (ir_other _ _ _ _ _ Hir b Hb) in Hids. eauto.
  - split; [done|]. apply delayed_timely; [by eapply Hd | done].
  - split; [|done]. intros a' m' d'. cbn. intros [[_ [= _ <-]]|[_ ?]]%lookup_insert_Some; [exact HP | by eapply Hd].
Qed.

Lemma steps_timely s s' : rtc (step prudent) s s' -> queue_ok (queue s) -> delays_positive (queue s) -> timely (queue s) ->
  queue_ok (queue s') /\ timely (queue s').
Proof.
  induction 1 as [|s1 s2 s3 Hst _ IH]; [done|]. intros Hq Hd Ht. apply step_queue in Hst.
  destruct (queue_step_timely _ _ Hst Hq Hd Ht) as [Hd2 Ht2]. apply IH; [by eapply queue_step_ok | done..].
Qed.
End Weighted.

(** A peg without claims and delays. *)
Definition initial s : Prop :=
  ReadyBlocks (peg s) = [] /\ DelayedClaimSchedule (peg s) = ∅ /\ DelayedClaims (peg s) = ∅ /\ ClaimDelay (peg s) = ∅.

Lemma peg_initial_ok s : initial s -> queue_ok (queue s) /\ delays_positive (queue s) /\ timely (queue s).
Proof.
  intros (Hr & Hs & Hc & Hd). split_and!.
  - constructor; cbn; rewrite ?Hr, ?Hs, ?Hc; try done.
    + constructor.
    + intros b ?%not_elem_of_nil. done.
    + intros b id. unfold claims_of, sget. rewrite lookup_empty. cbn. intros ?%not_elem_of_nil. done.
  - intros a m d. cbn. by rewrite Hd.
  - intros b _. cbn. rewrite Hs. by intros [? ?].
Qed.

(** As long as no delay is set to zero, every claim that waits is either in the
    queue of the idle blocks or scheduled for a block still to come. *)
Theorem pending_claims_ready_or_due s0 s id c : weights_ok -> initial s0 -> rtc (step prudent) s0 s ->
  block_number s < umax U32 -> DelayedClaims (peg s) !! id = Some c ->
  id ∈ ready_queue (queue s) \/ exists b, block_number s < b /\ id ∈ claims_of (DelayedClaimSchedule (peg s)) b.
Proof.
  intros Hw (Hq & Hd & Ht)%peg_initial_ok Hrun Hnow Hc. destruct (steps_timely Hw s0 s Hrun Hq Hd Ht) as [Hq' Ht'].
  destruct (qo_pending _ Hq' id c Hc) as [b Hb]. destruct (Z.lt_ge_cases (block_number s) b) as [Hlt|Hge]; [right; eauto|].
  left. apply elem_of_queued. exists b. split; [|done]. apply Ht'; [done | | done].
  unfold claims_of, sget in Hb. destruct (q_sched (queue s) !! b); [done | by apply not_elem_of_nil in Hb].
Qed.

(** ** The queue drains *)

(** The state after [n] blocks that have weight [w] to spare. *)
Fixpoint idle_times (n : nat) (w : Z) s : St :=
  match n with
  | O => s
  | S n => idle_times n w (snd (on_idle w s))
  end.

(** C38: an idle block with enough weight processes the first claims of the queue,
    in order, exactly as if they were processed one after the other; it stays
    within its weight, and the rest of the queue keeps its order. *)
Theorem on_idle_works_off w s : weights_ok -> queue_ok (queue s) -> in_range U64 w -> saturating_mul U64 db_read 1 < w ->
  exists s1 r s', for_each (take (idle_claims w) (ready_queue (queue s))) process_claim s = (Ok tt, s1) /\
    on_idle w s = (Ok r, s') /\ 0 <= r <= w /\
    ready_queue (queue s') = drop (idle_claims w) (ready_queue (queue s)) /\
    exists sch ready, s' = requeue sch ready s1.
Proof.
  intros (Hr & Hwr & He) Hq Hw Hlt. destruct (on_idle_spec w s Hq Hw Hr Hwr He) as (s1 & r & fin & sch & Hfe & Hi & Hle & Hir).
  rewrite (proj2 (Z.leb_gt _ _) Hlt) in *. exists s1, r, (requeue sch (drop fin (ReadyBlocks (peg s))) s1).
  split_and!; [done.. | lia | lia | exact (ir_queue _ _ _ _ _ Hir) | eauto].
Qed.

Lemma idle_claims_gone w s : weights_ok -> queue_ok (queue s) -> in_range U64 w -> saturating_mul U64 db_read 1 < w ->
  let s' := snd (on_idle w s) in
  queue_ok (queue s') /\ ready_queue (queue s') = drop (idle_claims w) (ready_queue (queue s)) /\
  (forall id, id ∈ take (idle_claims w) (ready_queue (queue s)) -> DelayedClaims (peg s') !! id = None) /\
  forall id, DelayedClaims (peg s) !! id = None -> DelayedClaims (peg s') !! id = None.
Proof.
  intros Hwt Hq Hw Hlt. destruct Hwt as (Hr & Hwr & He).
  destruct (on_idle_spec w s Hq Hw Hr Hwr He) as (s1 & r & fin & sch & Hfe & Hi & _ & Hir).
  rewrite (proj2 (Z.leb_gt _ _) Hlt) in *. rewrite Hi. cbn [snd].
  destruct (process_claims_ok (take (idle_claims w) (ready_queue (queue s))) s (qo_wf _ Hq)) as (s2 & Hfe2 & _ & _ & Hd).
  rewrite Hfe in Hfe2. injection Hfe2 as <-. split_and!.
  - eapply idle_queue_ok; [|exact Hq | exact Hw | exact Hi]. done.
  - exact (ir_queue _ _ _ _ _ Hir).
  - intros id Hid. cbn. rewrite Hd. by rewrite bool_decide_eq_true_2.
  - intros id Hid. cbn. rewrite Hd. by case_match.
Qed.

Lemma idle_times_gone n w s : weights_ok -> in_range U64 w -> saturating_mul U64 db_read 1 < w -> queue_ok (queue s) ->
  ready_queue (queue (idle_times n w s)) = drop (n * idle_claims w) (ready_queue (queue s)) /\
  (forall id, id ∈ take (n * idle_claims w) (ready_queue (queue s)) -> DelayedClaims (peg (idle_times n w s)) !! id = None) /\
  forall id, DelayedClaims (peg s) !! id = None -> DelayedClaims (peg (idle_times n w s)) !! id = None.
Proof.
  intros Hwt Hw Hlt. revert s. induction n as [|n IH]; intros s Hq; [split_and!; [done | | done]; intros id ?%not_elem_of_nil; done|].
  cbn [idle_times]. destruct (idle_claims_gone w s Hwt Hq Hw Hlt) as (Hq' & Hrq & Hgone & Hkeep).
  destruct (IH _ Hq') as (Hrq2 & Hgone2 & Hkeep2). rewrite Hrq in Hrq2, Hgone2. split_and!.
  - rewrite Hrq2, drop_drop. f_equal.
  - intros id. cbn [Nat.mul]. rewrite <- take_take_drop, elem_of_app. intros [Hid|Hid]; [apply Hkeep2, Hgone, Hid | apply Hgone2, Hid].
  - intros id Hid. by apply Hkeep2, Hkeep.
Qed.

(** Enough idle blocks empty the queue: none of its claims is left waiting. *)
Theorem ready_claims_drain n w s : weights_ok -> in_range U64 w -> saturating_mul U64 db_read 1 < w -> queue_ok (queue s) ->
  (length (ready_queue (queue s)) <= n * idle_claims w)%nat ->
  ready_queue (queue (idle_times n w s)) = [] /\
  forall id, id ∈ ready_queue (queue s) -> DelayedClaims (peg (idle_times n w s)) !! id = None.
Proof.
  intros Hwt Hw Hlt Hq Hn. destruct (idle_times_gone n w s Hwt Hw Hlt Hq) as (Hrq & Hgone & _). split.
  - rewrite Hrq. by apply drop_ge.
  - intros id Hid. apply Hgone. by rewrite take_ge.
Qed.

(** ** A delay of zero blocks *)

(** A claim scheduled only for a block that has gone by. *)
Definition stranded (b : BlockNumber) (id : ClaimId) (c : PendingClaim) (q : Queue) : Prop :=
  b <= q_now q /\ b ∉ q_ready q /\ q_claims q !! id = Some c /\ id < q_next q /\
  forall b', id ∈ claims_of (q_sched q) b' -> b' = b.

Lemma stranded_not_ready b id c q : stranded b id c q -> id ∉ ready_queue q.
Proof. intros (_ & Hb & _ & _ & Hs) (b' & Hb' & ->%Hs)%elem_of_queued. done. Qed.

Lemma queue_step_stranded P b id c q q' : weights_ok -> queue_ok q -> queue_step P q q' -> stranded b id c q -> stranded b id c q'.
Proof.
  intros Hwt Hq Hst Hstr. pose proof (stranded_not_ready b id c q Hstr) as Hnr. destruct Hstr as (Hb & Hr & Hc & Hn & Hs).
  destruct Hst as [q|q|w r s s' Hw Hi|a m d cl q Hcl Ha|a m d q HP].
  - done.
  - split_and!; cbn; try done; [lia|]. case_bool_decide; [|done]. rewrite not_elem_of_app, list_elem_of_singleton. split; [done | lia].
  - destruct (idle_queue w r s s' Hwt Hq Hw Hi) as (k & fin & sch & Hir & Hr' & Hs' & Hc' & Hn' & Hnow & _).
    split_and!; rewrite ?Hnow, ?Hr', ?Hn', ?Hs'; try done.
    + intros Hin. apply Hr. rewrite <- (take_drop fin (q_ready _)). apply elem_of_app. by right.
    + rewrite Hc', bool_decide_eq_false_2; [done|]. intros Hin. apply Hnr. rewrite <- (take_drop k (ready_queue _)). apply elem_of_app. by left.
    + intros b' Hb'. destruct (decide (b' ∈ q_ready (queue s))) as [Hin|Hin].
      * exfalso. apply Hnr. rewrite <- (take_drop fin (q_ready _)) in Hin. apply elem_of_app in Hin as [Hin|Hin].
        -- unfold claims_of, sget in Hb'. rewrite (ir_done _ _ _ _ _ Hir b' Hin) in Hb'. by apply not_elem_of_nil in Hb'.
        -- rewrite <- (take_drop k (ready_queue _)). apply elem_of_app. right. unfold ready_queue.
           rewrite <- (ir_queue _ _ _ _ _ Hir). apply elem_of_queued. eauto.
      * apply Hs. unfold claims_of, sget in *. by rewrite (ir_other _ _ _ _ _ Hir b' Hin) in Hb'.
  - split_and!; cbn; try done; [|lia|].
    + by rewrite lookup_insert_ne by lia.
    + intros b'. rewrite claims_of_insert. case_bool_decide; [|apply Hs]. subst b'.
      intros [?| ->%list_elem_of_singleton]%elem_of_app; [by apply Hs | lia].
  - done.
Qed.

(** A claim that is delayed by zero blocks, in a block without ready claims, is
    scheduled for the block whose start has already been processed: whatever
    happens next, it is never processed. For a withdrawal the payment has been
    taken. *)
Theorem zero_delay_strands_claim P c s : weights_ok -> queue_ok (queue s) -> claim_wf c ->
  0 <= block_number s <= umax U32 -> block_number s ∉ ReadyBlocks (peg s) -> NextDelayedClaimId (peg s) < umax U64 ->
  exists s1, delay_claim 0 c s = (Ok tt, s1) /\
    forall s2, rtc (step P) s1 s2 -> DelayedClaims (peg s2) !! NextDelayedClaimId (peg s) = Some c /\
      NextDelayedClaimId (peg s) ∉ ready_queue (queue s2).
Proof.
  intros Hwt Hq Hc Hnow Hr Hn. set (id := NextDelayedClaimId (peg s)) in *.
  assert (Hd : exists s1, delay_claim 0 c s = (Ok tt, s1) /\ queue s1 = delayed 0 c (queue s)).
  { destruct (delay_claim_ok 0 c s Hc) as (s1 & e & Hd & [[Hmax _]|Hq1] & _); [lia | by exists s1]. }
  destruct Hd as (s1 & Hd & Hq1). exists s1. split; [done|]. intros s2 Hrun.
  assert (Hstr : stranded (block_number s) id c (queue s1)).
  { rewrite Hq1. assert (Hblk : saturating_add U32 (q_now (queue s)) 0 = block_number s) by (unfold saturating_add; cbn; lia).
    split_and!; cbn; try done; [by rewrite lookup_insert_eq | fold id; lia|].
    intros b'. cbn in Hblk. rewrite Hblk, claims_of_insert. case_bool_decide; [done|]. intros Hin%(qo_next _ Hq). cbn in Hin. fold id in Hin. lia. }
  assert (Hq1' : queue_ok (queue s1)) by (rewrite Hq1; by apply delayed_ok).
  clear Hd Hq1. revert Hstr Hq1'. induction Hrun as [s2|s1 s3 s2 Hst _ IH]; intros Hstr Hq1.
  - split; [apply Hstr | by eapply stranded_not_ready].
  - apply step_queue in Hst. apply IH; [by eapply queue_step_stranded | by eapply queue_step_ok].
Qed.
End Theorems.
