(* ===== verification/Erc20PegBacking.v ===== *)
(** * The peg is backed

    Conservation across the bridge: for every asset that stands for an ERC-20
    token, what is issued here, what waits to be withdrawn and what has been
    proved to Ethereum never exceed the deposits that were verified. *)

From S2P Require Import Prelude Support GenericAssetTypes MultiCurrency Issuance EthAbi EthBridgeTypes Erc20Peg Erc20PegProps Erc20PegQueue.

(** The part of the state that holds value. *)
Record Books (L : Type) := mkBooks {
  k_e2a : gmap EthAddress AssetId;
  k_a2e : gmap AssetId EthAddress;
  k_claims : gmap ClaimId PendingClaim;
  k_next : ClaimId;
  k_events : list Event;
  k_ledger : L;
}.
Arguments mkBooks {L} _ _ _ _ _ _.
Arguments k_e2a {L} _.
Arguments k_a2e {L} _.
Arguments k_claims {L} _.
Arguments k_next {L} _.
Arguments k_events {L} _.
Arguments k_ledger {L} _.

Definition deposited_by (a : AssetId) (e : Event) : Z :=
  match e with Erc20Deposit _ b amount _ => if a =? b then amount else 0 | _ => 0 end.
Definition proven_by (a : AssetId) (e : Event) : Z :=
  match e with Erc20Withdraw _ b amount _ => if a =? b then amount else 0 | _ => 0 end.

Definition sum_of (f : Event -> Z) (l : list Event) : Z := foldr (fun e acc => f e + acc) 0 l.

Lemma sum_of_snoc f l e : sum_of f (l ++ [e]) = sum_of f l + f e.
Proof. unfold sum_of. induction l as [|x l IH]; simpl; lia. Qed.

(** Verified deposits and proved withdrawals of an asset. *)
Definition deposited (a : AssetId) (l : list Event) : Z := sum_of (deposited_by a) l.
Definition proven (a : AssetId) (l : list Event) : Z := sum_of (proven_by a) l.

Definition pending_by (e2a : gmap EthAddress AssetId) (a : AssetId) (_ : ClaimId) (c : PendingClaim) : Z :=
  match c with
  | Withdrawal m => if bool_decide (e2a !! wm_token_address m = Some a) then wm_amount m else 0
  | Deposit _ _ => 0
  end.

(** Delayed withdrawals of an asset. *)
Definition pending (a : AssetId) (e2a : gmap EthAddress AssetId) (claims : gmap ClaimId PendingClaim) : Z :=
  msum (pending_by e2a a) claims.

#[local] Arguments deposited : simpl never.
#[local] Arguments proven : simpl never.
#[local] Arguments pending : simpl never.

Definition single (a : AssetId) (v : Z) (b : AssetId) : Z := if a =? b then v else 0.

Section Backing.
Context {L : Type} {currency : MultiCurrency L} {laws : MultiCurrencyIssuance L}.
Implicit Types k : Books L.

(** The token maps agree, and the books of every bridged asset balance with
    [x] to spare. *)
Record backed (x : AssetId -> Z) k : Prop := {
  bk_ok : iss_ok (k_ledger k);
  bk_known : forall t a, k_e2a k !! t = Some a -> cur_known a (k_ledger k);
  bk_inverse : forall a t, k_a2e k !! a = Some t -> k_e2a k !! t = Some a;
  bk_staking : k_a2e k !! cur_staking_currency (k_ledger k) = None;
  bk_wf : forall id c, k_claims k !! id = Some c -> claim_wf c /\ id < k_next k;
  bk_pending : forall id m, k_claims k !! id = Some (Withdrawal m) -> exists a, k_a2e k !! a = Some (wm_token_address m);
  bk_deposited : forall a, 0 <= deposited a (k_events k);
  bk_proven : forall a, ~ cur_known a (k_ledger k) -> proven a (k_events k) = 0;
  bk_backed : forall a t, k_a2e k !! a = Some t ->
    cur_issuance a (k_ledger k) + pending a (k_e2a k) (k_claims k) + proven a (k_events k) + x a <= deposited a (k_events k);
}.

Lemma backed_le x x' k : (forall a, x' a <= x a) -> backed x k -> backed x' k.
Proof. intros Hx []. constructor; try done. intros a t Ha. specialize (Hx a). specialize (bk_backed0 a t Ha). lia. Qed.

Definition with_events f k : Books L := mkBooks (k_e2a k) (k_a2e k) (k_claims k) (k_next k) (f (k_events k)) (k_ledger k).
Definition with_ledger (l : L) k : Books L := mkBooks (k_e2a k) (k_a2e k) (k_claims k) (k_next k) (k_events k) l.
Definition with_claims f k : Books L := mkBooks (k_e2a k) (k_a2e k) (f (k_claims k)) (k_next k) (k_events k) (k_ledger k).

(** ** Events *)
Lemma backed_passive x k e : passive e -> backed x k -> backed x (with_events (fun l => l ++ [e]) k).
Proof.
  intros He []. assert (Hd : forall a, deposited a (k_events k ++ [e]) = deposited a (k_events k)).
  { intros a. unfold deposited. rewrite sum_of_snoc. destruct e; simpl; lia || done. }
  assert (Hp : forall a, proven a (k_events k ++ [e]) = proven a (k_events k)).
  { intros a. unfold proven. rewrite sum_of_snoc. destruct e; simpl; lia || done. }
  constructor; cbn; try done.
  - intros a. by rewrite Hd.
  - intros a. by rewrite Hp; apply bk_proven0.
  - intros a t Ha. rewrite Hd, Hp. eauto.
Qed.

Lemma backed_deposit x k id a v w : 0 <= v -> backed x k ->
  backed (fun b => x b + single a v b) (with_events (fun l => l ++ [Erc20Deposit id a v w]) k).
Proof.
  intros Hv []. assert (Hd : forall b, deposited b (k_events k ++ [Erc20Deposit id a v w]) = deposited b (k_events k) + single a v b).
  { intros b. unfold deposited, single. rewrite sum_of_snoc. simpl. by rewrite Z.eqb_sym. }
  assert (Hp : forall b, proven b (k_events k ++ [Erc20Deposit id a v w]) = proven b (k_events k)).
  { intros b. unfold proven. rewrite sum_of_snoc. simpl. lia. }
  constructor; cbn; try done.
  - intros b. rewrite Hd. specialize (bk_deposited0 b). unfold single. case_match; lia.
  - intros b. rewrite Hp. apply bk_proven0.
  - intros b t Hb. rewrite Hd, Hp. specialize (bk_backed0 b t Hb). lia.
Qed.

Lemma backed_prove x k id a v w : cur_known a (k_ledger k) -> backed x k ->
  backed (fun b => x b - single a v b) (with_events (fun l => l ++ [Erc20Withdraw id a v w]) k).
Proof.
  intros Ha []. assert (Hd : forall b, deposited b (k_events k ++ [Erc20Withdraw id a v w]) = deposited b (k_events k)).
  { intros b. unfold deposited. rewrite sum_of_snoc. simpl. lia. }
  assert (Hp : forall b, proven b (k_events k ++ [Erc20Withdraw id a v w]) = proven b (k_events k) + single a v b).
  { intros b. unfold proven, single. rewrite sum_of_snoc. simpl. by rewrite Z.eqb_sym. }
  constructor; cbn; try done.
  - intros b. rewrite Hd. apply bk_deposited0.
  - intros b Hb. rewrite Hp, bk_proven0 by done. unfold single. destruct (Z.eqb_spec a b) as [->|]; done.
  - intros b t Hb. rewrite Hd, Hp. specialize (bk_backed0 b t Hb). lia.
Qed.

(** ** Claims *)
Lemma backed_claim x k c : claim_wf c -> backed x k ->
  match c with
  | Deposit _ _ => backed x (mkBooks (k_e2a k) (k_a2e k) (<[k_next k := c]> (k_claims k)) (k_next k + 1) (k_events k) (k_ledger k))
  | Withdrawal m => forall a, k_a2e k !! a = Some (wm_token_address m) ->
      backed (fun b => x b - single a (wm_amount m) b)
        (mkBooks (k_e2a k) (k_a2e k) (<[k_next k := c]> (k_claims k)) (k_next k + 1) (k_events k) (k_ledger k))
  end.
Proof.
  intros Hc [Hok Hkn Hinv Hst Hwf Hpd Hdp Hpr Hbk].
  assert (Hfresh : k_claims k !! k_next k = None).
  { destruct (k_claims k !! k_next k) as [c'|] eqn:E; [|done]. apply Hwf in E. lia. }
  assert (Hwf' : forall id c', <[k_next k := c]> (k_claims k) !! id = Some c' -> claim_wf c' /\ id < k_next k + 1).
  { intros id c' [[<- <-]|[_ [? ?]%Hwf]]%lookup_insert_Some; split; (done || lia). }
  assert (Hsum : forall b, pending b (k_e2a k) (<[k_next k := c]> (k_claims k)) = pending_by (k_e2a k) b (k_next k) c + pending b (k_e2a k) (k_claims k)).
  { intros b. unfold pending. by rewrite msum_insert_fresh. }
  destruct c as [claim tx|m].
  - constructor; cbn; try done.
    + intros id m [[_ ?]|[_ ?]]%lookup_insert_Some; [done | eauto].
    + intros b t Hb. rewrite Hsum. simpl. specialize (Hbk b t Hb). lia.
  - intros a Ha. constructor; cbn; try done.
    + intros id m' [[_ [= <-]]|[_ ?]]%lookup_insert_Some; eauto.
    + intros b t Hb. rewrite Hsum. simpl. rewrite (Hinv _ _ Ha). specialize (Hbk b t Hb). unfold single.
      destruct (Z.eqb_spec a b) as [->|Hne]; [rewrite bool_decide_eq_true_2 by done; lia|].
      rewrite bool_decide_eq_false_2 by congruence. lia.
Qed.

Lemma backed_take x k id : backed x k ->
  match k_claims k !! id with
  | Some (Withdrawal m) => exists a, k_e2a k !! wm_token_address m = Some a /\ cur_known a (k_ledger k) /\
      backed (fun b => x b + single a (wm_amount m) b) (with_claims (delete id) k)
  | _ => backed x (with_claims (delete id) k)
  end.
Proof.
  intros [Hok Hkn Hinv Hst Hwf Hpd Hdp Hpr Hbk].
  assert (Hwf' : forall i c', delete id (k_claims k) !! i = Some c' -> claim_wf c' /\ i < k_next k).
  { intros i c' [_ ?]%lookup_delete_Some. eauto. }
  assert (Hpd' : forall i m, delete id (k_claims k) !! i = Some (Withdrawal m) -> exists a, k_a2e k !! a = Some (wm_token_address m)).
  { intros i m [_ ?]%lookup_delete_Some. eauto. }
  assert (Hsum : forall b, pending b (k_e2a k) (delete id (k_claims k)) = pending b (k_e2a k) (k_claims k) - mval (pending_by (k_e2a k) b) id (k_claims k)).
  { intros b. unfold pending. apply msum_delete. }
  unfold mval in Hsum. destruct (k_claims k !! id) as [[claim tx|m]|] eqn:Hc.
  - constructor; cbn; try done. intros b t Hb. rewrite Hsum. simpl. specialize (Hbk b t Hb). lia.
  - destruct (Hpd id m Hc) as [a Ha]. apply Hinv in Ha as Ha'. exists a. split_and!; [done | eauto|]. constructor; cbn; try done.
    intros b t Hb. rewrite Hsum. simpl. rewrite Ha'. specialize (Hbk b t Hb). unfold single.
    destruct (Z.eqb_spec a b) as [->|Hne]; [rewrite bool_decide_eq_true_2 by done; lia|].
    rewrite bool_decide_eq_false_2 by congruence. lia.
  - constructor; cbn; try done. intros b t Hb. rewrite Hsum. specialize (Hbk b t Hb). lia.
Qed.

(** ** The ledger *)
Lemma backed_ledger x x' k l' : backed x k -> iss_ok l' -> (forall a, cur_known a (k_ledger k) -> cur_known a l') ->
  cur_staking_currency l' = cur_staking_currency (k_ledger k) ->
  (forall a t, k_a2e k !! a = Some t -> cur_issuance a l' + x' a <= cur_issuance a (k_ledger k) + x a) ->
  backed x' (with_ledger l' k).
Proof.
  intros [] Hok Hkn Hst Hx. constructor; cbn; try done; try rewrite Hst; eauto.
  intros a t Ha. specialize (Hx a t Ha). specialize (bk_backed0 a t Ha). lia.
Qed.

(** A new asset for a token seen first. *)
Lemma backed_create k t a l' : backed (fun _ => 0) k -> k_e2a k !! t = None -> iss_ok l' ->
  ~ cur_known a (k_ledger k) -> cur_known a l' -> cur_issuance a l' = 0 ->
  (forall b, cur_known b (k_ledger k) -> cur_known b l' /\ cur_issuance b l' = cur_issuance b (k_ledger k)) ->
  cur_staking_currency l' = cur_staking_currency (k_ledger k) ->
  backed (fun _ => 0) (mkBooks (<[t := a]> (k_e2a k)) (<[a := t]> (k_a2e k)) (k_claims k) (k_next k) (k_events k) l').
Proof.
  intros [Hok Hkn Hinv Hst Hwf Hpd Hdp Hpr Hbk] Ht Hl' Hnew Hknew Hz Hold Hsc.
  assert (Ha2e : forall b t', k_a2e k !! b = Some t' -> t' <> t /\ cur_known b (k_ledger k)).
  { intros b t' Hb%Hinv. split; [|eauto]. intros ->. by rewrite Ht in Hb. }
  assert (Hpend : forall b, pending b (<[t := a]> (k_e2a k)) (k_claims k) = pending b (k_e2a k) (k_claims k)).
  { intros b. unfold pending. apply msum_ext. intros id [|m] Hc; [done|]. simpl.
    destruct (Hpd id m Hc) as [b' Hb']. destruct (Ha2e b' _ Hb') as [Hne _]. by rewrite lookup_insert_ne by congruence. }
  constructor; cbn; try done.
  - intros t' b [[_ <-]|[_ Hb]]%lookup_insert_Some; [done|]. apply Hold. eauto.
  - intros b t' [[<- <-]|[Hne Hb]]%lookup_insert_Some; [apply lookup_insert_eq|]. rewrite lookup_insert_ne; [eauto|].
    intros <-. by destruct (Ha2e b t Hb).
  - rewrite Hsc, lookup_insert_ne; [done|]. intros ->. by apply Hnew, iss_staking_known.
  - intros id m Hm. destruct (Hpd id m Hm) as [b Hb]. exists b. rewrite lookup_insert_ne; [done|]. intros <-. by destruct (Ha2e a _ Hb).
  - intros b Hb. apply Hpr. intros Hk. by apply Hb, Hold.
  - intros b t' Hb. rewrite Hpend. apply lookup_insert_Some in Hb as [[<- <-]|[Hne Hb]].
    + rewrite Hz, (Hpr a Hnew). unfold pending. rewrite msum_zero; [pose proof (Hdp a); lia|].
      intros id [|m] Hm; [done|]. simpl. case_bool_decide as E; [|done]. by destruct Hnew; eauto.
    + destruct (Hold b) as [_ ->]; [by apply Ha2e in Hb as [_ ?]|]. eauto.
Qed.
End Backing.

Section Operations.
Context {B L : Type} {bridge_ops : EventClaimVerifier B} {currency : MultiCurrency L} {config : PegConfig}.
Context {laws : MultiCurrencyIssuance L}.
Abbreviation St := (State B L).
Implicit Types s : St.

Definition books s : Books L :=
  mkBooks (Erc20ToAssetId (peg s)) (AssetIdToErc20 (peg s)) (DelayedClaims (peg s)) (NextDelayedClaimId (peg s))
    (peg_events (peg s)) (ledger s).

Definition sound s : Prop := backed (fun _ => 0) (books s).

Definition holds (x : AssetId -> Z) s : Prop := backed x (books s).

Lemma single_nonneg a v b : 0 <= v -> 0 <= single a v b.
Proof. unfold single. case_match; lia. Qed.

Lemma sound_write f : (forall s, books (on_peg f s) = books s) -> preserves sound (write f).
Proof. intros Hf s Hs. unfold sound. cbn. by rewrite Hf. Qed.

Lemma holds_event x e : passive e -> preserves (holds x) (deposit_event e).
Proof. intros He s Hs. exact (backed_passive x (books s) e He Hs). Qed.

Lemma process_deposit_claim_holds x claim tx : preserves (holds x) (process_deposit_claim claim tx).
Proof.
  intros s Hs. unfold process_deposit_claim, bind, gets, attempt, on_bridge, unwrap, ret, panic.
  destruct (cl_submit_event_claim _ _ _ _ _) as [[id|e|] b']; [..|done]; (destruct (decode_account _); [|done]).
  - exact (backed_passive x (books s) (Erc20Claim _ _) I Hs).
  - exact (backed_passive x (books s) (DelayedErc20DepositFailed _ _) I Hs).
Qed.

Lemma process_withdrawal_holds x m a s : 0 <= wm_amount m -> cur_known a (ledger s) ->
  holds (fun b => x b + single a (wm_amount m) b) s -> holds x (snd (process_withdrawal m a s)).
Proof.
  intros Hm Ha Hs. assert (Hle : holds x s).
  { eapply backed_le, Hs. intros b. cbv beta. pose proof (single_nonneg a (wm_amount m) b Hm). lia. }
  unfold process_withdrawal, as_u128. destruct (_ <=? _); [|done]. unfold bind, ret, attempt, on_bridge.
  destruct (cl_generate_event_proof _ _) as [[id|e|] b']; [| |done].
  - refine (backed_le _ x _ _ (backed_prove _ (books s) id a (wm_amount m) (wm_beneficiary m) Ha Hs)). intros b. cbv beta. lia.
  - exact (backed_passive x (books s) (DelayedErc20WithdrawalFailed _ _) I Hle).
Qed.

(** A payment takes the amount out of the issuance. *)
Lemma payment_holds who a t v s : AssetIdToErc20 (peg s) !! a = Some t -> 0 <= v -> sound s ->
  match process_withdrawal_payment who a v s with
  | (Ok _, s') => holds (single a v) s' /\ peg s' = peg s /\ cur_known a (ledger s')
  | (_, s') => s' = s
  end.
Proof.
  intros Ha Hv Hs. unfold process_withdrawal_payment, bind at 1, gets.
  destruct (Z.eqb_spec a (cur_staking_currency (ledger s))) as [->|Hne].
  { pose proof (bk_staking _ _ Hs) as Hst. cbn in Hst. congruence. }
  unfold bind, on_ledger. pose proof (iss_burn (ledger s) who a v WithdrawReasons.TRANSFER KeepAlive (bk_ok _ _ Hs) Hv) as Hb.
  destruct (cur_withdraw _ _ _ _ _ _) as [[n|e|] l1]; [|by subst; destruct s|done]. cbn in Hb |- *.
  destruct Hb as (Hok & _ & _ & Hkn & Hiss & Hst). split_and!; [|done|].
  - refine (backed_ledger _ _ (books s) _ Hs Hok Hkn Hst _). intros b tb Hb. rewrite (Hiss b). unfold single. cbn. destruct (a =? b); lia.
  - cbn. apply Hkn, (bk_known _ _ Hs t), (bk_inverse _ _ Hs), Ha.
Qed.

Lemma delay_claim_holds x d c s : claim_wf c ->
  match c with
  | Deposit _ _ => holds x s
  | Withdrawal m => exists a, AssetIdToErc20 (peg s) !! a = Some (wm_token_address m) /\
      holds (fun b => x b + single a (wm_amount m) b) s
  end -> holds x (snd (delay_claim d c s)).
Proof.
  intros Hc Hs. destruct (delay_claim_ok d c s Hc) as (s' & e & -> & Hq & Hr & He & Hev). cbn [snd].
  unfold rest in Hr. simplify_eq.
  assert (Hx : holds x s).
  { destruct c as [claim tx|m]; [done|]. destruct Hs as (a & _ & Hs). eapply backed_le, Hs. intros b. cbv beta.
    pose proof (single_nonneg a (wm_amount m) b (proj1 Hc)). lia. }
  destruct Hq as [[_ Hq]|Hq]; unfold queue, delayed in Hq; cbn in Hq; injection Hq; intros; unfold holds, books.
  - repeat match goal with H : _ = _ |- _ => rewrite H; clear H end. exact (backed_passive x (books s) e He Hx).
  - repeat match goal with H : _ = _ |- _ => rewrite H; clear H end.
    pose proof (backed_claim) as Hb.
    destruct c as [claim tx|m].
    + exact (backed_passive x _ e He (backed_claim x (books s) (Deposit claim tx) Hc Hx)).
    + destruct Hs as (a & Ha & Hs). refine (backed_passive x _ e He (backed_le _ x _ _ (backed_claim _ (books s) (Withdrawal m) Hc Hs a Ha))).
      intros b. cbv beta. lia.
Qed.

Lemma do_withdrawal_sound who a v to o : in_range BALANCE_BITS v -> preserves sound (do_withdrawal who a v to o).
Proof.
  intros Hv s Hs. unfold do_withdrawal, bind at 1, gets. destruct (WithdrawalsActive (peg s)); [|done].
  unfold ensure at 1, bind at 1, ret at 1. cbv iota. unfold bind at 1, ok_or.
  destruct (AssetIdToErc20 (peg s) !! a) as [t|] eqn:Ha; [|done]. unfold ret at 1. cbv iota zeta.
  set (message := {| wm_token_address := t; wm_amount := v; wm_beneficiary := to |}).
  pose proof (payment_holds who a t v s Ha (proj1 Hv) Hs) as Hpay.
  assert (Himm : sound (snd ((do* process_withdrawal_payment who a v in process_withdrawal message a) s))).
  { unfold bind. destruct (process_withdrawal_payment who a v s) as [[[]|e|] s1]; cbn; [|by subst..].
    destruct Hpay as (Hp & _ & Hk). apply process_withdrawal_holds; [apply Hv | done|].
    eapply backed_le, Hp. intros b. cbn. lia. }
  destruct (ClaimDelay (peg s) !! a) as [[mn d]|]; [|done]. destruct (mn <=? v); [|done]. destruct o; [|done].
  unfold bind. destruct (process_withdrawal_payment who a v s) as [[[]|e|] s1]; cbn [snd]; [|by subst..].
  destruct Hpay as (Hp & Hpeg & _). assert (Hd : holds (fun _ => 0) (snd (delay_claim d (Withdrawal message) s1))).
  { apply delay_claim_holds; [exact Hv|]. exists a. rewrite Hpeg. split; [done|]. eapply backed_le, Hp. intros b. cbn. lia. }
  by destruct (delay_claim d (Withdrawal message) s1) as [[]].
Qed.

Lemma process_claim_sound id : preserves sound (process_claim id).
Proof.
  intros s Hs. unfold process_claim, bind at 1, take_delayed, state. set (s1 := on_peg _ s).
  pose proof (backed_take _ (books s) id Hs) as Ht. cbn [books k_claims] in Ht.
  destruct (DelayedClaims (peg s) !! id) as [[claim tx|m]|] eqn:Hc; cbv iota.
  - by apply process_deposit_claim_holds.
  - destruct Ht as (a & Ha & Hk & Ht). unfold bind, gets. change (Erc20ToAssetId (peg s1)) with (Erc20ToAssetId (peg s)).
    cbn in Ha. rewrite Ha. unfold attempt.
    destruct (bk_wf _ _ Hs id (Withdrawal m) Hc) as [Hwf _].
    pose proof (process_withdrawal_holds (fun _ => 0) m a s1 (proj1 Hwf) Hk Ht) as Hw.
    by destruct (process_withdrawal m a s1) as [[]].
  - exact Ht.
Qed.

Lemma idle_blocks_sound m blocks c b : preserves sound (idle_blocks m blocks c b).
Proof.
  revert c b. induction blocks as [|block blocks IH]; intros c b; [by apply preserves_reader|]. simpl.
  apply preserves_bind; [by apply preserves_reader | intros ids]. apply preserves_bind; [by apply sound_write | intros _].
  apply preserves_bind; [destruct (_ <? _)%nat; [by apply sound_write | by apply preserves_reader] | intros _].
  apply preserves_bind; [apply preserves_for_each; intros; apply process_claim_sound | intros _]. apply preserves_if; [by apply preserves_reader | apply IH].
Qed.

Lemma on_idle_sound w : preserves sound (on_idle w).
Proof.
  unfold on_idle. apply preserves_if; [by apply preserves_reader|]. apply preserves_bind; [by apply preserves_reader | intros blocks].
  destruct blocks; [by apply preserves_reader|]. apply preserves_if; [by apply preserves_reader|]. apply preserves_bind; [apply idle_blocks_sound | intros [c k]].
  apply preserves_bind; [|by intros; apply preserves_reader]. apply preserves_if; [by apply preserves_reader | by apply sound_write].
Qed.

Lemma dispatch_sound c origin : call_ok c -> preserves sound (dispatch c origin).
Proof.
  intros Hc. destruct c; cbn [dispatch].
  1,2: apply preserves_bind; [apply preserves_reader; auto with dispatch | intros _; by apply sound_write].
  - apply preserves_transactional. apply preserves_bind; [apply preserves_reader; auto with dispatch | intros who]. intros s Hs. unfold bind at 1, gets.
    destruct (DepositsActive (peg s)); [|done]. unfold ensure at 1, bind at 1, ret at 1. cbv iota.
    destruct (Z.ltb_spec (dep_amount claim) (umax 128)); [|done]. unfold ensure at 1, bind at 1, ret at 1. cbv iota.
    case_bool_decide as Hd; [|done]. unfold ensure at 1, bind at 1, ret at 1. cbv iota.
    pose proof (process_deposit_claim_holds _ claim tx_hash s Hs).
    destruct (_ ≫= _) as [[m d]|]; [|done]. destruct (m <=? dep_amount claim); [|done].
    apply (delay_claim_holds (fun _ => 0)); [|done]. split; [|done]. split; [apply Hc | done].
  - apply preserves_transactional. apply preserves_bind; [apply preserves_reader; auto with dispatch | intros who].
    apply preserves_bind; [by apply do_withdrawal_sound | by intros; apply preserves_reader].
  - apply preserves_transactional. apply preserves_bind; [apply preserves_reader; auto with dispatch | intros _].
    apply preserves_bind; [by apply sound_write | intros _; by apply holds_event].
  - apply preserves_transactional. apply preserves_bind; [apply preserves_reader; auto with dispatch | intros _].
    apply preserves_bind; [by apply sound_write | intros _; by apply holds_event].
  - apply preserves_bind; [apply preserves_reader; auto with dispatch | intros _]. apply preserves_for_each. intros [[a sym] dec] _. by apply sound_write.
  - apply preserves_bind; [apply preserves_reader; auto with dispatch | intros _].
    apply preserves_bind; [by apply sound_write | intros _; by apply holds_event].
Qed.

(** ** Deposits *)
Lemma asset_of_sound t s : sound s ->
  match asset_of t s with
  | (Ok a, s') => sound s' /\ Erc20ToAssetId (peg s') !! t = Some a /\
      (Erc20ToAssetId (peg s) !! t = Some a /\ s' = s \/ cur_issuance a (ledger s') = 0)
  | (Err _, s') => s' = s
  | (Panic, _) => False
  end.
Proof.
  intros Hs. unfold asset_of, bind at 1, gets. destruct (Erc20ToAssetId (peg s) !! t) as [a|] eqn:Ht; [by split_and!; [..|left]|].
  destruct (default ([], 18) (Erc20Meta (peg s) !! t)) as [symbol decimals]. unfold bind at 1, attempt, on_ledger.
  pose proof (iss_create (ledger s) peg_account decimals symbol (bk_ok _ _ Hs)) as Hc.
  destruct (cur_create peg_account 0 decimals 1 symbol (ledger s)) as [[a|e|] l']; [|by subst; destruct s|done].
  destruct Hc as (Hok & Hnew & Hknew & Hz & Hold & Hst). unfold bind, write, modify, ret. split_and!.
  - exact (backed_create (books s) t a l' Hs Ht Hok Hnew Hknew Hz Hold Hst).
  - cbn. apply lookup_insert_eq.
  - by right.
Qed.

Lemma mint_holds w a v s : sound s -> cur_known a (ledger s) -> 0 <= v -> cur_issuance a (ledger s) + v <= MAX_BALANCE ->
  exists s', mint_deposit w a v s = (Ok tt, s') /\ holds (fun b => - single a v b) s'.
Proof.
  intros Hs Ha Hv Hmax. unfold mint_deposit, bind, on_ledger, state. cbn.
  pose proof (iss_mint (ledger s) w a v (bk_ok _ _ Hs) Ha Hv Hmax) as Hm.
  destruct (cur_deposit_creating w a v (ledger s)) as [p l1]. destruct Hm as (Hok & _ & Hkn & Hiss & Hst). eexists. split; [done|].
  refine (backed_ledger _ _ (books s) _ Hs Hok Hkn Hst _). intros b t Hb. cbn. rewrite (Hiss b). unfold single. destruct (a =? b); lia.
Qed.

Lemma transfer_sound from to a v : 0 <= v -> preserves sound (on_ledger (cur_transfer from to a v KeepAlive)).
Proof.
  intros Hv s Hs. unfold on_ledger. pose proof (iss_transfer (ledger s) from to a v KeepAlive (bk_ok _ _ Hs) Hv) as Ht.
  destruct (cur_transfer _ _ _ _ _ _) as [[u|e|] l']; [|by subst; destruct s|done]. destruct Ht as (Hok & Hkn & Hiss & Hst).
  refine (backed_ledger _ _ (books s) _ Hs Hok Hkn Hst _). intros b t Hb. cbn. rewrite (Hiss b). lia.
Qed.

(** A verified deposit leaves room in the issuance of its asset. *)
Definition fits (deposit : Erc20DepositEvent) s : Prop :=
  forall a, Erc20ToAssetId (peg s) !! dep_token_address deposit = Some a ->
    cur_issuance a (ledger s) + dep_amount deposit <= MAX_BALANCE.

Lemma do_deposit_holds deposit s : 0 <= dep_amount deposit -> fits deposit s -> sound s ->
  match do_deposit deposit s with
  | (Ok (a, v, w), s') => 0 <= v /\ holds (fun b => - single a v b) s'
  | (Err _, s') => s' = s
  | (Panic, _) => True
  end.
Proof.
  intros Hv Hfit Hs. unfold do_deposit, bind at 1. pose proof (asset_of_sound (dep_token_address deposit) s Hs) as Ha.
  destruct (asset_of _ s) as [[a|e|] s1]; [|done..]. destruct Ha as (Hs1 & Ht & Hold).
  destruct (decode_account (dep_beneficiary deposit)) as [w|]; [|done]. unfold unwrap, bind at 1, ret at 1. cbv iota.
  unfold as_u128. destruct (Z.leb_spec (dep_amount deposit) (umax 128)) as [Hmax|]; [|done].
  unfold bind at 1, ret at 1. cbv iota. unfold bind at 1, gets.
  assert (Hle : cur_issuance a (ledger s1) + dep_amount deposit <= MAX_BALANCE).
  { destruct Hold as [[Ha ->]|Hz]; [by apply Hfit|]. rewrite Hz. exact Hmax. }
  destruct (_ && _).
  - unfold bind, attempt. pose proof (transfer_sound peg_account w a (dep_amount deposit) Hv s1 Hs1) as Htr.
    destruct (on_ledger _ s1) as [[u|e|] s2]; cbn in Htr |- *; [..|done]; (split; [done|]);
      (eapply backed_le, Htr; intros b; cbv beta; pose proof (single_nonneg a (dep_amount deposit) b Hv); lia).
  - unfold bind. destruct (mint_holds w a (dep_amount deposit) s1 Hs1 (bk_known _ _ Hs1 _ a Ht) Hv Hle) as (s2 & -> & H2).
    by cbn.
Qed.

Lemma on_success_sound id a t d s : Forall is_byte d ->
  (forall deposit, decode_Erc20DepositEvent d = Some deposit -> fits deposit s) -> sound s -> sound (snd (on_success id a t d s)).
Proof.
  intros Hd Hfit Hs. unfold on_success, bind at 1, gets. destruct (is_deposit_event _ _ _); [|done].
  destruct (decode_Erc20DepositEvent d) as [deposit|] eqn:Hdec; [|done].
  destruct (decode_deposit_inv d deposit Hd Hdec) as [(_ & Hrange & _) _].
  pose proof (do_deposit_holds deposit s (proj1 Hrange) (Hfit deposit eq_refl) Hs) as Hdep.
  unfold bind, attempt. destruct (do_deposit deposit s) as [[[[b v] w]|e|] s1] eqn:Hdo.
  - destruct Hdep as [Hv Hh]. refine (backed_le _ _ _ _ (backed_deposit _ (books s1) id b v w Hv Hh)). intros c. cbv beta. lia.
  - subst s1. exact (backed_passive _ (books s) (Erc20DepositFail id) I Hs).
  - cbn. revert Hdo. unfold do_deposit, bind at 1. pose proof (asset_of_sound (dep_token_address deposit) s Hs) as Ha.
    destruct (asset_of _ s) as [[c|e|] s2]; [|done..]. destruct Ha as (Hs2 & _).
    destruct (decode_account (dep_beneficiary deposit)) as [w|]; [|by intros [= <-]]. unfold unwrap, bind at 1, ret at 1. cbv iota.
    unfold as_u128. destruct (_ <=? _); [|by intros [= <-]]. unfold bind at 1, ret at 1. cbv iota. unfold bind at 1, gets.
    destruct (_ && _); unfold bind, attempt.
    + pose proof (transfer_sound peg_account w c (dep_amount deposit) (proj1 Hrange) s2 Hs2) as Htr.
      destruct (on_ledger _ s2) as [[u|e|] s3]; cbn in Htr |- *; [done..|]. by intros [= <-].
    + unfold mint_deposit, bind, on_ledger, state. cbn. by destruct (cur_deposit_creating _ _ _ _).
Qed.

(** ** Runs *)

(** A step of the peg, or a step of the rest of the runtime that issues no
    bridged asset. *)
Inductive bstep : St -> St -> Prop :=
| bs_block p b l n s' : on_initialize (n + 1) (mkState p b l (n + 1)) = (Ok tt, s') -> bstep (mkState p b l n) s'
| bs_idle w s : bstep s (snd (on_idle w s))
| bs_call c origin s : call_ok c -> bstep s (snd (dispatch c origin s))
| bs_evm who a v to s : in_range BALANCE_BITS v -> bstep s (snd (do_withdrawal who a v to Evm s))
| bs_success id a t d s : Forall is_byte d -> (forall deposit, decode_Erc20DepositEvent d = Some deposit -> fits deposit s) ->
    bstep s (snd (on_success id a t d s))
| bs_failure id a t d s : bstep s (snd (on_failure id a t d s))
| bs_other p b b' l l' n : iss_ok l' -> (forall a, cur_known a l -> cur_known a l') ->
    cur_staking_currency l' = cur_staking_currency l ->
    (forall a, is_Some (AssetIdToErc20 p !! a) -> cur_issuance a l' <= cur_issuance a l) ->
    bstep (mkState p b l n) (mkState p b' l' n).

Lemma bstep_sound s s' : bstep s s' -> sound s -> sound s'.
Proof.
  intros Hst. destruct Hst; intros Hs.
  - revert H. unfold on_initialize, bind, gets. cbn. case_match; by intros [= <-].
  - by apply on_idle_sound.
  - by apply dispatch_sound.
  - by apply do_withdrawal_sound.
  - by apply on_success_sound.
  - unfold on_failure, bind, gets. destruct (is_deposit_event _ _ _); [|done]. exact (holds_event _ (Erc20DepositFail id) I s Hs).
  - refine (backed_ledger _ _ (books (mkState p b l n)) l' Hs H H0 H1 _). intros a t Ha. cbn.
    specialize (H2 a ltac:(eauto)). lia.
Qed.

(** A peg that has not bridged anything; tokens known from the start belong to
    assets that exist. *)
Definition started s : Prop :=
  iss_ok (ledger s) /\ AssetIdToErc20 (peg s) = ∅ /\ DelayedClaims (peg s) = ∅ /\ peg_events (peg s) = [] /\
  forall t a, Erc20ToAssetId (peg s) !! t = Some a -> cur_known a (ledger s).

Lemma started_sound s : started s -> sound s.
Proof.
  intros (Hok & Ha & Hd & He & Hk). constructor; cbn; rewrite ?Ha, ?Hd, ?He; try done.
Qed.

Lemma run_sound s0 s : started s0 -> rtc bstep s0 s -> sound s.
Proof.
  intros Hs0 Hrun. assert (Hs : sound s0) by by apply started_sound. clear Hs0.
  induction Hrun as [|s1 s2 s3 Hst _ IH]; [done|]. by eapply IH, bstep_sound.
Qed.

(** C4: at every point of every run, for every asset that stands for an ERC-20
    token: the issuance, the withdrawals that wait and the withdrawals proved
    to Ethereum together are covered by the verified deposits. *)
Theorem peg_backed s0 s a t : started s0 -> rtc bstep s0 s -> AssetIdToErc20 (peg s) !! a = Some t ->
  cur_issuance a (ledger s) + pending a (Erc20ToAssetId (peg s)) (DelayedClaims (peg s)) + proven a (peg_events (peg s)) <=
  deposited a (peg_events (peg s)).
Proof. intros Hs0 Hrun Ha. pose proof (bk_backed _ _ (run_sound s0 s Hs0 Hrun) a t Ha) as Hb. cbn in Hb. lia. Qed.

(** Deposits of the staking asset can be claimed, but no withdrawal of it ever
    succeeds: its token is registered in one direction only. *)
Theorem staking_withdrawals_unsupported s0 s who v to o : started s0 -> rtc bstep s0 s ->
  do_withdrawal who (cur_staking_currency (ledger s)) v to o s =
    (Err (Erc20Peg (if WithdrawalsActive (peg s) then PegError.UnsupportedAsset else PegError.WithdrawalsPaused)), s).
Proof.
  intros Hs0 Hrun. pose proof (bk_staking _ _ (run_sound s0 s Hs0 Hrun)) as Hst. cbn in Hst.
  unfold do_withdrawal, bind at 1, gets. destruct (WithdrawalsActive (peg s)); [|done].
  unfold ensure at 1, bind at 1, ret at 1. cbv iota. unfold bind at 1, ok_or. by rewrite Hst.
Qed.

(** The genesis build yields such a peg. *)
Lemma genesis_started erc20s s : iss_ok (ledger s) -> AssetIdToErc20 (peg s) = ∅ -> DelayedClaims (peg s) = ∅ ->
  peg_events (peg s) = [] -> Erc20ToAssetId (peg s) = ∅ ->
  exists s', genesis_build erc20s s = (Ok tt, s') /\ started s'.
Proof.
  intros Hok Ha Hd He Hk. assert (Hst : started s) by (split_and!; try done; by rewrite Hk).
  clear Ha Hd He Hk. unfold genesis_build, bind at 1, gets. set (c := cur_staking_currency (ledger s)).
  assert (Hc : cur_known c (ledger s)) by by apply iss_staking_known. clearbody c. clear Hok. revert s Hst Hc.
  induction erc20s as [|[[address symbol] decimals] l IH]; intros s Hst Hc; [by exists s|].
  simpl. unfold bind, write, modify, ret. case_bool_decide; cbn; apply IH; try done.
  destruct Hst as (H1 & H2 & H3 & H4 & H5). split_and!; try done. cbn.
  intros t a [[_ <-]|[_ ?]]%lookup_insert_Some; eauto.
Qed.
End Operations.
