(* ===== verification/Erc20PegRuntime.v ===== *)
(** * The peg on the bridge and the ledger

    The runtime wires the three pallets: the peg calls the bridge through
    [EventClaimVerifier], the bridge calls the peg as its [EventClaimSubscriber]
    ([Subscribers = Erc20Peg] in [src/runtime/src/lib.rs]), and both use the
    generic asset pallet. This file connects the models, proves the effect of a
    notarized deposit and of a withdrawal across the three of them, and runs the
    whole on concrete storage. *)

From S2P Require Import Prelude Support GenericAssetTypes GenericAsset GenericAssetInv MultiCurrency Issuance.
From S2P Require Import EthAbi EthBridgeTypes EthBridge EthBridgeProps EthBridgeTheorems EthBridgeSafety.
From S2P Require Import Erc20Peg Erc20PegProps Erc20PegQueue Erc20PegTheorems Erc20PegBacking.

Abbreviation BridgeState := EthBridgeTypes.State.
Abbreviation PegState := Erc20Peg.State.

(** ** The bridge serves the peg *)
Section Verifier.
Context {W : Type}.

#[export] Instance bridge_verifier : EventClaimVerifier (BridgeState W) := {|
  cl_submit_event_claim := submit_event_claim;
  cl_generate_event_proof := generate_event_proof;
|}.

Lemma submit_total a t h d (b : BridgeState W) : fst (submit_event_claim a t h d b) <> Panic.
Proof. rewrite submit_event_claim_eq. by repeat case_match. Qed.

Lemma generate_total e (b : BridgeState W) : fst (generate_event_proof e b) <> Panic.
Proof. unfold generate_event_proof, bind, gets. by destruct (BridgePaused _). Qed.

#[export] Instance bridge_verifier_laws : VerifierLaws (BridgeState W) := {|
  submit_no_panic := submit_total;
  generate_no_panic := generate_total;
|}.
End Verifier.

(** ** Withdrawals on the running bridge *)
Section Withdraw.
Context {W L : Type} {currency : MultiCurrency L} {laws : MultiCurrencyIssuance L} {config : PegConfig}.
Abbreviation St := (PegState (BridgeState W) L).
Implicit Types s : St.

(** The message the notaries are asked to sign for a withdrawal. *)
Definition signing_request (m : WithdrawMessage) (n : NotaryStore) : ConsensusLog :=
  OpaqueSigningRequest (encode_WithdrawMessage m ++ encode_u64 (NotarySetId n) ++ encode_u64 (NextProofId n)) (NextProofId n).

(** C21: a withdrawal of a registered asset other than CENNZ, below the delay,
    with withdrawals active and the bridge running, burns the amount: it is taken
    from the sender and out of the issuance.  It asks the notaries to sign exactly
    this withdrawal under a fresh proof id, and records its digest; when the
    sender cannot pay nothing changes. *)
Theorem withdrawal_burns_and_proves who a v to t s : iss_ok (ledger s) -> in_range BALANCE_BITS v ->
  WithdrawalsActive (peg s) = true -> AssetIdToErc20 (peg s) !! a = Some t -> a <> cur_staking_currency (ledger s) ->
  (forall m d, ClaimDelay (peg s) !! a = Some (m, d) -> v < m) -> BridgePaused (notaries (bridge s)) = false ->
  let n := notaries (bridge s) in
  let message := {| wm_token_address := t; wm_amount := v; wm_beneficiary := to |} in
  match withdraw (Signed who) a v to s with
  | (Ok _, s') =>
      v <= cur_free_balance who a (ledger s) /\ cur_free_balance who a (ledger s') = cur_free_balance who a (ledger s) - v /\
      cur_issuance a (ledger s') = cur_issuance a (ledger s) - v /\
      digest (notaries (bridge s')) = digest n ++ [signing_request message n] /\
      NextProofId (notaries (bridge s')) = wrapping_add U64 (NextProofId n) 1 /\
      WithdrawalDigests (peg s') !! NextProofId n = Some (peg_hash (encode_withdrawal message (NextProofId n))) /\
      peg_events (peg s') = peg_events (peg s) ++ [Erc20Withdraw (NextProofId n) a v to]
  | (Err _, s') => s' = s
  | (Panic, _) => False
  end.
Proof.
  intros Hok Hv Hact Ht Hst Hdelay Hrun n message. unfold withdraw, transactional, ensure_signed, bind at 1, ret at 1. cbv iota.
  assert (Hred : do_withdrawal who a v to Runtime s =
    (do* process_withdrawal_payment who a v in process_withdrawal message a) s).
  { unfold do_withdrawal, bind at 1, gets. rewrite Hact. unfold ensure at 1, bind at 1, ret at 1. cbv iota.
    unfold bind at 1, ok_or. rewrite Ht. unfold ret at 1. cbv iota zeta.
    destruct (ClaimDelay (peg s) !! a) as [[m d]|] eqn:Hd; [|done]. specialize (Hdelay m d eq_refl).
    by rewrite (proj2 (Z.leb_gt m v)) by lia. }
  unfold bind at 1. rewrite Hred. unfold bind at 1, process_withdrawal_payment, bind at 1, gets.
  rewrite (proj2 (Z.eqb_neq _ _) Hst). unfold bind at 1, on_ledger at 1.
  pose proof (iss_burn (ledger s) who a v WithdrawReasons.TRANSFER KeepAlive Hok (proj1 Hv)) as Hb.
  destruct (cur_withdraw _ _ _ _ _ _) as [[ni|e|] l1]; [|done..]. destruct Hb as (_ & Hle & Hfree & _ & Hiss & _).
  unfold on_ledger, modify. cbv beta iota.
  unfold process_withdrawal, as_u128. rewrite (proj2 (Z.leb_le _ _)) by apply Hv.
  unfold bind, ret, attempt, on_bridge, cl_generate_event_proof, bridge_verifier, generate_event_proof, bind, gets. cbn [bridge].
  fold n. unfold n in *. rewrite Hrun. cbn. split_and!; try done.
  - rewrite (Hiss a). by rewrite Z.eqb_refl.
  - by rewrite lookup_insert_eq.
Qed.
End Withdraw.

(** ** Deposits: the peg serves the bridge *)
Section Deposit.
Context {L : Type} {currency : MultiCurrency L} {config : PegConfig}.

(** The runtime around the bridge: the peg, the ledger, and the rest. *)
Record PegWorld (R : Type) := mkPegWorld { pw_peg : PegStore; pw_ledger : L; pw_block : BlockNumber; pw_rest : R }.
Arguments mkPegWorld {R} _ _ _ _.
Arguments pw_peg {R} _.
Arguments pw_ledger {R} _.
Arguments pw_block {R} _.
Arguments pw_rest {R} _.

Context {R : Type} {renv : BridgeEnv R}.

(** A notification runs on the peg; a panic takes the block down. *)
Definition on_peg_world (m : D (PegState unit L) unit) (w : PegWorld R) : option (PegWorld R) :=
  match m (mkState (pw_peg w) tt (pw_ledger w) (pw_block w)) with
  | (Panic, _) => None
  | (_, s) => Some (mkPegWorld (peg s) (ledger s) (block_number s) (pw_rest w))
  end.

#[export] Instance peg_world_env : BridgeEnv (PegWorld R) := {|
  authority_set w := authority_set (pw_rest w);
  unix_now w := unix_now (pw_rest w);
  reward_notary a w := mkPegWorld (pw_peg w) (pw_ledger w) (pw_block w) (reward_notary a (pw_rest w));
  is_next_session_final w := is_next_session_final (pw_rest w);
  is_active_session_final w := is_active_session_final (pw_rest w);
  EthBridge.on_success id c t d := on_peg_world (Erc20Peg.on_success id c t d);
  EthBridge.on_failure id c t d := on_peg_world (Erc20Peg.on_failure id c t d);
  on_eth_call_complete id d b t w :=
    (fun r => mkPegWorld (pw_peg w) (pw_ledger w) (pw_block w) r) <$> on_eth_call_complete id d b t (pw_rest w);
  on_eth_call_failed id f w :=
    (fun r => mkPegWorld (pw_peg w) (pw_ledger w) (pw_block w) r) <$> on_eth_call_failed id f (pw_rest w);
|}.

Context {laws : MultiCurrencyIssuance L}.

(** What a verified deposit of a known token does. *)
Lemma on_success_pays id (claim : Erc20DepositEvent) w a (s : PegState unit L) : deposit_wf claim -> dep_amount claim <= umax 128 ->
  decode_account (dep_beneficiary claim) = Some w -> Erc20ToAssetId (peg s) !! dep_token_address claim = Some a ->
  (a =? cur_staking_currency (ledger s)) && CENNZDepositsActive (peg s) = false ->
  iss_ok (ledger s) -> cur_known a (ledger s) -> fits claim s ->
  exists l', Erc20Peg.on_success id (ContractAddress (peg s)) DepositEventSignature (encode_Erc20DepositEvent claim) s =
      (Ok tt, mkState (set_peg_events (fun l => l ++ [Erc20Deposit id a (dep_amount claim) w]) (peg s)) tt l' (block_number s)) /\
    iss_ok l' /\ cur_free_balance w a l' = cur_free_balance w a (ledger s) + dep_amount claim /\
    cur_issuance a l' = cur_issuance a (ledger s) + dep_amount claim.
Proof.
  intros Hwf Hmax Hw Ha Hst Hok Hk Hfit. unfold Erc20Peg.on_success, bind at 1, gets, is_deposit_event.
  rewrite !bool_decide_eq_true_2 by done. cbn [andb]. rewrite decode_encode_deposit by done.
  pose proof (iss_mint (ledger s) w a (dep_amount claim) Hok Hk (proj1 (proj1 (proj2 Hwf))) (Hfit a Ha)) as Hm.
  unfold bind, attempt, do_deposit, asset_of, bind, gets. rewrite Ha. unfold ret. cbv beta iota. rewrite Hw. unfold unwrap, ret, as_u128.
  rewrite (proj2 (Z.leb_le _ _) Hmax). unfold ret at 1. cbv beta iota. rewrite Hst. unfold mint_deposit, bind, on_ledger, state, ret.
  destruct (cur_deposit_creating w a (dep_amount claim) (ledger s)) as [p l1]. destruct Hm as (Hok' & Hfree & _ & Hiss & _).
  exists (cur_drop_positive p l1). destruct s as [p0 [] l0 n0]. split_and!; try done. rewrite (Hiss a). by rewrite Z.eqb_refl.
Qed.

(** A verified CENNZ deposit that arrives before CENNZ deposits are activated is
    minted on top of the full supply. *)
Theorem cennz_minted_while_inactive id (claim : Erc20DepositEvent) w (s : PegState unit L) : deposit_wf claim -> dep_amount claim <= umax 128 ->
  let cennz := cur_staking_currency (ledger s) in
  decode_account (dep_beneficiary claim) = Some w -> Erc20ToAssetId (peg s) !! dep_token_address claim = Some cennz ->
  CENNZDepositsActive (peg s) = false -> iss_ok (ledger s) -> fits claim s ->
  let '(r, s') := Erc20Peg.on_success id (ContractAddress (peg s)) DepositEventSignature (encode_Erc20DepositEvent claim) s in
  r = Ok tt /\ cur_issuance cennz (ledger s') = cur_issuance cennz (ledger s) + dep_amount claim.
Proof.
  intros Hwf Hmax cennz Hw Ha Hact Hok Hfit.
  destruct (on_success_pays id claim w cennz s) as (l' & -> & _ & _ & Hi); try done; [by rewrite Hact, andb_false_r | by apply iss_staking_known].
Qed.

Context {bconfig : BridgeConfig}.
Implicit Types b : BridgeState (PegWorld R).

(** C22: the vote that brings a claimed deposit of the peg contract over the
    threshold pays it, for a token that is registered for an asset other than
    CENNZ and an amount that fits: the beneficiary is credited with the amount of
    the claim, the issuance of the token's asset grows by it, and the Ethereum
    transaction is recorded as processed. *)
Theorem notarized_deposit_paid id i r key tx ty claim w a b :
  bridge_ok b -> notary_keys (notaries b) !! Z.to_nat i = Some key ->
  EventClaims (claims b) !! id = Some (tx, ty) -> EventData (claims b) !! id = Some (encode_Erc20DepositEvent claim) ->
  event_of_type ty (claims b) = (ContractAddress (pw_peg (world b)), DepositEventSignature) ->
  EventDeadlineSeconds (claims b) <> 0 -> verdict id (vote id key r b) = Some true ->
  deposit_wf claim -> dep_amount claim <= umax 128 -> decode_account (dep_beneficiary claim) = Some w ->
  Erc20ToAssetId (pw_peg (world b)) !! dep_token_address claim = Some a ->
  a <> cur_staking_currency (pw_ledger (world b)) ->
  iss_ok (pw_ledger (world b)) -> cur_known a (pw_ledger (world b)) ->
  cur_issuance a (pw_ledger (world b)) + dep_amount claim <= MAX_BALANCE ->
  exists b', submit_notarization NoOrigin (PayloadEvent id i r) b = (Ok tt, b') /\
    tx ∈ ProcessedTxHashes (claims b') /\ EventClaims (claims b') !! id = None /\
    cur_free_balance w a (pw_ledger (world b')) = cur_free_balance w a (pw_ledger (world b)) + dep_amount claim /\
    cur_issuance a (pw_ledger (world b')) = cur_issuance a (pw_ledger (world b)) + dep_amount claim /\
    peg_events (pw_peg (world b')) = peg_events (pw_peg (world b)) ++ [Erc20Deposit id a (dep_amount claim) w].
Proof.
  intros Hb Hkey Hid Hd Hty Hnz Hv Hwf Hmax Hw Ha Hne Hok Hk Hfit.
  assert (Hst : (a =? cur_staking_currency (pw_ledger (world b))) && CENNZDepositsActive (pw_peg (world b)) = false)
    by (by rewrite (proj2 (Z.eqb_neq _ _) Hne)).
  unfold submit_notarization, transactional, bind at 1. cbn [ensure_none ret authority_index].
  unfold bind at 1, gets at 1. cbv beta iota zeta. unfold bind at 1. rewrite Hkey. cbn [ok_or ret]. cbv beta iota.
  unfold bind. rewrite (handle_event_eq _ _ _ tx ty (encode_Erc20DepositEvent claim)), Hv, Hty by done. cbn [fst snd].
  unfold notify. change (world (closed _ _ _ _ _)) with (world b). cbn [EthBridge.on_success peg_world_env]. unfold on_peg_world.
  destruct (on_success_pays id claim w a (mkState (pw_peg (world b)) tt (pw_ledger (world b)) (pw_block (world b))))
    as (l' & Hs & _ & Hfree & Hiss); try done.
  { intros a' Ha'. cbn in Ha'. rewrite Ha in Ha'. by injection Ha' as <-. }
  cbn [peg] in Hs. rewrite Hs. eexists. split; [reflexivity|]. cbn. rewrite lookup_delete_eq.
  destruct (authority_set (pw_rest (world b)) !! Z.to_nat i); (split_and!; [set_solver | done | exact Hfree | exact Hiss | done]).
Qed.
End Deposit.
