(* ===== verification/Erc20PegDemo.v ===== *)
(** * The peg on concrete storage

    A bridge with three notaries, the demo ledger and a peg: a deposit, a
    withdrawal, delayed withdrawals, idle blocks and a notarized claim, as
    instances of the theorems on the peg. *)

From S2P Require Import Prelude Support GenericAssetTypes GenericAsset GenericAssetInv MultiCurrency Issuance.
From S2P Require Import EthAbi EthBridgeTypes EthBridge EthBridgeProps EthBridgeTheorems EthBridgeSafety.
From S2P Require Import Erc20Peg Erc20PegProps Erc20PegQueue Erc20PegTheorems Erc20PegBacking Erc20PegRuntime.

Module PegDemo.
#[local] Existing Instance GenericAssetInv.Demo.config.
#[local] Existing Instance BridgeDemo.demo_config.
#[local] Existing Instance BridgeDemo.demo_env.

#[export] Instance demo_peg : PegConfig := {|
  peg_account := 50;
  DepositEventSignature := replicate 32 8;
  peg_hash l := l;
  db_read := 25;
  db_write := 100;
|}.

Abbreviation Peg := (PegState (BridgeState BridgeDemo.World) GenericAsset.State).

Definition contract : bytes := replicate 20 5.
Definition token : bytes := replicate 20 3.
Definition recipient : bytes := replicate 20 4.

Definition p0 : PegStore := mkPegStore true true ∅ ∅ ∅ ∅ ∅ ∅ [] 0 ∅ contract false [].
Definition s0 : Peg := Erc20Peg.mkState p0 BridgeDemo.keyed Demo.s0 1.

(** 40 units for account 10. *)
Definition claim : Erc20DepositEvent := mkDeposit token 40 (replicate 31 0 ++ [10]).

Definition paid : Peg := (Erc20Peg.on_success 0 contract (replicate 32 8) (encode_Erc20DepositEvent claim) s0).2.
Definition withdrawn : Peg := (dispatch (C_withdraw 1000 15 recipient) (Signed 10) paid).2.
Definition delaying : Peg := (dispatch (C_set_claim_delay 1000 5 1) Root withdrawn).2.
Definition waiting : Peg := (dispatch (C_withdraw 1000 7 recipient) (Signed 10) delaying).2.
Definition next_block : Peg :=
  (Erc20Peg.on_initialize 2 (Erc20Peg.mkState (peg waiting) (bridge waiting) (ledger waiting) 2)).2.

Lemma peg_run_Ok {S A} (m : D S A) s a : (m s).1 = Ok a -> m s = (Ok a, (m s).2).
Proof. destruct (m s). simpl. by intros ->. Qed.

Lemma demo_weights : weights_ok.
Proof. vm_compute. done. Qed.

Lemma demo_ledger_ok : iss_ok Demo.s0.
Proof. split; [exact Demo.s0_inv | vm_compute; done]. Qed.

Lemma s0_started : started s0.
Proof. split_and!; [exact demo_ledger_ok | done..]. Qed.

Lemma claim_bytes : Forall is_byte (encode_Erc20DepositEvent claim).
Proof. refine (bool_decide_unpack _ _). vm_compute. exact I. Qed.

Lemma paid_bstep : bstep s0 paid.
Proof. apply bs_success; [exact claim_bytes|]. intros deposit _ a Ha. cbn in Ha. by rewrite lookup_empty in Ha. Qed.

Lemma run_to_withdrawn : rtc bstep s0 withdrawn.
Proof.
  eapply rtc_l; [exact paid_bstep|]. apply rtc_once, (bs_call (C_withdraw 1000 15 recipient) (Signed 10) paid). vm_compute. done.
Qed.

(** 25 issued and 15 proved against 40 deposited. *)
Lemma peg_backed_witness :
  total_issuance 1000 (ledger withdrawn) = 25 /\ proven 1000 (peg_events (peg withdrawn)) = 15 /\
  total_issuance 1000 (ledger withdrawn) + pending 1000 (Erc20ToAssetId (peg withdrawn)) (DelayedClaims (peg withdrawn))
    + proven 1000 (peg_events (peg withdrawn)) <= deposited 1000 (peg_events (peg withdrawn)).
Proof.
  split; [vm_compute; reflexivity|]. split; [vm_compute; reflexivity|].
  assert (Ha : AssetIdToErc20 (peg withdrawn) !! 1000 = Some token) by (vm_compute; reflexivity).
  exact (peg_backed s0 withdrawn 1000 token s0_started run_to_withdrawn Ha).
Defined.

Lemma staking_withdrawals_unsupported_witness :
  do_withdrawal 10 1 5 recipient Runtime withdrawn = (Err (Erc20Peg PegError.UnsupportedAsset), withdrawn).
Proof. exact (staking_withdrawals_unsupported s0 withdrawn 10 5 recipient Runtime s0_started run_to_withdrawn). Defined.

Lemma paid_ok : iss_ok (ledger paid).
Proof. exact (bk_ok _ _ (run_sound s0 paid s0_started (rtc_once _ _ paid_bstep))). Qed.

Lemma withdrawal_burns_and_proves_witness :
  exists s', withdraw (Signed 10) 1000 15 recipient paid = (Ok tt, s') /\ free_balance 1000 10 (ledger s') = 25.
Proof.
  assert (Hw : (withdraw (Signed 10) 1000 15 recipient paid).1 = Ok tt) by (vm_compute; reflexivity).
  assert (Ht : AssetIdToErc20 (peg paid) !! 1000 = Some token) by (vm_compute; reflexivity).
  assert (Hd : ClaimDelay (peg paid) !! 1000 = None) by (vm_compute; reflexivity).
  assert (Hv : in_range BALANCE_BITS 15) by (vm_compute; split; discriminate).
  assert (Hact : WithdrawalsActive (peg paid) = true) by (vm_compute; reflexivity).
  assert (Hst : 1000 <> cur_staking_currency (ledger paid)) by (vm_compute; discriminate).
  assert (Hdelay : forall m d, ClaimDelay (peg paid) !! 1000 = Some (m, d) -> 15 < m) by (intros m d; rewrite Hd; discriminate).
  assert (Hrun : BridgePaused (notaries (bridge paid)) = false) by (vm_compute; reflexivity).
  assert (Hp : cur_free_balance 10 1000 (ledger paid) = 40) by (vm_compute; reflexivity).
  pose proof (withdrawal_burns_and_proves 10 1000 15 recipient token paid paid_ok Hv Hact Ht Hst Hdelay Hrun) as H.
  revert H Hw. destruct (withdraw (Signed 10) 1000 15 recipient paid) as [r s']. intros H Hw. cbn [fst] in Hw. subst r.
  exists s'. split; [reflexivity|]. destruct H as (_ & Hfree & _). rewrite Hp in Hfree. exact Hfree.
Defined.

(** ** Delayed claims *)
Lemma paid_step P : step P s0 paid.
Proof.
  assert (H : (Erc20Peg.on_success 0 contract (replicate 32 8) (encode_Erc20DepositEvent claim) s0).1 = Ok tt) by (vm_compute; reflexivity).
  exact (st_success P 0 contract (replicate 32 8) (encode_Erc20DepositEvent claim) s0 paid (peg_run_Ok _ s0 tt H)).
Qed.

Lemma withdrawn_step : step prudent paid withdrawn.
Proof. refine (st_call prudent (C_withdraw 1000 15 recipient) (Signed 10) paid _ I). vm_compute. split; discriminate. Qed.

Lemma delaying_step : step prudent withdrawn delaying.
Proof. refine (st_call prudent (C_set_claim_delay 1000 5 1) Root withdrawn _ _); vm_compute; [split; discriminate | reflexivity]. Qed.

Lemma waiting_step : step prudent delaying waiting.
Proof. refine (st_call prudent (C_withdraw 1000 7 recipient) (Signed 10) delaying _ I). vm_compute. split; discriminate. Qed.

Lemma run_to_waiting : rtc (step prudent) s0 waiting.
Proof.
  refine (rtc_l _ s0 paid waiting (paid_step _) _). refine (rtc_l _ paid withdrawn waiting withdrawn_step _).
  exact (rtc_l _ withdrawn delaying waiting delaying_step (rtc_once _ _ waiting_step)).
Qed.

Lemma s0_initial : Erc20PegTheorems.initial s0.
Proof. done. Qed.

Lemma pending_claims_ready_or_due_witness :
  0 ∈ ready_queue (queue waiting) \/ exists b, block_number waiting < b /\ 0 ∈ claims_of (DelayedClaimSchedule (peg waiting)) b.
Proof.
  assert (Hc : DelayedClaims (peg waiting) !! 0 = Some (Withdrawal {| wm_token_address := token; wm_amount := 7; wm_beneficiary := recipient |}))
    by (vm_compute; reflexivity).
  refine (pending_claims_ready_or_due s0 waiting 0 _ demo_weights s0_initial run_to_waiting _ Hc). vm_compute. reflexivity.
Defined.

Lemma waiting_ok : queue_ok (queue waiting).
Proof. exact (steps_queue_ok demo_weights prudent s0 waiting run_to_waiting (proj1 (peg_initial_ok s0 s0_initial))). Qed.

Lemma next_block_ok : queue_ok (queue next_block).
Proof.
  refine (steps_queue_ok demo_weights prudent waiting next_block (rtc_once _ _ _) waiting_ok).
  assert (Hi : (Erc20Peg.on_initialize 2 (Erc20Peg.mkState (peg waiting) (bridge waiting) (ledger waiting) 2)).1 = Ok tt)
    by (vm_compute; reflexivity).
  assert (Hb : block_number waiting = 1) by (vm_compute; reflexivity).
  pose proof (st_block prudent (peg waiting) (bridge waiting) (ledger waiting) (block_number waiting) next_block) as Hst.
  rewrite Hb in Hst. replace waiting with (Erc20Peg.mkState (peg waiting) (bridge waiting) (ledger waiting) 1).
  - apply Hst; [vm_compute; reflexivity | exact (peg_run_Ok _ _ tt Hi)].
  - rewrite <- Hb. by destruct waiting.
Qed.

Lemma on_idle_works_off_witness : exists s1 r s',
  for_each (take 4 [0]) process_claim next_block = (Ok tt, s1) /\ on_idle 5000 next_block = (Ok r, s') /\ 0 <= r <= 5000.
Proof.
  assert (Hq : ready_queue (queue next_block) = [0]) by (vm_compute; reflexivity).
  assert (Hn : idle_claims 5000 = 4%nat) by (vm_compute; reflexivity).
  destruct (on_idle_works_off 5000 next_block demo_weights next_block_ok) as (s1 & r & s' & H1 & H2 & H3 & _).
  - vm_compute. split; discriminate.
  - vm_compute. reflexivity.
  - rewrite Hq, Hn in H1. exists s1, r, s'. split; [exact H1|]. split; [exact H2 | exact H3].
Defined.

Lemma ready_claims_drain_witness : DelayedClaims (peg (idle_times 1 5000 next_block)) !! 0 = None.
Proof.
  refine (proj2 (ready_claims_drain 1 5000 next_block demo_weights _ _ next_block_ok _) 0 _).
  - vm_compute. split; discriminate.
  - vm_compute. reflexivity.
  - vm_compute. repeat constructor.
  - refine (bool_decide_unpack _ _). vm_compute. exact I.
Defined.

(** A withdrawal under a delay of zero. *)
Lemma zero_delay_strands_claim_witness :
  exists s1, delay_claim 0 (Withdrawal {| wm_token_address := token; wm_amount := 7; wm_beneficiary := recipient |}) waiting = (Ok tt, s1) /\
    forall s2, rtc (step any) s1 s2 -> 1 ∉ ready_queue (queue s2).
Proof.
  destruct (zero_delay_strands_claim any (Withdrawal {| wm_token_address := token; wm_amount := 7; wm_beneficiary := recipient |})
    waiting demo_weights waiting_ok) as (s1 & H1 & H2).
  - vm_compute. split; discriminate.
  - vm_compute. split; discriminate.
  - refine (bool_decide_unpack _ _). vm_compute. exact I.
  - vm_compute. reflexivity.
  - exists s1. split; [exact H1|]. intros s2 Hs2. exact (proj2 (H2 s2 Hs2)).
Defined.

(** ** A notarized deposit *)
Abbreviation Composed := (BridgeState (PegWorld (L := GenericAsset.State) BridgeDemo.World)).

Definition b0 : Composed := EthBridgeSafety.initial (mkPegWorld _ (peg paid) (ledger paid) 1 BridgeDemo.w0).
Definition b_keyed : Composed := (on_genesis_session [11; 12; 13] b0).2.
Definition b_claimed : Composed :=
  (submit_event_claim contract (replicate 32 8) (replicate 32 9) (encode_Erc20DepositEvent claim) b_keyed).2.
Definition b_once : Composed := (submit_notarization NoOrigin (PayloadEvent 0 0 Valid) b_claimed).2.

Lemma b_keyed_step : EthBridgeTheorems.step b0 b_keyed.
Proof.
  assert (H : (on_genesis_session [11; 12; 13] b0).1 = Ok tt) by (vm_compute; reflexivity).
  exact (step_genesis_session [11; 12; 13] b0 b_keyed (peg_run_Ok _ b0 tt H)).
Qed.

Lemma b_claimed_step : EthBridgeTheorems.step b_keyed b_claimed.
Proof.
  assert (H : (submit_event_claim contract (replicate 32 8) (replicate 32 9) (encode_Erc20DepositEvent claim) b_keyed).1 = Ok 0)
    by (vm_compute; reflexivity).
  refine (step_claim contract (replicate 32 8) (replicate 32 9) (encode_Erc20DepositEvent claim) 0 b_keyed b_claimed (peg_run_Ok _ b_keyed 0 H) _ _);
    vm_compute; reflexivity.
Qed.

Lemma b_once_step : EthBridgeTheorems.step b_claimed b_once.
Proof.
  assert (H : (submit_notarization NoOrigin (PayloadEvent 0 0 Valid) b_claimed).1 = Ok tt) by (vm_compute; reflexivity).
  exact (step_notarize _ _ b_claimed b_once (peg_run_Ok _ b_claimed tt H)).
Qed.

Lemma b_once_ok : bridge_ok b_once.
Proof.
  refine (steps_ok b0 b_once (EthBridgeSafety.bridge_initial_ok _) _).
  exact (rtc_l _ b0 b_keyed b_once b_keyed_step (rtc_l _ b_keyed b_claimed b_once b_claimed_step (rtc_once _ _ b_once_step))).
Qed.

Lemma notarized_deposit_paid_witness :
  exists b', submit_notarization NoOrigin (PayloadEvent 0 1 Valid) b_once = (Ok tt, b') /\
    free_balance 1000 10 (pw_ledger _ (world b')) = free_balance 1000 10 (pw_ledger _ (world b_once)) + 40.
Proof.
  assert (H1 : notary_keys (notaries b_once) !! Z.to_nat 1 = Some 12) by (vm_compute; reflexivity).
  assert (H2 : EventClaims (claims b_once) !! 0 = Some (replicate 32 9, 0)) by (vm_compute; reflexivity).
  assert (H3 : EventData (claims b_once) !! 0 = Some (encode_Erc20DepositEvent claim)) by (vm_compute; reflexivity).
  assert (H4 : event_of_type 0 (claims b_once) = (ContractAddress (pw_peg _ (world b_once)), DepositEventSignature))
    by (vm_compute; reflexivity).
  assert (H5 : EventDeadlineSeconds (claims b_once) <> 0) by (vm_compute; discriminate).
  assert (H6 : verdict 0 (vote 0 12 Valid b_once) = Some true) by (vm_compute; reflexivity).
  assert (H7 : deposit_wf claim) by (split_and!; [reflexivity | vm_compute; split; discriminate | reflexivity]).
  assert (H8 : decode_account (dep_beneficiary claim) = Some 10) by (vm_compute; reflexivity).
  assert (H9 : Erc20ToAssetId (pw_peg _ (world b_once)) !! dep_token_address claim = Some 1000) by (vm_compute; reflexivity).
  assert (H10 : 1000 <> cur_staking_currency (pw_ledger _ (world b_once))) by (vm_compute; discriminate).
  assert (Hl : pw_ledger _ (world b_once) = ledger paid) by (vm_compute; reflexivity).
  assert (H11 : iss_ok (pw_ledger _ (world b_once))) by (rewrite Hl; exact paid_ok).
  assert (H12 : cur_known 1000 (pw_ledger _ (world b_once))) by (vm_compute; reflexivity).
  assert (H13 : dep_amount claim <= umax 128) by (vm_compute; discriminate).
  assert (H14 : cur_issuance 1000 (pw_ledger _ (world b_once)) + dep_amount claim <= MAX_BALANCE) by (vm_compute; discriminate).
  destruct (notarized_deposit_paid 0 1 Valid 12 (replicate 32 9) 0 claim 10 1000 b_once b_once_ok H1 H2 H3 H4 H5 H6 H7 H13 H8 H9 H10 H11 H12 H14)
    as (b' & Hb' & _ & _ & Hfree & _).
  exists b'. split; [exact Hb' | exact Hfree].
Defined.
End PegDemo.
