(* ===== verification/EthStateOracle.v ===== *)
(** * The Ethereum state oracle pallet

    [src/crml/eth-state-oracle/src/lib.rs] and [types.rs]: contracts ask for the
    result of an [eth_call], bonded relayers answer, an answer that is not
    challenged for some blocks is delivered by a callback when a block has
    weight to spare. The rest of the runtime is an environment [E]: the ledger
    ([MultiCurrency]), the clock, the exchange, the EVM and the bridge's call
    oracle ([OracleEnv]). *)

From S2P Require Import Prelude Support GenericAssetTypes MultiCurrency AddressMapping EthAbi EthBridgeTypes.

Abbreviation RequestId := Z (only parsing).
Abbreviation ChallengeId := Z (only parsing).
Abbreviation Weight := Z (only parsing).

Definition ETH_BLOCK_TIME_S : Z := 15.

(** [FeePreferences] of [src/primitives/src/types.rs]; the slippage is a
    [Permill]. *)
Record FeePreferences := mkFeePreferences { fp_asset_id : AssetId; fp_slippage : Z }.

Record CallRequest := mkRequest {
  rq_destination : EthAddress;
  rq_caller : EthAddress;
  rq_callback_gas_limit : Z;
  rq_callback_signature : bytes;
  rq_fee_preferences : option FeePreferences;
  rq_bounty : Balance;
  rq_timestamp : Z;
  rq_expiry_block : BlockNumber;
  rq_input_data : bytes;
}.

Inductive ReturnDataClaim :=
| ReturnOk (data : bytes)
| ExceedsLengthLimit.

Record CallResponse := mkResponse {
  rs_return_data : ReturnDataClaim;
  rs_eth_block_number : Z;
  rs_eth_block_timestamp : Z;
  rs_relayer : AccountId;
}.

(** [Config], the weights of storage accesses, and [Permill] multiplication. *)
Class OracleConfig := {
  ChallengePeriod : BlockNumber;
  StateOraclePrecompileAddress : EthAddress;
  MinGasPrice : Z;
  RelayerBondAmount : Balance;
  MaxRequestsPerBlock : Z;
  MaxRelayerCount : Z;
  gas_to_weight : Z -> Weight;
  weight_to_gas : Weight -> Z;
  slippage_mul : Z -> Balance -> Balance;
  or_db_read : Weight;
  or_db_write : Weight;
}.

(** A result with the weight it actually took. *)
Abbreviation PostInfo := (option Weight + (DispatchError * option Weight))%type (only parsing).

Class OracleEnv (E : Type) := {
  or_now : E -> Z;
  or_buy_fee_asset : AccountId -> Balance -> FeeExchange -> D E Balance;
  or_checked_eth_call : EthAddress -> bytes -> Z -> Z -> Z -> E -> Z * E;
  or_execute : EthAddress -> EthAddress -> bytes -> Z -> Z -> Z -> E -> PostInfo * E;
}.

(** [decl_event!] *)
Inductive Event :=
| NewRequest (caller : EthAddress) (id : RequestId)
| CallbackErr (id : RequestId) (reason : DispatchError)
| Callback (id : RequestId) (weight : Weight)
| RelayerBondSet (who : AccountId) (amount : Balance)
| ChallengerBondSet (who : AccountId) (amount : Balance)
| RelayerBondRemoved (who : AccountId) (amount : Balance)
| ChallengerBondRemoved (who : AccountId) (amount : Balance).

(** ** Storage *)
Record OracleStore := mkOracle {
  ChallengeSubscriptions : gmap ChallengeId RequestId;
  MaxResponseDrift : Z;
  NextRequestId : RequestId;
  Requests : gmap RequestId CallRequest;
  RelayerBonds : gmap AccountId Balance;
  ChallengerBonds : gmap AccountId Balance;
  Responses : gmap RequestId CallResponse;
  ResponsesChallenged : gmap RequestId AccountId;
  ResponsesValidAtBlock : gmap BlockNumber (list RequestId);
  RequestsExpiredAtBlock : gmap BlockNumber (list RequestId);
  ResponsesForCallback : list RequestId;
  RequestsThisBlock : Z;
  oracle_events : list Event;
}.

Definition oracle_eta (o : OracleStore) : OracleStore :=
  mkOracle (ChallengeSubscriptions o) (MaxResponseDrift o) (NextRequestId o) (Requests o) (RelayerBonds o) (ChallengerBonds o)
    (Responses o) (ResponsesChallenged o) (ResponsesValidAtBlock o) (RequestsExpiredAtBlock o) (ResponsesForCallback o)
    (RequestsThisBlock o) (oracle_events o).

Definition set_ChallengeSubscriptions : (gmap Z Z -> gmap Z Z) -> OracleStore -> OracleStore :=
  ltac:(setter oracle_eta ChallengeSubscriptions).
Definition set_MaxResponseDrift : (Z -> Z) -> OracleStore -> OracleStore := ltac:(setter oracle_eta MaxResponseDrift).
Definition set_NextRequestId : (Z -> Z) -> OracleStore -> OracleStore := ltac:(setter oracle_eta NextRequestId).
Definition set_Requests : (gmap Z CallRequest -> gmap Z CallRequest) -> OracleStore -> OracleStore :=
  ltac:(setter oracle_eta Requests).
Definition set_RelayerBonds : (gmap Z Z -> gmap Z Z) -> OracleStore -> OracleStore := ltac:(setter oracle_eta RelayerBonds).
Definition set_ChallengerBonds : (gmap Z Z -> gmap Z Z) -> OracleStore -> OracleStore := ltac:(setter oracle_eta ChallengerBonds).
Definition set_Responses : (gmap Z CallResponse -> gmap Z CallResponse) -> OracleStore -> OracleStore :=
  ltac:(setter oracle_eta Responses).
Definition set_ResponsesChallenged : (gmap Z Z -> gmap Z Z) -> OracleStore -> OracleStore :=
  ltac:(setter oracle_eta ResponsesChallenged).
Definition set_ResponsesValidAtBlock : (gmap Z (list Z) -> gmap Z (list Z)) -> OracleStore -> OracleStore :=
  ltac:(setter oracle_eta ResponsesValidAtBlock).
Definition set_RequestsExpiredAtBlock : (gmap Z (list Z) -> gmap Z (list Z)) -> OracleStore -> OracleStore :=
  ltac:(setter oracle_eta RequestsExpiredAtBlock).
Definition set_ResponsesForCallback : (list Z -> list Z) -> OracleStore -> OracleStore :=
  ltac:(setter oracle_eta ResponsesForCallback).
Definition set_RequestsThisBlock : (Z -> Z) -> OracleStore -> OracleStore := ltac:(setter oracle_eta RequestsThisBlock).
Definition set_oracle_events : (list Event -> list Event) -> OracleStore -> OracleStore := ltac:(setter oracle_eta oracle_events).

Record State (E : Type) := mkState { oracle : OracleStore; env : E; block_number : BlockNumber }.
Arguments mkState {E} oracle env block_number.
Arguments oracle {E} s.
Arguments env {E} s.
Arguments block_number {E} s.

Section Oracle.
Context {E : Type} {currency : MultiCurrency E} {oenv : OracleEnv E} {config : OracleConfig}.
Abbreviation St := (State E).

Definition on_oracle (f : OracleStore -> OracleStore) (s : St) : St := mkState (f (oracle s)) (env s) (block_number s).

Definition write (f : OracleStore -> OracleStore) : D St unit := modify (on_oracle f).

Definition deposit_event (e : Event) : D St unit := write (set_oracle_events (fun l => l ++ [e])).

Definition on_env {A} (m : D E A) : D St A := fun s =>
  let '(r, e) := m (env s) in (r, mkState (oracle s) e (block_number s)).

(** [m.map_err(|_| e)] *)
Definition map_err {A} (m : D St A) (e : DispatchError) : D St A := fun s =>
  match m s with (Err _, s') => (Err e, s') | r => r end.

Definition unwrap {A} (o : option A) : D St A := match o with Some a => ret a | None => panic end.

Definition append (b : BlockNumber) (id : RequestId) (m : gmap BlockNumber (list RequestId)) : gmap BlockNumber (list RequestId) :=
  <[b := sget [] b m ++ [id]]> m.

(** ** Bonds *)
Definition bond_relayer (origin : Origin) : D St unit :=
  let* who := ensure_signed origin in
  let* o := gets oracle in
  do* ensure (sget 0 who (RelayerBonds o) =? 0) (EthStateOracle OracleError.AlreadyBonded) in
  do* ensure (Z.of_nat (size (RelayerBonds o)) <? MaxRelayerCount) (EthStateOracle OracleError.MaxRelayersReached) in
  let* fee := gets (fun s => cur_fee_currency (env s)) in
  do* on_env (cur_reserve who fee RelayerBondAmount) in
  do* write (set_RelayerBonds (insert who RelayerBondAmount)) in
  deposit_event (RelayerBondSet who RelayerBondAmount).

Definition unbond_relayer (origin : Origin) : D St unit :=
  let* who := ensure_signed origin in
  let* o := gets oracle in
  let bonded_amount := sget 0 who (RelayerBonds o) in
  do* ensure (negb (bonded_amount =? 0)) (EthStateOracle OracleError.NotEnoughBonded) in
  do* ensure (negb (existsb (fun '(_, response) => rs_relayer response =? who) (map_to_list (Responses o))))
    (EthStateOracle OracleError.CantUnbond) in
  let* fee := gets (fun s => cur_fee_currency (env s)) in
  let* _left := on_env (state (cur_unreserve who fee bonded_amount)) in
  do* write (set_RelayerBonds (delete who)) in
  deposit_event (RelayerBondRemoved who bonded_amount).

Definition bond_challenger (origin : Origin) : D St unit :=
  let* who := ensure_signed origin in
  let* o := gets oracle in
  do* ensure (sget 0 who (ChallengerBonds o) =? 0) (EthStateOracle OracleError.AlreadyBonded) in
  let* fee := gets (fun s => cur_fee_currency (env s)) in
  do* on_env (cur_reserve who fee RelayerBondAmount) in
  do* write (set_ChallengerBonds (insert who RelayerBondAmount)) in
  deposit_event (ChallengerBondSet who RelayerBondAmount).

Definition unbond_challenger (origin : Origin) : D St unit :=
  let* who := ensure_signed origin in
  let* o := gets oracle in
  let bonded_amount := sget 0 who (ChallengerBonds o) in
  do* ensure (negb (bonded_amount =? 0)) (EthStateOracle OracleError.NotEnoughBonded) in
  do* ensure (negb (existsb (fun '(_, challenger) => challenger =? who) (map_to_list (ResponsesChallenged o))))
    (EthStateOracle OracleError.ActiveChallenger) in
  let* fee := gets (fun s => cur_fee_currency (env s)) in
  let* _left := on_env (state (cur_unreserve who fee bonded_amount)) in
  do* write (set_ChallengerBonds (delete who)) in
  deposit_event (ChallengerBondRemoved who bonded_amount).

Definition set_max_response_drift (origin : Origin) (n : Z) : D St unit :=
  do* ensure_root origin in write (set_MaxResponseDrift (fun _ => n)).

(** ** Requests *)
Definition new_request (caller destination : EthAddress) (input_data callback_signature : bytes) (callback_gas_limit : Z)
    (fee_preferences : option FeePreferences) (bounty : Balance) : D St RequestId :=
  let* s := gets (fun s => s) in
  let o := oracle s in
  do* ensure (RequestsThisBlock o <? MaxRequestsPerBlock) (EthStateOracle OracleError.NoAvailableResponses) in
  do* ensure (negb (Z.of_nat (size (ChallengerBonds o)) =? 0)) (EthStateOracle OracleError.NoChallengers) in
  let request_id := NextRequestId o in
  let expiry_block := wrapping_add U32 (block_number s) ChallengePeriod in
  let request_info := mkRequest destination caller callback_gas_limit callback_signature fee_preferences bounty
    (or_now (env s)) expiry_block input_data in
  do* write (set_Requests (insert request_id request_info)) in
  do* (if request_id + 1 <=? umax 256 then write (set_NextRequestId (fun i => i + 1)) else panic) in
  do* write (set_RequestsThisBlock (fun i => wrapping_add U32 i 1)) in
  do* write (set_RequestsExpiredAtBlock (append expiry_block request_id)) in
  ret request_id.

Definition new_request_fee : Z :=
  weight_to_gas (saturating_add U64 (saturating_mul U64 or_db_write 15) (saturating_mul U64 or_db_read 15)).

(** ** Responses and challenges *)
Definition submit_call_response (origin : Origin) (request_id : RequestId) (return_data : ReturnDataClaim)
    (eth_block_number eth_block_timestamp : Z) : D St unit :=
  let* who := ensure_signed origin in
  let* s := gets (fun s => s) in
  let o := oracle s in
  do* ensure (RelayerBondAmount <=? sget 0 who (RelayerBonds o)) (EthStateOracle OracleError.NotEnoughBonded) in
  do* ensure (bool_decide (is_Some (Requests o !! request_id))) (EthStateOracle OracleError.NoRequest) in
  do* ensure (negb (bool_decide (is_Some (Responses o !! request_id)))) (EthStateOracle OracleError.ResponseExists) in
  match Requests o !! request_id with
  | Some request =>
      let max_response_drift_s := wrapping_mul U64 ETH_BLOCK_TIME_S (MaxResponseDrift o) in
      do* ensure ((saturating_sub (rq_timestamp request) max_response_drift_s <=? eth_block_timestamp) &&
                  (eth_block_timestamp <=? saturating_add U64 (rq_timestamp request) max_response_drift_s))
        (EthStateOracle OracleError.InvalidResponseTimestamp) in
      do* write (set_Responses (insert request_id (mkResponse return_data eth_block_number eth_block_timestamp who))) in
      do* write (set_ResponsesValidAtBlock (append (wrapping_add U32 (block_number s) ChallengePeriod) request_id)) in
      write (set_RequestsExpiredAtBlock (fun m =>
        <[rq_expiry_block request := filter (fun x => x <> request_id) (sget [] (rq_expiry_block request) m)]> m))
  | None => ret tt
  end.

(** The block look-behind of a challenge: the subtraction is the wrong way
    round for a request of the past. *)
Definition challenge_window (timestamp now : Z) : Z := Z.max 3 (wrapping_sub U64 timestamp now / ETH_BLOCK_TIME_S).

Definition submit_response_challenge (origin : Origin) (request_id : RequestId) : D St unit :=
  let* who := ensure_signed origin in
  let* s := gets (fun s => s) in
  let o := oracle s in
  do* ensure (bool_decide (is_Some (Requests o !! request_id))) (EthStateOracle OracleError.NoRequest) in
  do* ensure (negb (bool_decide (is_Some (ResponsesChallenged o !! request_id)))) (EthStateOracle OracleError.DuplicateChallenge) in
  do* ensure (RelayerBondAmount <=? sget 0 who (ChallengerBonds o)) (EthStateOracle OracleError.NotEnoughBonded) in
  match Responses o !! request_id with
  | Some response =>
      let* request := unwrap (Requests o !! request_id) in
      let* challenge_subscription_id := on_env (state (or_checked_eth_call (rq_destination request) (rq_input_data request)
        (rq_timestamp request) (rs_eth_block_number response) (challenge_window (rq_timestamp request) (or_now (env s))))) in
      do* write (set_ResponsesChallenged (insert request_id who)) in
      write (set_ChallengeSubscriptions (insert challenge_subscription_id request_id))
  | None => fail (EthStateOracle OracleError.NoResponse)
  end.

(** [EthCallOracleSubscriber] is not implemented by the pallet. *)
Definition on_eth_call_complete (_call_id : Z) (_data : bytes) (_block _timestamp : Z) : D St unit := panic.
Definition on_eth_call_failed (_call_id : Z) (_reason : EthCallFailure) : D St unit := panic.

(** ** Callbacks *)

(** What the callback's gas costs at the current price, in CPAY. *)
Definition callback_fee (request : CallRequest) : Balance :=
  scale_wei_to_4dp (saturate 128 (MinGasPrice * rq_callback_gas_limit request + 1)).

(** [<callbackSelector>(uint256 requestId, uint256 timestamp, bytes32 returnData)] *)
Definition callback_input (request_id : RequestId) (request : CallRequest) (response : CallResponse) (return_data : bytes) : bytes :=
  rq_callback_signature request ++ encode_U256 request_id ++ encode_u64 (rs_eth_block_timestamp response) ++ return_data.

(** The payments that precede a callback; the [?]s of [try_callback]. *)
Definition pay_for_callback (request : CallRequest) (response : CallResponse) : D St unit :=
  let caller_ss58_address := account_number (into_account_id (rq_caller request)) in
  let state_oracle_precompile_ss58_address := account_number (into_account_id StateOraclePrecompileAddress) in
  let total_fee := callback_fee request in
  do* match rq_fee_preferences request with
      | Some fee_preferences =>
          let exchange_total := wrapping_add 128 (rq_bounty request) total_fee in
          let max_payment := saturating_add 128 exchange_total (slippage_mul (fp_slippage fee_preferences) exchange_total) in
          let* _bought := on_env (or_buy_fee_asset caller_ss58_address exchange_total
            (FeeExchange_new_v1 (fp_asset_id fee_preferences) max_payment)) in
          ret tt
      | None => ret tt
      end in
  let* fee := gets (fun s => cur_fee_currency (env s)) in
  do* map_err (on_env (cur_transfer caller_ss58_address (rs_relayer response) fee (rq_bounty request) AllowDeath))
    (EthStateOracle OracleError.InsufficientFundsBounty) in
  map_err (on_env (cur_transfer caller_ss58_address state_oracle_precompile_ss58_address fee total_fee AllowDeath))
    (EthStateOracle OracleError.InsufficientFundsGas).

Definition try_callback (request_id : RequestId) (request : CallRequest) (response : CallResponse) : D St PostInfo :=
  match rs_return_data response with
  | ExceedsLengthLimit => ret (inr (EthStateOracle OracleError.ReturnDataExceedsLimit, None))
  | ReturnOk return_data => fun s =>
      match pay_for_callback request response s with
      | (Ok _, s') =>
          on_env (state (or_execute StateOraclePrecompileAddress (rq_caller request)
            (callback_input request_id request response return_data) (rq_callback_gas_limit request) MinGasPrice 1)) s'
      | (Err e, s') => (Ok (inr (e, None)), s')
      | (Panic, s') => (Panic, s')
      end
  end.

Definition reads (n : Z) : Weight := saturating_mul U64 or_db_read n.
Definition writes (n : Z) : Weight := saturating_mul U64 or_db_write n.

Definition per_callback_weight : Weight :=
  wrapping_add U64 (wrapping_add U64 (writes 3) (reads 4))
    (saturating_add U64 (saturating_add U64 (2 * 203000000) (reads 8)) (writes 5)).

(** ** Hooks *)
Definition on_initialize (now : BlockNumber) : D St unit :=
  do* write (set_RequestsThisBlock (fun _ => 0)) in
  let* o := gets oracle in
  do* write (set_ResponsesValidAtBlock (delete now)) in
  do* for_each (sget [] now (ResponsesValidAtBlock o)) (fun id => write (set_ResponsesForCallback (fun l => l ++ [id]))) in
  do* write (set_RequestsExpiredAtBlock (delete now)) in
  for_each (sget [] now (RequestsExpiredAtBlock o)) (fun id =>
    do* write (set_Requests (delete id)) in
    deposit_event (CallbackErr id (EthStateOracle OracleError.RequestExpired))).

(** One callback that fits: its request and response are taken, and its weight
    is recorded. *)
Definition run_callback (call_request_id : RequestId) (request : CallRequest) : D St Weight :=
  do* write (set_Requests (delete call_request_id)) in
  let* response := gets (fun s => Responses (oracle s) !! call_request_id) in
  do* write (set_Responses (delete call_request_id)) in
  let* response := unwrap response in
  let* result := try_callback call_request_id request response in
  match result with
  | inl actual_weight =>
      let callback_weight := default 0 actual_weight in
      do* deposit_event (Callback call_request_id callback_weight) in ret callback_weight
  | inr (error, actual_weight) =>
      let callback_weight := default 0 actual_weight in
      do* deposit_event (CallbackErr call_request_id error) in ret callback_weight
  end.

(** The loop over the callbacks: the weight consumed and how many were run. *)
Fixpoint idle_callbacks (remaining_weight : Weight) (callbacks : list RequestId) (consumed_weight : Weight) (processed : nat)
    : D St (Weight * nat) :=
  match callbacks with
  | [] => ret (consumed_weight, processed)
  | call_request_id :: callbacks =>
      let* o := gets oracle in
      if bool_decide (is_Some (ResponsesChallenged o !! call_request_id))
      then idle_callbacks remaining_weight callbacks consumed_weight processed
      else
        let* request := unwrap (Requests o !! call_request_id) in
        let next_callback_weight_limit := gas_to_weight (rq_callback_gas_limit request) in
        if remaining_weight <? saturating_add U64 (saturating_add U64 consumed_weight per_callback_weight) next_callback_weight_limit
        then ret (consumed_weight, processed)
        else
          let* callback_weight := run_callback call_request_id request in
          idle_callbacks remaining_weight callbacks
            (saturating_add U64 (saturating_add U64 consumed_weight per_callback_weight) callback_weight) (S processed)
  end.

Definition on_idle (remaining_weight : Weight) : D St Weight :=
  let* callbacks := gets (fun s => ResponsesForCallback (oracle s)) in
  match callbacks with
  | [] => ret (reads 1)
  | _ :: _ =>
      let* result := idle_callbacks remaining_weight callbacks (wrapping_add U64 (reads 2) (writes 1)) 0 in
      let '(consumed_weight, processed_callbacks) := result in
      do* write (set_ResponsesForCallback (fun _ => drop processed_callbacks callbacks)) in
      ret consumed_weight
  end.
End Oracle.
