(* ===== verification/EthStateOracleTheorems.v ===== *)
(** * Callbacks of the state oracle

    One callback, and the loop that runs callbacks in idle block space: which
    requests it serves, what it leaves, and that it keeps within its weight. *)

From S2P Require Import Prelude Support GenericAssetTypes MultiCurrency AddressMapping EthAbi EthBridgeTypes EthStateOracle.

(** What the oracle relies on: payments end with a value or an error, and an
    execution takes no more weight than its gas limit is worth. *)
Class OracleEnvLaws (E : Type) {currency : MultiCurrency E} {oenv : OracleEnv E} {config : OracleConfig} := {
  ol_buy : forall who amount fx e, fst (or_buy_fee_asset who amount fx e) <> Panic;
  ol_transfer : forall from to a v req e, fst (cur_transfer from to a v req e) <> Panic;
  ol_weight : forall caller target input gas fee tip e,
    match fst (or_execute caller target input gas fee tip e) with
    | inl w | inr (_, w) => 0 <= default 0 w <= gas_to_weight gas
    end;
  ol_gas : forall gas, 0 <= gas_to_weight gas;
}.

(** The request an event of a callback is about. *)
Definition event_request (e : Event) : option RequestId :=
  match e with Callback id _ | CallbackErr id _ => Some id | _ => None end.

Definition delete_all {V} (ids : list RequestId) (m : gmap RequestId V) : gmap RequestId V := foldl (fun m id => delete id m) m ids.

Lemma lookup_delete_all {V} ids (m : gmap RequestId V) i :
  delete_all ids m !! i = if bool_decide (i ∈ ids) then None else m !! i.
Proof.
  revert m. induction ids as [|j ids IH]; intros m; [done|]. simpl. rewrite IH.
  destruct (decide (i = j)) as [->|Hne].
  - rewrite lookup_delete_eq, (bool_decide_eq_true_2 (j ∈ j :: ids)) by left. by case_bool_decide.
  - rewrite lookup_delete_ne by done. rewrite (bool_decide_ext (i ∈ j :: ids) (i ∈ ids)); [done|]. rewrite elem_of_cons. naive_solver.
Qed.

(** Requests [ids] served, in order, with one event each. *)
Definition served (ids : list RequestId) (o o' : OracleStore) : Prop :=
  exists es, event_request <$> es = Some <$> ids /\
    o' = set_oracle_events (fun l => l ++ es) (set_Responses (delete_all ids) (set_Requests (delete_all ids) o)).

Lemma served_nil o : served [] o o.
Proof. exists []. split; [done|]. destruct o. unfold set_oracle_events. cbn. by rewrite app_nil_r. Qed.

Lemma served_cons id ids o o1 o2 : served [id] o o1 -> served ids o1 o2 -> served (id :: ids) o o2.
Proof.
  intros (es1 & He1 & ->) (es2 & He2 & ->). exists (es1 ++ es2). split; [by rewrite fmap_app, He1, He2|].
  unfold set_oracle_events, set_Responses, set_Requests. cbn. by rewrite app_assoc.
Qed.

Section Callbacks.
Context {E : Type} {currency : MultiCurrency E} {oenv : OracleEnv E} {config : OracleConfig} {laws : OracleEnvLaws E}.
Abbreviation St := (State E).
Implicit Types s : St.

(** Calls that only act on the environment. *)
Definition outside {A} (m : D St A) : Prop := forall s, oracle (snd (m s)) = oracle s /\ block_number (snd (m s)) = block_number s.

Lemma outside_reader {A} (m : D St A) : reader m -> outside m.
Proof. intros Hm s. by rewrite Hm. Qed.
Lemma outside_on_env {A} (m : D E A) : outside (on_env m).
Proof. intros s. unfold on_env. by destruct (m _). Qed.
Lemma outside_bind {A A'} (m : D St A) (k : A -> D St A') : outside m -> (forall a, outside (k a)) -> outside (bind m k).
Proof.
  intros Hm Hk s. destruct (Hm s) as [H1 H2]. unfold bind. destruct (m s) as [[a|e|] s1]; cbn in *; [|done..].
  destruct (Hk a s1) as [-> ->]. done.
Qed.
Lemma outside_map_err {A} (m : D St A) e : outside m -> outside (map_err m e).
Proof. intros Hm s. destruct (Hm s). unfold map_err. by destruct (m s) as [[]]. Qed.

Lemma payment_outside request response : outside (pay_for_callback request response).
Proof.
  apply outside_bind; [|intros _; apply outside_bind; [by apply outside_reader|]; intros fee;
    apply outside_bind; [|intros _]; apply outside_map_err, outside_on_env].
  destruct (rq_fee_preferences request); [|by apply outside_reader].
  apply outside_bind; [apply outside_on_env | intros _; by apply outside_reader].
Qed.

Lemma on_env_no_panic {A} (m : D E A) s : fst (m (env s)) <> Panic -> fst (on_env m s) <> Panic.
Proof. unfold on_env. by destruct (m (env s)). Qed.

Lemma payment_no_panic request response s : fst (pay_for_callback request response s) <> Panic.
Proof.
  unfold pay_for_callback, bind at 1. set (pre := match rq_fee_preferences request with Some _ => _ | None => _ end).
  assert (Hpre : fst (pre s) <> Panic).
  { unfold pre. destruct (rq_fee_preferences request) as [fp|]; [|done]. unfold bind, on_env.
    match goal with |- context [or_buy_fee_asset ?w ?a ?x ?e] => pose proof (ol_buy w a x e); destruct (or_buy_fee_asset w a x e) as [[]] end; done. }
  destruct (pre s) as [[u|e|] s1]; [|done..]. unfold bind, gets, map_err.
  match goal with |- context [on_env (cur_transfer ?f ?t ?a ?v ?r) ?s'] =>
    pose proof (on_env_no_panic (cur_transfer f t a v r) s' (ol_transfer f t a v r (env s'))) as H1; destruct (on_env (cur_transfer f t a v r) s') as [[u1|e1|] s2] end;
    [|done..].
  match goal with |- context [on_env (cur_transfer ?f ?t ?a ?v ?r) s2] =>
    pose proof (on_env_no_panic (cur_transfer f t a v r) s2 (ol_transfer f t a v r (env s2))) as H2; destruct (on_env (cur_transfer f t a v r) s2) as [[]] end;
    done.
Qed.

Definition post_weight (r : option Weight + (DispatchError * option Weight)) : Weight :=
  match r with inl w | inr (_, w) => default 0 w end.

Lemma try_callback_ok id request response s : exists r s', try_callback id request response s = (Ok r, s') /\
  oracle s' = oracle s /\ block_number s' = block_number s /\ 0 <= post_weight r <= gas_to_weight (rq_callback_gas_limit request).
Proof.
  pose proof (ol_gas (rq_callback_gas_limit request)) as Hgas. unfold try_callback.
  destruct (rs_return_data response) as [data|]; [|eexists _, s; split_and!; try done; cbn; lia].
  pose proof (payment_no_panic request response s) as Hnp. destruct (payment_outside request response s) as [Ho Hb].
  destruct (pay_for_callback request response s) as [[u|e|] s1]; cbn in Ho, Hb; [| |done].
  - unfold on_env, state.
    pose proof (ol_weight StateOraclePrecompileAddress (rq_caller request) (callback_input id request response data)
      (rq_callback_gas_limit request) MinGasPrice 1 (env s1)) as Hw.
    destruct (or_execute _ _ _ _ _ _ _) as [r e']. cbn in Hw. eexists r, _. split_and!; try done; destruct r as [w|[e w]]; cbn; lia.
  - eexists _, s1. split_and!; try done; cbn; lia.
Qed.

Lemma run_callback_ok id request s : is_Some (Responses (oracle s) !! id) ->
  exists w s', run_callback id request s = (Ok w, s') /\ served [id] (oracle s) (oracle s') /\ block_number s' = block_number s /\
    0 <= w <= gas_to_weight (rq_callback_gas_limit request).
Proof.
  intros [response Hr]. unfold run_callback, bind at 1, write at 1, modify at 1. cbv beta iota.
  unfold bind at 1, gets. cbn [oracle on_oracle Responses set_Requests]. unfold bind at 1, write at 1, modify at 1. cbv beta iota.
  unfold set_Requests at 1. cbn [Responses]. rewrite Hr. unfold unwrap, bind at 1, ret at 1. cbv beta iota. unfold bind at 1.
  set (s1 := on_oracle _ _). destruct (try_callback_ok id request response s1) as (r & s' & -> & Ho & Hb & Hw).
  destruct r as [aw|[error aw]]; cbn in Hw; unfold bind, deposit_event, write, modify, ret; (eexists _, _; split_and!; [done | | done | lia | lia]).
  - exists [Callback id (default 0 aw)]. split; [done|]. cbn. by rewrite Ho.
  - exists [CallbackErr id error]. split; [done|]. cbn. by rewrite Ho.
Qed.

(** A request that can be called back: answered and not challenged. *)
Definition callable (o : OracleStore) (id : RequestId) : Prop :=
  is_Some (Requests o !! id) /\ is_Some (Responses o !! id) /\ ResponsesChallenged o !! id = None.

Lemma callable_served id i o o' : served [id] o o' -> i <> id -> callable o i -> callable o' i.
Proof.
  intros (es & _ & ->) Hne (H1 & H2 & H3). split_and!; cbn; [by rewrite lookup_delete_ne..|done].
Qed.

(** The weight the next callback may need. *)
Definition needed (consumed : Weight) (request : CallRequest) : Weight :=
  saturating_add U64 (saturating_add U64 consumed per_callback_weight) (gas_to_weight (rq_callback_gas_limit request)).

Lemma per_callback_weight_nonneg : 0 <= per_callback_weight.
Proof. unfold per_callback_weight, wrapping_add. apply wrap_range. done. Qed.

Lemma idle_callbacks_spec w ids c k s : in_range U64 w -> in_range U64 c -> NoDup ids -> (forall i, i ∈ ids -> callable (oracle s) i) ->
  exists n c' s', idle_callbacks w ids c k s = (Ok (c', (k + n)%nat), s') /\ (n <= length ids)%nat /\
    served (take n ids) (oracle s) (oracle s') /\ block_number s' = block_number s /\ c <= c' <= Z.max c w /\
    forall i, ids !! n = Some i -> exists request, Requests (oracle s') !! i = Some request /\ w < needed c' request.
Proof.
  intros Hw. revert c k s. induction ids as [|id ids IH]; intros c k s Hc Hnd Hcall.
  { exists 0%nat, c, s. rewrite Nat.add_0_r. split_and!; try done; try apply served_nil; lia. }
  apply NoDup_cons in Hnd as [Hnotin Hnd]. destruct (Hcall id) as ([request Hreq] & Hresp & Hch); [left|].
  simpl. unfold bind at 1, gets. rewrite bool_decide_eq_false_2 by (rewrite Hch; by intros []).
  rewrite Hreq. unfold unwrap, bind at 1, ret at 1. cbv beta iota. fold (needed c request).
  destruct (Z.ltb_spec w (needed c request)) as [Hlt|Hge].
  { exists 0%nat, c, s. rewrite Nat.add_0_r. split_and!; try done; try apply served_nil; try lia.
    intros i [= <-]. by exists request. }
  unfold bind at 1. destruct (run_callback_ok id request s Hresp) as (cw & s1 & -> & Hs1 & Hb1 & Hcw).
  set (c1 := saturating_add U64 _ cw). pose proof per_callback_weight_nonneg.
  assert (Hc1 : c <= c1 <= w).
  { unfold c1, needed, saturating_add, in_range in *. lia. }
  destruct (IH c1 (S k) s1) as (n & c' & s' & -> & Hn & Hs' & Hb' & Hc' & Hnext); [unfold in_range in *; lia | done | |].
  { intros i Hi. eapply callable_served; [exact Hs1 | by intros -> | apply Hcall; by right]. }
  exists (S n), c', s'. replace (S k + n)%nat with (k + S n)%nat by lia. split_and!; try done; try (simpl; lia).
  - simpl. by eapply served_cons.
Qed.
End Callbacks.

(** * Correctness of the state oracle

    The invariant of the oracle as long as nobody challenges a response:
    every request is on its way to expiry or to its callback, relayers with open
    responses stay bonded, the work per block is bounded, and callbacks run in
    order and never panic. What a challenge breaks is shown at the end. *)


Abbreviation ids_at := (sget (@nil Z)) (only parsing).

(** ** The invariant *)
Section Invariant.
Context {config : OracleConfig}.

Record oracle_ok (now : BlockNumber) (o : OracleStore) : Prop := {
  ok_unchallenged : ResponsesChallenged o = ∅;
  ok_response : forall id r, Responses o !! id = Some r ->
    is_Some (Requests o !! id) /\ RelayerBondAmount <= sget 0 (rs_relayer r) (RelayerBonds o) /\
    (id ∈ ResponsesForCallback o \/ exists b, now < b /\ id ∈ ids_at b (ResponsesValidAtBlock o));
  ok_request : forall id q, Requests o !! id = Some q -> id < NextRequestId o /\
    (Responses o !! id = None -> now < rq_expiry_block q /\ id ∈ ids_at (rq_expiry_block q) (RequestsExpiredAtBlock o));
  ok_queue : NoDup (ResponsesForCallback o) /\ forall id, id ∈ ResponsesForCallback o -> is_Some (Responses o !! id);
  ok_valid : forall b, NoDup (ids_at b (ResponsesValidAtBlock o)) /\ forall id, id ∈ ids_at b (ResponsesValidAtBlock o) ->
    is_Some (Responses o !! id) /\ id ∉ ResponsesForCallback o;
  ok_valid_once : forall b1 b2 id, id ∈ ids_at b1 (ResponsesValidAtBlock o) -> id ∈ ids_at b2 (ResponsesValidAtBlock o) -> b1 = b2;
  ok_expired : forall b id, id ∈ ids_at b (RequestsExpiredAtBlock o) ->
    Responses o !! id = None /\ b <= now + ChallengePeriod /\ exists q, Requests o !! id = Some q /\ rq_expiry_block q = b;
  ok_limit : 0 <= RequestsThisBlock o <= MaxRequestsPerBlock /\ forall b, Z.of_nat (length (ids_at b (RequestsExpiredAtBlock o))) <=
    if b =? now + ChallengePeriod then RequestsThisBlock o else MaxRequestsPerBlock;
}.

Lemma ids_at_insert b x l (m : gmap BlockNumber (list RequestId)) :
  ids_at x (<[b := l]> m) = if bool_decide (b = x) then l else ids_at x m.
Proof. unfold sget. case_bool_decide as E; [subst; by rewrite lookup_insert_eq | by rewrite lookup_insert_ne]. Qed.

Lemma ids_at_delete b x (m : gmap BlockNumber (list RequestId)) :
  ids_at x (delete b m) = if bool_decide (b = x) then [] else ids_at x m.
Proof. unfold sget. case_bool_decide as E; [subst; by rewrite lookup_delete_eq | by rewrite lookup_delete_ne]. Qed.

(** Serving the first [n] callbacks. *)
Lemma served_ok now n o o' : oracle_ok now o -> served (take n (ResponsesForCallback o)) o o' ->
  oracle_ok now (set_ResponsesForCallback (fun _ => drop n (ResponsesForCallback o)) o').
Proof.
  intros [H1 H2 H3 [H4 H4'] H5 H6 H7 H8] (es & _ & ->). set (ids := take n (ResponsesForCallback o)).
  assert (Hsplit : ResponsesForCallback o = ids ++ drop n (ResponsesForCallback o)) by (symmetry; apply take_drop).
  rewrite Hsplit in H4. apply NoDup_app in H4 as (_ & Hdis & Hnd).
  assert (Hids : forall i, i ∈ ids -> i ∈ ResponsesForCallback o) by (intros i Hi; rewrite Hsplit; set_solver).
  constructor; cbn; try done.
  - intros id r. rewrite !lookup_delete_all. case_bool_decide as Hin; [done|]. intros Hr.
    destruct (H2 id r Hr) as (Hq & Hb & Hwhere). split_and!; [done..|]. destruct Hwhere as [Hw|Hw]; [|by right].
    left. rewrite Hsplit in Hw. set_solver.
  - intros id q. rewrite !lookup_delete_all. case_bool_decide as Hin; [done|]. apply H3.
  - split; [done|]. intros id Hid. rewrite lookup_delete_all, bool_decide_eq_false_2 by (intros Hi; by eapply Hdis).
    apply H4'. rewrite Hsplit. set_solver.
  - intros b. destruct (H5 b) as [Hndv Hv]. split; [done|]. intros id Hid. destruct (Hv id Hid) as [Hr Hq].
    rewrite lookup_delete_all, bool_decide_eq_false_2 by (intros Hi; by apply Hq, Hids). split; [done|]. rewrite Hsplit in Hq. set_solver.
  - intros b id Hid. destruct (H7 b id Hid) as (Hr & Hle & q & Hq & He). split_and!; [|done|].
    + rewrite lookup_delete_all, Hr. by case_match.
    + exists q. rewrite lookup_delete_all, bool_decide_eq_false_2; [done|]. intros Hi. destruct (H4' id (Hids id Hi)) as [? ?]. congruence.
Qed.

(** A response to an open request. *)
Lemma respond_ok now o id q r : oracle_ok now o -> 0 < ChallengePeriod -> Requests o !! id = Some q -> Responses o !! id = None ->
  RelayerBondAmount <= sget 0 (rs_relayer r) (RelayerBonds o) ->
  oracle_ok now
    (set_RequestsExpiredAtBlock (fun m => <[rq_expiry_block q := filter (fun x => x <> id) (ids_at (rq_expiry_block q) m)]> m)
      (set_ResponsesValidAtBlock (append (now + ChallengePeriod) id) (set_Responses (insert id r) o))).
Proof.
  intros [H1 H2 H3 [H4 H4'] H5 H6 H7 [H8 H8']] HP Hq Hr Hbond. set (vb := now + ChallengePeriod).
  destruct (H3 id q Hq) as [Hlt Hexp]. destruct (Hexp Hr) as [Hnow Hin].
  assert (Hvalid : forall x i, i ∈ ids_at x (append vb id (ResponsesValidAtBlock o)) <-> i ∈ ids_at x (ResponsesValidAtBlock o) \/ (x = vb /\ i = id)).
  { intros x i. unfold append. rewrite ids_at_insert. case_bool_decide; [subst; set_solver | naive_solver]. }
  assert (Hnv : forall x, id ∉ ids_at x (ResponsesValidAtBlock o)).
  { intros x Hx. destruct (H5 x) as [_ Hv]. destruct (Hv id Hx) as [[? ?] _]. congruence. }
  assert (Hex : forall x i, i ∈ ids_at x (<[rq_expiry_block q := filter (fun y => y <> id) (ids_at (rq_expiry_block q) (RequestsExpiredAtBlock o))]> (RequestsExpiredAtBlock o)) <->
    i ∈ ids_at x (RequestsExpiredAtBlock o) /\ i <> id).
  { intros x i. rewrite ids_at_insert. case_bool_decide as E; [subst; rewrite list_elem_of_filter; naive_solver|].
    split; [|naive_solver]. intros Hi. split; [done|]. intros ->. destruct (H7 x id Hi) as (_ & _ & q' & Hq' & He). congruence. }
  constructor; cbn; try done.
  - intros i r' [[<- <-]|[Hne Hi]]%lookup_insert_Some.
    + split_and!; [by rewrite Hq | done|]. right. exists vb. split; [unfold vb; lia|]. apply Hvalid. by right.
    + destruct (H2 i r' Hi) as (Ha & Hb & Hc). split_and!; [done..|]. destruct Hc as [Hc|(b & Hb' & Hc)]; [by left|].
      right. exists b. split; [done|]. apply Hvalid. by left.
  - intros i q' Hi. destruct (H3 i q' Hi) as [Ha Hb]. split; [done|]. intros Hn%lookup_insert_None. destruct Hn as [Hn Hne].
    destruct (Hb Hn) as [Hb1 Hb2]. split; [done|]. apply Hex. split; [done | congruence].
  - split; [done|]. intros i Hi. destruct (decide (i = id)) as [->|Hne]; [rewrite lookup_insert_eq; eauto|].
    rewrite lookup_insert_ne by done. by apply H4'.
  - intros b. destruct (H5 b) as [Hnd Hv]. split.
    + unfold append. rewrite ids_at_insert. case_bool_decide; [|done]. subst b. apply NoDup_app. split_and!; [done | | apply NoDup_singleton].
      intros i Hi ->%list_elem_of_singleton. by apply Hnv in Hi.
    + intros i [Hi|[_ ->]]%Hvalid.
      * destruct (Hv i Hi) as [? ?]. split; [|done]. rewrite lookup_insert_ne; [done|]. intros <-. by apply Hnv in Hi.
      * split; [rewrite lookup_insert_eq; eauto|]. intros [? ?]%H4'. congruence.
  - intros b1 b2 i [Hi1|[-> ->]]%Hvalid [Hi2|[-> Heq]]%Hvalid; [eauto | | |done].
    + subst i. by apply Hnv in Hi1.
    + by apply Hnv in Hi2.
  - intros b i [Hi Hne]%Hex. destruct (H7 b i Hi) as (? & ? & ?). split_and!; [by rewrite lookup_insert_ne | done..].
  - split; [done|]. intros b. specialize (H8' b). rewrite ids_at_insert. case_bool_decide as E; [|done]. subst b.
    etransitivity; [|exact H8']. apply Nat2Z.inj_le, length_filter.
Qed.

(** A new request. *)
Lemma request_ok now o q : oracle_ok now o -> 0 < ChallengePeriod -> MaxRequestsPerBlock <= umax U32 -> rq_expiry_block q = now + ChallengePeriod ->
  RequestsThisBlock o < MaxRequestsPerBlock ->
  oracle_ok now
    (set_RequestsExpiredAtBlock (append (now + ChallengePeriod) (NextRequestId o))
      (set_RequestsThisBlock (fun i => wrapping_add U32 i 1)
        (set_NextRequestId (fun i => i + 1) (set_Requests (insert (NextRequestId o) q) o)))).
Proof.
  intros [H1 H2 H3 [H4 H4'] H5 H6 H7 [H8 H8']] HP Hmax Hq Hlim. set (id := NextRequestId o). set (eb := now + ChallengePeriod) in *.
  assert (Hfresh : Requests o !! id = None).
  { destruct (Requests o !! id) as [q'|] eqn:E; [|done]. apply H3 in E as [? _]. unfold id in *. lia. }
  assert (Hnr : Responses o !! id = None).
  { destruct (Responses o !! id) as [r|] eqn:E; [|done]. apply H2 in E as [[? ?] _]. congruence. }
  assert (Hex : forall x i, i ∈ ids_at x (append eb id (RequestsExpiredAtBlock o)) <-> i ∈ ids_at x (RequestsExpiredAtBlock o) \/ (x = eb /\ i = id)).
  { intros x i. unfold append. rewrite ids_at_insert. case_bool_decide; [subst; set_solver | naive_solver]. }
  assert (Hwrap : wrapping_add U32 (RequestsThisBlock o) 1 = RequestsThisBlock o + 1).
  { unfold wrapping_add. apply wrap_small. unfold in_range. lia. }
  constructor; cbn; try done.
  - intros i r Hi. destruct (H2 i r Hi) as (Ha & Hb & Hc). split_and!; [|done..]. rewrite lookup_insert_ne; [done|]. congruence.
  - intros i q' [[<- <-]|[Hne Hi]]%lookup_insert_Some.
    + split; [unfold id; lia|]. intros _. rewrite Hq. split; [unfold eb; lia|]. apply Hex. by right.
    + destruct (H3 i q' Hi) as [Ha Hb]. split; [lia|]. intros Hn. destruct (Hb Hn) as [Hb1 Hb2]. split; [done|]. apply Hex. by left.
  - intros b i [Hi|[-> ->]]%Hex.
    + destruct (H7 b i Hi) as (Ha & Hb & q' & Hq' & He). split_and!; [done..|]. exists q'. rewrite lookup_insert_ne; [done|]. congruence.
    + split_and!; [done | done|]. exists q. by rewrite lookup_insert_eq.
  - rewrite Hwrap. split; [lia|]. intros b. specialize (H8' b). unfold append. rewrite ids_at_insert. fold eb in H8' |- *.
    case_bool_decide as E; [subst b; rewrite Z.eqb_refl in *; rewrite length_app; simpl; lia|].
    destruct (Z.eqb_spec b eb); [congruence | done].
Qed.

(** The start of a block. *)
Lemma initialize_ok now o es : oracle_ok now o -> 0 < ChallengePeriod ->
  oracle_ok (now + 1)
    (set_oracle_events es (set_Requests (delete_all (ids_at (now + 1) (RequestsExpiredAtBlock o)))
      (set_RequestsExpiredAtBlock (delete (now + 1))
        (set_ResponsesForCallback (fun l => l ++ ids_at (now + 1) (ResponsesValidAtBlock o))
          (set_ResponsesValidAtBlock (delete (now + 1)) (set_RequestsThisBlock (fun _ => 0) o)))))).
Proof.
  intros [H1 H2 H3 [H4 H4'] H5 H6 H7 [H8 H8']] HP. set (valid := ids_at (now + 1) (ResponsesValidAtBlock o)).
  set (expired := ids_at (now + 1) (RequestsExpiredAtBlock o)). destruct (H5 (now + 1)) as [Hnd Hv]. fold valid in Hnd, Hv.
  assert (Hresp : forall i, i ∈ expired -> Responses o !! i = None) by (intros i Hi; by destruct (H7 _ _ Hi)).
  constructor; cbn; try done.
  - intros i r Hi. destruct (H2 i r Hi) as (Ha & Hb & Hc). split_and!; [|done|].
    + rewrite lookup_delete_all, bool_decide_eq_false_2; [done|]. intros Hx%Hresp. congruence.
    + destruct Hc as [Hc|(b & Hb' & Hc)]; [left; set_solver|]. destruct (decide (b = now + 1)) as [->|Hne]; [left; set_solver|].
      right. exists b. split; [lia|]. rewrite ids_at_delete. case_bool_decide; [congruence | done].
  - intros i q. rewrite lookup_delete_all. case_bool_decide as Hin; [done|]. intros Hi. destruct (H3 i q Hi) as [Ha Hb]. split; [done|].
    intros Hn. destruct (Hb Hn) as [Hb1 Hb2]. destruct (decide (rq_expiry_block q = now + 1)) as [E|Hne]; [rewrite E in Hb2; done|].
    split; [lia|]. rewrite ids_at_delete. case_bool_decide; [congruence | done].
  - split.
    + apply NoDup_app. split_and!; [done | | done]. intros i Hi Hi'. by destruct (Hv i Hi').
    + intros i [Hi|Hi]%elem_of_app; [by apply H4' | by apply Hv].
  - intros b. rewrite ids_at_delete. case_bool_decide as E; [split; [constructor|]; intros i ?%not_elem_of_nil; done|].
    destruct (H5 b) as [Hndb Hvb]. split; [done|]. intros i Hi. destruct (Hvb i Hi) as [Ha Hb]. split; [done|].
    intros [?|Hi']%elem_of_app; [done|]. by apply E, (H6 _ _ i).
  - intros b1 b2 i. rewrite !ids_at_delete. do 2 (case_bool_decide; [by intros ?%not_elem_of_nil || (intros _; by intros ?%not_elem_of_nil)|]). apply H6.
  - intros b i. rewrite ids_at_delete. case_bool_decide as E; [by intros ?%not_elem_of_nil|]. intros Hi.
    destruct (H7 b i Hi) as (Ha & Hb & q & Hq & He). split_and!; [done | lia|]. exists q. split; [|done].
    rewrite lookup_delete_all, bool_decide_eq_false_2; [done|]. intros Hx. destruct (H7 _ _ Hx) as (_ & _ & q' & Hq' & He'). congruence.
  - split; [lia|]. intros b. rewrite ids_at_delete. specialize (H8' b).
    case_bool_decide as E; [clear H8'; simpl; destruct (_ =? _); lia|]. destruct (Z.eqb_spec b (now + 1 + ChallengePeriod)) as [->|Hne].
    + destruct (ids_at (now + 1 + ChallengePeriod) (RequestsExpiredAtBlock o)) as [|i l] eqn:Hl; [simpl; lia|].
      destruct (H7 (now + 1 + ChallengePeriod) i) as (_ & Hle & _); [rewrite Hl; left | lia].
    + destruct (b =? now + ChallengePeriod); lia.
Qed.
End Invariant.

(** ** Operations *)
Inductive Call :=
| C_bond_relayer
| C_unbond_relayer
| C_set_max_response_drift (n : Z)
| C_submit_call_response (id : RequestId) (data : ReturnDataClaim) (eth_block_number eth_block_timestamp : Z)
| C_bond_challenger
| C_unbond_challenger.

Section Theorems.
Context {E : Type} {currency : MultiCurrency E} {oenv : OracleEnv E} {config : OracleConfig} {laws : OracleEnvLaws E}.
Abbreviation St := (State E).
Implicit Types s : St.

Definition ok s : Prop := oracle_ok (block_number s) (oracle s) /\ 0 <= block_number s /\ block_number s + ChallengePeriod <= umax U32.

Lemma outside_ok {A} (m : D St A) : outside m -> preserves ok m.
Proof. intros Hm s Hs. destruct (Hm s) as [H1 H2]. unfold ok. by rewrite H1, H2. Qed.

Lemma write_ok f : (forall now o, oracle_ok now o -> oracle_ok now (f o)) -> preserves ok (write f).
Proof. intros Hf s [Hs Hn]. split; [by apply Hf | done]. Qed.

(** Fields the invariant does not read. *)
Lemma event_ok e : preserves ok (deposit_event (E := E) e).
Proof. apply write_ok. by intros now o []. Qed.

Lemma bonds_ok now o f : oracle_ok now o ->
  (forall id r, Responses o !! id = Some r -> RelayerBondAmount <= sget 0 (rs_relayer r) (f (RelayerBonds o))) ->
  oracle_ok now (set_RelayerBonds f o).
Proof. intros [] Hf. constructor; cbn; try done. intros id r Hr. destruct (ok_response0 id r Hr) as (? & _ & ?). eauto. Qed.

Lemma bond_relayer_ok origin : preserves ok (bond_relayer origin).
Proof.
  apply preserves_bind; [apply preserves_reader; auto with dispatch | intros who].
  apply preserves_bind; [by apply preserves_reader | intros o0].
  apply preserves_bind; [apply preserves_reader; auto with dispatch | intros _].
  apply preserves_bind; [apply preserves_reader; auto with dispatch | intros _].
  apply preserves_bind; [by apply preserves_reader | intros fee].
  apply preserves_bind; [apply outside_ok, outside_on_env | intros _].
  apply preserves_bind; [|intros _; apply event_ok]. apply write_ok. intros now o Ho. apply bonds_ok; [done|]. intros id r Hr.
  destruct (ok_response _ _ Ho id r Hr) as (_ & Hb & _). unfold sget in *.
  destruct (decide (rs_relayer r = who)) as [->|Hne]; [by rewrite lookup_insert_eq | by rewrite lookup_insert_ne].
Qed.

Lemma has_response_true who (m : gmap RequestId CallResponse) :
  existsb (fun '(_, response) => rs_relayer response =? who) (map_to_list m) = true <-> exists id r, m !! id = Some r /\ rs_relayer r = who.
Proof.
  rewrite existsb_exists. split.
  - intros ([id r] & Hin & Heq%Z.eqb_eq). exists id, r. split; [|done]. by apply elem_of_map_to_list, list_elem_of_In.
  - intros (id & r & Hr & Heq). exists (id, r). split; [by apply list_elem_of_In, elem_of_map_to_list | by apply Z.eqb_eq].
Qed.

Lemma unbond_relayer_ok origin : preserves ok (unbond_relayer origin).
Proof.
  intros s Hs. unfold unbond_relayer. destruct origin as [|who|]; [done| |done].
  unfold ensure_signed, bind at 1, ret at 1. cbv iota. unfold bind at 1, gets.
  destruct (_ =? 0); [done|]. unfold ensure at 1, negb at 1, bind at 1, ret at 1. cbv iota.
  destruct (existsb _ _) eqn:Hex; [done|]. unfold ensure at 1, negb at 1, bind at 1, ret at 1. cbv iota.
  unfold bind at 1. unfold bind at 1, on_env at 1, state. destruct (cur_unreserve _ _ _ _) as [left_ e'].
  unfold bind, write, modify, deposit_event. destruct Hs as [Hs Hn]. split; [|done]. cbn.
  assert (Hb : oracle_ok (block_number s) (set_RelayerBonds (delete who) (oracle s))).
  { apply bonds_ok; [done|]. intros id r Hr. destruct (ok_response _ _ Hs id r Hr) as (_ & Hb & _). unfold sget in *.
    rewrite lookup_delete_ne; [done|]. intros Heq. assert (Ht : existsb (fun '(_, response) => rs_relayer response =? who)
      (map_to_list (Responses (oracle s))) = true) by (apply has_response_true; eauto). congruence. }
  by destruct Hb.
Qed.

Hypothesis HP : 0 < ChallengePeriod.

Lemma submit_call_response_ok origin id data n t : preserves ok (submit_call_response origin id data n t).
Proof.
  intros s Hs. unfold submit_call_response. destruct origin as [|who|]; [done| |done].
  unfold ensure_signed, bind at 1, ret at 1. cbv iota. unfold bind at 1, gets.
  destruct (Z.leb_spec RelayerBondAmount (sget 0 who (RelayerBonds (oracle s)))) as [Hb|]; [|done].
  unfold ensure at 1, bind at 1, ret at 1. cbv iota. case_bool_decide as Hq; [|done].
  unfold ensure at 1, bind at 1, ret at 1. cbv iota. case_bool_decide as Hr; [done|].
  unfold ensure at 1, negb at 1, bind at 1, ret at 1. cbv iota.
  destruct Hq as [q Hq]. rewrite Hq. unfold ensure at 1, bind at 1. destruct (_ && _); [|done]. unfold ret at 1. cbv iota.
  destruct Hs as [Hs Hn]. split; [|done]. cbn.
  assert (Hvb : wrapping_add U32 (block_number s) ChallengePeriod = block_number s + ChallengePeriod).
  { unfold wrapping_add. apply wrap_small. unfold in_range. lia. }
  rewrite Hvb. refine (respond_ok (block_number s) (oracle s) id q (mkResponse data n t who) Hs HP Hq _ Hb).
  destruct (Responses (oracle s) !! id); [destruct Hr; eauto | done].
Qed.

Definition dispatch (c : Call) (origin : Origin) : D St unit :=
  match c with
  | C_bond_relayer => bond_relayer origin
  | C_unbond_relayer => unbond_relayer origin
  | C_set_max_response_drift n => set_max_response_drift origin n
  | C_submit_call_response id data n t => submit_call_response origin id data n t
  | C_bond_challenger => bond_challenger origin
  | C_unbond_challenger => unbond_challenger origin
  end.

Lemma dispatch_ok c origin : preserves ok (dispatch c origin).
Proof.
  destruct c; cbn [dispatch]; [apply bond_relayer_ok | apply unbond_relayer_ok | | apply submit_call_response_ok | |].
  - apply preserves_bind; [apply preserves_reader; auto with dispatch | intros _]. apply write_ok. by intros now o [].
  - apply preserves_bind; [apply preserves_reader; auto with dispatch | intros who].
    apply preserves_bind; [by apply preserves_reader | intros o0].
    apply preserves_bind; [apply preserves_reader; auto with dispatch | intros _].
    apply preserves_bind; [by apply preserves_reader | intros fee].
    apply preserves_bind; [apply outside_ok, outside_on_env | intros _].
    apply preserves_bind; [|intros _; apply event_ok]. apply write_ok. by intros now o [].
  - apply preserves_bind; [apply preserves_reader; auto with dispatch | intros who].
    apply preserves_bind; [by apply preserves_reader | intros o0].
    apply preserves_bind; [apply preserves_reader; auto with dispatch | intros _].
    apply preserves_bind; [apply preserves_reader; auto with dispatch | intros _].
    apply preserves_bind; [by apply preserves_reader | intros fee].
    apply preserves_bind; [apply outside_ok, outside_on_env | intros left_].
    apply preserves_bind; [|intros _; apply event_ok]. apply write_ok. by intros now o [].
Qed.

Hypothesis Hmax : 0 <= MaxRequestsPerBlock <= umax U32.

Lemma new_request_ok caller dest input sig gas fp bounty id s s' : ok s ->
  new_request caller dest input sig gas fp bounty s = (Ok id, s') -> ok s'.
Proof.
  intros [Hs Hn]. unfold new_request, bind at 1, gets.
  destruct (Z.ltb_spec (RequestsThisBlock (oracle s)) MaxRequestsPerBlock) as [Hlim|]; [|done].
  unfold ensure at 1, bind at 1, ret at 1. cbv iota. destruct (_ =? 0); [done|]. unfold ensure at 1, negb, bind at 1, ret at 1. cbv iota.
  unfold bind at 1, write at 1, modify at 1. cbv beta iota. unfold bind at 1. destruct (_ <=? umax 256); [|done].
  unfold bind, write, modify, ret. cbv beta iota. intros [= _ <-]. split; [|done].
  assert (Hvb : wrapping_add U32 (block_number s) ChallengePeriod = block_number s + ChallengePeriod).
  { unfold wrapping_add. apply wrap_small. unfold in_range. lia. }
  unfold on_oracle. cbn [oracle block_number]. rewrite Hvb.
  apply (request_ok (block_number s) (oracle s)); [done | done | apply Hmax | done | done].
Qed.

(** ** Blocks *)
Lemma promote_loop ids s : for_each ids (fun id => write (set_ResponsesForCallback (fun l => l ++ [id]))) s =
  (Ok tt, on_oracle (set_ResponsesForCallback (fun l => l ++ ids)) s).
Proof.
  revert s. induction ids as [|i ids IH]; intros s; simpl.
  - unfold ret, on_oracle, set_ResponsesForCallback. rewrite app_nil_r. by destruct s as [[] ? ?].
  - unfold bind, write, modify. rewrite IH. unfold on_oracle, set_ResponsesForCallback. cbn. by rewrite <- app_assoc.
Qed.

Definition expiry_event (id : RequestId) : Event := CallbackErr id (EthStateOracle OracleError.RequestExpired).

Lemma expire_loop ids s : for_each ids (fun id => do* write (set_Requests (delete id)) in deposit_event (expiry_event id)) s =
  (Ok tt, on_oracle (fun o => set_oracle_events (fun l => l ++ (expiry_event <$> ids)) (set_Requests (delete_all ids) o)) s).
Proof.
  revert s. induction ids as [|i ids IH]; intros s; simpl.
  - unfold ret, on_oracle, set_oracle_events, set_Requests, delete_all. cbn. rewrite app_nil_r. by destruct s as [[] ? ?].
  - unfold bind, deposit_event, write, modify. unfold bind, deposit_event, write, modify in IH. rewrite IH.
    unfold on_oracle, set_oracle_events, set_Requests. cbn. by rewrite <- app_assoc.
Qed.

Lemma on_initialize_eq now s : on_initialize now s = (Ok tt, on_oracle (fun o =>
    set_oracle_events (fun l => l ++ (expiry_event <$> ids_at now (RequestsExpiredAtBlock o)))
      (set_Requests (delete_all (ids_at now (RequestsExpiredAtBlock o)))
        (set_RequestsExpiredAtBlock (delete now)
          (set_ResponsesForCallback (fun l => l ++ ids_at now (ResponsesValidAtBlock o))
            (set_ResponsesValidAtBlock (delete now) (set_RequestsThisBlock (fun _ => 0) o)))))) s).
Proof.
  unfold on_initialize. unfold bind at 1, write at 1, modify at 1. cbv beta iota. unfold bind at 1, gets.
  unfold bind at 1, write at 1, modify at 1. cbv beta iota. unfold bind at 1. rewrite promote_loop.
  unfold bind at 1, write at 1, modify at 1. cbv beta iota.
  exact (expire_loop (ids_at now (RequestsExpiredAtBlock (oracle s))) _).
Qed.

Lemma on_idle_ok w s : in_range U64 w -> ok s ->
  exists n c s', on_idle w s = (Ok c, s') /\ ok s' /\ (n <= length (ResponsesForCallback (oracle s)))%nat /\
    (exists o1, served (take n (ResponsesForCallback (oracle s))) (oracle s) o1 /\
       oracle s' = set_ResponsesForCallback (fun _ => drop n (ResponsesForCallback (oracle s))) o1) /\
    c <= Z.max (Z.max (reads 1) (wrapping_add U64 (reads 2) (writes 1))) w /\
    (forall i, ResponsesForCallback (oracle s) !! n = Some i ->
       exists request, Requests (oracle s') !! i = Some request /\ w < needed c request).
Proof.
  intros Hw [Hs Hn]. destruct (ok_queue _ _ Hs) as [Hnd Hresp].
  assert (Hcall : forall i, i ∈ ResponsesForCallback (oracle s) -> callable (oracle s) i).
  { intros i Hi. destruct (Hresp i Hi) as [r Hr]. destruct (ok_response _ _ Hs i r Hr) as (Hq & _). split_and!; [done | eauto|].
    rewrite (ok_unchallenged _ _ Hs). apply lookup_empty. }
  unfold on_idle, bind at 1, gets. destruct (ResponsesForCallback (oracle s)) as [|i0 l0] eqn:Hcb.
  { exists 0%nat, (reads 1), s. split_and!; try done; [|lia]. exists (oracle s). split; [apply served_nil|].
    rewrite drop_nil, <- Hcb. by destruct (oracle s). }
  rewrite <- Hcb in *.
  destruct (idle_callbacks_spec w (ResponsesForCallback (oracle s)) (wrapping_add U64 (reads 2) (writes 1)) 0 s Hw) as (n & c & s1 & Hi & Hle & Hsv & Hb & Hc & Hnext);
    [unfold wrapping_add; by apply wrap_range | done | done|].
  unfold bind. rewrite Hi. rewrite Nat.add_0_l. cbn [write modify].
  exists n, c, (on_oracle (set_ResponsesForCallback (fun _ => drop n (ResponsesForCallback (oracle s)))) s1).
  split; [done|]. split.
  { unfold ok. cbn [block_number on_oracle oracle]. rewrite Hb. split; [exact (served_ok _ n _ _ Hs Hsv) | done]. }
  split_and!; [done | by exists (oracle s1) | lia | exact Hnext].
Qed.

(** ** Runs without challenges *)
Inductive step : St -> St -> Prop :=
| os_block o e n s' : n + 1 + ChallengePeriod <= umax U32 -> on_initialize (n + 1) (mkState o e (n + 1)) = (Ok tt, s') ->
    step (mkState o e n) s'
| os_idle w c s s' : in_range U64 w -> on_idle w s = (Ok c, s') -> step s s'
| os_call c origin s : step s (snd (dispatch c origin s))
| os_request caller dest input sig gas fp bounty id s s' :
    new_request caller dest input sig gas fp bounty s = (Ok id, s') -> step s s'
| os_env o e e' n : step (mkState o e n) (mkState o e' n).

Lemma oracle_step_ok s s' : step s s' -> ok s -> ok s'.
Proof.
  intros Hst. destruct Hst as [o e n s' Hn Hi|w c s s' Hw Hi|c origin s|caller dest input sig gas fp bounty id s s' Hr|o e e' n]; intros Hs.
  - destruct Hs as [Hs [H0 _]]. rewrite on_initialize_eq in Hi. injection Hi as <-. split; [|cbn in *; lia].
    exact (initialize_ok n o _ Hs HP).
  - destruct (on_idle_ok w s Hw Hs) as (n & c' & s'' & Hi' & Hok & _). rewrite Hi in Hi'. by injection Hi' as -> ->.
  - by apply dispatch_ok.
  - by eapply new_request_ok.
  - exact Hs.
Qed.

(** The storage before the first block. *)
Definition initial (e : E) : St := mkState (mkOracle ∅ 2 0 ∅ ∅ ∅ ∅ ∅ ∅ ∅ [] 0 []) e 0.

Lemma oracle_initial_ok e : ChallengePeriod <= umax U32 -> ok (initial e).
Proof.
  intros Hc. split; [|cbn; lia]. constructor; cbn; try done.
  - split; [constructor|]. intros id ?%not_elem_of_nil. done.
  - intros b. unfold sget. rewrite lookup_empty. split; [constructor|]. intros id ?%not_elem_of_nil. done.
  - intros b1 b2 id. unfold sget. rewrite lookup_empty. intros ?%not_elem_of_nil. done.
  - intros b id. unfold sget. rewrite lookup_empty. intros ?%not_elem_of_nil. done.
  - split; [lia|]. intros b. unfold sget. rewrite lookup_empty. simpl. case_match; lia.
Qed.

Lemma run_ok e s : ChallengePeriod <= umax U32 -> rtc step (initial e) s -> ok s.
Proof.
  intros Hc Hrun. pose proof (oracle_initial_ok e Hc) as H0. induction Hrun as [|s1 s2 s3 Hst _ IH]; [done|]. by eapply IH, oracle_step_ok.
Qed.

(** C30: without challenges every request is on its way.  An unanswered one is
    listed to expire at a later block, whose start removes it, unless a response
    is submitted before, which is stored as given.  An answered one has its
    response, backed by the relayer's bond; no expiry can touch it any more, and
    it is queued for its callback or listed for a later block, whose start
    queues it. *)
Theorem requests_progress e s id q : ChallengePeriod <= umax U32 -> rtc step (initial e) s -> Requests (oracle s) !! id = Some q ->
  match Responses (oracle s) !! id with
  | None =>
      block_number s < rq_expiry_block q /\ id ∈ ids_at (rq_expiry_block q) (RequestsExpiredAtBlock (oracle s)) /\
      Requests (oracle (on_initialize (rq_expiry_block q) s).2) !! id = None /\
      forall who data n t s', submit_call_response (Signed who) id data n t s = (Ok tt, s') ->
        Responses (oracle s') !! id = Some (mkResponse data n t who)
  | Some r =>
      RelayerBondAmount <= sget 0 (rs_relayer r) (RelayerBonds (oracle s)) /\
      (forall b, id ∉ ids_at b (RequestsExpiredAtBlock (oracle s))) /\
      (id ∈ ResponsesForCallback (oracle s) \/
       exists b, block_number s < b /\ id ∈ ids_at b (ResponsesValidAtBlock (oracle s)) /\
         id ∈ ResponsesForCallback (oracle (on_initialize b s).2))
  end.
Proof.
  intros Hc Hrun Hq. destruct (run_ok e s Hc Hrun) as [Hs _]. destruct (ok_request _ _ Hs id q Hq) as [_ Hn].
  destruct (Responses (oracle s) !! id) as [r|] eqn:Hr.
  - destruct (ok_response _ _ Hs id r Hr) as (_ & Hb & Hw). split_and!; [done| |].
    + intros b He. destruct (ok_expired _ _ Hs b id He). congruence.
    + destruct Hw as [Hw|(b & Hlt & Hb')]; [by left|]. right. exists b. split_and!; [done..|].
      rewrite on_initialize_eq. cbn. apply elem_of_app. by right.
  - destruct (Hn eq_refl) as [Hlt Hin]. split_and!; [done..| |].
    + rewrite on_initialize_eq. cbn. by rewrite lookup_delete_all, bool_decide_eq_true_2.
    + intros who data n t s' Hsub. unfold submit_call_response, ensure_signed, bind, gets, ensure, ret, write, modify, fail in Hsub.
      rewrite Hq in Hsub. repeat (case_match; simplify_eq/=). by rewrite lookup_insert_eq.
Qed.

(** A relayer with an open response has the full bond in place and cannot take
    it back. *)
Theorem open_response_keeps_bond e s id r : ChallengePeriod <= umax U32 -> 0 < RelayerBondAmount -> rtc step (initial e) s ->
  Responses (oracle s) !! id = Some r ->
  RelayerBondAmount <= sget 0 (rs_relayer r) (RelayerBonds (oracle s)) /\
  unbond_relayer (Signed (rs_relayer r)) s = (Err (EthStateOracle OracleError.CantUnbond), s).
Proof.
  intros Hc Hpos Hrun Hr. destruct (run_ok e s Hc Hrun) as [Hs _]. destruct (ok_response _ _ Hs id r Hr) as (_ & Hb & _). split; [done|].
  unfold unbond_relayer, ensure_signed, bind at 1, ret at 1. cbv iota. unfold bind at 1, gets.
  rewrite (proj2 (Z.eqb_neq _ 0)) by lia. unfold ensure at 1, negb at 1, bind at 1, ret at 1. cbv iota.
  assert (Ht : existsb (fun '(_, response) => rs_relayer response =? rs_relayer r) (map_to_list (Responses (oracle s))) = true)
    by (apply has_response_true; eauto). by rewrite Ht.
Qed.

(** The start of a block expires at most as many requests as one block may
    make. *)
Theorem expiries_bounded e s b : ChallengePeriod <= umax U32 -> rtc step (initial e) s ->
  Z.of_nat (length (ids_at b (RequestsExpiredAtBlock (oracle s)))) <= MaxRequestsPerBlock.
Proof.
  intros Hc Hrun. destruct (run_ok e s Hc Hrun) as [Hs _]. destruct (ok_limit _ _ Hs) as [Hl Hlen]. specialize (Hlen b).
  destruct (b =? _); lia.
Qed.

(** Callbacks run in the order in which their responses became valid, as many
    as the weight allows and no panic among them: the first ones of the queue
    are served with one event each, and the next one would not fit. *)
Theorem callbacks_run_in_order e s w : ChallengePeriod <= umax U32 -> rtc step (initial e) s -> in_range U64 w ->
  exists n c s', on_idle w s = (Ok c, s') /\ (n <= length (ResponsesForCallback (oracle s)))%nat /\
    ResponsesForCallback (oracle s') = drop n (ResponsesForCallback (oracle s)) /\
    (exists es, oracle_events (oracle s') = oracle_events (oracle s) ++ es /\
       event_request <$> es = Some <$> take n (ResponsesForCallback (oracle s))) /\
    (forall i, i ∈ take n (ResponsesForCallback (oracle s)) -> Requests (oracle s') !! i = None /\ Responses (oracle s') !! i = None) /\
    (forall i, ResponsesForCallback (oracle s) !! n = Some i ->
       exists request, Requests (oracle s') !! i = Some request /\ w < needed c request).
Proof.
  intros Hc Hrun Hw. destruct (on_idle_ok w s Hw (run_ok e s Hc Hrun)) as (n & c & s' & Hi & _ & Hle & (o1 & (es & He & ->) & Ho) & _ & Hnext).
  exists n, c, s'. split_and!; try done.
  - by rewrite Ho.
  - exists es. by rewrite Ho.
  - intros i Hi'. rewrite Ho. cbn. by rewrite !lookup_delete_all, bool_decide_eq_true_2.
Qed.
End Theorems.
