(* ===== verification/EthStateOracleRuntime.v ===== *)
(** * The state oracle under challenge, and on concrete storage

    A challenged response in the callback queue makes a later block panic, and
    the window of a challenge wraps around. The oracle on the demo ledger gives
    instances of its theorems. *)

From S2P Require Import Prelude Support GenericAssetTypes GenericAsset GenericAssetInv MultiCurrency.
From S2P Require Import AddressMapping EthAbi EthBridgeTypes EthStateOracle EthStateOracleTheorems.

Section Challenges.
Context {E : Type} {currency : MultiCurrency E} {oenv : OracleEnv E} {config : OracleConfig} {laws : OracleEnvLaws E}.
Abbreviation St := (State E).
Implicit Types s : St.

(** Behind a challenged response, an idle block serves the next callback but
    takes the challenged one off the queue: the served one stays, its request
    is gone, and from then on every block with idle space panics. *)
Theorem challenged_callback_halts c i request w s : c <> i -> ResponsesForCallback (oracle s) = [c; i] ->
  is_Some (ResponsesChallenged (oracle s) !! c) -> callable (oracle s) i -> Requests (oracle s) !! i = Some request ->
  needed (wrapping_add U64 (reads 2) (writes 1)) request <= w ->
  exists cw s', on_idle w s = (Ok cw, s') /\ ResponsesForCallback (oracle s') = [i] /\
    forall w', fst (on_idle w' s') = Panic.
Proof.
  intros Hne Hq Hc (_ & Hresp & Hch) Hreq Hw. unfold on_idle at 1, bind at 1, gets. rewrite Hq. unfold bind at 1. simpl idle_callbacks.
  unfold bind at 1, gets. rewrite bool_decide_eq_true_2 by done.
  unfold bind at 1, gets. rewrite bool_decide_eq_false_2 by (rewrite Hch; by intros []).
  rewrite Hreq. unfold unwrap, bind at 1, ret at 1. cbv beta iota. fold (needed (wrapping_add U64 (reads 2) (writes 1)) request).
  rewrite (proj2 (Z.ltb_ge _ _) Hw). unfold bind at 1.
  destruct (run_callback_ok i request s Hresp) as (cw & s1 & -> & (es & _ & Ho1) & _). unfold ret at 1. cbv beta iota.
  eexists _, _. split; [reflexivity|]. split; [done|]. intros w'. unfold on_idle, bind at 1, gets. cbn [oracle on_oracle ResponsesForCallback set_ResponsesForCallback drop].
  unfold bind at 1. simpl idle_callbacks. unfold bind at 1, gets. cbn. rewrite Ho1. cbn.
  rewrite bool_decide_eq_false_2 by (rewrite Hch; by intros []). by rewrite lookup_delete_eq.
Qed.

(** The age of a request is computed as its timestamp minus the present: for
    every request of the past the window wraps to an absurd number of blocks
    instead of a few. *)
Theorem challenge_window_wraps timestamp now : 0 <= timestamp < now -> now <= umax U64 -> now - timestamp <= 10 ^ 9 ->
  10 ^ 18 <= challenge_window timestamp now.
Proof.
  intros H1 H2 H3. unfold challenge_window, wrapping_sub, wrap, U64 in *.
  replace (timestamp - now) with (timestamp - now + 2 ^ 64 + (-1) * 2 ^ 64) by lia. rewrite Z.mod_add by lia.
  rewrite Z.mod_small by lia. transitivity ((2 ^ 64 - 10 ^ 9) / ETH_BLOCK_TIME_S); [vm_compute; discriminate|].
  etransitivity; [|apply Z.le_max_r]. apply Z.div_le_mono; [done | lia].
Qed.
End Challenges.

(** ** Concrete storage *)
Module OracleDemo.
#[local] Existing Instance GenericAssetInv.Demo.config.

#[export] Instance demo_config : OracleConfig := {|
  ChallengePeriod := 1;
  StateOraclePrecompileAddress := replicate 20 6;
  MinGasPrice := 0;
  RelayerBondAmount := 10;
  MaxRequestsPerBlock := 3;
  MaxRelayerCount := 1;
  gas_to_weight g := Z.max 0 g;
  weight_to_gas w := w;
  slippage_mul p x := p * x / 1000000;
  or_db_read := 25;
  or_db_write := 100;
|}.

#[export] Instance demo_env : OracleEnv GenericAsset.State := {|
  or_now _ := 1000;
  or_buy_fee_asset _ _ _ := ret 0;
  or_checked_eth_call _ _ _ _ _ e := (0, e);
  or_execute _ _ _ gas _ _ e := (inl (Some (Z.max 0 gas)), e);
|}.

Lemma ga_transfer_no_panic from to a v req (e : GenericAsset.State) : fst (mc_transfer from to a v req e) <> Panic.
Proof. unfold mc_transfer. destruct (v =? 0); [done|]. rewrite make_transfer_eq. by repeat case_match. Qed.

#[export] Instance demo_laws : OracleEnvLaws GenericAsset.State.
Proof. constructor; [done | exact ga_transfer_no_panic | intros; cbn; lia | intros; cbn; lia]. Qed.

Abbreviation St := (State GenericAsset.State).

Definition s0 : St := initial Demo.s0.
Definition challenger : St := (dispatch C_bond_challenger (Signed 10) s0).2.
Definition relayer : St := (dispatch C_bond_relayer (Signed 11) challenger).2.
Definition requested : St := (new_request (replicate 20 1) (replicate 20 2) [7] [1; 2; 3; 4] 100 None 3 relayer).2.
Definition answered : St := (dispatch (C_submit_call_response 0 (ReturnOk (replicate 32 9)) 5 1000) (Signed 11) requested).2.
Definition promoted : St := (on_initialize 1 (mkState (oracle answered) (env answered) 1)).2.

Lemma oracle_run_Ok {S A} (m : D S A) s a : (m s).1 = Ok a -> m s = (Ok a, (m s).2).
Proof. destruct (m s). simpl. by intros ->. Qed.

Lemma run_to_requested : rtc step s0 requested.
Proof.
  refine (rtc_l _ s0 challenger requested (os_call C_bond_challenger (Signed 10) s0) _).
  refine (rtc_l _ challenger relayer requested (os_call C_bond_relayer (Signed 11) challenger) _). apply rtc_once.
  assert (H : (new_request (replicate 20 1) (replicate 20 2) [7] [1; 2; 3; 4] 100 None 3 relayer).1 = Ok 0) by (vm_compute; reflexivity).
  exact (os_request _ _ _ _ _ _ _ 0 relayer requested (oracle_run_Ok _ relayer 0 H)).
Qed.

Lemma run_to_answered : rtc step s0 answered.
Proof.
  eapply rtc_r; [exact run_to_requested|].
  exact (os_call (C_submit_call_response 0 (ReturnOk (replicate 32 9)) 5 1000) (Signed 11) requested).
Qed.

Lemma run_to_promoted : rtc step s0 promoted.
Proof.
  eapply rtc_r; [exact run_to_answered|].
  assert (Hi : (on_initialize 1 (mkState (oracle answered) (env answered) 1)).1 = Ok tt) by (vm_compute; reflexivity).
  assert (Hb : block_number answered = 0) by (vm_compute; reflexivity).
  replace answered with (mkState (oracle answered) (env answered) 0).
  - refine (os_block (oracle answered) (env answered) 0 promoted _ (oracle_run_Ok _ _ tt Hi)). vm_compute. discriminate.
  - rewrite <- Hb. by destruct answered.
Qed.

Lemma demo_period : 0 < ChallengePeriod /\ 0 <= MaxRequestsPerBlock <= umax U32 /\ ChallengePeriod <= umax U32.
Proof. split_and!; vm_compute; done. Qed.

Lemma requests_progress_witness : exists q, Requests (oracle requested) !! 0 = Some q /\ block_number requested < rq_expiry_block q /\
  Requests (oracle (on_initialize (rq_expiry_block q) requested).2) !! 0 = None.
Proof.
  destruct (Requests (oracle requested) !! 0) as [q|] eqn:Hq; [|exfalso; revert Hq; vm_compute; discriminate].
  assert (Hr : Responses (oracle requested) !! 0 = None) by (vm_compute; reflexivity).
  exists q. split; [reflexivity|].
  pose proof (requests_progress (proj1 demo_period) (proj1 (proj2 demo_period)) Demo.s0 requested 0 q (proj2 (proj2 demo_period)) run_to_requested Hq) as H.
  rewrite Hr in H. destruct H as (H1 & _ & H2 & _). split; [exact H1 | exact H2].
Defined.

Lemma open_response_keeps_bond_witness :
  unbond_relayer (Signed 11) answered = (Err (EthStateOracle OracleError.CantUnbond), answered).
Proof.
  assert (Hr : Responses (oracle answered) !! 0 = Some (mkResponse (ReturnOk (replicate 32 9)) 5 1000 11)) by (vm_compute; reflexivity).
  assert (Hpos : 0 < RelayerBondAmount) by (vm_compute; reflexivity).
  exact (proj2 (open_response_keeps_bond (proj1 demo_period) (proj1 (proj2 demo_period)) Demo.s0 answered 0 _ (proj2 (proj2 demo_period)) Hpos run_to_answered Hr)).
Defined.

Lemma expiries_bounded_witness : Z.of_nat (length (ids_at 1 (RequestsExpiredAtBlock (oracle requested)))) <= 3.
Proof.
  exact (expiries_bounded (proj1 demo_period) (proj1 (proj2 demo_period)) Demo.s0 requested 1 (proj2 (proj2 demo_period)) run_to_requested).
Defined.

Lemma callbacks_run_in_order_witness : ResponsesForCallback (oracle promoted) = [0] /\
  exists n c s', on_idle (10 ^ 12) promoted = (Ok c, s') /\ (n <= 1)%nat.
Proof.
  assert (Hq : ResponsesForCallback (oracle promoted) = [0]) by (vm_compute; reflexivity). split; [exact Hq|].
  assert (Hw : in_range U64 (10 ^ 12)) by (vm_compute; split; discriminate).
  destruct (callbacks_run_in_order (proj1 demo_period) (proj1 (proj2 demo_period)) Demo.s0 promoted (10 ^ 12) (proj2 (proj2 demo_period)) run_to_promoted Hw)
    as (n & c & s' & Hi & Hn & _).
  exists n, c, s'. rewrite Hq in Hn. split; [exact Hi | exact Hn].
Defined.

(** Two answered requests, the first one challenged after it was queued. *)
Definition two_requests : St := (new_request (replicate 20 1) (replicate 20 2) [8] [1; 2; 3; 4] 100 None 3 requested).2.
Definition two_answers : St :=
  (dispatch (C_submit_call_response 1 (ReturnOk (replicate 32 9)) 5 1000) (Signed 11)
    (dispatch (C_submit_call_response 0 (ReturnOk (replicate 32 9)) 5 1000) (Signed 11) two_requests).2).2.
Definition two_queued : St := (on_initialize 1 (mkState (oracle two_answers) (env two_answers) 1)).2.
Definition challenged : St := (submit_response_challenge (Signed 10) 0 two_queued).2.

Lemma challenged_callback_halts_witness : fst (submit_response_challenge (Signed 10) 0 two_queued) = Ok tt /\
  exists cw s', on_idle (10 ^ 12) challenged = (Ok cw, s') /\ fst (on_idle (10 ^ 12) s') = Panic.
Proof.
  split; [vm_compute; reflexivity|].
  destruct (Requests (oracle challenged) !! 1) as [q|] eqn:Hq; [|exfalso; revert Hq; vm_compute; discriminate].
  assert (H1 : ResponsesForCallback (oracle challenged) = [0; 1]) by (vm_compute; reflexivity).
  assert (H2 : is_Some (ResponsesChallenged (oracle challenged) !! 0)) by (refine (bool_decide_unpack _ _); vm_compute; exact I).
  assert (H3 : callable (oracle challenged) 1).
  { split; [rewrite Hq; eauto|]. split; [refine (bool_decide_unpack _ _); vm_compute; exact I | vm_compute; reflexivity]. }
  assert (H4 : rq_callback_gas_limit q = 100) by (apply (f_equal (fmap rq_callback_gas_limit)) in Hq; revert Hq; vm_compute; congruence).
  assert (H5 : needed (wrapping_add U64 (reads 2) (writes 1)) q <= 10 ^ 12) by (unfold needed; rewrite H4; vm_compute; discriminate).
  destruct (challenged_callback_halts 0 1 q (10 ^ 12) challenged ltac:(discriminate) H1 H2 H3 Hq H5) as (cw & s' & Hi & _ & Hp).
  exists cw, s'. split; [exact Hi | apply Hp].
Defined.

Lemma challenge_window_wraps_witness : 10 ^ 18 <= challenge_window 1000 1060.
Proof. apply challenge_window_wraps; vm_compute; (reflexivity || discriminate || (split; [discriminate | reflexivity])). Defined.
End OracleDemo.
