(* ===== verification/StakingTypes.v ===== *)
(** * Staking: data and the ledger of a stash

    The types of [src/crml/staking/src/lib.rs] and
    [src/crml/staking/src/rewards/types.rs], the slashing spans of
    [src/crml/staking/src/slashing.rs], and the arithmetic of [StakingLedger]
    (releasing matured chunks, rebonding, slashing) with the lemmas that say
    what it does to the books of one stash. *)

From S2P Require Import Prelude Support.

(** Eras, sessions and span indices are [u32]. *)
Abbreviation EraIndex := Z (only parsing).
Abbreviation SessionIndex := Z (only parsing).
Abbreviation SpanIndex := Z (only parsing).
Definition ERA_BITS : Z := 32.

(** ** [Perbill] of [sp_arithmetic]: parts per billion *)
Abbreviation Perbill := Z (only parsing).
Definition PERBILL_ONE : Perbill := 10 ^ 9.

Class PerbillOps := {
  perbill_mul : Perbill -> Balance -> Balance;
  perbill_from_rational : Z -> Z -> Perbill;
  perbill_from_percent : Z -> Perbill;
}.

(** Documented behaviour: a product never exceeds its operand, is exact for one
    and rounds to the nearest integer; ratios are approximated from below and
    are at most one. *)
Class PerbillLaws `{PerbillOps} := {
  perbill_mul_range : forall p n, 0 <= p <= PERBILL_ONE -> 0 <= n -> 0 <= perbill_mul p n <= n;
  perbill_mul_one : forall n, 0 <= n -> perbill_mul PERBILL_ONE n = n;
  perbill_mul_mono : forall p q n, 0 <= p <= q -> q <= PERBILL_ONE -> 0 <= n -> perbill_mul p n <= perbill_mul q n;
  perbill_mul_nearest : forall p n, 0 <= p <= PERBILL_ONE -> 0 <= n ->
    2 * PERBILL_ONE * perbill_mul p n <= 2 * p * n + PERBILL_ONE;
  perbill_from_rational_range : forall p q, 0 <= p -> 0 <= q -> 0 <= perbill_from_rational p q <= PERBILL_ONE;
  perbill_from_rational_floor : forall p q, 0 <= p -> 0 < q -> perbill_from_rational p q * q <= PERBILL_ONE * p;
  perbill_from_percent_range : forall p, 0 <= p -> 0 <= perbill_from_percent p <= PERBILL_ONE;
}.

(** ** Elections *)
Inductive ElectionStatus := Closed | Open (n : BlockNumber).

#[global] Instance ElectionStatus_eq_dec : EqDecision ElectionStatus.
Proof. solve_decision. Defined.

Definition is_open_at (e : ElectionStatus) (n : BlockNumber) : bool := bool_decide (e = Open n).

Definition is_closed (e : ElectionStatus) : bool := match e with Closed => true | _ => false end.

Definition is_open (e : ElectionStatus) : bool := negb (is_closed e).

Inductive ElectionCompute := OnChain | SignedSolution | UnsignedSolution.

Record ElectionSize := mkElectionSize { es_validators : Z; es_nominators : Z }.

(** [ElectionScore] *)
Abbreviation ElectionScore := (Z * Z * Z)%type (only parsing).

(** ** Stakers *)
Inductive StakerStatus := Idle | Validator | Nominator (votes : list AccountId).

Inductive RewardDestination := Stash | Controller | Account (who : AccountId).

Record ValidatorPrefs := mkPrefs { commission : Perbill }.

Definition ValidatorPrefs_default : ValidatorPrefs := mkPrefs 0.

Record Nominations := mkNominations { targets : list AccountId; submitted_in : EraIndex }.

Record IndividualExposure := mkIndividual { ie_who : AccountId; ie_value : Balance }.

Record Exposure := mkExposure { ex_total : Balance; ex_own : Balance; ex_others : list IndividualExposure }.

Definition Exposure_default : Exposure := mkExposure 0 0 [].

Record ElectionResult := mkElection {
  elected_stashes : list AccountId;
  exposures : list (AccountId * Exposure);
  compute : ElectionCompute;
}.

Record UnappliedSlash := mkUnapplied {
  us_validator : AccountId;
  us_own : Balance;
  us_others : list (AccountId * Balance);
  us_reporters : list AccountId;
  us_payout : Balance;
}.

Record ActiveEraInfo := mkActiveEra { ae_index : EraIndex; ae_start : option Z }.

Inductive Forcing := NotForcing | ForceNew | ForceNone | ForceAlways.

#[global] Instance Forcing_eq_dec : EqDecision Forcing.
Proof. solve_decision. Defined.

(** [sp_staking::offence] *)
Inductive DisableStrategy := DisableNever | WhenSlashed | DisableAlways.

Record OffenceDetails := mkOffence {
  od_offender : AccountId * Exposure;
  od_reporters : list AccountId;
}.

(** ** The ledger of a stash *)
Record UnlockChunk := mkChunk { uc_value : Balance; uc_era : EraIndex }.

Record StakingLedger := mkLedger {
  sl_stash : AccountId;
  sl_total : Balance;
  sl_active : Balance;
  sl_unlocking : list UnlockChunk;
}.

Definition MAX_UNLOCKING_CHUNKS : nat := 32.

(** The closure of [consolidate_unlocked]: keeps the young chunks and takes the
    others off the total, one after the other. *)
Fixpoint consolidate (current_era : EraIndex) (total : Balance) (chunks : list UnlockChunk)
    : Balance * list UnlockChunk :=
  match chunks with
  | [] => (total, [])
  | c :: chunks =>
      if current_era <? uc_era c then
        let '(total, kept) := consolidate current_era total chunks in (total, c :: kept)
      else consolidate current_era (saturating_sub total (uc_value c)) chunks
  end.

Definition consolidate_unlocked (current_era : EraIndex) (l : StakingLedger) : StakingLedger :=
  let '(total, unlocking) := consolidate current_era (sl_total l) (sl_unlocking l) in
  mkLedger (sl_stash l) total (sl_active l) unlocking.

(** The loop of [rebond] over the chunks, last one first.  A chunk that is
    larger than what remains ends it: then the amount rebonded is [value]. *)
Fixpoint rebond_chunks (value rebonded active : Balance) (rev_chunks : list UnlockChunk)
    : Balance * list UnlockChunk :=
  match rev_chunks with
  | [] => (active, [])
  | last :: rest =>
      let remaining := wrapping_sub BALANCE_BITS value rebonded in
      if uc_value last <=? remaining then
        let rebonded := wrapping_add BALANCE_BITS rebonded (uc_value last) in
        let active := wrapping_add BALANCE_BITS active (uc_value last) in
        if value <=? rebonded then (active, rest) else rebond_chunks value rebonded active rest
      else
        (wrapping_add BALANCE_BITS active remaining,
         mkChunk (wrapping_sub BALANCE_BITS (uc_value last) remaining) (uc_era last) :: rest)
  end.

Definition ledger_rebond (value : Balance) (l : StakingLedger) : StakingLedger :=
  let '(active, chunks) := rebond_chunks value 0 (sl_active l) (rev (sl_unlocking l)) in
  mkLedger (sl_stash l) (sl_total l) active (rev chunks).

(** Takes [slash] from [target]; what is left of the slash, the total and the
    target afterwards. *)
Definition apply_slash_to (total target slash minimum_balance : Balance) : Balance * Balance * Balance :=
  let slash_from_target := Z.min slash target in
  if slash_from_target =? 0 then (slash, total, target)
  else
    let total := saturating_sub total slash_from_target in
    let target := wrapping_sub BALANCE_BITS target slash_from_target in
    let slash_remainder := wrapping_sub BALANCE_BITS slash slash_from_target in
    if target <=? minimum_balance then (slash_remainder, saturating_sub total target, 0)
    else (slash_remainder, total, target).

(** The lazy iterator of [slash]: chunks are slashed until the first one that is
    not drained; the drained ones are removed. *)
Fixpoint slash_chunks (total value minimum_balance : Balance) (chunks : list UnlockChunk)
    : Balance * list UnlockChunk :=
  match chunks with
  | [] => (total, [])
  | c :: rest =>
      let '(value, total, left_value) := apply_slash_to total (uc_value c) value minimum_balance in
      if left_value =? 0 then slash_chunks total value minimum_balance rest
      else (total, mkChunk left_value (uc_era c) :: rest)
  end.

Definition ledger_slash (value minimum_balance : Balance) (l : StakingLedger) : Balance * StakingLedger :=
  let '(value, total, active) := apply_slash_to (sl_total l) (sl_active l) value minimum_balance in
  let '(total, unlocking) := slash_chunks total value minimum_balance (sl_unlocking l) in
  (saturating_sub (sl_total l) total, mkLedger (sl_stash l) total active unlocking).

(** *** The books of a stash *)
Definition chunk_sum (chunks : list UnlockChunk) : Z := foldr (fun c n => uc_value c + n) 0 chunks.

Definition chunks_ok (chunks : list UnlockChunk) : Prop := Forall (fun c => 0 <= uc_value c) chunks.

Record ledger_ok (l : StakingLedger) : Prop := {
  lo_active : 0 <= sl_active l;
  lo_chunks : chunks_ok (sl_unlocking l);
  lo_total : sl_total l = sl_active l + chunk_sum (sl_unlocking l);
  lo_max : sl_total l <= MAX_BALANCE;
}.

Definition matured (era : EraIndex) (c : UnlockChunk) : bool := uc_era c <=? era.

Lemma chunk_sum_app l k : chunk_sum (l ++ k) = chunk_sum l + chunk_sum k.
Proof. induction l as [|c l IH]; simpl; [done | rewrite IH; lia]. Qed.

Lemma chunk_sum_rev l : chunk_sum (rev l) = chunk_sum l.
Proof. induction l as [|c l IH]; simpl; [done|]. rewrite chunk_sum_app, IH. simpl. lia. Qed.

Lemma chunk_sum_nonneg l : chunks_ok l -> 0 <= chunk_sum l.
Proof. induction 1; simpl; lia. Qed.

Lemma chunks_ok_rev l : chunks_ok l -> chunks_ok (rev l).
Proof. intros Hl. apply List.Forall_rev, Hl. Qed.

(** Consolidating takes exactly the matured chunks off the total. *)
Lemma consolidate_spec era total chunks : chunks_ok chunks -> chunk_sum chunks <= total ->
  consolidate era total chunks =
    (total - chunk_sum (List.filter (matured era) chunks), List.filter (fun c => negb (matured era c)) chunks).
Proof.
  revert total. induction chunks as [|c chunks IH]; intros total Hok Hle; simpl; [f_equal; lia|].
  apply Forall_cons in Hok as [Hc Hok]. simpl in Hle. pose proof (chunk_sum_nonneg chunks Hok).
  assert (Hm : matured era c = negb (era <? uc_era c)) by (unfold matured; by rewrite Z.leb_antisym).
  rewrite Hm. destruct (era <? uc_era c); simpl.
  - by rewrite IH by (done || lia).
  - unfold saturating_sub. rewrite IH by (done || lia). f_equal. lia.
Qed.

Lemma chunk_sum_filter P chunks :
  chunk_sum chunks = chunk_sum (List.filter P chunks) + chunk_sum (List.filter (fun c => negb (P c)) chunks).
Proof. induction chunks as [|c l IH]; simpl; [done|]. destruct (P c); simpl; lia. Qed.

Lemma chunks_ok_filter P chunks : chunks_ok chunks -> chunks_ok (List.filter P chunks).
Proof. induction 1 as [|c l Hc Hl IH]; simpl; [constructor|]. destruct (P c); [by constructor | done]. Qed.

Lemma consolidate_unlocked_spec era l : ledger_ok l ->
  consolidate_unlocked era l =
    mkLedger (sl_stash l) (sl_total l - chunk_sum (List.filter (matured era) (sl_unlocking l))) (sl_active l)
      (List.filter (fun c => negb (matured era c)) (sl_unlocking l)).
Proof.
  intros [Ha Hc Ht Hm]. unfold consolidate_unlocked. rewrite consolidate_spec by (done || lia). done.
Qed.

Lemma consolidate_unlocked_ok era l : ledger_ok l -> ledger_ok (consolidate_unlocked era l).
Proof.
  intros Hl. rewrite consolidate_unlocked_spec by done. destruct Hl as [Ha Hc Ht Hm].
  pose proof (chunk_sum_filter (matured era) (sl_unlocking l)).
  pose proof (chunk_sum_nonneg _ (chunks_ok_filter (matured era) _ Hc)).
  split; simpl; [done | by apply chunks_ok_filter | lia | lia].
Qed.

(** Rebonding moves the smaller of the value and all chunks to the active
    balance, from the last chunk on. *)
Lemma rebond_chunks_spec value rebonded active chunks : chunks_ok chunks -> 0 <= active ->
  0 <= rebonded <= value -> value <= MAX_BALANCE -> active + chunk_sum chunks <= MAX_BALANCE ->
  let r := rebond_chunks value rebonded active chunks in
  let moved := Z.min (value - rebonded) (chunk_sum chunks) in
  r.1 = active + moved /\ chunk_sum r.2 = chunk_sum chunks - moved /\ chunks_ok r.2 /\ (length r.2 <= length chunks)%nat.
Proof.
  revert rebonded active. induction chunks as [|c chunks IH]; intros rebonded active Hok Ha Hr Hv Hm.
  { simpl. split_and!; try done; lia. }
  apply Forall_cons in Hok as [Hc Hok]. simpl in Hm |- *. pose proof (chunk_sum_nonneg chunks Hok) as Hs.
  unfold MAX_BALANCE, wrapping_sub, wrapping_add in *. rewrite (wrap_small _ (value - rebonded)) by (unfold in_range; lia).
  destruct (Z.leb_spec (uc_value c) (value - rebonded)) as [Hle|Hlt].
  - rewrite !wrap_small by (unfold in_range; lia). destruct (Z.leb_spec value (rebonded + uc_value c)).
    + simpl. split_and!; (done || lia).
    + specialize (IH (rebonded + uc_value c) (active + uc_value c) Hok ltac:(lia) ltac:(lia) ltac:(lia) ltac:(lia)).
      destruct IH as (-> & -> & Hok' & Hlen). split_and!; (done || lia).
  - rewrite !wrap_small by (unfold in_range; lia). simpl. split_and!; try lia. apply Forall_cons. simpl. split; [lia | done].
Qed.

Lemma ledger_rebond_spec value l : ledger_ok l -> 0 <= value <= MAX_BALANCE ->
  let l' := ledger_rebond value l in
  ledger_ok l' /\ sl_total l' = sl_total l /\ sl_stash l' = sl_stash l /\
  sl_active l' = sl_active l + Z.min value (chunk_sum (sl_unlocking l)) /\
  (length (sl_unlocking l') <= length (sl_unlocking l))%nat.
Proof.
  intros [Ha Hc Ht Hm] Hv. pose proof (chunk_sum_nonneg _ Hc). unfold ledger_rebond.
  destruct (rebond_chunks_spec value 0 (sl_active l) (rev (sl_unlocking l)) (chunks_ok_rev _ Hc) Ha ltac:(lia) ltac:(lia)
    ltac:(rewrite chunk_sum_rev; lia)) as (Hr1 & Hr2 & Hr3 & Hr4).
  destruct (rebond_chunks _ _ _ _) as [active chunks]. rewrite chunk_sum_rev, Z.sub_0_r in *. simpl in *.
  split_and!; try done; [|rewrite List.length_rev in *; lia].
  split; simpl; try done; [lia | by apply chunks_ok_rev | rewrite chunk_sum_rev; lia].
Qed.

(** *** Slashing one stash *)
Lemma apply_slash_spec total target slash min : 0 <= target <= total -> 0 <= slash <= MAX_BALANCE -> 0 <= min ->
  total <= MAX_BALANCE ->
  exists taken, let '(slash', total', target') := apply_slash_to total target slash min in
    slash' = slash - Z.min slash target /\ total' = total - taken /\ target' = target - taken /\
    Z.min slash target <= taken <= target /\ taken <= slash + min /\ (slash = 0 -> taken = 0).
Proof.
  intros Ht Hs Hmin Hmax. unfold apply_slash_to, wrapping_sub, saturating_sub, MAX_BALANCE in *.
  destruct (Z.eqb_spec (Z.min slash target) 0) as [E|E].
  { exists 0. split_and!; try lia. }
  rewrite !wrap_small by (unfold in_range; lia).
  destruct (Z.leb_spec (target - Z.min slash target) min).
  - exists target. split_and!; try lia.
  - exists (Z.min slash target). split_and!; lia.
Qed.

Lemma slash_chunks_spec total slash min chunks : chunks_ok chunks -> chunk_sum chunks <= total ->
  0 <= slash <= MAX_BALANCE -> 0 <= min -> total <= MAX_BALANCE ->
  exists taken, let '(total', chunks') := slash_chunks total slash min chunks in
    total' = total - taken /\ chunk_sum chunks' = chunk_sum chunks - taken /\ chunks_ok chunks' /\
    Z.min slash (chunk_sum chunks) <= taken <= chunk_sum chunks /\ taken <= slash + min /\ (slash = 0 -> taken = 0) /\
    (length chunks' <= length chunks)%nat.
Proof.
  intros Hok. revert total slash. induction Hok as [|c chunks Hc Hok IH]; intros total slash Hle Hs Hmin Hmax; simpl.
  { exists 0. split_and!; try lia. constructor. }
  simpl in Hle. pose proof (chunk_sum_nonneg chunks Hok).
  destruct (apply_slash_spec total (uc_value c) slash min ltac:(lia) Hs Hmin Hmax) as [t1 H1].
  destruct (apply_slash_to total (uc_value c) slash min) as [[slash1 total1] v1].
  destruct H1 as (-> & -> & -> & Ht1 & Hb1 & Hz1). destruct (Z.eqb_spec (uc_value c - t1) 0) as [E|E].
  - destruct (IH (total - t1) (slash - Z.min slash (uc_value c)) ltac:(lia) ltac:(lia) Hmin ltac:(lia)) as [t2 H2].
    destruct (slash_chunks _ _ _ _) as [total2 chunks2]. destruct H2 as (-> & -> & Hok2 & Ht2 & Hb2 & Hz2 & Hlen).
    assert (t1 + t2 <= slash + min); [|exists (t1 + t2); split_and!; (done || lia)]. destruct (Z.eq_dec (slash - Z.min slash (uc_value c)) 0) as [E0|]; [|lia].
    rewrite (Hz2 E0). lia.
  - exists t1. simpl. split_and!; try lia. apply Forall_cons. simpl. split; [lia | done].
Qed.

(** A slash takes at least the smaller of the value and the stake, at most the
    value and one dust remainder, and keeps the books. *)
Lemma ledger_slash_spec value min l : ledger_ok l -> 0 <= value <= MAX_BALANCE -> 0 <= min ->
  let '(taken, l') := ledger_slash value min l in
  ledger_ok l' /\ sl_stash l' = sl_stash l /\ sl_total l' = sl_total l - taken /\
  Z.min value (sl_total l) <= taken <= sl_total l /\ taken <= value + min /\ sl_active l' <= sl_active l /\
  (length (sl_unlocking l') <= length (sl_unlocking l))%nat.
Proof.
  intros [Ha Hc Ht Hm] Hv Hmin. pose proof (chunk_sum_nonneg _ Hc) as Hs. unfold ledger_slash.
  destruct (apply_slash_spec (sl_total l) (sl_active l) value min ltac:(lia) Hv Hmin Hm) as [t1 H1].
  destruct (apply_slash_to _ _ _ _) as [[v1 total1] active1]. destruct H1 as (-> & -> & -> & Ht1 & Hb1 & Hz1).
  destruct (slash_chunks_spec (sl_total l - t1) (value - Z.min value (sl_active l)) min (sl_unlocking l)
    Hc ltac:(lia) ltac:(lia) Hmin ltac:(lia)) as [t2 H2].
  destruct (slash_chunks _ _ _ _) as [total2 chunks2]. destruct H2 as (-> & Hs2 & Hok2 & Ht2 & Hb2 & Hz2 & Hlen).
  unfold saturating_sub. rewrite Z.max_r by lia.
  assert (Hsum : t1 + t2 <= value + min).
  { destruct (Z.eq_dec (value - Z.min value (sl_active l)) 0) as [E0|]; [rewrite (Hz2 E0); lia | lia]. }
  split_and!; simpl; try done; try lia. split; simpl; try done; lia.
Qed.
