(* ===== verification/SlashingSpans.v ===== *)
(** * Slashing spans

    The spans of [src/crml/staking/src/slashing.rs]: the eras of a stash are
    cut into spans, the last one ongoing; a span ends when the stash is slashed
    in it.  The earlier spans are stored as lengths, the most recent first. *)

From S2P Require Import Prelude Support StakingTypes.

Record SlashingSpan := mkSpan {
  span_idx : SpanIndex;
  span_start : EraIndex;
  span_length : option EraIndex;
}.

Definition contains_era (s : SlashingSpan) (era : EraIndex) : bool :=
  (span_start s <=? era) &&
  match span_length s with Some l => era <? wrapping_add ERA_BITS (span_start s) l | None => true end.

Record SlashingSpans := mkSpans {
  span_index : SpanIndex;
  last_start : EraIndex;
  last_nonzero_slash : EraIndex;
  prior : list EraIndex;
}.

Definition SlashingSpans_new (window_start : EraIndex) : SlashingSpans := mkSpans 0 window_start 0 [].

Definition spans_end_span (now : EraIndex) (s : SlashingSpans) : bool * SlashingSpans :=
  let next_start := wrapping_add ERA_BITS now 1 in
  if next_start <=? last_start s then (false, s)
  else
    let last_length := wrapping_sub ERA_BITS next_start (last_start s) in
    (true, mkSpans (wrapping_add ERA_BITS (span_index s) 1) next_start (last_nonzero_slash s) (last_length :: prior s)).

(** The earlier spans, walking back from the start and index of the next one. *)
Fixpoint prior_spans (last_start : EraIndex) (index : SpanIndex) (prior : list EraIndex) : list SlashingSpan :=
  match prior with
  | [] => []
  | length :: prior =>
      let start := wrapping_sub ERA_BITS last_start length in
      let index := wrapping_sub ERA_BITS index 1 in
      mkSpan index start (Some length) :: prior_spans start index prior
  end.

Definition spans_iter (s : SlashingSpans) : list SlashingSpan :=
  mkSpan (span_index s) (last_start s) None :: prior_spans (last_start s) (span_index s) (prior s).

(** [iter().find(|span| span.contains_era(era))] *)
Definition era_span (s : SlashingSpans) (era : EraIndex) : option SlashingSpan :=
  List.find (fun span => contains_era span era) (spans_iter s).

(** [iter().position(p)] *)
Fixpoint position_of {A} (p : A -> bool) (l : list A) : option nat :=
  match l with
  | [] => None
  | x :: l => if p x then Some O else S <$> position_of p l
  end.

Definition ended_by (window_start : EraIndex) (span : SlashingSpan) : bool :=
  match span_length span with
  | Some len => wrapping_add ERA_BITS (span_start span) len <=? window_start
  | None => false
  end.

Definition prune (window_start : EraIndex) (s : SlashingSpans) : option (SpanIndex * SpanIndex) * SlashingSpans :=
  let old_idx := position_of (ended_by window_start) (drop 1 (spans_iter s)) in
  let earliest_span_index := wrapping_sub ERA_BITS (span_index s) (wrap ERA_BITS (Z.of_nat (length (prior s)))) in
  let '(pruned, prior') :=
    match old_idx with
    | Some o =>
        let prior' := take o (prior s) in
        (Some (earliest_span_index, wrapping_sub ERA_BITS (span_index s) (wrap ERA_BITS (Z.of_nat (length prior')))), prior')
    | None => (None, prior s)
    end in
  (pruned, mkSpans (span_index s) (Z.max (last_start s) window_start) (last_nonzero_slash s) prior').

(** ** Well-formed spans *)
Definition zsum (l : list Z) : Z := foldr Z.add 0 l.

Record spans_ok (s : SlashingSpans) : Prop := {
  so_lengths : Forall (fun l => 0 < l) (prior s);
  so_sum : zsum (prior s) <= last_start s;
  so_start : last_start s <= umax ERA_BITS;
  so_index : Z.of_nat (length (prior s)) <= span_index s <= umax ERA_BITS;
}.

Lemma zsum_nonneg l : Forall (fun l => 0 < l) l -> 0 <= zsum l.
Proof. induction 1; simpl; lia. Qed.

(** The earlier spans without wrap-around. *)
Fixpoint plain_spans (last_start : EraIndex) (index : SpanIndex) (prior : list EraIndex) : list SlashingSpan :=
  match prior with
  | [] => []
  | length :: prior =>
      mkSpan (index - 1) (last_start - length) (Some length) :: plain_spans (last_start - length) (index - 1) prior
  end.

Lemma prior_spans_plain start index l : Forall (fun l => 0 < l) l -> zsum l <= start <= umax ERA_BITS ->
  Z.of_nat (length l) <= index <= umax ERA_BITS -> prior_spans start index l = plain_spans start index l.
Proof.
  intros Hl. revert start index. induction Hl as [|x l Hx Hl IH]; intros start index Hs Hi; [done|]. simpl in *.
  pose proof (zsum_nonneg l Hl). unfold wrapping_sub. rewrite !wrap_small by (unfold in_range; lia).
  by rewrite IH by lia.
Qed.

Lemma spans_iter_plain s : spans_ok s ->
  spans_iter s = mkSpan (span_index s) (last_start s) None :: plain_spans (last_start s) (span_index s) (prior s).
Proof. intros [H1 H2 H3 H4]. unfold spans_iter. by rewrite prior_spans_plain. Qed.

(** What an earlier span contains. *)
Lemma plain_spans_elem start index l span : Forall (fun l => 0 < l) l -> span ∈ plain_spans start index l ->
  exists k len, l !! k = Some len /\ span_length span = Some len /\ span_idx span = index - 1 - Z.of_nat k /\
    span_start span = start - zsum (take (S k) l).
Proof.
  intros Hl. revert start index. induction Hl as [|x l Hx Hl IH]; intros start index; simpl.
  { by intros ?%elem_of_nil. }
  intros [->|Hin]%elem_of_cons.
  - exists O, x. split_and!; simpl; [done | done | lia | lia].
  - destruct (IH _ _ Hin) as (k & len & H1 & H2 & H3 & H4). exists (S k), len. split_and!; [done | done | lia |].
    rewrite H4. simpl. lia.
Qed.

Lemma zsum_take_le k l : Forall (fun l => 0 < l) l -> zsum (take k l) <= zsum l.
Proof.
  intros Hl. revert k. induction Hl as [|x l Hx Hl IH]; intros [|k]; simpl; try lia.
  - pose proof (zsum_nonneg l Hl). lia.
  - specialize (IH k). lia.
Qed.

Lemma zsum_take_S k l x : l !! k = Some x -> zsum (take (S k) l) = zsum (take k l) + x.
Proof.
  revert k. induction l as [|y l IH]; intros [|k] Hk; simplify_eq/=; [lia|]. specialize (IH k Hk). simpl in IH. lia.
Qed.

Lemma zsum_take_mono j k l : Forall (fun l => 0 < l) l -> (j <= k)%nat -> zsum (take j l) <= zsum (take k l).
Proof.
  intros Hl Hjk. replace (take j l) with (take j (take k l)) by (rewrite take_take; f_equal; lia).
  apply zsum_take_le. by apply Forall_take.
Qed.

(** Eras of a span, from its position: the span at position [k] of [prior] holds
    the eras between two partial sums. *)
Lemma contains_plain start index l k len span era : Forall (fun l => 0 < l) l -> zsum l <= start <= umax ERA_BITS ->
  l !! k = Some len -> span_length span = Some len -> span_start span = start - zsum (take (S k) l) ->
  span_idx span = index - 1 - Z.of_nat k ->
  contains_era span era = true <-> start - zsum (take (S k) l) <= era < start - zsum (take k l).
Proof.
  intros Hl Hs Hk Hlen Hst _. unfold contains_era. rewrite Hlen, Hst.
  pose proof (zsum_take_S k l len Hk). pose proof (zsum_take_le (S k) l Hl). pose proof (zsum_take_le k l Hl).
  pose proof (zsum_nonneg _ (Forall_take _ k l Hl)).
  unfold wrapping_add. rewrite wrap_small by (unfold in_range; lia). rewrite andb_true_iff, Z.leb_le, Z.ltb_lt. lia.
Qed.

(** Every era belongs to at most one span, and those from the earliest recorded
    start on to exactly one. *)
Lemma era_span_in s era span : spans_ok s -> era_span s era = Some span ->
  (span_idx span = span_index s /\ last_start s <= era) \/
  (exists k len, prior s !! k = Some len /\ span_idx span = span_index s - 1 - Z.of_nat k /\
     last_start s - zsum (take (S k) (prior s)) <= era < last_start s - zsum (take k (prior s))).
Proof.
  intros Hok H. unfold era_span in H. rewrite spans_iter_plain in H by done. destruct Hok as [H1 H2 H3 H4].
  apply List.find_some in H as [Hin Hc]. apply list_elem_of_In in Hin.
  apply elem_of_cons in Hin as [->|Hin].
  - left. split; [done|]. unfold contains_era in Hc. simpl in Hc. apply andb_true_iff in Hc as [Hc _]. by apply Z.leb_le.
  - right. destruct (plain_spans_elem _ _ _ _ H1 Hin) as (k & len & Hk & Hl & Hi & Hs).
    exists k, len. split_and!; [done | done | | ];
      by apply (contains_plain (last_start s) (span_index s) (prior s) k len span era).
Qed.

Lemma era_span_intro s era k len : spans_ok s -> prior s !! k = Some len ->
  last_start s - zsum (take (S k) (prior s)) <= era < last_start s - zsum (take k (prior s)) ->
  exists span, era_span s era = Some span /\ span_idx span = span_index s - 1 - Z.of_nat k.
Proof.
  intros Hok Hk Hera. pose proof Hok as [H1 H2 H3 H4].
  pose proof (zsum_nonneg _ (Forall_take _ k _ H1)) as Hnn.
  destruct (era_span s era) as [span|] eqn:E.
  - exists span. split; [done|]. destruct (era_span_in s era span Hok E) as [[_ Hge]|(j & len' & Hj & Hi & He)]; [lia|].
    rewrite Hi. assert (j = k); [|by subst].
    destruct (Nat.lt_trichotomy j k) as [Hlt|[Heq|Hgt]]; [exfalso | done | exfalso].
    + pose proof (zsum_take_mono (S j) k (prior s) H1 ltac:(lia)). lia.
    + pose proof (zsum_take_mono (S k) j (prior s) H1 ltac:(lia)). lia.
  - exfalso. unfold era_span in E. rewrite spans_iter_plain in E by done.
    assert (Hin : exists span, span ∈ plain_spans (last_start s) (span_index s) (prior s) /\ contains_era span era = true).
    { clear E. revert Hera Hnn. assert (Hall : zsum (prior s) <= last_start s <= umax ERA_BITS) by lia. clear H2 H3 H4 Hok.
      revert k len Hk Hall. generalize (last_start s) as st, (span_index s) as ix. induction H1 as [|x l Hx Hl IH]; [done|].
      intros st ix [|k] len Hk Hall Hera Hnn; simplify_eq/=.
      - exists (mkSpan (ix - 1) (st - len) (Some len)). split; [left|]. unfold contains_era. simpl.
        pose proof (zsum_nonneg l Hl). unfold wrapping_add. rewrite wrap_small by (unfold in_range; lia).
        rewrite andb_true_iff, Z.leb_le, Z.ltb_lt. lia.
      - destruct (IH (st - x) (ix - 1) k len Hk ltac:(lia) ltac:(lia) (zsum_nonneg _ (Forall_take _ k _ Hl)))
          as (span & Hin & Hc). exists span. split; [by right | done]. }
    destruct Hin as (span & Hin & Hc). simpl in E. destruct (contains_era (mkSpan _ _ None) era); [done|].
    apply List.find_none with (x := span) in E; [congruence | by apply list_elem_of_In].
Qed.

Lemma era_span_current s era : last_start s <= era ->
  exists span, era_span s era = Some span /\ span_idx span = span_index s.
Proof.
  intros Hle. exists (mkSpan (span_index s) (last_start s) None). split; [|done]. unfold era_span, spans_iter. simpl.
  unfold contains_era. simpl. by rewrite (proj2 (Z.leb_le _ _) Hle).
Qed.

(** ** Ending a span and pruning keep the eras where they are *)
Lemma end_span_eq now s : spans_ok s -> 0 <= now < umax ERA_BITS -> span_index s < umax ERA_BITS ->
  spans_end_span now s =
    if now + 1 <=? last_start s then (false, s)
    else (true, mkSpans (span_index s + 1) (now + 1) (last_nonzero_slash s) (now + 1 - last_start s :: prior s)).
Proof.
  intros [H1 H2 H3 H4] Hn Hi. unfold spans_end_span, wrapping_add, wrapping_sub. pose proof (zsum_nonneg _ H1).
  rewrite (wrap_small _ (now + 1)) by (unfold in_range; lia). destruct (Z.leb_spec (now + 1) (last_start s)); [done|].
  by rewrite !wrap_small by (unfold in_range; lia).
Qed.

Lemma end_span_ok now s : spans_ok s -> 0 <= now < umax ERA_BITS -> span_index s < umax ERA_BITS ->
  spans_ok (spans_end_span now s).2.
Proof.
  intros Hs Hn Hi. rewrite end_span_eq by done. destruct (Z.leb_spec (now + 1) (last_start s)) as [|Hlt]; [done|].
  destruct Hs as [H1 H2 H3 H4]. split; simpl; [constructor; [lia | done] | lia | lia | lia].
Qed.

(** Eras up to now keep their span when the span ends. *)
Lemma end_span_keeps now s era : spans_ok s -> 0 <= now < umax ERA_BITS -> span_index s < umax ERA_BITS -> era <= now ->
  span_idx <$> era_span (spans_end_span now s).2 era = span_idx <$> era_span s era.
Proof.
  intros Hs Hn Hi He. pose proof (end_span_ok now s Hs Hn Hi) as Hok. rewrite end_span_eq in * by done.
  destruct (Z.leb_spec (now + 1) (last_start s)) as [|Hlt]; [done|]. simpl in *. set (s' := mkSpans _ _ _ _) in *.
  destruct (Z.le_gt_cases (last_start s) era) as [Hge|Hlt'].
  - destruct (era_span_current s era Hge) as (x & -> & Hx).
    destruct (era_span_intro s' era 0 _ Hok eq_refl) as (y & -> & Hy); [simpl; lia|]. simpl in *. f_equal. lia.
  - destruct (era_span s era) as [x|] eqn:E.
    + destruct (era_span_in s era x Hs E) as [[_ ?]|(k & len & Hk & Hi' & Hb)]; [lia|].
      destruct (era_span_intro s' era (S k) len Hok Hk) as (y & -> & Hy); [simpl in *; lia|]. simpl in *. f_equal. lia.
    + destruct (era_span s' era) as [y|] eqn:E'; [|done]. exfalso.
      destruct (era_span_in s' era y Hok E') as [[_ ?]|([|k] & len & Hk & Hi' & Hb)]; simpl in *; [lia | lia |].
      destruct (era_span_intro s era k len Hs Hk) as (x & Hx & _); [simpl in *; lia | congruence].
Qed.

Lemma position_of_Some {A} (p : A -> bool) l o : position_of p l = Some o ->
  (exists x, l !! o = Some x /\ p x = true) /\ forall j x, (j < o)%nat -> l !! j = Some x -> p x = false.
Proof.
  revert o. induction l as [|y l IH]; intros o; simpl; [done|]. destruct (p y) eqn:E.
  - intros [= <-]. split; [by exists y | lia].
  - destruct (position_of p l) as [o'|]; [|done]. intros [= <-]. destruct (IH o' eq_refl) as [Hx Hj]. split; [done|].
    intros [|j] x Hlt Hl; simplify_eq/=; [done | apply (Hj j); [lia | done]].
Qed.

Lemma position_of_None {A} (p : A -> bool) l j x : position_of p l = None -> l !! j = Some x -> p x = false.
Proof.
  revert j. induction l as [|y l IH]; intros j; simpl; [done|]. destruct (p y) eqn:E; [done|].
  destruct (position_of p l); [done|]. intros _. destruct j; intros; simplify_eq/=; [done | by eapply IH].
Qed.

Lemma length_plain_spans start index l : length (plain_spans start index l) = length l.
Proof. revert start index. induction l as [|x l IH]; intros start index; [done|]. simpl. by rewrite IH. Qed.

Lemma plain_spans_lookup start index l k :
  plain_spans start index l !! k =
    (fun len => mkSpan (index - 1 - Z.of_nat k) (start - zsum (take (S k) l)) (Some len)) <$> l !! k.
Proof.
  revert start index k. induction l as [|x l IH]; intros start index [|k]; simpl; try done.
  - do 2 f_equal; lia.
  - rewrite IH. destruct (l !! k); simpl; [|done]. f_equal. f_equal; lia.
Qed.

(** The span at position [k] ended by the window exactly when its successor
    starts by then. *)
Lemma ended_by_at window s k len : spans_ok s -> prior s !! k = Some len ->
  exists x, drop 1 (spans_iter s) !! k = Some x /\
    ended_by window x = (last_start s - zsum (take k (prior s)) <=? window).
Proof.
  intros Hs Hk. rewrite spans_iter_plain by done. rewrite skipn_cons, drop_0, plain_spans_lookup, Hk. eexists. split; [done|].
  unfold ended_by. cbn [span_length span_start]. destruct Hs as [H1 H2 H3 H4].
  pose proof (zsum_take_S k (prior s) len Hk) as Hz. pose proof (zsum_take_le k (prior s) H1).
  pose proof (zsum_nonneg _ (Forall_take _ k _ H1)).
  unfold wrapping_add. rewrite wrap_small by (simpl in Hz; unfold in_range; simpl; lia). f_equal. simpl in *. lia.
Qed.

(** Pruning cuts the earlier spans after some position [o]: all before it reach
    into the window, the one at [o] does not. *)
Lemma prune_cut window s : spans_ok s ->
  exists o, (o <= length (prior s))%nat /\ prior (prune window s).2 = take o (prior s) /\
    span_index (prune window s).2 = span_index s /\ last_start (prune window s).2 = Z.max (last_start s) window /\
    last_nonzero_slash (prune window s).2 = last_nonzero_slash s /\
    (forall j, (j < o)%nat -> window < last_start s - zsum (take j (prior s))) /\
    ((o < length (prior s))%nat -> last_start s - zsum (take o (prior s)) <= window) /\
    (prune window s).1 =
      (if (o <? length (prior s))%nat
       then Some (span_index s - Z.of_nat (length (prior s)), span_index s - Z.of_nat o) else None).
Proof.
  intros Hs. pose proof Hs as [H1 H2 H3 H4]. unfold prune.
  assert (Hl : length (drop 1 (spans_iter s)) = length (prior s)).
  { by rewrite spans_iter_plain, skipn_cons, drop_0, length_plain_spans by done. }
  destruct (position_of _ _) as [o|] eqn:E.
  - destruct (position_of_Some _ _ _ E) as [(x & Hx & Hp) Hj]. pose proof (lookup_lt_Some _ _ _ Hx) as Hlt. rewrite Hl in Hlt.
    exists o. cbn [fst snd prior span_index last_start last_nonzero_slash].
    destruct (lookup_lt_is_Some_2 (prior s) o Hlt) as [len Hlen].
    destruct (ended_by_at window s o len Hs Hlen) as (x' & Hx' & Hend).
    assert (x' = x) as -> by congruence. rewrite Hend in Hp. apply Z.leb_le in Hp.
    split_and!; try done; [lia | |].
    + intros j Hjo. destruct (lookup_lt_is_Some_2 (prior s) j ltac:(lia)) as [lenj Hlenj].
      destruct (ended_by_at window s j lenj Hs Hlenj) as (xj & Hxj & Hej). specialize (Hj j xj Hjo Hxj).
      rewrite Hej in Hj. by apply Z.leb_gt in Hj.
    + rewrite (proj2 (Nat.ltb_lt o (length (prior s))) Hlt), length_take, Nat.min_l by lia.
      unfold wrapping_sub. rewrite !(wrap_small _ (Z.of_nat _)) by (unfold in_range; lia).
      by rewrite !wrap_small by (unfold in_range; lia).
  - exists (length (prior s)). cbn [fst snd prior span_index last_start last_nonzero_slash].
    rewrite firstn_all, Nat.ltb_irrefl. split_and!; try done; [|lia].
    intros j Hj. destruct (lookup_lt_is_Some_2 (prior s) j Hj) as [len Hlen].
    destruct (ended_by_at window s j len Hs Hlen) as (x & Hx & Hend).
    pose proof (position_of_None _ _ _ _ E Hx) as Hp. rewrite Hend in Hp. by apply Z.leb_gt in Hp.
Qed.

Lemma prune_ok window s : spans_ok s -> window <= umax ERA_BITS -> spans_ok (prune window s).2.
Proof.
  intros Hs Hw. destruct (prune_cut window s Hs) as (o & Ho & Hp & Hi & Hl & _). destruct Hs as [H1 H2 H3 H4].
  pose proof (zsum_take_le o (prior s) H1). split; rewrite ?Hp, ?Hi, ?Hl; [by apply Forall_take | lia | lia|].
  rewrite length_take. lia.
Qed.

(** Eras inside the window keep their span. *)
Lemma prune_keeps window s era : spans_ok s -> 0 <= window <= umax ERA_BITS -> window <= era ->
  span_idx <$> era_span (prune window s).2 era = span_idx <$> era_span s era.
Proof.
  intros Hs Hw He. pose proof (prune_ok window s Hs ltac:(lia)) as Hok.
  destruct (prune_cut window s Hs) as (o & Ho & Hp & Hi & Hl & _ & Hkeep & Hcut & _).
  set (s' := (prune window s).2) in *. pose proof Hs as [H1 H2 H3 H4].
  destruct (Z.le_gt_cases (last_start s) era) as [Hge|Hlt].
  { destruct (era_span_current s era Hge) as (x & -> & Hx).
    destruct (era_span_current s' era ltac:(lia)) as (y & -> & Hy). simpl. f_equal. lia. }
  assert (Hmax : last_start s' = last_start s) by lia.
  destruct (era_span s era) as [x|] eqn:E.
  - destruct (era_span_in s era x Hs E) as [[_ ?]|(k & len & Hk & Hi' & Hb)]; [lia|].
    assert (Hko : (k < o)%nat).
    { destruct (le_lt_dec o k) as [Hle|]; [exfalso | done]. pose proof (lookup_lt_Some _ _ _ Hk).
      specialize (Hcut ltac:(lia)). pose proof (zsum_take_mono o k (prior s) H1 Hle). lia. }
    destruct (era_span_intro s' era k len Hok) as (y & -> & Hy).
    + rewrite Hp, lookup_take_lt by done. done.
    + rewrite Hp, Hmax, !take_take, !Nat.min_l by lia. lia.
    + simpl. f_equal. lia.
  - destruct (era_span s' era) as [y|] eqn:E'; [|done]. exfalso.
    destruct (era_span_in s' era y Hok E') as [[_ ?]|(k & len & Hk & Hi' & Hb)]; [lia|].
    rewrite Hp in Hk. apply lookup_take_Some in Hk as [Hk Hko]. rewrite Hp, Hmax, !take_take, !Nat.min_l in Hb by lia.
    destruct (era_span_intro s era k len Hs Hk Hb) as (x & Hx & _). congruence.
Qed.
