(* ===== verification/StakingState.v ===== *)
(** * Staking: storage and environment

    The storage of [src/crml/staking/src/lib.rs], split into the bonds of
    stakers, the eras, the slashes and the election, the configuration of the
    pallet, and the parts of the runtime it calls, as classes over a world [W]:
    the staked currency, the rewards module, the session module and the clock. *)

From S2P Require Import Prelude Support GenericAssetTypes StakingTypes SlashingSpans.

(** ** Double maps: the second key under the first *)
Section DoubleMaps.
Context {V : Type}.
Implicit Types m : gmap Z (gmap Z V).

Definition dprefix (k : Z) m : gmap Z V := default ∅ (m !! k).
Definition dlookup (k k' : Z) m : option V := dprefix k m !! k'.
Definition dinsert (k k' : Z) (v : V) m : gmap Z (gmap Z V) := <[k := <[k' := v]> (dprefix k m)]> m.
Definition ddelete (k k' : Z) m : gmap Z (gmap Z V) := <[k := delete k' (dprefix k m)]> m.

Lemma dprefix_insert k k1 m v : dprefix k (<[k1 := v]> m) = if k =? k1 then v else dprefix k m.
Proof.
  unfold dprefix. destruct (Z.eqb_spec k k1) as [->|]; [by rewrite lookup_insert_eq | by rewrite lookup_insert_ne].
Qed.

Lemma dlookup_insert k k' k1 k1' v m :
  dlookup k k' (dinsert k1 k1' v m) = if (k =? k1) && (k' =? k1') then Some v else dlookup k k' m.
Proof.
  unfold dlookup, dinsert. rewrite dprefix_insert. destruct (Z.eqb_spec k k1) as [->|]; [|done]. simpl.
  destruct (Z.eqb_spec k' k1') as [->|]; [by rewrite lookup_insert_eq | by rewrite lookup_insert_ne].
Qed.
End DoubleMaps.

(** ** Configuration *)

(** [T::DbWeight::get().reads_writes] and the order in which storage maps are
    iterated come from outside this repository. *)
Class StakingConfig := {
  SessionsPerEra : Z;
  BondingDuration : EraIndex;
  SlashDeferDuration : EraIndex;
  ElectionLookahead : BlockNumber;
  MinSolutionScoreBump : Perbill;
  MaxNominatorRewardedPerValidator : Z;
  OffendingValidatorsThreshold : Perbill;
  WeightSoftLimit : Z;
  UnsignedPriority : Z;
  reads_writes : Z -> Z -> Z;
  storage_order : forall V, gmap Z V -> list (Z * V);
}.

(** [LockIdentifier] *b"staking " as a number. *)
Definition STAKING_ID : Z := 2334956330867061875.

(** [CompactAssignments::LIMIT] *)
Definition MAX_NOMINATIONS : nat := 16.

(** [ValidatorIndex] is [u16], [NominatorIndex] is [u32]. *)
Definition MAX_VALIDATORS : Z := umax 16.
Definition MAX_NOMINATORS : Z := umax 32.

(** What the pallet's [Config] names: [Currency] with locks, [Slash],
    [Rewarder], [SessionInterface], [UnixTime], [NextNewSession]. *)
Class StakingEnv (W : Type) := {
  stk_free_balance : AccountId -> W -> Balance;
  stk_total_balance : AccountId -> W -> Balance;
  stk_minimum_balance : W -> Balance;
  stk_total_issuance : W -> Balance;
  stk_set_lock : LockIdentifier -> AccountId -> Balance -> Z -> W -> W;
  stk_remove_lock : LockIdentifier -> AccountId -> W -> W;
  stk_slash : AccountId -> Balance -> W -> (NegativeImbalance * Balance) * W;
  stk_issue : Balance -> W -> NegativeImbalance * W;
  stk_resolve_creating : AccountId -> NegativeImbalance -> W -> W;
  stk_on_slash : NegativeImbalance -> W -> W;
  stk_set_payee : AccountId -> AccountId -> W -> W;
  stk_remove_payee : AccountId -> W -> W;
  stk_on_end_era : list AccountId -> EraIndex -> Z -> bool -> W -> option W;
  stk_individual_reward : AccountId -> Z -> list (AccountId * Perbill * Exposure) -> W -> Balance;
  stk_disable_validator : Z -> W -> W;
  stk_validators : W -> list AccountId;
  stk_prune_historical_up_to : SessionIndex -> W -> W;
  stk_unix_millis : W -> Z;
  stk_estimate_next_new_session : BlockNumber -> W -> option BlockNumber;
}.

(** ** Storage *)
Record SpanRecord := mkSpanRecord { sr_slashed : Balance; sr_paid_out : Balance }.

Definition SpanRecord_default : SpanRecord := mkSpanRecord 0 0.

Record BondStore := mkBondStore {
  MinimumBond : Balance;
  Bonded : gmap Z AccountId;
  Ledger : gmap Z StakingLedger;
  Validators : gmap Z ValidatorPrefs;
  Nominators : gmap Z Nominations;
}.

Definition bond_eta (b : BondStore) : BondStore :=
  mkBondStore (MinimumBond b) (Bonded b) (Ledger b) (Validators b) (Nominators b).

Definition set_MinimumBond : (Balance -> Balance) -> BondStore -> BondStore :=
  ltac:(setter bond_eta MinimumBond).
Definition set_Bonded : ((gmap Z AccountId) -> (gmap Z AccountId)) -> BondStore -> BondStore :=
  ltac:(setter bond_eta Bonded).
Definition set_Ledger : ((gmap Z StakingLedger) -> (gmap Z StakingLedger)) -> BondStore -> BondStore :=
  ltac:(setter bond_eta Ledger).
Definition set_Validators : ((gmap Z ValidatorPrefs) -> (gmap Z ValidatorPrefs)) -> BondStore -> BondStore :=
  ltac:(setter bond_eta Validators).
Definition set_Nominators : ((gmap Z Nominations) -> (gmap Z Nominations)) -> BondStore -> BondStore :=
  ltac:(setter bond_eta Nominators).

Record EraStore := mkEraStore {
  HistoryDepth : Z;
  ValidatorCount : Z;
  MinimumValidatorCount : Z;
  CurrentEra : option EraIndex;
  ActiveEra : option ActiveEraInfo;
  ErasStartSessionIndex : gmap Z SessionIndex;
  ErasStakers : gmap Z (gmap Z Exposure);
  ErasStakersClipped : gmap Z (gmap Z Exposure);
  ErasValidatorPrefs : gmap Z (gmap Z ValidatorPrefs);
  ErasTotalStake : gmap Z Balance;
  ForceEra : Forcing;
  IsCurrentSessionFinal : bool;
  IsActiveSessionFinal : bool;
  WasEndEraForced : bool;
}.

Definition era_eta (e : EraStore) : EraStore :=
  mkEraStore (HistoryDepth e) (ValidatorCount e) (MinimumValidatorCount e) (CurrentEra e) (ActiveEra e) (ErasStartSessionIndex e) (ErasStakers e) (ErasStakersClipped e) (ErasValidatorPrefs e) (ErasTotalStake e) (ForceEra e) (IsCurrentSessionFinal e) (IsActiveSessionFinal e) (WasEndEraForced e).

Definition set_HistoryDepth : (Z -> Z) -> EraStore -> EraStore :=
  ltac:(setter era_eta HistoryDepth).
Definition set_ValidatorCount : (Z -> Z) -> EraStore -> EraStore :=
  ltac:(setter era_eta ValidatorCount).
Definition set_MinimumValidatorCount : (Z -> Z) -> EraStore -> EraStore :=
  ltac:(setter era_eta MinimumValidatorCount).
Definition set_CurrentEra : ((option EraIndex) -> (option EraIndex)) -> EraStore -> EraStore :=
  ltac:(setter era_eta CurrentEra).
Definition set_ActiveEra : ((option ActiveEraInfo) -> (option ActiveEraInfo)) -> EraStore -> EraStore :=
  ltac:(setter era_eta ActiveEra).
Definition set_ErasStartSessionIndex : ((gmap Z SessionIndex) -> (gmap Z SessionIndex)) -> EraStore -> EraStore :=
  ltac:(setter era_eta ErasStartSessionIndex).
Definition set_ErasStakers : ((gmap Z (gmap Z Exposure)) -> (gmap Z (gmap Z Exposure))) -> EraStore -> EraStore :=
  ltac:(setter era_eta ErasStakers).
Definition set_ErasStakersClipped : ((gmap Z (gmap Z Exposure)) -> (gmap Z (gmap Z Exposure))) -> EraStore -> EraStore :=
  ltac:(setter era_eta ErasStakersClipped).
Definition set_ErasValidatorPrefs : ((gmap Z (gmap Z ValidatorPrefs)) -> (gmap Z (gmap Z ValidatorPrefs))) -> EraStore -> EraStore :=
  ltac:(setter era_eta ErasValidatorPrefs).
Definition set_ErasTotalStake : ((gmap Z Balance) -> (gmap Z Balance)) -> EraStore -> EraStore :=
  ltac:(setter era_eta ErasTotalStake).
Definition set_ForceEra : (Forcing -> Forcing) -> EraStore -> EraStore :=
  ltac:(setter era_eta ForceEra).
Definition set_IsCurrentSessionFinal : (bool -> bool) -> EraStore -> EraStore :=
  ltac:(setter era_eta IsCurrentSessionFinal).
Definition set_IsActiveSessionFinal : (bool -> bool) -> EraStore -> EraStore :=
  ltac:(setter era_eta IsActiveSessionFinal).
Definition set_WasEndEraForced : (bool -> bool) -> EraStore -> EraStore :=
  ltac:(setter era_eta WasEndEraForced).

Record SlashStore := mkSlashStore {
  OffendingValidators : list (Z * bool);
  Invulnerables : list AccountId;
  SlashRewardFraction : Perbill;
  UnappliedSlashes : gmap Z (list UnappliedSlash);
  BondedEras : list (EraIndex * SessionIndex);
  ValidatorSlashInEra : gmap Z (gmap Z (Perbill * Balance));
  NominatorSlashInEra : gmap Z (gmap Z Balance);
  StashSpans : gmap Z SlashingSpans;
  SpanSlash : gmap (Z * Z) SpanRecord;
  EarliestUnappliedSlash : option EraIndex;
  DeferredOffences : list (list OffenceDetails * list Perbill * SessionIndex);
}.

Definition slash_eta (s : SlashStore) : SlashStore :=
  mkSlashStore (OffendingValidators s) (Invulnerables s) (SlashRewardFraction s) (UnappliedSlashes s) (BondedEras s) (ValidatorSlashInEra s) (NominatorSlashInEra s) (StashSpans s) (SpanSlash s) (EarliestUnappliedSlash s) (DeferredOffences s).

Definition set_OffendingValidators : ((list (Z * bool)) -> (list (Z * bool))) -> SlashStore -> SlashStore :=
  ltac:(setter slash_eta OffendingValidators).
Definition set_Invulnerables : ((list AccountId) -> (list AccountId)) -> SlashStore -> SlashStore :=
  ltac:(setter slash_eta Invulnerables).
Definition set_SlashRewardFraction : (Perbill -> Perbill) -> SlashStore -> SlashStore :=
  ltac:(setter slash_eta SlashRewardFraction).
Definition set_UnappliedSlashes : ((gmap Z (list UnappliedSlash)) -> (gmap Z (list UnappliedSlash))) -> SlashStore -> SlashStore :=
  ltac:(setter slash_eta UnappliedSlashes).
Definition set_BondedEras : ((list (EraIndex * SessionIndex)) -> (list (EraIndex * SessionIndex))) -> SlashStore -> SlashStore :=
  ltac:(setter slash_eta BondedEras).
Definition set_ValidatorSlashInEra : ((gmap Z (gmap Z (Perbill * Balance))) -> (gmap Z (gmap Z (Perbill * Balance)))) -> SlashStore -> SlashStore :=
  ltac:(setter slash_eta ValidatorSlashInEra).
Definition set_NominatorSlashInEra : ((gmap Z (gmap Z Balance)) -> (gmap Z (gmap Z Balance))) -> SlashStore -> SlashStore :=
  ltac:(setter slash_eta NominatorSlashInEra).
Definition set_StashSpans : ((gmap Z SlashingSpans) -> (gmap Z SlashingSpans)) -> SlashStore -> SlashStore :=
  ltac:(setter slash_eta StashSpans).
Definition set_SpanSlash : ((gmap (Z * Z) SpanRecord) -> (gmap (Z * Z) SpanRecord)) -> SlashStore -> SlashStore :=
  ltac:(setter slash_eta SpanSlash).
Definition set_EarliestUnappliedSlash : ((option EraIndex) -> (option EraIndex)) -> SlashStore -> SlashStore :=
  ltac:(setter slash_eta EarliestUnappliedSlash).
Definition set_DeferredOffences : ((list (list OffenceDetails * list Perbill * SessionIndex)) -> (list (list OffenceDetails * list Perbill * SessionIndex))) -> SlashStore -> SlashStore :=
  ltac:(setter slash_eta DeferredOffences).

Record ElectionStore := mkElectionStore {
  SnapshotValidators : option (list AccountId);
  SnapshotNominators : option (list AccountId);
  QueuedElected : option ElectionResult;
  QueuedScore : option ElectionScore;
  EraElectionStatus : ElectionStatus;
}.

Definition election_eta (e : ElectionStore) : ElectionStore :=
  mkElectionStore (SnapshotValidators e) (SnapshotNominators e) (QueuedElected e) (QueuedScore e) (EraElectionStatus e).

Definition set_SnapshotValidators : ((option (list AccountId)) -> (option (list AccountId))) -> ElectionStore -> ElectionStore :=
  ltac:(setter election_eta SnapshotValidators).
Definition set_SnapshotNominators : ((option (list AccountId)) -> (option (list AccountId))) -> ElectionStore -> ElectionStore :=
  ltac:(setter election_eta SnapshotNominators).
Definition set_QueuedElected : ((option ElectionResult) -> (option ElectionResult)) -> ElectionStore -> ElectionStore :=
  ltac:(setter election_eta QueuedElected).
Definition set_QueuedScore : ((option ElectionScore) -> (option ElectionScore)) -> ElectionStore -> ElectionStore :=
  ltac:(setter election_eta QueuedScore).
Definition set_EraElectionStatus : (ElectionStatus -> ElectionStatus) -> ElectionStore -> ElectionStore :=
  ltac:(setter election_eta EraElectionStatus).

(** [decl_event!] *)
Inductive Event :=
| Slash (who : AccountId) (amount : Balance)
| InvulnerableNotSlashed (who : AccountId) (fraction : Perbill)
| SetMinimumBond (value : Balance)
| OldSlashingReportDiscarded (session : SessionIndex)
| StakingElection (compute : ElectionCompute)
| SolutionStored (compute : ElectionCompute)
| SetInvulnerables (validators : list AccountId)
| BondedEvent (stash : AccountId) (amount : Balance)
| Unbonded (stash : AccountId) (amount : Balance)
| Withdrawn (stash : AccountId) (amount : Balance)
| Slashed (who : AccountId) (amount : Balance).

(** The pallet and the rest of the runtime. *)
Record State (W : Type) := mkState {
  bonds : BondStore;
  eras : EraStore;
  slashes : SlashStore;
  election : ElectionStore;
  staking_events : list Event;
  world : W;
}.
Arguments mkState {W} bonds eras slashes election staking_events world.
Arguments bonds {W} s.
Arguments eras {W} s.
Arguments slashes {W} s.
Arguments election {W} s.
Arguments staking_events {W} s.
Arguments world {W} s.

Section Writes.
Context {W : Type}.
Implicit Types s : State W.

Definition on_bonds f s := mkState (f (bonds s)) (eras s) (slashes s) (election s) (staking_events s) (world s).
Definition on_eras f s := mkState (bonds s) (f (eras s)) (slashes s) (election s) (staking_events s) (world s).
Definition on_slashes f s := mkState (bonds s) (eras s) (f (slashes s)) (election s) (staking_events s) (world s).
Definition on_election f s := mkState (bonds s) (eras s) (slashes s) (f (election s)) (staking_events s) (world s).
Definition on_world (f : W -> W) s := mkState (bonds s) (eras s) (slashes s) (election s) (staking_events s) (f (world s)).
Definition deposit_event (e : Event) s :=
  mkState (bonds s) (eras s) (slashes s) (election s) (staking_events s ++ [e]) (world s).
End Writes.
