(* ===== verification/Staking.v ===== *)
(** * The staking pallet: bonds and administration

    The extrinsics of [src/crml/staking/src/lib.rs] on the bonds of a stash
    (bond, unbond, withdraw, rebond, validate, nominate, chill), the ones of the
    root origin, and the helper functions they call.  Slashing is in
    [StakingSlashing], sessions, eras and elections in [StakingEras]. *)

From S2P Require Import Prelude Support GenericAssetTypes StakingTypes SlashingSpans StakingState.

Section Staking_.
Context {W : Type} `{StakingConfig} `{StakingEnv W}.
Abbreviation St := (State W).
Implicit Types s : St.

Definition write_bonds (f : BondStore -> BondStore) : D St unit := modify (on_bonds f).
Definition write_eras (f : EraStore -> EraStore) : D St unit := modify (on_eras f).
Definition write_slashes (f : SlashStore -> SlashStore) : D St unit := modify (on_slashes f).
Definition write_world (f : W -> W) : D St unit := modify (on_world f).
Definition emit (e : Event) : D St unit := modify (deposit_event e).

(** [ensure!(Self::era_election_status().is_closed(), Error::CallNotAllowed)] *)
Definition ensure_election_closed : D St unit :=
  let* status := gets (fun s => EraElectionStatus (election s)) in
  ensure (is_closed status) (Staking StakingError.CallNotAllowed).

(** [Self::ledger(&controller).ok_or(NotController)?] *)
Definition ledger_of (controller : AccountId) : D St StakingLedger :=
  let* b := gets bonds in
  ok_or (Ledger b !! controller) (Staking StakingError.NotController).

(** ** Helpers *)
Definition update_ledger (controller : AccountId) (ledger : StakingLedger) : D St unit :=
  do* write_world (stk_set_lock STAKING_ID (sl_stash ledger) (sl_total ledger) WithdrawReasons.all) in
  write_bonds (set_Ledger (insert controller ledger)).

Definition chill_stash (stash : AccountId) : D St unit :=
  do* write_bonds (set_Validators (delete stash)) in
  write_bonds (set_Nominators (delete stash)).

(** [slashing::clear_stash_metadata] *)
Definition clear_stash_metadata (stash : AccountId) (num_slashing_spans : Z) : D St unit :=
  let* spans := gets (fun s => StashSpans (slashes s) !! stash) in
  match spans with
  | None => ret tt
  | Some spans =>
      do* ensure (Z.of_nat (length (spans_iter spans)) <=? num_slashing_spans)
        (Staking StakingError.IncorrectSlashingSpans) in
      do* write_slashes (set_StashSpans (delete stash)) in
      for_each (spans_iter spans) (fun span => write_slashes (set_SpanSlash (delete (stash, span_idx span))))
  end.

Definition kill_stash (stash : AccountId) : D St unit :=
  let* b := gets bonds in
  let* controller := ok_or (Bonded b !! stash) (Staking StakingError.NotStash) in
  do* clear_stash_metadata stash 1000 in
  do* write_bonds (set_Bonded (delete stash)) in
  do* write_bonds (set_Ledger (delete controller)) in
  do* write_world (stk_remove_payee stash) in
  do* write_bonds (set_Validators (delete stash)) in
  write_bonds (set_Nominators (delete stash)).

Definition clear_era_information (era_index : EraIndex) : D St unit :=
  do* write_eras (set_ErasStakers (delete era_index)) in
  do* write_eras (set_ErasStakersClipped (delete era_index)) in
  do* write_eras (set_ErasValidatorPrefs (delete era_index)) in
  do* write_eras (set_ErasTotalStake (delete era_index)) in
  write_eras (set_ErasStartSessionIndex (delete era_index)).

Definition ensure_new_era : D St unit :=
  let* forcing := gets (fun s => ForceEra (eras s)) in
  do* match forcing with
      | ForceAlways | ForceNew => ret tt
      | _ => write_eras (set_ForceEra (fun _ => ForceNew))
      end in
  write_eras (set_IsCurrentSessionFinal (fun _ => true)).

Definition will_era_be_forced (e : EraStore) : bool :=
  match ForceEra e with ForceAlways | ForceNew => true | ForceNone | NotForcing => false end.

Definition total_staked (e : EraStore) : Balance := sget 0 (default 0 (CurrentEra e)) (ErasTotalStake e).

Definition active_balance (controller : AccountId) (b : BondStore) : Balance :=
  match Ledger b !! controller with Some ledger => sl_active ledger | None => 0 end.

Definition slashable_balance_of (stash : AccountId) (b : BondStore) : Balance :=
  default 0 (sl_active <$> (Bonded b !! stash ≫= fun c => Ledger b !! c)).

Fixpoint is_sorted_and_unique (l : list Z) : bool :=
  match l with
  | x :: ((y :: _) as l') => (x <? y) && is_sorted_and_unique l'
  | _ => true
  end.

(** The account a reward destination names. *)
Definition payee_account (stash controller : AccountId) (payee : RewardDestination) : AccountId :=
  match payee with Stash => stash | Controller => controller | Account account => account end.

(** ** Bonding *)
Definition bond (origin : Origin) (controller : AccountId) (value : Balance) (payee : RewardDestination) : D St unit :=
  let* stash := ensure_signed origin in
  let* b := gets bonds in
  do* ensure (negb (bool_decide (is_Some (Bonded b !! stash)))) (Staking StakingError.AlreadyBonded) in
  do* ensure (negb (bool_decide (is_Some (Ledger b !! controller)))) (Staking StakingError.AlreadyPaired) in
  do* ensure (negb (value <? MinimumBond b)) (Staking StakingError.InsufficientBond) in
  do* write_bonds (set_Bonded (insert stash controller)) in
  do* write_world (stk_set_payee stash (payee_account stash controller payee)) in
  let* stash_balance := gets (fun s => stk_free_balance stash (world s)) in
  let value := Z.min value stash_balance in
  do* emit (BondedEvent stash value) in
  update_ledger controller (mkLedger stash value value []).

Definition bond_extra (origin : Origin) (max_additional : Balance) : D St unit :=
  do* ensure_election_closed in
  let* stash := ensure_signed origin in
  let* b := gets bonds in
  let* controller := ok_or (Bonded b !! stash) (Staking StakingError.NotStash) in
  let* ledger := ledger_of controller in
  let* stash_balance := gets (fun s => stk_free_balance stash (world s)) in
  match checked_sub stash_balance (sl_total ledger) with
  | Some extra =>
      let extra := Z.min extra max_additional in
      do* ensure (MinimumBond b <=? wrapping_add BALANCE_BITS (sl_active ledger) extra)
        (Staking StakingError.InsufficientBond) in
      let ledger := mkLedger (sl_stash ledger) (wrapping_add BALANCE_BITS (sl_total ledger) extra)
                      (wrapping_add BALANCE_BITS (sl_active ledger) extra) (sl_unlocking ledger) in
      do* emit (BondedEvent stash extra) in
      update_ledger controller ledger
  | None => fail (Staking StakingError.InsufficientFreeBalance)
  end.

Definition unbond (origin : Origin) (value : Balance) : D St unit :=
  do* ensure_election_closed in
  let* controller := ensure_signed origin in
  let* ledger := ledger_of controller in
  do* ensure (length (sl_unlocking ledger) <? MAX_UNLOCKING_CHUNKS)%nat (Staking StakingError.NoMoreChunks) in
  if (sl_active ledger =? 0) || (value =? 0) then ret tt
  else
    let remaining_active := default 0 (checked_sub (sl_active ledger) value) in
    let* current_era := gets (fun s => CurrentEra (eras s)) in
    let era := wrapping_add ERA_BITS (default 0 current_era) BondingDuration in
    let* minimum_bond := gets (fun s => MinimumBond (bonds s)) in
    let stash := sl_stash ledger in
    if remaining_active <? minimum_bond then
      do* emit (Unbonded stash (sl_active ledger)) in
      do* chill_stash stash in
      update_ledger controller
        (mkLedger stash (sl_total ledger) 0 (sl_unlocking ledger ++ [mkChunk (sl_active ledger) era]))
    else
      do* emit (Unbonded stash value) in
      update_ledger controller
        (mkLedger stash (sl_total ledger) remaining_active (sl_unlocking ledger ++ [mkChunk value era])).

Definition withdraw_unbonded (origin : Origin) : D St unit :=
  do* ensure_election_closed in
  let* controller := ensure_signed origin in
  let* ledger := ledger_of controller in
  let stash := sl_stash ledger in
  let old_total := sl_total ledger in
  let* current_era := gets (fun s => CurrentEra (eras s)) in
  let ledger := match current_era with Some era => consolidate_unlocked era ledger | None => ledger end in
  do* (if bool_decide (length (sl_unlocking ledger) = O) && (sl_active ledger =? 0) then
         do* write_world (stk_remove_lock STAKING_ID (sl_stash ledger)) in
         kill_stash (sl_stash ledger)
       else update_ledger controller ledger) in
  if sl_total ledger <? old_total then emit (Withdrawn stash (old_total - sl_total ledger)) else ret tt.

(** The weight [rebond] reports. *)
Definition rebond_weight (chunks : nat) : Z :=
  wrapping_add 64 (wrapping_add 64 (35 * 1000000) (50 * 1000 * Z.of_nat chunks)) (reads_writes 3 2).

Definition rebond (origin : Origin) (value : Balance) : D St Z :=
  do* ensure_election_closed in
  let* controller := ensure_signed origin in
  let* ledger := ledger_of controller in
  do* ensure (negb (bool_decide (length (sl_unlocking ledger) = O))) (Staking StakingError.NoUnlockChunk) in
  let* minimum_bond := gets (fun s => MinimumBond (bonds s)) in
  do* ensure (minimum_bond <=? saturating_add BALANCE_BITS (sl_active ledger) value)
    (Staking StakingError.InsufficientBond) in
  let ledger := ledger_rebond value ledger in
  do* update_ledger controller ledger in
  ret (rebond_weight (length (sl_unlocking ledger))).

(** ** Roles *)
Definition validate (origin : Origin) (prefs : ValidatorPrefs) : D St unit :=
  do* ensure_election_closed in
  let* controller := ensure_signed origin in
  let* ledger := ledger_of controller in
  let* minimum_bond := gets (fun s => MinimumBond (bonds s)) in
  do* ensure (minimum_bond <=? sl_active ledger) (Staking StakingError.InsufficientBond) in
  let stash := sl_stash ledger in
  do* write_bonds (set_Nominators (delete stash)) in
  write_bonds (set_Validators (insert stash (mkPrefs (Z.min (commission prefs) PERBILL_ONE)))).

Definition nominate (origin : Origin) (targets : list AccountId) : D St unit :=
  do* ensure_election_closed in
  let* controller := ensure_signed origin in
  let* ledger := ledger_of controller in
  let stash := sl_stash ledger in
  let* minimum_bond := gets (fun s => MinimumBond (bonds s)) in
  do* ensure (minimum_bond <=? sl_active ledger) (Staking StakingError.InsufficientBond) in
  do* ensure (negb (bool_decide (targets = []))) (Staking StakingError.EmptyTargets) in
  do* ensure (bool_decide (size (list_to_set targets : gset Z) = length targets)) (Staking StakingError.DuplicateNominee) in
  let* current_era := gets (fun s => CurrentEra (eras s)) in
  do* write_bonds (set_Validators (delete stash)) in
  write_bonds (set_Nominators (insert stash (mkNominations (take MAX_NOMINATIONS targets) (default 0 current_era)))).

Definition chill (origin : Origin) : D St unit :=
  do* ensure_election_closed in
  let* controller := ensure_signed origin in
  let* ledger := ledger_of controller in
  chill_stash (sl_stash ledger).

Definition set_payee (origin : Origin) (payee : RewardDestination) : D St unit :=
  let* controller := ensure_signed origin in
  let* ledger := ledger_of controller in
  let stash := sl_stash ledger in
  write_world (stk_set_payee stash (payee_account stash controller payee)).

Definition set_controller (origin : Origin) (controller : AccountId) : D St unit :=
  let* stash := ensure_signed origin in
  let* b := gets bonds in
  let* old_controller := ok_or (Bonded b !! stash) (Staking StakingError.NotStash) in
  do* ensure (negb (bool_decide (is_Some (Ledger b !! controller)))) (Staking StakingError.AlreadyPaired) in
  if controller =? old_controller then ret tt
  else
    do* write_bonds (set_Bonded (insert stash controller)) in
    match Ledger b !! old_controller with
    | Some l => write_bonds (set_Ledger (fun m => <[controller := l]> (delete old_controller m)))
    | None => ret tt
    end.

(** ** Root calls *)
Definition set_validator_count (origin : Origin) (new : Z) : D St unit :=
  do* ensure_root origin in
  write_eras (set_ValidatorCount (fun _ => new)).

Definition increase_validator_count (origin : Origin) (additional : Z) : D St unit :=
  do* ensure_root origin in
  write_eras (set_ValidatorCount (fun n => wrapping_add 32 n additional)).

Definition force_no_eras (origin : Origin) : D St unit :=
  do* ensure_root origin in
  write_eras (set_ForceEra (fun _ => ForceNone)).

Definition force_new_era (origin : Origin) : D St unit :=
  do* ensure_root origin in ensure_new_era.

Definition set_minimum_bond (origin : Origin) (value : Balance) : D St unit :=
  do* ensure_root origin in
  do* write_bonds (set_MinimumBond (fun _ => value)) in
  emit (SetMinimumBond value).

Definition set_invulnerables (origin : Origin) (validators : list AccountId) : D St unit :=
  do* ensure_root origin in
  do* write_slashes (set_Invulnerables (fun _ => validators)) in
  emit (SetInvulnerables validators).

Definition force_unstake (origin : Origin) (stash : AccountId) : D St unit :=
  do* ensure_root origin in
  do* kill_stash stash in
  write_world (stk_remove_lock STAKING_ID stash).

Definition force_new_era_always (origin : Origin) : D St unit :=
  do* ensure_root origin in
  write_eras (set_ForceEra (fun _ => ForceAlways)).

(** The loop of [cancel_deferred_slash]; [Vec::remove] panics out of range. *)
Fixpoint remove_indices {A} (removed : nat) (indices : list Z) (l : list A) : option (list A) :=
  match indices with
  | [] => Some l
  | i :: indices =>
      let index := (Z.to_nat i - removed)%nat in
      if (Z.to_nat i <? removed)%nat || (length l <=? index)%nat then None
      else remove_indices (S removed) indices (delete index l)
  end.

Definition cancel_deferred_slash (origin : Origin) (era : EraIndex) (slash_indices : list Z) : D St unit :=
  do* ensure_root origin in
  do* ensure (negb (bool_decide (slash_indices = []))) (Staking StakingError.EmptyTargets) in
  do* ensure (is_sorted_and_unique slash_indices) (Staking StakingError.NotSortedAndUnique) in
  let* unapplied := gets (fun s => sget [] era (UnappliedSlashes (slashes s))) in
  let last_item := List.last slash_indices 0 in
  do* ensure (Z.to_nat last_item <? length unapplied)%nat (Staking StakingError.InvalidSlashIndex) in
  match remove_indices 0 slash_indices unapplied with
  | Some unapplied => write_slashes (set_UnappliedSlashes (insert era unapplied))
  | None => panic
  end.

Definition set_history_depth (origin : Origin) (new_history_depth : EraIndex) (_era_items_deleted : Z) : D St unit :=
  do* ensure_root origin in
  do* ensure (1 <? new_history_depth) (Staking StakingError.IncorrectHistoryDepth) in
  let* e := gets eras in
  match CurrentEra e with
  | Some current_era =>
      let last_kept := default 0 (checked_sub current_era (HistoryDepth e)) in
      let new_last_kept := default 0 (checked_sub current_era new_history_depth) in
      do* for_each (seqZ last_kept (new_last_kept - last_kept)) clear_era_information in
      write_eras (set_HistoryDepth (fun _ => new_history_depth))
  | None => ret tt
  end.

Definition reap_stash (_origin : Origin) (stash : AccountId) : D St unit :=
  let* w := gets world in
  do* ensure (stk_total_balance stash w <=? stk_minimum_balance w) (Staking StakingError.FundedTarget) in
  do* kill_stash stash in
  write_world (stk_remove_lock STAKING_ID stash).

(** ** Genesis: the stakers of the chain specification, their errors ignored *)
Definition genesis_staker (staker : AccountId * AccountId * Balance * StakerStatus) : D St unit := fun s =>
  let '(stash, controller, balance, status) := staker in
  if stk_free_balance stash (world s) <? balance then (Panic, s)
  else
    let s1 := (bond (Signed stash) controller balance Stash s).2 in
    match status with
    | Validator => (Ok tt, (validate (Signed controller) ValidatorPrefs_default s1).2)
    | Nominator votes => (Ok tt, (nominate (Signed controller) votes s1).2)
    | Idle => (Ok tt, s1)
    end.

Definition genesis_build (minimum_bond history_depth : Z) (stakers : list (AccountId * AccountId * Balance * StakerStatus))
    : D St unit :=
  if (minimum_bond <=? 0) || (history_depth <=? 1) then panic else for_each stakers genesis_staker.
End Staking_.
