(* ===== verification/StakingSlashing.v ===== *)
(** * Staking: slashing

    [src/crml/staking/src/slashing.rs] and the offence handler of
    [src/crml/staking/src/lib.rs]: what a reported offence costs the validator
    and its nominators, the record of the largest slash of a span, the deferral
    of slashes, and their application to the ledgers and balances. *)

From S2P Require Import Prelude Support GenericAssetTypes Search StakingTypes SlashingSpans StakingState Staking.

Section Slashing.
Context {W : Type} `{StakingConfig} `{StakingEnv W} `{PerbillOps}.
Abbreviation St := (State W).
Implicit Types s : St.

Definition REWARD_F1 : Perbill := perbill_from_percent 50.

Record SlashParams := mkParams {
  sp_stash : AccountId;
  sp_slash : Perbill;
  sp_exposure : Exposure;
  sp_slash_era : EraIndex;
  sp_window_start : EraIndex;
  sp_now : EraIndex;
  sp_reward_proportion : Perbill;
  sp_disable_strategy : DisableStrategy;
}.

(** ** Inspecting the spans of one stash

    The struct [InspectingSpans]: the spans, whether they changed, and the two
    accumulators it borrows. *)
Record InspectingSpans := mkInspecting {
  in_dirty : bool;
  in_spans : SlashingSpans;
  in_paid_out : Balance;
  in_slash_of : Balance;
}.

Definition fetch_spans (stash : AccountId) (window_start : EraIndex) (paid_out slash_of : Balance)
    : D St InspectingSpans :=
  let* stored := gets (fun s => StashSpans (slashes s) !! stash) in
  match stored with
  | Some spans => ret (mkInspecting false spans paid_out slash_of)
  | None =>
      let spans := SlashingSpans_new window_start in
      do* write_slashes (set_StashSpans (insert stash spans)) in
      ret (mkInspecting false spans paid_out slash_of)
  end.

Definition inspect_end_span (now : EraIndex) (i : InspectingSpans) : InspectingSpans :=
  let '(ended, spans) := spans_end_span now (in_spans i) in
  mkInspecting (ended || in_dirty i) spans (in_paid_out i) (in_slash_of i).

Definition add_slash (amount : Balance) (slash_era : EraIndex) (i : InspectingSpans) : InspectingSpans :=
  let spans := in_spans i in
  mkInspecting (in_dirty i)
    (mkSpans (span_index spans) (last_start spans) (Z.max (last_nonzero_slash spans) slash_era) (prior spans))
    (in_paid_out i) (wrapping_add BALANCE_BITS (in_slash_of i) amount).

(** [REWARD_F1 * (self.reward_proportion * slash).saturating_sub(span_record.paid_out)] *)
Definition span_reward (reward_proportion : Perbill) (slash : Balance) (r : SpanRecord) : Balance :=
  perbill_mul REWARD_F1 (saturating_sub (perbill_mul reward_proportion slash) (sr_paid_out r)).

Definition compare_and_update_span_slash (stash : AccountId) (reward_proportion : Perbill) (slash_era : EraIndex)
    (slash : Balance) (i : InspectingSpans) : D St (option SpanIndex * InspectingSpans) :=
  match era_span (in_spans i) slash_era with
  | None => ret (None, i)
  | Some target_span =>
      let key := (stash, span_idx target_span) in
      let* span_record := gets (fun s => sget SpanRecord_default key (SpanSlash (slashes s))) in
      let '(reward, span_record, i, changed) :=
        if sr_slashed span_record <? slash then
          (span_reward reward_proportion slash span_record, mkSpanRecord slash (sr_paid_out span_record),
           add_slash (slash - sr_slashed span_record) slash_era i, true)
        else if sr_slashed span_record =? slash then
          (span_reward reward_proportion slash span_record, span_record, i, false)
        else (0, span_record, i, false) in
      let '(span_record, i, changed) :=
        if reward =? 0 then (span_record, i, changed)
        else (mkSpanRecord (sr_slashed span_record) (wrapping_add BALANCE_BITS (sr_paid_out span_record) reward),
              mkInspecting (in_dirty i) (in_spans i) (wrapping_add BALANCE_BITS (in_paid_out i) reward) (in_slash_of i),
              true) in
      if changed then
        do* write_slashes (set_SpanSlash (insert key span_record)) in
        ret (Some (span_idx target_span), mkInspecting true (in_spans i) (in_paid_out i) (in_slash_of i))
      else ret (Some (span_idx target_span), i)
  end.

(** [Drop for InspectingSpans] *)
Definition drop_spans (stash : AccountId) (window_start : EraIndex) (i : InspectingSpans) : D St unit :=
  if in_dirty i then
    let '(pruned, spans) := prune window_start (in_spans i) in
    do* match pruned with
        | Some (start, end_) =>
            for_each (seqZ start (end_ - start)) (fun span_index =>
              write_slashes (set_SpanSlash (delete (stash, span_index))))
        | None => ret tt
        end in
    write_slashes (set_StashSpans (insert stash spans))
  else ret tt.

(** ** Offending validators *)
Definition add_offending_validator (stash : AccountId) (disable : bool) : D St unit :=
  let* offending := gets (fun s => OffendingValidators (slashes s)) in
  let* validators := gets (fun s => stk_validators (world s)) in
  match position stash validators with
  | None => ret tt
  | Some validator_index =>
      let validator_index := wrap 32 (Z.of_nat validator_index) in
      match binary_search (fst <$> offending) validator_index with
      | inr index =>
          let offending := take index offending ++ (validator_index, disable) :: drop index offending in
          let offending_threshold :=
            perbill_mul OffendingValidatorsThreshold (wrap 32 (Z.of_nat (length validators))) in
          do* (if offending_threshold <=? Z.of_nat (length offending) then ensure_new_era else ret tt) in
          do* (if disable then write_world (stk_disable_validator validator_index) else ret tt) in
          write_slashes (set_OffendingValidators (fun _ => offending))
      | inl index =>
          match offending !! index with
          | Some (i, false) =>
              if disable then
                do* write_world (stk_disable_validator validator_index) in
                write_slashes (set_OffendingValidators (fun _ => <[index := (i, true)]> offending))
              else ret tt
          | _ => ret tt
          end
      end
  end.

(** ** Computing a slash *)
Definition kick_out_if_recent (params : SlashParams) : D St unit :=
  let* spans := fetch_spans (sp_stash params) (sp_window_start params) 0 0 in
  let recent := bool_decide (span_idx <$> era_span (in_spans spans) (sp_slash_era params) = Some (span_index (in_spans spans))) in
  do* (if recent then chill_stash (sp_stash params) else ret tt) in
  let spans := if recent then inspect_end_span (sp_now params) spans else spans in
  let disable_without_slash := match sp_disable_strategy params with DisableAlways => true | _ => false end in
  do* add_offending_validator (sp_stash params) disable_without_slash in
  drop_spans (sp_stash params) (sp_window_start params) spans.

(** The loop over the nominators: the reward to pay out so far and the slashes
    of the nominators so far. *)
Fixpoint slash_nominators (params : SlashParams) (prior_slash_p : Perbill) (nominators : list IndividualExposure)
    (reward_payout : Balance) (nominators_slashed : list (AccountId * Balance)) : D St (Balance * list (AccountId * Balance)) :=
  match nominators with
  | [] => ret (reward_payout, nominators_slashed)
  | nominator :: nominators =>
      let stash := ie_who nominator in
      let own_slash_prior := perbill_mul prior_slash_p (ie_value nominator) in
      let own_slash_by_validator := perbill_mul (sp_slash params) (ie_value nominator) in
      let own_slash_difference := saturating_sub own_slash_by_validator own_slash_prior in
      let* prior_era_slash := gets (fun s => default 0 (dlookup (sp_slash_era params) stash (NominatorSlashInEra (slashes s)))) in
      let era_slash := wrapping_add BALANCE_BITS prior_era_slash own_slash_difference in
      do* write_slashes (set_NominatorSlashInEra (dinsert (sp_slash_era params) stash era_slash)) in
      let* spans := fetch_spans stash (sp_window_start params) reward_payout 0 in
      let* '(target_span, spans) :=
        compare_and_update_span_slash stash (sp_reward_proportion params) (sp_slash_era params) era_slash spans in
      let spans := if bool_decide (target_span = Some (span_index (in_spans spans)))
                   then inspect_end_span (sp_now params) spans else spans in
      do* drop_spans stash (sp_window_start params) spans in
      slash_nominators params prior_slash_p nominators (in_paid_out spans)
        (nominators_slashed ++ [(stash, in_slash_of spans)])
  end.

Definition compute_slash (params : SlashParams) : D St (option UnappliedSlash) :=
  let own_slash := perbill_mul (sp_slash params) (ex_own (sp_exposure params)) in
  if perbill_mul (sp_slash params) (ex_total (sp_exposure params)) =? 0 then
    do* kick_out_if_recent params in ret None
  else
    let* prior_slash_p := gets (fun s =>
      default 0 (fst <$> dlookup (sp_slash_era params) (sp_stash params) (ValidatorSlashInEra (slashes s)))) in
    if sp_slash params <=? prior_slash_p then ret None
    else
      do* write_slashes (set_ValidatorSlashInEra
            (dinsert (sp_slash_era params) (sp_stash params) (sp_slash params, own_slash))) in
      let* spans := fetch_spans (sp_stash params) (sp_window_start params) 0 0 in
      let* '(target_span, spans) :=
        compare_and_update_span_slash (sp_stash params) (sp_reward_proportion params) (sp_slash_era params) own_slash spans in
      let recent := bool_decide (target_span = Some (span_index (in_spans spans))) in
      let spans := if recent then inspect_end_span (sp_now params) spans else spans in
      do* (if recent then chill_stash (sp_stash params) else ret tt) in
      do* drop_spans (sp_stash params) (sp_window_start params) spans in
      let disable_when_slashed := match sp_disable_strategy params with DisableNever => false | _ => true end in
      do* add_offending_validator (sp_stash params) disable_when_slashed in
      let* '(nominator_payout, nominators_slashed) :=
        slash_nominators params prior_slash_p (ex_others (sp_exposure params)) 0 [] in
      ret (Some (mkUnapplied (sp_stash params) (in_slash_of spans) nominators_slashed []
                   (wrapping_add BALANCE_BITS (in_paid_out spans) nominator_payout))).

(** ** Applying a slash *)

(** The reward left to pay and the imbalance after slashing one stash. *)
Definition do_slash (stash : AccountId) (value : Balance) (reward_payout : Balance) (slashed_imbalance : NegativeImbalance)
    : D St (Balance * NegativeImbalance) :=
  let* b := gets bonds in
  match Bonded b !! stash with
  | None => ret (reward_payout, slashed_imbalance)
  | Some controller =>
      match Ledger b !! controller with
      | None => ret (reward_payout, slashed_imbalance)
      | Some ledger =>
          let* minimum_balance := gets (fun s => stk_minimum_balance (world s)) in
          let '(value, ledger) := ledger_slash value minimum_balance ledger in
          if value =? 0 then ret (reward_payout, slashed_imbalance)
          else
            let* '(imbalance, missing) := state (fun s =>
              let '(r, w) := stk_slash stash value (world s) in (r, on_world (fun _ => w) s)) in
            let slashed_imbalance := ni_merge slashed_imbalance imbalance in
            let reward_payout := if missing =? 0 then reward_payout else saturating_sub reward_payout missing in
            do* update_ledger controller ledger in
            do* emit (Slashed stash value) in
            ret (reward_payout, slashed_imbalance)
      end
  end.

Fixpoint do_slashes (l : list (AccountId * Balance)) (reward_payout : Balance) (slashed_imbalance : NegativeImbalance)
    : D St (Balance * NegativeImbalance) :=
  match l with
  | [] => ret (reward_payout, slashed_imbalance)
  | (stash, value) :: l =>
      let* '(reward_payout, slashed_imbalance) := do_slash stash value reward_payout slashed_imbalance in
      do_slashes l reward_payout slashed_imbalance
  end.

(** Pays each reporter its share and returns what is left of the reward. *)
Fixpoint pay_each (reporters : list AccountId) (per_reporter : Balance) (reward_payout : NegativeImbalance)
    : D St NegativeImbalance :=
  match reporters with
  | [] => ret reward_payout
  | reporter :: reporters =>
      let '(reporter_reward, rest) := ni_split reward_payout per_reporter in
      do* write_world (stk_resolve_creating reporter reporter_reward) in
      pay_each reporters per_reporter rest
  end.

Definition pay_reporters (reward_payout : Balance) (slashed_imbalance : NegativeImbalance) (reporters : list AccountId)
    : D St unit :=
  if (reward_payout =? 0) || bool_decide (reporters = []) then write_world (stk_on_slash slashed_imbalance)
  else
    let reward_payout := Z.min reward_payout (ni_amount slashed_imbalance) in
    let '(reward_payout, value_slashed) := ni_split slashed_imbalance reward_payout in
    let n := wrap 32 (Z.of_nat (length reporters)) in
    if n =? 0 then panic
    else
      let* reward_payout := pay_each reporters (ni_amount reward_payout / n) reward_payout in
      write_world (stk_on_slash (ni_merge value_slashed reward_payout)).

Definition apply_slash (unapplied_slash : UnappliedSlash) : D St unit :=
  let* slashed_imbalance := state (fun s => let '(i, w) := stk_issue 0 (world s) in (i, on_world (fun _ => w) s)) in
  let* '(reward_payout, slashed_imbalance) :=
    do_slashes ((us_validator unapplied_slash, us_own unapplied_slash) :: us_others unapplied_slash)
      (us_payout unapplied_slash) slashed_imbalance in
  pay_reporters reward_payout slashed_imbalance (us_reporters unapplied_slash).

Definition clear_era_metadata (obsolete_era : EraIndex) : D St unit :=
  do* write_slashes (set_ValidatorSlashInEra (delete obsolete_era)) in
  write_slashes (set_NominatorSlashInEra (delete obsolete_era)).

Definition apply_unapplied_slashes (active_era : EraIndex) : D St unit :=
  let* earliest := gets (fun s => EarliestUnappliedSlash (slashes s)) in
  match earliest with
  | None => ret tt
  | Some earliest =>
      let keep_from := saturating_sub active_era SlashDeferDuration in
      do* for_each (seqZ earliest (keep_from - earliest)) (fun era =>
            let* era_slashes := gets (fun s => sget [] era (UnappliedSlashes (slashes s))) in
            do* write_slashes (set_UnappliedSlashes (delete era)) in
            for_each era_slashes apply_slash) in
      write_slashes (set_EarliestUnappliedSlash (fun _ => Some (Z.max earliest keep_from)))
  end.

(** ** Offences *)

(** The era of a session before the active era: the latest bonded era that
    started by then. *)
Definition bonded_era_of (session : SessionIndex) (bonded : list (EraIndex * SessionIndex)) : option EraIndex :=
  fst <$> head (List.filter (fun e => snd e <=? session) (rev bonded)).

Definition add_weight (consumed reads writes : Z) : Z := wrapping_add 64 consumed (reads_writes reads writes).

(** The loop over the offenders of a report. *)
Fixpoint slash_offenders (reports : list (OffenceDetails * Perbill)) (slash_era window_start active_era : EraIndex)
    (reward_proportion : Perbill) (invulnerables : list AccountId) (disable_strategy : DisableStrategy)
    (consumed_weight : Z) : D St Z :=
  match reports with
  | [] => ret consumed_weight
  | (details, slash_fraction) :: reports =>
      let continue_ := slash_offenders reports slash_era window_start active_era reward_proportion invulnerables disable_strategy in
      let '(stash, exposure) := od_offender details in
      if bool_decide (stash ∈ invulnerables) then continue_ consumed_weight
      else
        let* unapplied := compute_slash (mkParams stash slash_fraction exposure slash_era window_start active_era
          reward_proportion disable_strategy) in
        match unapplied with
        | Some u =>
            let nominators_len := Z.of_nat (length (us_others u)) in
            let reporters_len := Z.of_nat (length (od_reporters details)) in
            let rw := 3 + nominators_len * 3 in
            let consumed_weight := add_weight consumed_weight rw rw in
            let u := mkUnapplied (us_validator u) (us_own u) (us_others u) (od_reporters details) (us_payout u) in
            if SlashDeferDuration =? 0 then
              do* apply_slash u in
              continue_ (add_weight consumed_weight ((1 + nominators_len) * 6 + 2 * reporters_len)
                           ((1 + nominators_len) * 5 + 2 * reporters_len))
            else
              do* write_slashes (set_UnappliedSlashes (fun m => <[active_era := sget [] active_era m ++ [u]]> m)) in
              continue_ (add_weight consumed_weight 1 1)
        | None => continue_ (add_weight consumed_weight 4 5)
        end
  end.

Definition on_offence (offenders : list OffenceDetails) (slash_fraction : list Perbill) (slash_session : SessionIndex)
    (disable_strategy : DisableStrategy) : D St Z :=
  let* status := gets (fun s => EraElectionStatus (election s)) in
  if negb (is_closed status) then
    do* write_slashes (set_DeferredOffences (fun d => d ++ [(offenders, slash_fraction, slash_session)])) in ret 0
  else
    let* reward_proportion := gets (fun s => SlashRewardFraction (slashes s)) in
    let consumed_weight := add_weight 0 1 0 in
    let* active := gets (fun s => ActiveEra (eras s)) in
    match active with
    | None => ret consumed_weight
    | Some info =>
        let active_era := ae_index info in
        let* start := gets (fun s => default 0 (ErasStartSessionIndex (eras s) !! active_era)) in
        let consumed_weight := add_weight consumed_weight 1 0 in
        let window_start := saturating_sub active_era BondingDuration in
        let* bonded := gets (fun s => BondedEras (slashes s)) in
        let '(slash_era, consumed_weight) :=
          if start <=? slash_session then (Some active_era, consumed_weight)
          else (bonded_era_of slash_session bonded, add_weight consumed_weight 1 0) in
        match slash_era with
        | None => ret consumed_weight
        | Some slash_era =>
            do* write_slashes (set_EarliestUnappliedSlash (fun e =>
                  match e with None => Some active_era | Some _ => e end)) in
            let consumed_weight := add_weight consumed_weight 1 1 in
            let* invulnerables := gets (fun s => Invulnerables (slashes s)) in
            let consumed_weight := add_weight consumed_weight 1 0 in
            slash_offenders (zip offenders slash_fraction) slash_era window_start active_era reward_proportion
              invulnerables disable_strategy consumed_weight
        end
    end.

(** The [retain] of [offences_on_initialize]. *)
Fixpoint report_deferred (consumed : Z) (deferred kept : list (list OffenceDetails * list Perbill * SessionIndex))
    : D St (Z * list (list OffenceDetails * list Perbill * SessionIndex)) :=
  match deferred with
  | [] => ret (consumed, kept)
  | ((offences, fractions, session) as d) :: deferred =>
      if WeightSoftLimit <=? consumed then report_deferred consumed deferred (kept ++ [d])
      else
        let* weight := on_offence offences fractions session WhenSlashed in
        report_deferred (wrapping_add 64 consumed weight) deferred kept
  end.

Definition offences_on_initialize : D St Z :=
  let* status := gets (fun s => EraElectionStatus (election s)) in
  if negb (is_closed status) then ret 0
  else
    let* deferred := gets (fun s => DeferredOffences (slashes s)) in
    let* '(consumed, kept) := report_deferred 0 deferred [] in
    do* write_slashes (set_DeferredOffences (fun _ => kept)) in
    ret consumed.

(** [FilterHistoricalOffences]: reports from before the bonding period are
    dropped; the inner reporter is the offences pallet. *)
Definition report_offence {A} (inner : D St A) (offence_session : SessionIndex) : D St (option A) :=
  let* bonded_eras := gets (fun s => BondedEras (slashes s)) in
  match head bonded_eras with
  | Some (_, start) =>
      if start <=? offence_session then let* r := inner in ret (Some r)
      else do* emit (OldSlashingReportDiscarded offence_session) in ret None
  | None => do* emit (OldSlashingReportDiscarded offence_session) in ret None
  end.
End Slashing.
