(* ===== verification/StakingEras.v ===== *)
(** * Staking: elections, sessions and eras

    The election round of [src/crml/staking/src/lib.rs] (snapshots, submitted
    solutions, the on-chain fallback), the session and era transitions the
    session pallet drives, and the hooks of the pallet.  The algorithms of
    [sp_npos_elections] and the conversion of balances to votes are the class
    [NposElections]. *)

From S2P Require Import Prelude Support GenericAssetTypes StakingTypes SlashingSpans StakingState Staking StakingSlashing.

(** ** [sp_npos_elections] *)
Record Assignment := mkAssignment { as_who : AccountId; as_distribution : list (AccountId * Z) }.

Record Support := mkSupport { su_total : Z; su_voters : list (AccountId * Z) }.

Class NposElections := {
  CompactAssignments : Type;
  StakedAssignments : Type;
  unique_targets : CompactAssignments -> list Z;
  into_assignment : CompactAssignments -> (Z -> option AccountId) -> (Z -> option AccountId) -> option (list Assignment);
  offchain_accuracy_one : Z;
  assignment_ratio_to_staked : list Assignment -> (AccountId -> Z) -> StakedAssignments;
  assignment_ratio_to_staked_normalized : list Assignment -> (AccountId -> Z) -> option StakedAssignments;
  to_supports : StakedAssignments -> list (AccountId * Support);
  evaluate : list (AccountId * Support) -> ElectionScore;
  is_score_better : ElectionScore -> ElectionScore -> Perbill -> bool;
  seq_phragmen : Z -> list AccountId -> list (AccountId * Z * list AccountId) -> option (list AccountId * list Assignment);
  to_vote : Balance -> Balance -> Z;
  to_currency : Z -> Balance -> Balance;
}.

Section Eras.
Context {W : Type} `{StakingConfig} `{StakingEnv W} `{PerbillOps} `{NposElections}.
Abbreviation St := (State W).
Implicit Types s : St.

Definition write_election (f : ElectionStore -> ElectionStore) : D St unit := modify (on_election f).

(** ** Snapshots and the election window *)
Definition create_stakers_snapshot : D St (bool * Z) :=
  let* b := gets bonds in
  let validators := fst <$> storage_order _ (Validators b) in
  let nominators := fst <$> storage_order _ (Nominators b) in
  let num_validators := Z.of_nat (length validators) in
  let num_nominators := Z.of_nat (length nominators) in
  let consumed_weight := reads_writes (num_validators + num_nominators) 0 in
  if (MAX_VALIDATORS <? num_validators) || (MAX_NOMINATORS <? saturating_add 64 num_nominators num_validators) then
    ret (false, consumed_weight)
  else
    do* write_election (set_SnapshotValidators (fun _ => Some validators)) in
    do* write_election (set_SnapshotNominators (fun _ => Some (nominators ++ validators))) in
    ret (true, add_weight consumed_weight 0 2).

Definition kill_stakers_snapshot : D St unit :=
  do* write_election (set_SnapshotValidators (fun _ => None)) in
  write_election (set_SnapshotNominators (fun _ => None)).

Definition close_election_window : D St unit :=
  do* write_election (set_EraElectionStatus (fun _ => Closed)) in
  do* kill_stakers_snapshot in
  write_eras (set_IsCurrentSessionFinal (fun _ => false)).

(** ** Elections *)
Definition slashable_balance_of_fn s : AccountId -> Z :=
  fun who => to_vote (slashable_balance_of who (bonds s)) (stk_total_issuance (world s)).

(** The exposure of a validator from its support: its own stake, the others in
    order, and the total. *)
Definition collect_exposure (total_issuance : Balance) (validator : AccountId) (support : Support) : Exposure :=
  foldl (fun e '(nominator, weight) =>
      let stake := to_currency weight total_issuance in
      let total := saturating_add BALANCE_BITS (ex_total e) stake in
      if nominator =? validator then mkExposure total (saturating_add BALANCE_BITS (ex_own e) stake) (ex_others e)
      else mkExposure total (ex_own e) (ex_others e ++ [mkIndividual nominator stake]))
    Exposure_default (su_voters support).

Definition collect_exposures (supports : list (AccountId * Support)) s : list (AccountId * Exposure) :=
  (fun '(validator, support) => (validator, collect_exposure (stk_total_issuance (world s)) validator support)) <$> supports.

(** Nominations made before the last slash of a target do not count for it. *)
Definition current_targets (n : Nominations) (sl : SlashStore) : list AccountId :=
  List.filter (fun stash =>
      match StashSpans sl !! stash with
      | Some spans => last_nonzero_slash spans <=? submitted_in n
      | None => true
      end) (targets n).

Definition do_phragmen s : option (list AccountId * list Assignment) :=
  let weight_of := slashable_balance_of_fn s in
  let all_validators := fst <$> storage_order _ (Validators (bonds s)) in
  let self_votes := (fun v => (v, weight_of v, [v])) <$> all_validators in
  let nominator_votes :=
    (fun '(n, nominations) => (n, weight_of n, current_targets nominations (slashes s))) <$>
      storage_order _ (Nominators (bonds s)) in
  if Z.of_nat (length all_validators) <? Z.max (MinimumValidatorCount (eras s)) 1 then None
  else seq_phragmen (ValidatorCount (eras s)) all_validators (self_votes ++ nominator_votes).

Definition do_on_chain_phragmen s : option ElectionResult :=
  match do_phragmen s with
  | Some (winners, assignments) =>
      match assignment_ratio_to_staked_normalized assignments (slashable_balance_of_fn s) with
      | Some staked_assignments =>
          Some (mkElection winners (collect_exposures (to_supports staked_assignments) s) OnChain)
      | None => None
      end
  | None => None
  end.

Definition try_do_election : D St (option ElectionResult) :=
  let* queued := gets (fun s => QueuedElected (election s)) in
  do* write_election (set_QueuedElected (fun _ => None)) in
  let* next_result := match queued with Some r => ret (Some r) | None => gets do_on_chain_phragmen end in
  do* write_election (set_QueuedScore (fun _ => None)) in
  ret next_result.

(** [sort_by] with the values reversed: stable, the largest first. *)
Fixpoint insert_desc (x : IndividualExposure) (l : list IndividualExposure) : list IndividualExposure :=
  match l with
  | [] => [x]
  | y :: l' => if ie_value y <=? ie_value x then x :: l else y :: insert_desc x l'
  end.

Definition sort_desc (l : list IndividualExposure) : list IndividualExposure := foldr insert_desc [] l.

Definition clip_exposure (e : Exposure) : Exposure :=
  let clipped_max_len := Z.to_nat MaxNominatorRewardedPerValidator in
  if (clipped_max_len <? length (ex_others e))%nat then
    mkExposure (ex_total e) (ex_own e) (take clipped_max_len (sort_desc (ex_others e)))
  else e.

(** The loop that stores the exposures and sums the stake. *)
Fixpoint store_exposures (current_era : EraIndex) (l : list (AccountId * Exposure)) (total_stake : Balance) : D St Balance :=
  match l with
  | [] => ret total_stake
  | (stash, exposure) :: l =>
      do* write_eras (set_ErasStakers (dinsert current_era stash exposure)) in
      do* write_eras (set_ErasStakersClipped (dinsert current_era stash (clip_exposure exposure))) in
      store_exposures current_era l (saturating_add BALANCE_BITS total_stake (ex_total exposure))
  end.

Definition select_and_update_validators (current_era : EraIndex) : D St (option (list AccountId)) :=
  let* result := try_do_election in
  match result with
  | Some r =>
      do* close_election_window in
      let* total_stake := store_exposures current_era (exposures r) 0 in
      do* write_eras (set_ErasTotalStake (insert current_era total_stake)) in
      do* for_each (elected_stashes r) (fun stash =>
            let* pref := gets (fun s => sget ValidatorPrefs_default stash (Validators (bonds s))) in
            write_eras (set_ErasValidatorPrefs (dinsert current_era stash pref))) in
      do* emit (StakingElection (compute r)) in
      ret (Some (elected_stashes r))
  | None => ret None
  end.

(** ** Eras *)
Definition new_era (start_session_index : SessionIndex) : D St (option (list AccountId)) :=
  do* write_eras (set_CurrentEra (fun e => Some (match e with Some e => wrapping_add ERA_BITS e 1 | None => 0 end))) in
  let* current_era := gets (fun s => default 0 (CurrentEra (eras s))) in
  do* write_eras (set_ErasStartSessionIndex (insert current_era start_session_index)) in
  let* history_depth := gets (fun s => HistoryDepth (eras s)) in
  do* match checked_sub current_era (wrapping_add 32 history_depth 1) with
      | Some old_era => clear_era_information old_era
      | None => ret tt
      end in
  select_and_update_validators current_era.

(** Plans a session; a planned era ends the active one. *)
Definition new_session (session_index : SessionIndex) : D St (option (list AccountId)) :=
  let* e := gets eras in
  match CurrentEra e with
  | Some current_era =>
      let current_era_start_session_index := default 0 (ErasStartSessionIndex e !! current_era) in
      let era_length := default 0 (checked_sub session_index current_era_start_session_index) in
      do* (if will_era_be_forced e then write_eras (set_WasEndEraForced (fun _ => true)) else ret tt) in
      do* (if IsActiveSessionFinal e then write_eras (set_IsActiveSessionFinal (fun _ => false)) else ret tt) in
      do* (if IsCurrentSessionFinal e then
             do* write_eras (set_IsCurrentSessionFinal (fun _ => false)) in
             write_eras (set_IsActiveSessionFinal (fun _ => true))
           else ret tt) in
      let next_is_last := wrapping_add 32 era_length 1 =? SessionsPerEra in
      match ForceEra e with
      | ForceNew => do* write_eras (set_ForceEra (fun _ => NotForcing)) in new_era session_index
      | ForceAlways => new_era session_index
      | NotForcing =>
          if SessionsPerEra <=? era_length then new_era session_index
          else
            do* (if next_is_last then write_eras (set_IsCurrentSessionFinal (fun _ => true)) else ret tt) in
            ret None
      | ForceNone =>
          do* (if next_is_last then write_eras (set_IsCurrentSessionFinal (fun _ => true))
               else if SessionsPerEra <=? era_length then close_election_window
               else ret tt) in
          ret None
      end
  | None => new_era session_index
  end.

(** [iter().take_while(|(era, _)| era < first_kept).count()] *)
Fixpoint pruned_eras (first_kept : EraIndex) (bonded : list (EraIndex * SessionIndex)) : nat :=
  match bonded with
  | (era, _) :: bonded => if era <? first_kept then S (pruned_eras first_kept bonded) else O
  | [] => O
  end.

Definition start_era (start_session : SessionIndex) : D St unit :=
  let* active := gets (fun s => ActiveEra (eras s)) in
  let active_era := match active with Some info => wrapping_add ERA_BITS (ae_index info) 1 | None => 0 end in
  do* write_eras (set_ActiveEra (fun _ => Some (mkActiveEra active_era None))) in
  let* bonded := gets (fun s => BondedEras (slashes s)) in
  let bonded := bonded ++ [(active_era, start_session)] in
  do* (if BondingDuration <? active_era then
         let first_kept := active_era - BondingDuration in
         let n_to_prune := pruned_eras first_kept bonded in
         do* for_each (take n_to_prune bonded) (fun '(pruned_era, _) => clear_era_metadata pruned_era) in
         let bonded := drop n_to_prune bonded in
         do* match head bonded with
             | Some (_, first_session) => write_world (stk_prune_historical_up_to first_session)
             | None => ret tt
             end in
         write_slashes (set_BondedEras (fun _ => bonded))
       else write_slashes (set_BondedEras (fun _ => bonded))) in
  apply_unapplied_slashes active_era.

Definition start_session (start_session : SessionIndex) : D St unit :=
  let* e := gets eras in
  let next_active_era := match ActiveEra e with Some info => wrapping_add ERA_BITS (ae_index info) 1 | None => 0 end in
  do* match ErasStartSessionIndex e !! next_active_era with
      | Some next_active_era_start_session_index =>
          if next_active_era_start_session_index <=? start_session then start_era start_session else ret tt
      | None => ret tt
      end in
  let* offending := gets (fun s => OffendingValidators (slashes s)) in
  for_each offending (fun '(index, disabled) =>
    if disabled : bool then write_world (stk_disable_validator index) else ret tt).

(** [T::UnixTime::now().as_millis().saturated_into::<u64>()] *)
Definition now_as_millis s : Z := saturate 64 (stk_unix_millis (world s)).

Definition end_era (active_era : ActiveEraInfo) : D St unit :=
  let* validators := gets (fun s => fst <$> storage_order _ (dprefix (ae_index active_era) (ErasValidatorPrefs (eras s)))) in
  let active_era_start := default 0 (ae_start active_era) in
  let* now := gets now_as_millis in
  let era_duration_ms := wrapping_sub 64 now active_era_start in
  let* was_forced := gets (fun s => WasEndEraForced (eras s)) in
  do* write_eras (set_WasEndEraForced (fun _ => false)) in
  let* rewarded := gets (fun s => stk_on_end_era validators (ae_index active_era) era_duration_ms was_forced (world s)) in
  match rewarded with
  | Some w =>
      do* write_world (fun _ => w) in
      write_slashes (set_OffendingValidators (fun _ => []))
  | None => panic
  end.

Definition end_session (session_index : SessionIndex) : D St unit :=
  let* e := gets eras in
  match ActiveEra e with
  | Some active_era =>
      match ErasStartSessionIndex e !! wrapping_add ERA_BITS (ae_index active_era) 1 with
      | Some next_active_era_start_session_index =>
          if next_active_era_start_session_index =? wrapping_add 32 session_index 1 then end_era active_era else ret tt
      | None => ret tt
      end
  | None => ret tt
  end.

(** [historical::SessionManager::new_session] *)
Definition historical_new_session (new_index : SessionIndex) : D St (option (list (AccountId * Exposure))) :=
  let* validators := new_session new_index in
  match validators with
  | Some validators =>
      let* e := gets eras in
      let current_era := default 0 (CurrentEra e) in
      ret (Some ((fun v => (v, default Exposure_default (dlookup current_era v (ErasStakers e)))) <$> validators))
  | None => ret None
  end.

(** [StashOf] and [ExposureOf] *)
Definition stash_of (controller : AccountId) s : option AccountId := sl_stash <$> Ledger (bonds s) !! controller.

Definition exposure_of (validator : AccountId) s : option Exposure :=
  match ActiveEra (eras s) with
  | Some active_era => Some (default Exposure_default (dlookup (ae_index active_era) validator (ErasStakers (eras s))))
  | None => None
  end.

(** [FinalSessionTracker] *)
Definition is_next_session_final s : bool * bool := (IsCurrentSessionFinal (eras s), will_era_be_forced (eras s)).
Definition is_active_session_final s : bool := IsActiveSessionFinal (eras s).

Definition accrued_payout (stash : AccountId) s : Balance :=
  match ActiveEra (eras s) with
  | Some (mkActiveEra index (Some start)) =>
      let validator_commission_stake_map :=
        (fun '(validator_stash, prefs) =>
           (validator_stash, commission prefs,
            default Exposure_default (dlookup index validator_stash (ErasStakersClipped (eras s))))) <$>
          storage_order _ (dprefix index (ErasValidatorPrefs (eras s))) in
      stk_individual_reward stash (wrapping_sub 64 (now_as_millis s) start) validator_commission_stake_map (world s)
  | _ => 0
  end.

(** ** Hooks *)

(** Opens the election window within the lookahead of the next session change. *)
Definition open_election_window (now : BlockNumber) : D St Z :=
  let* next := gets (fun s => stk_estimate_next_new_session now (world s)) in
  match next with
  | Some next_session_change =>
      match checked_sub next_session_change now with
      | Some remaining =>
          if (remaining <=? ElectionLookahead) && negb (remaining =? 0) then
            let* '(did_snapshot, snapshot_weight) := create_stakers_snapshot in
            let consumed := wrapping_add 64 (add_weight 0 0 0) snapshot_weight in
            if did_snapshot : bool then
              do* write_election (set_EraElectionStatus (fun _ => Open now)) in
              ret (add_weight consumed 0 1)
            else ret consumed
          else ret 0
      | None => ret 0
      end
  | None => ret 0
  end.

Definition on_initialize (now : BlockNumber) : D St Z :=
  let* e := gets eras in
  let* status := gets (fun s => EraElectionStatus (election s)) in
  let* consumed :=
    if is_closed status && (IsCurrentSessionFinal e || will_era_be_forced e) then open_election_window now else ret 0 in
  let* _offences := offences_on_initialize in
  ret (add_weight (add_weight consumed 3 0) 1 0).

Definition on_finalize : D St unit :=
  let* active := gets (fun s => ActiveEra (eras s)) in
  match active with
  | Some (mkActiveEra index None) =>
      let* now := gets now_as_millis in
      write_eras (set_ActiveEra (fun _ => Some (mkActiveEra index (Some now))))
  | _ => ret tt
  end.

(** ** Submitted solutions *)
Definition pre_dispatch_checks (score : ElectionScore) (era : EraIndex) : D St unit :=
  let* status := gets (fun s => EraElectionStatus (election s)) in
  do* ensure (is_open status) (Staking StakingError.OffchainElectionEarlySubmission) in
  let* current := gets (fun s => CurrentEra (eras s)) in
  do* match current with
      | Some current_era => ensure (current_era =? era) (Staking StakingError.OffchainElectionEarlySubmission)
      | None => ret tt
      end in
  let* queued := gets (fun s => QueuedScore (election s)) in
  match queued with
  | Some queued_score =>
      ensure (is_score_better score queued_score MinSolutionScoreBump) (Staking StakingError.OffchainElectionWeakSubmission)
  | None => ret tt
  end.

(** The snapshot accounts at the indices of the winners. *)
Fixpoint winners_at (snapshot : list AccountId) (winners : list Z) : D St (list AccountId) :=
  match winners with
  | [] => ret []
  | widx :: winners =>
      let* who := ok_or (snapshot !! Z.to_nat widx) (Staking StakingError.OffchainElectionBogusWinner) in
      let* rest := winners_at snapshot winners in
      ret (who :: rest)
  end.

(** The check of one edge of a nominator. *)
Definition check_edge (nomination : Nominations) (t : AccountId) : D St unit :=
  do* ensure (bool_decide (t ∈ targets nomination)) (Staking StakingError.OffchainElectionBogusNomination) in
  let* spans := gets (fun s => StashSpans (slashes s) !! t) in
  match spans with
  | Some spans =>
      ensure (negb (submitted_in nomination <? last_nonzero_slash spans)) (Staking StakingError.OffchainElectionSlashedNomination)
  | None => ret tt
  end.

Definition check_assignment (a : Assignment) : D St unit :=
  let* b := gets bonds in
  let is_validator := bool_decide (is_Some (Validators b !! as_who a)) in
  match Nominators b !! as_who a, is_validator with
  | Some nomination, false => for_each (as_distribution a) (fun '(t, _) => check_edge nomination t)
  | None, true =>
      match as_distribution a with
      | [(t, ratio)] =>
          do* ensure (t =? as_who a) (Staking StakingError.OffchainElectionBogusSelfVote) in
          ensure (ratio =? offchain_accuracy_one) (Staking StakingError.OffchainElectionBogusSelfVote)
      | _ => fail (Staking StakingError.OffchainElectionBogusSelfVote)
      end
  | _, _ => fail (Staking StakingError.OffchainElectionBogusNominator)
  end.

Definition check_and_replace_solution (winners : list Z) (compact_assignments : CompactAssignments) (compute : ElectionCompute)
    (claimed_score : ElectionScore) (era : EraIndex) (election_size : ElectionSize) : D St unit :=
  do* pre_dispatch_checks claimed_score era in
  do* ensure (bool_decide (length (unique_targets compact_assignments) = length winners))
    (Staking StakingError.OffchainElectionBogusWinnerCount) in
  let* validators := gets (fun s => SnapshotValidators (election s)) in
  let* snapshot_validators := ok_or validators (Staking StakingError.SnapshotUnavailable) in
  let snapshot_validators_length := wrap 32 (Z.of_nat (length snapshot_validators)) in
  do* ensure (snapshot_validators_length =? es_validators election_size)
    (Staking StakingError.OffchainElectionBogusElectionSize) in
  let* validator_count := gets (fun s => ValidatorCount (eras s)) in
  let desired_winners := Z.min validator_count snapshot_validators_length in
  do* ensure (wrap 32 (Z.of_nat (length winners)) =? desired_winners)
    (Staking StakingError.OffchainElectionBogusWinnerCount) in
  let* nominators := gets (fun s => SnapshotNominators (election s)) in
  let* snapshot_nominators := ok_or nominators (Staking StakingError.SnapshotUnavailable) in
  do* ensure (wrap 32 (Z.of_nat (length snapshot_nominators)) =? es_nominators election_size)
    (Staking StakingError.OffchainElectionBogusElectionSize) in
  let* winners := winners_at snapshot_validators winners in
  let nominator_at i := snapshot_nominators !! Z.to_nat i in
  let validator_at i := snapshot_validators !! Z.to_nat i in
  let* assignments := ok_or (into_assignment compact_assignments nominator_at validator_at)
    (Staking StakingError.OffchainElectionBogusCompact) in
  do* for_each assignments check_assignment in
  let* weight_of := gets slashable_balance_of_fn in
  let supports := to_supports (assignment_ratio_to_staked assignments weight_of) in
  let submitted_score := evaluate supports in
  do* ensure (bool_decide (submitted_score = claimed_score)) (Staking StakingError.OffchainElectionBogusScore) in
  let* exposures := gets (collect_exposures supports) in
  do* write_election (set_QueuedElected (fun _ => Some (mkElection winners exposures compute))) in
  do* write_election (set_QueuedScore (fun _ => Some submitted_score)) in
  emit (SolutionStored compute).

Definition submit_election_solution (origin : Origin) winners compact score era size : D St unit :=
  let* _who := ensure_signed origin in
  check_and_replace_solution winners compact SignedSolution score era size.

(** [expect]: an unsigned solution that fails panics. *)
Definition submit_election_solution_unsigned (origin : Origin) winners compact score era size : D St unit :=
  do* ensure_none origin in
  fun s => match check_and_replace_solution winners compact UnsignedSolution score era size s with
           | (Err _, s') => (Panic, s')
           | r => r
           end.

(** ** Unsigned validation *)
Inductive TransactionSource := InBlock | Local | External.

Inductive UnsignedValidity :=
| InvalidCall
| InvalidCustom (code : Z)
| ValidSolution (priority : Z) (provides : EraIndex) (longevity : Z).

(** The number of an error is its position in the enumeration. *)
Definition error_number (e : DispatchError) : Z :=
  match e with
  | Staking StakingError.OffchainElectionEarlySubmission => 13
  | Staking StakingError.OffchainElectionWeakSubmission => 14
  | _ => 0
  end.

Definition validate_unsigned (source : TransactionSource) (score : ElectionScore) (era : EraIndex) s : UnsignedValidity :=
  match source with
  | External => InvalidCall
  | Local | InBlock =>
      match (pre_dispatch_checks score era s).1 with
      | Err e => InvalidCustom (error_number e)
      | _ => ValidSolution (saturating_add 64 UnsignedPriority (saturate 64 score.1.1)) era ElectionLookahead
      end
  end.

Definition pre_dispatch (score : ElectionScore) (era : EraIndex) s : option Z :=
  match (pre_dispatch_checks score era s).1 with Err e => Some (error_number e) | _ => None end.
End Eras.
