(* ===== verification/StakingRewards.v ===== *)
(** * Staking rewards

    [src/crml/staking/src/rewards/mod.rs] with its [types.rs], [migration.rs]
    and [default_weights.rs], and the payout runner of
    [src/runtime/src/impls.rs]: inflation and fees of an era become scheduled
    payouts of the validators, which idle block time pays to them and their
    nominators in the spending currency. *)

From S2P Require Import Prelude Support GenericAssetTypes StakingTypes StakingState.

(** ** Configuration *)
Class RewardsConfig := {
  HistoricalPayoutEras : Z;
  FiscalEraLength : Z;
  treasury_account : AccountId;
  db_read : Z;
  db_write : Z;
  payout_order : forall V, gmap Z V -> list (Z * V);
}.

(** [CurrencyToReward], with what dropping a positive imbalance does. *)
Class RewardCurrency (L : Type) := {
  rc_total_issuance : L -> Balance;
  rc_deposit_creating : AccountId -> Balance -> L -> PositiveImbalance * L;
  rc_burn : Balance -> L -> PositiveImbalance * L;
  rc_drop_positive : PositiveImbalance -> L -> L;
}.

(** ** Storage *)
Record EraRewardPoints := mkPoints { erp_total : Z; erp_individual : gmap Z Z }.

Definition EraRewardPoints_default : EraRewardPoints := mkPoints 0 ∅.

Inductive RewardEvent :=
| EraStakerPayout (era : EraIndex) (who : AccountId) (amount : Balance)
| EraPayout (era : EraIndex) (treasury stakers : Balance)
| NewFiscalEra (target_inflation_per_staking_era : Balance).

Record RewardStore := mkRewardStore {
  BaseInflationRate : FixedU128;
  DevelopmentFundTake : Perbill;
  TransactionFeePot : Balance;
  TransactionFeePotHistory : list Balance;
  Payee : gmap Z AccountId;
  ScheduledPayoutAmounts : gmap Z (gmap Z Balance);
  ScheduledPayoutErasAndCounts : list (EraIndex * Z);
  TargetInflationPerStakingEra : Balance;
  FiscalEraEpoch : EraIndex;
  ForceFiscalEra : bool;
  CurrentEraRewardPoints : EraRewardPoints;
  RewardsVersion : Z;
}.

Definition reward_eta (r : RewardStore) : RewardStore :=
  mkRewardStore (BaseInflationRate r) (DevelopmentFundTake r) (TransactionFeePot r) (TransactionFeePotHistory r) (Payee r) (ScheduledPayoutAmounts r) (ScheduledPayoutErasAndCounts r) (TargetInflationPerStakingEra r) (FiscalEraEpoch r) (ForceFiscalEra r) (CurrentEraRewardPoints r) (RewardsVersion r).

Definition set_BaseInflationRate : (FixedU128 -> FixedU128) -> RewardStore -> RewardStore :=
  ltac:(setter reward_eta BaseInflationRate).
Definition set_DevelopmentFundTake : (Perbill -> Perbill) -> RewardStore -> RewardStore :=
  ltac:(setter reward_eta DevelopmentFundTake).
Definition set_TransactionFeePot : (Balance -> Balance) -> RewardStore -> RewardStore :=
  ltac:(setter reward_eta TransactionFeePot).
Definition set_TransactionFeePotHistory : ((list Balance) -> (list Balance)) -> RewardStore -> RewardStore :=
  ltac:(setter reward_eta TransactionFeePotHistory).
Definition set_Payee : ((gmap Z AccountId) -> (gmap Z AccountId)) -> RewardStore -> RewardStore :=
  ltac:(setter reward_eta Payee).
Definition set_ScheduledPayoutAmounts : ((gmap Z (gmap Z Balance)) -> (gmap Z (gmap Z Balance))) -> RewardStore -> RewardStore :=
  ltac:(setter reward_eta ScheduledPayoutAmounts).
Definition set_ScheduledPayoutErasAndCounts : ((list (EraIndex * Z)) -> (list (EraIndex * Z))) -> RewardStore -> RewardStore :=
  ltac:(setter reward_eta ScheduledPayoutErasAndCounts).
Definition set_TargetInflationPerStakingEra : (Balance -> Balance) -> RewardStore -> RewardStore :=
  ltac:(setter reward_eta TargetInflationPerStakingEra).
Definition set_FiscalEraEpoch : (EraIndex -> EraIndex) -> RewardStore -> RewardStore :=
  ltac:(setter reward_eta FiscalEraEpoch).
Definition set_ForceFiscalEra : (bool -> bool) -> RewardStore -> RewardStore :=
  ltac:(setter reward_eta ForceFiscalEra).
Definition set_CurrentEraRewardPoints : (EraRewardPoints -> EraRewardPoints) -> RewardStore -> RewardStore :=
  ltac:(setter reward_eta CurrentEraRewardPoints).
Definition set_RewardsVersion : (Z -> Z) -> RewardStore -> RewardStore :=
  ltac:(setter reward_eta RewardsVersion).

(** The pallet and the currency it mints. *)
Record State (L : Type) := mkState { rewards : RewardStore; reward_events : list RewardEvent; ledger : L }.
Arguments mkState {L} rewards reward_events ledger.
Arguments rewards {L} s.
Arguments reward_events {L} s.
Arguments ledger {L} s.

Definition on_rewards {L} (f : RewardStore -> RewardStore) (s : State L) : State L :=
  mkState (f (rewards s)) (reward_events s) (ledger s).
Definition on_ledger {L} (f : L -> L) (s : State L) : State L := mkState (rewards s) (reward_events s) (f (ledger s)).
Definition deposit_event {L} (e : RewardEvent) (s : State L) : State L :=
  mkState (rewards s) (reward_events s ++ [e]) (ledger s).

(** [RewardParts] *)
Record RewardParts := mkParts {
  rp_inflation : Balance;
  rp_transaction_fees : Balance;
  rp_treasury_rate : Perbill;
  rp_treasury_cut : Balance;
  rp_stakers_cut : Balance;
  rp_total : Balance;
}.

Section Rewards.
Context {L : Type} `{RewardsConfig} `{RewardCurrency L} `{PerbillOps} `{FixedU128Ops}.
Abbreviation St := (State L).
Implicit Types (s : St) (r : RewardStore).

Definition write (f : RewardStore -> RewardStore) : D St unit := modify (on_rewards f).

Definition RewardParts_new (inflation transaction_fees : Balance) (treasury_rate : Perbill) : RewardParts :=
  let total := saturating_add BALANCE_BITS transaction_fees inflation in
  let treasury_cut := perbill_mul treasury_rate transaction_fees in
  let stakers_cut := saturating_sub total treasury_cut in
  mkParts inflation transaction_fees treasury_rate treasury_cut stakers_cut total.

(** A deposit whose imbalance is dropped. *)
Definition deposit_and_drop (who : AccountId) (value : Balance) s : St :=
  on_ledger (fun l => let '(p, l') := rc_deposit_creating who value l in rc_drop_positive p l') s.

(** ** Calls *)
Definition set_inflation_rate (origin : Origin) (numerator denominator : Z) : D St unit :=
  do* ensure_root origin in
  if denominator =? 0 then fail (OtherError "denominator cannot be zero")
  else write (set_BaseInflationRate (fun _ => fixed_from_rational numerator denominator)).

Definition set_development_fund_take (origin : Origin) (new_take_percent : Z) : D St unit :=
  do* ensure_root origin in
  write (set_DevelopmentFundTake (fun _ => perbill_from_percent new_take_percent)).

Definition force_new_fiscal_era (origin : Origin) : D St unit :=
  do* ensure_root origin in
  write (set_ForceFiscalEra (fun _ => true)).

(** ** Reward points *)
Definition reward_one (p : EraRewardPoints) '(validator, points) : EraRewardPoints :=
  mkPoints (wrapping_add 32 (erp_total p) points)
    (<[validator := wrapping_add 32 (sget 0 validator (erp_individual p)) points]> (erp_individual p)).

Definition reward_by_ids (validators_points : list (AccountId * Z)) : D St unit :=
  write (set_CurrentEraRewardPoints (fun p => foldl reward_one p validators_points)).

Definition reward_notary (notary : AccountId) : D St unit := reward_by_ids [(notary, 8)].
Definition note_author (author : AccountId) : D St unit := reward_by_ids [(author, 20)].

(** The first account is the author of the current block, which
    [pallet_authorship] knows. *)
Definition note_uncle (block_author author : AccountId) : D St unit := reward_by_ids [(block_author, 2); (author, 1)].

(** ** Payees *)
Definition set_payee (stash payee : AccountId) : D St unit := write (set_Payee (insert stash payee)).
Definition remove_payee (stash : AccountId) : D St unit := write (set_Payee (delete stash)).

Definition payee (stash : AccountId) r : AccountId :=
  let p := sget default_account stash (Payee r) in
  if p =? default_account then stash else p.

(** ** Calculations *)
Definition FULL_ERA_DURATION : Z := 1000 * 3600 * 24.

Definition calculate_total_reward (era_duration_ms : Z) r : RewardParts :=
  let inflation := perbill_mul (perbill_from_rational era_duration_ms FULL_ERA_DURATION) (TargetInflationPerStakingEra r) in
  RewardParts_new inflation (TransactionFeePot r) (DevelopmentFundTake r).

(** What a validator with its nominators is entitled to. *)
Definition validator_payout (stakers_cut : Balance) (n : Z) (points : EraRewardPoints) (validator : AccountId) : Balance :=
  if erp_total points =? 0 then stakers_cut / wrap 32 n
  else perbill_mul (perbill_from_rational (sget 0 validator (erp_individual points)) (erp_total points)) stakers_cut.

Definition calculate_per_validator_payouts (stakers_cut : Balance) (validators : list AccountId) (points : EraRewardPoints)
    : list (AccountId * Balance) * Balance :=
  let payouts := (fun v => (v, validator_payout stakers_cut (Z.of_nat (length validators)) points v)) <$> validators in
  (payouts, foldl (fun remainder p => wrapping_sub BALANCE_BITS remainder (snd p)) stakers_cut payouts).

Definition calculate_npos_payouts (validator : AccountId) (validator_commission_rate : Perbill) (validator_stake : Exposure)
    (reward : Balance) r : list (AccountId * Balance) :=
  let validator_cut := Z.min (perbill_mul validator_commission_rate reward) reward in
  let nominators_cut := saturating_sub reward validator_cut in
  if nominators_cut =? 0 then [(validator, validator_cut)]
  else
    let aggregate_validator_stake := Z.max (ex_total validator_stake) 1 in
    let share value := perbill_mul (perbill_from_rational value aggregate_validator_stake) nominators_cut in
    ((fun n => (payee (ie_who n) r, share (ie_value n))) <$> ex_others validator_stake) ++
    [(payee validator r, wrapping_add BALANCE_BITS (share (ex_own validator_stake)) validator_cut)].

Definition calculate_payouts_filtered (validator_commission_stake_map : list (AccountId * Perbill * Exposure))
    (era_duration_ms : Z) (filter : AccountId -> Exposure -> bool) r : Balance * Balance * list (AccountId * Balance) :=
  let payout := calculate_total_reward era_duration_ms r in
  if rp_total payout =? 0 then (0, 0, [])
  else
    let n := Z.of_nat (length validator_commission_stake_map) in
    let payouts :=
      concat ((fun '(validator, validator_commission, stake_map) =>
        if filter validator stake_map then []
        else
          let total := validator_payout (rp_stakers_cut payout) n (CurrentEraRewardPoints r) validator in
          if total =? 0 then []
          else calculate_npos_payouts validator validator_commission stake_map total r) <$> validator_commission_stake_map) in
    (rp_stakers_cut payout, rp_treasury_cut payout, payouts).

Definition calculate_individual_reward (stash : AccountId) (era_duration_ms : Z)
    (validator_commission_stake_map : list (AccountId * Perbill * Exposure)) r : Balance :=
  let '(_, _, payouts) :=
    calculate_payouts_filtered validator_commission_stake_map era_duration_ms
      (fun validator exposure =>
         negb (stash =? validator) && negb (existsb (fun x => ie_who x =? stash) (ex_others exposure))) r in
  foldl (fun payee_cut '(account, payout) =>
           if account =? payee stash r then saturating_add BALANCE_BITS payee_cut payout else payee_cut) 0 payouts.

(** ** The end of an era *)
Definition note_transaction_fees (amount : Balance) : D St unit :=
  write (set_TransactionFeePot (fun acc => saturating_add BALANCE_BITS acc amount)).

Definition note_fee_payout (amount : Balance) : D St unit :=
  write (set_TransactionFeePotHistory (fun history => take (Z.to_nat HistoricalPayoutEras) (amount :: history))).

Definition new_fiscal_era : D St unit :=
  let* total_issuance := gets (fun s => rc_total_issuance (ledger s)) in
  let* rate := gets (fun s => BaseInflationRate (rewards s)) in
  let target_inflation := fixed_mul_int rate total_issuance in
  let target := default 0 (checked_div target_inflation FiscalEraLength) in
  do* write (set_TargetInflationPerStakingEra (fun _ => target)) in
  modify (deposit_event (NewFiscalEra target)).

Definition schedule_reward_payouts (validators : list AccountId) (total_staker_payout : Balance) (era : EraIndex) : D St Balance :=
  let* points := gets (fun s => CurrentEraRewardPoints (rewards s)) in
  let '(per_validator_payouts, remainder) := calculate_per_validator_payouts total_staker_payout validators points in
  do* for_each per_validator_payouts (fun '(stash, amount) => write (set_ScheduledPayoutAmounts (dinsert era stash amount))) in
  do* write (set_ScheduledPayoutErasAndCounts (fun v => v ++ [(era, wrap 32 (Z.of_nat (length validators)))])) in
  ret remainder.

Definition on_end_era (era_validator_stashes : list AccountId) (era_index : EraIndex) (era_duration_ms : Z) (_is_forced : bool)
    : D St unit :=
  let* next_reward := gets (fun s => calculate_total_reward era_duration_ms (rewards s)) in
  let* force := gets (fun s => ForceFiscalEra (rewards s)) in
  do* (if force then write (set_FiscalEraEpoch (fun _ => era_index)) else ret tt) in
  let* epoch := gets (fun s => FiscalEraEpoch (rewards s)) in
  if FiscalEraLength =? 0 then panic
  else
    do* (if saturating_sub era_index epoch mod FiscalEraLength =? 0 then new_fiscal_era else ret tt) in
    let* remainder := schedule_reward_payouts era_validator_stashes (rp_stakers_cut next_reward) era_index in
    do* modify (deposit_and_drop treasury_account (wrapping_add BALANCE_BITS (rp_treasury_cut next_reward) remainder)) in
    do* modify (deposit_event (EraPayout era_index (rp_treasury_cut next_reward) (rp_stakers_cut next_reward))) in
    do* note_fee_payout (rp_transaction_fees next_reward) in
    do* write (set_TransactionFeePot (fun _ => 0)) in
    do* write (set_CurrentEraRewardPoints (fun _ => EraRewardPoints_default)) in
    write (set_ForceFiscalEra (fun _ => false)).

(** ** Payouts *)

(** The loop of [process_reward_payout], collecting the imbalance. *)
Fixpoint pay_stakers (era : EraIndex) (payouts : list (AccountId * Balance)) (imbalance : PositiveImbalance) : D St PositiveImbalance :=
  match payouts with
  | [] => ret imbalance
  | (stash, amount) :: payouts =>
      let* p := state (fun s =>
        let '(p, l) := rc_deposit_creating (payee stash (rewards s)) amount (ledger s) in (p, on_ledger (fun _ => l) s)) in
      do* modify (deposit_event (EraStakerPayout era stash amount)) in
      pay_stakers era payouts (pi_merge imbalance p)
  end.

Definition process_reward_payout (validator_stash : AccountId) (validator_commission : Perbill) (exposures : Exposure)
    (total_payout : Balance) (era : EraIndex) : D St unit :=
  if total_payout =? 0 then ret tt
  else
    let* imbalance := state (fun s => let '(p, l) := rc_burn 0 (ledger s) in (p, on_ledger (fun _ => l) s)) in
    let* payouts := gets (fun s => calculate_npos_payouts validator_stash validator_commission exposures total_payout (rewards s)) in
    let* imbalance := pay_stakers era payouts imbalance in
    let remainder := saturating_sub total_payout (pi_amount imbalance) in
    do* modify (deposit_and_drop treasury_account remainder) in
    modify (on_ledger (rc_drop_positive imbalance)).

(** [WeightInfo for ()] *)
Definition process_reward_payouts_weight (p : Z) : Z :=
  saturating_add 64 (saturating_add 64 (saturating_add 64 (saturating_add 64 (saturating_add 64 0
    (saturating_mul 64 50921000 p)) (wrapping_mul 64 db_read 5)) (wrapping_mul 64 db_read (saturating_mul 64 1 p)))
    (wrapping_mul 64 db_write 4)) (wrapping_mul 64 db_write (saturating_mul 64 1 p)).

(** The runtime's [ScheduledPayoutRunner]; [view] is the clipped exposure and the
    commission the staking pallet keeps for the era. *)
Definition run_payout (view : EraIndex -> AccountId -> Exposure * Perbill) (validator_stash : AccountId) (amount : Balance)
    (payout_era : EraIndex) : D St Z :=
  let '(exposures, commission) := view payout_era validator_stash in
  do* process_reward_payout validator_stash commission exposures amount payout_era in
  ret (saturating_add 64 (wrapping_mul 64 db_read 2) (process_reward_payouts_weight (Z.of_nat (length (ex_others exposures))))).

Definition estimate_run_payout_weight (view : EraIndex -> AccountId -> Exposure * Perbill) (validator_stash : AccountId)
    (payout_era : EraIndex) : Z :=
  saturating_add 64 (process_reward_payouts_weight (Z.of_nat (length (ex_others (fst (view payout_era validator_stash))))))
    (wrapping_mul 64 db_read 2).

(** The loop of [on_idle]: the weight consumed, the payouts left and the stashes
    paid. *)
Fixpoint idle_payouts (view : EraIndex -> AccountId -> Exposure * Perbill) (payout_era : EraIndex) (remaining_weight : Z)
    (payouts : list (AccountId * Balance)) (consumed_weight payouts_left : Z) (completed : list AccountId)
    : D St (Z * Z * list AccountId) :=
  match payouts with
  | [] => ret (consumed_weight, payouts_left, completed)
  | (validator_stash, amount) :: payouts =>
      let consumed_weight := wrapping_add 64 consumed_weight (wrapping_add 64 db_read db_write) in
      let estimated_weight := estimate_run_payout_weight view validator_stash payout_era in
      match checked_sub remaining_weight (wrapping_add 64 consumed_weight estimated_weight) with
      | Some _ =>
          let* w := run_payout view validator_stash amount payout_era in
          idle_payouts view payout_era remaining_weight payouts (wrapping_add 64 consumed_weight w)
            (wrapping_sub 32 payouts_left 1) (completed ++ [validator_stash])
      | None => ret (consumed_weight, payouts_left, completed)
      end
  end.

Definition on_idle (view : EraIndex -> AccountId -> Exposure * Perbill) (remaining_weight : Z) : D St Z :=
  let consumed_weight := wrapping_add 64 db_read db_write in
  if remaining_weight <? consumed_weight then ret consumed_weight
  else
    let* scheduled := gets (fun s => ScheduledPayoutErasAndCounts (rewards s)) in
    match scheduled with
    | [] => ret consumed_weight
    | (payout_era, payouts_left) :: later =>
        let* amounts := gets (fun s => payout_order _ (dprefix payout_era (ScheduledPayoutAmounts (rewards s)))) in
        let* '(consumed_weight, payouts_left, completed) :=
          idle_payouts view payout_era remaining_weight amounts consumed_weight payouts_left [] in
        do* write (set_ScheduledPayoutErasAndCounts (fun _ =>
              if payouts_left =? 0 then later else (payout_era, payouts_left) :: later)) in
        do* for_each completed (fun stash => write (set_ScheduledPayoutAmounts (ddelete payout_era stash))) in
        ret consumed_weight
    end.

(** ** Migration from the first storage version; [old] are the payouts it
    scheduled, in storage order *)
Definition do_v0_to_v1 (payout_era : EraIndex) (old : list (AccountId * Balance)) : D St Z :=
  do* write (set_RewardsVersion (fun _ => 1)) in
  do* for_each old (fun '(stash, amount) => write (set_ScheduledPayoutAmounts (dinsert payout_era stash amount))) in
  let payout_count := Z.of_nat (length old) in
  let weight := wrapping_add 64 (wrapping_mul 64 db_write 2) (wrapping_mul 64 (wrapping_mul 64 db_write 2) payout_count) in
  if 0 <? payout_count then
    do* write (set_ScheduledPayoutErasAndCounts (fun _ => [(payout_era, payout_count)])) in
    ret (wrapping_add 64 weight db_write)
  else ret weight.

Definition on_runtime_upgrade (payout_era : EraIndex) (old : list (AccountId * Balance)) : D St Z :=
  let* version := gets (fun s => RewardsVersion (rewards s)) in
  if version =? 0 then do_v0_to_v1 payout_era old else ret 0.
End Rewards.
