(* ===== verification/StakingInv.v ===== *)
(** * Staking: the invariant of bonds and locks

    What every call of the pallet keeps: the two maps that pair stash and
    controller are inverse to each other, every ledger adds up, roles belong to
    bonded stashes, and the lock on a stash is the total of its ledger.  The
    runtime around the pallet enters through the laws [StakingEnvLaws]. *)

From S2P Require Import Prelude Support GenericAssetTypes StakingTypes SlashingSpans StakingState Staking.

(** ** What the pallet relies on *)

(** [stk_lock] is the amount of the staking lock of an account.  Only the lock
    operations change it; balances stay inside their type. *)
Class StakingEnvLaws (W : Type) `{StakingEnv W} := {
  stk_ok : W -> Prop;
  stk_lock : AccountId -> W -> option Balance;
  stk_free_range : forall w who, stk_ok w -> in_range BALANCE_BITS (stk_free_balance who w);
  stk_minimum_range : forall w, stk_ok w -> 0 <= stk_minimum_balance w;
  stk_set_lock_ok : forall w who v, stk_ok w -> 0 <= v -> stk_ok (stk_set_lock STAKING_ID who v WithdrawReasons.all w);
  stk_set_lock_lock : forall w who v who',
    stk_lock who' (stk_set_lock STAKING_ID who v WithdrawReasons.all w) = if who' =? who then Some v else stk_lock who' w;
  stk_remove_lock_ok : forall w who, stk_ok w -> stk_ok (stk_remove_lock STAKING_ID who w);
  stk_remove_lock_lock : forall w who who',
    stk_lock who' (stk_remove_lock STAKING_ID who w) = if who' =? who then None else stk_lock who' w;
  stk_slash_ok : forall w who v, stk_ok w -> 0 <= v -> stk_ok (stk_slash who v w).2;
  stk_slash_lock : forall w who v who', stk_lock who' (stk_slash who v w).2 = stk_lock who' w;
  stk_issue_ok : forall w v, stk_ok w -> stk_ok (stk_issue v w).2;
  stk_issue_lock : forall w v who', stk_lock who' (stk_issue v w).2 = stk_lock who' w;
  stk_resolve_ok : forall w who i, stk_ok w -> stk_ok (stk_resolve_creating who i w);
  stk_resolve_lock : forall w who i who', stk_lock who' (stk_resolve_creating who i w) = stk_lock who' w;
  stk_on_slash_ok : forall w i, stk_ok w -> stk_ok (stk_on_slash i w);
  stk_on_slash_lock : forall w i who', stk_lock who' (stk_on_slash i w) = stk_lock who' w;
  stk_set_payee_ok : forall w a b, stk_ok w -> stk_ok (stk_set_payee a b w);
  stk_set_payee_lock : forall w a b who', stk_lock who' (stk_set_payee a b w) = stk_lock who' w;
  stk_remove_payee_ok : forall w a, stk_ok w -> stk_ok (stk_remove_payee a w);
  stk_remove_payee_lock : forall w a who', stk_lock who' (stk_remove_payee a w) = stk_lock who' w;
  stk_on_end_era_ok : forall w vs e d f w', stk_on_end_era vs e d f w = Some w' -> stk_ok w -> stk_ok w';
  stk_on_end_era_lock : forall w vs e d f w' who', stk_on_end_era vs e d f w = Some w' -> stk_lock who' w' = stk_lock who' w;
  stk_disable_ok : forall w i, stk_ok w -> stk_ok (stk_disable_validator i w);
  stk_disable_lock : forall w i who', stk_lock who' (stk_disable_validator i w) = stk_lock who' w;
  stk_prune_ok : forall w i, stk_ok w -> stk_ok (stk_prune_historical_up_to i w);
  stk_prune_lock : forall w i who', stk_lock who' (stk_prune_historical_up_to i w) = stk_lock who' w;
}.

(** ** The books of all stashes *)
Definition nomination_ok (n : Nominations) : Prop :=
  targets n <> [] /\ NoDup (targets n) /\ (length (targets n) <= MAX_NOMINATIONS)%nat.

Record bonds_ok (b : BondStore) : Prop := {
  bo_paired : forall stash c, Bonded b !! stash = Some c <-> exists l, Ledger b !! c = Some l /\ sl_stash l = stash;
  bo_books : forall c l, Ledger b !! c = Some l -> ledger_ok l /\ (length (sl_unlocking l) <= MAX_UNLOCKING_CHUNKS)%nat;
  bo_validators : forall stash p, Validators b !! stash = Some p ->
    is_Some (Bonded b !! stash) /\ Nominators b !! stash = None /\ commission p <= PERBILL_ONE;
  bo_nominators : forall stash n, Nominators b !! stash = Some n -> is_Some (Bonded b !! stash) /\ nomination_ok n;
  bo_minimum : 0 < MinimumBond b;
}.

(** What the ledger of a stash says is staked. *)
Definition staked_total (b : BondStore) (stash : AccountId) : option Balance :=
  sl_total <$> (Bonded b !! stash ≫= fun c => Ledger b !! c).

Section Bonds.
Implicit Types b : BondStore.

Lemma ledger_stash_bonded b c l : bonds_ok b -> Ledger b !! c = Some l -> Bonded b !! sl_stash l = Some c.
Proof. intros Hb Hl. apply (bo_paired _ Hb). eauto. Qed.

Lemma bonded_ledger b stash c : bonds_ok b -> Bonded b !! stash = Some c ->
  exists l, Ledger b !! c = Some l /\ sl_stash l = stash.
Proof. intros Hb. apply (bo_paired _ Hb). Qed.

Lemma staked_total_ledger b c l : bonds_ok b -> Ledger b !! c = Some l -> staked_total b (sl_stash l) = Some (sl_total l).
Proof. intros Hb Hl. unfold staked_total. by rewrite (ledger_stash_bonded b c l Hb Hl); simpl; rewrite Hl. Qed.

(** A ledger is replaced by one of the same stash. *)
Lemma bonds_ok_update b c l l' : bonds_ok b -> Ledger b !! c = Some l -> sl_stash l' = sl_stash l -> ledger_ok l' ->
  (length (sl_unlocking l') <= MAX_UNLOCKING_CHUNKS)%nat -> bonds_ok (set_Ledger (insert c l') b).
Proof.
  intros Hb Hl Hs Hok Hlen. pose proof Hb as [H1 H2 H3 H4 H5]. split; simpl; try done.
  - intros stash c'. rewrite H1. destruct (decide (c' = c)) as [->|Hne].
    + rewrite lookup_insert_eq. split; intros (k & Hk & Hst); simplify_eq; eauto.
    + by rewrite lookup_insert_ne.
  - intros c' k. destruct (decide (c' = c)) as [->|Hne]; [rewrite lookup_insert_eq; by intros [= <-] | rewrite lookup_insert_ne by done; apply H2].
Qed.

Lemma staked_total_update b c l l' stash : bonds_ok b -> Ledger b !! c = Some l -> sl_stash l' = sl_stash l ->
  staked_total (set_Ledger (insert c l') b) stash =
    if stash =? sl_stash l then Some (sl_total l') else staked_total b stash.
Proof.
  intros Hb Hl Hs. unfold staked_total. simpl. destruct (Z.eqb_spec stash (sl_stash l)) as [->|Hne].
  - rewrite (ledger_stash_bonded b c l Hb Hl). simpl. by rewrite lookup_insert_eq.
  - destruct (Bonded b !! stash) as [c'|] eqn:Hc; [|done]. simpl. rewrite lookup_insert_ne; [done|].
    intros ->. destruct (bonded_ledger b stash c' Hb Hc) as (k & Hk & Hst). congruence.
Qed.

(** A new pair. *)
Lemma bonds_ok_new b stash c l : bonds_ok b -> Bonded b !! stash = None -> Ledger b !! c = None -> sl_stash l = stash ->
  ledger_ok l -> (length (sl_unlocking l) <= MAX_UNLOCKING_CHUNKS)%nat ->
  bonds_ok (set_Ledger (insert c l) (set_Bonded (insert stash c) b)).
Proof.
  intros Hb Hs Hc Hst Hok Hlen. destruct Hb as [H1 H2 H3 H4 H5]. split; simpl; try done.
  - intros stash' c'. destruct (decide (stash' = stash)) as [->|Hne], (decide (c' = c)) as [->|Hne'];
      rewrite ?lookup_insert_eq, ?(lookup_insert_ne _ _ c'), ?(lookup_insert_ne _ _ stash') by done.
    + split; [eauto | done].
    + split; [congruence|]. intros (k & Hk & Hk'). assert (Bonded b !! stash = Some c') by (apply H1; eauto). congruence.
    + rewrite H1. split; intros (k & Hk & Hk'); congruence.
    + apply H1.
  - intros c' k. destruct (decide (c' = c)) as [->|Hne]; [rewrite lookup_insert_eq; by intros [= <-] | rewrite lookup_insert_ne by done; apply H2].
  - intros s' p Hp. destruct (H3 s' p Hp) as (? & ? & ?). split_and!; [|done..].
    apply lookup_insert_is_Some'. by right.
  - intros s' n Hn. destruct (H4 s' n Hn). split; [|done]. apply lookup_insert_is_Some'. by right.
Qed.

Lemma staked_total_new b stash c l stash' : bonds_ok b -> Ledger b !! c = None ->
  staked_total (set_Ledger (insert c l) (set_Bonded (insert stash c) b)) stash' =
    if stash' =? stash then Some (sl_total l) else staked_total b stash'.
Proof.
  intros Hb Hc. unfold staked_total. simpl. destruct (Z.eqb_spec stash' stash) as [->|Hne].
  - rewrite lookup_insert_eq. simpl. by rewrite lookup_insert_eq.
  - rewrite lookup_insert_ne by done. destruct (Bonded b !! stash') as [c'|] eqn:Hc'; [|done]. simpl.
    rewrite lookup_insert_ne; [done|]. intros ->. destruct (bonded_ledger b stash' c' Hb Hc') as (k & Hk & _). congruence.
Qed.

(** A pair is removed with everything that belongs to the stash. *)
Lemma bonds_ok_kill b stash c : bonds_ok b -> Bonded b !! stash = Some c ->
  bonds_ok (set_Nominators (delete stash) (set_Validators (delete stash) (set_Ledger (delete c) (set_Bonded (delete stash) b)))).
Proof.
  intros Hb Hs. destruct (bonded_ledger b stash c Hb Hs) as (l & Hl & Hst). destruct Hb as [H1 H2 H3 H4 H5].
  split; simpl; try done.
  - intros stash' c'. destruct (decide (stash' = stash)) as [->|Hne].
    + rewrite lookup_delete_eq. split; [done|]. intros (k & [Hne Hk]%lookup_delete_Some & Hk').
      assert (Bonded b !! stash = Some c') by (apply H1; eauto). congruence.
    + rewrite lookup_delete_ne by done. rewrite H1. split; intros (k & Hk & Hk').
      * exists k. rewrite lookup_delete_ne; [done|]. intros ->. congruence.
      * apply lookup_delete_Some in Hk as [_ Hk]. eauto.
  - intros c' k [_ Hk]%lookup_delete_Some. by eapply H2.
  - intros s' p [Hne Hp]%lookup_delete_Some. destruct (H3 s' p Hp) as (? & ? & ?). rewrite !lookup_delete_ne by done. done.
  - intros s' n [Hne Hn]%lookup_delete_Some. destruct (H4 s' n Hn). rewrite !lookup_delete_ne by done. done.
Qed.

Lemma staked_total_kill b stash c stash' : bonds_ok b -> Bonded b !! stash = Some c ->
  staked_total (set_Nominators (delete stash) (set_Validators (delete stash) (set_Ledger (delete c) (set_Bonded (delete stash) b)))) stash' =
    if stash' =? stash then None else staked_total b stash'.
Proof.
  intros Hb Hs. unfold staked_total. simpl. destruct (Z.eqb_spec stash' stash) as [->|Hne]; [by rewrite lookup_delete_eq|].
  rewrite lookup_delete_ne by done. destruct (Bonded b !! stash') as [c'|] eqn:Hc'; [|done]. simpl.
  rewrite lookup_delete_ne; [done|]. intros <-. destruct (bonded_ledger b stash' c Hb Hc') as (k & Hk & Hk').
  destruct (bonded_ledger b stash c Hb Hs) as (k2 & Hk2 & Hk2'). congruence.
Qed.

(** The controller of a stash changes. *)
Lemma bonds_ok_move b stash old c l : bonds_ok b -> Bonded b !! stash = Some old -> Ledger b !! old = Some l ->
  Ledger b !! c = None ->
  bonds_ok (set_Ledger (fun m => <[c := l]> (delete old m)) (set_Bonded (insert stash c) b)).
Proof.
  intros Hb Hs Hl Hc. destruct (bonded_ledger b stash old Hb Hs) as (l' & Hl' & Hst). simplify_eq.
  destruct Hb as [H1 H2 H3 H4 H5]. split; simpl; try done.
  - intros stash' c'. destruct (decide (stash' = sl_stash l)) as [->|Hne], (decide (c' = c)) as [->|Hne'];
      rewrite ?lookup_insert_eq, ?(lookup_insert_ne _ _ c'), ?(lookup_insert_ne _ _ stash') by done.
    + split; [eauto | done].
    + split; [congruence|]. intros (k & [Hk1 Hk]%lookup_delete_Some & Hk').
      assert (Bonded b !! sl_stash l = Some c') by (apply H1; eauto). congruence.
    + rewrite H1. split; intros (k & Hk & Hk'); congruence.
    + rewrite H1. split; intros (k & Hk & Hk').
      * exists k. rewrite lookup_delete_ne; [done|]. intros ->. congruence.
      * apply lookup_delete_Some in Hk as [_ Hk]. eauto.
  - intros c' k. destruct (decide (c' = c)) as [->|Hne]; [rewrite lookup_insert_eq; intros [= <-]; by eapply H2|].
    rewrite lookup_insert_ne by done. intros [_ Hk]%lookup_delete_Some. by eapply H2.
  - intros s' p Hp. destruct (H3 s' p Hp) as (? & ? & ?). split_and!; [|done..]. apply lookup_insert_is_Some'. by right.
  - intros s' n Hn. destruct (H4 s' n Hn). split; [|done]. apply lookup_insert_is_Some'. by right.
Qed.

Lemma staked_total_move b stash old c l stash' : bonds_ok b -> Bonded b !! stash = Some old -> Ledger b !! old = Some l ->
  Ledger b !! c = None ->
  staked_total (set_Ledger (fun m => <[c := l]> (delete old m)) (set_Bonded (insert stash c) b)) stash' = staked_total b stash'.
Proof.
  intros Hb Hs Hl Hc. unfold staked_total. simpl. destruct (decide (stash' = stash)) as [->|Hne].
  { rewrite lookup_insert_eq, Hs. simpl. by rewrite lookup_insert_eq, Hl. }
  rewrite lookup_insert_ne by done. destruct (Bonded b !! stash') as [c'|] eqn:Hc'; [|done]. simpl.
  destruct (bonded_ledger b stash' c' Hb Hc') as (k & Hk & Hk'). destruct (bonded_ledger b stash old Hb Hs) as (k2 & Hk2 & Hk2').
  rewrite lookup_insert_ne, lookup_delete_ne by congruence. done.
Qed.

(** Roles. *)
Lemma bonds_ok_chill b stash : bonds_ok b -> bonds_ok (set_Nominators (delete stash) (set_Validators (delete stash) b)).
Proof.
  intros [H1 H2 H3 H4 H5]. split; simpl; try done.
  - intros s' p [Hne Hp]%lookup_delete_Some. destruct (H3 s' p Hp) as (? & ? & ?). by rewrite lookup_delete_ne.
  - intros s' n [Hne Hn]%lookup_delete_Some. by apply H4.
Qed.

Lemma bonds_ok_validate b stash p : bonds_ok b -> is_Some (Bonded b !! stash) -> commission p <= PERBILL_ONE ->
  bonds_ok (set_Validators (insert stash p) (set_Nominators (delete stash) b)).
Proof.
  intros [H1 H2 H3 H4 H5] Hs Hp. split; simpl; try done.
  - intros s' p'. destruct (decide (s' = stash)) as [->|Hne].
    + rewrite lookup_insert_eq, lookup_delete_eq. by intros [= <-].
    + rewrite lookup_insert_ne, lookup_delete_ne by done. apply H3.
  - intros s' n [Hne Hn]%lookup_delete_Some. by apply H4.
Qed.

Lemma bonds_ok_nominate b stash n : bonds_ok b -> is_Some (Bonded b !! stash) -> nomination_ok n ->
  bonds_ok (set_Nominators (insert stash n) (set_Validators (delete stash) b)).
Proof.
  intros [H1 H2 H3 H4 H5] Hs Hp. split; simpl; try done.
  - intros s' p' [Hne Hp']%lookup_delete_Some. rewrite lookup_insert_ne by done. by apply H3.
  - intros s' n'. destruct (decide (s' = stash)) as [->|Hne].
    + rewrite lookup_insert_eq. by intros [= <-].
    + rewrite lookup_insert_ne by done. apply H4.
Qed.

Lemma bonds_ok_minimum b v : bonds_ok b -> 0 < v -> bonds_ok (set_MinimumBond (fun _ => v) b).
Proof. by intros [H1 H2 H3 H4 H5]. Qed.
End Bonds.

(** ** The invariant of the pallet *)
Definition active_of (e : EraStore) : EraIndex := default 0 (ae_index <$> ActiveEra e).

Definition slash_ok (u : UnappliedSlash) : Prop :=
  in_range BALANCE_BITS (us_own u) /\ Forall (fun p => in_range BALANCE_BITS (snd p)) (us_others u).

Section Invariant.
Context {W : Type} {config : StakingConfig} {env : StakingEnv W} {laws : StakingEnvLaws W}.
Implicit Types s : State W.

(** The spans of a stash are recent, so there are few of them. *)
Record stash_spans_ok (active : EraIndex) (sp : SlashingSpans) : Prop := {
  ss_ok : spans_ok sp;
  ss_recent : span_index sp <= last_start sp <= active + 1;
  ss_few : Z.of_nat (length (prior sp)) <= BondingDuration + 1;
}.

Record staking_ok s : Prop := {
  sk_bonds : bonds_ok (bonds s);
  sk_world : stk_ok (world s);
  sk_locks : forall stash, stk_lock stash (world s) = staked_total (bonds s) stash;
  sk_spans : forall stash sp, StashSpans (slashes s) !! stash = Some sp -> stash_spans_ok (active_of (eras s)) sp;
  sk_unapplied : forall era us, UnappliedSlashes (slashes s) !! era = Some us -> Forall slash_ok us;
  sk_active : 0 <= active_of (eras s) < umax ERA_BITS;
}.

(** *** Writes that leave the invariant alone *)
Lemma staking_ok_frame s s' : staking_ok s -> bonds s' = bonds s -> (stk_ok (world s) -> stk_ok (world s')) ->
  (forall stash, stk_lock stash (world s') = stk_lock stash (world s)) -> StashSpans (slashes s') = StashSpans (slashes s) ->
  UnappliedSlashes (slashes s') = UnappliedSlashes (slashes s) -> active_of (eras s') = active_of (eras s) -> staking_ok s'.
Proof.
  intros [H1 H2 H3 H4 H5 H6] Hb Hw Hl Hs Hu Ha. split; rewrite ?Hb, ?Hs, ?Hu, ?Ha; auto. intros stash. by rewrite Hl.
Qed.

Lemma write_eras_ok f : (forall e, active_of (f e) = active_of e) -> preserves staking_ok (write_eras (W := W) f).
Proof. intros Hf s Hs. by apply (staking_ok_frame s); simpl. Qed.

Lemma write_world_ok f : (forall w, stk_ok w -> stk_ok (f w)) -> (forall w who, stk_lock who (f w) = stk_lock who w) ->
  preserves staking_ok (write_world (W := W) f).
Proof. intros H1 H2 s Hs. apply (staking_ok_frame s); simpl; auto. Qed.

Lemma write_slashes_ok f : (forall x, StashSpans (f x) = StashSpans x) -> (forall x, UnappliedSlashes (f x) = UnappliedSlashes x) ->
  preserves staking_ok (write_slashes (W := W) f).
Proof. intros H1 H2 s Hs. apply (staking_ok_frame s); simpl; auto. Qed.

Lemma emit_ok e : preserves staking_ok (emit (W := W) e).
Proof. intros s Hs. by apply (staking_ok_frame s). Qed.

Lemma on_election_ok f : preserves staking_ok (modify (E := DispatchError) (on_election (W := W) f)).
Proof. intros s Hs. by apply (staking_ok_frame s). Qed.

(** *** Writes of the bonds *)
Lemma staking_ok_bonds s s' : staking_ok s -> eras s' = eras s -> slashes s' = slashes s -> bonds_ok (bonds s') ->
  stk_ok (world s') -> (forall stash, stk_lock stash (world s') = staked_total (bonds s') stash) -> staking_ok s'.
Proof. intros [H1 H2 H3 H4 H5 H6] He Hsl Hb Hw Hl. split; rewrite ?He, ?Hsl; done. Qed.

Lemma staking_ok_roles s b : staking_ok s -> bonds_ok b -> Bonded b = Bonded (bonds s) -> Ledger b = Ledger (bonds s) ->
  staking_ok (on_bonds (fun _ => b) s).
Proof.
  intros Hs Hb H1 H2. apply (staking_ok_bonds s); [done | done | done | done | apply Hs |]. intros stash. simpl. rewrite (sk_locks _ Hs).
  unfold staked_total. by rewrite H1, H2.
Qed.

Lemma ledger_total_nonneg l : ledger_ok l -> 0 <= sl_total l.
Proof. intros [Ha Hc Ht _]. pose proof (chunk_sum_nonneg _ Hc). lia. Qed.

Lemma update_ledger_ok s c l l' : staking_ok s -> Ledger (bonds s) !! c = Some l -> sl_stash l' = sl_stash l ->
  ledger_ok l' -> (length (sl_unlocking l') <= MAX_UNLOCKING_CHUNKS)%nat -> staking_ok (update_ledger c l' s).2.
Proof.
  intros Hs Hl Hst Hok Hlen.
  apply (staking_ok_bonds s); [done | done | done | simpl..].
  - by apply (bonds_ok_update _ c l); [apply Hs|..].
  - apply stk_set_lock_ok; [apply Hs | by apply ledger_total_nonneg].
  - intros stash. rewrite stk_set_lock_lock, (staked_total_update _ c l) by (done || apply Hs).
    by rewrite Hst, (sk_locks _ Hs).
Qed.

Lemma chill_stash_ok stash : preserves staking_ok (chill_stash (W := W) stash).
Proof.
  intros s Hs. change (staking_ok (on_bonds (fun _ => set_Nominators (delete stash) (set_Validators (delete stash) (bonds s))) s)).
  apply staking_ok_roles; [done | by apply bonds_ok_chill, Hs | done | done].
Qed.
End Invariant.

Create HintDb staking.
#[export] Hint Resolve write_eras_ok write_world_ok write_slashes_ok emit_ok on_election_ok chill_stash_ok : staking.
#[export] Hint Resolve stk_remove_lock_ok stk_slash_ok stk_issue_ok stk_resolve_ok stk_on_slash_ok stk_set_payee_ok
  stk_remove_payee_ok stk_disable_ok stk_prune_ok stk_slash_lock stk_issue_lock stk_resolve_lock stk_on_slash_lock
  stk_set_payee_lock stk_remove_payee_lock stk_disable_lock stk_prune_lock : staking.

(** Opens the reads and checks at the head of a call. *)
Ltac open_call := unfold ledger_of, emit, bind, ensure_signed, ok_or, ensure, gets, modify, ret, fail; cbv beta iota.

(** Splits a call into its reads, writes and branches. *)
Ltac keeps_invariant :=
  repeat first
    [ apply preserves_reader; solve [eauto 20 with dispatch]
    | solve [auto with staking]
    | apply preserves_bind; [|intros]
    | apply preserves_if
    | apply preserves_for_each; intros
    | case_match ].
