(* ===== verification/StakingOps.v ===== *)
(** * Staking: every call keeps the invariant

    The extrinsics of the pallet, one after the other, keep [staking_ok], and
    what removing a stash does. *)

From S2P Require Import Prelude Support GenericAssetTypes StakingTypes SlashingSpans StakingState Staking StakingInv.

Section Calls.
Context {W : Type} {config : StakingConfig} {env : StakingEnv W} {laws : StakingEnvLaws W}.
Hypothesis Hbonding : 0 <= BondingDuration <= 998.
Implicit Types s : State W.

Abbreviation keeps := (preserves (E := DispatchError) (S := State W) staking_ok).

(** ** Removing a stash *)
Lemma length_spans_iter sp : length (spans_iter sp) = S (length (prior sp)).
Proof.
  unfold spans_iter. simpl. f_equal. generalize (last_start sp) (span_index sp).
  induction (prior sp) as [|x l IH]; intros a i; [done|]. simpl. by rewrite IH.
Qed.

(** The span records of the stash go with its spans. *)
Definition without_spans (stash : AccountId) (sl : SlashStore) : SlashStore :=
  match StashSpans sl !! stash with
  | None => sl
  | Some sp =>
      foldl (fun sl span => set_SpanSlash (delete (stash, span_idx span)) sl) (set_StashSpans (delete stash) sl) (spans_iter sp)
  end.

Lemma without_spans_maps stash sl :
  StashSpans (without_spans stash sl) = delete stash (StashSpans sl) /\
  UnappliedSlashes (without_spans stash sl) = UnappliedSlashes sl.
Proof.
  unfold without_spans. destruct (StashSpans sl !! stash) as [sp|] eqn:E; [|by rewrite delete_id].
  assert (Hf : forall l x, StashSpans (foldl (fun sl span => set_SpanSlash (delete (stash, span_idx span)) sl) x l) = StashSpans x /\
    UnappliedSlashes (foldl (fun sl span => set_SpanSlash (delete (stash, span_idx span)) sl) x l) = UnappliedSlashes x).
  { induction l as [|y l IH]; intros x; [done|]. simpl. by destruct (IH (set_SpanSlash (delete (stash, span_idx y)) x)) as [-> ->]. }
  by destruct (Hf (spans_iter sp) (set_StashSpans (delete stash) sl)) as [-> ->].
Qed.

Lemma on_slashes_fold {A} (g : A -> SlashStore -> SlashStore) (l : list A) s :
  foldl (fun s x => on_slashes (g x) s) s l = on_slashes (fun sl => foldl (fun sl x => g x sl) sl l) s.
Proof. revert s. induction l as [|x l IH]; intros s; [by destruct s|]. simpl. rewrite IH. done. Qed.

Definition few_spans s : Prop :=
  forall stash sp, StashSpans (slashes s) !! stash = Some sp -> Z.of_nat (length (prior sp)) <= BondingDuration + 1.

Lemma staking_ok_few s : staking_ok s -> few_spans s.
Proof. intros Hs stash sp Hsp. by destruct (sk_spans _ Hs stash sp Hsp). Qed.

Lemma clear_stash_metadata_eq stash s : few_spans s ->
  clear_stash_metadata stash 1000 s = (Ok tt, on_slashes (without_spans stash) s).
Proof.
  intros Hf. unfold clear_stash_metadata, without_spans, bind at 1, gets. cbv beta iota.
  destruct (StashSpans (slashes s) !! stash) as [sp|] eqn:E; [|unfold on_slashes; rewrite E; by destruct s].
  specialize (Hf stash sp E). rewrite length_spans_iter.
  rewrite (proj2 (Z.leb_le _ 1000)) by lia. unfold bind, ensure, ret, write_slashes at 1, modify at 1.
  unfold write_slashes. rewrite (for_each_modify (fun span => on_slashes (set_SpanSlash (delete (stash, span_idx span))))).
  rewrite on_slashes_fold. unfold on_slashes. simpl. by rewrite E.
Qed.

(** The bonds without a stash. *)
Definition killed (stash c : AccountId) (b : BondStore) : BondStore :=
  set_Nominators (delete stash) (set_Validators (delete stash) (set_Ledger (delete c) (set_Bonded (delete stash) b))).

Lemma kill_stash_eq stash s : few_spans s ->
  kill_stash stash s =
    match Bonded (bonds s) !! stash with
    | None => (Err (Staking StakingError.NotStash), s)
    | Some c =>
        (Ok tt, mkState (killed stash c (bonds s)) (eras s) (without_spans stash (slashes s)) (election s) (staking_events s)
                  (stk_remove_payee stash (world s)))
    end.
Proof.
  intros Hf. unfold kill_stash, bind at 1, gets. destruct (Bonded (bonds s) !! stash) as [c|]; [|done].
  unfold bind at 1, ok_or, ret. unfold bind at 1. by rewrite clear_stash_metadata_eq.
Qed.

(** A removed stash leaves the invariant when its lock goes too. *)
Lemma killed_ok s stash c w ev : staking_ok s -> Bonded (bonds s) !! stash = Some c -> stk_ok w ->
  (forall who, stk_lock who w = if who =? stash then None else stk_lock who (world s)) ->
  staking_ok (mkState (killed stash c (bonds s)) (eras s) (without_spans stash (slashes s)) (election s) ev w).
Proof.
  intros [H1 H2 H3 H4 H5 H6] Hc Hw Hl. destruct (without_spans_maps stash (slashes s)) as [Hsp Hun].
  split; simpl; rewrite ?Hsp, ?Hun; try done.
  - by apply bonds_ok_kill.
  - intros who. rewrite Hl. unfold killed. rewrite staked_total_kill by done. by rewrite H3.
  - intros who sp [_ Hs]%lookup_delete_Some. by eapply H4.
Qed.

Lemma force_unstake_keeps origin stash : keeps (force_unstake origin stash).
Proof.
  intros s Hs. unfold force_unstake, bind at 1. destruct origin; [simpl | done..]. unfold bind. rewrite kill_stash_eq by by apply staking_ok_few.
  destruct (Bonded (bonds s) !! stash) as [c|] eqn:Hc; [|done]. unfold write_world, modify, on_world. simpl. apply killed_ok; [done | done | |].
  - apply stk_remove_lock_ok, stk_remove_payee_ok, Hs.
  - intros who. by rewrite stk_remove_lock_lock, stk_remove_payee_lock.
Qed.

Lemma reap_stash_keeps origin stash : keeps (reap_stash origin stash).
Proof.
  intros s Hs. unfold reap_stash, bind at 1, gets. unfold bind at 1, ensure. destruct (_ <=? _); [simpl | done].
  unfold bind. rewrite kill_stash_eq by by apply staking_ok_few.
  destruct (Bonded (bonds s) !! stash) as [c|] eqn:Hc; [|done]. unfold write_world, modify, on_world. simpl. apply killed_ok; [done | done | |].
  - apply stk_remove_lock_ok, stk_remove_payee_ok, Hs.
  - intros who. by rewrite stk_remove_lock_lock, stk_remove_payee_lock.
Qed.

(** ** Bonding *)
Lemma new_ledger_ok stash v : 0 <= v <= MAX_BALANCE -> ledger_ok (mkLedger stash v v []).
Proof. intros Hv. split; simpl; try lia. constructor. Qed.

Lemma bond_keeps origin c v p : 0 <= v -> keeps (bond origin c v p).
Proof.
  intros Hv s Hs. unfold bond. destruct origin as [|stash|]; [done | | done].
  unfold bind, ensure_signed, ret, gets, ensure. case_bool_decide as Hb; [done|]. case_bool_decide as Hl; [done|]. simpl.
  destruct (negb _); [simpl | done]. apply eq_None_not_Some in Hb, Hl.
  set (w := stk_set_payee _ _ (world s)). set (v' := Z.min v _).
  assert (Hw : stk_ok w) by apply stk_set_payee_ok, Hs.
  assert (Hv' : 0 <= v' <= MAX_BALANCE) by (destruct (stk_free_range w stash Hw); unfold v', MAX_BALANCE; lia).
  apply (staking_ok_bonds s); [done | done | done | simpl..].
  - apply (bonds_ok_new (bonds s) stash c (mkLedger stash v' v' [])); [by apply Hs | done | done | done | by apply new_ledger_ok | unfold MAX_UNLOCKING_CHUNKS; simpl; lia].
  - apply stk_set_lock_ok; [done | lia].
  - intros who. rewrite stk_set_lock_lock, (staked_total_new (bonds s) stash c (mkLedger stash v' v' [])) by (done || apply Hs).
    unfold w. by rewrite stk_set_payee_lock, (sk_locks _ Hs).
Qed.

(** A call that reads the ledger of its controller and then writes. *)
Lemma ledger_call_keeps {A} origin (k : AccountId -> StakingLedger -> D (State W) A) :
  (forall c l s, staking_ok s -> Ledger (bonds s) !! c = Some l -> staking_ok (k c l s).2) ->
  keeps (let* c := ensure_signed origin in let* l := ledger_of c in k c l).
Proof.
  intros Hk s Hs. destruct origin as [|c|]; [done | | done]. unfold bind, ensure_signed, ret, ledger_of, gets, ok_or.
  unfold bind. destruct (Ledger (bonds s) !! c) as [l|] eqn:Hl; [by apply Hk | done].
Qed.

Lemma closed_keeps {A} (m : D (State W) A) : keeps m -> keeps (do* ensure_election_closed in m).
Proof. intros Hm. apply preserves_bind; [|done]. apply preserves_reader. unfold ensure_election_closed. eauto with dispatch. Qed.

Lemma bond_extra_keeps origin v : 0 <= v -> keeps (bond_extra origin v).
Proof.
  intros Hv. apply closed_keeps. intros s Hs. destruct origin as [|stash|]; [done | | done].
  open_call. destruct (Bonded (bonds s) !! stash) as [c|] eqn:Hc; [|done].
  destruct (bonded_ledger _ _ _ (sk_bonds _ Hs) Hc) as (l & Hl & Hst). cbv beta iota. rewrite Hl.
  destruct (checked_sub _ _) as [extra|] eqn:He; [|done]. destruct (_ <=? _); [|done]. cbv beta iota.
  bool_to_prop. destruct (bo_books _ (sk_bonds _ Hs) _ _ Hl) as [Hok Hlen]. pose proof Hok as [Ha Hch Ht Hm].
  pose proof (chunk_sum_nonneg _ Hch). destruct (stk_free_range _ (sl_stash l) (sk_world _ Hs)) as [_ Hfree].
  unfold wrapping_add, MAX_BALANCE in *. rewrite !wrap_small by (unfold in_range; lia).
  apply (update_ledger_ok (deposit_event _ s) c l); try done; [by apply (emit_ok _ s)|]. split; simpl; try done; unfold MAX_BALANCE; lia.
Qed.

Lemma unbond_keeps origin v : 0 <= v -> keeps (unbond origin v).
Proof.
  intros Hv. apply closed_keeps, ledger_call_keeps. intros c l s Hs Hl. unfold bind, ensure.
  destruct (Nat.ltb_spec (length (sl_unlocking l)) MAX_UNLOCKING_CHUNKS) as [Hlt|]; [simpl | done].
  destruct (_ || _) eqn:Hz; [done|]. bool_to_prop. unfold gets.
  destruct (bo_books _ (sk_bonds _ Hs) _ _ Hl) as [Hok Hlen]. pose proof Hok as [Ha Hch Ht Hm].
  pose proof (bo_minimum _ (sk_bonds _ Hs)) as Hmin.
  assert (Hlen' : forall x, (length (sl_unlocking l ++ [x]) <= MAX_UNLOCKING_CHUNKS)%nat) by (intros x; rewrite length_app; simpl; lia).
  assert (Hok' : forall rest v era, 0 <= rest -> 0 <= v -> rest + v = sl_active l ->
    ledger_ok (mkLedger (sl_stash l) (sl_total l) rest (sl_unlocking l ++ [mkChunk v era]))).
  { intros rest x era Hr Hx Hrx. split; simpl; [done | | | done].
    - apply Forall_app. split; [done|]. by repeat constructor.
    - rewrite chunk_sum_app. simpl. lia. }
  destruct (_ <? MinimumBond (bonds s)) eqn:Hrem; bool_to_prop.
  - set (s1 := (chill_stash (sl_stash l) (deposit_event (Unbonded (sl_stash l) (sl_active l)) s)).2).
    apply (update_ledger_ok s1 c l); [by apply chill_stash_ok, (emit_ok _ s) | done | done | apply Hok'; lia | apply Hlen'].
  - apply (update_ledger_ok (deposit_event (Unbonded (sl_stash l) v) s) c l); [by apply (emit_ok _ s) | done | done | | apply Hlen'].
    destruct (checked_sub (sl_active l) v) eqn:Hc; simpl in *; bool_to_prop; [apply Hok'; lia | lia].
Qed.

Lemma length_filter_le {A} (f : A -> bool) l : (length (List.filter f l) <= length l)%nat.
Proof. induction l as [|x l IH]; simpl; [done|]. destruct (f x); simpl; lia. Qed.

Lemma withdraw_unbonded_keeps origin : keeps (withdraw_unbonded origin).
Proof.
  apply closed_keeps, ledger_call_keeps. intros c l s Hs Hl. unfold bind, gets.
  set (l' := match CurrentEra (eras s) with Some era => consolidate_unlocked era l | None => l end).
  destruct (bo_books _ (sk_bonds _ Hs) _ _ Hl) as [Hok Hlen].
  assert (Hl' : ledger_ok l' /\ sl_stash l' = sl_stash l /\ (length (sl_unlocking l') <= MAX_UNLOCKING_CHUNKS)%nat).
  { unfold l'. destruct (CurrentEra (eras s)) as [era|]; [|done]. split; [by apply consolidate_unlocked_ok|].
    rewrite consolidate_unlocked_spec by done. simpl. split; [done|]. etransitivity; [apply length_filter_le | done]. }
  destruct Hl' as (Hok' & Hst & Hlen'). destruct (_ && _); simpl.
  - rewrite kill_stash_eq by (intros stash sp; apply (staking_ok_few s Hs)). simpl.
    rewrite Hst, (ledger_stash_bonded _ _ _ (sk_bonds _ Hs) Hl).
    assert (Hk : forall ev, staking_ok (mkState (killed (sl_stash l) c (bonds s)) (eras s) (without_spans (sl_stash l) (slashes s))
      (election s) ev (stk_remove_payee (sl_stash l) (stk_remove_lock STAKING_ID (sl_stash l) (world s))))).
    { intros ev. apply killed_ok; [done | apply ledger_stash_bonded; [apply Hs | done] | by apply stk_remove_payee_ok, stk_remove_lock_ok, Hs|].
      intros who. by rewrite stk_remove_payee_lock, stk_remove_lock_lock. }
    destruct (_ <? _); apply Hk.
  - pose proof (update_ledger_ok s c l l' Hs Hl Hst Hok' Hlen') as Hu. simpl in Hu. destruct (_ <? _); [|done].
    by apply (emit_ok _ _ Hu).
Qed.

Lemma rebond_keeps origin v : 0 <= v <= MAX_BALANCE -> keeps (rebond origin v).
Proof.
  intros Hv. apply closed_keeps, ledger_call_keeps. intros c l s Hs Hl. unfold bind, gets, ensure.
  destruct (negb _); [simpl | done]. destruct (_ <=? _); [simpl | done].
  destruct (bo_books _ (sk_bonds _ Hs) _ _ Hl) as [Hok Hlen].
  destruct (ledger_rebond_spec v l Hok Hv) as (Hok' & _ & Hst & _ & Hlen').
  apply (update_ledger_ok s c l); try done. lia.
Qed.

(** ** Roles *)
Lemma bonded_of_ledger s c l : staking_ok s -> Ledger (bonds s) !! c = Some l -> is_Some (Bonded (bonds s) !! sl_stash l).
Proof. intros Hs Hl. exists c. apply ledger_stash_bonded; [apply Hs | done]. Qed.

Lemma validate_keeps origin p : keeps (validate origin p).
Proof.
  apply closed_keeps, ledger_call_keeps. intros c l s Hs Hl. open_call. destruct (_ <=? _); [|done].
  set (p' := mkPrefs _).
  apply (staking_ok_roles s (set_Validators (insert (sl_stash l) p') (set_Nominators (delete (sl_stash l)) (bonds s)))); [done | | done | done].
  apply bonds_ok_validate; [apply Hs | by eapply bonded_of_ledger | simpl; lia].
Qed.

(** The set of a list is as large as the list only without repetitions. *)
Lemma size_list_to_set_NoDup (l : list Z) : size (list_to_set l : gset Z) = length l -> NoDup l.
Proof.
  induction l as [|x l IH]; [constructor|]. simpl. intros Hs.
  assert (Hle : (size (list_to_set l : gset Z) <= length l)%nat).
  { clear. induction l as [|y l IH]; [done|]. simpl. pose proof (size_union_alt {[y]} (list_to_set l : gset Z)).
    assert (size (list_to_set l ∖ {[y]} : gset Z) <= size (list_to_set l : gset Z))%nat by (apply subseteq_size; set_solver).
    rewrite size_singleton in *. lia. }
  destruct (decide (x ∈ (list_to_set l : gset Z))) as [Hin|Hnin].
  - rewrite subseteq_union_1_L in Hs by set_solver. lia.
  - rewrite size_union, size_singleton in Hs by set_solver. constructor; [set_solver | apply IH; lia].
Qed.

Lemma NoDup_take {A} n (l : list A) : NoDup l -> NoDup (take n l).
Proof. intros Hl. rewrite <- (take_drop n l) in Hl. by apply NoDup_app in Hl as [? _]. Qed.

Lemma nominate_keeps origin ts : keeps (nominate origin ts).
Proof.
  apply closed_keeps, ledger_call_keeps. intros c l s Hs Hl. open_call. destruct (_ <=? _); [|done]. cbv beta iota.
  case_bool_decide as Hne; [done|]. simpl. case_bool_decide as Hd; [|done]. simpl. set (n := mkNominations _ _).
  apply (staking_ok_roles s (set_Nominators (insert (sl_stash l) n) (set_Validators (delete (sl_stash l)) (bonds s)))); [done | | done | done].
  apply bonds_ok_nominate; [apply Hs | by eapply bonded_of_ledger |]. unfold n, nomination_ok. cbn [targets]. split_and!.
  - by destruct ts.
  - by apply NoDup_take, size_list_to_set_NoDup.
  - rewrite length_take. lia.
Qed.

Lemma chill_keeps origin : keeps (chill origin).
Proof. apply closed_keeps, ledger_call_keeps. intros c l s Hs _. by apply chill_stash_ok. Qed.

Lemma set_payee_keeps origin p : keeps (set_payee origin p).
Proof. apply ledger_call_keeps. intros c l s Hs _. apply write_world_ok; auto with staking. Qed.

Lemma set_controller_keeps origin c : keeps (set_controller origin c).
Proof.
  intros s Hs. destruct origin as [|stash|]; [done | | done]. unfold set_controller. open_call.
  destruct (Bonded (bonds s) !! stash) as [old|] eqn:Hold; [|done]. cbv beta iota. case_bool_decide as Hc; [done|]. simpl.
  destruct (c =? old); [done|]. destruct (bonded_ledger _ _ _ (sk_bonds _ Hs) Hold) as (l & Hl & Hst).
  apply eq_None_not_Some in Hc. rewrite Hl. apply (staking_ok_bonds s); [done | done | done | simpl..].
  - eapply bonds_ok_move; eauto using sk_bonds.
  - apply Hs.
  - intros who. rewrite (sk_locks _ Hs). symmetry. eapply staked_total_move; eauto using sk_bonds.
Qed.

(** ** Root calls *)
Lemma root_keeps {A} origin (m : D (State W) A) : keeps m -> keeps (do* ensure_root origin in m).
Proof. intros Hm. apply preserves_bind; [|done]. apply preserves_reader. eauto with dispatch. Qed.

Lemma clear_era_information_keeps era : keeps (clear_era_information era).
Proof. unfold clear_era_information. keeps_invariant. Qed.

Lemma set_history_depth_keeps origin n m : keeps (set_history_depth origin n m).
Proof.
  apply root_keeps. keeps_invariant.
Qed.

Lemma ensure_new_era_keeps : keeps ensure_new_era.
Proof. unfold ensure_new_era. keeps_invariant. Qed.

Lemma set_minimum_bond_keeps origin v : 0 < v -> keeps (set_minimum_bond origin v).
Proof.
  intros Hv. apply root_keeps. apply preserves_bind; [|intros; apply emit_ok]. intros s Hs.
  apply (staking_ok_roles s (set_MinimumBond (fun _ => v) (bonds s))); [done | by apply bonds_ok_minimum; [apply Hs|] | done | done].
Qed.

Lemma remove_indices_sublist {A} k ixs (l l' : list A) : remove_indices k ixs l = Some l' -> l' `sublist_of` l.
Proof.
  revert k l. induction ixs as [|i ixs IH]; intros k l; simpl; [by intros [= <-]|].
  destruct (_ || _); [done|]. intros Hr. etransitivity; [by apply IH in Hr | apply sublist_delete].
Qed.

Lemma cancel_deferred_slash_keeps origin era ixs : keeps (cancel_deferred_slash origin era ixs).
Proof.
  apply root_keeps. intros s Hs. open_call. destruct (negb _); [|done]. destruct (is_sorted_and_unique _); [|done].
  destruct (_ <? _)%nat; [|done]. cbv beta iota. destruct (remove_indices 0 ixs _) as [us'|] eqn:E; [|done].
  destruct Hs as [H1 H2 H3 H4 H5 H6]. split; simpl; try done. intros era' us.
  destruct (decide (era' = era)) as [->|Hne]; [|rewrite lookup_insert_ne by done; by apply H5].
  rewrite lookup_insert_eq. intros [= <-]. apply remove_indices_sublist in E.
  apply Forall_forall. intros x Hx. apply (elem_of_sublist _ _ _ Hx) in E. revert E.
  unfold sget. destruct (_ !! era) as [us|] eqn:Eu; [by apply Forall_forall; eapply H5 | by intros ?%not_elem_of_nil].
Qed.

(** The calls that write neither bonds nor spans. *)
Lemma set_validator_count_keeps origin n : keeps (set_validator_count origin n).
Proof. apply root_keeps. keeps_invariant. Qed.
Lemma increase_validator_count_keeps origin n : keeps (increase_validator_count origin n).
Proof. apply root_keeps. keeps_invariant. Qed.
Lemma force_no_eras_keeps origin : keeps (force_no_eras origin).
Proof. apply root_keeps. keeps_invariant. Qed.
Lemma force_new_era_keeps origin : keeps (force_new_era origin).
Proof. apply root_keeps, ensure_new_era_keeps. Qed.
Lemma force_new_era_always_keeps origin : keeps (force_new_era_always origin).
Proof. apply root_keeps. keeps_invariant. Qed.
Lemma set_invulnerables_keeps origin l : keeps (set_invulnerables origin l).
Proof. apply root_keeps. keeps_invariant. Qed.

(** ** Genesis *)
Lemma genesis_staker_keeps stash c v status : 0 <= v -> keeps (genesis_staker (stash, c, v, status)).
Proof.
  intros Hv s Hs. unfold genesis_staker. destruct (_ <? _); [done|].
  pose proof (bond_keeps (Signed stash) c v Stash Hv s Hs) as Hb. destruct status; simpl; [done | |].
  - by apply validate_keeps.
  - by apply nominate_keeps.
Qed.

Lemma genesis_build_keeps minimum depth stakers : Forall (fun x => 0 <= x.1.2) stakers ->
  keeps (genesis_build minimum depth stakers).
Proof.
  intros Hall. unfold genesis_build. destruct (_ || _); [by intros s Hs|]. apply preserves_for_each.
  intros [[[stash c] v] status] Hin. apply genesis_staker_keeps. by apply (proj1 (Forall_forall _ _) Hall) in Hin.
Qed.
End Calls.

#[export] Hint Resolve clear_era_information_keeps ensure_new_era_keeps : staking.
