(* ===== verification/StakingSlashOps.v ===== *)
(** * Staking: slashing keeps the invariant

    Reports of offences, their deferral and their application keep
    [staking_ok]: spans stay recent and few, recorded slashes stay inside the
    balance type, and slashed ledgers keep adding up with their locks. *)

From S2P Require Import Prelude Support GenericAssetTypes Search StakingTypes SlashingSpans StakingState Staking StakingSlashing StakingInv StakingOps.

(** A call keeps [P], and its value satisfies [Q]. *)
Definition yields {E S A} (P : S -> Prop) (m : M E S A) (Q : A -> Prop) : Prop :=
  forall s, P s -> P (m s).2 /\ forall a, (m s).1 = Ok a -> Q a.

Section Yields.
Context {E S : Type} (P : S -> Prop).

Lemma yields_bind {A B} (m : M E S A) (k : A -> M E S B) Q R :
  yields P m Q -> (forall a, Q a -> yields P (k a) R) -> yields P (bind m k) R.
Proof.
  intros Hm Hk s Hs. destruct (Hm s Hs) as [H1 H2]. unfold bind. destruct (m s) as [[a|e|] s']; simpl in *; [|done..].
  apply Hk; [by apply H2 | done].
Qed.

Lemma yields_preserves {A} (m : M E S A) : preserves P m -> yields P m (fun _ => True).
Proof. intros Hm s Hs. split; [by apply Hm | done]. Qed.

Lemma preserves_yields {A} (m : M E S A) Q : yields P m Q -> preserves P m.
Proof. intros Hm s Hs. by apply Hm. Qed.

Lemma yields_ret {A} (a : A) (Q : A -> Prop) : Q a -> yields P (@ret E S A a) Q.
Proof. intros Ha s Hs. split; [done|]. by intros x [= <-]. Qed.

Lemma yields_gets {A} (f : S -> A) (Q : A -> Prop) : (forall s, P s -> Q (f s)) -> yields P (@gets E S A f) Q.
Proof. intros Hf s Hs. split; [done|]. intros x [= <-]. by apply Hf. Qed.

Lemma yields_then {A B} (m : M E S A) (k : M E S B) R :
  preserves P m -> yields P k R -> yields P (do* m in k) R.
Proof. intros Hm Hk. apply (yields_bind m _ (fun _ => True)); [by apply yields_preserves | by intros]. Qed.

Lemma yields_read {A B} (f : S -> A) (k : A -> M E S B) R :
  (forall a, yields P (k a) R) -> yields P (bind (gets f) k) R.
Proof. intros Hk. apply (yields_bind _ _ (fun _ => True)); [by apply yields_gets | by intros]. Qed.
End Yields.

Section SlashOps.
Context {W : Type} {config : StakingConfig} {env : StakingEnv W} {laws : StakingEnvLaws W} {perbill : PerbillOps}.
Hypothesis Hbonding : 0 <= BondingDuration <= 998.
Implicit Types s : State W.

(** The invariant in the active era [a]. *)
Definition ok_at (a : EraIndex) s : Prop := staking_ok s /\ active_of (eras s) = a.

Definition window_of (a : EraIndex) : EraIndex := saturating_sub a BondingDuration.

(** *** Writes *)
Lemma at_write_world a f : (forall w, stk_ok w -> stk_ok (f w)) -> (forall w who, stk_lock who (f w) = stk_lock who w) ->
  preserves (ok_at a) (write_world (W := W) f).
Proof. intros H1 H2 s [Hs Ha]. split; [by apply write_world_ok | done]. Qed.

Lemma at_write_eras a f : (forall e, active_of (f e) = active_of e) -> preserves (ok_at a) (write_eras (W := W) f).
Proof. intros Hf s [Hs Ha]. split; [by apply write_eras_ok | by simpl; rewrite Hf]. Qed.

Lemma at_write_slashes a f : (forall x, StashSpans (f x) = StashSpans x) -> (forall x, UnappliedSlashes (f x) = UnappliedSlashes x) ->
  preserves (ok_at a) (write_slashes (W := W) f).
Proof. intros H1 H2 s [Hs Ha]. split; [by apply write_slashes_ok | done]. Qed.

Lemma at_emit a e : preserves (ok_at a) (emit (W := W) e).
Proof. intros s [Hs Ha]. split; [by apply emit_ok | done]. Qed.

Lemma at_chill_stash a stash : preserves (ok_at a) (chill_stash (W := W) stash).
Proof. intros s [Hs Ha]. split; [by apply chill_stash_ok | done]. Qed.

Lemma at_ensure_new_era a : preserves (ok_at a) (ensure_new_era (W := W)).
Proof.
  unfold ensure_new_era. apply preserves_bind; [by apply preserves_reader|]. intros f.
  apply preserves_bind; [destruct f; first [by apply preserves_reader | by apply at_write_eras] | intros; by apply at_write_eras].
Qed.

(** *** Spans under inspection *)
Record insp_ok (a : EraIndex) (i : InspectingSpans) : Prop := {
  io_ok : spans_ok (in_spans i);
  io_recent : span_index (in_spans i) <= last_start (in_spans i) <= a + 1;
  io_few : in_dirty i = false -> Z.of_nat (length (prior (in_spans i))) <= BondingDuration + 1;
  io_slash : in_range BALANCE_BITS (in_slash_of i);
}.

Lemma write_spans_ok a stash sp : stash_spans_ok a sp ->
  preserves (ok_at a) (write_slashes (W := W) (set_StashSpans (insert stash sp))).
Proof.
  intros Hsp s [[H1 H2 H3 H4 H5 H6] Ha]. split; [|done]. split; simpl; try done. rewrite Ha in *. intros st x.
  destruct (decide (st = stash)) as [->|Hne]; [rewrite lookup_insert_eq; by intros [= <-]|].
  rewrite lookup_insert_ne by done. apply H4.
Qed.

Lemma zsum_ge_length l : Forall (fun x => 0 < x) l -> Z.of_nat (length l) <= zsum l.
Proof. induction 1; simpl; lia. Qed.

Lemma prune_few a sp : spans_ok sp -> span_index sp <= last_start sp <= a + 1 -> 0 <= a < umax ERA_BITS ->
  stash_spans_ok a (prune (window_of a) sp).2.
Proof.
  intros Hok Hr Ha. assert (Hw : 0 <= window_of a <= a) by (unfold window_of, saturating_sub; lia).
  pose proof (prune_ok (window_of a) sp Hok ltac:(lia)) as Hok'.
  destruct (prune_cut (window_of a) sp Hok) as (o & Ho & Hp & Hi & Hl & _ & Hkeep & _). split; [done | rewrite Hi, Hl; lia|].
  rewrite Hp, length_take. destruct o as [|o]; [lia|]. specialize (Hkeep o ltac:(lia)).
  pose proof (zsum_ge_length (take o (prior sp)) (Forall_take _ _ _ (so_lengths _ Hok))) as Hz. rewrite length_take in Hz.
  unfold window_of, saturating_sub in *. lia.
Qed.

Lemma drop_spans_ok a stash i : insp_ok a i -> preserves (ok_at a) (drop_spans (W := W) stash (window_of a) i).
Proof.
  intros [H1 H2 H3 H4] s Hs. unfold drop_spans. destruct (in_dirty i) eqn:Hd; [|done].
  assert (Ha : 0 <= a < umax ERA_BITS) by (destruct Hs as [Hs <-]; apply Hs).
  pose proof (prune_few a (in_spans i) H1 H2 Ha) as Hf. destruct (prune (window_of a) (in_spans i)) as [pruned sp].
  revert s Hs. apply preserves_bind; [|intros; by apply write_spans_ok].
  destruct pruned as [[x y]|]; [|by apply preserves_reader].
  apply preserves_for_each. intros z _. by apply at_write_slashes.
Qed.

Lemma fetch_spans_ok a stash paid sl : in_range BALANCE_BITS sl ->
  yields (ok_at a) (fetch_spans (W := W) stash (window_of a) paid sl) (insp_ok a).
Proof.
  intros Hsl s Hs. unfold fetch_spans. rewrite run_gets.
  assert (Ha : 0 <= a < umax ERA_BITS) by (destruct Hs as [Hs' <-]; apply Hs').
  assert (Hw : 0 <= window_of a <= a) by (unfold window_of, saturating_sub; lia).
  destruct (StashSpans (slashes s) !! stash) as [sp|] eqn:E.
  - apply yields_ret; [|done]. destruct Hs as [Hs <-]. destruct (sk_spans _ Hs _ _ E). by split.
  - assert (Hn : stash_spans_ok a (SlashingSpans_new (window_of a))).
    { split; simpl; [|lia..]. split; simpl; [constructor | lia..]. }
    apply yields_then; [by apply write_spans_ok | | done]. apply yields_ret. destruct Hn. by split.
Qed.

Lemma inspect_end_span_ok a i : 0 <= a < umax ERA_BITS -> insp_ok a i -> insp_ok a (inspect_end_span a i).
Proof.
  intros Ha [H1 H2 H3 H4]. unfold inspect_end_span, spans_end_span, wrapping_add. rewrite (wrap_small _ (a + 1)) by (unfold in_range; lia).
  destruct (Z.leb_spec (a + 1) (last_start (in_spans i))); [by split|].
  pose proof (end_span_ok a (in_spans i) H1 Ha ltac:(lia)) as Hok. rewrite end_span_eq in Hok by (done || lia).
  rewrite (proj2 (Z.leb_gt _ _)) in Hok by lia. simpl in Hok. unfold wrapping_sub.
  rewrite !wrap_small by (destruct H1; unfold in_range; pose proof (zsum_nonneg _ so_lengths); lia).
  split; simpl; [done | lia | done | done].
Qed.

Lemma compare_update_ok a stash p era slash i : insp_ok a i ->
  yields (ok_at a) (compare_and_update_span_slash (W := W) stash p era slash i) (fun r => insp_ok a r.2).
Proof.
  intros Hi. unfold compare_and_update_span_slash. destruct (era_span _ _) as [sp|]; [|by apply yields_ret].
  apply yields_read. intros r.
  assert (Hadd : insp_ok a (add_slash (slash - sr_slashed r) era i)).
  { destruct Hi as [[H1 H1' H1'' H1'''] H2 H3 H4]. split; simpl; [by split | done | done | by apply wrap_range]. }
  assert (Hdirty : forall j paid, insp_ok a j -> insp_ok a (mkInspecting true (in_spans j) paid (in_slash_of j))).
  { intros j paid [H1 H2 H3 H4]. by split. }
  assert (Hpaid : forall j paid, insp_ok a j -> insp_ok a (mkInspecting (in_dirty j) (in_spans j) paid (in_slash_of j))).
  { intros j paid [H1 H2 H3 H4]. by split. }
  repeat case_match; simplify_eq; try (apply yields_then; [by apply at_write_slashes|]); apply yields_ret; cbn [snd]; auto.
Qed.
Lemma add_offending_validator_ok a stash b : preserves (ok_at a) (add_offending_validator (W := W) stash b).
Proof.
  assert (Hw : forall i, preserves (ok_at a) (write_world (W := W) (stk_disable_validator i))).
  { intros i. apply at_write_world; auto with staking. }
  assert (Ho : forall f, preserves (ok_at a) (write_slashes (W := W) (set_OffendingValidators f))) by (intros; by apply at_write_slashes).
  unfold add_offending_validator. pose proof (at_ensure_new_era a).
  repeat first [ by apply preserves_reader | done | apply Hw | apply Ho | apply preserves_bind; [|intros] | apply preserves_if | case_match ].
Qed.

(** *** Computing slashes *)
Section Params.
Variable params : SlashParams.
Hypothesis Hwindow : sp_window_start params = window_of (sp_now params).

Hypothesis Hnow : 0 <= sp_now params < umax ERA_BITS.

Lemma insp_end_if (b : bool) i : insp_ok (sp_now params) i ->
  insp_ok (sp_now params) (if b then inspect_end_span (sp_now params) i else i).
Proof. intros Hi. destruct b; [by apply inspect_end_span_ok | done]. Qed.

Lemma kick_out_if_recent_ok : preserves (ok_at (sp_now params)) (kick_out_if_recent params).
Proof.
  unfold kick_out_if_recent. rewrite Hwindow. eapply preserves_yields.
  eapply yields_bind; [by apply fetch_spans_ok|]. intros i Hi. apply yields_then.
  { apply preserves_if; [apply at_chill_stash | by apply preserves_reader]. }
  apply yields_then; [apply add_offending_validator_ok|]. apply yields_preserves, drop_spans_ok, insp_end_if, Hi.
Qed.

Lemma slash_nominators_ok prior_p l payout slashed : Forall (fun p => in_range BALANCE_BITS p.2) slashed ->
  yields (ok_at (sp_now params)) (slash_nominators (W := W) params prior_p l payout slashed)
    (fun r => Forall (fun p => in_range BALANCE_BITS p.2) r.2).
Proof.
  revert payout slashed. induction l as [|n l IH]; intros payout slashed Hsl; simpl; [by apply yields_ret|].
  apply yields_read. intros prior_era. apply yields_then; [by apply at_write_slashes|]. rewrite Hwindow.
  eapply yields_bind; [by apply fetch_spans_ok|]. intros i Hi. eapply yields_bind; [by apply compare_update_ok|].
  intros [target i'] Hi'. apply (insp_end_if (bool_decide (target = Some (span_index (in_spans i'))))) in Hi'.
  apply yields_then; [by apply drop_spans_ok|]. apply IH. apply Forall_app. split; [done|]. constructor; [apply Hi' | constructor].
Qed.

Lemma compute_slash_ok :
  yields (ok_at (sp_now params)) (compute_slash (W := W) params) (fun r => forall u, r = Some u -> slash_ok u).
Proof.
  unfold compute_slash. destruct (_ =? 0); [apply yields_then; [apply kick_out_if_recent_ok | by apply yields_ret]|].
  apply yields_read. intros prior_p. destruct (_ <=? _); [by apply yields_ret|].
  apply yields_then; [by apply at_write_slashes|]. rewrite Hwindow.
  eapply yields_bind; [by apply fetch_spans_ok|]. intros i Hi. eapply yields_bind; [by apply compare_update_ok|].
  intros [target i'] Hi'. apply (insp_end_if (bool_decide (target = Some (span_index (in_spans i'))))) in Hi'.
  apply yields_then; [apply preserves_if; [apply at_chill_stash | by apply preserves_reader]|].
  apply yields_then; [by apply drop_spans_ok|]. apply yields_then; [apply add_offending_validator_ok|].
  eapply yields_bind; [by apply slash_nominators_ok|]. intros [payout slashed] Hsl. apply yields_ret.
  intros u [= <-]. split; [apply Hi' | done].
Qed.
End Params.

(** *** Applying slashes *)
Lemma at_update_ledger a s c l l' : ok_at a s -> Ledger (bonds s) !! c = Some l -> sl_stash l' = sl_stash l ->
  ledger_ok l' -> (length (sl_unlocking l') <= MAX_UNLOCKING_CHUNKS)%nat -> ok_at a (update_ledger c l' s).2.
Proof. intros [Hs Ha] Hl Hst Hok Hlen. split; [by apply (update_ledger_ok s c l) | done]. Qed.

Lemma do_slash_ok a stash v payout imb : in_range BALANCE_BITS v -> preserves (ok_at a) (do_slash (W := W) stash v payout imb).
Proof.
  intros [Hv Hv'] s Hs. unfold do_slash. rewrite run_gets. destruct (Bonded (bonds s) !! stash) as [c|] eqn:Hc; [|done].
  destruct (Ledger (bonds s) !! c) as [l|] eqn:Hl; [|done]. rewrite run_gets. destruct Hs as [Hs Ha].
  destruct (bo_books _ (sk_bonds _ Hs) _ _ Hl) as [Hok Hlen].
  pose proof (ledger_slash_spec v (stk_minimum_balance (world s)) l Hok (conj Hv Hv') (stk_minimum_range _ (sk_world _ Hs))) as Hsp.
  destruct (ledger_slash _ _ _) as [taken l']. destruct Hsp as (Hok' & Hst & _ & Ht & _ & _ & Hlen').
  destruct (taken =? 0); [done|]. unfold bind at 1, state. pose proof (ledger_total_nonneg l Hok).
  pose proof (stk_slash_ok (world s) stash taken (sk_world _ Hs) ltac:(lia)) as Hw.
  pose proof (stk_slash_lock (world s) stash taken) as Hlk. destruct (stk_slash stash taken (world s)) as [[i m] w].
  assert (Hs1 : ok_at a (on_world (fun _ => w) s)).
  { split; [|done]. apply (staking_ok_frame s); auto. }
  cbv beta iota. pose proof (at_update_ledger a _ c l l' Hs1 Hl Hst Hok' ltac:(lia)) as Hu.
  unfold bind at 1. destruct (update_ledger c l' _) as [[?|?|] s2]; [|done..]. by apply (at_emit a _ s2).
Qed.

Lemma do_slashes_ok a l payout imb : Forall (fun p => in_range BALANCE_BITS p.2) l ->
  preserves (ok_at a) (do_slashes (W := W) l payout imb).
Proof.
  intros Hl. revert payout imb. induction Hl as [|[stash v] l Hv Hl IH]; intros payout imb; simpl; [by apply preserves_reader|].
  apply preserves_bind; [by apply do_slash_ok|]. intros [p i]. apply IH.
Qed.

Lemma pay_each_ok a l per i : preserves (ok_at a) (pay_each (W := W) l per i).
Proof.
  revert i. induction l as [|r l IH]; intros i; simpl; [by apply preserves_reader|]. destruct (ni_split i per) as [x y].
  apply preserves_bind; [apply at_write_world; auto with staking | intros; apply IH].
Qed.

Lemma pay_reporters_ok a payout i l : preserves (ok_at a) (pay_reporters (W := W) payout i l).
Proof.
  unfold pay_reporters. apply preserves_if; [apply at_write_world; auto with staking|]. destruct (ni_split _ _) as [x y].
  apply preserves_if; [by apply preserves_reader|]. apply preserves_bind; [apply pay_each_ok|].
  intros j. apply at_write_world; auto with staking.
Qed.

Lemma apply_slash_ok a u : slash_ok u -> preserves (ok_at a) (apply_slash (W := W) u).
Proof.
  intros [Ho Hl]. unfold apply_slash. apply preserves_bind; [|intros i; apply preserves_bind; [|intros [p j]; apply pay_reporters_ok]].
  - intros s [Hs Ha]. unfold state. pose proof (stk_issue_ok (world s) 0 (sk_world _ Hs)) as Hw.
    pose proof (stk_issue_lock (world s) 0) as Hlk. destruct (stk_issue 0 (world s)) as [i w]. split; [|done].
    apply (staking_ok_frame s); auto.
  - apply do_slashes_ok. by constructor.
Qed.

Lemma clear_era_metadata_ok a era : preserves (ok_at a) (clear_era_metadata (W := W) era).
Proof. unfold clear_era_metadata. apply preserves_bind; intros; by apply at_write_slashes. Qed.

Lemma write_unapplied_ok a (f : gmap Z (list UnappliedSlash) -> gmap Z (list UnappliedSlash)) :
  (forall m, map_Forall (fun _ us => Forall slash_ok us) m -> map_Forall (fun _ us => Forall slash_ok us) (f m)) ->
  preserves (ok_at a) (write_slashes (W := W) (set_UnappliedSlashes f)).
Proof. intros Hf s [[H1 H2 H3 H4 H5 H6] Ha]. split; [|done]. split; simpl; try done. apply Hf. exact H5. Qed.

Lemma unapplied_values a era s : ok_at a s -> Forall slash_ok (sget [] era (UnappliedSlashes (slashes s))).
Proof. intros [Hs _]. unfold sget. destruct (_ !! era) eqn:E; [by eapply sk_unapplied | constructor]. Qed.

Lemma apply_unapplied_slashes_ok a b : preserves (ok_at a) (apply_unapplied_slashes (W := W) b).
Proof.
  unfold apply_unapplied_slashes. apply preserves_bind; [by apply preserves_reader|]. intros [e|]; [|by apply preserves_reader].
  apply preserves_bind; [|intros; by apply at_write_slashes]. apply preserves_for_each. intros era _. eapply preserves_yields.
  eapply yields_bind; [apply yields_gets; intros s Hs; by apply (unapplied_values a era s)|]. intros us Hus. apply yields_preserves.
  apply preserves_bind.
  - apply write_unapplied_ok. intros m Hm k v [_ Hk]%lookup_delete_Some. by eapply Hm.
  - intros _. apply preserves_for_each. intros u Hu. apply apply_slash_ok. by apply (proj1 (Forall_forall _ _) Hus).
Qed.

(** *** Reports *)
Lemma slash_offenders_ok a reports era reward inv strategy weight :
  preserves (ok_at a) (slash_offenders (W := W) reports era (window_of a) a reward inv strategy weight).
Proof.
  revert weight. induction reports as [|[d f] reports IH]; intros weight; simpl; [by apply preserves_reader|].
  destruct (od_offender d) as [stash ex]. case_bool_decide; [apply IH|].
  set (params := mkParams stash f ex era (window_of a) a reward strategy). intros s Hs.
  assert (Ha : 0 <= a < umax ERA_BITS) by (destruct Hs as [Hs' <-]; apply Hs'). revert s Hs.
  apply (preserves_yields _ _ (fun _ => True)). eapply yields_bind; [by apply (compute_slash_ok params)|].
  intros [u|] Hu; apply yields_preserves; [|apply IH]. specialize (Hu u eq_refl).
  set (u' := mkUnapplied _ _ _ _ _). assert (Hu' : slash_ok u') by exact Hu. destruct (_ =? 0).
  - apply preserves_bind; [by apply apply_slash_ok | intros; apply IH].
  - apply preserves_bind; [|intros; apply IH]. apply write_unapplied_ok. intros m Hm k v.
    destruct (decide (k = a)) as [->|Hne]; [|rewrite lookup_insert_ne by done; apply Hm].
    rewrite lookup_insert_eq. intros [= <-]. apply Forall_app. split; [|constructor; [done | constructor]].
    unfold sget. destruct (m !! a) eqn:E; [by eapply Hm | constructor].
Qed.

Lemma on_offence_ok a offenders fractions session strategy :
  preserves (ok_at a) (on_offence (W := W) offenders fractions session strategy).
Proof.
  intros s Hs. unfold on_offence. rewrite run_gets. destruct (negb _).
  { revert s Hs. apply preserves_bind; [by apply at_write_slashes | intros; by apply preserves_reader]. }
  rewrite !run_gets. destruct (ActiveEra (eras s)) as [info|] eqn:Ei; [|done]. rewrite !run_gets.
  assert (ae_index info = a) as -> by (destruct Hs as [_ <-]; unfold active_of; by rewrite Ei).
  match goal with |- context [let '(_, _) := ?p in _] => destruct p as [[era|] weight]; [|done] end.
  clear Ei. generalize (SlashRewardFraction (slashes s)). intros reward. revert s Hs. apply preserves_bind; [by apply at_write_slashes|]. intros _.
  apply preserves_bind; [by apply preserves_reader|]. intros inv. apply slash_offenders_ok.
Qed.

Lemma report_deferred_ok a consumed deferred kept : preserves (ok_at a) (report_deferred (W := W) consumed deferred kept).
Proof.
  revert consumed kept. induction deferred as [|[[o f] ses] deferred IH]; intros consumed kept; simpl; [by apply preserves_reader|].
  apply preserves_if; [apply IH|]. apply preserves_bind; [apply on_offence_ok | intros; apply IH].
Qed.

Lemma offences_on_initialize_ok a : preserves (ok_at a) (offences_on_initialize (W := W)).
Proof.
  unfold offences_on_initialize. apply preserves_bind; [by apply preserves_reader|]. intros status.
  apply preserves_if; [by apply preserves_reader|]. apply preserves_bind; [by apply preserves_reader|]. intros d.
  apply preserves_bind; [apply report_deferred_ok|]. intros [c k].
  apply preserves_bind; [by apply at_write_slashes | intros; by apply preserves_reader].
Qed.

(** A call that keeps the invariant in every era keeps it. *)
Lemma at_keeps {A} (m : D (State W) A) : (forall a, preserves (ok_at a) m) -> preserves staking_ok m.
Proof. intros Hm s Hs. by destruct (Hm (active_of (eras s)) s (conj Hs eq_refl)). Qed.
End SlashOps.
