(* ===== verification/StakingTheorems.v ===== *)
(** * Staking: the reachable states

    Sessions, eras, elections and hooks keep the invariant too; the step
    relation of the pallet with everything that can happen around it, and the
    theorem that the invariant holds in every reachable state. *)

From S2P Require Import Prelude Support GenericAssetTypes Search StakingTypes SlashingSpans StakingState Staking StakingSlashing StakingEras StakingInv StakingOps StakingSlashOps.

Section Theorems.
Context {W : Type} {config : StakingConfig} {env : StakingEnv W} {laws : StakingEnvLaws W} {perbill : PerbillOps}
  {npos : NposElections}.
Hypothesis Hbonding : 0 <= BondingDuration <= 998.
Implicit Types s : State W.

Abbreviation keeps := (preserves (E := DispatchError) (S := State W) staking_ok).

(** ** Elections *)
Lemma write_election_keeps f : keeps (write_election f).
Proof. apply on_election_ok. Qed.

Lemma close_election_window_keeps : keeps close_election_window.
Proof. unfold close_election_window. keeps_invariant; apply on_election_ok. Qed.

Lemma create_stakers_snapshot_keeps : keeps create_stakers_snapshot.
Proof. unfold create_stakers_snapshot. keeps_invariant; apply on_election_ok. Qed.

Lemma store_exposures_keeps era l total : keeps (store_exposures era l total).
Proof.
  revert total. induction l as [|[stash e] l IH]; intros total; simpl; [by apply preserves_reader|].
  apply preserves_bind; [by apply write_eras_ok|]. intros _. apply preserves_bind; [by apply write_eras_ok | intros; apply IH].
Qed.

Lemma select_and_update_validators_keeps era : keeps (select_and_update_validators era).
Proof.
  unfold select_and_update_validators. apply preserves_bind.
  { unfold try_do_election. keeps_invariant; apply on_election_ok. }
  intros [r|]; [|by apply preserves_reader]. apply preserves_bind; [apply close_election_window_keeps|]. intros _.
  apply preserves_bind; [apply store_exposures_keeps|]. intros total. keeps_invariant.
Qed.

(** ** Sessions and eras *)
Lemma new_era_keeps n : keeps (new_era n).
Proof.
  unfold new_era. repeat first [ apply select_and_update_validators_keeps | apply preserves_bind; [|intros] | by apply preserves_reader
    | by apply write_eras_ok | case_match | apply clear_era_information_keeps ].
Qed.

Lemma new_session_keeps n : keeps (new_session n).
Proof.
  unfold new_session. repeat first [ apply new_era_keeps | apply close_election_window_keeps | apply preserves_bind; [|intros]
    | by apply preserves_reader | by apply write_eras_ok | apply preserves_if | case_match ].
Qed.

Lemma historical_new_session_keeps n : keeps (historical_new_session n).
Proof.
  unfold historical_new_session. apply preserves_bind; [apply new_session_keeps|]. intros [vs|]; by apply preserves_reader.
Qed.

(** The next era starts within the range of the era counter. *)
Lemma start_era_keeps n s : staking_ok s -> active_of (eras s) + 1 < umax ERA_BITS -> staking_ok (start_era n s).2.
Proof.
  intros Hs Hlt. unfold start_era. rewrite run_gets.
  set (active_era := match ActiveEra (eras s) with Some info => _ | None => 0 end).
  assert (Ha : 0 <= active_era <= active_of (eras s) + 1 /\ active_of (eras s) <= active_era).
  { pose proof (sk_active _ Hs). unfold active_era, active_of in *. destruct (ActiveEra (eras s)) as [info|]; simpl in *; [|lia].
    unfold wrapping_add. rewrite wrap_small by (unfold in_range; lia). lia. }
  set (s1 := on_eras (set_ActiveEra (fun _ => Some (mkActiveEra active_era None))) s).
  assert (Hs1 : ok_at active_era s1).
  { split; [|done]. destruct Hs as [H1 H2 H3 H4 H5 H6]. split; simpl; try done; [|unfold active_of; simpl; lia].
    intros stash sp Hsp. destruct (H4 stash sp Hsp) as [? ? ?]. split; [done | | done]. unfold active_of; simpl. lia. }
  unfold write_eras. rewrite run_modify. fold s1.
  match goal with |- staking_ok (?k _).2 => cut (preserves (ok_at active_era) k); [intros Hk; by destruct (Hk _ Hs1)|] end.
  apply preserves_bind; [by apply preserves_reader|]. intros bonded. apply preserves_bind; [|intros; by apply apply_unapplied_slashes_ok].
  apply preserves_if; [|by apply at_write_slashes]. apply preserves_bind.
  { apply preserves_for_each. intros [era ses] _. by apply clear_era_metadata_ok. }
  intros _. apply preserves_bind; [|intros; by apply at_write_slashes].
  case_match; [|by apply preserves_reader]. case_match. apply at_write_world; auto with staking.
Qed.

Lemma start_session_keeps n s : staking_ok s -> active_of (eras s) + 1 < umax ERA_BITS -> staking_ok (start_session n s).2.
Proof.
  intros Hs Hlt. unfold start_session. rewrite run_gets.
  assert (Hrest : keeps (let* offending := gets (fun s => OffendingValidators (slashes s)) in
    for_each offending (fun '(index, disabled) => if disabled : bool then write_world (stk_disable_validator index) else ret tt))).
  { apply preserves_bind; [by apply preserves_reader|]. intros o. apply preserves_for_each. intros [i []] _; [|by apply preserves_reader].
    apply write_world_ok; auto with staking. }
  set (first := match ErasStartSessionIndex (eras s) !! _ with Some _ => _ | None => _ end).
  assert (Hfirst : staking_ok (first s).2).
  { unfold first. destruct (_ !! _) as [x|]; [|done]. destruct (x <=? n); [by apply start_era_keeps | done]. }
  unfold bind at 1. destruct (first s) as [[u|e|] s1]; [by apply Hrest | done | done].
Qed.

Lemma end_session_keeps n : keeps (end_session n).
Proof.
  unfold end_session. apply preserves_bind; [by apply preserves_reader|]. intros e. destruct (ActiveEra e) as [a|]; [|by apply preserves_reader].
  destruct (_ !! _) as [x|]; [|by apply preserves_reader]. apply preserves_if; [|by apply preserves_reader]. unfold end_era.
  do 3 (apply preserves_bind; [by apply preserves_reader | intros]). apply preserves_bind; [by apply write_eras_ok|]. intros _.
  intros s Hs. rewrite run_gets. destruct (stk_on_end_era _ _ _ _ _) as [w|] eqn:E; [|done].
  unfold bind, write_world, modify. apply write_slashes_ok; [done | done|]. apply (staking_ok_frame s); try done; simpl.
  - intros Hw. by eapply stk_on_end_era_ok.
  - intros who. by eapply stk_on_end_era_lock.
Qed.

(** ** Hooks and solutions *)
Lemma on_initialize_keeps n : keeps (on_initialize n).
Proof.
  unfold on_initialize. do 2 (apply preserves_bind; [by apply preserves_reader | intros]).
  apply preserves_bind; [|intros; apply preserves_bind; [apply at_keeps; intros; by apply offences_on_initialize_ok | intros; by apply preserves_reader]].
  apply preserves_if; [|by apply preserves_reader]. unfold open_election_window.
  repeat first [ by apply preserves_reader | apply preserves_bind; [|intros] | apply create_stakers_snapshot_keeps
    | apply write_election_keeps | apply preserves_if | case_match ].
Qed.

Lemma on_finalize_keeps : keeps on_finalize.
Proof.
  intros s Hs. unfold on_finalize. rewrite run_gets. destruct (ActiveEra (eras s)) as [[i [x|]]|] eqn:E; [done | | done].
  rewrite run_gets. apply (staking_ok_frame s); try done. unfold active_of. simpl. by rewrite E.
Qed.

Lemma reader_check_edge n t : reader (check_edge (W := W) n t).
Proof. unfold check_edge. apply reader_bind; [eauto with dispatch|]. intros _. apply reader_bind; [done|]. intros [sp|]; eauto with dispatch. Qed.

Lemma reader_check_assignment a : reader (check_assignment (W := W) a).
Proof.
  unfold check_assignment. apply reader_bind; [done|]. intros b.
  destruct (Nominators b !! as_who a) as [n|], (bool_decide _); try done.
  - apply reader_for_each. intros [t r]. apply reader_check_edge.
  - destruct (as_distribution a) as [|[t r] [|? ?]]; [done | eauto with dispatch | done].
Qed.

Lemma reader_pre_dispatch_checks score era : reader (pre_dispatch_checks (W := W) score era).
Proof.
  unfold pre_dispatch_checks. apply reader_bind; [done|]. intros st. apply reader_bind; [eauto with dispatch|]. intros _.
  apply reader_bind; [done|]. intros c. apply reader_bind; [destruct c; eauto with dispatch|]. intros _.
  apply reader_bind; [done|]. intros [q|]; eauto with dispatch.
Qed.

Lemma reader_winners_at l ws : reader (winners_at (W := W) l ws).
Proof.
  induction ws as [|w ws IH]; simpl; [done|]. apply reader_bind; [eauto with dispatch|]. intros a.
  apply reader_bind; [done|]. by intros.
Qed.

Lemma check_and_replace_solution_keeps winners compact compute score era size :
  keeps (check_and_replace_solution winners compact compute score era size).
Proof.
  unfold check_and_replace_solution.
  repeat first [ apply preserves_reader; solve [ eauto 3 with dispatch | apply reader_pre_dispatch_checks | apply reader_winners_at
                   | apply reader_for_each; apply reader_check_assignment ]
    | apply preserves_bind; [|intros] | apply write_election_keeps | apply emit_ok ].
Qed.

(** ** Reachable states *)

(** The storage of the genesis configuration before its stakers bond. *)
Definition genesis_storage (minimum_bond history_depth validator_count minimum_validator_count : Z)
    (invulnerables : list AccountId) (force_era : Forcing) (slash_reward_fraction : Perbill) (w : W) : State W :=
  mkState (mkBondStore minimum_bond ∅ ∅ ∅ ∅)
    (mkEraStore history_depth validator_count minimum_validator_count None None ∅ ∅ ∅ ∅ ∅ force_era false false false)
    (mkSlashStore [] invulnerables slash_reward_fraction ∅ [] ∅ ∅ ∅ ∅ None [])
    (mkElectionStore None None None None Closed) [] w.

Inductive Call :=
| Bond (controller : AccountId) (value : Balance) (payee : RewardDestination)
| BondExtra (max_additional : Balance)
| Unbond (value : Balance)
| WithdrawUnbonded
| Rebond (value : Balance)
| Validate (prefs : ValidatorPrefs)
| Nominate (targets : list AccountId)
| Chill
| SetPayee (payee : RewardDestination)
| SetController (controller : AccountId)
| SetValidatorCount (new : Z)
| IncreaseValidatorCount (additional : Z)
| ForceNoEras
| ForceNewEra
| ForceNewEraAlways
| SetMinimumBondCall (value : Balance)
| SetInvulnerablesCall (validators : list AccountId)
| ForceUnstake (stash : AccountId)
| CancelDeferredSlash (era : EraIndex) (slash_indices : list Z)
| SetHistoryDepth (depth : EraIndex) (items : Z)
| ReapStash (stash : AccountId)
| SubmitElectionSolution (winners : list Z) (compact : CompactAssignments) (score : ElectionScore) (era : EraIndex) (size : ElectionSize)
| SubmitElectionSolutionUnsigned (winners : list Z) (compact : CompactAssignments) (score : ElectionScore) (era : EraIndex) (size : ElectionSize).

Definition dispatch (c : Call) (origin : Origin) : D (State W) unit :=
  match c with
  | Bond controller value payee => bond origin controller value payee
  | BondExtra value => bond_extra origin value
  | Unbond value => unbond origin value
  | WithdrawUnbonded => withdraw_unbonded origin
  | Rebond value => let* _weight := rebond origin value in ret tt
  | Validate prefs => validate origin prefs
  | Nominate targets => nominate origin targets
  | Chill => chill origin
  | SetPayee payee => set_payee origin payee
  | SetController controller => set_controller origin controller
  | SetValidatorCount new => set_validator_count origin new
  | IncreaseValidatorCount additional => increase_validator_count origin additional
  | ForceNoEras => force_no_eras origin
  | ForceNewEra => force_new_era origin
  | ForceNewEraAlways => force_new_era_always origin
  | SetMinimumBondCall value => set_minimum_bond origin value
  | SetInvulnerablesCall validators => set_invulnerables origin validators
  | ForceUnstake stash => force_unstake origin stash
  | CancelDeferredSlash era indices => cancel_deferred_slash origin era indices
  | SetHistoryDepth depth items => set_history_depth origin depth items
  | ReapStash stash => reap_stash origin stash
  | SubmitElectionSolution winners compact score era size => submit_election_solution origin winners compact score era size
  | SubmitElectionSolutionUnsigned winners compact score era size =>
      submit_election_solution_unsigned origin winners compact score era size
  end.

(** Arguments inside the balance type; the minimum bond stays positive, as the
    genesis configuration demands of it. *)
Definition call_ok (c : Call) : Prop :=
  match c with
  | Bond _ v _ | BondExtra v | Unbond v | Rebond v => in_range BALANCE_BITS v
  | SetMinimumBondCall v => 0 < v
  | _ => True
  end.

(** A step: an extrinsic, whatever its outcome; a rotation of sessions; a hook;
    a report of offences; anything the rest of the runtime does to the world
    without touching the staking lock. *)
Inductive step s : State W -> Prop :=
| step_call c origin : call_ok c -> step s (dispatch c origin s).2
| step_new_session n : step s (historical_new_session n s).2
| step_start_session n : active_of (eras s) + 1 < umax ERA_BITS -> step s (start_session n s).2
| step_end_session n : step s (end_session n s).2
| step_initialize n : step s (on_initialize n s).2
| step_finalize : step s (on_finalize s).2
| step_offence offenders fractions session strategy : step s (on_offence offenders fractions session strategy s).2
| step_world w : stk_ok w -> (forall who, stk_lock who w = stk_lock who (world s)) -> step s (on_world (fun _ => w) s).

Inductive reachable : State W -> Prop :=
| reachable_genesis minimum depth count minimum_count invulnerables force fraction stakers w s :
    stk_ok w -> (forall who, stk_lock who w = None) -> Forall (fun x => 0 <= x.1.2) stakers ->
    genesis_build minimum depth stakers (genesis_storage minimum depth count minimum_count invulnerables force fraction w) = (Ok tt, s) ->
    reachable s
| reachable_step s s' : reachable s -> step s s' -> reachable s'.

Lemma submit_keeps origin winners compact score era size :
  keeps (submit_election_solution origin winners compact score era size).
Proof. apply preserves_bind; [apply preserves_reader; eauto with dispatch | intros; apply check_and_replace_solution_keeps]. Qed.

Lemma submit_unsigned_keeps origin winners compact score era size :
  keeps (submit_election_solution_unsigned origin winners compact score era size).
Proof.
  apply preserves_bind; [apply preserves_reader; eauto with dispatch|]. intros _ s Hs.
  pose proof (check_and_replace_solution_keeps winners compact UnsignedSolution score era size s Hs) as Hc.
  by destruct (check_and_replace_solution _ _ _ _ _ _ s) as [[]].
Qed.

Lemma dispatch_keeps c origin : call_ok c -> keeps (dispatch c origin).
Proof.
  pose proof Hbonding. intros Hc. destruct c; simpl in *;
    first [ apply bond_keeps | apply bond_extra_keeps | apply unbond_keeps | apply withdraw_unbonded_keeps | apply validate_keeps
          | apply nominate_keeps | apply chill_keeps | apply set_payee_keeps | apply set_controller_keeps
          | apply set_validator_count_keeps | apply increase_validator_count_keeps | apply force_no_eras_keeps
          | apply force_new_era_keeps | apply force_new_era_always_keeps | apply set_minimum_bond_keeps
          | apply set_invulnerables_keeps | apply force_unstake_keeps | apply cancel_deferred_slash_keeps
          | apply set_history_depth_keeps | apply reap_stash_keeps
          | apply submit_keeps | apply submit_unsigned_keeps
          | apply preserves_bind; [by apply rebond_keeps | intros; by apply preserves_reader] ]; try done; apply Hc.
Qed.

Lemma genesis_storage_ok minimum depth count minimum_count invulnerables force fraction w : 0 < minimum -> stk_ok w ->
  (forall who, stk_lock who w = None) ->
  staking_ok (genesis_storage minimum depth count minimum_count invulnerables force fraction w).
Proof.
  intros Hm Hw Hl. split; simpl; try done.
  split; simpl; try done. intros stash c. rewrite lookup_empty. split; [done|]. by intros (l & Hl' & _).
Qed.

Lemma step_ok s s' : staking_ok s -> step s s' -> staking_ok s'.
Proof.
  intros Hs [c origin Hc | n | n Hn | n | n | | os fs ses st | w Hw Hl].
  - by apply dispatch_keeps.
  - by apply historical_new_session_keeps.
  - by apply start_session_keeps.
  - by apply end_session_keeps.
  - by apply on_initialize_keeps.
  - by apply on_finalize_keeps.
  - by apply (at_keeps _ (fun a => on_offence_ok Hbonding a os fs ses st)).
  - by apply (staking_ok_frame s).
Qed.

Lemma reachable_ok s : reachable s -> staking_ok s.
Proof.
  induction 1 as [minimum depth count mc inv force fr stakers w s Hw Hl Hst Hb | s s' Hr IH Hs]; [|by eapply step_ok].
  assert (Hm : 0 < minimum) by (unfold genesis_build in Hb; destruct (Z.leb_spec minimum 0); [done | lia]).
  pose proof (genesis_build_keeps Hbonding minimum depth stakers Hst _ (genesis_storage_ok minimum depth count mc inv force fr w Hm Hw Hl)) as Hk.
  by rewrite Hb in Hk.
Qed.

(** C3: in every state reachable from a genesis configuration, stash and
    controller are paired one to one, every ledger adds up and holds at most 32
    unlocking chunks, roles belong to bonded stashes and exclude each other,
    the lock on every account is exactly the total of its ledger (none for
    accounts that are not bonded), slashing spans stay few and recent, and
    recorded slashes fit the balance type.  Bonds last at most 998 eras, and
    [set_minimum_bond] is never called with zero, which the code would accept
    and under which a ledger can be inflated. *)
Theorem staking_reachable s : reachable s -> staking_ok s.
Proof. apply reachable_ok. Qed.
End Theorems.
