(* ===== verification/StakingProps.v ===== *)
(** * Staking: what the calls do

    Unbonded funds are released when they have matured and not before,
    unbonding and rebonding are inverse, cancelling slashes removes exactly the
    listed ones, and an accepted election solution is sound. *)

From S2P Require Import Prelude Support GenericAssetTypes Search StakingTypes SlashingSpans StakingState Staking StakingSlashing StakingEras StakingInv StakingOps StakingSlashOps StakingTheorems.

Section Props.
Context {W : Type} {config : StakingConfig} {env : StakingEnv W} {laws : StakingEnvLaws W} {perbill : PerbillOps}
  {npos : NposElections}.
Implicit Types s : State W.

Lemma closed_run {A} (m : D (State W) A) s : EraElectionStatus (election s) = Closed ->
  bind ensure_election_closed (fun _ => m) s = m s.
Proof. intros Hc. unfold ensure_election_closed, bind, gets. by rewrite Hc. Qed.

(** ** Withdrawing *)
Section Withdraw.
Hypothesis Hbonding : 0 <= BondingDuration <= 998.


(** The state without a stash, and the one with a smaller ledger. *)
Definition emptied (c : AccountId) (l : StakingLedger) s : State W :=
  mkState (killed (sl_stash l) c (bonds s)) (eras s) (without_spans (sl_stash l) (slashes s)) (election s) (staking_events s)
    (stk_remove_payee (sl_stash l) (stk_remove_lock STAKING_ID (sl_stash l) (world s))).

Definition relocked (c : AccountId) (l : StakingLedger) s : State W :=
  mkState (set_Ledger (insert c l) (bonds s)) (eras s) (slashes s) (election s) (staking_events s)
    (stk_set_lock STAKING_ID (sl_stash l) (sl_total l) WithdrawReasons.all (world s)).

Definition note_withdrawn (stash : AccountId) (released : Balance) s : State W :=
  if 0 <? released then deposit_event (Withdrawn stash released) s else s.

Lemma note_withdrawn_stores stash released s : let s' := note_withdrawn stash released s in
  bonds s' = bonds s /\ world s' = world s /\
  staking_events s' = staking_events s ++ if 0 <? released then [Withdrawn stash released] else [].
Proof. unfold note_withdrawn. destruct (0 <? released); simpl; [done|]. by rewrite app_nil_r. Qed.

Lemma withdraw_unbonded_eq s c l era : staking_ok s -> EraElectionStatus (election s) = Closed ->
  Ledger (bonds s) !! c = Some l -> CurrentEra (eras s) = Some era ->
  let released := chunk_sum (List.filter (matured era) (sl_unlocking l)) in
  let young := List.filter (fun x => negb (matured era x)) (sl_unlocking l) in
  withdraw_unbonded (Signed c) s =
    (Ok tt, note_withdrawn (sl_stash l) released
       (if bool_decide (young = []) && (sl_active l =? 0) then emptied c l s
        else relocked c (mkLedger (sl_stash l) (sl_total l - released) (sl_active l) young) s)).
Proof.
  intros Hs Hcl Hl He. cbv zeta. destruct (bo_books _ (sk_bonds _ Hs) _ _ Hl) as [Hok _].
  pose proof (consolidate_unlocked_spec era l Hok) as Hc. set (released := chunk_sum _) in *. set (young := List.filter (fun x => negb (matured era x)) (sl_unlocking l)) in *.
  unfold withdraw_unbonded. rewrite closed_run by done. open_call. rewrite Hl. cbv beta iota zeta. rewrite He, Hc.
  cbn [sl_unlocking sl_active sl_stash sl_total].
  assert (bool_decide (length young = O) = bool_decide (young = [])) as ->.
  { apply bool_decide_ext. split; [apply length_zero_iff_nil | by intros ->]. }
  assert (Hev : forall s', (if sl_total l - released <? sl_total l
    then emit (Withdrawn (sl_stash l) (sl_total l - (sl_total l - released))) else ret tt) s' = (Ok tt, note_withdrawn (sl_stash l) released s')).
  { intros s'. unfold note_withdrawn. replace (sl_total l - (sl_total l - released)) with released by lia.
    destruct (Z.ltb_spec (sl_total l - released) (sl_total l)), (Z.ltb_spec 0 released); (done || lia). }
  destruct (bool_decide (young = []) && (sl_active l =? 0)); [|apply Hev].
  unfold write_world at 1, modify at 1. rewrite (kill_stash_eq Hbonding) by (intros stash sp; apply (staking_ok_few s Hs)). simpl bonds.
  rewrite (ledger_stash_bonded _ _ _ (sk_bonds _ Hs) Hl). apply Hev.
Qed.

(** C34: with the election window closed, [withdraw_unbonded] succeeds for every
    controller.  Exactly the chunks whose era has come are taken off the ledger
    and the lock; younger ones stay, so unbonded funds stay locked for the
    bonding duration.  A stash with nothing left is removed with its lock.  No
    other account is touched. *)
Theorem withdraw_releases_matured s c l era : staking_ok s -> EraElectionStatus (election s) = Closed ->
  Ledger (bonds s) !! c = Some l -> CurrentEra (eras s) = Some era ->
  let released := chunk_sum (List.filter (matured era) (sl_unlocking l)) in
  let young := List.filter (fun x => negb (matured era x)) (sl_unlocking l) in
  exists s', withdraw_unbonded (Signed c) s = (Ok tt, s') /\
    (if bool_decide (young = []) && (sl_active l =? 0)
     then Bonded (bonds s') !! sl_stash l = None /\ Ledger (bonds s') !! c = None /\ stk_lock (sl_stash l) (world s') = None
     else Ledger (bonds s') !! c = Some (mkLedger (sl_stash l) (sl_total l - released) (sl_active l) young) /\
          stk_lock (sl_stash l) (world s') = Some (sl_total l - released)) /\
    (forall who, who <> sl_stash l ->
       staked_total (bonds s') who = staked_total (bonds s) who /\ stk_lock who (world s') = stk_lock who (world s)) /\
    staking_events s' = staking_events s ++ if 0 <? released then [Withdrawn (sl_stash l) released] else [].
Proof.
  intros Hs Hcl Hl He released young. eexists. split; [by apply withdraw_unbonded_eq|]. fold released young.
  match goal with |- context [note_withdrawn _ _ ?x] => set (s1 := x) end. destruct (note_withdrawn_stores (sl_stash l) released s1) as (-> & -> & ->).
  pose proof (ledger_stash_bonded _ _ _ (sk_bonds _ Hs) Hl) as Hb. unfold s1.
  destruct (bool_decide (young = []) && (sl_active l =? 0)); simpl.
  - split_and!; [apply lookup_delete_eq | apply lookup_delete_eq | by rewrite stk_remove_payee_lock, stk_remove_lock_lock, Z.eqb_refl | | done].
    intros who Hne%Z.eqb_neq. rewrite stk_remove_payee_lock, stk_remove_lock_lock, Hne. split; [|done].
    unfold killed. rewrite staked_total_kill by (done || apply Hs). by rewrite Hne.
  - split_and!; [apply lookup_insert_eq | by rewrite stk_set_lock_lock, Z.eqb_refl | | done].
    intros who Hne%Z.eqb_neq. rewrite stk_set_lock_lock, Hne. split; [|done].
    rewrite (staked_total_update _ c l) by (done || apply Hs). by rewrite Hne.
Qed.

End Withdraw.

(** ** Unbonding and rebonding *)

(** Unbonding a value that leaves the minimum bond schedules it for release
    after the bonding duration without changing the lock, and rebonding the
    same value restores the bonds exactly. *)
Theorem unbond_rebond_roundtrip s c l v : staking_ok s -> EraElectionStatus (election s) = Closed ->
  Ledger (bonds s) !! c = Some l -> 0 < v -> MinimumBond (bonds s) <= sl_active l - v ->
  (length (sl_unlocking l) < MAX_UNLOCKING_CHUNKS)%nat ->
  let era := wrapping_add ERA_BITS (default 0 (CurrentEra (eras s))) BondingDuration in
  exists s1 s2 weight, unbond (Signed c) v s = (Ok tt, s1) /\
    Ledger (bonds s1) !! c = Some (mkLedger (sl_stash l) (sl_total l) (sl_active l - v) (sl_unlocking l ++ [mkChunk v era])) /\
    stk_lock (sl_stash l) (world s1) = Some (sl_total l) /\
    rebond (Signed c) v s1 = (Ok weight, s2) /\ bonds s2 = bonds s /\ stk_lock (sl_stash l) (world s2) = Some (sl_total l).
Proof.
  intros Hs Hcl Hl Hv Hmin Hlen era. destruct (bo_books _ (sk_bonds _ Hs) _ _ Hl) as [[Ha Hch Ht Hm] _].
  pose proof (bo_minimum _ (sk_bonds _ Hs)) as Hpos. pose proof (chunk_sum_nonneg _ Hch).
  set (l1 := mkLedger (sl_stash l) (sl_total l) (sl_active l - v) (sl_unlocking l ++ [mkChunk v era])).
  set (s1 := relocked c l1 (deposit_event (Unbonded (sl_stash l) v) s)). exists s1, (relocked c l s1). eexists.
  assert (Hl1 : Ledger (bonds s1) !! c = Some l1) by apply lookup_insert_eq. split_and!.
  - unfold unbond. rewrite closed_run by done. open_call. rewrite Hl. cbv beta iota zeta.
    rewrite (proj2 (Nat.ltb_lt _ _) Hlen). cbv beta iota. rewrite (proj2 (Z.eqb_neq (sl_active l) 0)), (proj2 (Z.eqb_neq v 0)) by lia.
    change (false || false) with false. unfold checked_sub. rewrite (proj2 (Z.leb_le v (sl_active l))) by lia.
    change (default 0 (Some (sl_active l - v))) with (sl_active l - v). cbv beta iota.
    rewrite (proj2 (Z.ltb_ge _ _) Hmin). done.
  - done.
  - simpl. by rewrite stk_set_lock_lock, Z.eqb_refl.
  - unfold rebond. rewrite closed_run by done. open_call. rewrite Hl1. cbv beta iota zeta.
    assert (bool_decide (length (sl_unlocking l1) = O) = false) as -> by (apply bool_decide_eq_false_2; simpl; rewrite length_app; simpl; lia).
    change (negb false) with true. cbv beta iota. rewrite (proj2 (Z.leb_le _ (saturating_add _ _ _))) by (unfold saturating_add, MAX_BALANCE in *; simpl; lia).
    assert (ledger_rebond v l1 = l) as ->; [|done].
    unfold ledger_rebond, l1. cbn [sl_stash sl_total sl_active sl_unlocking]. rewrite rev_app_distr. simpl.
    unfold wrapping_sub, wrapping_add, MAX_BALANCE in *. rewrite !wrap_small by (unfold in_range; lia).
    rewrite (proj2 (Z.leb_le v (v - 0))), (proj2 (Z.leb_le v (0 + v))), rev_involutive by lia. destruct l; simpl. f_equal. lia.
  - simpl. destruct (bonds s) as [mb bo le va no]. unfold set_Ledger. simpl in *. f_equal. by rewrite insert_insert_eq, insert_id.
  - simpl. by rewrite stk_set_lock_lock, Z.eqb_refl.
Qed.

(** ** Cancelling deferred slashes *)

(** The entries of a list whose position, counted from [i], is not listed. *)
Fixpoint without_indices {A} (i : Z) (indices : list Z) (l : list A) : list A :=
  match l with
  | [] => []
  | x :: l => if bool_decide (i ∈ indices) then without_indices (i + 1) indices l else x :: without_indices (i + 1) indices l
  end.

Lemma without_indices_above {A} i ixs (l : list A) : Forall (fun j => i + Z.of_nat (length l) <= j) ixs -> without_indices i ixs l = l.
Proof.
  revert i. induction l as [|x l IH]; intros i Hall; simpl in *; [done|]. rewrite bool_decide_eq_false_2.
  - f_equal. apply IH. eapply Forall_impl; [exact Hall|]. simpl. lia.
  - intros Hin. apply (proj1 (Forall_forall _ _) Hall) in Hin. lia.
Qed.

Lemma without_indices_app {A} i ixs (l k : list A) :
  without_indices i ixs (l ++ k) = without_indices i ixs l ++ without_indices (i + Z.of_nat (length l)) ixs k.
Proof.
  revert i. induction l as [|x l IH]; intros i; simpl; [by rewrite Z.add_0_r|].
  rewrite IH. replace (i + 1 + Z.of_nat (length l)) with (i + Z.of_nat (S (length l))) by lia. by case_bool_decide.
Qed.

Lemma without_indices_skip {A} i j ixs (l : list A) : j < i -> without_indices i (j :: ixs) l = without_indices i ixs l.
Proof.
  revert i. induction l as [|x l IH]; intros i Hj; simpl; [done|]. rewrite IH by lia.
  assert (bool_decide (i ∈ j :: ixs) = bool_decide (i ∈ ixs)) as ->; [|done]. apply bool_decide_ext. rewrite elem_of_cons. naive_solver lia.
Qed.

Lemma sorted_unique_above i ixs : is_sorted_and_unique (i :: ixs) = true -> is_sorted_and_unique ixs = true /\ Forall (fun j => i < j) ixs.
Proof.
  revert i. induction ixs as [|j ixs IH]; intros i Hs; [by split|]. cbn [is_sorted_and_unique] in Hs.
  apply andb_true_iff in Hs as [Hij%Z.ltb_lt Hs]. split; [exact Hs|]. constructor; [done|].
  destruct (IH j Hs) as [_ Hall]. eapply Forall_impl; [exact Hall|]. simpl. lia.
Qed.

Lemma remove_indices_eq {A} k lo ixs (pre l : list A) : is_sorted_and_unique ixs = true -> Forall (fun j => lo <= j) ixs ->
  0 <= lo -> lo = Z.of_nat (length pre) + Z.of_nat k -> List.last ixs (lo - 1) < lo + Z.of_nat (length l) ->
  remove_indices k ixs (pre ++ l) = Some (pre ++ without_indices lo ixs l).
Proof.
  revert k lo pre l. induction ixs as [|i ixs IH]; intros k lo pre l Hs Hall H0 Hlo Hlast.
  { simpl. by rewrite without_indices_above. }
  apply sorted_unique_above in Hs as [Hs Habove]. apply Forall_cons in Hall as [Hi Hall].
  assert (Hlast' : i <= List.last (i :: ixs) (lo - 1)).
  { destruct ixs as [|j ixs]; [done|]. assert (Hin : List.last (i :: j :: ixs) (lo - 1) ∈ j :: ixs).
    { change (List.last (i :: j :: ixs) (lo - 1)) with (List.last (j :: ixs) (lo - 1)). apply list_elem_of_In.
      destruct (exists_last (l := j :: ixs)) as (l' & x & ->); [done|]. rewrite List.last_last. apply in_or_app. right. by left. }
    apply (proj1 (Forall_forall _ _) Habove) in Hin. lia. }
  set (n := Z.to_nat (i - lo)). destruct (lookup_lt_is_Some_2 l n) as [x Hx]; [lia|].
  rewrite <- (take_drop_middle l n x Hx) at 1 2. simpl.
  rewrite (proj2 (Nat.ltb_ge _ _)) by lia. rewrite (proj2 (Nat.leb_gt _ _)) by (rewrite !length_app; simpl; rewrite length_take, length_drop; lia). simpl.
  assert (Hn : length (take n l) = n) by (rewrite length_take; lia).
  replace (Z.to_nat i - k)%nat with (length (pre ++ take n l)) by (rewrite length_app, Hn; lia).
  rewrite app_assoc, delete_middle.
  rewrite (IH (S k) (i + 1)); [|done | eapply Forall_impl; [exact Habove|]; simpl; lia | lia | rewrite length_app, Hn; lia |].
  - f_equal. rewrite <- app_assoc. f_equal. rewrite without_indices_app, Hn. replace (lo + Z.of_nat n) with i by lia.
    rewrite (without_indices_above lo (i :: ixs) (take n l)).
    + apply (f_equal (app (take n l))). simpl. rewrite bool_decide_eq_true_2 by left. by rewrite without_indices_skip by lia.
    + rewrite Hn. constructor; [lia|]. eapply Forall_impl; [exact Habove|]. simpl. lia.
  - rewrite length_drop. destruct ixs as [|j ixs]; [simpl; lia|].
    change (List.last (i :: j :: ixs) (lo - 1)) with (List.last (j :: ixs) (lo - 1)) in Hlast.
    assert (Heq : forall d d', List.last (j :: ixs) d = List.last (j :: ixs) d').
    { intros d d'. destruct (exists_last (l := j :: ixs)) as (l' & y & ->); [done|]. by rewrite !List.last_last. }
    rewrite (Heq _ (lo - 1)). lia.
Qed.

(** [cancel_deferred_slash] by the root origin rejects empty, unsorted or
    out of range index lists without a write, never panics, and otherwise
    removes exactly the slashes at the listed positions of the era, in spite of
    removing them one after the other from a shrinking vector. *)
Theorem cancel_removes_listed s era indices : Forall (fun i => 0 <= i) indices ->
  let unapplied := sget [] era (UnappliedSlashes (slashes s)) in
  cancel_deferred_slash Root era indices s =
    if bool_decide (indices = []) then (Err (Staking StakingError.EmptyTargets), s)
    else if negb (is_sorted_and_unique indices) then (Err (Staking StakingError.NotSortedAndUnique), s)
    else if Z.of_nat (length unapplied) <=? List.last indices 0 then (Err (Staking StakingError.InvalidSlashIndex), s)
    else (Ok tt, on_slashes (set_UnappliedSlashes (insert era (without_indices 0 indices unapplied))) s).
Proof.
  intros Hpos unapplied. unfold cancel_deferred_slash. unfold bind at 1, ensure_root, ret at 1. open_call.
  case_bool_decide as Hne; [done|]. change (negb false) with true. cbv beta iota.
  destruct (is_sorted_and_unique indices) eqn:Hs; [|done]. cbv beta iota zeta. fold unapplied.
  assert (Hlast : 0 <= List.last indices 0).
  { destruct (exists_last Hne) as (l & x & ->). rewrite List.last_last. by apply Forall_app in Hpos as [_ [? _]%Forall_cons]. }
  destruct (Z.leb_spec (Z.of_nat (length unapplied)) (List.last indices 0)) as [Hle|Hlt].
  - by rewrite (proj2 (Nat.ltb_ge _ _)) by lia.
  - rewrite (proj2 (Nat.ltb_lt _ _)) by lia. cbv beta iota. change unapplied with ([] ++ unapplied) at 1.
    rewrite (remove_indices_eq 0 0); [done | done | done | done | done |].
    destruct (exists_last Hne) as (l & x & ->). rewrite !List.last_last in *. lia.
Qed.

(** ** Submitted solutions *)

(** What an assignment of the solution must be: a nominator votes for its own
    targets, none of them slashed since it nominated, and a validator votes for
    itself with everything. *)
Definition assignment_real s (a : Assignment) : Prop :=
  (exists n, Nominators (bonds s) !! as_who a = Some n /\ Validators (bonds s) !! as_who a = None /\
     Forall (fun p => p.1 ∈ targets n /\
       forall sp, StashSpans (slashes s) !! p.1 = Some sp -> last_nonzero_slash sp <= submitted_in n) (as_distribution a)) \/
  (Nominators (bonds s) !! as_who a = None /\ is_Some (Validators (bonds s) !! as_who a) /\
     as_distribution a = [(as_who a, offchain_accuracy_one)]).

Lemma ensure_Ok (b : bool) (e : DispatchError) s (s' : State W) u : ensure b e s = (Ok u, s') -> b = true /\ s' = s.
Proof. destruct b; [by intros [= _ <-] | done]. Qed.

Lemma bind_Ok {A B} (m : D (State W) A) (k : A -> D (State W) B) s b s' : bind m k s = (Ok b, s') ->
  exists a s1, m s = (Ok a, s1) /\ k a s1 = (Ok b, s').
Proof. unfold bind. destruct (m s) as [[a|e|] s1]; [|done..]. eauto. Qed.

Lemma reader_Ok {A} (m : D (State W) A) s a s' : reader m -> m s = (Ok a, s') -> s' = s.
Proof. intros Hm Hs. specialize (Hm s). by rewrite Hs in Hm. Qed.

Lemma check_edge_Ok n t s s' : check_edge n t s = (Ok tt, s') ->
  t ∈ targets n /\ forall sp, StashSpans (slashes s) !! t = Some sp -> last_nonzero_slash sp <= submitted_in n.
Proof.
  intros (u & s1 & [Ht%bool_decide_eq_true ->]%ensure_Ok & Hk)%bind_Ok. split; [done|]. rewrite run_gets in Hk.
  intros sp Hsp. rewrite Hsp in Hk. apply ensure_Ok in Hk as [Hk _]. apply negb_true_iff, Z.ltb_ge in Hk. lia.
Qed.

Lemma check_assignment_Ok a s s' : check_assignment a s = (Ok tt, s') -> assignment_real s a.
Proof.
  unfold check_assignment. rewrite run_gets. unfold assignment_real.
  destruct (Nominators (bonds s) !! as_who a) as [n|]; case_bool_decide as Hv; try done.
  - intros Hf. left. exists n. apply eq_None_not_Some in Hv. split_and!; [done | done|].
    apply for_each_check in Hf as [-> Hf]; [|by intros [t r]; apply reader_check_edge].
    apply Forall_forall. intros [t r] Hin. apply Hf in Hin. by apply check_edge_Ok in Hin.
  - intros Hd. right. split_and!; [done | done|]. destruct (as_distribution a) as [|[t r] [|? ?]]; [done | | done].
    apply bind_Ok in Hd as (u & s1 & [Ht%Z.eqb_eq ->]%ensure_Ok & [Hr%Z.eqb_eq _]%ensure_Ok). by subst.
Qed.

Lemma winners_at_Ok snapshot ixs s ws s' : winners_at snapshot ixs s = (Ok ws, s') ->
  Forall2 (fun i w => snapshot !! Z.to_nat i = Some w) ixs ws.
Proof.
  revert s ws s'. induction ixs as [|i ixs IH]; intros s ws s'; simpl; [by intros [= <- _]|].
  intros (w & s1 & Hw & (rest & s2 & Hr & [= <- _])%bind_Ok)%bind_Ok. unfold ok_or in Hw.
  destruct (snapshot !! Z.to_nat i) eqn:E; [|done]. injection Hw as -> <-. constructor; [done | by eapply IH].
Qed.

Lemma pre_dispatch_checks_Ok score era s s' : pre_dispatch_checks score era s = (Ok tt, s') ->
  is_open (EraElectionStatus (election s)) = true /\ (forall e, CurrentEra (eras s) = Some e -> e = era) /\
  (forall q, QueuedScore (election s) = Some q -> is_score_better score q MinSolutionScoreBump = true).
Proof.
  unfold pre_dispatch_checks. rewrite run_gets. intros (u & s1 & [Ho ->]%ensure_Ok & Hk)%bind_Ok. rewrite run_gets in Hk.
  apply bind_Ok in Hk as (u' & s1 & Hc & Hk). split_and!; [done | |].
  - intros e He. rewrite He in Hc. by apply ensure_Ok in Hc as [?%Z.eqb_eq _].
  - assert (s1 = s) as -> by (destruct (CurrentEra (eras s)); [by apply ensure_Ok in Hc as [_ ->] | by injection Hc as _ <-]).
    intros q Hq. rewrite run_gets, Hq in Hk. by apply ensure_Ok in Hk as [? _].
Qed.

(** C19: a solution that is accepted was submitted in the open window for the
    current era, beats the queued score by the required bump, names winners of
    the validator snapshot and as many as are wanted, consists only of votes
    the stakers cast and still stand by, and has exactly the claimed score; what
    is queued is this solution, and nothing else changes. *)
Theorem accepted_solution_sound s s' winners compact compute score era size :
  check_and_replace_solution winners compact compute score era size s = (Ok tt, s') ->
  is_open (EraElectionStatus (election s)) = true /\
  (forall e, CurrentEra (eras s) = Some e -> e = era) /\
  (forall q, QueuedScore (election s) = Some q -> is_score_better score q MinSolutionScoreBump = true) /\
  exists snapshot nominators elected assignments,
    SnapshotValidators (election s) = Some snapshot /\ SnapshotNominators (election s) = Some nominators /\
    wrap 32 (Z.of_nat (length winners)) = Z.min (ValidatorCount (eras s)) (wrap 32 (Z.of_nat (length snapshot))) /\
    Forall2 (fun i w => snapshot !! Z.to_nat i = Some w) winners elected /\
    into_assignment compact (fun i => nominators !! Z.to_nat i) (fun i => snapshot !! Z.to_nat i) = Some assignments /\
    Forall (assignment_real s) assignments /\
    let supports := to_supports (assignment_ratio_to_staked assignments (slashable_balance_of_fn s)) in
    evaluate supports = score /\
    s' = deposit_event (SolutionStored compute) (on_election (fun e =>
           set_QueuedScore (fun _ => Some score)
             (set_QueuedElected (fun _ => Some (mkElection elected (collect_exposures supports s) compute)) e)) s).
Proof.
  unfold check_and_replace_solution. intros ([] & s1 & Hpre & Hk)%bind_Ok.
  pose proof (reader_Ok _ _ _ _ (reader_pre_dispatch_checks score era) Hpre) as ->.
  apply pre_dispatch_checks_Ok in Hpre as (H1 & H2 & H3). split_and!; [done.. |].
  apply bind_Ok in Hk as (u & s1 & [_ ->]%ensure_Ok & Hk). rewrite run_gets in Hk.
  apply bind_Ok in Hk as (snapshot & s1 & Hsnap & Hk). destruct (SnapshotValidators (election s)) as [x|] eqn:Ev; [|done].
  injection Hsnap as -> <-. apply bind_Ok in Hk as (u' & s1 & [_ ->]%ensure_Ok & Hk). rewrite run_gets in Hk.
  apply bind_Ok in Hk as (u'' & s1 & [Hn%Z.eqb_eq ->]%ensure_Ok & Hk). rewrite run_gets in Hk.
  apply bind_Ok in Hk as (nominators & s1 & Hnom & Hk). destruct (SnapshotNominators (election s)) as [y|] eqn:En; [|done].
  injection Hnom as -> <-. apply bind_Ok in Hk as (u3 & s1 & [_ ->]%ensure_Ok & Hk).
  apply bind_Ok in Hk as (elected & s1 & Hw & Hk). pose proof (reader_Ok _ _ _ _ (reader_winners_at snapshot winners) Hw) as ->.
  apply bind_Ok in Hk as (assignments & s1 & Ha & Hk). destruct (into_assignment _ _ _) as [z|] eqn:Ei; [|done].
  injection Ha as -> <-. apply bind_Ok in Hk as ([] & s1 & Hf & Hk).
  apply for_each_check in Hf as [-> Hf]; [|intros a; apply reader_check_assignment]. rewrite run_gets in Hk.
  apply bind_Ok in Hk as (u4 & s1 & [Hsc%bool_decide_eq_true ->]%ensure_Ok & Hk). rewrite run_gets in Hk.
  exists snapshot, nominators, elected, assignments. split_and!; try done.
  - by eapply winners_at_Ok.
  - apply Forall_forall. intros a Hin%Hf. by apply check_assignment_Ok in Hin.
  - rewrite Hsc in Hk. by injection Hk as <-.
Qed.
End Props.
