(* ===== verification/StakingSessions.v ===== *)
(** * Staking: the era machine

    A session change ends the session, starts the next one and plans the one
    after it.  The current era is the active one or the next one, an era that
    ends is rewarded once, and the next one becomes active in the same change. *)

From S2P Require Import Prelude Support GenericAssetTypes Search StakingTypes SlashingSpans StakingState Staking StakingSlashing StakingEras StakingInv StakingOps StakingSlashOps StakingTheorems StakingProps.

Section Sessions.
Context {W : Type} {config : StakingConfig} {env : StakingEnv W} {perbill : PerbillOps} {npos : NposElections}.
Implicit Types s : State W.

(** What the session pallet calls when session [i] ends. *)
Definition rotate (i : SessionIndex) : D (State W) (option (list (AccountId * Exposure))) :=
  do* end_session i in
  do* start_session (i + 1) in
  historical_new_session (i + 2).

(** The part of the storage the machine is about. *)
Definition core s : option EraIndex * option EraIndex * gmap Z SessionIndex * Z :=
  (CurrentEra (eras s), ae_index <$> ActiveEra (eras s), ErasStartSessionIndex (eras s), HistoryDepth (eras s)).

Abbreviation core_kept := (fun m => forall k, preserves (E := DispatchError) (S := State W) (fun s => core s = k) m).

Lemma core_write_eras f : (forall e, CurrentEra (f e) = CurrentEra e) -> (forall e, ActiveEra (f e) = ActiveEra e) ->
  (forall e, ErasStartSessionIndex (f e) = ErasStartSessionIndex e) -> (forall e, HistoryDepth (f e) = HistoryDepth e) ->
  core_kept (write_eras f).
Proof. intros H1 H2 H3 H4 k s <-. unfold core. simpl. by rewrite H1, H2, H3, H4. Qed.

(** Everything but the writes of the four items keeps them. *)
Ltac keeps_core :=
  repeat first
    [ by apply preserves_reader
    | by apply core_write_eras
    | (let s := fresh "s" in let Hs := fresh "Hs" in intros s Hs; exact Hs)
    | apply preserves_bind; [|intros]
    | apply preserves_for_each; intros
    | case_match ].

Lemma core_do_slashes l payout imb : core_kept (do_slashes l payout imb).
Proof.
  intros k. revert payout imb. induction l as [|[stash v] l IH]; intros payout imb; [by apply preserves_reader|]. simpl.
  apply preserves_bind; [|intros [p i]; apply IH]. unfold do_slash.
  apply preserves_bind; [by apply preserves_reader|]. intros b. destruct (Bonded b !! stash) as [c|]; [|by apply preserves_reader].
  destruct (Ledger b !! c) as [led|]; [|by apply preserves_reader]. apply preserves_bind; [by apply preserves_reader|]. intros min.
  destruct (ledger_slash v min led) as [taken led']. apply preserves_if; [by apply preserves_reader|]. apply preserves_bind.
  - intros s Hs. unfold state. by destruct (stk_slash stash taken (world s)).
  - intros [im mi]. unfold update_ledger. keeps_core.
Qed.

Lemma core_apply_slash u : core_kept (apply_slash u).
Proof.
  intros k. unfold apply_slash. apply preserves_bind.
  { intros s Hs. unfold state. by destruct (stk_issue 0 (world s)). }
  intros i. apply preserves_bind; [apply core_do_slashes|]. intros [p j]. unfold pay_reporters. destruct (_ || _); [keeps_core|].
  destruct (ni_split _ _) as [x y]. apply preserves_if; [by apply preserves_reader|]. apply preserves_bind; [|intros; keeps_core].
  generalize (ni_amount x / wrap 32 (Z.of_nat (length (us_reporters u)))). revert x.
  induction (us_reporters u) as [|r l IH]; intros x per; simpl; [by apply preserves_reader|].
  destruct (ni_split x per). apply preserves_bind; [keeps_core | intros; apply IH].
Qed.

Lemma core_apply_unapplied a : core_kept (apply_unapplied_slashes a).
Proof.
  intros k. unfold apply_unapplied_slashes. apply preserves_bind; [by apply preserves_reader|].
  intros [e|]; [|by apply preserves_reader]. apply preserves_bind; [|intros; keeps_core]. apply preserves_for_each. intros era _.
  apply preserves_bind; [by apply preserves_reader|]. intros us. apply preserves_bind; [keeps_core|]. intros _.
  apply preserves_for_each. intros u _. apply core_apply_slash.
Qed.

Lemma core_select era : core_kept (select_and_update_validators era).
Proof.
  intros k. unfold select_and_update_validators, try_do_election, close_election_window, kill_stakers_snapshot.
  apply preserves_bind; [keeps_core|]. intros [r|]; [|by apply preserves_reader]. apply preserves_bind; [keeps_core|]. intros _.
  apply preserves_bind; [|intros; keeps_core]. generalize 0. induction (exposures r) as [|[stash e] l IH]; intros total; simpl;
    [by apply preserves_reader|]. apply preserves_bind; [keeps_core|]. intros _. apply preserves_bind; [keeps_core | intros; apply IH].
Qed.

Lemma core_bind_kept {A B} (m : D (State W) A) (k : A -> D (State W) B) s : (forall a, core_kept (k a)) ->
  core (bind m k s).2 = core (m s).2.
Proof. intros Hk. unfold bind. destruct (m s) as [[a|e|] s1]; [by apply Hk | done | done]. Qed.

(** ** Planning an era *)
Definition planned (c n : Z) (depth : Z) (starts : gmap Z SessionIndex) : gmap Z SessionIndex :=
  match checked_sub c (depth + 1) with Some old => delete old (<[c := n]> starts) | None => <[c := n]> starts end.

Lemma new_era_core n s c a starts depth : core s = (Some c, a, starts, depth) -> 0 <= c < umax ERA_BITS -> 0 <= depth < umax 32 ->
  core (new_era n s).2 = (Some (c + 1), a, planned (c + 1) n depth starts, depth).
Proof.
  intros Hc Hr Hd. unfold core in Hc. injection Hc as H1 H2 H3 H4. unfold new_era, write_eras at 1. rewrite run_modify.
  rewrite run_gets. simpl. rewrite H1. simpl. unfold wrapping_add at 1. rewrite (wrap_small _ (c + 1)) by (unfold in_range; lia).
  unfold write_eras at 1. rewrite run_modify, run_gets. simpl. rewrite H4.
  unfold wrapping_add. rewrite (wrap_small 32 (depth + 1)) by (unfold in_range; lia). unfold planned.
  rewrite core_bind_kept by (intros; apply core_select).
  rewrite (wrap_small ERA_BITS (c + 1)) by (unfold in_range; lia).
  destruct (checked_sub (c + 1) (depth + 1)) as [old|]; unfold core; simpl; rewrite ?H1, ?H2, ?H3, ?H4; simpl;
    unfold wrapping_add; rewrite (wrap_small _ (c + 1)) by (unfold in_range; lia); done.
Qed.

(** From one core a call leads to this core or to another one. *)
Section Advance.
Context (k0 k1 : option EraIndex * option EraIndex * gmap Z SessionIndex * Z).

Definition advances {A} (m : D (State W) A) : Prop := forall s, core s = k0 -> core (m s).2 = k0 \/ core (m s).2 = k1.

Lemma advances_kept {A} (m : D (State W) A) : core_kept m -> advances m.
Proof. intros Hm s Hs. left. by apply Hm. Qed.

Lemma advances_then {A B} (m : D (State W) A) (k : A -> D (State W) B) : core_kept m -> (forall a, advances (k a)) -> advances (bind m k).
Proof.
  intros Hm Hk s Hs. specialize (Hm k0 s Hs). unfold bind. destruct (m s) as [[a|e|] s1]; [by apply Hk | by left | by left].
Qed.
End Advance.

Lemma new_session_core n s c a starts depth : core s = (Some c, a, starts, depth) -> 0 <= c < umax ERA_BITS -> 0 <= depth < umax 32 ->
  core (new_session n s).2 = core s \/ core (new_session n s).2 = (Some (c + 1), a, planned (c + 1) n depth starts, depth).
Proof.
  intros Hc Hr Hd. rewrite Hc. set (k1 := (Some (c + 1), _, _, _)).
  assert (Hnew : advances (Some c, a, starts, depth) k1 (new_era n)) by (intros s1 Hs1; right; by apply new_era_core).
  cut (advances (Some c, a, starts, depth) k1 (new_session n)); [intros Ha; by apply Ha|]. unfold new_session.
  apply advances_then; [intros k; by apply preserves_reader|]. intros e. destruct (CurrentEra e); [|done].
  repeat first [ exact Hnew | apply advances_then; [intros k; keeps_core|intros] | apply advances_kept; intros k;
    unfold close_election_window, kill_stakers_snapshot; solve [keeps_core] | case_match ].
Qed.

Lemma historical_core n s c a starts depth : core s = (Some c, a, starts, depth) -> 0 <= c < umax ERA_BITS -> 0 <= depth < umax 32 ->
  core (historical_new_session n s).2 = core s \/
  core (historical_new_session n s).2 = (Some (c + 1), a, planned (c + 1) n depth starts, depth).
Proof.
  intros Hc Hr Hd. unfold historical_new_session. rewrite core_bind_kept; [by apply new_session_core|].
  intros [vs|] k; by apply preserves_reader.
Qed.

(** ** Starting and ending *)
Definition starts_now (n : SessionIndex) (start : option SessionIndex) : bool :=
  match start with Some x => x <=? n | None => false end.

Lemma start_era_core n s c a starts depth : core s = (c, Some a, starts, depth) -> 0 <= a < umax ERA_BITS ->
  core (start_era n s).2 = (c, Some (a + 1), starts, depth).
Proof.
  intros Hc Hr. unfold core in Hc. injection Hc as H1 H2 H3 H4. unfold start_era. rewrite run_gets.
  destruct (ActiveEra (eras s)) as [info|] eqn:Ea; [|done]. injection H2 as H2. unfold wrapping_add.
  rewrite H2, (wrap_small _ (a + 1)) by (unfold in_range; lia). unfold write_eras. rewrite run_modify.
  match goal with |- core (?m ?s1).2 = _ =>
    assert (Hm : preserves (fun s => core s = core s1) m); [|rewrite (Hm s1 eq_refl); unfold core; simpl; by rewrite H1, H3, H4] end.
  apply preserves_bind; [by apply preserves_reader|]. intros bonded. apply preserves_bind; [|intros; apply core_apply_unapplied].
  apply preserves_if; [|keeps_core]. apply preserves_bind; [|intros; keeps_core]. apply preserves_for_each. intros [era ses] _.
  unfold clear_era_metadata. keeps_core.
Qed.

Lemma start_session_core n s c a starts depth : core s = (c, Some a, starts, depth) -> 0 <= a < umax ERA_BITS ->
  core (start_session n s).2 = (c, Some (if starts_now n (starts !! (a + 1)) then a + 1 else a), starts, depth).
Proof.
  intros Hc Hr. unfold start_session. rewrite run_gets, core_bind_kept.
  2: { intros u k. apply preserves_bind; [by apply preserves_reader|]. intros o. apply preserves_for_each. intros [i b] _. keeps_core. }
  pose proof Hc as Hc'. unfold core in Hc'. injection Hc' as H1 H2 H3 H4.
  destruct (ActiveEra (eras s)) as [info|] eqn:Ea; [|done]. injection H2 as H2. unfold wrapping_add.
  rewrite H2, H3, (wrap_small _ (a + 1)) by (unfold in_range; lia). unfold starts_now.
  destruct (starts !! (a + 1)) as [x|]; [|done]. destruct (x <=? n); [by apply start_era_core | done].
Qed.

(** What the rewards pallet is told at the end of an era. *)
Definition reward_era (info : ActiveEraInfo) s : option W :=
  stk_on_end_era (fst <$> storage_order _ (dprefix (ae_index info) (ErasValidatorPrefs (eras s)))) (ae_index info)
    (wrapping_sub 64 (now_as_millis s) (default 0 (ae_start info))) (WasEndEraForced (eras s)) (world s).

Lemma end_session_eq i s info : ActiveEra (eras s) = Some info -> 0 <= ae_index info < umax ERA_BITS -> in_range 32 (i + 1) ->
  end_session i s =
    if bool_decide (ErasStartSessionIndex (eras s) !! (ae_index info + 1) = Some (i + 1)) then
      match reward_era info s with
      | Some w => (Ok tt, on_slashes (set_OffendingValidators (fun _ => [])) (on_world (fun _ => w)
                            (on_eras (set_WasEndEraForced (fun _ => false)) s)))
      | None => (Panic, on_eras (set_WasEndEraForced (fun _ => false)) s)
      end
    else (Ok tt, s).
Proof.
  intros Ha Hr Hi. unfold end_session. rewrite run_gets, Ha. unfold wrapping_add. rewrite !wrap_small by (done || unfold in_range; lia).
  destruct (_ !! (ae_index info + 1)) as [x|]; [|done]. destruct (Z.eqb_spec x (i + 1)) as [->|Hne].
  - rewrite bool_decide_eq_true_2 by done. unfold end_era, reward_era. rewrite !run_gets. unfold write_eras. rewrite run_modify, run_gets.
    simpl. by destruct (stk_on_end_era _ _ _ _ _).
  - by rewrite bool_decide_eq_false_2 by congruence.
Qed.

(** The era machine in session [i]: at most one era is planned ahead, and it
    starts with the next session. *)
Definition eras_ok (i : SessionIndex) s : Prop :=
  match core s with
  | (Some c, Some a, starts, depth) =>
      0 <= a <= c /\ c <= a + 1 /\ 0 <= depth < umax 32 /\ (forall e, c < e -> starts !! e = None) /\
      (c = a + 1 -> starts !! c = Some (i + 1))
  | _ => False
  end.

(** C17: at every session change the current era is the active era or the one
    after it.  If an era was planned, the active era is rewarded, once, and the
    planned one becomes active; otherwise ending the session does nothing and
    the active era stays. *)
Theorem era_machine i s r s' info : eras_ok i s -> ActiveEra (eras s) = Some info -> in_range 32 (i + 1) ->
  default 0 (CurrentEra (eras s)) < umax ERA_BITS -> rotate i s = (Ok r, s') ->
  eras_ok (i + 1) s' /\
  if bool_decide (CurrentEra (eras s) = Some (ae_index info + 1)) then
    reward_era info s = Some (world (end_session i s).2) /\ ae_index <$> ActiveEra (eras s') = Some (ae_index info + 1)
  else end_session i s = (Ok tt, s) /\ ae_index <$> ActiveEra (eras s') = Some (ae_index info).
Proof.
  intros Hok Ha Hi Hcur Hrot. unfold eras_ok in Hok. destruct (core s) as [[[[c|] [a|]] starts] depth] eqn:Hc; try done.
  destruct Hok as (Hac & Hca & Hd & Hfree & Hplan). pose proof Hc as Hc'. unfold core in Hc'. injection Hc' as H1 H2 H3 H4.
  rewrite Ha in H2. injection H2 as H2. rewrite H1 in *. simpl in Hcur.
  assert (Hstart : starts !! (a + 1) = if bool_decide (c = a + 1) then Some (i + 1) else None).
  { case_bool_decide as E; [by rewrite <- E, Hplan | apply Hfree; lia]. }
  pose proof (end_session_eq i s info Ha ltac:(lia) Hi) as Hend. rewrite H3, H2, Hstart in Hend.
  assert (Hbool : bool_decide (Some c = Some (ae_index info + 1)) = bool_decide (c = a + 1)).
  { rewrite H2. apply bool_decide_ext. split; congruence. }
  rewrite Hbool. unfold rotate in Hrot. apply bind_Ok in Hrot as ([] & s1 & He & Hrot). rewrite He in Hend |- *.
  assert (Hc1 : core s1 = (Some c, Some a, starts, depth)).
  { rewrite <- Hc. repeat case_match; by simplify_eq/=. }
  apply bind_Ok in Hrot as ([] & s2 & Hst & Hnew). pose proof (start_session_core (i + 1) s1 _ _ _ _ Hc1 ltac:(lia)) as Hc2.
  rewrite Hst, Hstart in Hc2. simpl in Hc2.
  set (a' := if bool_decide (c = a + 1) then a + 1 else a).
  assert (Hc2' : core s2 = (Some c, Some a', starts, depth)).
  { rewrite Hc2. unfold a'. case_bool_decide; simpl; [by rewrite Z.leb_refl | done]. }
  pose proof (historical_core (i + 2) s2 _ _ _ _ Hc2' ltac:(lia) Hd) as Hc3. rewrite Hnew in Hc3. simpl in Hc3.
  assert (Haa : c = a' /\ a <= a') by (unfold a'; case_bool_decide; lia). split.
  - unfold eras_ok. destruct Hc3 as [-> | ->]; [rewrite Hc2'; split_and!; try done; lia|]. split_and!; try done; try lia.
    + intros e He'. unfold planned. destruct (checked_sub _ _); rewrite ?lookup_delete_None, lookup_insert_ne by lia; [right|]; apply Hfree; lia.
    + intros _. unfold planned. destruct (checked_sub (c + 1) (depth + 1)) eqn:Eo; [|rewrite lookup_insert_eq; f_equal; lia].
      bool_to_prop. rewrite lookup_delete_ne, lookup_insert_eq by lia. f_equal. lia.
  - assert (Hact : ae_index <$> ActiveEra (eras s') = Some a').
    { destruct Hc3 as [Hc3|Hc3]; [rewrite Hc2' in Hc3|]; unfold core in Hc3; by injection Hc3. }
    rewrite Hact. unfold a'. revert Hend. rewrite H2. case_bool_decide as E; intros Hend.
    + rewrite bool_decide_eq_true_2 in Hend by done. destruct (reward_era info s) as [w|]; by simplify_eq/=.
    + rewrite bool_decide_eq_false_2 in Hend by done. by simplify_eq.
Qed.
End Sessions.

(** * Staking: what a span costs

    A stash reported several times for eras of one slashing span is charged
    the largest of the slashes only, however the reports are ordered and
    however its spans end and are pruned in between. *)


Section Spans.
Context {W : Type} {config : StakingConfig} {env : StakingEnv W} {perbill : PerbillOps} {perbill_law : PerbillLaws}.
Implicit Types s : State W.
Variable stash : AccountId.
Variable proportion : Perbill.
Hypothesis Hproportion : 0 <= proportion <= PERBILL_ONE.

(** What [compute_slash] and its loop over the nominators do to the spans of one
    stash: the amount it is charged. *)
Definition report (window now era : EraIndex) (slash : Balance) : D (State W) Balance :=
  let* spans := fetch_spans stash window 0 0 in
  let* '(target_span, spans) := compare_and_update_span_slash stash proportion era slash spans in
  let spans := if bool_decide (target_span = Some (span_index (in_spans spans))) then inspect_end_span now spans else spans in
  do* drop_spans stash window spans in
  ret (in_slash_of spans).

(** Well-formed spans whose index can still grow. *)
Definition spans_fine (sp : SlashingSpans) : Prop := spans_ok sp /\ span_index sp <= last_start sp.

Definition span_of (sp : SlashingSpans) (era : EraIndex) : option SpanIndex := span_idx <$> era_span sp era.

Definition record_of (k : SpanIndex) s : SpanRecord := sget SpanRecord_default (stash, k) (SpanSlash (slashes s)).

Lemma span_of_nonzero sp n : span_of (mkSpans (span_index sp) (last_start sp) n (prior sp)) = span_of sp.
Proof. done. Qed.

Lemma end_span_fine now sp : spans_fine sp -> 0 <= now < umax ERA_BITS ->
  spans_fine (spans_end_span now sp).2 /\ forall e, e <= now -> span_of (spans_end_span now sp).2 e = span_of sp e.
Proof.
  intros [Hok Hi] Hn. unfold spans_end_span. destruct (_ <=? last_start sp) eqn:E; [done|].
  unfold wrapping_add in E. rewrite wrap_small in E by (unfold in_range; lia). apply Z.leb_gt in E.
  assert (Hx : span_index sp < umax ERA_BITS) by lia. split.
  - pose proof (end_span_ok now sp Hok Hn Hx) as Hok'. rewrite end_span_eq, (proj2 (Z.leb_gt _ _) E) in Hok' by done.
    unfold wrapping_sub, wrapping_add. pose proof (zsum_nonneg _ (so_lengths _ Hok)). destruct Hok as [_ ? ? ?].
    rewrite !wrap_small by (unfold in_range; lia). split; [done | simpl; lia].
  - intros e He. pose proof (end_span_keeps now sp e Hok Hn Hx He) as Hk. unfold spans_end_span in Hk.
    unfold wrapping_add at 1 in Hk. rewrite (wrap_small _ (now + 1)) in Hk by (unfold in_range; lia).
    by rewrite (proj2 (Z.leb_gt _ _) E) in Hk.
Qed.

(** Pruning keeps the span of every era in the window, and its record. *)
Lemma pruned_above window sp e k o : spans_ok sp -> 0 <= window <= umax ERA_BITS -> window <= e -> span_of sp e = Some k ->
  prior (prune window sp).2 = take o (prior sp) -> span_index (prune window sp).2 = span_index sp ->
  span_index sp - Z.of_nat o <= k.
Proof.
  intros Hok Hw He Hk Hp Hi. pose proof (prune_keeps window sp e Hok Hw He) as Hkeep. unfold span_of in Hk. rewrite Hk in Hkeep.
  destruct (era_span (prune window sp).2 e) as [span|] eqn:Es; [|done]. injection Hkeep as Hkeep.
  apply era_span_in in Es as [[Hix _]|(j & len & Hj & Hix & _)]; [lia | | by apply prune_ok; [|lia]].
  rewrite Hp in Hj. apply lookup_lt_Some in Hj. rewrite length_take in Hj. lia.
Qed.

Lemma delete_records_other (l : list Z) k s : k ∉ l ->
  let s' := foldl (fun s i => on_slashes (set_SpanSlash (delete (stash, i))) s) s l in
  record_of k s' = record_of k s /\ StashSpans (slashes s') = StashSpans (slashes s).
Proof.
  revert s. induction l as [|i l IH]; intros s Hk; [done|]. apply not_elem_of_cons in Hk as [Hki Hk].
  destruct (IH (on_slashes (set_SpanSlash (delete (stash, i))) s) Hk) as [H1 H2]. simpl. rewrite H1, H2. split; [|done].
  unfold record_of, sget. simpl. rewrite lookup_delete_ne; [done | congruence].
Qed.

Lemma drop_spans_spec window i e k s : spans_fine (in_spans i) -> 0 <= window <= umax ERA_BITS -> window <= e ->
  span_of (in_spans i) e = Some k -> (in_dirty i = false -> StashSpans (slashes s) !! stash = Some (in_spans i)) ->
  exists sp s', drop_spans stash window i s = (Ok tt, s') /\ StashSpans (slashes s') !! stash = Some sp /\ spans_fine sp /\
    (forall e', window <= e' -> span_of sp e' = span_of (in_spans i) e') /\ record_of k s' = record_of k s.
Proof.
  intros [Hok Hi] Hw He Hk Hclean. unfold drop_spans. destruct (in_dirty i) eqn:Hd; [|by exists (in_spans i), s; split_and!; [|apply Hclean|split|..]].
  destruct (prune_cut window (in_spans i) Hok) as (o & Ho & Hp & Hx & Hl & _ & _ & _ & Hr).
  pose proof (prune_ok window (in_spans i) Hok ltac:(lia)) as Hok'.
  pose proof (fun e' => prune_keeps window (in_spans i) e' Hok Hw) as Hkeep.
  pose proof (pruned_above window (in_spans i) e k o Hok Hw He Hk Hp Hx) as Habove.
  destruct (prune window (in_spans i)) as [pruned sp]. simpl in *. exists sp.
  assert (Hdel : exists s1, match pruned with
      | Some (start, end_) => for_each (seqZ start (end_ - start)) (fun ix => write_slashes (set_SpanSlash (delete (stash, ix))))
      | None => ret tt end s = (Ok tt, s1) /\ record_of k s1 = record_of k s).
  { rewrite Hr. destruct (_ <? _)%nat; [|by eexists]. unfold write_slashes.
    rewrite (for_each_modify (fun ix => on_slashes (set_SpanSlash (delete (stash, ix))))). eexists. split; [done|].
    apply delete_records_other. rewrite elem_of_seqZ. lia. }
  destruct Hdel as (s1 & Hs1 & Hrec). eexists. split; [unfold bind; rewrite Hs1; done|]. simpl. rewrite lookup_insert_eq.
  split_and!; [done | split; [done | lia] | exact Hkeep | exact Hrec].
Qed.

(** The record of a span: what was charged and what was paid to reporters. *)
Definition record_ok (r : SpanRecord) : Prop := 0 <= sr_slashed r /\ in_range BALANCE_BITS (sr_paid_out r).

Lemma span_reward_range slash r : 0 <= slash -> 0 <= sr_paid_out r ->
  0 <= span_reward proportion slash r <= saturating_sub (perbill_mul proportion slash) (sr_paid_out r).
Proof.
  intros Hs Hp. unfold span_reward. apply perbill_mul_range; [by apply perbill_from_percent_range|].
  unfold saturating_sub. lia.
Qed.

(** The record after a report of [slash]. *)
Definition next_record (slash : Balance) (r : SpanRecord) : SpanRecord :=
  if sr_slashed r <=? slash
  then mkSpanRecord slash (sr_paid_out r + span_reward proportion slash r)
  else r.

Lemma next_record_ok slash r : record_ok r -> in_range BALANCE_BITS slash -> let r' := next_record slash r in
  record_ok r' /\ sr_slashed r' = Z.max (sr_slashed r) slash /\ sr_paid_out r <= sr_paid_out r' /\
  sr_paid_out r' <= Z.max (sr_paid_out r) (perbill_mul proportion slash).
Proof.
  intros [Hr [Hp Hp']] [Hs Hs']. pose proof (span_reward_range slash r Hs Hp) as Hrew. pose proof (perbill_mul_range proportion slash Hproportion Hs).
  unfold next_record, saturating_sub in *. destruct (Z.leb_spec (sr_slashed r) slash); cbv zeta; simpl; [|split_and!; (done || lia)].
  split_and!; try lia. unfold record_ok, in_range. simpl. lia.
Qed.

Lemma compare_update_spec era slash i k s : spans_fine (in_spans i) -> span_of (in_spans i) era = Some k ->
  record_ok (record_of k s) -> in_range BALANCE_BITS slash -> in_slash_of i = 0 ->
  (in_dirty i = false -> StashSpans (slashes s) !! stash = Some (in_spans i)) ->
  exists i' s', compare_and_update_span_slash stash proportion era slash i s = (Ok (Some k, i'), s') /\
    in_slash_of i' = Z.max 0 (slash - sr_slashed (record_of k s)) /\ spans_fine (in_spans i') /\
    span_of (in_spans i') = span_of (in_spans i) /\ record_of k s' = next_record slash (record_of k s) /\
    (in_dirty i' = false -> StashSpans (slashes s') !! stash = Some (in_spans i')).
Proof.
  intros [[H1 H2 H3 H4] Hi] Hk Hrec Hslash Hz Hclean. unfold span_of in Hk. unfold compare_and_update_span_slash.
  destruct (era_span (in_spans i) era) as [span|] eqn:Es; [|done]. injection Hk as <-. rewrite run_gets. cbv zeta.
  fold (record_of (span_idx span) s). set (r := record_of (span_idx span) s) in *.
  pose proof (next_record_ok slash r Hrec Hslash) as (Hrec' & _ & _ & Hpaid). destruct Hrec as [Hr [Hp Hp']]. destruct Hslash as [Hs Hs'].
  pose proof (span_reward_range slash r Hs Hp) as Hrew. pose proof (perbill_mul_range proportion slash Hproportion Hs) as Hpm.
  assert (Hadd : wrapping_add BALANCE_BITS (sr_paid_out r) (span_reward proportion slash r) = sr_paid_out r + span_reward proportion slash r).
  { apply wrap_small. unfold in_range, saturating_sub in *. lia. }
  assert (Hcharge : slash - sr_slashed r >= 0 -> wrapping_add BALANCE_BITS (in_slash_of i) (slash - sr_slashed r) = Z.max 0 (slash - sr_slashed r)).
  { intros Hge. rewrite Hz. unfold wrapping_add. rewrite wrap_small; unfold in_range; lia. }
  assert (Hins : forall s x, record_of (span_idx span) (on_slashes (set_SpanSlash (insert (stash, span_idx span) x)) s) = x).
  { intros s0 x. unfold record_of, sget. simpl. by rewrite lookup_insert_eq. }
  unfold next_record in *. destruct (Z.ltb_spec (sr_slashed r) slash) as [Hlt|Hge].
  - rewrite (proj2 (Z.leb_le _ _)) in Hpaid, Hrec' |- * by lia. destruct (Z.eqb_spec (span_reward proportion slash r) 0) as [E|E];
      (eexists _, _; split; [done|]; simpl; rewrite Hcharge by lia; rewrite ?Hins; simpl; rewrite ?Hadd, ?E, ?Z.add_0_r; split_and!; try done; by split).
  - destruct (Z.eqb_spec (sr_slashed r) slash) as [Heq|Hne].
    + rewrite (proj2 (Z.leb_le _ _)) in Hpaid, Hrec' |- * by lia. destruct (Z.eqb_spec (span_reward proportion slash r) 0) as [E|E].
      * eexists _, _. split; [done|]. rewrite Hz, E, Z.add_0_r, <- Heq. fold r. split_and!; try done; [lia | by destruct r].
      * eexists _, _. split; [done|]. simpl. rewrite Hz, Hins. simpl. rewrite Hadd, <- Heq. split_and!; try done. lia.
    + rewrite (proj2 (Z.leb_gt _ _)) by lia. eexists _, _. split; [done|]. simpl. fold r. rewrite Hz. split_and!; try done; lia.
Qed.

(** One report on a stash with recorded spans. *)
Lemma report_spec window now era slash sp k s : StashSpans (slashes s) !! stash = Some sp -> spans_fine sp ->
  0 <= window <= era -> era <= now < umax ERA_BITS -> span_of sp era = Some k -> record_ok (record_of k s) ->
  in_range BALANCE_BITS slash ->
  exists sp' s', report window now era slash s = (Ok (Z.max 0 (slash - sr_slashed (record_of k s))), s') /\
    StashSpans (slashes s') !! stash = Some sp' /\ spans_fine sp' /\
    (forall e, window <= e <= now -> span_of sp' e = span_of sp e) /\
    record_of k s' = next_record slash (record_of k s).
Proof.
  intros Hsp Hfine Hw Hn Hk Hrec Hslash. unfold report, fetch_spans, bind at 1, bind at 1, gets. rewrite Hsp. cbv beta iota. unfold ret at 1.
  destruct (compare_update_spec era slash (mkInspecting false sp 0 0) k s) as (i & s1 & Hcmp & Hcharge & Hf1 & Hsp1 & Hr1 & Hc1); try done.
  unfold bind at 1. rewrite Hcmp. set (i' := if bool_decide _ then inspect_end_span now i else i).
  assert (Hi' : spans_fine (in_spans i') /\ in_slash_of i' = in_slash_of i /\ (forall e, e <= now -> span_of (in_spans i') e = span_of sp e) /\
    (in_dirty i' = false -> StashSpans (slashes s1) !! stash = Some (in_spans i'))).
  { destruct (end_span_fine now (in_spans i) Hf1 ltac:(lia)) as [He1 He2]. unfold i'. case_bool_decide; [|rewrite Hsp1; done].
    unfold inspect_end_span. unfold spans_end_span in *. destruct (_ <=? last_start (in_spans i)) eqn:E; simpl in *; split_and!; try done;
      intros e He; (etransitivity; [by apply He2 | by rewrite Hsp1]). }
  destruct Hi' as (Hf' & Hs' & Hsp' & Hc'). 
  destruct (drop_spans_spec window i' era k s1) as (sp2 & s2 & Hdrop & Hst & Hf2 & Hkeep & Hr2); try done; [lia | lia | by rewrite Hsp' by lia |].
  exists sp2, s2. unfold bind. rewrite Hdrop. unfold ret. rewrite Hs', Hcharge, Hr2, Hr1. split_and!; try done.
  intros e He. by rewrite Hkeep, Hsp' by lia.
Qed.

(** ** A sequence of reports *)
Record Report := mkReport { rp_window : EraIndex; rp_now : EraIndex; rp_era : EraIndex; rp_slash : Balance }.

(** The charges of the reports, in order. *)
Fixpoint reports (l : list Report) : D (State W) (list Balance) :=
  match l with
  | [] => ret []
  | r :: l =>
      let* charge := report (rp_window r) (rp_now r) (rp_era r) (rp_slash r) in
      let* charges := reports l in
      ret (charge :: charges)
  end.

Definition largest (l : list Report) (x : Balance) : Balance := foldr (fun r m => Z.max (rp_slash r) m) x l.

(** Reports on eras of one span, all of them within every window. *)
Record reports_ok (k : SpanIndex) (sp : SlashingSpans) (l : list Report) : Prop := {
  ro_ranges : Forall (fun r => 0 <= rp_window r /\ rp_now r < umax ERA_BITS /\ in_range BALANCE_BITS (rp_slash r)) l;
  ro_window : forall r r', r ∈ l -> r' ∈ l -> rp_window r <= rp_era r' <= rp_now r;
  ro_span : Forall (fun r => span_of sp (rp_era r) = Some k) l;
}.

Lemma largest_max l x y : largest l (Z.max x y) = Z.max y (largest l x).
Proof. unfold largest. induction l as [|r l IH]; simpl; [lia|]. rewrite IH. lia. Qed.

Lemma foldr_max_le {A} (f : A -> Z) (l : list A) x y m : x <= Z.max y m ->
  foldr (fun a n => Z.max (f a) n) x l <= Z.max m (foldr (fun a n => Z.max (f a) n) y l).
Proof. intros Hx. induction l as [|a l IH]; simpl; lia. Qed.

(** C6: over any sequence of reports on one stash for eras of one slashing
    span, the charges add up to the largest slash beyond what the span had
    already been charged, whatever the order; the span record holds this
    maximum, and what reporters are paid from the span never exceeds their
    proportion of the slashes. *)
Theorem span_charged_maximum k sp s l : StashSpans (slashes s) !! stash = Some sp -> spans_fine sp ->
  record_ok (record_of k s) -> reports_ok k sp l ->
  exists charges s', reports l s = (Ok charges, s') /\
    zsum charges = largest l (sr_slashed (record_of k s)) - sr_slashed (record_of k s) /\
    sr_slashed (record_of k s') = largest l (sr_slashed (record_of k s)) /\
    sr_paid_out (record_of k s) <= sr_paid_out (record_of k s') <=
      foldr (fun r m => Z.max (perbill_mul proportion (rp_slash r)) m) (sr_paid_out (record_of k s)) l.
Proof.
  revert sp s. induction l as [|r l IH]; intros sp s Hsp Hfine Hrec [Hran Hwin Hspan].
  { exists [], s. simpl. split_and!; (done || lia). }
  apply Forall_cons in Hran as [(Hw & Hn & Hs) Hran]. apply Forall_cons in Hspan as [Hk Hspan].
  pose proof (Hwin r r ltac:(left) ltac:(left)) as Hr.
  destruct (report_spec (rp_window r) (rp_now r) (rp_era r) (rp_slash r) sp k s) as (sp1 & s1 & Hrep & Hsp1 & Hf1 & Hkeep & Hr1); try done; try lia.
  destruct (next_record_ok (rp_slash r) (record_of k s) Hrec Hs) as (Hrec1 & Hmax & Hpaid1 & Hpaid2). rewrite <- Hr1 in *.
  destruct (IH sp1 s1 Hsp1 Hf1 Hrec1) as (charges & s2 & Hreps & Hsum & Hfin & Hp1 & Hp2).
  { split; [done | intros x y Hx Hy; apply Hwin; by right |]. apply Forall_forall. intros x Hx.
    rewrite Hkeep by (apply Hwin; [left | by right]). by apply (proj1 (Forall_forall _ _) Hspan). }
  exists (Z.max 0 (rp_slash r - sr_slashed (record_of k s)) :: charges), s2. simpl. unfold bind. rewrite Hrep, Hreps.
  rewrite Hmax, largest_max in *. split_and!; [done | simpl; lia | lia | lia|].
  etransitivity; [exact Hp2 | by apply foldr_max_le].
Qed.
End Spans.
