(* ===== verification/StakingRuntime.v ===== *)
(** * Staking in the runtime

    The pallet on top of the generic asset ledger and the rewards pallet, as
    [src/runtime/src/lib.rs] and [src/runtime/src/impls.rs] wire them: the
    staked currency is the staking asset, rewards are paid in the spending
    asset, slashed funds go to the treasury.  The laws of [StakingEnvLaws] hold
    for this world. *)

From S2P Require Import Prelude Support GenericAssetTypes GenericAsset GenericAssetProps GenericAssetInv GenericAssetAuth StakingTypes SlashingSpans StakingState StakingRewards StakingInv.

(** [SpendingAssetCurrency] as the currency of rewards. *)
#[export] Instance ga_reward_currency `{GaConfig} : RewardCurrency GenericAsset.State := {|
  rc_total_issuance l := total_issuance (spending_asset_id l) l;
  rc_deposit_creating := ac_deposit_creating spending_asset_id;
  rc_burn := ac_burn spending_asset_id;
  rc_drop_positive := drop_positive;
|}.

Section World.
Context `{GaConfig} {rewards_config : RewardsConfig} {perbill : PerbillOps} {fixed : FixedU128Ops}.

(** The rewards pallet with the ledger, what the session pallet knows, the
    clock and the estimate of the next session. *)
Record World := mkWorld {
  wd_rewards : StakingRewards.State GenericAsset.State;
  wd_validators : list AccountId;
  wd_disabled : list Z;
  wd_pruned_up_to : SessionIndex;
  wd_millis : Z;
  wd_next_session : BlockNumber -> option BlockNumber;
}.

Definition wd_ledger (w : World) : GenericAsset.State := ledger (wd_rewards w).

Definition on_wd_rewards (f : StakingRewards.State GenericAsset.State -> StakingRewards.State GenericAsset.State) (w : World) : World :=
  mkWorld (f (wd_rewards w)) (wd_validators w) (wd_disabled w) (wd_pruned_up_to w) (wd_millis w) (wd_next_session w).

Definition on_wd_ledger (f : GenericAsset.State -> GenericAsset.State) : World -> World := on_wd_rewards (on_ledger f).

(** [Currency::resolve_creating]: a deposit that cancels the imbalance. *)
Definition resolve_creating (who : AccountId) (i : NegativeImbalance) (s : GenericAsset.State) : GenericAsset.State :=
  let '(p, s1) := ac_deposit_creating staking_asset_id who (ni_amount i) s in
  match ni_offset i p with Same n => drop_negative n s1 | Other p => drop_positive p s1 end.

(** [SlashFundsToTreasury] *)
Definition slash_funds_to_treasury (i : NegativeImbalance) (s : GenericAsset.State) : GenericAsset.State :=
  match ni_drop_zero i with
  | inl _ => drop_negative i s
  | inr i => resolve_creating treasury_account i s
  end.

#[export] Instance runtime_staking_env : StakingEnv World := {|
  stk_free_balance who w := free_balance (staking_asset_id (wd_ledger w)) who (wd_ledger w);
  stk_total_balance who w := total_balance (staking_asset_id (wd_ledger w)) who (wd_ledger w);
  stk_minimum_balance w := minimum_balance (staking_asset_id (wd_ledger w)) (wd_ledger w);
  stk_total_issuance w := total_issuance (staking_asset_id (wd_ledger w)) (wd_ledger w);
  stk_set_lock id who v r := on_wd_ledger (fun s => set_lock id (staking_asset_id s) who v r s);
  stk_remove_lock id who := on_wd_ledger (fun s => remove_lock id (staking_asset_id s) who s);
  stk_slash who v w :=
    let '(r, s) := ac_slash staking_asset_id who v (wd_ledger w) in (r, on_wd_ledger (fun _ => s) w);
  stk_issue v w := let '(i, s) := ac_issue staking_asset_id v (wd_ledger w) in (i, on_wd_ledger (fun _ => s) w);
  stk_resolve_creating who i := on_wd_ledger (resolve_creating who i);
  stk_on_slash i := on_wd_ledger (slash_funds_to_treasury i);
  stk_set_payee stash payee w := on_wd_rewards (fun r => (set_payee stash payee r).2) w;
  stk_remove_payee stash w := on_wd_rewards (fun r => (remove_payee stash r).2) w;
  stk_on_end_era vs era ms forced w :=
    match on_end_era vs era ms forced (wd_rewards w) with
    | (Panic, _) => None
    | (_, r) => Some (on_wd_rewards (fun _ => r) w)
    end;
  stk_individual_reward stash ms m w := calculate_individual_reward stash ms m (rewards (wd_rewards w));
  stk_disable_validator i w :=
    mkWorld (wd_rewards w) (wd_validators w) (wd_disabled w ++ [i]) (wd_pruned_up_to w) (wd_millis w) (wd_next_session w);
  stk_validators := wd_validators;
  stk_prune_historical_up_to i w :=
    mkWorld (wd_rewards w) (wd_validators w) (wd_disabled w) i (wd_millis w) (wd_next_session w);
  stk_unix_millis := wd_millis;
  stk_estimate_next_new_session n w := wd_next_session w n;
|}.

(** ** The laws *)
Record ledger_typed (s : GenericAsset.State) : Prop := {
  lt_free : forall a who, in_range BALANCE_BITS (free_balance a who s);
  lt_minimum : forall a, 0 <= minimum_balance a s;
}.

Definition staking_lock (who : AccountId) (s : GenericAsset.State) : option Balance :=
  lock_amount <$> head (with_id STAKING_ID (locks (staking_asset_id s) who s)).

(** A write of balances and issuance that keeps both. *)
Record ledger_frame (s s' : GenericAsset.State) : Prop := {
  lf_typed : ledger_typed s -> ledger_typed s';
  lf_locks : Locks s' = Locks s;
  lf_staking : staking_asset_id s' = staking_asset_id s;
}.

#[export] Instance ledger_frame_refl : Reflexive ledger_frame.
Proof. intros s. by split. Qed.

#[export] Instance ledger_frame_trans : Transitive ledger_frame.
Proof. intros x y z [H1 H2 H3] [H4 H5 H6]. split; [auto | congruence | congruence]. Qed.

Lemma frame_lock s s' who : ledger_frame s s' -> staking_lock who s' = staking_lock who s.
Proof. intros [_ Hl Hs]. unfold staking_lock, locks. by rewrite Hl, Hs. Qed.

Lemma frame_issuance f s : ledger_frame s (set_TotalIssuance f s).
Proof. split; try done. intros [H1 H2]. by split. Qed.

Lemma frame_free a who v s : in_range BALANCE_BITS v -> ledger_frame s (set_free_balance a who v s).
Proof.
  intros Hv. split; try done. intros [H1 H2]. split; [|done]. intros b x. rewrite free_balance_set_free_balance. by case_decide.
Qed.

Lemma frame_reserved f s : ledger_frame s (set_ReservedBalance f s).
Proof. split; try done. intros [H1 H2]. by split. Qed.

Lemma frame_deposit U who v s : ledger_frame s (ac_deposit_creating U who v s).2.
Proof.
  unfold ac_deposit_creating, ac_make_free_balance_be.
  set (n := wrapping_add _ _ _). assert (Hn : in_range BALANCE_BITS n) by by apply wrap_range.
  destruct (_ <=? n); [by apply frame_free|]. simpl. etransitivity; [by apply frame_free | apply frame_issuance].
Qed.

Lemma frame_resolve who i s : ledger_frame s (resolve_creating who i s).
Proof.
  unfold resolve_creating. pose proof (frame_deposit staking_asset_id who (ni_amount i) s) as Hd.
  destruct (ac_deposit_creating _ _ _ _) as [p s1]. etransitivity; [exact Hd|]. destruct (ni_offset i p); apply frame_issuance.
Qed.

Lemma frame_on_slash i s : ledger_frame s (slash_funds_to_treasury i s).
Proof. unfold slash_funds_to_treasury. destruct (ni_drop_zero i); [apply frame_issuance | apply frame_resolve]. Qed.

Lemma frame_slash who v s : ledger_typed s -> 0 <= v -> ledger_frame s (ac_slash staking_asset_id who v s).2.
Proof.
  intros Hs Hv. unfold ac_slash, slash. destruct (lt_free _ Hs (staking_asset_id s) who) as [Hf Hf'].
  set (free := free_balance _ _ _) in *. assert (Hn : in_range BALANCE_BITS (free - Z.min free v)) by (unfold in_range; lia).
  destruct (_ <? v); [|by apply frame_free]. unfold slash_reserved.
  match goal with |- context [if ?b then None else _] => destruct b end; (etransitivity; [by apply frame_free | apply frame_reserved]).
Qed.

Lemma frame_issue v s : ledger_frame s (ac_issue staking_asset_id v s).2.
Proof. unfold ac_issue. destruct (checked_add _ _ _); apply frame_issuance. Qed.

Lemma staking_asset_set_lock id a who v r s : staking_asset_id (set_lock id a who v r s) = staking_asset_id s.
Proof. done. Qed.

Lemma staking_lock_set who v r who' s :
  staking_lock who' (set_lock STAKING_ID (staking_asset_id s) who v r s) = if who' =? who then Some v else staking_lock who' s.
Proof.
  unfold staking_lock. rewrite staking_asset_set_lock. set (a := staking_asset_id s).
  destruct (set_lock_correct STAKING_ID a who v r s) as (H1 & _ & H3 & _). destruct (Z.eqb_spec who' who) as [->|Hne].
  - by rewrite H1.
  - rewrite H3 by congruence. done.
Qed.

Lemma staking_lock_remove who who' s :
  staking_lock who' (remove_lock STAKING_ID (staking_asset_id s) who s) = if who' =? who then None else staking_lock who' s.
Proof.
  unfold staking_lock. set (a := staking_asset_id s).
  assert (staking_asset_id (remove_lock STAKING_ID a who s) = a) as -> by (unfold remove_lock; by case_bool_decide).
  destruct (remove_lock_correct STAKING_ID a who s) as (H1 & _ & _ & H4). destruct (Z.eqb_spec who' who) as [->|Hne].
  - by rewrite H1.
  - rewrite H4 by congruence. done.
Qed.

(** The end of an era only writes the rewards pallet and deposits. *)
Definition rewards_frame (r r' : StakingRewards.State GenericAsset.State) : Prop := ledger_frame (ledger r) (ledger r').

Definition deposits_only {A} (m : D (StakingRewards.State GenericAsset.State) A) : Prop := forall r, rewards_frame r (m r).2.

Lemma deposits_bind {A B} (m : D _ A) (k : A -> D _ B) : deposits_only m -> (forall a, deposits_only (k a)) -> deposits_only (bind m k).
Proof.
  intros Hm Hk r. specialize (Hm r). unfold bind. destruct (m r) as [[a|e|] r']; simpl in *; [|done..].
  unfold rewards_frame. etransitivity; [exact Hm | apply Hk].
Qed.

Lemma deposits_reader {A} (m : D _ A) : reader m -> deposits_only m.
Proof. intros Hm r. rewrite Hm. unfold rewards_frame. reflexivity. Qed.

Lemma deposits_write f : deposits_only (StakingRewards.write f).
Proof. intros r. unfold rewards_frame. reflexivity. Qed.

Lemma deposits_event e : deposits_only (modify (deposit_event e)).
Proof. intros r. unfold rewards_frame. reflexivity. Qed.

Lemma deposits_for_each {A} (l : list A) f : (forall x, deposits_only (f x)) -> deposits_only (for_each l f).
Proof. intros Hf. induction l as [|x l IH]; [by apply deposits_reader|]. apply deposits_bind; [apply Hf | by intros]. Qed.

Lemma deposits_drop who v : deposits_only (modify (deposit_and_drop who v)).
Proof.
  intros r. unfold rewards_frame, deposit_and_drop. simpl. pose proof (frame_deposit spending_asset_id who v (ledger r)) as Hd.
  destruct (ac_deposit_creating _ _ _ _) as [p s1]. etransitivity; [exact Hd | apply frame_issuance].
Qed.

Lemma deposits_on_end_era vs era ms forced : deposits_only (on_end_era vs era ms forced).
Proof.
  unfold on_end_era, schedule_reward_payouts, new_fiscal_era, note_fee_payout.
  repeat first [ by apply deposits_reader | apply deposits_write | apply deposits_event | apply deposits_drop
    | apply deposits_for_each; intros [? ?] | apply deposits_bind; [|intros] | case_match ].
Qed.

#[export] Program Instance runtime_staking_laws : StakingEnvLaws World := {|
  stk_ok w := ledger_typed (wd_ledger w);
  stk_lock who w := staking_lock who (wd_ledger w);
|}.
Next Obligation. intros w who Hw. apply Hw. Qed.
Next Obligation. intros w Hw. apply Hw. Qed.
Next Obligation. intros w who v [H1 H2] Hv. by split. Qed.
Next Obligation. intros w who v who'. apply staking_lock_set. Qed.
Next Obligation. intros w who [H1 H2]. unfold wd_ledger. simpl. unfold remove_lock. case_bool_decide; by split. Qed.
Next Obligation. intros w who who'. apply staking_lock_remove. Qed.
Next Obligation.
  intros w who v Hw Hv. simpl. pose proof (frame_slash who v _ Hw Hv) as Hf. destruct (ac_slash _ _ _ _) as [r s]. by apply Hf.
Qed.
Next Obligation.
  intros w who v who'. simpl. unfold ac_slash, slash, slash_reserved. by repeat case_match; simplify_eq.
Qed.
Next Obligation.
  intros w v Hw. simpl. pose proof (frame_issue v (wd_ledger w)) as Hf. destruct (ac_issue _ _ _) as [r s]. by apply Hf.
Qed.
Next Obligation.
  intros w v who'. simpl. pose proof (frame_issue v (wd_ledger w)) as Hf. destruct (ac_issue _ _ _) as [r s].
  by apply (frame_lock _ _ who' Hf).
Qed.
Next Obligation. intros w who i Hw. by apply (lf_typed _ _ (frame_resolve who i (wd_ledger w))). Qed.
Next Obligation. intros w who i who'. apply frame_lock, frame_resolve. Qed.
Next Obligation. intros w i Hw. by apply (lf_typed _ _ (frame_on_slash i (wd_ledger w))). Qed.
Next Obligation. intros w i who'. apply frame_lock, frame_on_slash. Qed.
Next Obligation. done. Qed.
Next Obligation. done. Qed.
Next Obligation. done. Qed.
Next Obligation. done. Qed.
Next Obligation.
  intros w vs e d f w' He Hw. simpl in He. pose proof (deposits_on_end_era vs e d f (wd_rewards w)) as Hf.
  destruct (on_end_era _ _ _ _ _) as [[u|err|] r]; simplify_eq; by apply (lf_typed _ _ Hf).
Qed.
Next Obligation.
  intros w vs e d f w' who' He. simpl in He. pose proof (deposits_on_end_era vs e d f (wd_rewards w)) as Hf.
  destruct (on_end_era _ _ _ _ _) as [[u|err|] r]; simplify_eq; by apply (frame_lock _ _ who' Hf).
Qed.
Next Obligation. done. Qed.
Next Obligation. done. Qed.
Next Obligation. done. Qed.
Next Obligation. done. Qed.
End World.
