(* ===== verification/StakingDemo.v ===== *)
(** * Staking: concrete runs

    A small chain with two validators and a nominator, on the ledger and the
    rewards pallet, for the witnesses of the theorems on staking. *)

From S2P Require Import Prelude Support GenericAssetTypes GenericAsset GenericAssetProps GenericAssetInv GenericAssetAuth StakingTypes SlashingSpans StakingState Staking StakingSlashing StakingEras StakingRewards StakingInv StakingOps StakingSlashOps StakingTheorems StakingRuntime.

(** ** Arithmetic of [sp_arithmetic] on concrete numbers *)

(** Products round to the nearest integer, halves down; ratios round down. *)
#[export] Instance perbill_ops : PerbillOps := {|
  perbill_mul p n := (2 * p * n + PERBILL_ONE - 1) / (2 * PERBILL_ONE);
  perbill_from_rational p q := if q <=? 0 then PERBILL_ONE else Z.min p q * PERBILL_ONE / q;
  perbill_from_percent p := Z.min p 100 * 10 ^ 7;
|}.

#[export] Instance perbill_laws : PerbillLaws.
Proof.
  assert (H1 : PERBILL_ONE = 1000000000) by done.
  split; unfold perbill_mul, perbill_from_rational, perbill_from_percent, perbill_ops; rewrite ?H1.
  - intros p n Hp Hn. assert (0 <= p * n) by (apply Z.mul_nonneg_nonneg; lia).
    assert (p * n <= 1000000000 * n) by (apply Z.mul_le_mono_nonneg_r; lia). split; [apply Z.div_pos; lia|].
    apply Z.lt_succ_r, Z.div_lt_upper_bound; lia.
  - intros n Hn. symmetry. apply (Z.div_unique _ _ _ 999999999); lia.
  - intros p q n Hpq Hq Hn. assert (p * n <= q * n) by (apply Z.mul_le_mono_nonneg_r; lia). apply Z.div_le_mono; lia.
  - intros p n Hp Hn. pose proof (Z.mul_div_le (2 * p * n + 1000000000 - 1) (2 * 1000000000) ltac:(lia)). lia.
  - intros p q Hp Hq. destruct (Z.leb_spec q 0); [lia|]. split; [apply Z.div_pos; lia|].
    apply Z.div_le_upper_bound; lia.
  - intros p q Hp Hq. rewrite (proj2 (Z.leb_gt q 0)) by lia. pose proof (Z.mul_div_le (Z.min p q * 1000000000) q Hq). lia.
  - intros p Hp. lia.
Qed.

#[export] Instance fixed_ops : FixedU128Ops := {|
  fixed_from_rational n d := saturate FIXED_BITS (n * FIXED_ONE / d);
  fixed_from_integer n := saturate FIXED_BITS (n * FIXED_ONE);
  fixed_mul a b := saturate FIXED_BITS (a * b / FIXED_ONE);
  fixed_div a b := saturate FIXED_BITS (a * FIXED_ONE / b);
  fixed_mul_int a n := saturate FIXED_BITS (a * n / FIXED_ONE);
|}.

Lemma saturated_range z : 0 <= z -> in_range FIXED_BITS (saturate FIXED_BITS z).
Proof. intros Hz. assert (0 <= umax FIXED_BITS) by done. unfold saturate, in_range. lia. Qed.

#[export] Instance fixed_laws : FixedU128Laws.
Proof.
  assert (H1 : 0 < FIXED_ONE) by done.
  split; unfold fixed_from_rational, fixed_from_integer, fixed_mul, fixed_div, fixed_mul_int, fixed_ops; unfold in_range.
  - intros n d Hn Hd. apply saturated_range, Z.div_pos; lia.
  - intros n d Hn Hd. assert (n * FIXED_ONE / d <= FIXED_ONE) by (apply Z.div_le_upper_bound; nia). unfold saturate. lia.
  - done.
  - intros a b _ _. by rewrite Z.mul_comm.
  - intros a b [Ha _] [Hb _]. apply saturated_range, Z.div_pos; nia.
  - intros a b c [Ha _] [Hb _] [Hc _] Hab. unfold saturate. apply Z.min_le_compat_r, Z.div_le_mono; nia.
  - intros a [Ha Ha']. rewrite Z.mul_comm, Z.div_mul by lia. unfold saturate. lia.
  - intros a b [Ha _] _ Hb. apply saturated_range, Z.div_pos; nia.
  - intros a n [Ha _] [Hn _]. apply saturated_range, Z.div_pos; nia.
  - intros a b n [Ha _] [Hb _] [Hn _] Hab. unfold saturate. apply Z.min_le_compat_r, Z.div_le_mono; nia.
  - intros a m n [Ha _] [Hm _] [Hn _] Hmn. unfold saturate. apply Z.min_le_compat_r, Z.div_le_mono; nia.
  - intros n [Hn Hn']. rewrite Z.mul_comm, Z.div_mul by lia. unfold saturate. lia.
Qed.

(** ** Configuration *)
Module StakingDemo.
#[export] Instance ga_config : GaConfig := GenericAssetInv.Demo.config.

#[export] Instance rewards_config : RewardsConfig := {|
  HistoricalPayoutEras := 7;
  FiscalEraLength := 365;
  treasury_account := 77;
  db_read := 25;
  db_write := 100;
  payout_order := fun V m => map_to_list m;
|}.

#[export] Instance staking_config : StakingConfig := {|
  SessionsPerEra := 2;
  BondingDuration := 3;
  SlashDeferDuration := 1;
  ElectionLookahead := 5;
  MinSolutionScoreBump := 0;
  MaxNominatorRewardedPerValidator := 2;
  OffendingValidatorsThreshold := 500000000;
  WeightSoftLimit := 1000;
  UnsignedPriority := 0;
  reads_writes r w := r + w;
  storage_order := fun V m => map_to_list m;
|}.

(** Every voter gives all its stake to its first choice; a compact solution is
    the list of these edges, its score the sums and the sum of squares of the
    supports. *)
Definition support_of (edges : list (AccountId * AccountId * Z)) (v : AccountId) : Support :=
  let l := List.filter (fun e => e.1.2 =? v) edges in
  mkSupport (foldr (fun e n => e.2 + n) 0 l) ((fun e => (e.1.1, e.2)) <$> l).

Definition staked_edges (l : list Assignment) (weight_of : AccountId -> Z) : list (AccountId * AccountId * Z) :=
  flat_map (fun a => match as_distribution a with (t, _) :: _ => [(as_who a, t, weight_of (as_who a))] | [] => [] end) l.

#[export] Instance npos : NposElections := {|
  CompactAssignments := list (Z * Z);
  StakedAssignments := list (AccountId * AccountId * Z);
  unique_targets c := remove_dups (snd <$> c);
  into_assignment c nominator_at validator_at :=
    mapM (fun '(n, v) => match nominator_at n, validator_at v with
                         | Some n, Some v => Some (mkAssignment n [(v, 65535)])
                         | _, _ => None
                         end) c;
  offchain_accuracy_one := 65535;
  assignment_ratio_to_staked := staked_edges;
  assignment_ratio_to_staked_normalized l w := Some (staked_edges l w);
  to_supports edges := (fun v => (v, support_of edges v)) <$> remove_dups (snd ∘ fst <$> edges);
  evaluate l :=
    (foldr (fun p n => Z.min (su_total p.2) n) (umax 64) l, foldr (fun p n => su_total p.2 + n) 0 l,
     foldr (fun p n => su_total p.2 * su_total p.2 + n) 0 l);
  is_score_better this that _ := that.1.1 <? this.1.1;
  seq_phragmen n candidates voters :=
    Some (take (Z.to_nat n) candidates, flat_map (fun '(who, _, ts) =>
      match List.filter (fun t => bool_decide (t ∈ take (Z.to_nat n) candidates)) ts with
      | t :: _ => [mkAssignment who [(t, 65535)]]
      | [] => []
      end) voters);
  to_vote balance _ := balance;
  to_currency vote _ := vote;
|}.

(** Asset 1 is staked, asset 2 is spent.  The stashes are 10, 11 and 12 with the
    controllers 20, 21 and 22. *)
Definition ledger0 : GenericAsset.State := {|
  TotalIssuance := {[1 := 3000; 2 := 1000000]};
  FreeBalance := {[(1, 10) := 1000; (1, 11) := 1000; (1, 12) := 1000; (2, 10) := 1000000]};
  ReservedBalance := ∅;
  NextAssetId := 1000;
  Permissions := ∅;
  Locks := ∅;
  StakingAssetId := 1;
  SpendingAssetId := 2;
  AssetMeta := {[1 := AssetInfo_new [] 4 5; 2 := AssetInfo_new [] 4 1]};
  StorageVersion := 1;
  sys := (∅ : gmap Z Z);
  events := [];
|}.

Definition rewards0 : RewardStore :=
  mkRewardStore (FIXED_ONE / 10) 100000000 500 [] ∅ ∅ [] 3000 0 false EraRewardPoints_default 1.

Definition world0 : World :=
  mkWorld (StakingRewards.mkState rewards0 [] ledger0) [10; 11] [] 0 86400000 (fun n => Some (n + 3)).

Definition stakers0 : list (AccountId * AccountId * Balance * StakerStatus) :=
  [(10, 20, 500, Validator); (11, 21, 400, Validator); (12, 22, 300, Nominator [10; 11])].

Definition storage0 : StakingState.State World := genesis_storage 100 32 2 1 [] NotForcing 100000000 world0.

(** The chain after genesis, and in its first era. *)
Definition s_genesis : StakingState.State World := Eval vm_compute in (genesis_build 100 32 stakers0 storage0).2.

Lemma s_genesis_eq : genesis_build 100 32 stakers0 storage0 = (Ok tt, s_genesis).
Proof. vm_compute. reflexivity. Qed.

Lemma ledger0_typed : ledger_typed ledger0.
Proof.
  split.
  - intros a who. unfold free_balance, sget.
    assert (FreeBalance ledger0 = <[(1, 10) := 1000]> (<[(1, 11) := 1000]> (<[(1, 12) := 1000]> (<[(2, 10) := 1000000]> ∅)))) as -> by done.
    rewrite !lookup_insert, lookup_empty. repeat case_decide; vm_compute; split; discriminate.
  - intros a. unfold minimum_balance, asset_meta, sget.
    assert (AssetMeta ledger0 = <[1 := AssetInfo_new [] 4 5]> (<[2 := AssetInfo_new [] 4 1]> ∅)) as -> by done.
    rewrite !lookup_insert, lookup_empty. repeat case_decide; vm_compute; discriminate.
Qed.

Lemma s_genesis_reachable : reachable s_genesis.
Proof.
  eapply (reachable_genesis 100 32 2 1 [] NotForcing 100000000 stakers0 world0).
  - apply ledger0_typed.
  - intros who. done.
  - repeat constructor; simpl; lia.
  - exact s_genesis_eq.
Qed.

Definition then_ {A} (m : D (StakingState.State World) A) (s : StakingState.State World) : StakingState.State World := (m s).2.

Definition s_era0 : StakingState.State World := Eval vm_compute in
  then_ (start_session 0) (then_ (historical_new_session 1) (then_ (historical_new_session 0) s_genesis)).

Lemma s_era0_reachable : reachable s_era0.
Proof.
  assert (H1 : reachable (then_ (historical_new_session 0) s_genesis)) by (eapply reachable_step; [apply s_genesis_reachable | constructor]).
  assert (H2 : reachable (then_ (historical_new_session 1) (then_ (historical_new_session 0) s_genesis))).
  { eapply reachable_step; [exact H1 | constructor]. }
  change (reachable (start_session 0 (then_ (historical_new_session 1) (then_ (historical_new_session 0) s_genesis))).2).
  eapply reachable_step; [exact H2 | apply step_start_session; vm_compute; reflexivity].
Qed.
End StakingDemo.
