(* ===== verification/StakingFlow.v ===== *)
(** * Staking: where slashed funds go

    On the generic asset ledger, applying a slash neither creates nor destroys
    anything: what the stakers lose is what the reporters and the treasury
    receive.  While a slash is applied the funds are in flight as an imbalance;
    [flying] says how much. *)

From S2P Require Import Prelude Support GenericAssetTypes GenericAsset GenericAssetProps GenericAssetInv GenericAssetAuth GenericAssetOps StakingTypes SlashingSpans StakingState Staking StakingSlashing StakingRewards StakingInv StakingSlashOps StakingRuntime.

Section Flow.
Context `{GaConfig} {config : StakingConfig} {rewards_config : RewardsConfig} {perbill : PerbillOps} {fixed : FixedU128Ops}.
Implicit Types (s : StakingState.State World) (g : GenericAsset.State).

(** The ledger before the slash. *)
Variable g0 : GenericAsset.State.
Hypothesis Hg0 : inv g0.
Abbreviation cennz := (staking_asset_id g0).
Hypothesis Hknown : cennz < NextAssetId g0.
Hypothesis Hnonzero : cennz <> 0.

Record flying (x : Balance) g : Prop := {
  fl_ok : balances_ok g;
  fl_nonneg : 0 <= x;
  fl_held : forall b, held b g + (if cennz =? b then x else 0) = total_issuance b g0;
  fl_issuance : forall b, total_issuance b g = total_issuance b g0;
  fl_fresh : forall b, NextAssetId g0 <= b -> TotalIssuance g !! b = None;
  fl_next : NextAssetId g = NextAssetId g0;
  fl_perms : Permissions g = Permissions g0;
  fl_staking : staking_asset_id g = cennz;
}.

Lemma flying_start : flying 0 g0.
Proof.
  split; try done; [apply Hg0 | | apply Hg0]. intros b. rewrite (inv_issuance _ Hg0). case_match; lia.
Qed.

Lemma flying_landed g : flying 0 g -> inv g /\ forall b, total_issuance b g = total_issuance b g0.
Proof.
  intros [H1 _ H3 H4 H5 H6 H7 H8]. split; [|done]. split; [done | | | |].
  - intros a. rewrite H4, <- H3. case_match; lia.
  - intros a. rewrite H4. apply Hg0.
  - intros a. rewrite H6. apply H5.
  - intros a. rewrite H6, H7. apply Hg0.
Qed.

(** What is in flight and what an account holds fit the balance type. *)
Lemma flying_max x g who : flying x g -> free_balance cennz who g + x <= MAX_BALANCE.
Proof.
  intros [H1 H2 H3 H4 H5 H6 H7 H8]. specialize (H3 cennz). rewrite Z.eqb_refl in H3. pose proof (free_le_held cennz who g H1).
  pose proof (inv_max _ Hg0 cennz). lia.
Qed.

(** Writes that leave balances and issuance alone. *)
Lemma flying_frame x g g' : flying x g -> FreeBalance g' = FreeBalance g -> ReservedBalance g' = ReservedBalance g ->
  TotalIssuance g' = TotalIssuance g -> NextAssetId g' = NextAssetId g -> Permissions g' = Permissions g ->
  staking_asset_id g' = staking_asset_id g -> flying x g'.
Proof.
  intros [H1 H2 H3 H4 H5 H6 H7 H8] Ff Fr Ft Fn Fp Fs. destruct H1 as [Ha Hb].
  split; unfold held, asset_free, asset_reserved, total_issuance in *; rewrite ?Ff, ?Fr, ?Ft, ?Fn, ?Fp, ?Fs; try done.
  split; rewrite ?Ff, ?Fr; done.
Qed.

Lemma flying_same_issuance x v g : flying x g -> v = total_issuance cennz g -> flying x (set_TotalIssuance (insert cennz v) g).
Proof.
  intros [H1 H2 H3 H4 H5 H6 H7 H8] ->. split; try done.
  - by apply balances_ok_set_TotalIssuance.
  - intros b. rewrite total_issuance_insert. case_decide; subst; apply H4.
  - intros b Hb. simpl. rewrite lookup_insert_ne by lia. by apply H5.
Qed.

Lemma flying_set_free x y who v g : flying x g -> 0 <= v -> 0 <= y -> v + y = free_balance cennz who g + x ->
  flying y (set_free_balance cennz who v g).
Proof.
  intros [H1 H2 H3 H4 H5 H6 H7 H8] Hv Hy Hsum. split; try done.
  - by apply balances_ok_set_free.
  - intros b. rewrite held_set_free_balance, <- H3. case_match; lia.
Qed.

(** ** The currency operations *)
Lemma issue_flow x g : flying x g -> (ac_issue staking_asset_id 0 g).1 = NegativeImbalance_new 0 cennz /\
  flying x (ac_issue staking_asset_id 0 g).2.
Proof.
  intros Hf. unfold ac_issue. rewrite (fl_staking _ _ Hf). unfold checked_add. rewrite Z.add_0_r.
  rewrite (proj2 (Z.leb_le _ _)) by (rewrite (fl_issuance _ _ Hf); apply Hg0). split; [done | by apply flying_same_issuance].
Qed.

Lemma slash_staking a who v g : staking_asset_id (slash a who v g).2 = staking_asset_id g.
Proof. unfold slash, slash_reserved. by destruct (_ <? v). Qed.

Lemma slash_flow x who v g : flying x g -> 0 <= v ->
  let '((i, rest), g') := ac_slash staking_asset_id who v g in
  ni_asset_id i = cennz /\ 0 <= ni_amount i /\ flying (x + ni_amount i) g'.
Proof.
  intros Hf Hv. unfold ac_slash. rewrite (fl_staking _ _ Hf). pose proof (slash_staking cennz who v g) as Hst.
  destruct (slash_eq cennz who v g (fl_ok _ _ Hf) Hv) as (g' & Heq & Hok & Hh & _ & _ & Ht & Hn & Hp). rewrite Heq in *. clear Heq. simpl in Hst.
  pose proof (free_balance_nonneg cennz who g (fl_ok _ _ Hf)) as Hnf. pose proof (reserved_balance_nonneg cennz who g (fl_ok _ _ Hf)) as Hnr.
  set (t := Z.min (free_balance cennz who g) v + Z.min (reserved_balance cennz who g) (v - Z.min (free_balance cennz who g) v)) in *.
  assert (Hf' : flying (x + t) g').
  { destruct Hf as [H1 H2 H3 H4 H5 H6 H7 H8]. split; try done; try lia; unfold total_issuance in *; rewrite ?Ht, ?Hn, ?Hp; try done; try congruence.
    intros b. rewrite Hh, <- H3. case_match; lia. }
  destruct (Z.eqb_spec v t) as [E|Hne]; simpl; split_and!; try done; try lia; [by rewrite E|].
  match goal with |- flying (x + ?y) _ => replace y with t by lia end. done.
Qed.

Lemma resolve_flow x who i g : flying x g -> ni_asset_id i = cennz -> 0 <= ni_amount i <= x ->
  flying (x - ni_amount i) (resolve_creating who i g).
Proof.
  intros Hf Hi Hx. pose proof (flying_max x g who Hf) as Hmax. pose proof (free_balance_nonneg cennz who g (fl_ok _ _ Hf)).
  unfold resolve_creating, ac_deposit_creating, ac_make_free_balance_be. rewrite (fl_staking _ _ Hf).
  unfold wrapping_add. rewrite wrap_small by (unfold in_range, MAX_BALANCE in *; lia). rewrite (proj2 (Z.leb_le _ _)) by lia.
  unfold ni_offset. cbn [pi_amount PositiveImbalance_new]. rewrite (proj2 (Z.leb_le _ _)) by lia. unfold drop_negative.
  cbn [ni_amount ni_asset_id NegativeImbalance_new]. rewrite Hi.
  assert (Hs : flying (x - ni_amount i) (set_free_balance cennz who (free_balance cennz who g + ni_amount i) g)).
  { apply (flying_set_free x); (done || lia). }
  apply flying_same_issuance; [done|]. unfold saturating_sub.
  assert (0 <= total_issuance cennz (set_free_balance cennz who (free_balance cennz who g + ni_amount i) g)).
  { rewrite (fl_issuance _ _ Hs), <- (inv_issuance _ Hg0). unfold held.
    pose proof (asset_free_nonneg cennz g0 (inv_ok _ Hg0)). pose proof (asset_reserved_nonneg cennz g0 (inv_ok _ Hg0)). lia. }
  lia.
Qed.

Lemma treasury_flow i g : flying (ni_amount i) g -> ni_asset_id i = cennz -> flying 0 (slash_funds_to_treasury i g).
Proof.
  intros Hf Hi. unfold slash_funds_to_treasury, ni_drop_zero. rewrite Hi, (proj2 (Z.eqb_neq cennz 0) Hnonzero), orb_false_r.
  destruct (Z.eqb_spec (ni_amount i) 0) as [E|E].
  - rewrite E in Hf. unfold drop_negative. rewrite Hi, E. apply flying_same_issuance; [done|]. unfold saturating_sub.
    assert (0 <= total_issuance cennz g); [|lia]. rewrite (fl_issuance _ _ Hf), <- (fl_held _ _ Hf cennz), Z.eqb_refl.
    unfold held. pose proof (asset_free_nonneg cennz g (fl_ok _ _ Hf)). pose proof (asset_reserved_nonneg cennz g (fl_ok _ _ Hf)). lia.
  - replace 0 with (ni_amount i - ni_amount i) by lia. apply resolve_flow; [done | done|]. pose proof (fl_nonneg _ _ Hf). lia.
Qed.

(** ** Applying a slash *)
Abbreviation L s := (wd_ledger (world s)).

Lemma ni_merge_flow i j g : flying (ni_amount i + ni_amount j) g -> ni_merge i j = NegativeImbalance_new (ni_amount i + ni_amount j) (ni_asset_id i).
Proof.
  intros Hf. unfold ni_merge. rewrite saturating_add_small; [done|]. pose proof (flying_max _ _ 0 Hf).
  pose proof (free_balance_nonneg cennz 0 g (fl_ok _ _ Hf)). unfold MAX_BALANCE in *. lia.
Qed.

(** ** Who loses and who gains *)

(** What an account holds of an asset, free and reserved. *)
Definition holding (a : AssetId) (w : AccountId) g : Balance := free_balance a w g + reserved_balance a w g.

Lemma holding_nonneg a w g : balances_ok g -> 0 <= holding a w g.
Proof.
  intros Hok. unfold holding. pose proof (free_balance_nonneg a w g Hok). pose proof (reserved_balance_nonneg a w g Hok). lia.
Qed.

Lemma holding_set_free a w x b v g :
  holding b v (set_free_balance a w x g) = holding b v g + if decide ((a, w) = (b, v)) then x - free_balance a w g else 0.
Proof.
  unfold holding. rewrite free_balance_set_free_balance, reserved_balance_set_free_balance.
  case_decide; simplify_eq; lia.
Qed.

Lemma holding_set_reserved a w x b v g :
  holding b v (set_reserved_balance a w x g) = holding b v g + if decide ((a, w) = (b, v)) then x - reserved_balance a w g else 0.
Proof.
  unfold holding. rewrite free_balance_set_reserved_balance, reserved_balance_set_reserved_balance.
  case_decide; simplify_eq; lia.
Qed.

Lemma slash_holding a w v g : balances_ok g -> 0 <= v ->
  (forall b x, holding b x (slash a w v g).2 = holding b x g - if decide ((a, w) = (b, x)) then Z.min (holding a w g) v else 0) /\
  AssetMeta (slash a w v g).2 = AssetMeta g.
Proof.
  intros Hok Hv. pose proof (free_balance_nonneg a w g Hok) as Hf. pose proof (reserved_balance_nonneg a w g Hok) as Hr.
  unfold slash. destruct (Z.ltb_spec (Z.min (free_balance a w g) v) v) as [Hlt|Hge]; simpl.
  - split; [|unfold set_reserved_balance; done]. intros b x. rewrite holding_set_reserved, holding_set_free.
    rewrite reserved_balance_set_free_balance. unfold holding. case_decide; lia.
  - split; [|done]. intros b x. rewrite holding_set_free. unfold holding. case_decide; lia.
Qed.

Lemma ac_slash_taken x who v g : flying x g -> 0 <= v ->
  let t := Z.min (holding cennz who g) v in
  exists g', ac_slash staking_asset_id who v g = ((NegativeImbalance_new t cennz, v - t), g') /\ flying (x + t) g' /\
    (forall b w, holding b w g' = holding b w g - if decide ((cennz, who) = (b, w)) then t else 0) /\
    AssetMeta g' = AssetMeta g.
Proof.
  intros Hf Hv t. pose proof (slash_flow x who v g Hf Hv) as Hs. pose proof (slash_holding cennz who v g (fl_ok _ _ Hf) Hv) as Hh.
  revert Hs. unfold ac_slash. rewrite (fl_staking _ _ Hf).
  pose proof (free_balance_nonneg cennz who g (fl_ok _ _ Hf)) as Hnf. pose proof (reserved_balance_nonneg cennz who g (fl_ok _ _ Hf)) as Hnr.
  destruct (slash_eq cennz who v g (fl_ok _ _ Hf) Hv) as (g' & Heq & _). rewrite Heq in *. simpl in Hh. cbv zeta.
  unfold holding in t. destruct (Z.eqb_spec v (Z.min (free_balance cennz who g) v +
    Z.min (reserved_balance cennz who g) (v - Z.min (free_balance cennz who g) v))) as [E|E]; simpl; intros (_ & _ & Hs).
  - assert (Ht : t = v) by lia. exists g'. rewrite Ht, Z.sub_diag. split_and!; [done | done | | apply Hh].
    intros b w. rewrite (proj1 Hh). unfold holding. case_decide; lia.
  - set (r := v - Z.min (free_balance cennz who g) v - _) in *. assert (Ht : v - r = t) by lia.
    exists g'. rewrite <- Ht. split_and!; [do 2 f_equal; lia | done | | apply Hh].
    intros b w. rewrite (proj1 Hh). unfold holding. case_decide; lia.
Qed.

Lemma resolve_holding x who i g : flying x g -> ni_asset_id i = cennz -> 0 <= ni_amount i <= x ->
  forall b w, holding b w (resolve_creating who i g) = holding b w g + if decide ((cennz, who) = (b, w)) then ni_amount i else 0.
Proof.
  intros Hf Hi Hx b w. pose proof (flying_max x g who Hf) as Hmax. pose proof (free_balance_nonneg cennz who g (fl_ok _ _ Hf)).
  unfold resolve_creating, ac_deposit_creating, ac_make_free_balance_be. rewrite (fl_staking _ _ Hf).
  unfold wrapping_add. rewrite wrap_small by (unfold in_range, MAX_BALANCE in *; lia). rewrite (proj2 (Z.leb_le _ _)) by lia.
  unfold ni_offset. cbn [pi_amount PositiveImbalance_new]. rewrite (proj2 (Z.leb_le _ _)) by lia.
  transitivity (holding b w (set_free_balance cennz who (free_balance cennz who g + ni_amount i) g)); [done|].
  rewrite holding_set_free. case_decide; lia.
Qed.

Lemma treasury_holding i g : flying (ni_amount i) g -> ni_asset_id i = cennz ->
  forall b w, holding b w (slash_funds_to_treasury i g) = holding b w g + if decide ((cennz, treasury_account) = (b, w)) then ni_amount i else 0.
Proof.
  intros Hf Hi b w. unfold slash_funds_to_treasury, ni_drop_zero. rewrite Hi, (proj2 (Z.eqb_neq cennz 0) Hnonzero), orb_false_r.
  destruct (Z.eqb_spec (ni_amount i) 0) as [E|E].
  - transitivity (holding b w g); [done|]. rewrite E. case_decide; lia.
  - apply (resolve_holding (ni_amount i)); [done | done|]. pose proof (fl_nonneg _ _ Hf). lia.
Qed.

(** *** The stakers *)

(** What a slash of [value] asks of the ledger of a stash, and what of it the
    account can pay. *)
Definition slash_due (b : BondStore) (min : Balance) (e : AccountId * Balance) : Balance :=
  match Bonded b !! e.1 ≫= (fun c => Ledger b !! c) with Some l => (ledger_slash e.2 min l).1 | None => 0 end.

Definition slash_taken s (e : AccountId * Balance) : Balance :=
  Z.min (holding cennz e.1 (L s)) (slash_due (bonds s) (minimum_balance cennz (L s)) e).

Definition slash_missing s (e : AccountId * Balance) : Balance :=
  slash_due (bonds s) (minimum_balance cennz (L s)) e - slash_taken s e.

(** The ledger a slash leaves. *)
Definition slashed_ledger (min value : Balance) (l : StakingLedger) : StakingLedger :=
  if (ledger_slash value min l).1 =? 0 then l else (ledger_slash value min l).2.

Definition sum_over {A} (f : A -> Z) (l : list A) : Z := foldr (fun x n => f x + n) 0 l.

Lemma slash_due_nonneg b min e : 0 <= slash_due b min e.
Proof.
  unfold slash_due. case_match; [|lia]. unfold ledger_slash.
  destruct (apply_slash_to _ _ _ _) as [[x y] z], (slash_chunks _ _ _ _). simpl. unfold saturating_sub. lia.
Qed.

Lemma slash_taken_nonneg s e : balances_ok (L s) -> 0 <= slash_taken s e.
Proof.
  intros Hok. unfold slash_taken. pose proof (holding_nonneg cennz e.1 (L s) Hok).
  pose proof (slash_due_nonneg (bonds s) (minimum_balance cennz (L s)) e). lia.
Qed.

(** A stash of which nothing is due. *)
Lemma do_slash_nothing stash payout i s (f : AccountId -> StakingLedger -> StakingLedger) :
  flying (ni_amount i) (L s) -> ni_asset_id i = cennz -> 0 <= payout ->
  (forall c l, Ledger (bonds s) !! c = Some l -> f c l = l) ->
  let t := Z.min (holding cennz stash (L s)) 0 in
  exists s', (ret (payout, i) : D _ _) s = (Ok (Z.max 0 (payout - (0 - t)), NegativeImbalance_new (ni_amount i + t) cennz), s') /\
  flying (ni_amount i + t) (L s') /\
  (forall b w, holding b w (L s') = holding b w (L s) - if decide ((cennz, stash) = (b, w)) then t else 0) /\
  AssetMeta (L s') = AssetMeta (L s) /\ Bonded (bonds s') = Bonded (bonds s) /\
  (forall c, Ledger (bonds s') !! c = f c <$> Ledger (bonds s) !! c).
Proof.
  intros Hf Hi Hpay Hid t. pose proof (holding_nonneg cennz stash (L s) (fl_ok _ _ Hf)) as Hh0.
  assert (Ht : t = 0) by lia. rewrite Ht, Z.add_0_r. exists s. split_and!; try done.
  - unfold ret. do 3 f_equal; [lia|]. destruct i as [x y]. simpl in Hi. subst y. done.
  - intros. case_decide; lia.
  - intros c. destruct (Ledger (bonds s) !! c) eqn:El; simpl; [|done]. by rewrite (Hid c).
Qed.

(** One stash. *)
Lemma do_slash_exact e payout i s : flying (ni_amount i) (L s) -> ni_asset_id i = cennz -> 0 <= payout ->
  exists s', do_slash e.1 e.2 payout i s =
    (Ok (Z.max 0 (payout - slash_missing s e), NegativeImbalance_new (ni_amount i + slash_taken s e) cennz), s') /\
  flying (ni_amount i + slash_taken s e) (L s') /\
  (forall b w, holding b w (L s') = holding b w (L s) - if decide ((cennz, e.1) = (b, w)) then slash_taken s e else 0) /\
  AssetMeta (L s') = AssetMeta (L s) /\ Bonded (bonds s') = Bonded (bonds s) /\
  (forall c, Ledger (bonds s') !! c =
     (if bool_decide (Bonded (bonds s) !! e.1 = Some c) then slashed_ledger (minimum_balance cennz (L s)) e.2 else id) <$> Ledger (bonds s) !! c).
Proof.
  intros Hf Hi Hpay. destruct e as [stash v].
  pose proof (slash_due_nonneg (bonds s) (minimum_balance cennz (L s)) (stash, v)) as Hd.
  unfold slash_missing, slash_taken, slash_due in *. simpl in *.
  unfold do_slash. rewrite run_gets. destruct (Bonded (bonds s) !! stash) as [c|] eqn:Eb; simpl in *.
  2: { by apply (do_slash_nothing stash payout i s (fun _ => id)). }
  destruct (Ledger (bonds s) !! c) as [l|] eqn:El; simpl in *.
  2: { apply (do_slash_nothing stash payout i s (fun c' => if bool_decide (Some c = Some c') then slashed_ledger (minimum_balance cennz (L s)) v else id)); try done.
       intros. rewrite bool_decide_eq_false_2; [done | congruence]. }
  rewrite run_gets. change (stk_minimum_balance (world s)) with (minimum_balance (staking_asset_id (L s)) (L s)). rewrite (fl_staking _ _ Hf).
  destruct (ledger_slash v (minimum_balance cennz (L s)) l) as [d l'] eqn:Es. simpl in *.
  destruct (Z.eqb_spec d 0) as [->|Hd0].
  { apply (do_slash_nothing stash payout i s (fun c' => if bool_decide (Some c = Some c') then slashed_ledger (minimum_balance cennz (L s)) v else id)); try done.
    intros c' l0 Hl0. case_bool_decide; [|done]. simplify_eq. unfold slashed_ledger. by rewrite Es. }
  destruct (ac_slash_taken _ stash d (L s) Hf Hd) as (g & Hs & Hfg & Hhg & Hmg). set (t := Z.min _ d) in *.
  unfold bind at 1, state. simpl stk_slash. rewrite Hs. cbv beta iota zeta. set (s1 := on_world _ s).
  unfold bind, update_ledger, bind, write_world, write_bonds, emit, modify, ret.
  rewrite (ni_merge_flow i (NegativeImbalance_new t cennz) g Hfg), Hi.
  eexists. split; [|split_and!].
  - do 4 f_equal. unfold saturating_sub. destruct (Z.eqb_spec (d - t) 0); lia.
  - by apply (flying_frame (ni_amount i + t) g).
  - exact Hhg.
  - exact Hmg.
  - done.
  - intros c'. simpl. rewrite lookup_insert. case_decide as Hc.
    + subst c'. rewrite bool_decide_eq_true_2, El by done. simpl. unfold slashed_ledger. rewrite Es. simpl. by rewrite (proj2 (Z.eqb_neq d 0)).
    + rewrite bool_decide_eq_false_2 by congruence. by destruct (Ledger (bonds s) !! c').
Qed.

Lemma sum_over_ext {A} (f f' : A -> Z) l : (forall x, x ∈ l -> f x = f' x) -> sum_over f l = sum_over f' l.
Proof. induction l as [|x l IH]; intros Hx; simpl; [done|]. rewrite Hx, IH; [done | set_solver | set_solver]. Qed.

(** What the slashes of [l] take from the account [w]. *)
Definition lost s (l : list (AccountId * Balance)) (w : AccountId) : Balance :=
  sum_over (fun e => if e.1 =? w then slash_taken s e else 0) l.

(** The ledger [sl] after the slashes of [l]. *)
Definition ledger_after (min : Balance) (l : list (AccountId * Balance)) (sl : StakingLedger) : StakingLedger :=
  match (list_to_map l : gmap Z Balance) !! sl_stash sl with Some v => slashed_ledger min v sl | None => sl end.

Definition paired (b : BondStore) : Prop :=
  forall stash c, Bonded b !! stash = Some c <-> exists l, Ledger b !! c = Some l /\ sl_stash l = stash.

Lemma slashed_ledger_stash min v sl : sl_stash (slashed_ledger min v sl) = sl_stash sl.
Proof.
  unfold slashed_ledger. case_match; [done|]. unfold ledger_slash.
  by destruct (apply_slash_to _ _ _ _) as [[x y] z], (slash_chunks _ _ _ _).
Qed.

(** After slashing the stash of [e], the ledgers are those of [ledger_after]. *)
Lemma step_ledgers min e b b' : paired b -> Bonded b' = Bonded b ->
  (forall c, Ledger b' !! c =
     (if bool_decide (Bonded b !! e.1 = Some c) then slashed_ledger min e.2 else id) <$> Ledger b !! c) ->
  (forall c, Ledger b' !! c = ledger_after min [e] <$> Ledger b !! c) /\ paired b' /\
  (forall e', e'.1 <> e.1 -> slash_due b' min e' = slash_due b min e').
Proof.
  intros Hp Hb Hl. assert (Hl' : forall c, Ledger b' !! c = ledger_after min [e] <$> Ledger b !! c).
  { intros c. rewrite Hl. destruct (Ledger b !! c) as [sl|] eqn:E; simpl; [|done]. unfold ledger_after. destruct e as [stash v]. simpl.
    f_equal. rewrite lookup_insert, lookup_empty. case_bool_decide as Hc.
    - apply Hp in Hc as (sl' & Hsl & <-). simplify_eq. by rewrite decide_True.
    - rewrite decide_False; [done|]. intros ->. apply Hc, Hp. eauto. }
  split_and!; [done| |].
  - unfold paired in *. intros stash c. rewrite Hb, Hp, Hl. split.
    + intros (sl & Hsl & <-). rewrite Hsl. simpl. eexists. split; [done|]. case_match; [apply slashed_ledger_stash | done].
    + destruct (Ledger b !! c) as [sl|] eqn:E; simpl; [|by intros (? & ? & _)]. intros (sl' & [= <-] & <-). exists sl. split; [done|].
      case_match; [symmetry; apply slashed_ledger_stash | done].
  - intros e' Hne. unfold slash_due. rewrite Hb. destruct (Bonded b !! e'.1) as [c|] eqn:E; simpl; [|done]. rewrite Hl.
    rewrite bool_decide_eq_false_2; [by destruct (Ledger b !! c)|]. intros Hc. apply Hp in Hc as (x & Hx & H1). apply Hp in E as (y & Hy & H2). congruence.
Qed.

Lemma ledger_after_cons min e l sl : e.1 ∉ l.*1 -> ledger_after min l (ledger_after min [e] sl) = ledger_after min (e :: l) sl.
Proof.
  intros Hn. destruct e as [stash v]. unfold ledger_after. simpl. rewrite !lookup_insert, lookup_empty.
  case_decide as Hc; [|done]. rewrite slashed_ledger_stash, <- Hc.
  by rewrite (proj1 (not_elem_of_list_to_map l stash)).
Qed.

Lemma do_slashes_exact l payout i s : flying (ni_amount i) (L s) -> ni_asset_id i = cennz -> 0 <= payout ->
  NoDup l.*1 -> paired (bonds s) ->
  exists s', do_slashes l payout i s =
    (Ok (Z.max 0 (payout - sum_over (slash_missing s) l), NegativeImbalance_new (ni_amount i + sum_over (slash_taken s) l) cennz), s') /\
  flying (ni_amount i + sum_over (slash_taken s) l) (L s') /\
  (forall b w, holding b w (L s') = holding b w (L s) - if decide (cennz = b) then lost s l w else 0) /\
  (forall c, Ledger (bonds s') !! c = ledger_after (minimum_balance cennz (L s)) l <$> Ledger (bonds s) !! c).
Proof.
  revert payout i s. induction l as [|e l IH]; intros payout i s Hf Hi Hpay Hnd Hp.
  { exists s. simpl. rewrite Z.add_0_r. split_and!; [|done| |].
    - unfold ret. do 3 f_equal; [lia|]. destruct i. simpl in Hi. by subst.
    - intros. case_decide; unfold lost; simpl; lia.
    - intros c. by destruct (Ledger (bonds s) !! c). }
  simpl in Hnd. apply NoDup_cons in Hnd as [Hn Hnd].
  destruct (do_slash_exact e payout i s Hf Hi Hpay) as (s1 & H1 & Hf1 & Hh1 & Hm1 & Hb1 & Hl1).
  destruct (step_ledgers (minimum_balance cennz (L s)) e (bonds s) (bonds s1) Hp Hb1 Hl1) as (Hl & Hp1 & Hdue).
  assert (Hmin : minimum_balance cennz (L s1) = minimum_balance cennz (L s)) by (unfold minimum_balance, asset_meta; by rewrite Hm1).
  assert (Htail : forall e', e' ∈ l -> slash_taken s1 e' = slash_taken s e' /\ slash_missing s1 e' = slash_missing s e').
  { intros e' He'. assert (e'.1 <> e.1) by (intros Heq; apply Hn; rewrite <- Heq; by apply list_elem_of_fmap_2).
    unfold slash_missing, slash_taken. rewrite Hmin, Hdue, Hh1 by done. rewrite decide_False by congruence. split; f_equal; lia. }
  destruct (IH (Z.max 0 (payout - slash_missing s e)) (NegativeImbalance_new (ni_amount i + slash_taken s e) cennz) s1)
    as (s' & H2 & Hf2 & Hh2 & Hl2); try done; [lia|].
  rewrite Hmin in Hl2. simpl in H2, Hf2. unfold lost in Hh2.
  rewrite (sum_over_ext (slash_taken s1) (slash_taken s)) in H2, Hf2 by (intros; by apply Htail).
  rewrite (sum_over_ext (slash_missing s1) (slash_missing s)) in H2 by (intros; by apply Htail).
  exists s'. destruct e as [stash v]. simpl in *. unfold bind. rewrite H1.
  assert (Hmiss : 0 <= sum_over (slash_missing s) l).
  { clear. induction l as [|x l IH]; simpl; [lia|]. unfold slash_missing at 1, slash_taken. lia. }
  split_and!.
  - rewrite H2. do 3 f_equal; [lia | f_equal; lia].
  - by rewrite Z.add_assoc.
  - intros b w. rewrite Hh2, Hh1. unfold lost. simpl.
    rewrite (sum_over_ext (fun e => if e.1 =? w then slash_taken s1 e else 0) (fun e => if e.1 =? w then slash_taken s e else 0))
      by (intros e' He'; by rewrite (proj1 (Htail e' He'))).
    repeat case_decide; simplify_eq; rewrite ?Z.eqb_refl; try lia; try (destruct (Z.eqb_spec stash w); simplify_eq; lia).
  - intros c. rewrite Hl2, Hl, <- option_fmap_compose. destruct (Ledger (bonds s) !! c); simpl; [|done]. f_equal. by apply ledger_after_cons.
Qed.

(** *** The reporters and the treasury *)
Definition reporters_paid (per : Balance) (reporters : list AccountId) (w : AccountId) : Balance :=
  sum_over (fun r => if r =? w then per else 0) reporters.

Lemma pay_each_exact l per i y s : flying (ni_amount i + y) (L s) -> ni_asset_id i = cennz -> 0 <= per -> 0 <= y ->
  per * Z.of_nat (length l) <= ni_amount i ->
  let left := ni_amount i - per * Z.of_nat (length l) in
  exists s', pay_each l per i s = (Ok (NegativeImbalance_new left cennz), s') /\ flying (left + y) (L s') /\ bonds s' = bonds s /\
  forall b w, holding b w (L s') = holding b w (L s) + if decide (cennz = b) then reporters_paid per l w else 0.
Proof.
  intros Hf Hi Hper Hy. revert i s Hf Hi. induction l as [|r l IH]; intros i s Hf Hi Hle.
  { simpl in *. rewrite Z.mul_0_r, Z.sub_0_r. exists s. split_and!; [|done..|].
    - unfold ret. destruct i. simpl in Hi. by subst.
    - intros. case_decide; unfold reporters_paid; simpl; lia. }
  simpl pay_each. unfold bind at 1, write_world, modify. cbn [length] in Hle |- *. set (n := Z.of_nat (length l)) in *.
  assert (Hn : Z.of_nat (S (length l)) = n + 1) by lia. rewrite Hn in *.
  assert (Hm : Z.min (ni_amount i) per = per) by nia. rewrite Hm.
  pose proof (resolve_flow _ r (NegativeImbalance_new per (ni_asset_id i)) (L s) Hf Hi ltac:(simpl; nia)) as Hr. simpl in Hr.
  pose proof (resolve_holding _ r (NegativeImbalance_new per (ni_asset_id i)) (L s) Hf Hi ltac:(simpl; nia)) as Hh. simpl in Hh.
  match goal with |- context [pay_each l per _ ?s1] => set (s2 := s1) end.
  destruct (IH (NegativeImbalance_new (ni_amount i - per) (ni_asset_id i)) s2) as (s' & H1 & Hf1 & Hb1 & Hh1).
  - simpl. replace (ni_amount i - per + y) with (ni_amount i + y - per) by lia. exact Hr.
  - exact Hi.
  - simpl. nia.
  - simpl in H1, Hf1. exists s'. replace (ni_amount i - per - per * n) with (ni_amount i - per * (n + 1)) in * by lia.
    split_and!; [done | done | by rewrite Hb1|]. intros b w. rewrite Hh1. change (L s2) with (resolve_creating r (NegativeImbalance_new per (ni_asset_id i)) (L s)).
    rewrite Hh. unfold reporters_paid. simpl. repeat case_decide; simplify_eq; rewrite ?Z.eqb_refl; try lia; destruct (Z.eqb_spec r w); simplify_eq; lia.
Qed.

(** Each reporter's share, when [total] was slashed and [payout] may be paid. *)
Definition reporter_share (payout total : Balance) (reporters : list AccountId) : Balance :=
  Z.min payout total / Z.of_nat (length reporters).

Lemma pay_reporters_exact payout i reporters s : flying (ni_amount i) (L s) -> ni_asset_id i = cennz -> 0 <= payout ->
  Z.of_nat (length reporters) <= umax 32 ->
  let per := reporter_share payout (ni_amount i) reporters in
  exists s', pay_reporters payout i reporters s = (Ok tt, s') /\ flying 0 (L s') /\ bonds s' = bonds s /\
  forall b w, holding b w (L s') = holding b w (L s) + if decide (cennz = b) then reporters_paid per reporters w +
    (if treasury_account =? w then ni_amount i - per * Z.of_nat (length reporters) else 0) else 0.
Proof.
  intros Hf Hi Hp Hlen per. pose proof (fl_nonneg _ _ Hf) as Hi0. unfold pay_reporters. destruct (_ || _) eqn:E.
  { eexists. split; [done|]. split; [by apply (treasury_flow i (L s))|]. split; [done|]. intros b w.
    transitivity (holding b w (slash_funds_to_treasury i (L s))); [done|]. rewrite treasury_holding by done.
    assert (Hz : per * Z.of_nat (length reporters) = 0 /\ reporters_paid per reporters w = 0).
    { apply orb_true_iff in E as [E%Z.eqb_eq|E%bool_decide_eq_true]; [|rewrite E; simpl; lia].
      assert (Hper : per = 0) by (unfold per, reporter_share; rewrite Z.min_l, E by lia; by destruct (Z.of_nat _)). rewrite Hper.
      split; [lia|]. clear. induction reporters as [|r l IH]; [done|]. unfold reporters_paid in *. simpl. rewrite IH. by case_match. }
    destruct Hz as [-> ->]. repeat case_decide; simplify_eq; rewrite ?Z.eqb_refl; try lia; destruct (Z.eqb_spec treasury_account w); simplify_eq; lia. }
  apply orb_false_iff in E as [_ Hr%bool_decide_eq_false].
  set (n := Z.of_nat (length reporters)) in *. assert (Hn : 0 < n) by (destruct reporters; [done | simpl in n; lia]).
  unfold ni_split. cbn [fst snd]. set (m := Z.min (ni_amount i) _). assert (Hm : m = Z.min payout (ni_amount i)) by lia.
  rewrite wrap_small by (unfold in_range; lia). rewrite (proj2 (Z.eqb_neq _ _)) by lia.
  assert (Hper : m / n = per) by (unfold per, reporter_share; by rewrite Hm). cbn [ni_amount NegativeImbalance_new]. rewrite Hper.
  assert (Hper0 : 0 <= per) by (rewrite <- Hper; apply Z.div_pos; lia).
  assert (Hmul : per * n <= m) by (rewrite <- Hper, Z.mul_comm; by apply Z.mul_div_le).
  destruct (pay_each_exact reporters per (NegativeImbalance_new m (ni_asset_id i)) (ni_amount i - m) s) as (s1 & Hpay & Hf1 & Hb1 & Hh1);
    simpl; try done; try lia; [by replace (m + (ni_amount i - m)) with (ni_amount i) by lia|]. simpl in Hpay, Hf1. fold n in Hpay, Hf1.
  unfold bind. rewrite Hpay. set (j := NegativeImbalance_new (m - per * n) cennz). set (rest := NegativeImbalance_new (ni_amount i - m) (ni_asset_id i)).
  rewrite Z.add_comm in Hf1. pose proof (ni_merge_flow rest j (L s1) Hf1) as Hmerge.
  assert (Hf2 : flying (ni_amount (ni_merge rest j)) (L s1)) by (rewrite Hmerge; exact Hf1).
  assert (Ha2 : ni_asset_id (ni_merge rest j) = cennz) by (by rewrite Hmerge).
  eexists. split; [done|]. split; [by apply (treasury_flow _ (L s1))|]. split; [done|]. intros b w.
  transitivity (holding b w (slash_funds_to_treasury (ni_merge rest j) (L s1))); [done|]. rewrite treasury_holding, Hh1, Hmerge by done. simpl.
  repeat case_decide; simplify_eq; rewrite ?Z.eqb_refl; try lia; destruct (Z.eqb_spec treasury_account w); simplify_eq; lia.
Qed.

(** C16: applying a slash takes from the validator and each nominator exactly
    what it asks of their ledger, as far as the account can pay, and lowers that
    ledger; it pays every reporter the same share of the reward that is left
    after what could not be taken, and the treasury everything else.  No other
    account, asset or ledger changes, no unit is created or lost, and the
    currency's books are solvent again. *)
Theorem apply_slash_settles u s : L s = g0 -> 0 <= us_payout u -> Z.of_nat (length (us_reporters u)) <= umax 32 ->
  let entries := (us_validator u, us_own u) :: us_others u in
  NoDup entries.*1 -> bonds_ok (bonds s) ->
  let total := sum_over (slash_taken s) entries in
  let payout := Z.max 0 (us_payout u - sum_over (slash_missing s) entries) in
  let per := reporter_share payout total (us_reporters u) in
  exists s', apply_slash u s = (Ok tt, s') /\
    inv (L s') /\ (forall a, total_issuance a (L s') = total_issuance a g0) /\
    (forall a w, holding a w (L s') = holding a w g0 + if decide (cennz = a) then
       reporters_paid per (us_reporters u) w - lost s entries w +
       (if treasury_account =? w then total - per * Z.of_nat (length (us_reporters u)) else 0) else 0) /\
    (forall c, Ledger (bonds s') !! c = ledger_after (minimum_balance cennz g0) entries <$> Ledger (bonds s) !! c).
Proof.
  intros HL Hp Hlen entries Hnd Hb total payout per. unfold apply_slash. unfold bind at 1, state. simpl stk_issue.
  destruct (issue_flow 0 g0 flying_start) as [Hi Hf]. rewrite HL.
  assert (Hih : forall b w, holding b w (ac_issue staking_asset_id 0 g0).2 = holding b w g0) by (unfold ac_issue; by destruct (checked_add _ _ _)).
  assert (Him : AssetMeta (ac_issue staking_asset_id 0 g0).2 = AssetMeta g0) by (unfold ac_issue; by destruct (checked_add _ _ _)).
  destruct (ac_issue staking_asset_id 0 g0) as [i g]. simpl in Hi, Hf, Hih, Him. set (s1 := on_world _ s).
  assert (Hmin : minimum_balance cennz (L s1) = minimum_balance cennz (L s)) by (change (L s1) with g; unfold minimum_balance, asset_meta; by rewrite HL, Him).
  assert (Ht : forall e, slash_taken s1 e = slash_taken s e) by (intros e; unfold slash_taken; rewrite Hmin, HL; change (L s1) with g; by rewrite Hih).
  assert (Hms : forall e, slash_missing s1 e = slash_missing s e) by (intros e; unfold slash_missing; by rewrite Hmin, Ht).
  destruct (do_slashes_exact entries (us_payout u) i s1) as (s2 & Hd & Hf2 & Hh2 & Hl2); try done.
  { by rewrite Hi. }
  { by rewrite Hi. }
  { exact (bo_paired _ Hb). }
  rewrite Hi in Hd, Hf2. cbn [ni_amount NegativeImbalance_new] in Hd, Hf2. rewrite Z.add_0_l in Hd, Hf2. rewrite (sum_over_ext (slash_taken s1) (slash_taken s)), (sum_over_ext (slash_missing s1) (slash_missing s)) in Hd by auto.
  rewrite (sum_over_ext (slash_taken s1) (slash_taken s)) in Hf2 by auto. fold entries total payout in Hd, Hf2.
  destruct (pay_reporters_exact payout (NegativeImbalance_new total cennz) (us_reporters u) s2) as (s3 & Hr & Hf3 & Hb3 & Hh3);
    [exact Hf2 | done | apply Z.le_max_l | done |].
  exists s3. unfold bind. cbv beta iota zeta. fold s1 entries. rewrite Hi, Hd. cbv beta iota.
  split; [exact Hr|]. split; [by apply flying_landed|]. split; [by apply flying_landed|]. split.
  - intros a w. rewrite Hh3, Hh2. cbn [ni_amount NegativeImbalance_new]. fold per. change (L s1) with g. rewrite Hih. unfold lost.
    rewrite (sum_over_ext (fun e => if e.1 =? w then slash_taken s1 e else 0) (fun e => if e.1 =? w then slash_taken s e else 0)) by (intros; by rewrite Ht).
    repeat case_decide; simplify_eq; try lia; repeat case_match; lia.
  - intros c. rewrite Hb3, Hl2, Hmin, HL. done.
Qed.
End Flow.
