(* ===== verification/RewardsTheorems.v ===== *)
(** * Staking rewards: what is paid

    The shares of an era and of a payout add up to what there is to share, up
    to half a unit of rounding per share; what is scheduled and the remainder
    are the stakers' cut; minting them keeps the ledger solvent. *)

From S2P Require Import Prelude Support GenericAssetTypes StakingTypes SlashingSpans StakingState StakingRewards StakingSlashOps.

Section Shares.
Context {perbill : PerbillOps} {laws : PerbillLaws}.

(** ** Rounding *)

(** Shares of [cut] in proportion to [values] of a [whole] they fit into. *)
Definition share (whole cut value : Z) : Balance := perbill_mul (perbill_from_rational value whole) cut.

Lemma share_nonneg whole cut value : 0 <= value -> 0 < whole -> 0 <= cut -> 0 <= share whole cut value.
Proof. intros Hv Hw Hc. apply perbill_mul_range; [apply perbill_from_rational_range; lia | done]. Qed.

Lemma share_le whole cut value : 0 <= value -> 0 < whole -> 0 <= cut -> share whole cut value <= cut.
Proof. intros Hv Hw Hc. apply perbill_mul_range; [apply perbill_from_rational_range; lia | done]. Qed.

Lemma zsum_cons x l : zsum (x :: l) = x + zsum l.
Proof. done. Qed.

Lemma zsum_fmap_cons {A} (f : A -> Z) x l : zsum (f <$> x :: l) = f x + zsum (f <$> l).
Proof. done. Qed.

Lemma zsum_map_nonneg {A} (f : A -> Z) l : Forall (fun x => 0 <= f x) l -> 0 <= zsum (f <$> l).
Proof. induction 1; [done|]. rewrite zsum_fmap_cons. lia. Qed.

Lemma parts_sum whole (values : list Z) : 0 < whole -> Forall (fun v => 0 <= v) values ->
  whole * zsum ((fun v => perbill_from_rational v whole) <$> values) <= PERBILL_ONE * zsum values.
Proof.
  intros Hw. induction 1 as [|v l Hv Hl IH]; [simpl; lia|]. rewrite zsum_fmap_cons, zsum_cons. pose proof (perbill_from_rational_floor v whole Hv Hw). lia.
Qed.

Lemma shares_parts whole cut (values : list Z) : 0 < whole -> 0 <= cut -> Forall (fun v => 0 <= v) values ->
  2 * PERBILL_ONE * zsum (share whole cut <$> values) <=
    2 * cut * zsum ((fun v => perbill_from_rational v whole) <$> values) + PERBILL_ONE * Z.of_nat (length values).
Proof.
  intros Hw Hc. induction 1 as [|v l Hv Hl IH]; [simpl; lia|]. rewrite !zsum_fmap_cons. cbn [length].
  pose proof (perbill_mul_nearest (perbill_from_rational v whole) cut (perbill_from_rational_range v whole Hv ltac:(lia)) Hc).
  fold (share whole cut v) in *. lia.
Qed.

(** The shares exceed the cut by at most half a unit each. *)
Lemma shares_bounded whole cut (values : list Z) : 0 < whole -> 0 <= cut -> Forall (fun v => 0 <= v) values -> zsum values <= whole ->
  2 * zsum (share whole cut <$> values) <= 2 * cut + Z.of_nat (length values).
Proof.
  intros Hw Hc Hv Hsum. pose proof (shares_parts whole cut values Hw Hc Hv) as H1. pose proof (parts_sum whole values Hw Hv) as H2.
  set (parts := zsum ((fun v => perbill_from_rational v whole) <$> values)) in *.
  assert (H3 : parts <= PERBILL_ONE).
  { apply (Z.mul_le_mono_pos_l _ _ whole Hw). assert (PERBILL_ONE * zsum values <= PERBILL_ONE * whole) by (unfold PERBILL_ONE; lia). lia. }
  assert (H4 : 2 * cut * parts <= 2 * cut * PERBILL_ONE) by (apply Z.mul_le_mono_nonneg_l; lia).
  apply (Z.mul_le_mono_pos_l _ _ PERBILL_ONE); [done | lia].
Qed.

(** ** The payout of one validator *)
Record exposure_ok (e : Exposure) : Prop := {
  eo_own : 0 <= ex_own e;
  eo_others : Forall (fun n => 0 <= ie_value n) (ex_others e);
  eo_total : ex_own e + zsum (ie_value <$> ex_others e) <= ex_total e;
}.

Definition paid (payouts : list (AccountId * Balance)) : Z := zsum (snd <$> payouts).

Lemma paid_app l k : paid (l ++ k) = paid l + paid k.
Proof. unfold paid. induction l as [|x l IH]; [done|]. rewrite <- app_comm_cons, !zsum_fmap_cons, IH. lia. Qed.

(** The amounts of [calculate_npos_payouts] without wrap-around. *)
Definition npos_amounts (rate : Perbill) (e : Exposure) (reward : Balance) : list Z :=
  let validator_cut := perbill_mul rate reward in
  share (Z.max (ex_total e) 1) (reward - validator_cut) <$> ((ie_value <$> ex_others e) ++ [ex_own e]).

Lemma zsum_app l k : zsum (l ++ k) = zsum l + zsum k.
Proof. induction l as [|x l IH]; [done|]. rewrite <- app_comm_cons, !zsum_cons, IH. lia. Qed.

Lemma npos_payouts_paid r v rate e reward : exposure_ok e -> 0 <= rate <= PERBILL_ONE -> in_range BALANCE_BITS reward ->
  Forall (fun p => 0 <= p.2) (calculate_npos_payouts v rate e reward r) /\
  (paid (calculate_npos_payouts v rate e reward r) = reward \/
   paid (calculate_npos_payouts v rate e reward r) = perbill_mul rate reward + zsum (npos_amounts rate e reward)).
Proof.
  intros [Ho Hs Ht] Hrate [Hr Hr']. pose proof (perbill_mul_range rate reward Hrate Hr) as Hcut.
  unfold calculate_npos_payouts, saturating_sub. rewrite Z.min_l, Z.max_r by lia.
  destruct (Z.eqb_spec (reward - perbill_mul rate reward) 0) as [E|E].
  { split; [repeat constructor; simpl; lia|]. left. unfold paid. simpl. lia. }
  set (whole := Z.max (ex_total e) 1). set (cut := reward - perbill_mul rate reward) in *. fold (share whole cut).
  pose proof (share_nonneg whole cut (ex_own e) Ho ltac:(lia) ltac:(lia)). pose proof (share_le whole cut (ex_own e) Ho ltac:(lia) ltac:(lia)).
  change (perbill_mul (perbill_from_rational (ex_own e) whole) cut) with (share whole cut (ex_own e)).
  unfold wrapping_add. rewrite wrap_small by (unfold in_range, cut in *; lia). split.
  - apply Forall_app. split; [|repeat constructor; simpl; lia]. apply Forall_fmap. eapply Forall_impl; [exact Hs|]. simpl.
    intros n Hn. apply share_nonneg; lia.
  - right. rewrite paid_app. unfold npos_amounts. fold whole cut. rewrite fmap_app, zsum_app. unfold paid at 2. simpl.
    assert (Hp : paid ((fun n => (payee (ie_who n) r, perbill_mul (perbill_from_rational (ie_value n) whole) cut)) <$> ex_others e) =
      zsum (share whole cut <$> (ie_value <$> ex_others e))).
    { unfold paid. by rewrite <- !list_fmap_compose. }
    rewrite Hp. lia.
Qed.

Lemma payout_shares_bounded r v rate e reward : exposure_ok e -> 0 <= rate <= PERBILL_ONE -> in_range BALANCE_BITS reward ->
  2 * paid (calculate_npos_payouts v rate e reward r) <= 2 * reward + Z.of_nat (length (ex_others e)) + 1.
Proof.
  intros He Hrate Hr. destruct (npos_payouts_paid r v rate e reward He Hrate Hr) as [_ Hpaid].
  destruct He as [Ho Hs Ht]. destruct Hr as [Hr Hr']. pose proof (perbill_mul_range rate reward Hrate Hr) as Hcut.
  destruct Hpaid as [->| ->]; [lia|]. unfold npos_amounts.
  pose proof (shares_bounded (Z.max (ex_total e) 1) (reward - perbill_mul rate reward) ((ie_value <$> ex_others e) ++ [ex_own e])) as Hb.
  rewrite zsum_app, length_app, length_fmap in Hb. simpl in Hb. cut (Forall (fun x => 0 <= x) ((ie_value <$> ex_others e) ++ [ex_own e])).
  - intros Hf. specialize (Hb ltac:(lia) ltac:(lia) Hf ltac:(lia)). lia.
  - apply Forall_app. split; [by apply Forall_fmap | by repeat constructor].
Qed.

(** ** The payouts of an era *)

(** The points of an era count what the validators were given. *)
Record points_ok (p : EraRewardPoints) : Prop := {
  po_nonneg : forall v x, erp_individual p !! v = Some x -> 0 <= x;
  po_total : msum (fun _ x => x) (erp_individual p) = erp_total p;
}.

Lemma sget_points_nonneg (m : gmap Z Z) v : (forall k x, m !! k = Some x -> 0 <= x) -> 0 <= sget 0 v m.
Proof. intros Hm. unfold sget. destruct (m !! v) as [x|] eqn:E; simpl; [by eapply Hm | lia]. Qed.

Lemma zsum_points_le (m : gmap Z Z) l : (forall k x, m !! k = Some x -> 0 <= x) -> NoDup l ->
  zsum ((fun v => sget 0 v m) <$> l) <= msum (fun _ x => x) m.
Proof.
  intros Hm Hl. revert m Hm. induction Hl as [|v l Hv Hl IH]; intros m Hm; [by apply msum_nonneg|]. rewrite zsum_fmap_cons.
  assert (Hd : zsum ((fun w => sget 0 w m) <$> l) = zsum ((fun w => sget 0 w (delete v m)) <$> l)).
  { f_equal. apply list_fmap_ext. intros i w Hw. unfold sget. rewrite lookup_delete_ne; [done|]. intros ->.
    by apply list_elem_of_lookup_2 in Hw. }
  rewrite Hd. specialize (IH (delete v m)). rewrite msum_delete in IH. unfold mval in IH. unfold sget at 1.
  assert (Hm' : forall k x, delete v m !! k = Some x -> 0 <= x) by (intros k x [_ Hk]%lookup_delete_Some; eauto).
  specialize (IH Hm'). destruct (m !! v); simpl in *; lia.
Qed.

Lemma erp_total_nonneg p : points_ok p -> 0 <= erp_total p.
Proof. intros [H1 <-]. by apply msum_nonneg. Qed.

Definition era_payouts (cut : Balance) (validators : list AccountId) (p : EraRewardPoints) : list Z :=
  validator_payout cut (Z.of_nat (length validators)) p <$> validators.

Lemma zsum_const {A} (l : list A) c : zsum ((fun _ => c) <$> l) = Z.of_nat (length l) * c.
Proof. induction l as [|x l IH]; [done|]. rewrite zsum_fmap_cons, IH. simpl length. lia. Qed.

Lemma era_payouts_bounded cut validators p : points_ok p -> NoDup validators -> 0 <= cut -> Z.of_nat (length validators) <= umax 32 ->
  Forall (fun x => 0 <= x <= cut) (era_payouts cut validators p) /\
  2 * zsum (era_payouts cut validators p) <= 2 * cut + Z.of_nat (length validators).
Proof.
  intros Hp Hnd Hc Hlen. destruct validators as [|v0 l] eqn:El; [split; [constructor | simpl; lia]|]. rewrite <- El in *.
  assert (Hn : 0 < Z.of_nat (length validators)) by (rewrite El; simpl; lia). clear El. pose proof (erp_total_nonneg p Hp) as Ht.
  unfold era_payouts, validator_payout. destruct (Z.eqb_spec (erp_total p) 0) as [E|E].
  - rewrite wrap_small by (unfold in_range; lia). set (n := Z.of_nat (length validators)) in *. rewrite zsum_const. fold n.
    pose proof (Z.mul_div_le cut n Hn). pose proof (Z.div_pos cut n Hc Hn). split; [|lia]. apply Forall_fmap, Forall_true. intros v. simpl. nia.
  - set (value v := sget 0 v (erp_individual p)). 
    change (Forall (fun x => 0 <= x <= cut) ((share (erp_total p) cut ∘ value) <$> validators) /\
      2 * zsum ((share (erp_total p) cut ∘ value) <$> validators) <= 2 * cut + Z.of_nat (length validators)).
    assert (Hv : Forall (fun x => 0 <= x) (value <$> validators)).
    { apply Forall_fmap, Forall_true. intros v. by apply sget_points_nonneg, Hp. }
    split.
    + apply Forall_fmap, Forall_true. intros v. simpl. assert (0 <= value v) by apply sget_points_nonneg, Hp.
      split; [apply share_nonneg | apply share_le]; lia.
    + pose proof (zsum_points_le (erp_individual p) validators (po_nonneg _ Hp) Hnd) as Hle. rewrite (po_total _ Hp) in Hle.
      pose proof (shares_bounded (erp_total p) cut (value <$> validators) ltac:(lia) Hc Hv Hle) as Hb.
      rewrite <- list_fmap_compose, length_fmap in Hb. exact Hb.
Qed.

Lemma foldl_wrapping_sub (l : list (AccountId * Balance)) x :
  foldl (fun y p => wrapping_sub BALANCE_BITS y (snd p)) x l = if bool_decide (l = []) then x else wrap BALANCE_BITS (x - paid l).
Proof.
  revert x. induction l as [|p l IH]; intros x; [done|]. rewrite bool_decide_eq_false_2 by done. simpl. rewrite IH.
  unfold paid. rewrite zsum_fmap_cons. fold (paid l). case_bool_decide as E.
  - subst l. unfold wrapping_sub, paid. simpl. f_equal. lia.
  - unfold wrapping_sub, wrap. rewrite Zminus_mod_idemp_l. f_equal. lia.
Qed.

(** The remainder is what the cut leaves, modulo the width of a balance. *)
Lemma per_validator_payouts_spec cut validators p : in_range BALANCE_BITS cut ->
  let '(payouts, remainder) := calculate_per_validator_payouts cut validators p in
  fst <$> payouts = validators /\ snd <$> payouts = era_payouts cut validators p /\
  remainder = wrap BALANCE_BITS (cut - zsum (era_payouts cut validators p)).
Proof.
  intros Hc. unfold calculate_per_validator_payouts. set (payouts := _ <$> validators).
  assert (H1 : snd <$> payouts = era_payouts cut validators p) by (unfold payouts; by rewrite <- list_fmap_compose).
  split_and!; [unfold payouts; rewrite <- list_fmap_compose; apply list_fmap_id | done|].
  rewrite foldl_wrapping_sub. unfold paid. rewrite H1. case_bool_decide as E; [|done]. rewrite E in H1. simpl in H1. rewrite <- H1. simpl.
  rewrite Z.sub_0_r. symmetry. by apply wrap_small.
Qed.
End Shares.

(** ** Writing the schedule *)
Section Schedule.
Context {L : Type}.
Implicit Types s : State L.

Lemma dinsert_all_other {V} era (l : list (Z * V)) m e v : (e <> era \/ v ∉ fst <$> l) ->
  dlookup e v (foldl (fun m p => dinsert era p.1 p.2 m) m l) = dlookup e v m.
Proof.
  revert m. induction l as [|[k x] l IH]; intros m Hne; [done|]. simpl. rewrite IH by (rewrite fmap_cons, not_elem_of_cons in Hne; naive_solver).
  rewrite dlookup_insert. destruct (Z.eqb_spec e era), (Z.eqb_spec v k); simpl; try done. subst. exfalso. destruct Hne as [?|Hne]; [done|]. apply Hne. left.
Qed.

Lemma dinsert_all_in {V} era (l : list (Z * V)) m v x : NoDup (fst <$> l) -> (v, x) ∈ l ->
  dlookup era v (foldl (fun m p => dinsert era p.1 p.2 m) m l) = Some x.
Proof.
  revert m. induction l as [|[k y] l IH]; intros m Hnd Hin; [by apply not_elem_of_nil in Hin|]. simpl in Hnd |- *.
  apply NoDup_cons in Hnd as [Hk Hnd]. apply elem_of_cons in Hin as [[= -> ->]|Hin]; [|by apply IH].
  rewrite dinsert_all_other by by right. by rewrite dlookup_insert, !Z.eqb_refl.
Qed.

Lemma schedule_run (l : list (Z * Balance)) era s :
  for_each l (fun '(stash, amount) => write (set_ScheduledPayoutAmounts (dinsert era stash amount))) s =
    (Ok tt, on_rewards (set_ScheduledPayoutAmounts (fun m => foldl (fun m p => dinsert era p.1 p.2 m) m l)) s).
Proof.
  revert s. induction l as [|[k x] l IH]; intros s; [by destruct s as [[] ? ?]|]. simpl. unfold bind, write, modify.
  rewrite IH. by destruct s as [[] ? ?].
Qed.

Lemma dprefix_inserts {V} e era (l : list (Z * V)) (m : gmap Z (gmap Z V)) :
  dprefix e (foldl (fun m p => dinsert era p.1 p.2 m) m l) =
    if e =? era then foldl (fun x p => <[p.1 := p.2]> x) (dprefix e m) l else dprefix e m.
Proof.
  revert m. induction l as [|[k x] l IH]; intros m; [simpl; by destruct (e =? era)|]. cbn [foldl fst snd]. rewrite IH. unfold dinsert.
  rewrite dprefix_insert. by destruct (Z.eqb_spec e era) as [->|].
Qed.

Lemma size_inserts {V} (l : list (Z * V)) (m : gmap Z V) : NoDup (fst <$> l) -> (forall v, v ∈ fst <$> l -> m !! v = None) ->
  size (foldl (fun x p => <[p.1 := p.2]> x) m l) = (size m + length l)%nat.
Proof.
  revert m. induction l as [|[k x] l IH]; intros m Hnd Hm; [simpl; lia|]. cbn [fmap list_fmap fst] in Hnd, Hm. apply NoDup_cons in Hnd as [Hp Hnd]. cbn [foldl length fst snd]. rewrite IH; [|done|].
  - rewrite map_size_insert_None; [lia|]. apply Hm. left.
  - intros v Hv. rewrite lookup_insert_ne by (intros ->; done). apply Hm. by right.
Qed.
End Schedule.

(** * Staking rewards: the queue of payouts

    An idle block pays the first scheduled payouts of the oldest era, as many
    as its weight allows, and takes exactly these off the schedule.  Blocks
    with room for one payout drain the schedule. *)


Section Idle.
Context {L : Type} {config : RewardsConfig} {currency : RewardCurrency L} {perbill : PerbillOps} {fixed : FixedU128Ops}.
Implicit Types s : State L.
Variable view : EraIndex -> AccountId -> Exposure * Perbill.

(** The iteration of a storage map yields each entry once. *)
Hypothesis Horder : forall V (m : gmap Z V), payout_order V m ≡ₚ map_to_list m.

(** ** Payouts cannot fail and leave the store of the pallet alone *)
Lemma pay_stakers_run era l i s : exists i' s', pay_stakers era l i s = (Ok i', s') /\ rewards s' = rewards s.
Proof.
  revert i s. induction l as [|[stash v] l IH]; intros i s; [by eexists _, _|]. simpl. unfold bind at 1, state.
  destruct (rc_deposit_creating _ _ _) as [p g]. unfold bind at 1, modify.
  match goal with |- context [pay_stakers era l ?j ?s1] => destruct (IH j s1) as (i' & s' & -> & Hr) end. by eexists _, _.
Qed.

Lemma process_reward_payout_run v c e a era s : exists s', process_reward_payout v c e a era s = (Ok tt, s') /\ rewards s' = rewards s.
Proof.
  unfold process_reward_payout. destruct (a =? 0); [by eexists|]. unfold bind at 1, state. destruct (rc_burn 0 (ledger s)) as [p g].
  rewrite run_gets. unfold bind at 1.
  match goal with |- context [pay_stakers era ?l ?i ?s1] => destruct (pay_stakers_run era l i s1) as (i' & s' & Hp & Hr) end. rewrite Hp. eexists. split; [done|]. exact Hr.
Qed.

Definition pay_one (era : EraIndex) s (p : AccountId * Balance) : State L := (run_payout view p.1 p.2 era s).2.

Lemma run_payout_run v a era s : exists s',
  run_payout view v a era s = (Ok (estimate_run_payout_weight view v era), s') /\ s' = pay_one era s (v, a) /\ rewards s' = rewards s.
Proof.
  unfold pay_one, run_payout, estimate_run_payout_weight. cbn [fst snd]. destruct (view era v) as [e c]. unfold bind. cbn [fst snd].
  destruct (process_reward_payout_run v c e a era s) as (s' & Hp & Hr). rewrite Hp. exists s'. split_and!; [|done | done].
  unfold ret, saturating_add. do 2 f_equal. lia.
Qed.

Lemma pay_all_rewards era l s : rewards (foldl (pay_one era) s l) = rewards s.
Proof.
  revert s. induction l as [|[v a] l IH]; intros s; [done|]. simpl. rewrite IH.
  by destruct (run_payout_run v a era s) as (s' & _ & -> & ->).
Qed.

(** ** How many payouts fit *)
Fixpoint affordable (era : EraIndex) (remaining : Z) (l : list (AccountId * Balance)) (consumed : Z) : nat * Z :=
  match l with
  | [] => (O, consumed)
  | (v, _) :: l =>
      let consumed := wrapping_add 64 consumed (wrapping_add 64 db_read db_write) in
      let estimate := estimate_run_payout_weight view v era in
      if wrapping_add 64 consumed estimate <=? remaining then
        let '(n, c) := affordable era remaining l (wrapping_add 64 consumed estimate) in (S n, c)
      else (O, consumed)
  end.

Lemma affordable_le era remaining l consumed : ((affordable era remaining l consumed).1 <= length l)%nat.
Proof.
  revert consumed. induction l as [|[v a] l IH]; intros consumed; simpl; [done|]. destruct (_ <=? remaining); [|simpl; lia].
  match goal with |- context [affordable _ _ l ?c] => specialize (IH c); destruct (affordable era remaining l c) end. simpl in *. lia.
Qed.

Lemma idle_payouts_eq era remaining l consumed left done_ s :
  let '(n, c) := affordable era remaining l consumed in
  idle_payouts view era remaining l consumed left done_ s =
    (Ok (c, Nat.iter n (fun x => wrapping_sub 32 x 1) left, done_ ++ (fst <$> take n l)), foldl (pay_one era) s (take n l)).
Proof.
  revert consumed left done_ s. induction l as [|[v a] l IH]; intros consumed left done_ s; simpl; [by rewrite app_nil_r|].
  set (c1 := wrapping_add 64 consumed _). set (e := estimate_run_payout_weight view v era). unfold checked_sub.
  destruct (_ <=? remaining); [|simpl; by rewrite app_nil_r].
  destruct (run_payout_run v a era s) as (s1 & Hr & Hs1 & _). fold e in Hr. unfold bind. rewrite Hr.
  specialize (IH (wrapping_add 64 c1 e) (wrapping_sub 32 left 1) (done_ ++ [v]) s1).
  destruct (affordable era remaining l (wrapping_add 64 c1 e)) as [n c]. rewrite IH, Hs1. simpl. rewrite <- app_assoc. simpl.
  do 4 f_equal. clear. symmetry. exact (Nat.iter_succ_r n Z (fun x => wrapping_sub 32 x 1) left).
Qed.

Lemma iter_sub n left : Z.of_nat n <= left -> left <= umax 32 -> Nat.iter n (fun x => wrapping_sub 32 x 1) left = left - Z.of_nat n.
Proof.
  induction n as [|n IH]; intros Hn Hl; simpl; [lia|]. rewrite IH by lia. unfold wrapping_sub. rewrite wrap_small; [lia | unfold in_range; lia].
Qed.

(** ** The schedule *)
Record schedule_ok (r : RewardStore) : Prop := {
  sc_nodup : NoDup (fst <$> ScheduledPayoutErasAndCounts r);
  sc_count : forall e c, (e, c) ∈ ScheduledPayoutErasAndCounts r ->
    c = Z.of_nat (size (dprefix e (ScheduledPayoutAmounts r))) /\ c <= umax 32;
  sc_queued : forall e, e ∉ fst <$> ScheduledPayoutErasAndCounts r -> dprefix e (ScheduledPayoutAmounts r) = ∅;
}.

Definition payouts_of (e : EraIndex) (r : RewardStore) : list (AccountId * Balance) := payout_order _ (dprefix e (ScheduledPayoutAmounts r)).

(** The store after the first [n] payouts of the oldest era. *)
Definition taken_off (n : nat) (r : RewardStore) : RewardStore :=
  match ScheduledPayoutErasAndCounts r with
  | [] => r
  | (era, count) :: later =>
      set_ScheduledPayoutAmounts (fun m => foldl (fun m v => ddelete era v m) m (fst <$> take n (payouts_of era r)))
        (set_ScheduledPayoutErasAndCounts (fun _ => if count - Z.of_nat n =? 0 then later else (era, count - Z.of_nat n) :: later) r)
  end.

Lemma delete_run (l : list AccountId) era s :
  for_each l (fun stash => write (set_ScheduledPayoutAmounts (ddelete era stash))) s =
    (Ok tt, on_rewards (set_ScheduledPayoutAmounts (fun m => foldl (fun m v => ddelete era v m) m l)) s).
Proof.
  revert s. induction l as [|v l IH]; intros s; [by destruct s as [[] ? ?]|]. simpl. unfold bind, write, modify. rewrite IH.
  by destruct s as [[] ? ?].
Qed.

Lemma idle_pays_prefix_run s w era count later : schedule_ok (rewards s) -> wrapping_add 64 db_read db_write <= w ->
  ScheduledPayoutErasAndCounts (rewards s) = (era, count) :: later ->
  let '(n, c) := affordable era w (payouts_of era (rewards s)) (wrapping_add 64 db_read db_write) in
  let paid := foldl (pay_one era) s (take n (payouts_of era (rewards s))) in
  on_idle view w s = (Ok c, mkState (taken_off n (rewards s)) (reward_events paid) (ledger paid)).
Proof.
  intros Hok Hw Hq. pose proof (affordable_le era w (payouts_of era (rewards s)) (wrapping_add 64 db_read db_write)) as Hle.
  pose proof (idle_payouts_eq era w (payouts_of era (rewards s)) (wrapping_add 64 db_read db_write) count [] s) as Hidle.
  destruct (affordable _ _ _ _) as [n c]. simpl in Hle.
  destruct (sc_count _ Hok era count) as [Hc Hmax]; [rewrite Hq; left|].
  assert (Hlen : length (payouts_of era (rewards s)) = size (dprefix era (ScheduledPayoutAmounts (rewards s)))).
  { unfold payouts_of. rewrite Horder. by rewrite length_map_to_list. }
  unfold on_idle. rewrite (proj2 (Z.ltb_ge _ _) Hw), run_gets, Hq, run_gets. fold (payouts_of era (rewards s)).
  unfold bind at 1. rewrite Hidle, iter_sub by lia. unfold bind, write at 1, modify. rewrite delete_run. unfold ret. f_equal.
  unfold on_rewards. cbn [rewards reward_events ledger]. rewrite pay_all_rewards. f_equal. unfold taken_off. rewrite Hq. done.
Qed.

(** An idle block pays, in order, the first payouts of the oldest scheduled
    era, as many as its weight allows, exactly as if they were run one after
    the other, and takes exactly these off the schedule. *)
Theorem idle_pays_prefix s w era count later : schedule_ok (rewards s) -> wrapping_add 64 db_read db_write <= w ->
  ScheduledPayoutErasAndCounts (rewards s) = (era, count) :: later ->
  let '(n, c) := affordable era w (payouts_of era (rewards s)) (wrapping_add 64 db_read db_write) in
  let paid := foldl (pay_one era) s (take n (payouts_of era (rewards s))) in
  on_idle view w s = (Ok c, mkState (taken_off n (rewards s)) (reward_events paid) (ledger paid)).
Proof. apply idle_pays_prefix_run. Qed.

(** ** Draining *)
Lemma dprefix_deletes {V} e era (l : list Z) (m : gmap Z (gmap Z V)) :
  dprefix e (foldl (fun m v => ddelete era v m) m l) = if e =? era then foldl (fun x v => delete v x) (dprefix e m) l else dprefix e m.
Proof.
  revert m. induction l as [|v l IH]; intros m; simpl; [by destruct (e =? era)|]. rewrite IH. unfold ddelete. rewrite dprefix_insert.
  by destruct (Z.eqb_spec e era) as [->|].
Qed.

Lemma size_deletes {V} (l : list Z) (m : gmap Z V) : NoDup l -> (forall v, v ∈ l -> is_Some (m !! v)) ->
  size (foldl (fun x v => delete v x) m l) = (size m - length l)%nat.
Proof.
  intros Hl. revert m. induction Hl as [|v l Hv Hl IH]; intros m Hm; simpl; [lia|]. rewrite IH.
  - destruct (Hm v) as [x Hx]; [left|]. rewrite map_size_delete, Hx. lia.
  - intros u Hu. rewrite lookup_delete_ne by (intros ->; done). apply Hm. by right.
Qed.

Lemma payout_keys n e r : let keys := fst <$> take n (payouts_of e r) in
  NoDup keys /\ forall v, v ∈ keys -> is_Some (dprefix e (ScheduledPayoutAmounts r) !! v).
Proof.
  unfold payouts_of. set (m := dprefix e _). pose proof (Horder _ m) as Hp. cbv zeta. rewrite fmap_take. split.
  - assert (Hnd : NoDup (fst <$> payout_order _ m)) by (rewrite Hp; apply NoDup_fst_map_to_list).
    rewrite <- (take_drop n (fst <$> payout_order _ m)) in Hnd. by apply NoDup_app in Hnd as [? _].
  - intros v Hv. rewrite <- fmap_take in Hv. apply list_elem_of_fmap in Hv as ([k x] & -> & Hin). apply elem_of_take in Hin as (i & Hi & _).
    apply list_elem_of_lookup_2 in Hi. rewrite Hp in Hi. apply elem_of_map_to_list in Hi. by exists x.
Qed.

Lemma taken_off_ok n r era count later : schedule_ok r -> ScheduledPayoutErasAndCounts r = (era, count) :: later ->
  Z.of_nat n <= count -> schedule_ok (taken_off n r).
Proof.
  intros [Hnd Hc Hq] Hque Hn. unfold taken_off. rewrite Hque. rewrite Hque in *. apply NoDup_cons in Hnd as [Hera Hnd].
  destruct (Hc era count) as [Hcount Hmax]; [left|]. destruct (payout_keys n era r) as [Hk1 Hk2].
  set (keys := fst <$> take n (payouts_of era r)) in *.
  assert (Hlen : length keys = n).
  { unfold keys, payouts_of. rewrite length_fmap, length_take, Horder, length_map_to_list. lia. }
  assert (Hsize : size (foldl (fun x v => delete v x) (dprefix era (ScheduledPayoutAmounts r)) keys) = (Z.to_nat count - n)%nat).
  { rewrite size_deletes, Hlen by done. lia. }
  assert (Hother : forall e, e <> era -> dprefix e (foldl (fun m v => ddelete era v m) (ScheduledPayoutAmounts r) keys) = dprefix e (ScheduledPayoutAmounts r)).
  { intros e He. by rewrite dprefix_deletes, (proj2 (Z.eqb_neq _ _) He). }
  assert (Hlater : forall e c, (e, c) ∈ later -> e <> era).
  { intros e c Hin ->. apply Hera. apply list_elem_of_fmap. by exists (era, c). }
  destruct (Z.eqb_spec (count - Z.of_nat n) 0) as [E|E]; split; cbn [ScheduledPayoutErasAndCounts ScheduledPayoutAmounts set_ScheduledPayoutAmounts set_ScheduledPayoutErasAndCounts].
  - done.
  - intros e c Hin. rewrite Hother by by eapply Hlater. apply Hc. by right.
  - intros e He. destruct (decide (e = era)) as [->|Hne].
    + rewrite dprefix_deletes, Z.eqb_refl. apply map_size_empty_inv. rewrite Hsize. lia.
    + rewrite Hother by done. apply Hq. by apply not_elem_of_cons.
  - by apply NoDup_cons.
  - intros e c [[= -> ->]|Hin]%elem_of_cons; [|rewrite Hother by (by eapply Hlater); apply Hc; by right].
    rewrite dprefix_deletes, Z.eqb_refl, Hsize. lia.
  - intros e [Hne He]%not_elem_of_cons. simpl in Hne. rewrite Hother by done. apply Hq. by apply not_elem_of_cons.
Qed.

(** Blocks one after the other. *)
Fixpoint idle_blocks (w : Z) (k : nat) : D (State L) unit :=
  match k with
  | O => ret tt
  | S k => let* _weight := on_idle view w in idle_blocks w k
  end.

Definition pending (r : RewardStore) : nat := foldr (fun p n => (Z.to_nat p.2 + S n)%nat) O (ScheduledPayoutErasAndCounts r).

(** Payouts read no more of the rewards pallet than the payees. *)
Definition with_rewards (r : RewardStore) s : State L := mkState r (reward_events s) (ledger s).

Lemma pay_stakers_cons era v a l i s :
  pay_stakers era ((v, a) :: l) i s =
    let '(p, g) := rc_deposit_creating (payee v (rewards s)) a (ledger s) in
    pay_stakers era l (pi_merge i p) (deposit_event (EraStakerPayout era v a) (on_ledger (fun _ => g) s)).
Proof. simpl. unfold bind at 1, state. by destruct (rc_deposit_creating _ _ _). Qed.

Lemma pay_stakers_rewards r era l i s : Payee r = Payee (rewards s) ->
  pay_stakers era l i (with_rewards r s) =
    ((pay_stakers era l i s).1, with_rewards r (pay_stakers era l i s).2).
Proof.
  revert i s. induction l as [|[v a] l IH]; intros i s Hp; [done|]. rewrite !pay_stakers_cons.
  assert (Hv : payee v (rewards (with_rewards r s)) = payee v (rewards s)) by (unfold payee; cbn [rewards with_rewards]; by rewrite Hp).
  rewrite Hv. change (ledger (with_rewards r s)) with (ledger s). destruct (rc_deposit_creating _ _ _) as [p g].
  exact (IH (pi_merge i p) (deposit_event (EraStakerPayout era v a) (on_ledger (fun _ => g) s)) Hp).
Qed.

Lemma process_reward_payout_rewards r v c e a era s : Payee r = Payee (rewards s) ->
  (process_reward_payout v c e a era (with_rewards r s)).2 = with_rewards r (process_reward_payout v c e a era s).2.
Proof.
  intros Hp. unfold process_reward_payout. destruct (a =? 0); [done|].
  assert (Hn : calculate_npos_payouts v c e a r = calculate_npos_payouts v c e a (rewards s)).
  { unfold calculate_npos_payouts, payee. by rewrite Hp. }
  unfold bind, state, gets, modify. change (ledger (with_rewards r s)) with (ledger s). destruct (rc_burn 0 (ledger s)) as [b g].
  change (rewards (on_ledger (fun _ => g) (with_rewards r s))) with r. change (rewards (on_ledger (fun _ => g) s)) with (rewards s). rewrite Hn.
  set (l := calculate_npos_payouts _ _ _ _ _). set (s0 := on_ledger (fun _ => g) s).
  change (on_ledger (fun _ => g) (with_rewards r s)) with (with_rewards r s0). rewrite (pay_stakers_rewards r era l b s0 Hp).
  by destruct (pay_stakers_run era l b s0) as (b' & s' & -> & _).
Qed.

Lemma pay_one_rewards r era p s : Payee r = Payee (rewards s) -> pay_one era (with_rewards r s) p = with_rewards r (pay_one era s p).
Proof.
  intros Hp. unfold pay_one, run_payout. destruct p as [v a]. cbn [fst snd]. destruct (view era v) as [e c].
  pose proof (process_reward_payout_rewards r v c e a era s Hp) as Hr. unfold bind.
  destruct (process_reward_payout_run v c e a era s) as (s1 & H1 & _), (process_reward_payout_run v c e a era (with_rewards r s)) as (s2 & H2 & _).
  rewrite H1, H2 in *. exact Hr.
Qed.

Definition pay_all (l : list (EraIndex * (AccountId * Balance))) s : State L := foldl (fun s x => pay_one x.1 s x.2) s l.

Lemma pay_all_era era l s : pay_all (pair era <$> l) s = foldl (pay_one era) s l.
Proof. unfold pay_all. revert s. induction l as [|p l IH]; intros s; [done | apply IH]. Qed.

Lemma pay_all_app l1 l2 s : pay_all (l1 ++ l2) s = pay_all l2 (pay_all l1 s).
Proof. apply foldl_app. Qed.

Lemma pay_all_with_rewards r l s : Payee r = Payee (rewards s) -> pay_all l (with_rewards r s) = with_rewards r (pay_all l s).
Proof.
  unfold pay_all. revert s. induction l as [|[era p] l IH]; intros s Hp; [done|]. simpl. rewrite pay_one_rewards by done. apply IH.
  rewrite Hp. pose proof (pay_all_rewards era [p] s) as Hr. simpl in Hr. by rewrite Hr.
Qed.

(** The payouts [pss], one list for each scheduled era, are all that is scheduled. *)
Definition covers_schedule (r : RewardStore) (pss : list (list (AccountId * Balance))) : Prop :=
  Forall2 (fun ec ps => ps ≡ₚ map_to_list (dprefix ec.1 (ScheduledPayoutAmounts r))) (ScheduledPayoutErasAndCounts r) pss.

Definition era_by_era (schedule : list (EraIndex * Z)) (pss : list (list (AccountId * Balance))) : list (EraIndex * (AccountId * Balance)) :=
  concat (zip_with (fun ec ps => pair ec.1 <$> ps) schedule pss).

Lemma map_to_list_deletes {V} (l : list (Z * V)) (m : gmap Z V) : NoDup (fst <$> l) -> (forall k v, (k, v) ∈ l -> m !! k = Some v) ->
  l ++ map_to_list (foldl (fun x k => delete k x) m (fst <$> l)) ≡ₚ map_to_list m.
Proof.
  revert m. induction l as [|[k v] l IH]; intros m Hnd Hl; [done|]. simpl in *. apply NoDup_cons in Hnd as [Hk Hnd].
  rewrite IH; [apply map_to_list_delete, Hl; left | done|].
  intros k' v' Hin. rewrite lookup_delete_ne; [apply Hl; by right|]. intros ->. apply Hk, list_elem_of_fmap. by exists (k', v').
Qed.

(** What one block leaves scheduled, completed by what it paid. *)
Lemma covers_taken_off n r era count later pss : schedule_ok r -> ScheduledPayoutErasAndCounts r = (era, count) :: later ->
  Z.of_nat n <= count -> covers_schedule (taken_off n r) pss ->
  exists pss', covers_schedule r pss' /\
    era_by_era (ScheduledPayoutErasAndCounts r) pss' =
      (pair era <$> take n (payouts_of era r)) ++ era_by_era (ScheduledPayoutErasAndCounts (taken_off n r)) pss.
Proof.
  intros Hok Hq Hn. destruct (sc_count _ Hok era count) as [Hc _]; [rewrite Hq; left|]. pose proof (sc_nodup _ Hok) as Hnd. rewrite Hq in Hnd.
  apply NoDup_cons in Hnd as [Hera _]. unfold covers_schedule, taken_off. rewrite Hq. cbn [ScheduledPayoutErasAndCounts ScheduledPayoutAmounts set_ScheduledPayoutAmounts set_ScheduledPayoutErasAndCounts].
  destruct (payout_keys n era r) as [Hk1 _]. set (now := take n (payouts_of era r)) in *.
  assert (Hnow : forall k v, (k, v) ∈ payouts_of era r -> dprefix era (ScheduledPayoutAmounts r) !! k = Some v).
  { intros k v Hin. unfold payouts_of in Hin. rewrite Horder in Hin. by apply elem_of_map_to_list in Hin. }
  assert (Hlater : forall pss0, Forall2 (fun ec ps => ps ≡ₚ map_to_list (dprefix ec.1
      (foldl (fun m v => ddelete era v m) (ScheduledPayoutAmounts r) (fst <$> now)))) later pss0 ->
    Forall2 (fun ec ps => ps ≡ₚ map_to_list (dprefix ec.1 (ScheduledPayoutAmounts r))) later pss0).
  { intros pss0 HF. rewrite Forall2_lookup in HF |- *. intros k. specialize (HF k).
    inversion HF as [[e c] ps Hps Hx Hy|Hx Hy]; [|by constructor]. constructor.
    rewrite dprefix_deletes, (proj2 (Z.eqb_neq _ _)) in Hps; [done|]. simpl. intros ->. apply Hera, list_elem_of_fmap. exists (era, c).
    split; [done|]. symmetry in Hx. by eapply list_elem_of_lookup_2. }
  destruct (Z.eqb_spec (count - Z.of_nat n) 0) as [E|E]; intros HF.
  - exists (now :: pss). split; [|done]. constructor; [|by apply Hlater]. simpl. unfold now. rewrite take_ge; [unfold payouts_of; apply Horder|].
    unfold payouts_of. rewrite Horder, length_map_to_list. lia.
  - apply Forall2_cons_inv_l in HF as (ps & pss0 & Hps & HF & ->). exists ((now ++ ps) :: pss0). split.
    + constructor; [|by apply Hlater]. simpl in *. rewrite Hps, dprefix_deletes, Z.eqb_refl. apply map_to_list_deletes; [done|].
      intros k v Hin. apply Hnow. unfold now in Hin. apply elem_of_take in Hin as (x & Hx & _). by eapply list_elem_of_lookup_2.
    + unfold era_by_era. simpl. by rewrite fmap_app, <- app_assoc.
Qed.

(** C32: blocks whose idle weight has room for one payout drain the schedule:
    after as many of them as there are payouts and eras waiting, nothing is
    scheduled any more, and every scheduled payout has been run, once: the
    ledger and the events are those of running all of them one after the other,
    oldest era first.  Nothing else of the pallet changes. *)
Theorem payouts_drain w k s : schedule_ok (rewards s) -> wrapping_add 64 db_read db_write <= w ->
  (forall era v, wrapping_add 64 (wrapping_add 64 (wrapping_add 64 db_read db_write) (wrapping_add 64 db_read db_write))
     (estimate_run_payout_weight view v era) <= w) ->
  (pending (rewards s) <= k)%nat ->
  exists s' pss, idle_blocks w k s = (Ok tt, s') /\ covers_schedule (rewards s) pss /\
    let paid := pay_all (era_by_era (ScheduledPayoutErasAndCounts (rewards s)) pss) s in
    ledger s' = ledger paid /\ reward_events s' = reward_events paid /\
    ScheduledPayoutErasAndCounts (rewards s') = [] /\ (forall e, dprefix e (ScheduledPayoutAmounts (rewards s')) = ∅) /\
    rewards s' = set_ScheduledPayoutAmounts (fun _ => ScheduledPayoutAmounts (rewards s'))
      (set_ScheduledPayoutErasAndCounts (fun _ => []) (rewards s)).
Proof.
  intros Hok Hw Hroom. revert s Hok. induction k as [|k IH]; intros s Hok Hk.
  - exists s, []. unfold covers_schedule, pending in *. destruct (ScheduledPayoutErasAndCounts (rewards s)) as [|[e c] l] eqn:Hq; [|simpl in Hk; lia].
    split_and!; try done.
    + intros e. apply (sc_queued _ Hok). rewrite Hq. apply not_elem_of_nil.
    + destruct s as [[] ? ?]. simpl in *. by rewrite Hq.
  - simpl. destruct (ScheduledPayoutErasAndCounts (rewards s)) as [|[era count] later] eqn:Hq.
    { assert (Hidle : on_idle view w s = (Ok (wrapping_add 64 db_read db_write), s)).
      { unfold on_idle. by rewrite (proj2 (Z.ltb_ge _ _) Hw), run_gets, Hq. }
      unfold bind. rewrite Hidle. destruct (IH s) as (s' & pss & HI); [done | unfold pending in *; rewrite Hq in *; simpl; lia|].
      exists s', pss. by rewrite Hq in HI. }
    pose proof (idle_pays_prefix_run s w era count later Hok Hw Hq) as Hidle.
    pose proof (affordable_le era w (payouts_of era (rewards s)) (wrapping_add 64 db_read db_write)) as Hle.
    destruct (sc_count _ Hok era count) as [Hc Hmax]; [rewrite Hq; left|].
    assert (Hlen : length (payouts_of era (rewards s)) = size (dprefix era (ScheduledPayoutAmounts (rewards s)))).
    { unfold payouts_of. rewrite Horder. by rewrite length_map_to_list. }
    assert (Hpos : (affordable era w (payouts_of era (rewards s)) (wrapping_add 64 db_read db_write)).1 = O -> count = 0).
    { destruct (payouts_of era (rewards s)) as [|[v a] l]; [simpl in Hlen; lia|]. simpl. rewrite (proj2 (Z.leb_le _ _) (Hroom era v)).
      by destruct (affordable era w l _). }
    destruct (affordable era w _ _) as [n c]. simpl in Hle, Hpos. unfold bind. rewrite Hidle.
    set (sp := foldl (pay_one era) s _). destruct (IH (with_rewards (taken_off n (rewards s)) sp)) as (s' & pss & H1 & H2 & H3 & H4 & H5 & H6 & H7).
    + cbn [rewards with_rewards]. apply (taken_off_ok n _ era count later); [done | done | lia].
    + cbn [rewards with_rewards]. unfold pending, taken_off in *. rewrite Hq in *. cbn [ScheduledPayoutErasAndCounts set_ScheduledPayoutAmounts set_ScheduledPayoutErasAndCounts].
      simpl in Hk. destruct (Z.eqb_spec (count - Z.of_nat n) 0); simpl; lia.
    + cbn [rewards with_rewards] in H2, H3, H4, H7. destruct (covers_taken_off n (rewards s) era count later pss) as (pss' & Hcov & Hpaid); [done | done | lia | done|].
      assert (Hpayee : Payee (taken_off n (rewards s)) = Payee (rewards sp)) by (unfold sp; rewrite pay_all_rewards; unfold taken_off; by rewrite Hq).
      rewrite pay_all_with_rewards in H3, H4 by done.
      exists s', pss'. rewrite <- Hq, Hpaid, pay_all_app, pay_all_era. split_and!; try done. rewrite H7 at 1. unfold taken_off. by rewrite Hq.
Qed.
End Idle.
