(* ===== verification/RewardsInv.v ===== *)
(** * Staking rewards: the reachable stores

    Every value the rewards pallet stores stays inside its type, the history
    stays bounded, and the schedule counts what is waiting, in every state its
    calls, the end of eras and idle blocks can lead to. *)

From S2P Require Import Prelude Support GenericAssetTypes StakingTypes SlashingSpans StakingState StakingSlashOps StakingRewards RewardsTheorems.

(** What the pallet relies on of its currency: a well-formed ledger stays so and
    its issuance fits a balance. *)
Class RewardCurrencyLaws (L : Type) {currency : RewardCurrency L} := {
  rc_ok : L -> Prop;
  rc_issuance_range : forall l, rc_ok l -> in_range BALANCE_BITS (rc_total_issuance l);
  rc_deposit_ok : forall l who v, rc_ok l -> rc_ok (rc_deposit_creating who v l).2 /\ 0 <= pi_amount (rc_deposit_creating who v l).1;
  rc_burn_ok : forall l v, rc_ok l -> 0 <= v -> rc_ok (rc_burn v l).2 /\ 0 <= pi_amount (rc_burn v l).1;
  rc_drop_ok : forall l p, rc_ok l -> 0 <= pi_amount p -> rc_ok (rc_drop_positive p l);
}.

Section Inv.
Context {L : Type} {config : RewardsConfig} {currency : RewardCurrency L} {currency_laws : RewardCurrencyLaws L}
  {perbill : PerbillOps} {perbill_law : PerbillLaws} {fixed : FixedU128Ops} {fixed_laws : FixedU128Laws}.
Implicit Types s : State L.
Variable view : EraIndex -> AccountId -> Exposure * Perbill.
Hypothesis Horder : forall V (m : gmap Z V), payout_order V m ≡ₚ map_to_list m.
Hypothesis Hhistory : 0 <= HistoricalPayoutEras.
Hypothesis Hfiscal : 0 < FiscalEraLength.

Record points_typed (p : EraRewardPoints) : Prop := {
  pt_total : in_range 32 (erp_total p);
  pt_individual : forall v x, erp_individual p !! v = Some x -> in_range 32 x;
}.

Record store_typed (r : RewardStore) : Prop := {
  st_rate : in_range FIXED_BITS (BaseInflationRate r);
  st_take : 0 <= DevelopmentFundTake r <= PERBILL_ONE;
  st_pot : in_range BALANCE_BITS (TransactionFeePot r);
  st_history : Forall (in_range BALANCE_BITS) (TransactionFeePotHistory r) /\
    Z.of_nat (length (TransactionFeePotHistory r)) <= HistoricalPayoutEras;
  st_target : in_range BALANCE_BITS (TargetInflationPerStakingEra r);
  st_amounts : forall e v x, dlookup e v (ScheduledPayoutAmounts r) = Some x -> in_range BALANCE_BITS x;
  st_points : points_typed (CurrentEraRewardPoints r);
  st_schedule : schedule_ok r;
}.

Definition rewards_typed s : Prop := store_typed (rewards s) /\ rc_ok (ledger s).

(** ** Steps *)

(** The points of a validator are a [u32]. *)
Inductive step s : State L -> Prop :=
| step_inflation origin n d : 0 <= n -> 0 <= d -> step s (set_inflation_rate origin n d s).2
| step_take origin p : 0 <= p -> step s (set_development_fund_take origin p s).2
| step_force origin : step s (force_new_fiscal_era origin s).2
| step_points l : step s (reward_by_ids l s).2
| step_payee stash payee : step s (set_payee stash payee s).2
| step_no_payee stash : step s (remove_payee stash s).2
| step_fees amount : in_range BALANCE_BITS amount -> step s (note_transaction_fees amount s).2
| step_end_era vs era ms forced : NoDup vs -> Z.of_nat (length vs) <= umax 32 -> 0 <= ms ->
    era ∉ fst <$> ScheduledPayoutErasAndCounts (rewards s) -> step s (on_end_era vs era ms forced s).2
| step_idle w : step s (on_idle view w s).2
| step_currency l : rc_ok l -> step s (on_ledger (fun _ => l) s).

(** The store of a genesis configuration. *)
Definition genesis_store (rate : FixedU128) (take : Perbill) : RewardStore :=
  mkRewardStore rate take 0 [] ∅ ∅ [] 0 0 false EraRewardPoints_default 1.

Inductive reachable : State L -> Prop :=
| reachable_genesis rate take l : in_range FIXED_BITS rate -> 0 <= take <= PERBILL_ONE -> rc_ok l ->
    reachable (mkState (genesis_store rate take) [] l)
| reachable_step s s' : reachable s -> step s s' -> reachable s'.

(** ** The writes *)
Ltac typed := intros [H1 H2 H3 H4 H5 H6 H7 H8]; split; simpl; try done.

Lemma schedule_ext r r' : ScheduledPayoutErasAndCounts r' = ScheduledPayoutErasAndCounts r ->
  ScheduledPayoutAmounts r' = ScheduledPayoutAmounts r -> schedule_ok r -> schedule_ok r'.
Proof. intros Hq Ha [H1 H2 H3]. split; rewrite ?Hq, ?Ha; done. Qed.

Lemma typed_rate x r : in_range FIXED_BITS x -> store_typed r -> store_typed (set_BaseInflationRate (fun _ => x) r).
Proof. intros Hx. typed. by apply (schedule_ext r). Qed.

Lemma typed_take x r : 0 <= x <= PERBILL_ONE -> store_typed r -> store_typed (set_DevelopmentFundTake (fun _ => x) r).
Proof. intros Hx. typed. by apply (schedule_ext r). Qed.

Lemma typed_pot f r : (forall x, in_range BALANCE_BITS x -> in_range BALANCE_BITS (f x)) -> store_typed r -> store_typed (set_TransactionFeePot f r).
Proof. intros Hx. typed; [by apply Hx | by apply (schedule_ext r)]. Qed.

Lemma typed_target x r : in_range BALANCE_BITS x -> store_typed r -> store_typed (set_TargetInflationPerStakingEra (fun _ => x) r).
Proof. intros Hx. typed. by apply (schedule_ext r). Qed.

Lemma typed_payee f r : store_typed r -> store_typed (set_Payee f r).
Proof. typed. by apply (schedule_ext r). Qed.

Lemma typed_force f r : store_typed r -> store_typed (set_ForceFiscalEra f r).
Proof. typed. by apply (schedule_ext r). Qed.

Lemma typed_epoch f r : store_typed r -> store_typed (set_FiscalEraEpoch f r).
Proof. typed. by apply (schedule_ext r). Qed.

Lemma typed_points f r : (forall p, points_typed p -> points_typed (f p)) -> store_typed r -> store_typed (set_CurrentEraRewardPoints f r).
Proof. intros Hf. typed; [by apply Hf | by apply (schedule_ext r)]. Qed.

Lemma typed_history x r : in_range BALANCE_BITS x -> store_typed r ->
  store_typed (set_TransactionFeePotHistory (fun h => take (Z.to_nat HistoricalPayoutEras) (x :: h)) r).
Proof.
  intros Hx. typed; [|by apply (schedule_ext r)]. destruct H4 as [H4 H4']. split; [apply Forall_take; by constructor|].
  rewrite length_take. lia.
Qed.

Lemma reward_points_typed l p : points_typed p -> points_typed (foldl reward_one p l).
Proof.
  revert p. induction l as [|[v x] l IH]; intros p Hp; [done|]. apply IH. destruct Hp as [H1 H2]. split; simpl.
  - by apply wrap_range.
  - intros w y. destruct (decide (w = v)) as [->|Hne]; [rewrite lookup_insert_eq; intros [= <-]; by apply wrap_range|].
    rewrite lookup_insert_ne by done. apply H2.
Qed.

(** A call that only writes the store. *)
Lemma write_typed f s : (store_typed (rewards s) -> store_typed (f (rewards s))) -> rewards_typed s -> rewards_typed (on_rewards f s).
Proof. intros Hf [H1 H2]. split; simpl; [by apply Hf | done]. Qed.

Lemma write_preserves f : (forall r, store_typed r -> store_typed (f r)) -> preserves rewards_typed (write f).
Proof. intros Hf s Hs. by apply write_typed; [apply Hf|]. Qed.

Lemma root_only origin (m : D (State L) unit) : preserves rewards_typed m -> preserves rewards_typed (do* ensure_root origin in m).
Proof. intros Hm. apply preserves_bind; [|by intros]. apply preserves_reader. intros s. by destruct origin. Qed.

Lemma deposit_and_drop_typed who v s : rewards_typed s -> rewards_typed (deposit_and_drop who v s).
Proof.
  intros [H1 H2]. split; [done|]. unfold deposit_and_drop. simpl. pose proof (rc_deposit_ok (ledger s) who v H2) as [Hd1 Hd2].
  destruct (rc_deposit_creating who v (ledger s)) as [p l]. by apply rc_drop_ok.
Qed.

(** ** Payouts *)
Lemma pay_stakers_typed era l i s : rewards_typed s -> 0 <= pi_amount i ->
  exists i' s', pay_stakers era l i s = (Ok i', s') /\ rewards_typed s' /\ 0 <= pi_amount i'.
Proof.
  revert i s. induction l as [|[stash v] l IH]; intros i s Hs Hi; [by eexists _, _|]. simpl. unfold bind at 1, state.
  destruct Hs as [H1 H2]. pose proof (rc_deposit_ok (ledger s) (payee stash (rewards s)) v H2) as [Hd1 Hd2].
  destruct (rc_deposit_creating _ _ _) as [p g]. unfold bind at 1, modify. apply IH; [done|].
  simpl in *. assert (0 <= umax BALANCE_BITS) by done. unfold saturating_add. lia.
Qed.

Lemma payout_typed v c e a era s : rewards_typed s -> rewards_typed (process_reward_payout v c e a era s).2.
Proof.
  intros Hs. unfold process_reward_payout. destruct (a =? 0); [done|]. unfold bind at 1, state.
  pose proof (rc_burn_ok (ledger s) 0 (proj2 Hs) ltac:(done)) as [Hb1 Hb2]. destruct (rc_burn 0 (ledger s)) as [p g].
  rewrite run_gets. unfold bind at 1. set (s1 := on_ledger _ s). assert (Hs1 : rewards_typed s1) by (split; [apply Hs | done]).
  destruct (pay_stakers_typed era (calculate_npos_payouts v c e a (rewards s1)) p s1 Hs1 Hb2) as (i & s2 & -> & Hs2 & Hi).
  unfold bind, modify. simpl. pose proof (deposit_and_drop_typed treasury_account (saturating_sub a (pi_amount i)) s2 Hs2) as [H3 H4].
  split; [exact H3|]. by apply rc_drop_ok.
Qed.

Lemma pay_all_typed era l s : rewards_typed s -> rewards_typed (foldl (pay_one view era) s l).
Proof.
  revert s. induction l as [|[v a] l IH]; intros s Hs; [done|]. simpl. apply IH. unfold pay_one, run_payout. cbn [fst snd].
  destruct (view era v) as [e c]. unfold bind. pose proof (payout_typed v c e a era s Hs) as Hp.
  by destruct (process_reward_payout _ _ _ _ _ s) as [[?|?|] s'].
Qed.

Lemma taken_off_typed n r era count later : store_typed r -> ScheduledPayoutErasAndCounts r = (era, count) :: later ->
  Z.of_nat n <= count -> store_typed (taken_off n r).
Proof.
  intros Hr Hq Hn. pose proof (taken_off_ok Horder n r era count later (st_schedule _ Hr) Hq Hn) as Hok. revert Hr Hok. unfold taken_off. rewrite Hq.
  set (keys := fst <$> take n (payouts_of era r)). intros Hr Hok. destruct Hr as [H1 H2 H3 H4 H5 H6 H7 H8]. split; try done.
  intros e v x. cbn [ScheduledPayoutAmounts set_ScheduledPayoutAmounts set_ScheduledPayoutErasAndCounts]. unfold dlookup.
  rewrite dprefix_deletes. destruct (e =? era); [|apply H6]. intros Hx. apply (H6 e v x). unfold dlookup. revert Hx. generalize (dprefix e (ScheduledPayoutAmounts r)).
  clear. induction keys as [|k keys IH]; intros m; [done|]. simpl. intros Hx. apply IH in Hx. apply lookup_delete_Some in Hx. naive_solver.
Qed.

Lemma on_idle_typed w s : rewards_typed s -> rewards_typed (on_idle view w s).2.
Proof.
  intros Hs. destruct (Z.lt_ge_cases w (wrapping_add 64 db_read db_write)) as [Hw|Hw].
  { unfold on_idle. by rewrite (proj2 (Z.ltb_lt _ _) Hw). }
  destruct (ScheduledPayoutErasAndCounts (rewards s)) as [|[era count] later] eqn:Hq.
  { unfold on_idle. by rewrite (proj2 (Z.ltb_ge _ _) Hw), run_gets, Hq. }
  pose proof (st_schedule _ (proj1 Hs)) as Hok.
  pose proof (idle_pays_prefix_run view Horder s w era count later Hok Hw Hq) as Hidle.
  pose proof (affordable_le view era w (payouts_of era (rewards s)) (wrapping_add 64 db_read db_write)) as Hle.
  destruct (affordable _ _ _ _ _) as [n c]. rewrite Hidle. split; cbn [rewards ledger snd].
  - apply (taken_off_typed n _ era count later); [apply Hs | done|]. destruct (sc_count _ Hok era count) as [-> _]; [rewrite Hq; left|].
    simpl in Hle. unfold payouts_of in Hle. rewrite Horder, length_map_to_list in Hle. lia.
  - apply pay_all_typed, Hs.
Qed.

(** ** The end of an era *)
Lemma validator_payout_range cut n p v : in_range BALANCE_BITS cut -> points_typed p -> 1 <= n <= umax 32 ->
  in_range BALANCE_BITS (validator_payout cut n p v).
Proof.
  intros [Hc Hc'] [[Ht _] Hi] Hn. unfold validator_payout. destruct (Z.eqb_spec (erp_total p) 0) as [E|E].
  - rewrite wrap_small by (unfold in_range; lia). pose proof (Z.div_pos cut n Hc ltac:(lia)).
    pose proof (Z.mul_div_le cut n ltac:(lia)). unfold in_range. nia.
  - assert (Hg : 0 <= sget 0 v (erp_individual p)).
    { apply sget_points_nonneg. intros k x Hk. by destruct (Hi k x Hk). }
    pose proof (perbill_mul_range (perbill_from_rational (sget 0 v (erp_individual p)) (erp_total p)) cut
      (perbill_from_rational_range _ _ Hg Ht) Hc). unfold in_range. lia.
Qed.

Lemma schedule_typed vs cut era s : in_range BALANCE_BITS cut -> NoDup vs -> Z.of_nat (length vs) <= umax 32 ->
  era ∉ fst <$> ScheduledPayoutErasAndCounts (rewards s) -> rewards_typed s ->
  rewards_typed (schedule_reward_payouts vs cut era s).2.
Proof.
  intros Hcut Hnd Hlen Hera [Hr HL]. unfold schedule_reward_payouts. rewrite run_gets.
  pose proof (per_validator_payouts_spec cut vs (CurrentEraRewardPoints (rewards s)) Hcut) as Hsp.
  destruct (calculate_per_validator_payouts _ _ _) as [payouts remainder]. destruct Hsp as (Hfst & Hsnd & _).
  unfold bind at 1. rewrite schedule_run. split; [|done]. simpl. destruct Hr as [H1 H2 H3 H4 H5 H6 H7 [Hq1 Hq2 Hq3]].
  rewrite wrap_small by (unfold in_range; lia).
  assert (Hold : dprefix era (ScheduledPayoutAmounts (rewards s)) = ∅) by by apply Hq3.
  assert (Hkeys : NoDup (fst <$> payouts)) by by rewrite Hfst.
  split; simpl; try done.
  - intros e v x Hx. destruct (decide (e = era /\ v ∈ fst <$> payouts)) as [[-> Hv]|Hn].
    + apply list_elem_of_fmap in Hv as ([k y] & -> & Hin). simpl in Hx.
      rewrite (dinsert_all_in era payouts _ k y Hkeys Hin) in Hx. injection Hx as <-.
      assert (Hy : y ∈ era_payouts cut vs (CurrentEraRewardPoints (rewards s))).
      { rewrite <- Hsnd. apply list_elem_of_fmap. by exists (k, y). }
      unfold era_payouts in Hy. apply list_elem_of_fmap in Hy as (u & -> & Hu). apply validator_payout_range; [done | done|].
      destruct vs; [by apply not_elem_of_nil in Hu | simpl in *; lia].
    + rewrite dinsert_all_other in Hx by (destruct (decide (e = era)); naive_solver). by apply (H6 e v).
  - split; cbn [ScheduledPayoutErasAndCounts ScheduledPayoutAmounts set_ScheduledPayoutAmounts set_ScheduledPayoutErasAndCounts].
    + rewrite fmap_app. apply NoDup_app. split_and!; [done | | apply NoDup_singleton].
      intros e He ->%list_elem_of_singleton. done.
    + intros e c [Hin|[= -> ->]%list_elem_of_singleton]%elem_of_app.
      * rewrite dprefix_inserts. destruct (Z.eqb_spec e era) as [->|]; [|by apply Hq2].
        exfalso. apply Hera. apply list_elem_of_fmap. by exists (era, c).
      * rewrite dprefix_inserts, Z.eqb_refl, Hold, size_inserts; [|done | intros; apply lookup_empty].
        rewrite map_size_empty. split; [|done]. rewrite <- Hfst, length_fmap. lia.
    + intros e He. rewrite fmap_app, not_elem_of_app in He. destruct He as [He Hne]. simpl in Hne. apply not_elem_of_cons in Hne as [Hne _].
      rewrite dprefix_inserts, (proj2 (Z.eqb_neq _ _) Hne). by apply Hq3.
Qed.

Lemma new_fiscal_era_typed s : rewards_typed s -> rewards_typed (new_fiscal_era s).2.
Proof.
  intros [Hr HL]. unfold new_fiscal_era. rewrite !run_gets. split; [|done]. simpl. apply typed_target; [|done].
  unfold checked_div. rewrite (proj2 (Z.eqb_neq _ _)) by lia. simpl.
  destruct (fixed_mul_int_range (BaseInflationRate (rewards s)) (rc_total_issuance (ledger s)) (st_rate _ Hr) (rc_issuance_range _ HL)) as [Hx Hx'].
  pose proof (Z.div_pos _ FiscalEraLength Hx Hfiscal). pose proof (Z.mul_div_le (fixed_mul_int (BaseInflationRate (rewards s)) (rc_total_issuance (ledger s))) FiscalEraLength Hfiscal).
  unfold in_range in *. change BALANCE_BITS with FIXED_BITS. nia.
Qed.

Lemma stakers_cut_range ms r : store_typed r -> 0 <= ms -> in_range BALANCE_BITS (rp_stakers_cut (calculate_total_reward ms r)) /\
  rp_transaction_fees (calculate_total_reward ms r) = TransactionFeePot r.
Proof.
  intros [_ Ht [Hp Hp'] _ [Hi Hi'] _ _ _] Hms. split; [|done]. unfold calculate_total_reward, RewardParts_new. simpl.
  pose proof (perbill_mul_range (DevelopmentFundTake r) (TransactionFeePot r) Ht Hp) as Hcut.
  pose proof (perbill_mul_range _ _ (perbill_from_rational_range ms FULL_ERA_DURATION Hms ltac:(done)) Hi).
  unfold saturating_add, saturating_sub, in_range in *. lia.
Qed.

Lemma default_points_typed : points_typed EraRewardPoints_default.
Proof. split; [done|]. intros v x. simpl. by rewrite lookup_empty. Qed.

Lemma on_end_era_typed vs era ms forced s : NoDup vs -> Z.of_nat (length vs) <= umax 32 -> 0 <= ms ->
  era ∉ fst <$> ScheduledPayoutErasAndCounts (rewards s) -> rewards_typed s -> rewards_typed (on_end_era vs era ms forced s).2.
Proof.
  intros Hnd Hlen Hms Hera Hs. destruct (stakers_cut_range ms (rewards s) (proj1 Hs) Hms) as [Hcut Hfees].
  unfold on_end_era. rewrite !run_gets. set (parts := calculate_total_reward ms (rewards s)) in *.
  set (s1 := if ForceFiscalEra (rewards s) then on_rewards (set_FiscalEraEpoch (fun _ => era)) s else s).
  assert (Hs1 : rewards_typed s1 /\ ScheduledPayoutErasAndCounts (rewards s1) = ScheduledPayoutErasAndCounts (rewards s)).
  { unfold s1. destruct (ForceFiscalEra _); [|done]. split; [|done]. apply write_typed; [apply typed_epoch | done]. }
  assert (Hforce : (if ForceFiscalEra (rewards s) then write (set_FiscalEraEpoch (fun _ => era)) else ret tt) s = (Ok tt, s1)).
  { unfold s1. by destruct (ForceFiscalEra _). }
  unfold bind at 1. rewrite Hforce, run_gets, (proj2 (Z.eqb_neq _ _)) by lia. destruct Hs1 as [Hs1 Hq].
  set (s2 := if saturating_sub era (FiscalEraEpoch (rewards s1)) mod FiscalEraLength =? 0 then (new_fiscal_era s1).2 else s1).
  assert (Hs2 : rewards_typed s2 /\ ScheduledPayoutErasAndCounts (rewards s2) = ScheduledPayoutErasAndCounts (rewards s)).
  { unfold s2. destruct (_ =? 0); [|done]. split; [by apply new_fiscal_era_typed | exact Hq]. }
  assert (Hfis : (if saturating_sub era (FiscalEraEpoch (rewards s1)) mod FiscalEraLength =? 0 then new_fiscal_era else ret tt) s1 = (Ok tt, s2)).
  { unfold s2. by destruct (_ =? 0). }
  unfold bind at 1. rewrite Hfis. destruct Hs2 as [Hs2 Hq2].
  pose proof (schedule_typed vs (rp_stakers_cut parts) era s2 Hcut Hnd Hlen ltac:(by rewrite Hq2) Hs2) as Hs3.
  unfold bind at 1. destruct (schedule_reward_payouts vs (rp_stakers_cut parts) era s2) as [[remainder|?|] s3]; [|done..]. revert Hs3.
  apply (preserves_bind rewards_typed (modify _)); [apply preserves_modify; intros; by apply deposit_and_drop_typed|intros _].
  apply preserves_bind; [apply preserves_modify; by intros|intros _].
  repeat (apply preserves_bind; [|intros _]); apply write_preserves.
  - intros r. apply typed_history. rewrite Hfees. apply Hs.
  - intros r. by apply typed_pot.
  - intros r. apply typed_points. intros _ _. apply default_points_typed.
  - intros r. apply typed_force.
Qed.

(** ** Reachable stores *)
Lemma step_typed s s' : rewards_typed s -> step s s' -> rewards_typed s'.
Proof.
  intros Hs [origin n d Hn Hd|origin p Hp|origin|l|stash p|stash|amount Ha|vs era ms forced Hnd Hlen Hms Hera|w|l Hl].
  - revert s Hs. apply root_only. destruct (Z.eqb_spec d 0); [by intros ? ?|].
    apply write_preserves. intros r. apply typed_rate, fixed_from_rational_range; lia.
  - revert s Hs. apply root_only, write_preserves. intros r. by apply typed_take, perbill_from_percent_range.
  - revert s Hs. apply root_only, write_preserves. intros r. apply typed_force.
  - apply write_typed; [|done]. apply typed_points. intros p. apply reward_points_typed.
  - apply write_typed; [apply typed_payee | done].
  - apply write_typed; [apply typed_payee | done].
  - apply write_typed; [|done]. apply typed_pot. intros x Hx. unfold saturating_add, in_range in *. lia.
  - by apply on_end_era_typed.
  - by apply on_idle_typed.
  - split; [apply Hs | exact Hl].
Qed.

Lemma reachable_typed s : reachable s -> rewards_typed s.
Proof.
  induction 1 as [rate take l Hr Ht Hl|s s' _ IH Hst]; [|by apply (step_typed s)]. split; [|done].
  split; simpl; try done.
  split; cbn [genesis_store ScheduledPayoutErasAndCounts ScheduledPayoutAmounts]; [apply NoDup_nil_2 | intros e c Hin; by apply not_elem_of_nil in Hin|]. intros e _. unfold dprefix, sget. by rewrite lookup_empty.
Qed.

(** In every state that calls of any origin, points, fees, ends of eras,
    idle blocks and the currency's own operations lead to, each value the
    rewards pallet stores fits its type, the fee history is no longer than
    configured, and the schedule counts exactly the payouts that wait. *)
Theorem rewards_reachable s : reachable s -> rewards_typed s.
Proof. apply reachable_typed. Qed.
End Inv.
