(* ===== verification/RewardsFlow.v ===== *)
(** * Staking rewards: minting

    On the generic asset ledger, paying a scheduled reward and closing an era
    keep the ledger solvent and raise the issuance of the spending asset by
    exactly what is paid out.  [afloat x y] says that accounts have received
    [x] while the issuance has grown by [y]. *)

From S2P Require Import Prelude Support GenericAssetTypes GenericAsset GenericAssetProps GenericAssetInv StakingTypes SlashingSpans StakingState StakingSlashOps StakingRewards StakingRuntime RewardsTheorems RewardsInv.

Section Flow.
Context `{GaConfig} {config : RewardsConfig} {perbill : PerbillOps} {laws : PerbillLaws} {fixed : FixedU128Ops}.
Implicit Types (s : StakingRewards.State GenericAsset.State) (g : GenericAsset.State).

Variable g0 : GenericAsset.State.
Hypothesis Hg0 : inv g0.
Abbreviation cpay := (spending_asset_id g0).
Hypothesis Hknown : cpay < NextAssetId g0.

Record afloat (x y : Balance) g : Prop := {
  af_ok : balances_ok g;
  af_nonneg : 0 <= x /\ 0 <= y;
  af_held : forall b, held b g = total_issuance b g0 + (if cpay =? b then x else 0);
  af_issuance : forall b, total_issuance b g = total_issuance b g0 + (if cpay =? b then y else 0);
  af_fresh : forall b, NextAssetId g0 <= b -> TotalIssuance g !! b = None;
  af_next : NextAssetId g = NextAssetId g0;
  af_perms : Permissions g = Permissions g0;
  af_spending : spending_asset_id g = cpay;
}.

Lemma afloat_start : afloat 0 0 g0.
Proof.
  split; try done; [apply Hg0 | | | apply Hg0]; intros b; [rewrite (inv_issuance _ Hg0)|]; case_match; lia.
Qed.

Lemma afloat_landed x g : afloat x x g -> total_issuance cpay g0 + x <= MAX_BALANCE ->
  inv g /\ forall b, total_issuance b g = total_issuance b g0 + (if cpay =? b then x else 0).
Proof.
  intros [H1 H2 H3 H4 H5 H6 H7 H8] Hmax. split; [|done]. split; [done | | | |].
  - intros a. by rewrite H3, H4.
  - intros a. rewrite H4. destruct (Z.eqb_spec cpay a) as [<-|]; [done|]. rewrite Z.add_0_r. apply Hg0.
  - intros a. rewrite H6. apply H5.
  - intros a. rewrite H6, H7. apply Hg0.
Qed.

Lemma afloat_issue x y z v g : afloat x y g -> 0 <= z -> v = total_issuance cpay g0 + z ->
  afloat x z (set_TotalIssuance (insert cpay v) g).
Proof.
  intros [H1 [H2 H2'] H3 H4 H5 H6 H7 H8] Hz ->. split; try done.
  - by apply balances_ok_set_TotalIssuance.
  - intros b. rewrite total_issuance_insert. destruct (Z.eqb_spec cpay b); case_decide; simplify_eq; [done|]. rewrite H4.
    by rewrite (proj2 (Z.eqb_neq _ _)).
  - intros b Hb. simpl. rewrite lookup_insert_ne by lia. by apply H5.
Qed.

Lemma afloat_deposit x y who v g : afloat x y g -> 0 <= v -> total_issuance cpay g0 + x + v <= MAX_BALANCE ->
  let '(p, g') := ac_deposit_creating spending_asset_id who v g in
  p = PositiveImbalance_new v cpay /\ afloat (x + v) y g'.
Proof.
  intros Hf Hv Hmax. unfold ac_deposit_creating, ac_make_free_balance_be. rewrite (af_spending _ _ _ Hf).
  pose proof (free_le_held cpay who g (af_ok _ _ _ Hf)) as Hle. rewrite (af_held _ _ _ Hf), Z.eqb_refl in Hle.
  pose proof (free_balance_nonneg cpay who g (af_ok _ _ _ Hf)) as Hnn.
  unfold wrapping_add. rewrite wrap_small by (unfold in_range, MAX_BALANCE in *; lia). rewrite (proj2 (Z.leb_le _ _)) by lia.
  split; [f_equal; lia|]. destruct Hf as [H1 [H2 H2'] H3 H4 H5 H6 H7 H8]. split; try done.
  - apply balances_ok_set_free; [lia | done].
  - lia.
  - intros b. rewrite held_set_free_balance, H3. case_match; lia.
Qed.

Lemma afloat_drop x y v g : afloat x y g -> 0 <= v -> total_issuance cpay g0 + y + v <= MAX_BALANCE ->
  afloat x (y + v) (drop_positive (PositiveImbalance_new v cpay) g).
Proof.
  intros Hf Hv Hmax. pose proof (af_issuance _ _ _ Hf cpay) as Hi. rewrite Z.eqb_refl in Hi. unfold drop_positive.
  apply (afloat_issue x y); [done | pose proof (af_nonneg _ _ _ Hf); lia|]. simpl. rewrite saturating_add_small; unfold MAX_BALANCE in *; lia.
Qed.

(** ** Paying a scheduled reward *)
Lemma pay_stakers_flow era l x s : afloat x 0 (ledger s) -> Forall (fun p => 0 <= p.2) l ->
  total_issuance cpay g0 + x + paid l <= MAX_BALANCE ->
  exists s', pay_stakers era l (PositiveImbalance_new x cpay) s = (Ok (PositiveImbalance_new (x + paid l) cpay), s') /\
    afloat (x + paid l) 0 (ledger s') /\ rewards s' = rewards s.
Proof.
  intros Hf Hl. revert x s Hf. induction Hl as [|[stash v] l Hv Hl IH]; intros x s Hf Hmax.
  { exists s. unfold paid. simpl. by rewrite Z.add_0_r. }
  simpl in Hv.   assert (Hp : 0 <= paid l) by (apply zsum_map_nonneg; exact Hl).
  assert (Hpaid : paid ((stash, v) :: l) = v + paid l) by done. rewrite Hpaid in *.
  pose proof (afloat_deposit x 0 (payee stash (rewards s)) v (ledger s) Hf Hv ltac:(lia)) as Hd.
  simpl. unfold bind at 1, state. simpl rc_deposit_creating. destruct (ac_deposit_creating _ _ _ _) as [p g]. destruct Hd as [-> Hd].
  cbv beta iota zeta. unfold bind at 1, modify. set (s1 := deposit_event _ _).
  assert (pi_merge (PositiveImbalance_new x cpay) (PositiveImbalance_new v cpay) = PositiveImbalance_new (x + v) cpay) as ->.
  { unfold pi_merge. simpl. rewrite saturating_add_small; [done|]. pose proof (af_nonneg _ _ _ Hf).
    assert (0 <= total_issuance cpay g0) by (rewrite <- (inv_issuance _ Hg0); pose proof (asset_free_nonneg cpay g0 (inv_ok _ Hg0));
      pose proof (asset_reserved_nonneg cpay g0 (inv_ok _ Hg0)); unfold held; lia).
    unfold MAX_BALANCE in *. lia. }
  destruct (IH (x + v) s1 Hd ltac:(lia)) as (s' & Hs' & Hf' & Hr). exists s'.
  replace (x + (v + paid l)) with (x + v + paid l) by lia. by rewrite Hs', Hr.
Qed.

Lemma deposit_and_drop_flow x y who v s : afloat x y (ledger s) -> 0 <= v -> total_issuance cpay g0 + x + v <= MAX_BALANCE ->
  y <= x -> afloat (x + v) (y + v) (ledger (deposit_and_drop who v s)).
Proof.
  intros Hf Hv Hmax Hle. unfold deposit_and_drop. simpl. pose proof (afloat_deposit x y who v (ledger s) Hf Hv Hmax) as Hd.
  destruct (ac_deposit_creating _ _ _ _) as [p g]. destruct Hd as [-> Hd]. apply afloat_drop; [done | done | lia].
Qed.

Lemma deposit_and_drop_free x y who v s b w : afloat x y (ledger s) -> 0 <= v -> total_issuance cpay g0 + x + v <= MAX_BALANCE ->
  free_balance b w (ledger (deposit_and_drop who v s)) = free_balance b w (ledger s) + if bool_decide ((b, w) = (cpay, who)) then v else 0.
Proof.
  intros Hf Hv Hmax. pose proof (free_le_held cpay who (ledger s) (af_ok _ _ _ Hf)) as Hle. rewrite (af_held _ _ _ Hf), Z.eqb_refl in Hle.
  pose proof (free_balance_nonneg cpay who (ledger s) (af_ok _ _ _ Hf)) as Hnn.
  unfold deposit_and_drop. simpl. unfold ac_deposit_creating, ac_make_free_balance_be. rewrite (af_spending _ _ _ Hf).
  unfold wrapping_add. rewrite wrap_small by (unfold in_range, MAX_BALANCE in *; lia). rewrite (proj2 (Z.leb_le _ _)) by lia.
  transitivity (free_balance b w (set_free_balance cpay who (free_balance cpay who (ledger s) + v) (ledger s))); [done|].
  rewrite free_balance_set_free_balance. case_bool_decide as E; case_decide; simplify_eq; try lia; naive_solver.
Qed.

(** What [process_reward_payout] mints for a scheduled amount. *)
Definition minted (v : AccountId) (rate : Perbill) (e : Exposure) (amount : Balance) (r : RewardStore) : Balance :=
  if amount =? 0 then 0 else Z.max amount (paid (calculate_npos_payouts v rate e amount r)).

(** Paying a scheduled reward never fails, keeps the ledger solvent and
    touches no other asset.  At least the scheduled amount is minted, the
    treasury taking what rounding leaves, and at most half a unit per staker
    more. *)
Theorem scheduled_payout_mints v rate e amount era s : ledger s = g0 -> exposure_ok e -> 0 <= rate <= PERBILL_ONE ->
  in_range BALANCE_BITS amount -> total_issuance cpay g0 + minted v rate e amount (rewards s) <= MAX_BALANCE ->
  let m := minted v rate e amount (rewards s) in
  amount <= m /\ 2 * (m - amount) <= Z.of_nat (length (ex_others e)) + 1 /\
  exists s', process_reward_payout v rate e amount era s = (Ok tt, s') /\ inv (ledger s') /\
    (forall a, total_issuance a (ledger s') = total_issuance a g0 + if cpay =? a then m else 0) /\
    rewards s' = rewards s.
Proof.
  intros HL He Hrate Ha Hmax m. destruct (npos_payouts_paid (rewards s) v rate e amount He Hrate Ha) as [Hnn _].
  pose proof (payout_shares_bounded (rewards s) v rate e amount He Hrate Ha) as Hb. unfold m, minted in *. destruct Ha as [Ha Ha'].
  unfold process_reward_payout. destruct (Z.eqb_spec amount 0) as [->|Hz].
  { split_and!; [lia | lia|]. exists s. rewrite HL. split_and!; try done. intros a. case_match; lia. }
  split_and!; [lia | lia|]. set (l := calculate_npos_payouts v rate e amount (rewards s)) in *.
  assert (Hl0 : 0 <= paid l) by (apply zsum_map_nonneg; exact Hnn).
  unfold bind at 1, state. simpl rc_burn. unfold ac_burn. rewrite HL.
  assert (Hti : 0 <= total_issuance cpay g0).
  { rewrite <- (inv_issuance _ Hg0). pose proof (asset_free_nonneg cpay g0 (inv_ok _ Hg0)).
    pose proof (asset_reserved_nonneg cpay g0 (inv_ok _ Hg0)). unfold held. lia. }
  unfold checked_sub. rewrite (proj2 (Z.leb_le 0 _)) by done. set (s1 := on_ledger _ s).
  assert (Hf1 : afloat 0 0 (ledger s1)) by (apply (afloat_issue 0 0); [apply afloat_start | done | lia]).
  rewrite run_gets. change (calculate_npos_payouts v rate e amount (rewards s1)) with l.
  destruct (pay_stakers_flow era l 0 s1 Hf1 Hnn ltac:(lia)) as (s2 & Hpay & Hf2 & Hr2). rewrite Z.add_0_l in *.
  unfold bind at 1. rewrite Hpay. unfold bind at 1, modify. simpl pi_amount.
  assert (Hf3 : afloat (Z.max amount (paid l)) (saturating_sub amount (paid l)) (ledger (deposit_and_drop treasury_account (saturating_sub amount (paid l)) s2))).
  { replace (Z.max amount (paid l)) with (paid l + saturating_sub amount (paid l)) by (unfold saturating_sub; lia).
    apply (deposit_and_drop_flow (paid l) 0); [done | unfold saturating_sub; lia.. ]. }
  eexists. split; [done|].
  assert (Hf4 : afloat (Z.max amount (paid l)) (Z.max amount (paid l)) (drop_positive (PositiveImbalance_new (paid l) cpay)
    (ledger (deposit_and_drop treasury_account (saturating_sub amount (paid l)) s2)))).
  { replace (Z.max amount (paid l)) with (saturating_sub amount (paid l) + paid l) at 2 by (unfold saturating_sub; lia).
    apply afloat_drop; [done | done | unfold saturating_sub; lia]. }
  destruct (afloat_landed _ _ Hf4 Hmax) as [Hinv Hiss]. split_and!; [exact Hinv | exact Hiss | exact Hr2].
Qed.

(** ** Closing an era *)
Record rewards_ok (r : RewardStore) : Prop := {
  rk_points : points_ok (CurrentEraRewardPoints r);
  rk_take : 0 <= DevelopmentFundTake r <= PERBILL_ONE;
  rk_pot : in_range BALANCE_BITS (TransactionFeePot r);
  rk_target : in_range BALANCE_BITS (TargetInflationPerStakingEra r);
}.

Lemma reward_parts_ranges ms r : rewards_ok r -> 0 <= ms -> let p := calculate_total_reward ms r in
  in_range BALANCE_BITS (rp_stakers_cut p) /\ 0 <= rp_treasury_cut p /\ rp_treasury_cut p + rp_stakers_cut p = rp_total p /\
  rp_total p <= umax BALANCE_BITS.
Proof.
  intros [_ Ht [Hp Hp'] [Hi Hi']] Hms. unfold calculate_total_reward, RewardParts_new. simpl.
  set (inflation := perbill_mul _ _). assert (Hinf : 0 <= inflation <= TargetInflationPerStakingEra r).
  { apply perbill_mul_range; [by apply perbill_from_rational_range|done]. }
  pose proof (perbill_mul_range (DevelopmentFundTake r) (TransactionFeePot r) Ht Hp) as Hcut.
  unfold saturating_add, saturating_sub, in_range in *. lia.
Qed.

(** The writes between the reading of the reward and the deposit. *)
Definition fiscal_writes (era : EraIndex) s : StakingRewards.State GenericAsset.State :=
  let s1 := if ForceFiscalEra (rewards s) then on_rewards (set_FiscalEraEpoch (fun _ => era)) s else s in
  if saturating_sub era (FiscalEraEpoch (rewards s1)) mod FiscalEraLength =? 0 then (new_fiscal_era s1).2 else s1.

Lemma fiscal_writes_keep era s : let s1 := fiscal_writes era s in
  ledger s1 = ledger s /\ CurrentEraRewardPoints (rewards s1) = CurrentEraRewardPoints (rewards s) /\
  ScheduledPayoutAmounts (rewards s1) = ScheduledPayoutAmounts (rewards s) /\
  ScheduledPayoutErasAndCounts (rewards s1) = ScheduledPayoutErasAndCounts (rewards s).
Proof. unfold fiscal_writes. destruct (ForceFiscalEra _); cbv zeta; destruct (_ =? 0); done. Qed.

Lemma on_end_era_eq vs era ms forced s : FiscalEraLength <> 0 ->
  let parts := calculate_total_reward ms (rewards s) in
  let s1 := fiscal_writes era s in
  let '(payouts, remainder) := calculate_per_validator_payouts (rp_stakers_cut parts) vs (CurrentEraRewardPoints (rewards s)) in
  exists s', on_end_era vs era ms forced s = (Ok tt, s') /\
    ledger s' = ledger (deposit_and_drop treasury_account (wrapping_add BALANCE_BITS (rp_treasury_cut parts) remainder) s) /\
    ScheduledPayoutAmounts (rewards s') = foldl (fun m p => dinsert era p.1 p.2 m) (ScheduledPayoutAmounts (rewards s)) payouts /\
    ScheduledPayoutErasAndCounts (rewards s') = ScheduledPayoutErasAndCounts (rewards s) ++ [(era, wrap 32 (Z.of_nat (length vs)))] /\
    TransactionFeePot (rewards s') = 0 /\ CurrentEraRewardPoints (rewards s') = EraRewardPoints_default /\
    ForceFiscalEra (rewards s') = false.
Proof.
  intros Hlen parts s1. destruct (fiscal_writes_keep era s) as (H1 & H2 & H3 & H4). fold s1 in H1, H2, H3, H4.
  destruct (calculate_per_validator_payouts _ _ _) as [payouts remainder] eqn:Ep.
  assert (Hrun : on_end_era vs era ms forced s =
    (let* remainder := schedule_reward_payouts vs (rp_stakers_cut parts) era in
          do* modify (deposit_and_drop treasury_account (wrapping_add BALANCE_BITS (rp_treasury_cut parts) remainder)) in
          do* modify (deposit_event (EraPayout era (rp_treasury_cut parts) (rp_stakers_cut parts))) in
          do* note_fee_payout (rp_transaction_fees parts) in
          do* StakingRewards.write (set_TransactionFeePot (fun _ => 0)) in
          do* StakingRewards.write (set_CurrentEraRewardPoints (fun _ => EraRewardPoints_default)) in
          StakingRewards.write (set_ForceFiscalEra (fun _ => false))) s1).
  { unfold on_end_era, s1, fiscal_writes, new_fiscal_era. rewrite !run_gets. fold parts. rewrite (proj2 (Z.eqb_neq _ _) Hlen).
    destruct (ForceFiscalEra (rewards s)); unfold bind, StakingRewards.write, modify, gets, ret; cbv beta iota zeta; by destruct (_ =? 0). }
  rewrite Hrun. clear Hrun. unfold schedule_reward_payouts. unfold bind at 1. rewrite run_gets, H2, Ep. unfold bind at 1. rewrite schedule_run.
  eexists. split; [done|]. unfold deposit_and_drop. simpl. by rewrite H1, H3, H4.
Qed.

(** C18: at the end of an era whose rounding the treasury's share covers, every
    validator has exactly its payout scheduled, once, behind the earlier eras;
    the treasury account receives its cut and the remainder, no other account
    changes, and the issuance grows by exactly this; payouts exceed the stakers' cut by at most half a unit per
    validator; fee pot and points start again. *)
Theorem era_reward_scheduled vs era ms forced s : ledger s = g0 -> rewards_ok (rewards s) -> 0 <= ms -> NoDup vs ->
  Z.of_nat (length vs) <= umax 32 -> FiscalEraLength <> 0 ->
  let parts := calculate_total_reward ms (rewards s) in
  let cut := rp_stakers_cut parts in
  let points := CurrentEraRewardPoints (rewards s) in
  let scheduled := zsum (era_payouts cut vs points) in
  scheduled <= rp_total parts -> total_issuance cpay g0 + (rp_total parts - scheduled) <= MAX_BALANCE ->
  2 * scheduled <= 2 * cut + Z.of_nat (length vs) /\
  exists s', on_end_era vs era ms forced s = (Ok tt, s') /\ inv (ledger s') /\
    (forall a, total_issuance a (ledger s') = total_issuance a g0 + if cpay =? a then rp_total parts - scheduled else 0) /\
    (forall a w, free_balance a w (ledger s') =
       free_balance a w g0 + if bool_decide ((a, w) = (cpay, treasury_account)) then rp_total parts - scheduled else 0) /\
    (forall v, v ∈ vs -> dlookup era v (ScheduledPayoutAmounts (rewards s')) = Some (validator_payout cut (Z.of_nat (length vs)) points v)) /\
    (forall e v, e <> era \/ v ∉ vs -> dlookup e v (ScheduledPayoutAmounts (rewards s')) = dlookup e v (ScheduledPayoutAmounts (rewards s))) /\
    ScheduledPayoutErasAndCounts (rewards s') = ScheduledPayoutErasAndCounts (rewards s) ++ [(era, Z.of_nat (length vs))] /\
    TransactionFeePot (rewards s') = 0 /\ CurrentEraRewardPoints (rewards s') = EraRewardPoints_default.
Proof.
  intros HL Hok Hms Hnd Hlen Hfis parts cut points scheduled Hcov Hmax.
  destruct (reward_parts_ranges ms (rewards s) Hok Hms) as (Hcut & Htr & Htot & Htm). fold parts cut in Hcut, Htr, Htot, Htm.
  destruct (era_payouts_bounded cut vs points (rk_points _ Hok) Hnd (proj1 Hcut) Hlen) as [Hall Hbound]. split; [done|].
  pose proof (on_end_era_eq vs era ms forced s Hfis) as Heq. cbv zeta in Heq. fold parts cut points in Heq.
  pose proof (per_validator_payouts_spec cut vs points Hcut) as Hsp. destruct (calculate_per_validator_payouts cut vs points) as [payouts remainder] eqn:Ep.
  destruct Hsp as (Hfst & Hsnd & ->). destruct Heq as (s' & -> & Hled & Ham & Hcnt & Hpot & Hpts & _). exists s'.
  assert (Hs0 : 0 <= scheduled).
  { unfold scheduled. clear -Hall. induction Hall; [done|]. rewrite zsum_cons. lia. }
  assert (Hamount : wrapping_add BALANCE_BITS (rp_treasury_cut parts) (wrap BALANCE_BITS (cut - zsum (era_payouts cut vs points))) = rp_total parts - scheduled).
  { unfold wrapping_add, wrap. rewrite Zplus_mod_idemp_r. fold scheduled. rewrite Z.mod_small by (unfold umax in *; lia). lia. }
  rewrite Hamount in Hled. assert (Hf0 : afloat 0 0 (ledger s)) by (rewrite HL; apply afloat_start).
  pose proof (deposit_and_drop_flow 0 0 treasury_account (rp_total parts - scheduled) s Hf0 ltac:(lia) ltac:(lia) ltac:(lia)) as Hf.
  rewrite Z.add_0_l, <- Hled in Hf. destruct (afloat_landed _ _ Hf ltac:(lia)) as [Hinv Hiss].
  split_and!; [done | exact Hinv | exact Hiss | | | | | exact Hpot | exact Hpts].
  - intros a w. rewrite Hled, (deposit_and_drop_free 0 0) by (done || lia). by rewrite HL.
  - intros v Hv. rewrite Ham. apply dinsert_all_in; [by rewrite Hfst|]. unfold calculate_per_validator_payouts in Ep. injection Ep as <- _.
    apply list_elem_of_fmap. by exists v.
  - intros e v Hne. rewrite Ham. apply dinsert_all_other. by rewrite Hfst.
  - rewrite Hcnt, wrap_small; [done|]. unfold in_range. lia.
Qed.
End Flow.

(** ** The ledger as the currency of rewards *)
Section Currency.
Context `{GaConfig}.
Implicit Types g : GenericAsset.State.

Definition issuance_typed g : Prop := forall a, in_range BALANCE_BITS (total_issuance a g).

Lemma issuance_insert a v g : in_range BALANCE_BITS v -> issuance_typed g -> issuance_typed (set_TotalIssuance (insert a v) g).
Proof.
  intros Hv Hg b. unfold total_issuance, sget. simpl. rewrite lookup_insert. case_decide; [done | apply (Hg b)].
Qed.

#[export] Program Instance ga_reward_currency_laws : RewardCurrencyLaws GenericAsset.State := {| rc_ok := issuance_typed |}.
Next Obligation. intros l Hl. apply Hl. Qed.
Next Obligation.
  intros g who v Hg. simpl. unfold ac_deposit_creating, ac_make_free_balance_be. set (asset := spending_asset_id g).
  set (n := wrapping_add _ _ _). assert (Hn : 0 <= n) by (apply (wrap_range BALANCE_BITS); done).
  assert (Hf : issuance_typed (set_free_balance asset who n g)) by done.
  destruct (Z.leb_spec (free_balance asset who g) n); simpl; [split; [done | lia]|]. split; [|done].
  apply issuance_insert; [|done]. simpl. destruct (Hf asset) as [H1 H2]. unfold in_range, saturating_sub in *. lia.
Qed.
Next Obligation.
  intros g v Hg Hv. simpl. unfold ac_burn. split; [apply issuance_insert; [apply Hg | done]|]. simpl.
  destruct (Hg (spending_asset_id g)) as [H1 _]. by destruct (checked_sub _ _).
Qed.
Next Obligation.
  intros g p Hg Hp. simpl. apply issuance_insert; [|done]. destruct (Hg (pi_asset_id p)) as [H1 H2]. unfold in_range, saturating_add in *. lia.
Qed.
End Currency.
