(* ===== verification/StakingWitnesses.v ===== *)
(** * Staking: the theorems at work

    The chain of [StakingDemo] followed through its first eras: a validator
    unbonds and withdraws, offences are reported and a slash is applied, eras
    end, are rewarded and paid out. *)

From S2P Require Import Prelude Support GenericAssetTypes GenericAsset GenericAssetProps GenericAssetInv GenericAssetAuth StakingTypes SlashingSpans StakingState Staking StakingSlashing StakingEras StakingRewards RewardsTheorems RewardsInv StakingInv StakingOps StakingSlashOps StakingTheorems StakingProps StakingSessions StakingRuntime StakingDemo StakingFlow RewardsFlow.
Import StakingDemo.

(** ** Through the eras *)
Fixpoint rotations (k : nat) (i : SessionIndex) (s : StakingState.State World) : StakingState.State World :=
  match k with
  | O => s
  | S k => rotations k (i + 1) (then_ (historical_new_session (i + 2)) (then_ (start_session (i + 1)) (then_ (end_session i) s)))
  end.

Lemma demo_bonding : 0 <= BondingDuration <= 998.
Proof. split; vm_compute; discriminate. Qed.

(** Era counters far from their bound all along. *)
Fixpoint rotations_fit (k : nat) (i : SessionIndex) (s : StakingState.State World) : bool :=
  match k with
  | O => true
  | S k => (active_of (eras (then_ (end_session i) s)) + 1 <? umax ERA_BITS) &&
      rotations_fit k (i + 1) (then_ (historical_new_session (i + 2)) (then_ (start_session (i + 1)) (then_ (end_session i) s)))
  end.

Lemma rotations_reachable k i s : reachable s -> rotations_fit k i s = true -> reachable (rotations k i s).
Proof.
  revert i s. induction k as [|k IH]; intros i s Hs Hk; [done|]. simpl in Hk |- *. apply andb_true_iff in Hk as [Hb Hk].
  apply IH; [|done]. apply Z.ltb_lt in Hb.
  assert (H1 : reachable (then_ (end_session i) s)) by (eapply reachable_step; [exact Hs | constructor]).
  assert (H2 : reachable (then_ (start_session (i + 1)) (then_ (end_session i) s))) by (eapply reachable_step; [exact H1 | by constructor]).
  eapply reachable_step; [exact H2 | constructor].
Qed.

(** The controller of stash 10 unbonds 200, which matures in era 3. *)
Definition s_unbonded : StakingState.State World := Eval vm_compute in then_ (unbond (Signed 20) 200) s_era0.

Lemma s_unbonded_reachable : reachable s_unbonded.
Proof.
  change (reachable (dispatch (Unbond 200) (Signed 20) s_era0).2). eapply reachable_step; [apply s_era0_reachable|].
  apply step_call. vm_compute. by split.
Qed.

Definition s_late : StakingState.State World := Eval vm_compute in rotations 7 0 s_unbonded.

Lemma s_late_reachable : reachable s_late.
Proof.
  change (reachable (rotations 7 0 s_unbonded)). apply rotations_reachable; [apply s_unbonded_reachable | vm_compute; reflexivity].
Qed.

Lemma staking_reachable_witness : staking_ok s_late.
Proof. apply (staking_reachable demo_bonding), s_late_reachable. Defined.

Lemma demo_ledger_10 : Ledger (bonds s_late) !! 20 = Some (mkLedger 10 500 300 [mkChunk 200 3]).
Proof. vm_compute. reflexivity. Qed.

(** In era 4 the chunk is released: 200 leave the lock of stash 10. *)
Lemma withdraw_releases_matured_witness : exists s', withdraw_unbonded (Signed 20) s_late = (Ok tt, s') /\
  Ledger (bonds s') !! 20 = Some (mkLedger 10 300 300 []) /\ stk_lock 10 (world s') = Some 300.
Proof.
  destruct (withdraw_releases_matured demo_bonding s_late 20 (mkLedger 10 500 300 [mkChunk 200 3]) 4) as (s' & Hw & Hc & _).
  - apply (reachable_ok demo_bonding), s_late_reachable.
  - vm_compute. reflexivity.
  - exact demo_ledger_10.
  - vm_compute. reflexivity.
  - exists s'. split; [exact Hw | exact Hc].
Defined.

Lemma unbond_rebond_roundtrip_witness : exists s1 s2 weight, unbond (Signed 20) 150 s_era0 = (Ok tt, s1) /\
  rebond (Signed 20) 150 s1 = (Ok weight, s2) /\ bonds s2 = bonds s_era0.
Proof.
  destruct (unbond_rebond_roundtrip s_era0 20 (mkLedger 10 500 500 []) 150) as (s1 & s2 & weight & H1 & _ & _ & H2 & H3 & _).
  - apply (reachable_ok demo_bonding), s_era0_reachable.
  - vm_compute. reflexivity.
  - vm_compute. reflexivity.
  - lia.
  - vm_compute. discriminate.
  - vm_compute. lia.
  - exists s1, s2, weight. split; [exact H1 | split; [exact H2 | exact H3]].
Defined.

(** Three deferred slashes of era 0, the outer two cancelled. *)
Definition pending_slash (v : AccountId) : UnappliedSlash := mkUnapplied v 10 [] [] 0.

Definition s_deferred : StakingState.State World :=
  on_slashes (set_UnappliedSlashes (insert 0 [pending_slash 10; pending_slash 11; pending_slash 10])) s_era0.

Lemma cancel_removes_listed_witness :
  cancel_deferred_slash Root 0 [0; 2] s_deferred = (Ok tt, on_slashes (set_UnappliedSlashes (insert 0 [pending_slash 11])) s_deferred).
Proof. rewrite (cancel_removes_listed s_deferred 0 [0; 2]); [vm_compute; reflexivity | repeat (constructor; [lia|]); constructor]. Defined.

(** The election window is open; the solution has 11 supported by itself and the
    nominator, 10 by itself. *)
Definition s_window : StakingState.State World := Eval vm_compute in
  on_election (set_EraElectionStatus (fun _ => Open 1)) (then_ create_stakers_snapshot s_era0).

Definition demo_score : ElectionScore := (500, 1200, 740000).

Definition demo_solution : D (StakingState.State World) unit :=
  check_and_replace_solution [0; 1] [(0, 0); (1, 0); (2, 1)] SignedSolution demo_score 0 (mkElectionSize 2 3).

Lemma accepted_solution_sound_witness : exists snapshot elected, SnapshotValidators (election s_window) = Some snapshot /\
  Forall2 (fun i w => snapshot !! Z.to_nat i = Some w) [0; 1] elected /\ elected = [11; 10].
Proof.
  destruct (accepted_solution_sound (npos := npos) s_window (then_ demo_solution s_window) [0; 1] [(0, 0); (1, 0); (2, 1)] SignedSolution demo_score 0
    (mkElectionSize 2 3)) as (_ & _ & _ & snapshot & nominators & elected & assignments & Hs & _ & _ & Hw & _ & _).
  - vm_compute. reflexivity.
  - exists snapshot, elected. split; [exact Hs | split; [exact Hw|]]. vm_compute in Hs. injection Hs as <-.
    inversion Hw as [|? x ? l Hx Hl]; subst. inversion Hl as [|? y ? k Hy Hk]; subst. inversion Hk; subst.
    vm_compute in Hx, Hy. by injection Hx as <-; injection Hy as <-.
Defined.

(** Era 1 is planned in session 1, whose end rewards era 0. *)
Definition s_planned : StakingState.State World := Eval vm_compute in rotations 1 0 s_era0.

Lemma s_planned_eras : eras_ok 1 s_planned.
Proof.
  assert (Hc : core s_planned = (Some 1, Some 0, <[1 := 2]> (<[0 := 0]> ∅), 32)) by (vm_compute; reflexivity).
  unfold eras_ok. rewrite Hc. split_and!; try lia; [by vm_compute | | by intros _; rewrite lookup_insert_eq].
  intros e He. by rewrite !lookup_insert_ne, lookup_empty by lia.
Qed.

Lemma era_machine_witness : exists r, rotate 1 s_planned = (Ok r, (rotate 1 s_planned).2) /\
  eras_ok 2 (rotate 1 s_planned).2 /\ ae_index <$> ActiveEra (eras (rotate 1 s_planned).2) = Some 1.
Proof.
  assert (Hr : exists r, rotate 1 s_planned = (Ok r, (rotate 1 s_planned).2)) by (eexists; vm_compute; reflexivity).
  destruct Hr as [r Hr]. exists r. split; [exact Hr|].
  destruct (era_machine 1 s_planned r (rotate 1 s_planned).2 (mkActiveEra 0 None)) as [H1 H2].
  - exact s_planned_eras.
  - vm_compute. reflexivity.
  - split; vm_compute; discriminate.
  - vm_compute. reflexivity.
  - exact Hr.
  - split; [exact H1|]. rewrite bool_decide_eq_true_2 in H2 by (vm_compute; reflexivity). apply H2.
Defined.

(** ** Slashes *)

(** Three reports on stash 10 for eras of its current span. *)
Definition s_spans : StakingState.State World := on_slashes (set_StashSpans (insert 10 (mkSpans 1 2 0 [2]))) s_era0.

Definition demo_reports : list Report := [mkReport 1 4 3 50; mkReport 1 4 4 80; mkReport 2 5 3 60].

Lemma span_charged_maximum_witness : exists charges s', reports 10 100000000 demo_reports s_spans = (Ok charges, s') /\ zsum charges = 80.
Proof.
  destruct (span_charged_maximum 10 100000000 ltac:(split; vm_compute; discriminate) 1 (mkSpans 1 2 0 [2]) s_spans demo_reports)
    as (charges & s' & Hr & Hz & _).
  - vm_compute. reflexivity.
  - split; [split; simpl; [repeat constructor | | vm_compute; discriminate | vm_compute; split; discriminate]; lia | simpl; lia].
  - split; vm_compute; [discriminate | split; discriminate].
  - split; unfold demo_reports.
    + repeat (constructor; [split_and!; vm_compute; (discriminate || reflexivity || (split; discriminate))|]). constructor.
    + intros r r' Hr Hr'. rewrite !elem_of_cons, elem_of_nil in Hr, Hr'. naive_solver lia.
    + repeat (constructor; [vm_compute; reflexivity|]). constructor.
  - exists charges, s'. split; [exact Hr|]. rewrite Hz. vm_compute. reflexivity.
Defined.

Lemma demo_inv g : FreeBalance g = FreeBalance ledger0 -> ReservedBalance g = ∅ -> TotalIssuance g = TotalIssuance ledger0 ->
  NextAssetId g = 1000 -> Permissions g = ∅ -> inv g.
Proof.
  intros Hf Hr Ht Hn Hp.
  change (FreeBalance ledger0) with (<[(1, 10) := 1000]> (<[(1, 11) := 1000]> (<[(1, 12) := 1000]> (<[(2, 10) := 1000000]> (∅ : gmap (Z * Z) Z))))) in Hf.
  change (TotalIssuance ledger0) with (<[1 := 3000]> (<[2 := 1000000]> (∅ : gmap Z Z))) in Ht.
  assert (Hheld : forall a, held a g = (if 1 =? a then 3000 else 0) + (if 2 =? a then 1000000 else 0)).
  { intros a. unfold held, asset_free, asset_reserved. rewrite Hf, Hr, !msum_insert, !msum_empty, !mval_of_asset, !of_asset_pair.
    destruct (1 =? a), (2 =? a); vm_compute; reflexivity. }
  assert (Hti : forall a, total_issuance a g = (if 1 =? a then 3000 else 0) + (if 2 =? a then 1000000 else 0)).
  { intros a. unfold total_issuance, sget. rewrite Ht, !lookup_insert, lookup_empty.
    destruct (Z.eqb_spec 1 a), (Z.eqb_spec 2 a); repeat case_decide; simplify_eq; done. }
  split.
  - split; [rewrite Hf | rewrite Hr; done]. intros k x. rewrite !lookup_insert_Some, lookup_empty. naive_solver lia.
  - intros a. by rewrite Hheld, Hti.
  - intros a. rewrite Hti. by destruct (1 =? a), (2 =? a).
  - intros a Ha. rewrite Hn in Ha. by rewrite Ht, !lookup_insert_ne, lookup_empty by lia.
  - intros a Ha. by rewrite Hp, lookup_empty.
Qed.

(** 10 and its nominator are slashed, 55 reported them and the treasury gets the
    rest. *)
Lemma apply_slash_settles_witness : exists s', apply_slash (mkUnapplied 10 50 [(12, 30)] [55] 3) s_era0 = (Ok tt, s') /\
  inv (wd_ledger (world s')) /\
  forall w, holding 1 w (wd_ledger (world s')) = holding 1 w (wd_ledger (world s_era0)) +
    (reporters_paid 3 [55] w - lost (wd_ledger (world s_era0)) s_era0 [(10, 50); (12, 30)] w + (if treasury_account =? w then 77 else 0)).
Proof.
  destruct (apply_slash_settles (wd_ledger (world s_era0)) ltac:(apply demo_inv; vm_compute; reflexivity)
    ltac:(vm_compute; reflexivity) ltac:(vm_compute; discriminate) (mkUnapplied 10 50 [(12, 30)] [55] 3) s_era0) as (s' & H1 & H2 & _ & H3 & _).
  - reflexivity.
  - vm_compute. discriminate.
  - vm_compute. discriminate.
  - repeat constructor; set_solver.
  - apply (reachable_ok demo_bonding), s_era0_reachable.
  - exists s'. split; [exact H1 | split; [exact H2|]]. intros w. rewrite H3.
    rewrite decide_True by reflexivity. f_equal.
Defined.

(** ** Rewards *)
Definition demo_view (era : EraIndex) (v : AccountId) : Exposure * Perbill := (mkExposure 700 400 [mkIndividual 12 300], 100000000).

Abbreviation RewardState := (StakingRewards.State GenericAsset.State).

Definition r_genesis : RewardState := StakingRewards.mkState (genesis_store (FIXED_ONE / 10) 100000000) [] ledger0.

(** 5000 of fees, and the end of era 0. *)
Definition r_fees : RewardState := (note_transaction_fees 5000 r_genesis).2.
Definition r_ended : RewardState := Eval vm_compute in (on_end_era [10; 11] 0 86400000 false r_fees).2.

Lemma payout_order_perm V (m : gmap Z V) : payout_order V m ≡ₚ map_to_list m.
Proof. done. Qed.

Lemma demo_history : 0 <= HistoricalPayoutEras.
Proof. done. Qed.

Lemma demo_fiscal : 0 < FiscalEraLength.
Proof. done. Qed.

Lemma ledger0_issuance : issuance_typed ledger0.
Proof.
  intros a. unfold total_issuance, sget. change (TotalIssuance ledger0) with (<[1 := 3000]> (<[2 := 1000000]> (∅ : gmap Z Z))).
  rewrite !lookup_insert, lookup_empty. repeat case_decide; split; vm_compute; discriminate.
Qed.

Lemma r_ended_reachable : RewardsInv.reachable demo_view r_ended.
Proof.
  assert (H1 : RewardsInv.reachable demo_view r_genesis).
  { apply RewardsInv.reachable_genesis; [split; vm_compute; discriminate | split; vm_compute; discriminate | apply ledger0_issuance]. }
  assert (H2 : RewardsInv.reachable demo_view r_fees).
  { eapply RewardsInv.reachable_step; [exact H1|]. apply step_fees. split; vm_compute; discriminate. }
  change (RewardsInv.reachable demo_view (on_end_era [10; 11] 0 86400000 false r_fees).2).
  eapply RewardsInv.reachable_step; [exact H2|]. apply step_end_era.
  - apply (bool_decide_unpack _). vm_compute. reflexivity.
  - vm_compute. discriminate.
  - lia.
  - apply not_elem_of_nil.
Qed.

Lemma rewards_reachable_witness : rewards_typed r_ended.
Proof. apply (rewards_reachable demo_view payout_order_perm demo_history demo_fiscal), r_ended_reachable. Defined.

Lemma r_ended_schedule : schedule_ok (rewards r_ended).
Proof. apply (reachable_typed demo_view payout_order_perm demo_history demo_fiscal), r_ended_reachable. Qed.

(** A block with room for one payout of the two. *)
Lemma idle_pays_prefix_witness : exists c s', on_idle demo_view 60000000 r_ended = (Ok c, s') /\
  ScheduledPayoutErasAndCounts (rewards s') = [(0, 1)].
Proof.
  pose proof (idle_pays_prefix demo_view payout_order_perm r_ended 60000000 0 2 [] r_ended_schedule
    ltac:(vm_compute; discriminate) ltac:(vm_compute; reflexivity)) as H. cbv zeta in H.
  destruct (affordable demo_view 0 60000000 (payouts_of 0 (rewards r_ended)) (wrapping_add 64 db_read db_write)) as [n c] eqn:E.
  eexists _, _. split; [exact H|]. vm_compute in E. injection E as <- _. vm_compute. reflexivity.
Defined.

Lemma payouts_drain_witness : exists s', idle_blocks demo_view 60000000 3 r_ended = (Ok tt, s') /\ ScheduledPayoutErasAndCounts (rewards s') = [].
Proof.
  destruct (payouts_drain demo_view payout_order_perm 60000000 3 r_ended r_ended_schedule) as (s' & pss & H1 & _ & _ & _ & H2 & _).
  - vm_compute. discriminate.
  - intros era v. vm_compute. discriminate.
  - vm_compute. lia.
  - exists s'. split; [exact H1 | exact H2].
Defined.

Lemma scheduled_payout_mints_witness : exists s', process_reward_payout 11 100000000 (mkExposure 700 400 [mkIndividual 12 300]) 1725 0
    (StakingRewards.mkState rewards0 [] ledger0) = (Ok tt, s') /\ total_issuance 2 (ledger s') = 1001725.
Proof.
  destruct (scheduled_payout_mints ledger0 ltac:(apply demo_inv; reflexivity) ltac:(vm_compute; reflexivity) 11 100000000
    (mkExposure 700 400 [mkIndividual 12 300]) 1725 0 (StakingRewards.mkState rewards0 [] ledger0)) as (_ & _ & s' & H1 & _ & H2 & _).
  - reflexivity.
  - split; [vm_compute; discriminate | repeat constructor; vm_compute; discriminate | vm_compute; discriminate].
  - split; vm_compute; discriminate.
  - split; vm_compute; discriminate.
  - vm_compute. discriminate.
  - exists s'. split; [exact H1|]. rewrite H2. vm_compute. reflexivity.
Defined.

(** 10% of the fees go to the treasury, the rest and the inflation to the two
    validators in equal parts. *)
Lemma era_reward_scheduled_witness : exists s', on_end_era [10; 11] 0 86400000 false (StakingRewards.mkState rewards0 [] ledger0) = (Ok tt, s') /\
  dlookup 0 11 (ScheduledPayoutAmounts (rewards s')) = Some 1725 /\ total_issuance 2 (ledger s') = 1000050.
Proof.
  destruct (era_reward_scheduled ledger0 ltac:(apply demo_inv; reflexivity) ltac:(vm_compute; reflexivity) [10; 11] 0 86400000 false
    (StakingRewards.mkState rewards0 [] ledger0)) as (_ & s' & H1 & _ & H2 & _ & H3 & _).
  - reflexivity.
  - split; [split; [intros v x; simpl; by rewrite lookup_empty | reflexivity] | split; vm_compute; discriminate..].
  - lia.
  - apply (bool_decide_unpack _). vm_compute. reflexivity.
  - vm_compute. discriminate.
  - discriminate.
  - vm_compute. discriminate.
  - vm_compute. discriminate.
  - exists s'. split; [exact H1|]. split; [rewrite H3; [vm_compute; reflexivity | apply (bool_decide_unpack _); vm_compute; reflexivity]|].
    rewrite H2. vm_compute. reflexivity.
Defined.

(** ** Beyond the theorems *)

(** A minimum bond of zero, which the genesis configuration rejects but
    [set_minimum_bond] accepts: the chunk that [unbond] schedules is not capped by
    what is bonded, and rebonding it stakes 700 on a lock of 500. *)
Example zero_minimum_inflates_stake :
  let s1 := then_ (set_minimum_bond Root 0) s_era0 in
  let s2 := then_ (unbond (Signed 20) 700) s1 in
  let s3 := then_ (rebond (Signed 20) 700) s2 in
  Ledger (bonds s1) !! 20 = Some (mkLedger 10 500 500 []) /\
  Ledger (bonds s2) !! 20 = Some (mkLedger 10 500 0 [mkChunk 700 3]) /\
  sl_active <$> Ledger (bonds s3) !! 20 = Some 700 /\ stk_lock 10 (world s3) = Some 500.
Proof. vm_compute. auto. Qed.

(** Three validators with one point each share a cut of 2: each share rounds to
    1, the remainder wraps, and an empty treasury receives the maximum balance. *)
Definition r_rounding : RewardState :=
  StakingRewards.mkState (mkRewardStore 0 0 0 [] ∅ ∅ [] 2 1 false (mkPoints 3 {[10 := 1; 11 := 1; 12 := 1]}) 1) [] ledger0.

Example remainder_wraps :
  calculate_per_validator_payouts 2 [10; 11; 12] (CurrentEraRewardPoints (rewards r_rounding)) =
    ([(10, 1); (11, 1); (12, 1)], umax BALANCE_BITS) /\
  free_balance 2 treasury_account (ledger (on_end_era [10; 11; 12] 5 86400000 false r_rounding).2) = umax BALANCE_BITS.
Proof. vm_compute. auto. Qed.

(** Payees are looked up twice: 12 is paid to 13, whose own rewards go to 14, and
    the reward of 12 ends up with 14. *)
Example payee_applied_twice :
  let s := StakingRewards.mkState (set_Payee (fun _ => {[12 := 13; 13 := 14]}) rewards0) [] ledger0 in
  let s' := (process_reward_payout 11 0 (mkExposure 100 0 [mkIndividual 12 100]) 1000 0 s).2 in
  payee 12 (rewards s) = 13 /\ free_balance 2 13 (ledger s') = 0 /\ free_balance 2 14 (ledger s') = 1000.
Proof. vm_compute. auto. Qed.

(** With full commission the payout is listed under the stash instead of its
    payee, and the accrued reward of the stash is reported as zero. *)
Example full_commission_unreported :
  let r := set_Payee (fun _ => {[10 := 30]}) rewards0 in
  let stakes := [(10, PERBILL_ONE, mkExposure 100 100 [])] in
  (calculate_payouts_filtered stakes FULL_ERA_DURATION (fun _ _ => false) r).2 = [(10, 3450)] /\
  calculate_individual_reward 10 FULL_ERA_DURATION stakes r = 0.
Proof. vm_compute. auto. Qed.
