(* ===== verification/OffchainElection.v ===== *)
(** * The offchain election

    [src/crml/staking/src/offchain_election.rs] and [offchain_worker] of
    [lib.rs]: in the election window a validator's node computes a solution,
    compacts it, trims it to the weight of a block and submits it in an unsigned
    transaction.  The worker reads the chain and writes only its own database,
    the block at which it last ran. *)

From stdpp Require Import sorting.
From S2P Require Import Prelude Support GenericAssetTypes Search StakingTypes SlashingSpans StakingState Staking StakingSlashing StakingEras StakingInv StakingOps StakingSlashOps StakingTheorems StakingProps StakingRewards StakingRuntime StakingDemo StakingWitnesses.

Inductive OffchainElectionError :=
| ElectionFailed | PoolSubmissionFailed | SnapshotUnavailable | InternalElectionError | InvalidWinner | NominatorSnapshotCorrupt.

Definition OFFCHAIN_REPEAT : Z := 5.

(** What the worker uses of [sp_npos_elections], the weights, the seed of the
    node and its transaction pool. *)
Class OffchainElectionEnv `{NposElections} := {
  submit_unsigned : Z -> Z -> Z -> Z -> Z;
  MaxIterations : Z;
  OffchainSolutionWeightLimit : Z;
  random_seed : Z;
  seq_phragmen_balanced : Z -> Z -> list AccountId -> list (AccountId * Z * list AccountId) ->
    option (list (AccountId * Z) * list Assignment);
  reduce : StakedAssignments -> StakedAssignments;
  assignment_staked_to_ratio_normalized : StakedAssignments -> option (list Assignment);
  from_assignment : list Assignment -> (AccountId -> option Z) -> (AccountId -> option Z) -> option CompactAssignments;
  voter_count : CompactAssignments -> nat;
  remove_voter : Z -> CompactAssignments -> bool * CompactAssignments;
  submit_unsigned_transaction : list Z * CompactAssignments * ElectionScore * EraIndex * ElectionSize -> bool;
}.

(** ** When to run *)

(** On the head of the worker's database; [concurrent] tells that another thread
    changed it in between. *)
Definition set_check_offchain_execution_status (now : BlockNumber) (concurrent : bool) (maybe_head : option BlockNumber)
    : outcome string unit * option BlockNumber :=
  let run := if concurrent then (Err "failed to write to offchain db (concurrent modification)."%string, maybe_head) else (Ok tt, Some now) in
  match maybe_head with
  | Some head =>
      let until := wrapping_add 32 head OFFCHAIN_REPEAT in
      if now <? head then (Err "fork."%string, maybe_head)
      else if (head <=? now) && (now <=? until) then (Err "recently executed."%string, maybe_head)
      else run
  | None => run
  end.

Section Offchain.
Context {W : Type} {staking_config : StakingConfig} {staking_env : StakingEnv W} {perbill : PerbillOps} {npos : NposElections} {offchain : OffchainElectionEnv}.
Abbreviation St := (StakingState.State W).
Abbreviation OE := (M OffchainElectionError St).
Implicit Types s : St.

Definition get_balancing_iters : Z :=
  if MaxIterations =? 0 then 0 else random_seed mod (saturating_add 32 MaxIterations 1).

(** ** The size of a solution *)
Section Length.
Context (winners_len : Z) (size : ElectionSize) (max_weight : Z).

Definition weight_with (voters : Z) : Z := submit_unsigned (es_validators size) (es_nominators size) voters winners_len.

Definition max_voters : Z := Z.max (es_nominators size) 1.

Definition next_voters (current_weight voters step : Z) : option Z :=
  match current_weight ?= max_weight with
  | Lt => match checked_add 32 voters step with
          | Some voters => if voters <? max_voters then Some voters else None
          | None => None
          end
  | Gt => checked_sub voters step
  | Eq => Some voters
  end.

(** The binary search: [inl] leaves the function. *)
Fixpoint compact_search (fuel : nat) (voters step : Z) : Z + Z :=
  match fuel with
  | O => inr voters
  | S fuel =>
      if 0 <? step then
        match next_voters (weight_with voters) voters step with
        | Some next => if negb (next =? voters) then compact_search fuel next (step / 2) else inl next
        | None => inr voters
        end
      else inr voters
  end.

Fixpoint compact_grow (fuel : nat) (voters : Z) : Z :=
  match fuel with
  | O => voters
  | S fuel =>
      if (wrapping_add 32 voters 1 <=? max_voters) && (weight_with (wrapping_add 32 voters 1) <? max_weight)
      then compact_grow fuel (wrapping_add 32 voters 1) else voters
  end.

Fixpoint compact_shrink (fuel : nat) (voters : Z) : Z :=
  match fuel with
  | O => voters
  | S fuel =>
      if bool_decide (is_Some (checked_sub voters 1)) && (max_weight <? weight_with voters)
      then compact_shrink fuel (wrapping_sub 32 voters 1) else voters
  end.

(** Steps halve from below 2^31; the other loops move within the voters. *)
Definition maximum_compact_len : Z :=
  if es_nominators size <? 1 then es_nominators size
  else
    let voters := max_voters in
    match compact_search 32 voters (voters / 2) with
    | inl next => next
    | inr voters =>
        let fuel := Z.to_nat max_voters in
        let voters := compact_grow fuel voters in
        let voters := compact_shrink fuel voters in
        Z.min voters (es_nominators size)
    end.
End Length.

(** ** Trimming *)
Definition insert_by_key (x : AccountId * Z) : list (AccountId * Z) -> list (AccountId * Z) :=
  fix go l := match l with [] => [x] | y :: l' => if x.2 <=? y.2 then x :: y :: l' else y :: go l' end.

(** A stable sort. *)
Definition sort_by_key (l : list (AccountId * Z)) : list (AccountId * Z) := foldr insert_by_key [] l.

Fixpoint remove_least (nominator_index : AccountId -> option Z) (voters : list (AccountId * Z)) (to_remove removed : nat)
    (compact : CompactAssignments) : OE CompactAssignments :=
  match voters with
  | [] => ret compact
  | (who, _) :: voters =>
      let* index := ok_or (nominator_index who) NominatorSnapshotCorrupt in
      let '(found, compact) := remove_voter index compact in
      let removed := if found then S removed else removed in
      if (to_remove <=? removed)%nat then ret compact else remove_least nominator_index voters to_remove removed compact
  end.

Definition trim_to_weight (maximum_allowed_voters : Z) (compact : CompactAssignments) (nominator_index : AccountId -> option Z)
    : OE CompactAssignments :=
  let to_remove := (voter_count compact - Z.to_nat maximum_allowed_voters)%nat in
  if (0 <? to_remove)%nat then
    let* s := gets (fun s => s) in
    let balance_of := slashable_balance_of_fn s in
    let voters_sorted := sort_by_key ((fun '(who, _) => (who, balance_of who)) <$> storage_order _ (Nominators (bonds s))) in
    remove_least nominator_index voters_sorted to_remove 0 compact
  else ret compact.

(** ** Submission *)

(** [position] in a snapshot, as an index of so many bits. *)
Definition index_in (bits : Z) (snapshot : list AccountId) (a : AccountId) : option Z :=
  match list_find (fun x => x = a) snapshot with
  | Some (i, _) => if Z.of_nat i <=? umax bits then Some (Z.of_nat i) else None
  | None => None
  end.

Fixpoint winners_indexed (snapshot_validators : list AccountId) (winners : list AccountId) : OE (list Z) :=
  match winners with
  | [] => ret []
  | w :: winners =>
      let* compact_index := ok_or (index_in 16 snapshot_validators w) InvalidWinner in
      let* rest := winners_indexed snapshot_validators winners in
      ret (compact_index :: rest)
  end.

Definition prepare_submission (assignments : list Assignment) (winners : list (AccountId * Z)) (do_reduce : bool) (maximum_weight : Z)
    : OE (list Z * CompactAssignments * ElectionScore * ElectionSize) :=
  let* validators := gets (fun s => SnapshotValidators (election s)) in
  let* snapshot_validators := ok_or validators SnapshotUnavailable in
  let* nominators := gets (fun s => SnapshotNominators (election s)) in
  let* snapshot_nominators := ok_or nominators SnapshotUnavailable in
  let nominator_index := index_in 32 snapshot_nominators in
  let validator_index := index_in 16 snapshot_validators in
  let nominator_at i := snapshot_nominators !! Z.to_nat i in
  let validator_at i := snapshot_validators !! Z.to_nat i in
  let size := mkElectionSize (wrap 16 (Z.of_nat (length snapshot_validators))) (wrap 32 (Z.of_nat (length snapshot_nominators))) in
  let winners := fst <$> winners in
  let* weight_of := gets slashable_balance_of_fn in
  let staked := assignment_ratio_to_staked assignments weight_of in
  let staked := if do_reduce then reduce staked else staked in
  let* low_accuracy_assignment := ok_or (assignment_staked_to_ratio_normalized staked) InternalElectionError in
  let* compact := ok_or (from_assignment low_accuracy_assignment nominator_index validator_index) InternalElectionError in
  let maximum_allowed_voters := maximum_compact_len (wrap 32 (Z.of_nat (length winners))) size maximum_weight in
  let* compact := trim_to_weight maximum_allowed_voters compact nominator_index in
  let* assignments := match into_assignment compact nominator_at validator_at with Some a => ret a | None => panic end in
  let* staked_assignments := ok_or (assignment_ratio_to_staked_normalized assignments weight_of) ElectionFailed in
  let score := evaluate (to_supports staked_assignments) in
  let* winners_indexed := winners_indexed snapshot_validators winners in
  ret (winners_indexed, compact, score, size).

(** [do_phragmen::<OffchainAccuracy>] *)
Definition do_phragmen_balanced (iterations : Z) s : option (list (AccountId * Z) * list Assignment) :=
  let weight_of := slashable_balance_of_fn s in
  let all_validators := fst <$> storage_order _ (Validators (bonds s)) in
  let self_votes := (fun v => (v, weight_of v, [v])) <$> all_validators in
  let nominator_votes :=
    (fun '(n, nominations) => (n, weight_of n, current_targets nominations (slashes s))) <$> storage_order _ (Nominators (bonds s)) in
  if Z.of_nat (length all_validators) <? Z.max (MinimumValidatorCount (eras s)) 1 then None
  else seq_phragmen_balanced iterations (ValidatorCount (eras s)) all_validators (self_votes ++ nominator_votes).

(** The submitted call is the value. *)
Definition compute_offchain_election : OE (list Z * CompactAssignments * ElectionScore * EraIndex * ElectionSize) :=
  let* result := gets (do_phragmen_balanced get_balancing_iters) in
  let* '(winners, assignments) := ok_or result ElectionFailed in
  let* '(winners, compact, score, size) := prepare_submission assignments winners true OffchainSolutionWeightLimit in
  let* current := gets (fun s => CurrentEra (eras s)) in
  let current_era := default 0 current in
  let call := (winners, compact, score, current_era, size) in
  do* ensure (submit_unsigned_transaction call) PoolSubmissionFailed in
  ret call.

Definition staking_offchain_worker (now : BlockNumber) (concurrent : bool) (head : option BlockNumber) s
    : option (outcome OffchainElectionError (list Z * CompactAssignments * ElectionScore * EraIndex * ElectionSize)) * option BlockNumber :=
  if is_open_at (EraElectionStatus (election s)) now then
    match set_check_offchain_execution_status now concurrent head with
    | (Ok _, head) => (Some (compute_offchain_election s).1, head)
    | (_, head) => (None, head)
    end
  else (None, head).

(** ** Length *)
Section LengthProps.
Context (winners_len : Z) (size : ElectionSize) (max_weight : Z).
Hypothesis Hsize : 0 <= es_nominators size < umax 32.
Abbreviation weight := (weight_with winners_len size).
Abbreviation most := (max_voters size).

Lemma most_range : 1 <= most <= umax 32 - 1.
Proof. unfold max_voters. pose proof (eq_refl : umax 32 = 4294967295). lia. Qed.

Lemma next_voters_range w voters step next : 0 <= voters <= most -> 0 <= step -> next_voters size max_weight w voters step = Some next ->
  0 <= next <= most.
Proof.
  intros Hv Hs. unfold next_voters. destruct (w ?= max_weight); [by intros [= <-] | |].
  - destruct (checked_add 32 voters step) as [v|] eqn:Ha; [|done]. apply checked_add_Some in Ha as [-> _].
    destruct (Z.ltb_spec (voters + step) most); [|done]. intros [= <-]. lia.
  - intros [-> ?]%checked_sub_Some. lia.
Qed.

(** Running into the same value means that the weight is met exactly. *)
Lemma next_voters_same w voters step : 0 < step -> next_voters size max_weight w voters step = Some voters -> w = max_weight.
Proof.
  intros Hs. unfold next_voters. destruct (Z.compare_spec w max_weight); [done| |].
  - destruct (checked_add 32 voters step) as [v|] eqn:Ha; [|done]. apply checked_add_Some in Ha as [-> _].
    destruct (_ <? most); [|done]. intros [=]. lia.
  - intros [? _]%checked_sub_Some. lia.
Qed.

Lemma search_spec fuel voters step : 0 <= voters <= most -> 0 <= step ->
  match compact_search winners_len size max_weight fuel voters step with
  | inl v => 0 <= v <= most /\ weight v = max_weight
  | inr v => 0 <= v <= most
  end.
Proof.
  revert voters step. induction fuel as [|fuel IH]; intros voters step Hv Hs; [done|]. cbn [compact_search].
  destruct (Z.ltb_spec 0 step); [|done]. destruct (next_voters _ _ _ voters step) as [next|] eqn:Hn; [|done].
  destruct (Z.eqb_spec next voters) as [->|Hne]; cbn [negb].
  - split; [done|]. by apply next_voters_same in Hn.
  - apply IH; [by eapply next_voters_range | apply Z.div_pos; lia].
Qed.

(** Halving a 32-bit step, the search is over before its fuel. *)
Lemma search_fuel n fuel voters step : 0 <= step < 2 ^ Z.of_nat fuel ->
  compact_search winners_len size max_weight (fuel + n) voters step = compact_search winners_len size max_weight fuel voters step.
Proof.
  revert voters step. induction fuel as [|fuel IH]; intros voters step Hs.
  { assert (step = 0) as -> by (simpl in Hs; lia). by destruct n. }
  cbn [compact_search Nat.add]. destruct (0 <? step); [|done]. destruct (next_voters _ _ _ voters step) as [next|]; [|done].
  destruct (negb _); [|done]. apply IH. rewrite Nat2Z.inj_succ, Z.pow_succ_r in Hs by lia.
  split; [apply Z.div_pos; lia | apply Z.div_lt_upper_bound; lia].
Qed.

Lemma grow_spec fuel voters : 0 <= voters <= most -> most - voters <= Z.of_nat fuel ->
  let v := compact_grow winners_len size max_weight fuel voters in voters <= v <= most /\ (v = most \/ max_weight <= weight (v + 1)).
Proof.
  pose proof most_range as Hm. revert voters. induction fuel as [|fuel IH]; intros voters Hv Hf; [simpl; lia|]. cbn [compact_grow].
  assert (wrapping_add 32 voters 1 = voters + 1) as -> by (apply wrap_small; unfold in_range; lia).
  destruct (Z.leb_spec (voters + 1) most); cbn [andb]; [|lia].
  destruct (Z.ltb_spec (weight (voters + 1)) max_weight); [|lia].
  destruct (IH (voters + 1)) as [Hr Hmax]; [lia | lia |]. cbv zeta in *. split; [lia | done].
Qed.

Lemma shrink_spec fuel voters : 0 <= voters <= most -> voters <= Z.of_nat fuel ->
  let v := compact_shrink winners_len size max_weight fuel voters in
  0 <= v <= voters /\ (v = 0 \/ weight v <= max_weight) /\ (v = voters \/ max_weight < weight (v + 1)).
Proof.
  pose proof most_range as Hm. revert voters. induction fuel as [|fuel IH]; intros voters Hv Hf; [simpl; lia|]. cbn [compact_shrink].
  destruct (decide (voters = 0)) as [->|Hz].
  { rewrite bool_decide_eq_false_2; [simpl; lia|]. unfold checked_sub. simpl. by intros []. }
  assert (Hc : checked_sub voters 1 = Some (voters - 1)) by (apply checked_sub_Some; lia).
  rewrite Hc, bool_decide_eq_true_2 by done. cbn [andb]. destruct (Z.ltb_spec max_weight (weight voters)) as [Hw|Hw]; [|lia].
  assert (wrapping_sub 32 voters 1 = voters - 1) as -> by (apply wrap_small; unfold in_range; lia).
  destruct (IH (voters - 1)) as (Hr & Hfit & Hmax); [lia | lia |]. cbv zeta in *. split; [lia|]. split; [done|]. right.
  destruct Hmax as [->|Hmax]; [|done]. by replace (voters - 1 + 1) with voters by lia.
Qed.

(** C33: the number of voters a solution is trimmed to is at most that of the
    snapshot and fits the weight, unless not even one voter does, and one more
    voter would reach the weight limit: the search, its final adjustments and
    their bounded loops find the boundary of any weight that grows with the
    voters. *)
Theorem maximum_compact_len_exact : (forall v v', 0 <= v <= v' -> weight v <= weight v') ->
  let v := maximum_compact_len winners_len size max_weight in
  0 <= v <= es_nominators size /\ (v = 0 \/ weight v <= max_weight) /\ (v = es_nominators size \/ max_weight <= weight (v + 1)) /\
  forall n, compact_search winners_len size max_weight (32 + n) most (most / 2) = compact_search winners_len size max_weight 32 most (most / 2).
Proof.
  intros Hmono. cbv zeta. pose proof most_range as Hm. unfold maximum_compact_len.
  assert (Hfuel : forall n, compact_search winners_len size max_weight (32 + n) most (most / 2) =
    compact_search winners_len size max_weight 32 most (most / 2)).
  { intros n. apply search_fuel. split; [apply Z.div_pos; lia|]. change (2 ^ Z.of_nat 32) with (umax 32 + 1). apply Z.div_lt_upper_bound; lia. }
  destruct (Z.ltb_spec (es_nominators size) 1) as [Hn|Hn]; [split_and!; [lia | lia | left; lia | by left | done]|].
  assert (Hmost : most = es_nominators size) by (unfold max_voters; lia).
  pose proof (search_spec 32 most (most / 2) ltac:(lia) ltac:(apply Z.div_pos; lia)) as Hs.
  destruct (compact_search _ _ _ 32 most (most / 2)) as [v|v] eqn:Hsearch.
  - destruct Hs as [Hv Hw]. split_and!; [lia | lia | right; lia | right; rewrite <- Hw; apply Hmono; lia | done].
  - destruct (grow_spec (Z.to_nat most) v Hs ltac:(lia)) as [Hg Hgm]. cbv zeta in *. set (g := compact_grow _ _ _ _ v) in *.
    destruct (shrink_spec (Z.to_nat most) g ltac:(lia) ltac:(lia)) as (Hr & Hfit & Hmax). cbv zeta in *.
    set (r := compact_shrink _ _ _ _ g) in *. rewrite Z.min_l by lia. split_and!; [lia | lia | done | | done].
    destruct Hmax as [->|Hmax]; [rewrite <- Hmost; exact Hgm | right; lia].
Qed.
End LengthProps.

(** ** Runs *)

(** The blocks at which the worker runs, of those at which it is asked to. *)
Fixpoint executions (head : option BlockNumber) (asked : list (BlockNumber * bool)) : list BlockNumber :=
  match asked with
  | [] => []
  | (now, concurrent) :: asked =>
      match set_check_offchain_execution_status now concurrent head with
      | (Ok _, head) => now :: executions head asked
      | (_, head) => executions head asked
      end
  end.

Definition blocks_ok (asked : list (BlockNumber * bool)) : Prop := Forall (fun b => 0 <= b.1 /\ b.1 + OFFCHAIN_REPEAT <= umax 32) asked.

Lemma execution_status now concurrent head u head' : (forall h, head = Some h -> 0 <= h /\ h + OFFCHAIN_REPEAT <= umax 32) ->
  set_check_offchain_execution_status now concurrent head = (Ok u, head') ->
  head' = Some now /\ forall h, head = Some h -> h + OFFCHAIN_REPEAT < now.
Proof.
  intros Hh. unfold set_check_offchain_execution_status. destruct head as [h|].
  - destruct (Hh h eq_refl) as [Hlo Hhi]. assert (wrapping_add 32 h OFFCHAIN_REPEAT = h + OFFCHAIN_REPEAT) as ->.
    { apply wrap_small. unfold in_range, OFFCHAIN_REPEAT in *. lia. }
    destruct (Z.ltb_spec now h); [done|]. destruct (Z.leb_spec h now); [|lia]. cbn [andb].
    destruct (Z.leb_spec now (h + OFFCHAIN_REPEAT)); [done|]. destruct concurrent; [done|]. intros [= <- <-]. split; [done|]. by intros ? [= <-].
  - destruct concurrent; [done|]. by intros [= <- <-].
Qed.

Lemma execution_status_err now concurrent head head' e : set_check_offchain_execution_status now concurrent head = (Err e, head') -> head' = head.
Proof. unfold set_check_offchain_execution_status. repeat case_match; congruence. Qed.

Lemma executions_after asked : blocks_ok asked -> forall head, (forall h, head = Some h -> 0 <= h /\ h + OFFCHAIN_REPEAT <= umax 32) ->
  StronglySorted (fun a b => a + OFFCHAIN_REPEAT < b) (executions head asked) /\
  forall h, head = Some h -> Forall (fun b => h + OFFCHAIN_REPEAT < b) (executions head asked).
Proof.
  induction 1 as [|[now c] asked Hn _ IH]; intros head Hh; cbn [executions]; [by split; [constructor|]|]. cbn [fst] in Hn.
  destruct (set_check_offchain_execution_status now c head) as [[u|e|] head'] eqn:Hx.
  - apply execution_status in Hx as [-> Hgap]; [|done]. destruct (IH (Some now)) as [Hs Hf]; [by intros ? [= <-]|].
    specialize (Hf now eq_refl). split; [by constructor|]. intros h Hhead. specialize (Hgap h Hhead). constructor; [done|].
    eapply Forall_impl; [exact Hf|]. unfold OFFCHAIN_REPEAT in *. simpl. lia.
  - apply execution_status_err in Hx as ->. by apply IH.
  - exfalso. unfold set_check_offchain_execution_status in Hx. by repeat case_match.
Qed.

(** Over any sequence of blocks, forks and concurrent writers of the database
    included, two runs of the worker are more than five blocks apart, in order. *)
Theorem worker_runs_apart asked : blocks_ok asked -> StronglySorted (fun a b => a + OFFCHAIN_REPEAT < b) (executions None asked).
Proof. intros Ha. by apply executions_after. Qed.

(** ** Trimming *)
Lemma insert_by_key_perm x l : insert_by_key x l ≡ₚ x :: l.
Proof. induction l as [|y l IH]; simpl; [done|]. destruct (_ <=? _); [done|]. rewrite IH. constructor. Qed.

Lemma insert_by_key_sorted x l : StronglySorted (fun a b : AccountId * Z => a.2 <= b.2) l ->
  StronglySorted (fun a b : AccountId * Z => a.2 <= b.2) (insert_by_key x l).
Proof.
  induction 1 as [|y l Hs IH Hf]; simpl; [by repeat constructor|]. destruct (Z.leb_spec x.2 y.2).
  - constructor; [by constructor|]. constructor; [done|]. eapply Forall_impl; [exact Hf|]. simpl. lia.
  - constructor; [done|]. rewrite insert_by_key_perm. constructor; [lia | done].
Qed.

Lemma sort_by_key_spec l : StronglySorted (fun a b : AccountId * Z => a.2 <= b.2) (sort_by_key l) /\ sort_by_key l ≡ₚ l.
Proof.
  induction l as [|x l [Hs Hp]]; simpl; [by split; [constructor|]|]. split; [by apply insert_by_key_sorted|].
  unfold sort_by_key in *. simpl. by rewrite insert_by_key_perm, Hp.
Qed.

(** [remove_voter] tells whether it removed a voter. *)
Class RemoveVoterLaws := {
  remove_voter_found : forall i c c', remove_voter i c = (true, c') -> voter_count c = S (voter_count c');
  remove_voter_absent : forall i c c', remove_voter i c = (false, c') -> c' = c;
}.

Definition without (nominator_index : AccountId -> option Z) (voters : list (AccountId * Z)) (compact : CompactAssignments) : CompactAssignments :=
  foldl (fun c v => (remove_voter (default 0 (nominator_index v.1)) c).2) compact voters.

Lemma without_cons nominator_index who w voters compact i found c1 : nominator_index who = Some i -> remove_voter i compact = (found, c1) ->
  without nominator_index ((who, w) :: voters) compact = without nominator_index voters c1.
Proof. intros Hi Hr. unfold without. cbn [foldl]. simpl. rewrite Hi. cbn [default]. unfold id. by rewrite Hr. Qed.

Lemma remove_least_spec `{RemoveVoterLaws} nominator_index to_remove voters removed compact s c' s' :
  (removed < to_remove <= removed + voter_count compact)%nat ->
  remove_least nominator_index voters to_remove removed compact s = (Ok c', s') ->
  exists n, c' = without nominator_index (take n voters) compact /\
    (to_remove + voter_count c' = removed + voter_count compact \/ take n voters = voters)%nat /\
    (removed + voter_count compact <= to_remove + voter_count c')%nat.
Proof.
  revert removed compact. induction voters as [|[who w] voters IH]; intros removed compact Hr.
  { intros [= <- _]. exists 0%nat. split; [done|]. split; [by right | lia]. }
  cbn [remove_least]. unfold bind at 1, ok_or. destruct (nominator_index who) as [i|] eqn:Hi; [|done]. unfold ret at 1. cbv iota beta.
  destruct (remove_voter i compact) as [found c1] eqn:Hrem.
  assert (Hc : (voter_count compact = (if found then 1 else 0) + voter_count c1)%nat).
  { destruct found; [by apply remove_voter_found in Hrem | by apply remove_voter_absent in Hrem as ->]. }
  destruct (Nat.leb_spec to_remove (if found then S removed else removed)) as [Hle|Hle].
  - intros [= <- _]. exists 1%nat. cbn [take]. rewrite (without_cons _ _ _ _ _ _ _ _ Hi Hrem). rewrite take_0.
    split; [done|]. destruct found; [|lia]. cbn [without foldl]. split; [left; lia | lia].
  - intros Hrest. apply IH in Hrest as (n & -> & Hor & Hbound); [|destruct found; lia]. exists (S n). cbn [take].
    rewrite (without_cons _ _ _ _ _ _ _ _ Hi Hrem). split; [done|]. split; [|destruct found; lia].
    destruct Hor as [?|Hall]; [left; destruct found; lia | right; by rewrite Hall].
Qed.

Lemma remove_least_total nominator_index to_remove voters removed compact s :
  Forall (fun p : AccountId * Z => is_Some (nominator_index p.1)) voters ->
  exists c', remove_least nominator_index voters to_remove removed compact s = (Ok c', s).
Proof.
  intros Hv. revert removed compact. induction Hv as [|[who w] voters [i Hi] _ IH]; intros removed compact; [by eexists|].
  cbn [remove_least]. simpl in Hi. unfold bind, ok_or. rewrite Hi. unfold ret at 1. cbv iota beta. destruct (remove_voter i compact) as [found c].
  destruct (_ <=? _)%nat; [by eexists | apply IH].
Qed.

(** The nominators with their stakes, the least first. *)
Definition least_first s (voters : list (AccountId * Z)) : Prop :=
  voters ≡ₚ ((fun '(who, _) => (who, slashable_balance_of_fn s who)) <$> storage_order _ (Nominators (bonds s))) /\
  StronglySorted (fun a b : AccountId * Z => a.2 <= b.2) voters.

(** C20: trimming to so many voters, with an index for every nominator, succeeds
    and reads only.  A solution that fits is left alone; from a larger one it
    takes off the nominators with the least stake, one by one, until as many
    voters as allowed are left, and never fewer; only when it has gone through
    all nominators may more remain. *)
Theorem trim_takes_least `{RemoveVoterLaws} allowed compact nominator_index s :
  (forall p, p ∈ storage_order _ (Nominators (bonds s)) -> is_Some (nominator_index p.1)) ->
  exists c', trim_to_weight allowed compact nominator_index s = (Ok c', s) /\
  let allowed := Z.to_nat allowed in
  ((voter_count compact <= allowed)%nat -> c' = compact) /\
  ((allowed < voter_count compact)%nat -> exists voters n, least_first s voters /\
     c' = without nominator_index (take n voters) compact /\
     (allowed <= voter_count c')%nat /\ (voter_count c' = allowed \/ take n voters = voters)).
Proof.
  intros Hix. unfold trim_to_weight. destruct (Nat.ltb_spec 0 (voter_count compact - Z.to_nat allowed)) as [Hgt|Hle].
  - unfold bind at 1, gets. set (voters := sort_by_key _).
    destruct (sort_by_key_spec ((fun '(who, _) => (who, slashable_balance_of_fn s who)) <$> storage_order _ (Nominators (bonds s)))) as [Hs Hp].
    fold voters in Hs, Hp. destruct (remove_least_total nominator_index (voter_count compact - Z.to_nat allowed) voters 0 compact s) as (c' & Hx).
    { apply Forall_forall. intros p Hin. rewrite Hp in Hin. apply list_elem_of_fmap in Hin as ([who n] & -> & Hin). apply (Hix _ Hin). }
    exists c'. split; [done|]. split; [lia|]. intros _. apply remove_least_spec in Hx as (n & -> & Hor & Hb); [|lia].
    exists voters, n. split; [done|]. split; [done|]. split; [lia|]. destruct Hor as [?|?]; [left; lia | by right].
  - exists compact. split; [done|]. split; [done | lia].
Qed.

(** ** Submission *)
Lemma index_in_lookup bits snapshot a i : index_in bits snapshot a = Some i -> snapshot !! Z.to_nat i = Some a.
Proof.
  unfold index_in. destruct (list_find _ snapshot) as [[n x]|] eqn:Hf; [|done]. destruct (_ <=? _); [|done]. intros [= <-].
  apply list_find_Some in Hf as (Hl & -> & _). by rewrite Nat2Z.id.
Qed.

Lemma winners_indexed_Ok snapshot winners s ixs s' : winners_indexed snapshot winners s = (Ok ixs, s') ->
  s' = s /\ Forall2 (fun i w => snapshot !! Z.to_nat i = Some w) ixs winners.
Proof.
  revert ixs. induction winners as [|w winners IH]; intros ixs; cbn [winners_indexed]; [intros [= <- <-]; by split; [|constructor]|].
  unfold bind at 1, ok_or. destruct (index_in 16 snapshot w) as [i|] eqn:Hi; [|done]. unfold ret at 1. cbv iota. unfold bind.
  destruct (winners_indexed snapshot winners s) as [[rest| |] s1] eqn:Hr; [|done..]. intros [= <- <-].
  destruct (IH rest eq_refl) as [-> Hf]. split; [done|]. constructor; [by eapply index_in_lookup | done].
Qed.

Lemma remove_least_reads nominator_index voters to_remove removed compact : reader (remove_least nominator_index voters to_remove removed compact : OE _).
Proof.
  revert removed compact. induction voters as [|[who w] voters IH]; intros removed compact s; [done|]. cbn [remove_least].
  unfold bind, ok_or. destruct (nominator_index who); [|done]. unfold ret at 1. cbv iota beta. destruct (remove_voter _ _) as [f c]. destruct (_ <=? _)%nat; [done | apply IH].
Qed.

Lemma trim_reads allowed compact nominator_index : reader (trim_to_weight allowed compact nominator_index : OE _).
Proof. intros s. unfold trim_to_weight. destruct (_ <? _)%nat; [|done]. unfold bind at 1, gets. apply remove_least_reads. Qed.

(** What a prepared submission consists of. *)
Lemma prepare_submission_Ok assignments winners do_reduce limit s ixs compact score size s' :
  prepare_submission assignments winners do_reduce limit s = (Ok (ixs, compact, score, size), s') ->
  exists validators nominators a staked,
    SnapshotValidators (election s) = Some validators /\ SnapshotNominators (election s) = Some nominators /\
    into_assignment compact (fun i => nominators !! Z.to_nat i) (fun i => validators !! Z.to_nat i) = Some a /\
    assignment_ratio_to_staked_normalized a (slashable_balance_of_fn s) = Some staked /\ score = evaluate (to_supports staked) /\
    Forall2 (fun i w => validators !! Z.to_nat i = Some w) ixs (fst <$> winners) /\
    size = mkElectionSize (wrap 16 (Z.of_nat (length validators))) (wrap 32 (Z.of_nat (length nominators))).
Proof.
  unfold prepare_submission. rewrite run_gets. unfold bind at 1, ok_or at 1.
  destruct (SnapshotValidators (election s)) as [validators|]; [|done]. unfold ret at 1. cbv iota. rewrite run_gets. unfold bind at 1, ok_or at 1.
  destruct (SnapshotNominators (election s)) as [nominators|]; [|done]. unfold ret at 1. cbv iota. rewrite run_gets. cbv zeta.
  unfold bind at 1, ok_or at 1. destruct (assignment_staked_to_ratio_normalized _) as [low|]; [|done]. unfold ret at 1. cbv iota.
  unfold bind at 1, ok_or at 1. destruct (from_assignment _ _ _) as [c|]; [|done]. unfold ret at 1. cbv iota. unfold bind at 1.
  pose proof (trim_reads (maximum_compact_len (wrap 32 (Z.of_nat (length winners.*1)))
    (mkElectionSize (wrap 16 (Z.of_nat (length validators))) (wrap 32 (Z.of_nat (length nominators)))) limit) c (index_in 32 nominators) s) as Ht.
  destruct (trim_to_weight _ _ _ s) as [[c'| |] s1]; [|done..]. cbn in Ht. subst s1. unfold bind at 1.
  destruct (into_assignment c' _ _) as [a|] eqn:Ha; [|done]. unfold ret at 1. cbv iota. unfold bind at 1, ok_or at 1.
  destruct (assignment_ratio_to_staked_normalized a _) as [staked|] eqn:Hst; [|done]. unfold ret at 1. cbv iota. unfold bind at 1.
  destruct (winners_indexed _ _ _) as [[w| |] s1] eqn:Hw; [|done..]. intros [= <- <- <- <- <-]. apply winners_indexed_Ok in Hw as [_ Hw].
  exists validators, nominators, a, staked. done.
Qed.

Lemma winners_at_run snapshot ixs ws s : Forall2 (fun i w => snapshot !! Z.to_nat i = Some w) ixs ws -> winners_at snapshot ixs s = (Ok ws, s).
Proof.
  induction 1 as [|i w ixs ws Hi _ IH]; [done|]. cbn [winners_at]. unfold bind at 1, ok_or. rewrite Hi. unfold ret at 1. cbv iota.
  unfold bind. by rewrite IH.
Qed.

Lemma for_each_run {A} (f : A -> D St unit) l s : Forall (fun x => f x s = (Ok tt, s)) l -> for_each l f s = (Ok tt, s).
Proof. induction 1 as [|x l Hx _ IH]; [done|]. simpl. unfold bind. by rewrite Hx. Qed.

(** What the chain asks of a solution besides its score: it is on time and
    better than the queued one, elects as many as wanted, and consists of votes
    the stakers cast; the snapshots have the size their indices allow. *)
Record timely (era : EraIndex) (compact : CompactAssignments) (winners : list (AccountId * Z)) (score : ElectionScore) s : Prop := {
  ti_pre : pre_dispatch_checks score era s = (Ok tt, s);
  ti_targets : length (unique_targets compact) = length winners;
  ti_validators : forall l, SnapshotValidators (election s) = Some l ->
    Z.of_nat (length l) <= umax 16 /\ Z.of_nat (length winners) = Z.min (ValidatorCount (eras s)) (Z.of_nat (length l));
  ti_nominators : forall l, SnapshotNominators (election s) = Some l -> Z.of_nat (length l) <= umax 32;
  ti_votes : forall validators nominators a, SnapshotValidators (election s) = Some validators -> SnapshotNominators (election s) = Some nominators ->
    into_assignment compact (fun i => nominators !! Z.to_nat i) (fun i => validators !! Z.to_nat i) = Some a ->
    Forall (fun x => check_assignment x s = (Ok tt, s)) a;
}.

(** The supports the chain computes for a solution. *)
Definition chain_supports (compact : CompactAssignments) s : list (AccountId * Support) :=
  match SnapshotValidators (election s), SnapshotNominators (election s) with
  | Some validators, Some nominators =>
      match into_assignment compact (fun i => nominators !! Z.to_nat i) (fun i => validators !! Z.to_nat i) with
      | Some a => to_supports (assignment_ratio_to_staked a (slashable_balance_of_fn s))
      | None => []
      end
  | _, _ => []
  end.

Lemma prepared_checked assignments winners do_reduce limit s ixs compact score size s' era :
  prepare_submission assignments winners do_reduce limit s = (Ok (ixs, compact, score, size), s') -> timely era compact winners score s ->
  check_and_replace_solution ixs compact UnsignedSolution score era size s =
    if bool_decide (evaluate (chain_supports compact s) = score) then
      (Ok tt, StakingState.deposit_event (SolutionStored UnsignedSolution) (on_election (fun e => set_QueuedScore (fun _ => Some score)
         (set_QueuedElected (fun _ => Some (mkElection (fst <$> winners) (collect_exposures (chain_supports compact s) s) UnsignedSolution)) e)) s))
    else (Err (Staking StakingError.OffchainElectionBogusScore), s).
Proof.
  intros Hp [Hpre Htargets Hval Hnom Hvotes].
  apply prepare_submission_Ok in Hp as (validators & nominators & a & staked & Hv & Hn & Ha & _ & _ & Hw & ->).
  destruct (Hval _ Hv) as [Hvl Hcount]. specialize (Hnom _ Hn). specialize (Hvotes _ _ _ Hv Hn Ha).
  assert (Hlen : length ixs = length winners) by (apply Forall2_length in Hw; by rewrite length_fmap in Hw).
  assert (Hwr : forall bits n, 0 <= n <= umax 16 -> 16 <= bits -> wrap bits n = n).
  { intros bits n Hr Hb. apply wrap_small. unfold in_range, umax in *. assert (2 ^ 16 <= 2 ^ bits) by (apply Z.pow_le_mono_r; lia). lia. }
  unfold chain_supports. rewrite Hv, Hn, Ha. unfold check_and_replace_solution. unfold bind at 1. rewrite Hpre.
  unfold bind at 1, ensure at 1. rewrite Hlen, bool_decide_eq_true_2 by done. unfold ret at 1. cbv iota. rewrite run_gets, Hv.
  unfold bind at 1, ok_or at 1, ret at 1. cbv iota zeta. cbn [es_validators es_nominators]. rewrite !Hwr, Z.eqb_refl by lia.
  unfold bind at 1, ensure at 1, ret at 1. cbv iota. rewrite run_gets, Hcount, Z.eqb_refl. unfold bind at 1, ensure at 1, ret at 1. cbv iota.
  rewrite run_gets, Hn. unfold bind at 1, ok_or at 1, ret at 1. cbv iota. rewrite Z.eqb_refl. unfold bind at 1, ensure at 1, ret at 1. cbv iota.
  unfold bind at 1. rewrite (winners_at_run _ _ _ _ Hw). unfold bind at 1. rewrite Ha. unfold ok_or at 1, ret at 1. cbv iota.
  unfold bind at 1. rewrite for_each_run by done. rewrite run_gets. unfold bind at 1, ensure at 1.
  case_bool_decide as Hsc; [|done]. unfold ret at 1. cbv iota. rewrite run_gets, Hsc. reflexivity.
Qed.

(** A solution the worker prepares is accepted by the chain it was prepared
    on, if it is timely (the window open, its score better than the queued one,
    as many winners as wanted, votes that were cast) and the score the worker claims, computed with normalized
    stakes, is the one the chain computes without normalizing: the indices lead
    back to the winners, the size is that of the snapshots, and the queued result
    elects exactly the winners of the election. *)
Theorem prepared_solution_accepted assignments winners do_reduce limit s ixs compact score size s' era :
  prepare_submission assignments winners do_reduce limit s = (Ok (ixs, compact, score, size), s') -> timely era compact winners score s ->
  evaluate (chain_supports compact s) = score ->
  exists s'', submit_election_solution_unsigned NoOrigin ixs compact score era size s = (Ok tt, s'') /\
    QueuedScore (election s'') = Some score /\
    QueuedElected (election s'') = Some (mkElection (fst <$> winners) (collect_exposures (chain_supports compact s) s) UnsignedSolution).
Proof.
  intros Hp Ht Hsc. unfold submit_election_solution_unsigned, bind, ensure_none, ret. rewrite (prepared_checked _ _ _ _ _ _ _ _ _ _ _ Hp Ht).
  rewrite bool_decide_eq_true_2 by done. by eexists.
Qed.

(** When normalizing changes the score, the honestly prepared solution makes the
    block panic that includes it. *)
Theorem normalized_score_panics assignments winners do_reduce limit s ixs compact score size s' era :
  prepare_submission assignments winners do_reduce limit s = (Ok (ixs, compact, score, size), s') -> timely era compact winners score s ->
  evaluate (chain_supports compact s) <> score ->
  validate_unsigned Local score era s = ValidSolution (saturating_add 64 UnsignedPriority (saturate 64 score.1.1)) era ElectionLookahead /\
  submit_election_solution_unsigned NoOrigin ixs compact score era size s = (Panic, s).
Proof.
  intros Hp Ht Hsc. split; [unfold validate_unsigned; by rewrite (ti_pre _ _ _ _ _ Ht)|].
  unfold submit_election_solution_unsigned, bind, ensure_none, ret. rewrite (prepared_checked _ _ _ _ _ _ _ _ _ _ _ Hp Ht).
  by rewrite bool_decide_eq_false_2.
Qed.
End Offchain.

(** ** Concrete runs

    The chain of [StakingDemo] in its election window.  A solution gives each
    voter's shares of its targets in 65535ths; stakes are rounded down, and
    normalizing puts what is left on the first target. *)
Module OffchainDemo.
#[export] Existing Instance StakingDemo.staking_config.
#[export] Existing Instance StakingDemo.ga_config.
#[export] Existing Instance StakingDemo.rewards_config.

Abbreviation Votes := (list (AccountId * list (AccountId * Z))).

Definition total_of {A} (l : list (A * Z)) : Z := foldr (fun e n => e.2 + n) 0 l.

Definition rounded (l : list Assignment) (weight_of : AccountId -> Z) : Votes :=
  (fun a => (as_who a, (fun '(t, r) => (t, weight_of (as_who a) * r / 65535)) <$> as_distribution a)) <$> l.

Definition normalized (total : Z) (l : list (AccountId * Z)) : list (AccountId * Z) :=
  match l with [] => [] | (t, z) :: rest => (t, total - total_of rest) :: rest end.

Definition edges_of (v : Votes) : list (AccountId * AccountId * Z) := flat_map (fun '(who, l) => (fun '(t, z) => (who, t, z)) <$> l) v.

(** The first voter with an index. *)
Fixpoint remove_first_vote (i : Z) (c : list (Z * list (Z * Z))) : bool * list (Z * list (Z * Z)) :=
  match c with
  | [] => (false, [])
  | v :: c => if v.1 =? i then (true, c) else let '(found, c) := remove_first_vote i c in (found, v :: c)
  end.

Definition indexed (f : AccountId -> option Z) (l : list (AccountId * Z)) : option (list (Z * Z)) :=
  mapM (fun '(a, z) => i ← f a; Some (i, z)) l.

#[export] Instance split_npos : NposElections := {|
  CompactAssignments := list (Z * list (Z * Z));
  StakedAssignments := Votes;
  unique_targets c := remove_dups (flat_map (fun v => fst <$> v.2) c);
  into_assignment c nominator_at validator_at :=
    mapM (fun '(n, l) => who ← nominator_at n; d ← mapM (fun '(v, r) => t ← validator_at v; Some (t, r)) l; Some (mkAssignment who d)) c;
  offchain_accuracy_one := 65535;
  assignment_ratio_to_staked := rounded;
  assignment_ratio_to_staked_normalized l w := Some ((fun '(who, d) => (who, normalized (w who) d)) <$> rounded l w);
  to_supports v := (fun t => (t, StakingDemo.support_of (edges_of v) t)) <$> remove_dups (snd ∘ fst <$> edges_of v);
  evaluate l :=
    (foldr (fun p n => Z.min (su_total p.2) n) (umax 64) l, foldr (fun p n => su_total p.2 + n) 0 l,
     foldr (fun p n => su_total p.2 * su_total p.2 + n) 0 l);
  is_score_better this that _ := that.1.1 <? this.1.1;
  seq_phragmen n candidates voters := @seq_phragmen StakingDemo.npos n candidates voters;
  to_vote balance _ := balance;
  to_currency vote _ := vote;
|}.

#[export] Instance offchain_env : OffchainElectionEnv := {|
  submit_unsigned validators nominators voters winners := 1000 + 100 * Z.max 0 voters;
  MaxIterations := 10;
  OffchainSolutionWeightLimit := 1000000;
  random_seed := 12345;
  seq_phragmen_balanced _ n candidates voters :=
    match @seq_phragmen StakingDemo.npos n candidates voters with
    | Some (winners, assignments) => Some ((fun w => (w, 0)) <$> winners, assignments)
    | None => None
    end;
  reduce v := v;
  assignment_staked_to_ratio_normalized v :=
    Some ((fun '(who, l) => mkAssignment who (normalized 65535 ((fun '(t, z) => (t, z * 65535 / Z.max 1 (total_of l))) <$> l))) <$> v);
  from_assignment l nominator_index validator_index :=
    mapM (fun a => i ← nominator_index (as_who a); d ← indexed validator_index (as_distribution a); Some (i, d)) l;
  voter_count c := length c;
  remove_voter := remove_first_vote;
  submit_unsigned_transaction _ := true;
|}.

Definition score_of (r : outcome OffchainElectionError (list Z * list (Z * list (Z * Z)) * ElectionScore * EraIndex * ElectionSize)) : option ElectionScore :=
  match r with Ok (_, _, score, _, _) => Some score | _ => None end.

(** The worker runs at block 1, and not again at block 3. *)
Example worker_runs : (staking_offchain_worker 1 false None StakingWitnesses.s_window).2 = Some 1 /\
  (staking_offchain_worker 1 false (Some 0) StakingWitnesses.s_window) = (None, Some 0) /\
  exists r, (staking_offchain_worker 1 false None StakingWitnesses.s_window).1 = Some (Ok r).
Proof. split; [vm_compute; reflexivity|]. split; [vm_compute; reflexivity|]. eexists. vm_compute. reflexivity. Qed.
End OffchainDemo.
Import OffchainDemo.

(** What the worker elects, and a solution that splits the nominator's 300
    between both validators. *)
Definition elected : list (AccountId * Z) * list Assignment := Eval vm_compute in
  default ([], []) (do_phragmen_balanced 0 StakingWitnesses.s_window).
Definition split_assignments : list Assignment :=
  [mkAssignment 12 [(10, 32767); (11, 32768)]; mkAssignment 11 [(11, 65535)]; mkAssignment 10 [(10, 65535)]].

Definition whole : list (Z * list (Z * Z)) := [(1, [(0, 65535)]); (2, [(1, 65535)]); (0, [(1, 65535)])].
Definition split : list (Z * list (Z * Z)) := [(0, [(1, 32658); (0, 32877)]); (1, [(0, 65535)]); (2, [(1, 65535)])].

Lemma demo_timely compact score : pre_dispatch_checks score 0 StakingWitnesses.s_window = (Ok tt, StakingWitnesses.s_window) ->
  length (unique_targets compact) = 2%nat ->
  (forall a, into_assignment compact (fun i => [12; 11; 10] !! Z.to_nat i) (fun i => [11; 10] !! Z.to_nat i) = Some a ->
    Forall (fun x => check_assignment x StakingWitnesses.s_window = (Ok tt, StakingWitnesses.s_window)) a) ->
  timely 0 compact elected.1 score StakingWitnesses.s_window.
Proof.
  intros Hpre Ht Hv.
  assert (Hvs : SnapshotValidators (election StakingWitnesses.s_window) = Some [11; 10]) by (vm_compute; reflexivity).
  assert (Hns : SnapshotNominators (election StakingWitnesses.s_window) = Some [12; 11; 10]) by (vm_compute; reflexivity).
  split; [done | done | | |].
  - intros l Hl. rewrite Hvs in Hl. injection Hl as <-. vm_compute. split; [discriminate | reflexivity].
  - intros l Hl. rewrite Hns in Hl. injection Hl as <-. vm_compute. discriminate.
  - intros validators nominators a Hval Hnom. rewrite Hvs in Hval. rewrite Hns in Hnom. injection Hval as <-. injection Hnom as <-. apply Hv.
Qed.

Lemma whole_timely : timely 0 whole elected.1 (400, 1200, 800000) StakingWitnesses.s_window.
Proof.
  apply demo_timely; [vm_compute; reflexivity | vm_compute; reflexivity|].
  intros a Ha. vm_compute in Ha. injection Ha as <-. repeat constructor; vm_compute; reflexivity.
Qed.

Lemma split_timely : timely 0 split elected.1 (550, 1200, 725000) StakingWitnesses.s_window.
Proof.
  apply demo_timely; [vm_compute; reflexivity | vm_compute; reflexivity|].
  intros a Ha. vm_compute in Ha. injection Ha as <-. repeat constructor; vm_compute; reflexivity.
Qed.

Lemma prepared_solution_accepted_witness :
  exists s'', submit_election_solution_unsigned NoOrigin [0; 1] whole (400, 1200, 800000) 0 (mkElectionSize 2 3) StakingWitnesses.s_window = (Ok tt, s'') /\
    QueuedScore (election s'') = Some (400, 1200, 800000) /\
    QueuedElected (election s'') = Some (mkElection [11; 10] (collect_exposures (chain_supports whole StakingWitnesses.s_window) StakingWitnesses.s_window) UnsignedSolution).
Proof.
  assert (Hp : prepare_submission elected.2 elected.1 true 1000000 StakingWitnesses.s_window =
    (Ok ([0; 1], whole, (400, 1200, 800000), mkElectionSize 2 3), StakingWitnesses.s_window)) by (vm_compute; reflexivity).
  assert (Hs : evaluate (chain_supports whole StakingWitnesses.s_window) = (400, 1200, 800000)) by (vm_compute; reflexivity).
  exact (prepared_solution_accepted elected.2 elected.1 true 1000000 StakingWitnesses.s_window [0; 1] whole (400, 1200, 800000)
    (mkElectionSize 2 3) StakingWitnesses.s_window 0 Hp whole_timely Hs).
Defined.

(** The chain computes a total of 1199 where the worker claims 1200. *)
Lemma normalized_score_panics_witness :
  submit_election_solution_unsigned NoOrigin [0; 1] split (550, 1200, 725000) 0 (mkElectionSize 2 3) StakingWitnesses.s_window =
  (Panic, StakingWitnesses.s_window).
Proof.
  assert (Hp : prepare_submission split_assignments elected.1 true 1000000 StakingWitnesses.s_window =
    (Ok ([0; 1], split, (550, 1200, 725000), mkElectionSize 2 3), StakingWitnesses.s_window)) by (vm_compute; reflexivity).
  assert (Hs : evaluate (chain_supports split StakingWitnesses.s_window) <> (550, 1200, 725000)) by (vm_compute; discriminate).
  exact (proj2 (normalized_score_panics split_assignments elected.1 true 1000000 StakingWitnesses.s_window [0; 1] split (550, 1200, 725000)
    (mkElectionSize 2 3) StakingWitnesses.s_window 0 Hp split_timely Hs)).
Defined.

(** Seven of ten voters fit a weight of 1750. *)
Lemma maximum_compact_len_exact_witness :
  maximum_compact_len 2 (mkElectionSize 2 10) 1750 = 7 /\
  let v := maximum_compact_len 2 (mkElectionSize 2 10) 1750 in
  0 <= v <= 10 /\ (v = 0 \/ weight_with 2 (mkElectionSize 2 10) v <= 1750) /\ (v = 10 \/ 1750 <= weight_with 2 (mkElectionSize 2 10) (v + 1)).
Proof.
  split; [vm_compute; reflexivity|].
  assert (Hsize : 0 <= es_nominators (mkElectionSize 2 10) < umax 32) by (vm_compute; split; [discriminate | reflexivity]).
  assert (Hmono : forall v v', 0 <= v <= v' -> weight_with 2 (mkElectionSize 2 10) v <= weight_with 2 (mkElectionSize 2 10) v').
  { intros v v' Hv. unfold weight_with. cbn. lia. }
  destruct (maximum_compact_len_exact 2 (mkElectionSize 2 10) 1750 Hsize Hmono) as (H1 & H2 & H3 & _). split; [exact H1|]. split; [exact H2 | exact H3].
Defined.

#[export] Instance remove_first_laws : RemoveVoterLaws.
Proof.
  split; cbn [remove_voter voter_count offchain_env]; intros i c; induction c as [|v c IH]; intros c'; cbn [remove_first_vote].
  - done.
  - destruct (v.1 =? i); [by intros [= <-]|]. destruct (remove_first_vote i c) as [found c1]. intros [= -> <-]. cbn [length]. by rewrite (IH c1).
  - by intros [= <-].
  - destruct (v.1 =? i); [done|]. destruct (remove_first_vote i c) as [found c1]. intros [= -> <-]. by rewrite (IH c1).
Qed.

(** Trimmed to two voters, the solution loses the nominator. *)
Lemma trim_takes_least_witness : exists c' voters n,
  trim_to_weight 2 whole (index_in 32 [12; 11; 10]) StakingWitnesses.s_window = (Ok c', StakingWitnesses.s_window) /\
  c' = without (index_in 32 [12; 11; 10]) (take n voters) whole /\ Nat.le 2 (voter_count c') /\ least_first StakingWitnesses.s_window voters.
Proof.
  destruct (trim_takes_least (npos := split_npos) 2 whole (index_in 32 [12; 11; 10]) StakingWitnesses.s_window) as (c' & Ht & _ & Hlt).
  - intros p Hp. apply list_elem_of_In in Hp. vm_compute in Hp. destruct Hp as [<-|[]]. eexists. vm_compute. reflexivity.
  - destruct (Hlt ltac:(vm_compute; lia)) as (voters & n & Hs & Hc & Hle & _).
    exists c', voters, n. split; [exact Ht|]. split; [exact Hc|]. split; [exact Hle | exact Hs].
Defined.
