(* ===== verification/TransactionPayment.v ===== *)
(** * Transaction payment

    [src/crml/transaction-payment/src]: the fee multiplier and its update at the
    end of a block, the composition of fees, the signed extension
    [ChargeTransactionPayment] with the purchase of the fee currency, the
    [CurrencyAdapter] that takes, refunds and hands over fees, and the dispatch
    information returned to clients. *)

From S2P Require Import Prelude Support GenericAssetTypes Cennzx.

(** ** Dispatch information of FRAME *)
Inductive DispatchClass := Normal | Operational | Mandatory.
Inductive Pays := PaysYes | PaysNo.

Record DispatchInfo := mkDispatchInfo { di_weight : Z; di_class : DispatchClass; di_pays_fee : Pays }.
Record PostDispatchInfo := mkPostInfo { pi_actual_weight : option Z; pi_pays_fee : Pays }.

(** Fee multiplier. *)
Abbreviation Multiplier := FixedU128 (only parsing).

(** [Config] and what it takes from [frame_system] and [frame_support]: the block
    limits, the corrected weight and payment after a dispatch, the polynomial of
    weights, and the product of a [Perquintill]. *)
Class FeeConfig := {
  TransactionByteFee : Balance;
  weight_polynomial : Z -> Balance;
  base_extrinsic : DispatchClass -> Z;
  normal_max_total : option Z;
  max_block : Z;
  normal_max_length : Z;
  TargetBlockFullness : Z;
  AdjustmentVariable : Multiplier;
  MinimumMultiplier : Multiplier;
  perquintill_mul : Z -> Z -> Z;
  calc_actual_weight : PostDispatchInfo -> DispatchInfo -> Z;
  post_pays_fee : PostDispatchInfo -> DispatchInfo -> Pays;
}.

(** The pallets a fee goes through: the currency, the handler of collected fees,
    the exchange, and the weight of the block so far. *)
Class FeeEnv (W : Type) := {
  fee_withdraw : AccountId -> Balance -> Z -> ExistenceRequirement -> D W NegativeImbalance;
  fee_deposit_into_existing : AccountId -> Balance -> D W PositiveImbalance;
  fee_drop_positive : PositiveImbalance -> W -> W;
  fee_drop_negative : NegativeImbalance -> W -> W;
  fee_on_unbalanceds : list NegativeImbalance -> W -> W;
  fee_buy_fee_asset : AccountId -> Balance -> FeeExchange -> D W Balance;
  normal_block_weight : W -> Z;
}.

(** ** Fees *)
Record InclusionFee := mkInclusionFee { base_fee : Balance; len_fee : Balance; adjusted_weight_fee : Balance }.

Definition inclusion_fee (f : InclusionFee) : Balance :=
  saturating_add BALANCE_BITS (saturating_add BALANCE_BITS (base_fee f) (len_fee f)) (adjusted_weight_fee f).

Record FeeDetails := mkFeeDetails { fd_inclusion_fee : option InclusionFee; fd_tip : Balance }.

Definition final_fee (f : FeeDetails) : Balance :=
  saturating_add BALANCE_BITS (default 0 (inclusion_fee <$> fd_inclusion_fee f)) (fd_tip f).

Record FeeParts := mkFeeParts { fp_base_fee : Balance; fp_length_fee : Balance; fp_weight_fee : Balance; fp_peak_adjustment_fee : Balance }.

Definition FeeParts_total (f : FeeParts) : Balance :=
  saturating_add BALANCE_BITS (saturating_add BALANCE_BITS (saturating_add BALANCE_BITS (fp_length_fee f) (fp_base_fee f))
    (fp_weight_fee f)) (fp_peak_adjustment_fee f).

Record RuntimeDispatchInfo := mkRuntimeInfo { ri_weight : Z; ri_class : DispatchClass; ri_partial_fee : Balance }.

(** ** Errors *)
Inductive InvalidTransaction := Payment | Custom (code : Z).

(** [constants.rs] *)
Module error_code.
Definition MINIMUM_BUY_REQUIREMENT_NOT_MET : Z := 197.
Definition CANNOT_TRADE_ZERO : Z := 199.
Definition INSUFFICIENT_FEE_ASSET_BALANCE : Z := 200.
Definition INVALID_ASSET_ID : Z := 201.
Definition UNKNOWN_BUY_FEE_ASSET : Z := 202.
Definition INSUFFICIENT_LIQUIDITY : Z := 203.
Definition ASSET_CANNOT_SWAP_FOR_ITSELF : Z := 204.
Definition INSUFFICIENT_EXCHANGE_POOL_RESERVE : Z := 205.
Definition MAXIMUM_SELL_REQUIREMENT_NOT_MET : Z := 206.
Definition INSUFFICIENT_BALANCE : Z := 195.

Definition buy_fee_asset_error_msg_to_code (message : string) : Z :=
  if String.eqb message "InsufficientBalance" then INSUFFICIENT_BALANCE
  else if String.eqb message "InsufficientExchangePoolReserve" then INSUFFICIENT_EXCHANGE_POOL_RESERVE
  else if String.eqb message "CannotTradeZero" then CANNOT_TRADE_ZERO
  else if String.eqb message "MinimumBuyRequirementNotMet" then MINIMUM_BUY_REQUIREMENT_NOT_MET
  else if String.eqb message "AssetCannotSwapForItself" then ASSET_CANNOT_SWAP_FOR_ITSELF
  else if String.eqb message "MaximumSellRequirementNotMet" then MAXIMUM_SELL_REQUIREMENT_NOT_MET
  else if String.eqb message "InvalidAssetId" then INVALID_ASSET_ID
  else if String.eqb message "InsufficientLiquidity" then INSUFFICIENT_LIQUIDITY
  else UNKNOWN_BUY_FEE_ASSET.
End error_code.

(** The message of a module error is the name of its variant. *)
Definition cennzx_message (e : CennzxError.t) : string :=
  match e with
  | CennzxError.EmptyExchangePool => "EmptyExchangePool"
  | CennzxError.InsufficientExchangePoolReserve => "InsufficientExchangePoolReserve"
  | CennzxError.InsufficientBalance => "InsufficientBalance"
  | CennzxError.InsufficientLiquidity => "InsufficientLiquidity"
  | CennzxError.InsufficientTradeAssetBalance => "InsufficientTradeAssetBalance"
  | CennzxError.InsufficientCoreAssetBalance => "InsufficientCoreAssetBalance"
  | CennzxError.CannotTradeZero => "CannotTradeZero"
  | CennzxError.CannotAddLiquidityWithZero => "CannotAddLiquidityWithZero"
  | CennzxError.MinimumBuyRequirementNotMet => "MinimumBuyRequirementNotMet"
  | CennzxError.MaximumSellRequirementNotMet => "MaximumSellRequirementNotMet"
  | CennzxError.MinimumTradeAssetRequirementNotMet => "MinimumTradeAssetRequirementNotMet"
  | CennzxError.MinimumCoreAssetRequirementNotMet => "MinimumCoreAssetRequirementNotMet"
  | CennzxError.MinimumLiquidityRequirementNotMet => "MinimumLiquidityRequirementNotMet"
  | CennzxError.MaximumTradeAssetRequirementNotMet => "MaximumTradeAssetRequirementNotMet"
  | CennzxError.AssetCannotSwapForItself => "AssetCannotSwapForItself"
  | CennzxError.InvalidAssetId => "InvalidAssetId"
  | CennzxError.Overflow => "Overflow"
  | CennzxError.DivideByZero => "DivideByZero"
  end.

(** Errors of the exchange and of the ledger below it; the only name the ledger
    shares with the table is [InsufficientBalance]. *)
Definition buy_error_code (e : DispatchError) : Z :=
  match e with
  | Cennzx e => error_code.buy_fee_asset_error_msg_to_code (cennzx_message e)
  | GenericAsset GaError.InsufficientBalance => error_code.INSUFFICIENT_BALANCE
  | _ => error_code.UNKNOWN_BUY_FEE_ASSET
  end.

(** ** The multiplier *)
Section Fees.
Context `{FeeConfig} `{FixedU128Ops}.

(** [TargetedFeeAdjustment::convert]; [block_weight] is what the normal class has
    consumed of the block. *)
Definition convert (block_weight : Z) (previous : Multiplier) : Multiplier :=
  let min_multiplier := MinimumMultiplier in
  let previous := Z.max previous min_multiplier in
  let normal_max_weight := default max_block normal_max_total in
  let block_weight := Z.min block_weight normal_max_weight in
  let v := AdjustmentVariable in
  let target_weight := perquintill_mul TargetBlockFullness normal_max_weight in
  let positive := target_weight <=? block_weight in
  let diff_abs := Z.max block_weight target_weight - Z.min block_weight target_weight in
  let diff := fixed_from_rational diff_abs (Z.max normal_max_weight 1) in
  let diff_squared := fixed_mul diff diff in
  let v_squared_2 := fixed_div (fixed_mul v v) (fixed_from_integer 2) in
  let first_term := fixed_mul v diff in
  let second_term := fixed_mul v_squared_2 diff_squared in
  if positive then
    let excess := fixed_mul (fixed_add first_term second_term) previous in
    Z.max (fixed_add previous excess) min_multiplier
  else
    let negative := fixed_mul (fixed_sub first_term second_term) previous in
    Z.max (fixed_sub previous negative) min_multiplier.

(** ** Composition of a fee; [multiplier] is [NextFeeMultiplier] *)
Definition weight_to_fee (weight : Z) : Balance := weight_polynomial (Z.min weight max_block).

Definition compute_fee_raw (multiplier : Multiplier) (len weight : Z) (tip : Balance) (pays_fee : Pays) (class : DispatchClass)
    : FeeDetails :=
  match pays_fee with
  | PaysYes =>
      let fixed_len_fee := saturating_mul BALANCE_BITS TransactionByteFee len in
      let unadjusted_weight_fee := weight_to_fee weight in
      let adjusted_weight_fee := fixed_mul_int multiplier unadjusted_weight_fee in
      mkFeeDetails (Some (mkInclusionFee (weight_to_fee (base_extrinsic class)) fixed_len_fee adjusted_weight_fee)) tip
  | PaysNo => mkFeeDetails None tip
  end.

Definition compute_fee_details (multiplier : Multiplier) (len : Z) (info : DispatchInfo) (tip : Balance) : FeeDetails :=
  compute_fee_raw multiplier len (di_weight info) tip (di_pays_fee info) (di_class info).

Definition compute_fee (multiplier : Multiplier) (len : Z) (info : DispatchInfo) (tip : Balance) : Balance :=
  final_fee (compute_fee_details multiplier len info tip).

Definition compute_actual_fee_details (multiplier : Multiplier) (len : Z) (info : DispatchInfo) (post_info : PostDispatchInfo)
    (tip : Balance) : FeeDetails :=
  compute_fee_raw multiplier len (calc_actual_weight post_info info) tip (post_pays_fee post_info info) (di_class info).

Definition compute_actual_fee (multiplier : Multiplier) (len : Z) (info : DispatchInfo) (post_info : PostDispatchInfo)
    (tip : Balance) : Balance :=
  final_fee (compute_actual_fee_details multiplier len info post_info tip).

Definition query_info (multiplier : Multiplier) (dispatch_info : DispatchInfo) (len : Z) : RuntimeDispatchInfo :=
  mkRuntimeInfo (di_weight dispatch_info) (di_class dispatch_info) (compute_fee multiplier len dispatch_info 0).

Definition query_fee_details (multiplier : Multiplier) (dispatch_info : DispatchInfo) (len : Z) : FeeDetails :=
  compute_fee_details multiplier len dispatch_info 0.

Definition compute_fee_parts (multiplier : Multiplier) (len : Z) (info : DispatchInfo) : FeeParts :=
  let fixed_len_fee := saturating_mul BALANCE_BITS TransactionByteFee len in
  let unadjusted_weight_fee := weight_to_fee (di_weight info) in
  let adjusted_weight_fee := fixed_mul_int multiplier unadjusted_weight_fee in
  mkFeeParts (weight_to_fee (base_extrinsic Normal)) fixed_len_fee unadjusted_weight_fee
    (wrapping_sub BALANCE_BITS adjusted_weight_fee unadjusted_weight_fee).

(** [Convert<Weight, BalanceOf>] *)
Definition weight_fee (multiplier : Multiplier) (weight : Z) : Balance := fixed_mul_int multiplier (weight_to_fee weight).

Definition get_priority (len : Z) (info : DispatchInfo) (final_fee : Balance) : Z :=
  let weight_saturation := max_block / Z.max (di_weight info) 1 in
  let len_saturation := normal_max_length / Z.max len 1 in
  let coefficient := Z.min weight_saturation len_saturation in
  saturate 64 (saturating_mul BALANCE_BITS final_fee coefficient).
End Fees.

(** ** Storage and the extension *)
Inductive TpReleases := V1Ancient | V2.

Record State (W : Type) := mkState { NextFeeMultiplier : Multiplier; TpStorageVersion : TpReleases; tp_world : W }.
Arguments mkState {W}.
Arguments NextFeeMultiplier {W}.
Arguments TpStorageVersion {W}.
Arguments tp_world {W}.

(** [ChargeTransactionPayment] *)
Record ChargeTransactionPayment := mkCharge { tip : Balance; fee_exchange : option FeeExchange }.

Section Payment.
Context {W : Type} `{FeeConfig} `{FixedU128Ops} `{FeeEnv W}.
Abbreviation St := (State W).
Abbreviation T := (M InvalidTransaction St).
Implicit Types s : St.

Definition genesis_build (w : W) : St := mkState (fixed_from_integer 1) V2 w.

Definition on_finalize s : St :=
  mkState (convert (normal_block_weight (tp_world s)) (NextFeeMultiplier s)) (TpStorageVersion s) (tp_world s).

(** A call of another pallet whose error becomes an invalid transaction. *)
Definition on_tp_world {A} (m : D W A) (err : DispatchError -> InvalidTransaction) : T A := fun s =>
  match m (tp_world s) with
  | (Ok a, w) => (Ok a, mkState (NextFeeMultiplier s) (TpStorageVersion s) w)
  | (Err e, w) => (Err (err e), mkState (NextFeeMultiplier s) (TpStorageVersion s) w)
  | (Panic, w) => (Panic, mkState (NextFeeMultiplier s) (TpStorageVersion s) w)
  end.

Definition write_world (f : W -> W) : T unit :=
  modify (fun s => mkState (NextFeeMultiplier s) (TpStorageVersion s) (f (tp_world s))).

(** *** [CurrencyAdapter] *)
Definition adapter_withdraw_fee (who : AccountId) (fee tip : Balance) : T (option NegativeImbalance) :=
  if fee =? 0 then ret None
  else
    let withdraw_reason :=
      if tip =? 0 then WithdrawReasons.TRANSACTION_PAYMENT
      else Z.lor WithdrawReasons.TRANSACTION_PAYMENT WithdrawReasons.TIP in
    let* imbalance := on_tp_world (fee_withdraw who fee withdraw_reason KeepAlive) (fun _ => Payment) in
    ret (Some imbalance).

(** A failed refund deposits nothing. *)
Definition refund (who : AccountId) (amount : Balance) : T PositiveImbalance := fun s =>
  match fee_deposit_into_existing who amount (tp_world s) with
  | (Ok p, w) => (Ok p, mkState (NextFeeMultiplier s) (TpStorageVersion s) w)
  | (Err _, w) => (Ok pi_zero, mkState (NextFeeMultiplier s) (TpStorageVersion s) w)
  | (Panic, w) => (Panic, mkState (NextFeeMultiplier s) (TpStorageVersion s) w)
  end.

Definition correct_and_deposit_fee (who : AccountId) (corrected_fee tip : Balance) (already_withdrawn : option NegativeImbalance)
    : T unit :=
  match already_withdrawn with
  | Some paid =>
      let refund_amount := saturating_sub (ni_amount paid) corrected_fee in
      let* refund_imbalance := refund who refund_amount in
      match ni_offset paid refund_imbalance with
      | Same adjusted_paid =>
          let '(tip, fee) := ni_split adjusted_paid tip in
          write_world (fee_on_unbalanceds [fee; tip])
      | Other rest => do* write_world (fee_drop_positive rest) in fail Payment
      end
  | None => ret tt
  end.

(** *** [ChargeTransactionPayment] *)
Definition withdraw_fee (self : ChargeTransactionPayment) (who : AccountId) (info : DispatchInfo) (len : Z)
    : T (Balance * option NegativeImbalance) :=
  let* multiplier := gets NextFeeMultiplier in
  let fee := compute_fee multiplier (wrap 32 len) info (tip self) in
  do* match fee_exchange self with
      | Some exchange =>
          let* _bought := on_tp_world (fee_buy_fee_asset who fee exchange) (fun e => Custom (buy_error_code e)) in
          ret tt
      | None => ret tt
      end in
  let* i := adapter_withdraw_fee who fee (tip self) in
  ret (fee, i).

(** The priority of a transaction; the writes of a validation are discarded by
    the caller, which runs it on a copy of the storage. *)
Definition validate (self : ChargeTransactionPayment) (who : AccountId) (info : DispatchInfo) (len : Z) : T Z :=
  let* '(fee, _i) := withdraw_fee self who info len in
  ret (get_priority len info fee).

Definition pre_dispatch (self : ChargeTransactionPayment) (who : AccountId) (info : DispatchInfo) (len : Z)
    : T (Balance * AccountId * option NegativeImbalance) :=
  let* '(_fee, imbalance) := withdraw_fee self who info len in
  ret (tip self, who, imbalance).

Definition post_dispatch (pre : Balance * AccountId * option NegativeImbalance) (info : DispatchInfo) (post_info : PostDispatchInfo)
    (len : Z) : T unit :=
  let '(tip, who, imbalance) := pre in
  let* multiplier := gets NextFeeMultiplier in
  let actual_fee := compute_actual_fee multiplier (wrap 32 len) info post_info tip in
  correct_and_deposit_fee who actual_fee tip imbalance.

(** [TransactionFeeHandler::pay_fee]; the imbalance is dropped at once. *)
Definition pay_fee (len : Z) (info : DispatchInfo) (account : AccountId) : T unit :=
  let* multiplier := gets NextFeeMultiplier in
  let fee := compute_fee multiplier len info 0 in
  let* i := adapter_withdraw_fee account fee 0 in
  match i with Some i => write_world (fee_drop_negative i) | None => ret tt end.
End Payment.

(** ** Encoding of [RuntimeDispatchInfo] *)
Fixpoint from_le_bytes (l : list Z) : Z := match l with [] => 0 | b :: l => b + 256 * from_le_bytes l end.

(** [Input::read] of [n] bytes. *)
Definition read_bytes (n : nat) (input : list Z) : option (list Z * list Z) :=
  if Nat.leb n (length input) then Some (take n input, drop n input) else None.

Definition class_byte (c : DispatchClass) : Z := match c with Normal => 0 | Operational => 1 | Mandatory => 2 end.

Definition decode_class (b : Z) : option DispatchClass :=
  if b =? 0 then Some Normal else if b =? 1 then Some Operational else if b =? 2 then Some Mandatory else None.

Definition LEGACY_RUNTIME_DISPATCH_INFO_BYTE_LENGTH : nat := 21.

Definition encode_info (i : RuntimeDispatchInfo) : list Z :=
  to_le_bytes 8 (ri_weight i) ++ [class_byte (ri_class i)] ++ to_le_bytes 16 (ri_partial_fee i).

(** What a runtime with 32-bit weights encodes. *)
Definition encode_legacy_info (i : RuntimeDispatchInfo) : list Z :=
  to_le_bytes 4 (ri_weight i) ++ [class_byte (ri_class i)] ++ to_le_bytes 16 (ri_partial_fee i).

Definition decode_info (input : list Z) : option (RuntimeDispatchInfo * list Z) :=
  let width := if Nat.eqb (length input) LEGACY_RUNTIME_DISPATCH_INFO_BYTE_LENGTH then 4%nat else 8%nat in
  match read_bytes width input with
  | Some (weight, input) =>
      match read_bytes 1 input with
      | Some ([class], input) =>
          match decode_class class, read_bytes 16 input with
          | Some class, Some (partial_fee, input) =>
              Some (mkRuntimeInfo (from_le_bytes weight) class (from_le_bytes partial_fee), input)
          | _, _ => None
          end
      | _ => None
      end
  | None => None
  end.
