(* ===== verification/TransactionPaymentRuntime.v ===== *)
(** * Transaction payment: fees

    The fee multiplier stays in its range and moves with the load of the chain
    by a bounded factor; the fee after a dispatch never exceeds the fee taken
    before it; dispatch information survives its encodings. *)

From S2P Require Import Prelude Support GenericAssetTypes GenericAsset GenericAssetProps GenericAssetInv GenericAssetOps MultiCurrency Cennzx CennzxPricing StakingTypes StakingState StakingRewards TransactionPayment.

(** What the pallet relies on of its configuration: values of their types, a
    polynomial that grows with the weight, a target inside the block limit, and
    corrections that only lower a fee. *)
Class FeeConfigLaws `{FeeConfig} := {
  fc_byte_fee : in_range BALANCE_BITS TransactionByteFee;
  fc_polynomial_range : forall w, 0 <= w -> in_range BALANCE_BITS (weight_polynomial w);
  fc_polynomial_mono : forall v w, 0 <= v <= w -> weight_polynomial v <= weight_polynomial w;
  fc_base : forall c, 0 <= base_extrinsic c;
  fc_max_block : 0 <= max_block;
  fc_normal_max : 0 <= default max_block normal_max_total;
  fc_target : forall n, 0 <= n -> 0 <= perquintill_mul TargetBlockFullness n <= n;
  fc_variable : in_range FIXED_BITS AdjustmentVariable;
  fc_minimum : in_range FIXED_BITS MinimumMultiplier;
  fc_actual_weight : forall p i, 0 <= di_weight i -> 0 <= default 0 (pi_actual_weight p) ->
    0 <= calc_actual_weight p i <= di_weight i;
  fc_post_pays : forall p i, di_pays_fee i = PaysNo -> post_pays_fee p i = PaysNo;
}.

Section Multiplier.
Context `{FeeConfig} `{FixedU128Ops} {config_laws : FeeConfigLaws} {fixed_law : FixedU128Laws}.

Lemma fixed_mul_le_l a b : in_range FIXED_BITS a -> in_range FIXED_BITS b -> a <= FIXED_ONE -> fixed_mul a b <= b.
Proof.
  intros Ha Hb Hle. rewrite <- (fixed_mul_one b Hb) at 2. apply fixed_mul_mono; [done | | done | done]. by split; vm_compute.
Qed.

Lemma fixed_mul_le_r a b : in_range FIXED_BITS a -> in_range FIXED_BITS b -> b <= FIXED_ONE -> fixed_mul a b <= a.
Proof. intros Ha Hb Hle. rewrite fixed_mul_comm by done. by apply fixed_mul_le_l. Qed.

Lemma fixed_add_range a b : in_range FIXED_BITS a -> in_range FIXED_BITS b -> in_range FIXED_BITS (fixed_add a b).
Proof. intros [Ha Ha'] [Hb Hb']. unfold fixed_add, saturating_add, in_range. lia. Qed.

Lemma fixed_sub_range a b : in_range FIXED_BITS a -> in_range FIXED_BITS b -> in_range FIXED_BITS (fixed_sub a b).
Proof. intros [Ha Ha'] [Hb Hb']. unfold fixed_sub, saturating_sub, in_range. lia. Qed.

(** [v^2 / 2] *)
Definition half_square : FixedU128 := fixed_div (fixed_mul AdjustmentVariable AdjustmentVariable) (fixed_from_integer 2).

Lemma half_square_range : in_range FIXED_BITS half_square.
Proof.
  unfold half_square. assert (Hv := fc_variable). rewrite fixed_from_integer_eq by lia.
  apply fixed_div_range; [by apply fixed_mul_range | split; by vm_compute | by vm_compute].
Qed.

Definition target_weight : Z := perquintill_mul TargetBlockFullness (default max_block normal_max_total).

(** C35: the multiplier of the next block is a [FixedU128] of at least the
    minimum; it does not fall after a block at or above the target and does not
    rise after one below it; and it changes by at most the factor [v + v^2/2]
    upwards and [v] downwards. *)
Theorem multiplier_adjusts w prev : in_range FIXED_BITS prev -> 0 <= w ->
  let p := Z.max prev MinimumMultiplier in
  let next := convert w prev in
  in_range FIXED_BITS next /\ MinimumMultiplier <= next /\
  (if target_weight <=? Z.min w (default max_block normal_max_total) then p <= next else next <= p) /\
  p - fixed_mul AdjustmentVariable p <= next <= p + fixed_mul (fixed_add AdjustmentVariable half_square) p.
Proof.
  intros [Hp Hp'] Hw p next. pose proof fc_variable as Hv. pose proof fc_minimum as [Hm Hm'].
  assert (Hpr : in_range FIXED_BITS p) by (unfold p, in_range; lia).
  pose proof fc_normal_max as Hmax. pose proof (fc_target _ Hmax) as Ht. pose proof half_square_range as Hh.
  unfold next, convert. cbv zeta. fold half_square target_weight p. fold target_weight in Ht.
  set (cap := default max_block normal_max_total) in *. set (b := Z.min w cap).
  set (diff := fixed_from_rational _ _).
  assert (Hd : in_range FIXED_BITS diff) by (apply fixed_from_rational_range; lia).
  assert (Hd1 : diff <= FIXED_ONE) by (apply fixed_from_rational_le_one; lia).
  assert (Hsq : in_range FIXED_BITS (fixed_mul diff diff)) by by apply fixed_mul_range.
  assert (Hsq1 : fixed_mul diff diff <= FIXED_ONE) by (pose proof (fixed_mul_le_l diff diff Hd Hd Hd1); lia).
  set (first := fixed_mul AdjustmentVariable diff). set (second := fixed_mul half_square (fixed_mul diff diff)).
  assert (Hf : in_range FIXED_BITS first) by by apply fixed_mul_range.
  assert (Hs : in_range FIXED_BITS second) by by apply fixed_mul_range.
  assert (Hf1 : first <= AdjustmentVariable) by by apply fixed_mul_le_r.
  assert (Hs1 : second <= half_square) by by apply fixed_mul_le_r.
  assert (Hup : fixed_mul (fixed_add first second) p <= fixed_mul (fixed_add AdjustmentVariable half_square) p).
  { apply fixed_mul_mono; [by apply fixed_add_range | by apply fixed_add_range | done | unfold fixed_add, saturating_add; lia]. }
  assert (Hdown : fixed_mul (fixed_sub first second) p <= fixed_mul AdjustmentVariable p).
  { apply fixed_mul_mono; [by apply fixed_sub_range | done | done | unfold fixed_sub, saturating_sub, in_range in *; lia]. }
  destruct (fixed_mul_range (fixed_add first second) p (fixed_add_range _ _ Hf Hs) Hpr) as [He He'].
  destruct (fixed_mul_range (fixed_sub first second) p (fixed_sub_range _ _ Hf Hs) Hpr) as [Hn Hn'].
  destruct (fixed_mul_range AdjustmentVariable p Hv Hpr) as [Hvp _].
  destruct (fixed_mul_range (fixed_add AdjustmentVariable half_square) p (fixed_add_range _ _ Hv Hh) Hpr) as [Hbp _].
  assert (MinimumMultiplier <= p) by (unfold p; lia).
  destruct (target_weight <=? b); unfold fixed_add, fixed_sub, saturating_add, saturating_sub, in_range in *; lia.
Qed.

(** ** The fee of a dispatch *)
Lemma weight_to_fee_range w : 0 <= w -> in_range BALANCE_BITS (weight_to_fee w).
Proof. intros Hw. apply fc_polynomial_range. pose proof fc_max_block. lia. Qed.

Lemma weight_to_fee_mono v w : 0 <= v <= w -> weight_to_fee v <= weight_to_fee w.
Proof. intros Hv. apply fc_polynomial_mono. pose proof fc_max_block. lia. Qed.

Lemma adjusted_mono mult v w : in_range FIXED_BITS mult -> 0 <= v <= w ->
  fixed_mul_int mult (weight_to_fee v) <= fixed_mul_int mult (weight_to_fee w).
Proof.
  intros Hm Hv. apply fixed_mul_int_mono_r; [done | apply weight_to_fee_range; lia.. | by apply weight_to_fee_mono].
Qed.

Lemma final_fee_range f : (forall i, fd_inclusion_fee f = Some i -> 0 <= base_fee i /\ 0 <= len_fee i /\ 0 <= adjusted_weight_fee i) ->
  in_range BALANCE_BITS (fd_tip f) -> in_range BALANCE_BITS (final_fee f) /\ fd_tip f <= final_fee f.
Proof.
  intros Hi [Ht Ht']. unfold final_fee, saturating_add, in_range. destruct (fd_inclusion_fee f) as [i|]; simpl; [|lia].
  destruct (Hi i eq_refl) as (H1 & H2 & H3). unfold inclusion_fee, saturating_add. lia.
Qed.

(** The parts of a fee are never negative. *)
Lemma fee_raw_parts mult len w t p c i : in_range FIXED_BITS mult -> 0 <= len -> 0 <= w ->
  fd_inclusion_fee (compute_fee_raw mult len w t p c) = Some i -> 0 <= base_fee i /\ 0 <= len_fee i /\ 0 <= adjusted_weight_fee i.
Proof.
  intros Hm Hlen Hw. destruct p; simpl; [|done]. intros [= <-]. simpl. pose proof (weight_to_fee_range (base_extrinsic c) (fc_base c)) as [Hb _].
  pose proof fc_byte_fee as [Hbf _]. destruct (fixed_mul_int_range mult (weight_to_fee w) Hm (weight_to_fee_range w Hw)) as [Ha _].
  split_and!; [done | | done]. assert (0 <= umax BALANCE_BITS) by done. unfold saturating_mul. nia.
Qed.

Lemma compute_fee_range mult len info t : in_range FIXED_BITS mult -> 0 <= len -> 0 <= di_weight info -> in_range BALANCE_BITS t ->
  in_range BALANCE_BITS (compute_fee mult len info t) /\ t <= compute_fee mult len info t.
Proof.
  intros Hm Hlen Hw Ht. unfold compute_fee, compute_fee_details.
  set (raw := compute_fee_raw _ _ _ _ _ _). assert (Htip : fd_tip raw = t) by (unfold raw, compute_fee_raw; by destruct (di_pays_fee info)).
  rewrite <- Htip. apply final_fee_range; [|by rewrite Htip]. intros i. by apply fee_raw_parts.
Qed.

Lemma actual_fee_range mult len info post t : in_range FIXED_BITS mult -> 0 <= len -> 0 <= di_weight info ->
  0 <= default 0 (pi_actual_weight post) -> in_range BALANCE_BITS t ->
  t <= compute_actual_fee mult len info post t <= compute_fee mult len info t.
Proof.
  intros Hm Hlen Hw Ha Ht. pose proof (fc_actual_weight post info Hw Ha) as Haw.
  unfold compute_actual_fee, compute_actual_fee_details, compute_fee, compute_fee_details. split.
  - set (raw := compute_fee_raw _ _ _ _ _ _). assert (Htip : fd_tip raw = t) by (unfold raw, compute_fee_raw; by destruct (post_pays_fee post info)).
    rewrite <- Htip at 1. apply final_fee_range; [|by rewrite Htip]. intros i. apply fee_raw_parts; [done | done | lia].
  - pose proof (fun i => fee_raw_parts mult len (di_weight info) t PaysYes (di_class info) i Hm Hlen Hw) as Hparts.
    destruct (post_pays_fee post info) eqn:Epost; destruct (di_pays_fee info) eqn:Epays.
    + unfold final_fee, compute_fee_raw, inclusion_fee, saturating_add. simpl.
      pose proof (adjusted_mono mult _ _ Hm Haw). lia.
    + by rewrite (fc_post_pays post info Epays) in Epost.
    + destruct (Hparts _ eq_refl) as (H1 & H2 & H3). assert (0 <= umax BALANCE_BITS) by done.
      unfold final_fee, compute_fee_raw, inclusion_fee, saturating_add in *. simpl in *. lia.
    + done.
Qed.

(** Correcting a fee after the dispatch only lowers it, never below the tip,
    and every fee is a balance. *)
Theorem actual_fee_bounded mult len info post t : in_range FIXED_BITS mult -> 0 <= len -> 0 <= di_weight info ->
  0 <= default 0 (pi_actual_weight post) -> in_range BALANCE_BITS t ->
  t <= compute_actual_fee mult len info post t <= compute_fee mult len info t /\
  in_range BALANCE_BITS (compute_fee mult len info t).
Proof. intros Hm Hlen Hw Ha Ht. split; [by apply actual_fee_range | by apply compute_fee_range]. Qed.
End Multiplier.

(** ** Encodings *)
Lemma from_to_le_bytes n x : 0 <= x < 256 ^ Z.of_nat n -> from_le_bytes (to_le_bytes n x) = x.
Proof.
  revert x. induction n as [|n IH]; intros x Hx; [simpl in *; lia|]. simpl. rewrite IH; [pose proof (Z.div_mod x 256 ltac:(lia)); lia|].
  rewrite Nat2Z.inj_succ, Z.pow_succ_r in Hx by lia. split; [apply Z.div_pos; lia | apply Z.div_lt_upper_bound; lia].
Qed.

Lemma read_bytes_app n l k : length l = n -> read_bytes n (l ++ k) = Some (l, k).
Proof.
  intros <-. unfold read_bytes. rewrite length_app, (proj2 (Nat.leb_le _ _)) by lia. by rewrite take_app_length, drop_app_length.
Qed.

Lemma decode_class_byte c : decode_class (class_byte c) = Some c.
Proof. by destruct c. Qed.

Lemma decode_body width i : 0 <= ri_weight i < 256 ^ Z.of_nat width -> in_range BALANCE_BITS (ri_partial_fee i) ->
  width = (if Nat.eqb (width + 17) LEGACY_RUNTIME_DISPATCH_INFO_BYTE_LENGTH then 4 else 8)%nat ->
  decode_info (to_le_bytes width (ri_weight i) ++ [class_byte (ri_class i)] ++ to_le_bytes 16 (ri_partial_fee i)) = Some (i, []).
Proof.
  intros Hw [Hf Hf'] Hwidth. unfold decode_info. rewrite !length_app, !length_to_le_bytes.
  change (width + (length [class_byte (ri_class i)] + 16))%nat with (width + 17)%nat. cbv zeta. rewrite <- Hwidth, read_bytes_app by apply length_to_le_bytes. rewrite read_bytes_app by done. rewrite decode_class_byte.
  rewrite <- (app_nil_r (to_le_bytes 16 _)), read_bytes_app by apply length_to_le_bytes.
  rewrite !from_to_le_bytes; [by destruct i | | done]. change (256 ^ Z.of_nat 16) with (umax BALANCE_BITS + 1). lia.
Qed.

(** Dispatch information survives encoding and decoding, in the current form
    and in the legacy form with 32-bit weights. *)
Theorem dispatch_info_roundtrip i : in_range 64 (ri_weight i) -> in_range BALANCE_BITS (ri_partial_fee i) ->
  decode_info (encode_info i) = Some (i, []) /\
  (ri_weight i <= umax 32 -> decode_info (encode_legacy_info i) = Some (i, [])).
Proof.
  intros [Hw Hw'] Hf. split; [|intros Hl].
  - apply decode_body; [|done | done]. change (256 ^ Z.of_nat 8) with (umax 64 + 1). lia.
  - apply decode_body; [|done | done]. change (256 ^ Z.of_nat 4) with (umax 32 + 1). lia.
Qed.

(** * Transaction payment: on the runtime

    The pallets behind the fees of CENNZnet: fees are taken in the spending
    asset of the generic asset ledger, bought on the exchange on demand, and
    handed to [DealWithFees] of [src/runtime/src/impls.rs], which notes them in
    the rewards pallet.  Whatever the transaction does in between, its payer
    pays the actual fee, exactly. *)


Section Runtime.
Context `{GaConfig} `{Hashing} {rewards_config : RewardsConfig}.

Record TxWorld := mkTxWorld {
  tw_exchange : Cennzx.State GenericAsset.State;
  tw_rewards : RewardStore;
  tw_reward_events : list RewardEvent;
  tw_block_weight : Z;
}.

Definition tw_ledger (w : TxWorld) : GenericAsset.State := Cennzx.ledger (tw_exchange w).

Definition set_tw_exchange x (w : TxWorld) : TxWorld := mkTxWorld x (tw_rewards w) (tw_reward_events w) (tw_block_weight w).
Definition set_tw_ledger g (w : TxWorld) : TxWorld := set_tw_exchange (Cennzx.set_ledger g (tw_exchange w)) w.

Definition on_exchange {A} (m : D (Cennzx.State GenericAsset.State) A) : D TxWorld A := fun w =>
  let '(r, x) := m (tw_exchange w) in (r, set_tw_exchange x w).
Definition on_tw_ledger {A} (m : D GenericAsset.State A) : D TxWorld A := on_exchange (Cennzx.on_ledger m).

(** [Rewards::note_transaction_fees] *)
Definition note_fees (amount : Balance) (w : TxWorld) : TxWorld :=
  let r := (note_transaction_fees amount (StakingRewards.mkState (tw_rewards w) (tw_reward_events w) (tw_ledger w))).2 in
  mkTxWorld (tw_exchange w) (rewards r) (reward_events r) (tw_block_weight w).

(** [DealWithFees]: the second imbalance, the tip, is noted; all of them are
    dropped. *)
Definition deal_with_fees (fees_then_tips : list NegativeImbalance) (w : TxWorld) : TxWorld :=
  let w := match fees_then_tips with
           | _fees :: tips :: _ => note_fees (ni_amount tips) w
           | _ => w
           end in
  set_tw_ledger (foldr drop_negative (tw_ledger w) fees_then_tips) w.

#[export] Instance runtime_fee_env : FeeEnv TxWorld := {|
  fee_withdraw who v reasons req := on_tw_ledger (ac_withdraw spending_asset_id who v reasons req);
  fee_deposit_into_existing who v := on_tw_ledger (ac_deposit_into_existing spending_asset_id who v);
  fee_drop_positive p w := set_tw_ledger (drop_positive p (tw_ledger w)) w;
  fee_drop_negative i w := set_tw_ledger (drop_negative i (tw_ledger w)) w;
  fee_on_unbalanceds := deal_with_fees;
  fee_buy_fee_asset who amount exchange := on_exchange (buy_fee_asset who amount exchange);
  normal_block_weight := tw_block_weight;
|}.

(** ** Amounts in flight *)
Implicit Types g : GenericAsset.State.

(** The accounts hold [x] less of asset [a] than is issued. *)
Record in_flight (a : AssetId) (x : Balance) g : Prop := {
  if_ok : balances_ok g;
  if_nonneg : 0 <= x;
  if_held : forall b, held b g + (if a =? b then x else 0) = total_issuance b g;
  if_max : forall b, total_issuance b g <= MAX_BALANCE;
  if_fresh : forall b, NextAssetId g <= b -> TotalIssuance g !! b = None;
  if_perms : forall b, NextAssetId g <= b -> Permissions g !! b = None;
}.

Lemma in_flight_zero a g : in_flight a 0 g <-> inv g.
Proof.
  split.
  - intros [H1 _ H2 H3 H4 H5]. split; try done. intros b. rewrite <- H2. case_match; lia.
  - intros [H1 H2 H3 H4 H5]. split; try done. intros b. rewrite <- H2. case_match; lia.
Qed.

Lemma in_flight_free a x g who : in_flight a x g -> free_balance a who g + x <= MAX_BALANCE.
Proof.
  intros Hg. pose proof (free_le_held a who g (if_ok _ _ _ Hg)). pose proof (if_held _ _ _ Hg a) as Hh. rewrite Z.eqb_refl in Hh.
  pose proof (if_max _ _ _ Hg a). lia.
Qed.

(** A balance written from or to what is in flight. *)
Lemma in_flight_set_free a x y who v g : in_flight a x g -> 0 <= v -> 0 <= y -> v + y = free_balance a who g + x ->
  in_flight a y (set_free_balance a who v g).
Proof.
  intros [H1 H2 H3 H4 H5 H6] Hv Hy Heq. split; try done.
  - by apply balances_ok_set_free.
  - intros b. rewrite held_set_free_balance, total_issuance_set_free_balance, <- H3. destruct (a =? b) eqn:E; lia.
Qed.

Lemma in_flight_drop a x v g : in_flight a x g -> 0 <= v <= x -> a < NextAssetId g ->
  in_flight a (x - v) (drop_negative (NegativeImbalance_new v a) g).
Proof.
  intros [H1 H2 H3 H4 H5 H6] Hv Ha. unfold drop_negative. simpl.
  assert (Hti : x <= total_issuance a g).
  { rewrite <- (H3 a), Z.eqb_refl. unfold held. pose proof (asset_free_nonneg a g H1). pose proof (asset_reserved_nonneg a g H1). lia. }
  split; [by apply balances_ok_set_TotalIssuance | lia | | | | done].
  - intros b. rewrite held_set_TotalIssuance, total_issuance_insert. pose proof (H3 b). destruct (Z.eqb_spec a b) as [->|].
    + rewrite decide_True by done. unfold saturating_sub. lia.
    + rewrite decide_False by done. lia.
  - intros b. rewrite total_issuance_insert. case_decide; [|done]. pose proof (H4 a). unfold saturating_sub. lia.
  - intros b Hb. simpl in Hb |- *. rewrite lookup_insert_ne by lia. by apply H5.
Qed.

(** ** The currency *)
Lemma withdraw_run who v reasons req g i g' : let a := spending_asset_id g in
  minimum_balance a g <= free_balance a who g - v -> ac_withdraw spending_asset_id who v reasons req g = (Ok i, g') ->
  v <= free_balance a who g /\ i = NegativeImbalance_new v a /\ g' = set_free_balance a who (free_balance a who g - v) g.
Proof.
  intros a Hmin. unfold ac_withdraw, bind, gets, ok_or, modify, ret, fail. fold a.
  destruct (checked_sub _ v) as [nb|] eqn:Hsub; [|done]. bool_to_prop. rewrite ensure_can_withdraw_eq.
  destruct (locks_allow _ _ _ _ _ _); [|done]. simpl. rewrite (proj2 (Z.ltb_ge _ _)) by done. intros [= <- <-].
  split_and!; [lia | done | done].
Qed.

Lemma refund_run a x who v g : in_flight a x g -> spending_asset_id g = a -> is_Some (FreeBalance g !! (a, who)) -> 0 <= v <= x ->
  ac_deposit_into_existing spending_asset_id who v g =
    (Ok (PositiveImbalance_new v a), set_free_balance a who (free_balance a who g + v) g).
Proof.
  intros Hg Ha He Hv. pose proof (in_flight_free a x g who Hg) as Hmax. pose proof (free_balance_nonneg a who g (if_ok _ _ _ Hg)).
  unfold ac_deposit_into_existing. rewrite run_gets, Ha, run_gets, bool_decide_eq_true_2 by done.
  unfold state, ac_deposit_creating, ac_make_free_balance_be. rewrite Ha. unfold wrapping_add.
  rewrite wrap_small by (unfold in_range, MAX_BALANCE in *; lia). rewrite (proj2 (Z.leb_le _ _)) by lia.
  do 3 f_equal. lia.
Qed.
End Runtime.

(** ** A transaction from start to end *)
Section Charge.
Context `{GaConfig} `{Hashing} {rewards_config : RewardsConfig} {fee_config : FeeConfig} {fixed : FixedU128Ops}
  {config_laws : FeeConfigLaws} {fixed_law : FixedU128Laws}.
Implicit Types s : State TxWorld.
Abbreviation L s := (tw_ledger (tp_world s)).

Lemma pre_dispatch_run t who info len s s1 pre : inv (L s) ->
  let a := spending_asset_id (L s) in
  let fee := compute_fee (NextFeeMultiplier s) (wrap 32 len) info t in
  0 < fee -> minimum_balance a (L s) <= free_balance a who (L s) - fee ->
  pre_dispatch (mkCharge t None) who info len s = (Ok pre, s1) ->
  pre = (t, who, Some (NegativeImbalance_new fee a)) /\ NextFeeMultiplier s1 = NextFeeMultiplier s /\
  fee <= free_balance a who (L s) /\ L s1 = set_free_balance a who (free_balance a who (L s) - fee) (L s).
Proof.
  intros Hinv a fee Hfee Hmin. unfold pre_dispatch, withdraw_fee, adapter_withdraw_fee, bind, gets, ret, on_tp_world. simpl.
  fold fee. rewrite (proj2 (Z.eqb_neq fee 0)) by lia. unfold on_tw_ledger, on_exchange, Cennzx.on_ledger. simpl. fold (L s).
  set (reason := if t =? 0 then _ else _). destruct (ac_withdraw _ _ _ _ _ _) as [[i|e|] g'] eqn:Hw; [|done..]. intros [= <- <-].
  destruct (withdraw_run who fee reason KeepAlive (L s) i g' Hmin Hw) as (Hv & -> & ->). done.
Qed.

(** The refund, and what is left of the imbalance. *)
Lemma post_run a fee actual t who s : in_flight a fee (L s) -> spending_asset_id (L s) = a -> a < NextAssetId (L s) ->
  is_Some (FreeBalance (L s) !! (a, who)) -> 0 <= t <= actual -> actual <= fee ->
  exists s3, correct_and_deposit_fee who actual t (Some (NegativeImbalance_new fee a)) s = (Ok tt, s3) /\ inv (L s3) /\
    (forall b w, free_balance b w (L s3) = free_balance b w (L s) + if bool_decide ((b, w) = (a, who)) then fee - actual else 0) /\
    (forall b, total_issuance b (L s3) = total_issuance b (L s) - if a =? b then actual else 0) /\
    TransactionFeePot (tw_rewards (tp_world s3)) = saturating_add BALANCE_BITS (TransactionFeePot (tw_rewards (tp_world s))) t.
Proof.
  intros Hf Ha Hn He Ht Hact. unfold correct_and_deposit_fee. simpl ni_amount.
  replace (saturating_sub fee actual) with (fee - actual) by (unfold saturating_sub; lia).
  unfold bind at 1, refund. simpl. unfold on_tw_ledger, on_exchange, Cennzx.on_ledger. fold (L s).
  change (Cennzx.ledger (tw_exchange (tp_world s))) with (L s).
  rewrite (refund_run a fee who (fee - actual) (L s) Hf Ha He) by lia. unfold ni_offset. simpl.
  rewrite (proj2 (Z.leb_le _ _)) by lia. unfold ni_split. simpl. replace (fee - (fee - actual)) with actual by lia.
  rewrite (Z.min_r actual t) by lia. eexists. split; [done|]. simpl. unfold tw_ledger. simpl. fold (L s).
  set (g1 := set_free_balance a who _ (L s)).
  change (tw_ledger (note_fees t (set_tw_exchange (Cennzx.set_ledger g1 (tw_exchange (tp_world s))) (tp_world s)))) with g1.
  pose proof (free_balance_nonneg a who (L s) (if_ok _ _ _ Hf)).
  assert (Hg1 : in_flight a actual g1) by (apply (in_flight_set_free a fee); [done | lia..]).
  pose proof (in_flight_drop a actual t g1 Hg1 ltac:(lia) Hn) as Hg2.
  pose proof (in_flight_drop a (actual - t) (actual - t) _ Hg2 ltac:(lia) Hn) as Hg3. rewrite Z.sub_diag in Hg3.
  split_and!; [by apply (in_flight_zero a) | | | done].
  - intros b w. transitivity (free_balance b w g1); [done|]. unfold g1. rewrite free_balance_set_free_balance.
    case_bool_decide as E; case_decide; simplify_eq; try lia; naive_solver.
  - intros b. pose proof (if_held _ _ _ Hg3 b) as Hh3. pose proof (if_held _ _ _ Hg1 b) as Hh1.
    assert (Hti : total_issuance b g1 = total_issuance b (L s)) by apply total_issuance_set_free_balance.
    assert (Hheld : held b (drop_negative (NegativeImbalance_new (actual - t) a) (drop_negative (NegativeImbalance_new t a) g1)) = held b g1) by done.
    rewrite Hheld in Hh3. destruct (a =? b); lia.
Qed.

(** The refund of a payer whose account is gone fails, and the whole fee is kept. *)
Lemma post_run_reaped a fee actual t who s : in_flight a fee (L s) -> spending_asset_id (L s) = a -> a < NextAssetId (L s) ->
  FreeBalance (L s) !! (a, who) = None -> 0 <= t <= fee -> actual <= fee ->
  exists s3, correct_and_deposit_fee who actual t (Some (NegativeImbalance_new fee a)) s = (Ok tt, s3) /\ inv (L s3) /\
    (forall b w, free_balance b w (L s3) = free_balance b w (L s)) /\
    (forall b, total_issuance b (L s3) = total_issuance b (L s) - if a =? b then fee else 0) /\
    TransactionFeePot (tw_rewards (tp_world s3)) = saturating_add BALANCE_BITS (TransactionFeePot (tw_rewards (tp_world s))) t.
Proof.
  intros Hf Ha Hn He Ht Hact. unfold correct_and_deposit_fee. simpl ni_amount.
  unfold bind at 1, refund. simpl. unfold on_tw_ledger, on_exchange, Cennzx.on_ledger. fold (L s).
  change (Cennzx.ledger (tw_exchange (tp_world s))) with (L s).
  unfold ac_deposit_into_existing. rewrite run_gets, Ha, run_gets, He, bool_decide_eq_false_2 by (by intros [? ?]).
  unfold fail, ni_offset. simpl. rewrite (proj2 (Z.leb_le 0 fee)) by lia. unfold ni_split. simpl. rewrite Z.sub_0_r, (Z.min_r fee t) by lia.
  eexists. split; [done|]. simpl. unfold tw_ledger. simpl. fold (L s).
  change (tw_ledger (note_fees t (set_tw_exchange (Cennzx.set_ledger (L s) (tw_exchange (tp_world s))) (tp_world s)))) with (L s).
  pose proof (in_flight_drop a fee t (L s) Hf ltac:(lia) Hn) as Hg2.
  pose proof (in_flight_drop a (fee - t) (fee - t) _ Hg2 ltac:(lia) Hn) as Hg3. rewrite Z.sub_diag in Hg3.
  split_and!; [by apply (in_flight_zero a) | done | | done].
  intros b. pose proof (if_held _ _ _ Hg3 b) as Hh3. pose proof (if_held _ _ _ Hf b) as Hh1.
  assert (Hheld : held b (drop_negative (NegativeImbalance_new (fee - t) a) (drop_negative (NegativeImbalance_new t a) (L s))) = held b (L s)) by done.
  rewrite Hheld in Hh3. destruct (a =? b); lia.
Qed.

(** What of the fee is kept: the actual fee, or all of it when the payer's
    account is no longer there to be refunded. *)
Definition fee_kept a who (fee actual : Balance) s : Balance :=
  if bool_decide (is_Some (FreeBalance (L s) !! (a, who))) then actual else fee.

(** C9: a transaction that pays its fee in the fee currency itself and leaves its
    payer the existential deposit has the fee taken from the payer alone.
    Whatever books the dispatched call then leaves, as long as they are balanced
    up to the fee that is in flight, the payer whose account is still there gets
    back what exceeds the actual fee, a payer whose account was reaped gets
    nothing back; no other account changes, exactly what is kept leaves the
    issuance, the ledger is solvent again, and the tip is noted for the rewards. *)
Theorem fee_charged_exactly t who info post len s s1 pre : inv (L s) -> in_range FIXED_BITS (NextFeeMultiplier s) ->
  in_range BALANCE_BITS t -> 0 <= di_weight info -> 0 <= default 0 (pi_actual_weight post) ->
  let a := spending_asset_id (L s) in
  let fee := compute_fee (NextFeeMultiplier s) (wrap 32 len) info t in
  let actual := compute_actual_fee (NextFeeMultiplier s) (wrap 32 len) info post t in
  a < NextAssetId (L s) -> 0 < fee -> minimum_balance a (L s) <= free_balance a who (L s) - fee ->
  pre_dispatch (mkCharge t None) who info len s = (Ok pre, s1) ->
  t <= actual <= fee /\ in_flight a fee (L s1) /\
  (forall b w, free_balance b w (L s1) = free_balance b w (L s) - if bool_decide ((b, w) = (a, who)) then fee else 0) /\
  forall s2, NextFeeMultiplier s2 = NextFeeMultiplier s -> spending_asset_id (L s2) = a -> in_flight a fee (L s2) ->
    a < NextAssetId (L s2) ->
    exists s3, post_dispatch pre info post len s2 = (Ok tt, s3) /\ inv (L s3) /\
      (forall b w, free_balance b w (L s3) =
         free_balance b w (L s2) + if bool_decide ((b, w) = (a, who)) then fee - fee_kept a who fee actual s2 else 0) /\
      (forall b, total_issuance b (L s3) = total_issuance b (L s2) - if a =? b then fee_kept a who fee actual s2 else 0) /\
      TransactionFeePot (tw_rewards (tp_world s3)) = saturating_add BALANCE_BITS (TransactionFeePot (tw_rewards (tp_world s2))) t.
Proof.
  intros Hinv Hm Ht Hw Hpw a fee actual Ha Hfee Hmin Hpre.
  assert (Hlen : 0 <= wrap 32 len) by (by apply (wrap_range 32)).
  destruct (actual_fee_range (NextFeeMultiplier s) (wrap 32 len) info post t Hm Hlen Hw Hpw Ht) as [Ht1 Hact]. fold fee actual in Ht1, Hact.
  destruct (pre_dispatch_run t who info len s s1 pre Hinv ltac:(fold fee; lia) Hmin Hpre) as (-> & Hmul & Hv & HL1). fold fee a in HL1, Hv. fold fee.
  split_and!.
  - done.
  - done.
  - rewrite HL1. apply (in_flight_set_free a 0); [by apply in_flight_zero | lia | lia | lia].
  - intros b w. rewrite HL1, free_balance_set_free_balance. case_bool_decide as E; case_decide; simplify_eq; try lia; naive_solver.
  - intros s2 Hm2 Ha2 Hf2 Hn2. destruct Ht as [Ht Ht'].
    unfold post_dispatch, fee_kept. rewrite run_gets, Hm2. fold actual. case_bool_decide as He.
    + apply post_run; try done; lia.
    + destruct (post_run_reaped a fee actual t who s2) as (s3 & H1 & H2 & H3 & H4 & H5); try done; [by apply eq_None_not_Some | lia |].
      exists s3. split_and!; [done..| | done | done]. intros b w. rewrite H3. by case_match; lia.
Qed.
End Charge.
