(* ===== verification/EvmRuntime.v ===== *)
(** * The EVM side of the runtime

    [src/runtime/src]: the routing of precompile addresses and the addresses of
    assets and series ([precompiles.rs]), the spending currency scaled to 18
    decimals and the priority fee of block authors ([impls.rs]), and the runner
    that buys the gas of a call in the asset its caller prefers ([runner.rs]).
    An [H160] is a list of 20 bytes. *)

From S2P Require Import Prelude Support GenericAssetTypes GenericAsset GenericAssetProps GenericAssetInv MultiCurrency AddressMapping EthAbi Cennzx CennzxPricing CennzxTheorems StakingTypes StakingState StakingRewards.

(** ** Precompiles *)

(** [H160::from_low_u64_be] *)
Definition hash160 (a : Z) : bytes := replicate 12 0 ++ be_bytes 8 a.

Definition FEE_PROXY : Z := 1211.
Definition CENNZX_PRECOMPILE : Z := 37322.
Definition PEG_PRECOMPILE : Z := 1939.
Definition NFT_PRECOMPILE : Z := 1721.
Definition StateOraclePrecompileAddress : bytes := hash160 27572.
Definition ERC20_PRECOMPILE_ADDRESS_PREFIX : bytes := [204; 204; 204; 204].
Definition ERC721_PRECOMPILE_ADDRESS_PREFIX : bytes := [170; 170; 170; 170].

Definition used_addresses : list bytes :=
  hash160 <$> [1; 2; 3; 4; 5; 9; 1024; 1026; CENNZX_PRECOMPILE; FEE_PROXY; PEG_PRECOMPILE; NFT_PRECOMPILE; 27572].

Definition is_precompile (address : bytes) : bool :=
  let routing_prefix := take 4 address in
  bool_decide (address ∈ used_addresses) || bool_decide (routing_prefix = ERC20_PRECOMPILE_ADDRESS_PREFIX) ||
  bool_decide (routing_prefix = ERC721_PRECOMPILE_ADDRESS_PREFIX).

Inductive Precompile :=
| ECRecover | Sha256 | Ripemd160 | Identity | Modexp | Blake2F | Sha3FIPS256 | ECRecoverPublicKey
| StateOracle | Erc20PegPrecompile | NftPrecompile | CennzxPrecompile | Erc721Set | Erc20Set.

Inductive Routed := Delegated | NotRouted | Run (p : Precompile).

(** [execute]: which precompile runs.  [context_address] is the account whose
    storage the call works on; [oracle_active] is [StateOracleIsActive]. *)
Definition route (oracle_active : bool) (address context_address : bytes) : Routed :=
  let routing_prefix := take 4 address in
  if is_precompile address && (be_number (hash160 9) <? be_number address) && negb (bool_decide (address = context_address))
  then Delegated
  else if bool_decide (address = hash160 1) then Run ECRecover
  else if bool_decide (address = hash160 2) then Run Sha256
  else if bool_decide (address = hash160 3) then Run Ripemd160
  else if bool_decide (address = hash160 4) then Run Identity
  else if bool_decide (address = hash160 5) then Run Modexp
  else if bool_decide (address = hash160 9) then Run Blake2F
  else if bool_decide (address = hash160 1024) then Run Sha3FIPS256
  else if bool_decide (address = hash160 1026) then Run ECRecoverPublicKey
  else if bool_decide (address = hash160 FEE_PROXY) then NotRouted
  else if bool_decide (address = StateOraclePrecompileAddress) && oracle_active then Run StateOracle
  else if bool_decide (address = hash160 PEG_PRECOMPILE) then Run Erc20PegPrecompile
  else if bool_decide (address = hash160 NFT_PRECOMPILE) then Run NftPrecompile
  else if bool_decide (address = hash160 CENNZX_PRECOMPILE) then Run CennzxPrecompile
  else if bool_decide (routing_prefix = ERC721_PRECOMPILE_ADDRESS_PREFIX) then Run Erc721Set
  else if bool_decide (routing_prefix = ERC20_PRECOMPILE_ADDRESS_PREFIX) then Run Erc20Set
  else NotRouted.

(** [Erc20IdConversion] and [Erc721IdConversion] *)
Definition erc20_evm_id_to_runtime_id (evm_id : bytes) : option AssetId :=
  let '(prefix_part, id_part) := (take 4 evm_id, drop 4 evm_id) in
  if bool_decide (prefix_part = ERC20_PRECOMPILE_ADDRESS_PREFIX) then Some (be_number (slice 0 4 id_part)) else None.

Definition erc20_runtime_id_to_evm_id (asset_id : AssetId) : bytes :=
  let buf := replicate 20 0 in
  let buf := copy_slice 0 ERC20_PRECOMPILE_ADDRESS_PREFIX buf in
  copy_slice 4 (be_bytes 4 asset_id) buf.

Definition erc721_evm_id_to_runtime_id (evm_id : bytes) : option (Z * Z) :=
  let '(prefix_part, id_part) := (take 4 evm_id, drop 4 evm_id) in
  if bool_decide (prefix_part = ERC721_PRECOMPILE_ADDRESS_PREFIX)
  then Some (be_number (slice 0 4 id_part), be_number (slice 4 8 id_part)) else None.

Definition erc721_runtime_id_to_evm_id (series_id_parts : Z * Z) : bytes :=
  let buf := replicate 20 0 in
  let buf := copy_slice 0 ERC721_PRECOMPILE_ADDRESS_PREFIX buf in
  let buf := copy_slice 4 (be_bytes 4 (fst series_id_parts)) buf in
  copy_slice 8 (be_bytes 4 (snd series_id_parts)) buf.

(** ** The currency of the EVM *)
Section Scaler.
Context `{GaConfig}.
Implicit Types g : GenericAsset.State.

(** [Inspect::reducible_balance] of the spending asset *)
Definition reducible_balance (who : AccountId) g : Balance := free_balance (spending_asset_id g) who g.

Definition evm_reducible_balance (who : AccountId) g : Balance := saturate BALANCE_BITS (reducible_balance who g * CPAY_UNIT_VALUE).
Definition evm_balance (who : AccountId) g : Balance := evm_reducible_balance who g.

Definition evm_transfer (from to : AccountId) (value : Balance) (req : ExistenceRequirement) : D GenericAsset.State unit :=
  ac_transfer spending_asset_id from to (scale_wei_to_4dp value) req.
Definition evm_withdraw (who : AccountId) (value : Balance) (reasons : Z) (req : ExistenceRequirement)
    : D GenericAsset.State NegativeImbalance :=
  ac_withdraw spending_asset_id who (scale_wei_to_4dp value) reasons req.
Definition evm_deposit_into_existing (who : AccountId) (value : Balance) : D GenericAsset.State PositiveImbalance :=
  ac_deposit_into_existing spending_asset_id who (scale_wei_to_4dp value).
Definition evm_deposit_creating (who : AccountId) (value : Balance) g : PositiveImbalance * GenericAsset.State :=
  ac_deposit_creating spending_asset_id who (scale_wei_to_4dp value) g.
Definition evm_make_free_balance_be (who : AccountId) (balance : Balance) g :=
  ac_make_free_balance_be spending_asset_id who (scale_wei_to_4dp balance) g.

(** [pay_priority_fee]: the tip goes to the payee of the author's stash.  The
    imbalance of the deposit is dropped.  [author_index] is what BABE finds in
    the digest. *)
Definition pay_priority_fee (author_index : option Z) (validators : list AccountId) (r : RewardStore) (tip : Z) g
    : GenericAsset.State :=
  match author_index with
  | Some i =>
      match validators !! Z.to_nat i with
      | Some stash =>
          match evm_deposit_into_existing (payee stash r) (tip mod 2 ^ 128) g with
          | (Ok p, g') => drop_positive p g'
          | (_, g') => g'
          end
      | None => g
      end
  | None => g
  end.
End Scaler.

(** ** The runner with fee preferences *)
Inductive FeePreferencesError :=
| InvalidFunctionSelector | WithdrawFailed | GasPriceTooLow | FeeOverflow | InvalidInputArguments | FailedToDecodeInput
| InvalidPaymentAsset.

Inductive EvmError := Evm_WithdrawFailed | Evm_GasPriceTooLow | Evm_FeeOverflow | Evm_Other (code : Z).

Definition into_evm_error (e : FeePreferencesError) : EvmError :=
  match e with
  | WithdrawFailed => Evm_WithdrawFailed
  | GasPriceTooLow => Evm_GasPriceTooLow
  | FeeOverflow => Evm_FeeOverflow
  | _ => Evm_WithdrawFailed
  end.

Definition FEE_FUNCTION_SELECTOR : bytes := [37; 90; 52; 50].

(** [ethabi::decode] for [(address, uint128, address, bytes)], the gas price of
    the fee calculator, and the inner runner of [pallet_evm]. *)
Class EvmEnv (W CallInfo : Type) := {
  abi_decode_preferences : bytes -> option (bytes * Z * bytes * bytes);
  min_gas_price : Z;
  inner_call : forall (source target input : bytes) (value gas_limit : Z) (max_fee max_priority : option Z), M EvmError W CallInfo;
}.

Section Runner.
Context {L : Type} `{MultiCurrency L} `{Hashing} {CallInfo : Type} {evm : EvmEnv (Cennzx.State L) CallInfo}.

Definition decode_input (input : bytes) : outcome FeePreferencesError (AssetId * Balance * bytes * bytes) :=
  if Nat.ltb (length input) 4 then Err InvalidInputArguments
  else if negb (bool_decide (take 4 input = FEE_FUNCTION_SELECTOR)) then Err InvalidFunctionSelector
  else
    match abi_decode_preferences (drop 4 input) with
    | None => Err FailedToDecodeInput
    | Some (payment_asset_address, max_payment, new_target, new_input) =>
        match erc20_evm_id_to_runtime_id payment_asset_address with
        | Some payment_asset => Ok (payment_asset, saturate BALANCE_BITS max_payment, new_target, new_input)
        | None => Err InvalidPaymentAsset
        end
    end.

Definition calculate_total_gas (gas_limit : Z) (max_fee_per_gas max_priority_fee_per_gas : option Z)
    : outcome FeePreferencesError Balance :=
  let base_fee := min_gas_price in
  let? max_fee_per_gas :=
    match max_fee_per_gas with
    | Some max_fee_per_gas => if base_fee <=? max_fee_per_gas then Ok max_fee_per_gas else Err GasPriceTooLow
    | None => Ok 0
    end in
  let? max_base_fee := some_or (checked_mul 256 max_fee_per_gas gas_limit) FeeOverflow in
  let? max_priority_fee :=
    match max_priority_fee_per_gas with
    | Some max_priority_fee => some_or (checked_mul 256 max_priority_fee gas_limit) FeeOverflow
    | None => Ok 0
    end in
  let? total_fee := some_or (checked_add 256 max_base_fee max_priority_fee) FeeOverflow in
  Ok (saturate BALANCE_BITS total_fee).

Definition runner_call (source target input : bytes) (value gas_limit : Z) (max_fee_per_gas max_priority_fee_per_gas : option Z)
    : M EvmError (Cennzx.State L) CallInfo :=
  if bool_decide (target = hash160 FEE_PROXY) then
    match decode_input input with
    | Ok (payment_asset, max_payment, new_target, new_input) =>
        match calculate_total_gas gas_limit max_fee_per_gas max_priority_fee_per_gas with
        | Ok total_fee =>
            let total_fee_scaled := scale_wei_to_4dp total_fee in
            let exchange_opts := FeeExchange_new_v1 payment_asset max_payment in
            let account := account_number (into_account_id source) in
            fun s =>
              match buy_fee_asset account total_fee_scaled exchange_opts s with
              | (Ok _, s') => inner_call source new_target new_input value gas_limit max_fee_per_gas max_priority_fee_per_gas s'
              | (Err _, s') => (Err Evm_WithdrawFailed, s')
              | (Panic, s') => (Panic, s')
              end
        | Err e => fail (into_evm_error e)
        | Panic => panic
        end
    | Err _ => fail Evm_WithdrawFailed
    | Panic => panic
    end
  else inner_call source target input value gas_limit max_fee_per_gas max_priority_fee_per_gas.
End Runner.

(** * The EVM side of the runtime: properties

    Assets and series have addresses of their own, which lead back to them and
    to their precompile and cannot be called on behalf of another account; what
    the EVM shows as a balance can be spent, and is all that is spent; gas bought
    through the fee proxy covers the gas. *)


(** ** Addresses *)
Lemma be_number_fold acc l : foldl (fun acc b => acc * 256 + b) acc l = acc * 256 ^ Z.of_nat (length l) + be_number l.
Proof.
  unfold be_number. revert acc. induction l as [|b l IH]; intros acc; [simpl; lia|]. cbn [foldl length].
  rewrite IH, (IH (0 * 256 + b)), Nat2Z.inj_succ, Z.pow_succ_r by lia. lia.
Qed.

Lemma be_number_cons b l : be_number (b :: l) = b * 256 ^ Z.of_nat (length l) + be_number l.
Proof. unfold be_number at 1. simpl. apply be_number_fold. Qed.

Lemma not_low_address b l n : b <> 0 -> b :: l <> hash160 n.
Proof. intros Hb. unfold hash160. simpl. congruence. Qed.

Lemma not_used_address b l : b <> 0 -> b :: l ∉ used_addresses.
Proof. intros Hb Hin. unfold used_addresses in Hin. apply list_elem_of_fmap in Hin as (n & Hn & _). by apply (not_low_address b l n). Qed.

(** How an address with a routing prefix is routed. *)
Lemma route_prefixed active b l ctx p : b = 204 /\ p = Erc20Set \/ b = 170 /\ p = Erc721Set -> length l = 16%nat -> Forall is_byte l ->
  let a := [b; b; b; b] ++ l in
  route active a ctx = if bool_decide (a = ctx) then Run p else Delegated.
Proof.
  intros Hb Hlen Hl a. assert (Hnz : b <> 0) by lia.
  assert (Hpre : is_precompile a = true).
  { unfold is_precompile. apply orb_true_iff. destruct Hb as [[-> _]|[-> _]]; [left; apply orb_true_iff; right | right]; by apply bool_decide_eq_true. }
  assert (Hbig : (be_number (hash160 9) <? be_number a) = true).
  { apply Z.ltb_lt. pose proof (be_number_bounds ([b; b; b] ++ l)) as Hbd. unfold a. change ([b; b; b; b] ++ l) with (b :: ([b; b; b] ++ l)).
    rewrite be_number_cons, length_app, Hlen. change (be_number (hash160 9)) with 9.
    assert (0 <= be_number ([b; b; b] ++ l)).
    { apply Hbd. apply Forall_app. split; [|done]. unfold is_byte. repeat constructor; lia. }
    change (256 ^ Z.of_nat (length [b; b; b] + 16)) with (256 ^ 19). assert (1 <= b) by lia. assert (9 < 256 ^ 19) by done. nia. }
  unfold route. rewrite Hpre, Hbig. simpl andb. case_bool_decide as Hctx; simpl; [|done].
  repeat (rewrite bool_decide_eq_false_2 by (by apply not_low_address)). simpl.
  destruct Hb as [[-> ->]|[-> ->]]; [rewrite bool_decide_eq_false_2 by done|]; by rewrite bool_decide_eq_true_2.
Qed.

Lemma erc20_address_eq id : erc20_runtime_id_to_evm_id id = [204; 204; 204; 204] ++ be_bytes 4 id ++ replicate 12 0.
Proof. reflexivity. Qed.

Lemma erc721_address_eq c i : erc721_runtime_id_to_evm_id (c, i) = [170; 170; 170; 170] ++ be_bytes 4 c ++ be_bytes 4 i ++ replicate 8 0.
Proof. reflexivity. Qed.

Lemma word_back z : in_range 32 z -> be_number (be_bytes 4 z) = z.
Proof. intros [H1 H2]. apply be_number_be_bytes. change (256 ^ Z.of_nat 4) with (umax 32 + 1). lia. Qed.

(** The address of an asset leads back to the asset and that of a series to
    the series; both are 20 bytes that only their own precompile serves, called
    directly, while delegated calls are rejected. *)
Theorem token_address_roundtrip active id c i : in_range 32 id -> in_range 32 c -> in_range 32 i ->
  let a := erc20_runtime_id_to_evm_id id in
  let b := erc721_runtime_id_to_evm_id (c, i) in
  length a = 20%nat /\ erc20_evm_id_to_runtime_id a = Some id /\ erc721_evm_id_to_runtime_id a = None /\
  (forall ctx, route active a ctx = if bool_decide (a = ctx) then Run Erc20Set else Delegated) /\
  length b = 20%nat /\ erc721_evm_id_to_runtime_id b = Some (c, i) /\ erc20_evm_id_to_runtime_id b = None /\
  (forall ctx, route active b ctx = if bool_decide (b = ctx) then Run Erc721Set else Delegated).
Proof.
  intros Hid Hc Hi a b. unfold a, b. rewrite erc20_address_eq, erc721_address_eq.
  assert (Hz : forall n, Forall is_byte (replicate n 0)) by (intros n; apply Forall_replicate; by split).
  split_and!.
  - reflexivity.
  - change (Some (be_number (be_bytes 4 id)) = Some id). by rewrite word_back.
  - reflexivity.
  - intros ctx. apply route_prefixed; [by left | reflexivity|]. apply Forall_app. split; [apply be_bytes_are_bytes | done].
  - reflexivity.
  - change (Some (be_number (be_bytes 4 c), be_number (be_bytes 4 i)) = Some (c, i)). by rewrite !word_back.
  - reflexivity.
  - intros ctx. apply route_prefixed; [by right | reflexivity|]. do 2 (apply Forall_app; split; [apply be_bytes_are_bytes|]). apply Hz.
Qed.

(** ** Balances *)
Section Balances.
Context `{GaConfig}.

Lemma scale_wei_multiple x : 0 <= x -> scale_wei_to_4dp (x * CPAY_UNIT_VALUE) = x.
Proof.
  intros Hx. unfold scale_wei_to_4dp. cbv zeta. by rewrite Z.mod_mul, Z.div_mul.
Qed.

(** The EVM shows a balance in wei whose transfer moves exactly the whole
    free balance; when 18 decimals exceed the type, it shows the largest value,
    which moves no more than the account has. *)
Theorem evm_balance_spendable who g : balances_ok g -> let free := free_balance (spending_asset_id g) who g in
  (free * CPAY_UNIT_VALUE <= umax BALANCE_BITS -> scale_wei_to_4dp (evm_balance who g) = free) /\
  (umax BALANCE_BITS < free * CPAY_UNIT_VALUE -> evm_balance who g = umax BALANCE_BITS /\ scale_wei_to_4dp (evm_balance who g) <= free).
Proof.
  intros Hg free. pose proof (free_balance_nonneg (spending_asset_id g) who g Hg) as Hf. fold free in Hf.
  unfold evm_balance, evm_reducible_balance, reducible_balance, saturate. fold free. split; intros Hle.
  - rewrite Z.min_l by done. by apply scale_wei_multiple.
  - rewrite Z.min_r by lia. split; [done|]. change (scale_wei_to_4dp (umax BALANCE_BITS)) with (umax BALANCE_BITS / CPAY_UNIT_VALUE + 1).
    assert (umax BALANCE_BITS / CPAY_UNIT_VALUE < free); [|lia]. apply Z.div_lt_upper_bound; [done | lia].
Qed.
End Balances.

(** ** The fee proxy *)
Section Proxy.
Context {L : Type} {cur : MultiCurrency L} {laws : MultiCurrencyLaws L} `{Hashing} {CallInfo : Type} {evm : EvmEnv (Cennzx.State L) CallInfo}.
Implicit Types s : Cennzx.State L.

Lemma total_gas_Ok gas_limit max_fee max_priority total : 0 <= gas_limit -> 0 <= min_gas_price -> 0 <= default 0 max_priority ->
  calculate_total_gas gas_limit max_fee max_priority = Ok total ->
  total = saturate BALANCE_BITS (default 0 max_fee * gas_limit + default 0 max_priority * gas_limit) /\
  (forall f, max_fee = Some f -> min_gas_price <= f) /\ 0 <= default 0 max_fee.
Proof.
  intros Hg Hm Hp. unfold calculate_total_gas, obind, some_or, checked_mul, checked_add. intros Ht.
  destruct max_fee as [f|]; [destruct (Z.leb_spec min_gas_price f) as [Hle|]; [|done]|]; destruct max_priority as [p|]; simpl in *;
    repeat (case_match; simplify_eq/=); idtac.
  4: { vm_compute in Ht. injection Ht as <-. split_and!; [reflexivity | done | done]. }
  all: split_and!; [f_equal; lia | intros; by simplify_eq | lia].
Qed.

(** Why a call through the proxy is refused before the inner call. *)
Definition proxy_refused (payer : AccountId) (input : bytes) gas_limit max_fee max_priority (amount : Balance) s (e : EvmError) : Prop :=
  (e = Evm_WithdrawFailed /\ exists e', decode_input input = Err e') \/
  (exists e', calculate_total_gas gas_limit max_fee max_priority = Err e' /\ e = into_evm_error e') \/
  (e = Evm_WithdrawFailed /\ exists asset max_payment target' input' e',
     decode_input input = Ok (asset, max_payment, target', input') /\
     fst (execute_buy payer payer asset (cur_fee_currency (Cennzx.ledger s)) amount max_payment s) = Err e').

Lemma scale_wei_low z : 0 <= z -> in_range LOW (scale_wei_to_4dp (saturate BALANCE_BITS z)).
Proof.
  intros Hz. assert (Hr : in_range BALANCE_BITS (saturate BALANCE_BITS z)).
  { unfold in_range, saturate. assert (0 <= umax BALANCE_BITS) by done. lia. }
  pose proof (scale_wei_rounds_up (saturate BALANCE_BITS z) Hr) as Hs. unfold in_range in *.
  assert (umax BALANCE_BITS = 2 ^ 128 - 1) by done. assert (umax LOW = 2 ^ 128 - 1) by done.
  assert (CPAY_UNIT_VALUE = 10 ^ 14) by done. lia.
Qed.

Lemma total_gas_no_panic gas_limit max_fee max_priority : calculate_total_gas gas_limit max_fee max_priority <> Panic.
Proof. unfold calculate_total_gas, obind, some_or. by repeat case_match. Qed.

Lemma decode_input_no_panic input : decode_input input <> Panic.
Proof. unfold decode_input. by repeat case_match. Qed.

(** C37: a call through the fee proxy, on an exchange whose core asset is the fee
    currency, either is refused with nothing changed, because its input does not
    decode, its gas price is too low or overflows, or the purchase fails; or it
    has bought fee currency for the payer from the preferred asset: the payer
    gave at most the stated payment, received exactly the scaled price of all
    the gas the call may use, which covers that price to the wei when it fits
    128 bits, and the inner call then ran from that state with the decoded
    target and input. *)
Theorem fee_proxy_covers_gas source input value gas_limit max_fee max_priority s r s' :
  let payer := account_number (into_account_id source) in
  let fee := cur_fee_currency (Cennzx.ledger s) in
  let gas := default 0 max_fee * gas_limit + default 0 max_priority * gas_limit in
  let amount := scale_wei_to_4dp (saturate BALANCE_BITS gas) in
  0 <= gas_limit -> 0 <= min_gas_price -> 0 <= default 0 max_priority ->
  cur_ok (Cennzx.ledger s) -> in_range LOW (DefaultFeeRate s) -> CoreAssetId s = fee ->
  payer <> cur_sink ->
  (forall asset m t i, decode_input input = Ok (asset, m, t, i) -> exchange_address_for asset s <> payer) ->
  runner_call source (hash160 FEE_PROXY) input value gas_limit max_fee max_priority s = (r, s') ->
  (s' = s /\ exists e, r = Err e /\ proxy_refused payer input gas_limit max_fee max_priority amount s e) \/
  (exists asset max_payment target' input' p s1,
     decode_input input = Ok (asset, max_payment, target', input') /\
     (forall f, max_fee = Some f -> min_gas_price <= f) /\
     p <= max_payment /\ p <= balance_of payer asset s /\
     balance_of payer fee s1 = balance_of payer fee s + amount /\
     (gas <= umax BALANCE_BITS -> gas <= amount * CPAY_UNIT_VALUE < gas + CPAY_UNIT_VALUE) /\
     trade_settled payer payer asset fee p amount s s1 /\
     s1 = Cennzx.deposit_event (AssetBought asset fee payer p amount) (Cennzx.set_ledger (Cennzx.ledger s1) s) /\
     inner_call source target' input' value gas_limit max_fee max_priority s1 = (r, s')).
Proof.
  intros payer fee gas amount Hg Hm Hp Hok Hfee Hcore Hsink Hpool.
  unfold runner_call. rewrite bool_decide_eq_true_2 by done. fold payer.
  destruct (decode_input input) as [[[[asset max_payment] target'] input']|e|] eqn:Ed;
    [| intros [= <- <-]; left; split; [done|]; eexists; split; [done|]; left; eauto
     | by apply decode_input_no_panic in Ed].
  destruct (calculate_total_gas gas_limit max_fee max_priority) as [total|e|] eqn:Et;
    [| intros [= <- <-]; left; split; [done|]; eexists; split; [done|]; right; left; eauto
     | by apply total_gas_no_panic in Et].
  destruct (total_gas_Ok gas_limit max_fee max_priority total Hg Hm Hp Et) as (-> & Hf & Hf0).
  fold gas. fold amount. assert (Hgas : 0 <= gas) by nia. pose proof (scale_wei_low gas Hgas) as Ha. fold amount in Ha.
  unfold buy_fee_asset, bind, gets. simpl. fold fee. intros Hr.
  pose proof (execute_buy_no_panic payer payer asset fee amount max_payment s Hok Hfee Ha ltac:(right; done)) as Hno.
  destruct (execute_buy payer payer asset fee amount max_payment s) as [[p|e|] s1] eqn:Eb; [| |done].
  - right. destruct (execute_buy_direct payer payer asset fee amount max_payment s p s1) as (H1 & H2 & _ & _ & H5 & H6 & _);
      [done..| by right | done |].
    exists asset, max_payment, target', input', p, s1. split_and!; try done.
    + rewrite (proj1 (proj2 H6)) by done. apply after_transfer_credit; [|done]. unfold direct_pool.
      rewrite (proj2 (Z.eqb_eq fee (CoreAssetId s))) by done. by eapply Hpool.
    + intros Hle. unfold amount, saturate. rewrite Z.min_l by done. by apply scale_wei_rounds_up.
  - left. injection Hr as <- <-. split; [by apply (execute_buy_noop payer payer asset fee amount max_payment s e)|].
    eexists. split; [done|]. right. right. split; [done|]. exists asset, max_payment, target', input', e.
    split; [done|]. fold fee. by rewrite Eb.
Qed.
End Proxy.
