(* ===== verification/FeeWitnesses.v ===== *)
(** * Fees and the EVM: the theorems at work

    A small fee configuration on the ledger of [StakingDemo]: a transaction is
    charged and refunded, multipliers move, addresses are routed. *)

From S2P Require Import Prelude Support GenericAssetTypes GenericAsset GenericAssetProps GenericAssetInv MultiCurrency AddressMapping EthAbi Cennzx CennzxPricing CennzxTheorems StakingTypes StakingState StakingRewards StakingDemo StakingWitnesses TransactionPayment TransactionPaymentRuntime EvmRuntime.
Import StakingDemo.

Module FeeDemo.
#[export] Existing Instance CennzxPricing.DemoHash.hashing.

#[export] Instance fee_config : FeeConfig := {|
  TransactionByteFee := 2;
  weight_polynomial w := saturate BALANCE_BITS (w / 1000);
  base_extrinsic _ := 5000;
  normal_max_total := Some 750000;
  max_block := 1000000;
  normal_max_length := 3840;
  TargetBlockFullness := 250000000000000000;
  AdjustmentVariable := FIXED_ONE / 50000;
  MinimumMultiplier := FIXED_ONE / 500000000;
  perquintill_mul p n := p * n / 10 ^ 18;
  calc_actual_weight p i := match pi_actual_weight p with Some w => Z.min w (di_weight i) | None => di_weight i end;
  post_pays_fee p i := match di_pays_fee i, pi_pays_fee p with PaysYes, PaysYes => PaysYes | _, _ => PaysNo end;
|}.

#[export] Instance fee_config_laws : FeeConfigLaws.
Proof.
  split.
  - split; vm_compute; discriminate.
  - intros w Hw. apply saturated_range, Z.div_pos; lia.
  - intros v w Hvw. unfold weight_polynomial, fee_config, saturate. apply Z.min_le_compat_r, Z.div_le_mono; lia.
  - intros c. simpl. lia.
  - simpl. lia.
  - simpl. lia.
  - intros n Hn. unfold TargetBlockFullness, perquintill_mul, fee_config. split; [apply Z.div_pos; lia|].
    apply Z.div_le_upper_bound; lia.
  - split; vm_compute; discriminate.
  - split; vm_compute; discriminate.
  - intros p i Hi Hp. unfold calc_actual_weight, fee_config. destruct (pi_actual_weight p); simpl in *; lia.
  - intros p i Hi. unfold post_pays_fee, fee_config. by rewrite Hi.
Qed.

Definition exchange0 : Cennzx.State GenericAsset.State := Cennzx.mkState 1 3000 ∅ ∅ ledger0 [].

Definition world : TxWorld := mkTxWorld exchange0 rewards0 [] 500000.

Definition s0 : TransactionPayment.State TxWorld := TransactionPayment.mkState FIXED_ONE V2 world.

(** A transaction of 100 bytes and half a block that turns out to be lighter. *)
Definition info : DispatchInfo := mkDispatchInfo 500000 Normal PaysYes.
Definition post : PostDispatchInfo := mkPostInfo (Some 200000) PaysYes.

Definition s1 : TransactionPayment.State TxWorld := Eval vm_compute in (pre_dispatch (mkCharge 3 None) 10 info 100 s0).2.
End FeeDemo.
Import FeeDemo.

(** The fee of 708 is taken, 300 of it come back. *)
Lemma fee_charged_exactly_witness : exists s3,
  post_dispatch (3, 10, Some (NegativeImbalance_new 708 2)) info post 100 s1 = (Ok tt, s3) /\ inv (tw_ledger (tp_world s3)) /\
  free_balance 2 10 (tw_ledger (tp_world s3)) = 1000000 - 408 /\ TransactionFeePot (tw_rewards (tp_world s3)) = 503.
Proof.
  destruct (fee_charged_exactly 3 10 info post 100 s0 s1 (3, 10, Some (NegativeImbalance_new 708 2))) as (_ & Hf & Hb & Hpost).
  - apply demo_inv; reflexivity.
  - split; vm_compute; discriminate.
  - split; vm_compute; discriminate.
  - vm_compute. discriminate.
  - vm_compute. discriminate.
  - vm_compute. reflexivity.
  - vm_compute. reflexivity.
  - vm_compute. discriminate.
  - vm_compute. reflexivity.
  - destruct (Hpost s1) as (s3 & H1 & H2 & H3 & _ & H4); [vm_compute; reflexivity | vm_compute; reflexivity | exact Hf | vm_compute; reflexivity|].
    exists s3. split; [exact H1 | split; [exact H2|]]. split; [rewrite H3; vm_compute; reflexivity | rewrite H4; vm_compute; reflexivity].
Defined.

(** Two thirds of the normal capacity used: the multiplier rises. *)
Lemma multiplier_adjusts_witness : FIXED_ONE <= convert 500000 FIXED_ONE /\ in_range FIXED_BITS (convert 500000 FIXED_ONE).
Proof.
  destruct (multiplier_adjusts 500000 FIXED_ONE ltac:(split; vm_compute; discriminate) ltac:(lia)) as (H1 & _ & H2 & _).
  split; [exact H2 | exact H1].
Defined.

Lemma actual_fee_bounded_witness : 3 <= compute_actual_fee FIXED_ONE 100 info post 3 <= 708.
Proof.
  assert (Hfee : compute_fee FIXED_ONE 100 info 3 = 708) by (vm_compute; reflexivity). rewrite <- Hfee.
  destruct (actual_fee_bounded FIXED_ONE 100 info post 3) as [H _].
  - split; vm_compute; discriminate.
  - lia.
  - vm_compute. discriminate.
  - vm_compute. discriminate.
  - split; vm_compute; discriminate.
  - exact H.
Defined.

Lemma dispatch_info_roundtrip_witness : decode_info (encode_info (mkRuntimeInfo 500000 Normal 705)) = Some (mkRuntimeInfo 500000 Normal 705, []).
Proof.
  destruct (dispatch_info_roundtrip (mkRuntimeInfo 500000 Normal 705)) as [H _]; [split; vm_compute; discriminate.. | exact H].
Defined.

Lemma token_address_roundtrip_witness : erc20_evm_id_to_runtime_id (erc20_runtime_id_to_evm_id 16000) = Some 16000 /\
  route false (erc20_runtime_id_to_evm_id 16000) (hash160 7) = Delegated.
Proof.
  destruct (token_address_roundtrip false 16000 3 4) as (_ & H1 & _ & H2 & _); [split; vm_compute; discriminate..|].
  split; [exact H1 | rewrite H2; vm_compute; reflexivity].
Defined.

Lemma evm_balance_spendable_witness : scale_wei_to_4dp (evm_balance 10 ledger0) = 1000000.
Proof.
  destruct (evm_balance_spendable 10 ledger0) as [H _]; [apply (inv_ok ledger0), demo_inv; reflexivity|].
  rewrite H; [vm_compute; reflexivity | vm_compute; discriminate].
Defined.

(** ** Beyond the theorems *)

(** A fee without a tip leaves the pot of the rewards pallet as it was. *)
Example fees_not_noted :
  let pre := pre_dispatch (mkCharge 0 None) 10 info 100 s0 in
  let s3 := (post_dispatch (0, 10, Some (NegativeImbalance_new 705 2)) info post 100 pre.2).2 in
  pre.1 = Ok (0, 10, Some (NegativeImbalance_new 705 2)) /\ total_issuance 2 (tw_ledger (tp_world s3)) = 1000000 - 405 /\
  TransactionFeePot (tw_rewards (tp_world s3)) = TransactionFeePot (tw_rewards (tp_world s0)).
Proof. vm_compute. auto. Qed.

(** A multiplier below one makes the peak adjustment of [compute_fee_parts] wrap
    and its total the largest balance. *)
Example fee_parts_wrap :
  compute_fee (FIXED_ONE / 2) 100 info 0 = 455 /\ FeeParts_total (compute_fee_parts (FIXED_ONE / 2) 100 info) = umax BALANCE_BITS.
Proof. vm_compute. auto. Qed.

(** Locked funds count as reducible although they cannot be moved. *)
Example reducible_ignores_locks :
  reducible_balance 10 GenericAssetInv.Demo.s_locked = 100 /\
  (ac_transfer spending_asset_id 10 11 100 AllowDeath GenericAssetInv.Demo.s_locked).1 = Err (GenericAsset GaError.LiquidityRestrictions).
Proof. vm_compute. auto. Qed.

(** ** A call through the fee proxy *)
#[local] Instance demo_evm : EvmEnv (Cennzx.State GenericAsset.State) Z := {|
  abi_decode_preferences l := if Nat.eqb (length l) 20 then Some (l, 1000, hash160 5, [1; 2]) else None;
  min_gas_price := 1;
  inner_call _ _ _ _ gas_limit _ _ := ret gas_limit;
|}.

(** The payer, who was given 500 of asset 2, prefers it and may use 10^14 gas at
    5 wei: five units of the fee currency are bought, and the inner call runs. *)
#[local] Existing Instance GenericAssetInv.Demo.config.

Definition proxy_payer : AccountId := account_number (into_account_id (replicate 20 7)).

Definition proxy_exchange : Cennzx.State GenericAsset.State :=
  Cennzx.set_ledger (snd (GenericAsset.make_transfer 2 10 proxy_payer 500 AllowDeath DemoExchange.demo_ledger)) DemoExchange.demo.

Lemma proxy_exchange_ok : GenericAssetInv.inv (Cennzx.ledger proxy_exchange).
Proof. apply (make_transfer_inv 2 10 proxy_payer 500 AllowDeath); [lia | exact DemoExchange.demo_ledger_inv]. Qed.

Lemma fee_proxy_covers_gas_witness :
  let input := FEE_FUNCTION_SELECTOR ++ erc20_runtime_id_to_evm_id 2 in
  exists p s1,
    runner_call (replicate 20 7) (hash160 FEE_PROXY) input 0 (10 ^ 14) (Some 5) None proxy_exchange = (Ok (10 ^ 14), s1) /\
    p <= 1000 /\ Cennzx.balance_of proxy_payer 1 s1 = Cennzx.balance_of proxy_payer 1 proxy_exchange + 5.
Proof.
  cbv zeta. set (input := FEE_FUNCTION_SELECTOR ++ erc20_runtime_id_to_evm_id 2).
  destruct (runner_call (replicate 20 7) (hash160 FEE_PROXY) input 0 (10 ^ 14) (Some 5) None proxy_exchange) as [r s'] eqn:E.
  assert (Hr : r = Ok (10 ^ 14)) by (apply (f_equal fst) in E; simpl in E; rewrite <- E; vm_compute; reflexivity).
  subst r.
  destruct (fee_proxy_covers_gas (replicate 20 7) input 0 (10 ^ 14) (Some 5) None proxy_exchange (Ok (10 ^ 14)) s') as [(_ & e & He & _)|Hb].
  - vm_compute. discriminate.
  - vm_compute. discriminate.
  - vm_compute. discriminate.
  - exact proxy_exchange_ok.
  - vm_compute. split; discriminate.
  - vm_compute. reflexivity.
  - vm_compute. discriminate.
  - intros asset m t i Hd. vm_compute in Hd. injection Hd as <- _ _ _. apply Z.eqb_neq. vm_compute. reflexivity.
  - exact E.
  - discriminate.
  - destruct Hb as (asset & m & t & i & p & s1 & Hd & _ & Hp & _ & Hbal & _ & _ & _ & Hin).
    vm_compute in Hd. injection Hd as <- <- _ _. injection Hin as <-. exists p, s1.
    split; [reflexivity|]. split; [exact Hp|].
    replace 5 with (scale_wei_to_4dp (saturate BALANCE_BITS (default 0 (Some 5) * 10 ^ 14 + default 0 None * 10 ^ 14))) by (vm_compute; reflexivity).
    exact Hbal.
Defined.
