(* ===== verification/PrecompileData.v ===== *)
(** * EVM data: the Solidity ABI of the precompiles

    [src/evm-precompiles/utils/src/data.rs]: [EvmDataReader], [EvmDataWriter]
    and the [EvmData] implementations through which every precompile of the
    runtime reads its input and writes its output.  Bytes are numbers below 256,
    [H256] and [H160] are lists of 32 and 20 of them.  A reader is the input
    slice and its cursor; reads run in the monad of the prelude with the reader
    as their state and the text of the revert as their error; indexing out of
    range is a panic.  The width of [usize] is a parameter: 32 bits in the Wasm
    runtime, 64 in the native one. *)

From S2P Require Import Prelude Support EthAbi.

Class Target := {
  usize_bits : Z;
  usize_bits_range : 8 <= usize_bits <= 64;
}.

(** ** Reader *)
Record EvmDataReader := mkReader { rd_input : bytes; rd_cursor : Z }.

Abbreviation Read A := (M string EvmDataReader A).

(** [slice.get(start..end)] *)
Definition get_range (start stop : Z) (data : bytes) : option bytes :=
  if (0 <=? start) && (start <=? stop) && (stop <=? Z.of_nat (length data))
  then Some (slice (Z.to_nat start) (Z.to_nat stop) data) else None.

(** [&slice[start..end]] *)
Definition index_range (start stop : Z) (data : bytes) : outcome string bytes :=
  match get_range start stop data with Some l => Ok l | None => Panic end.

(** [result.map_err(|_| gasometer.revert(text))] *)
Definition map_err {A} (text : string) (m : Read A) : Read A := fun r =>
  match m r with (Err _, r') => (Err text, r') | other => other end.

Section Data.
Context `{Target}.

Definition reader_new (input : bytes) : EvmDataReader := mkReader input 0.

Definition move_cursor (len : Z) : Read (Z * Z) :=
  let* start := gets rd_cursor in
  let* stop := ok_or (checked_add usize_bits start len) "data reading cursor overflow" in
  do* modify (fun r => mkReader (rd_input r) stop) in
  ret (start, stop).

(** The data of a range that was moved over. *)
Definition read_range (len : Z) (text : string) : Read bytes :=
  let* range := move_cursor len in
  let* input := gets rd_input in
  ok_or (get_range (fst range) (snd range) input) text.

Definition read_raw_bytes (len : Z) : Read bytes := read_range len "tried to parse raw bytes out of bounds".

(** The length left is computed without a check. *)
Definition read_till_end : Read bytes :=
  let* r := gets id in
  read_range (wrapping_sub usize_bits (Z.of_nat (length (rd_input r))) (rd_cursor r)) "tried to parse raw bytes out of bounds".

Definition expect_arguments (args : Z) : Read unit :=
  let* r := gets id in
  ensure (wrapping_add usize_bits (rd_cursor r) (wrapping_mul usize_bits args 32) <=? Z.of_nat (length (rd_input r)))
    "input doesn't match expected length".

(** [U256::try_into::<usize>()] *)
Definition to_usize (z : Z) : option Z := if z <=? umax usize_bits then Some z else None.

(** ** Words *)
Definition read_H256 : Read bytes := read_range 32 "tried to parse H256 out of bounds".

Definition read_Address : Read bytes :=
  let* data := read_range 32 "tried to parse H160 out of bounds" in
  lift (index_range 12 32 data).

Definition read_U256 : Read Z :=
  let* data := read_range 32 "tried to parse U256 out of bounds" in
  ret (be_number data).

(** [u16], [u32], [u64] and [u128] of [size] bytes: the high bytes of the word
    are ignored. *)
Definition read_uint (size : Z) (text : string) : Read Z :=
  let* data := read_range 32 text in
  let* buffer := lift (index_range (32 - size) 32 data) in
  ret (be_number buffer).

Definition read_u8 : Read Z :=
  let* data := read_range 32 "tried to parse u64 out of bounds" in
  lift (match data !! 31%nat with Some b => Ok b | None => Panic end).

Definition read_bool : Read bool :=
  let* h256 := map_err "tried to parse bool out of bounds" read_H256 in
  ret (negb (forallb (Z.eqb 0) h256)).

(** ** Pointers *)
Definition read_pointer : Read EvmDataReader :=
  let* z := map_err "tried to parse array offset out of bounds" read_U256 in
  let* offset := ok_or (to_usize z) "array offset is too large" in
  let* input := gets rd_input in
  do* ensure (negb (Z.of_nat (length input) <=? offset)) "pointer points out of bounds" in
  let* rest := lift (index_range offset (Z.of_nat (length input)) input) in
  ret (mkReader rest 0).

(** Reads of another reader, which is dropped. *)
Definition with_reader {A} (inner : EvmDataReader) (m : Read A) : Read A := fun r => (fst (m inner), r).

Fixpoint read_items {A} (n : nat) (item : Read A) : Read (list A) :=
  match n with
  | O => ret []
  | S n => let* x := item in let* l := read_items n item in ret (x :: l)
  end.

Definition read_Vec {A} (item : Read A) : Read (list A) :=
  let* inner_reader := read_pointer in
  with_reader inner_reader (
    let* z := map_err "tried to parse array length out of bounds" read_U256 in
    let* array_size := ok_or (to_usize z) "array length is too large" in
    let* input := gets rd_input in
    let* items := ok_or (get_range 32 (Z.of_nat (length input)) input) "try to read array items out of bound" in
    with_reader (mkReader items 0) (read_items (Z.to_nat array_size) item)).

Definition read_Bytes : Read bytes :=
  let* inner_reader := read_pointer in
  with_reader inner_reader (
    let* z := map_err "tried to parse bytes/string length out of bounds" read_U256 in
    let* array_size := ok_or (to_usize z) "bytes/string length is too large" in
    read_range array_size "tried to parse bytes/string out of bounds").

(** ** Writer *)
Record OffsetDatum := mkDatum { offset_position : nat; od_data : bytes; offset_shift : nat }.

Record EvmDataWriter := mkWriter { wr_data : bytes; offset_data : list OffsetDatum; wr_selector : option Z }.

Definition writer_new : EvmDataWriter := mkWriter [] [] None.
Definition writer_new_with_selector (selector : Z) : EvmDataWriter := mkWriter [] [] (Some selector).

(** The offsets are relative to the start of the data, or of the items within
    an array, which [offset_shift] corrects. *)
Fixpoint bake_offsets (output : bytes) (offsets : list OffsetDatum) : bytes :=
  match offsets with
  | [] => output
  | o :: offsets =>
      let free_space_offset := (length output - offset_shift o)%nat in
      bake_offsets (copy_slice (offset_position o) (be_bytes 32 (Z.of_nat free_space_offset)) output ++ od_data o) offsets
  end.

Definition build (w : EvmDataWriter) : bytes :=
  let data := bake_offsets (wr_data w) (offset_data w) in
  match wr_selector w with Some selector => be_bytes 4 selector ++ data | None => data end.

Definition write_raw_bytes (value : bytes) (w : EvmDataWriter) : EvmDataWriter :=
  mkWriter (wr_data w ++ value) (offset_data w) (wr_selector w).

Definition write_H256 (value : bytes) : EvmDataWriter -> EvmDataWriter := write_raw_bytes value.
Definition write_Address (value : bytes) : EvmDataWriter -> EvmDataWriter := write_H256 (replicate 12 0 ++ value).
Definition write_U256 (value : Z) : EvmDataWriter -> EvmDataWriter := write_raw_bytes (be_bytes 32 value).
Definition write_uint (size value : Z) : EvmDataWriter -> EvmDataWriter :=
  write_raw_bytes (copy_slice (Z.to_nat (32 - size)) (be_bytes (Z.to_nat size) value) (replicate 32 0)).
Definition write_u8 (value : Z) : EvmDataWriter -> EvmDataWriter := write_raw_bytes (<[31%nat := value]> (replicate 32 0)).
Definition write_bool (value : bool) : EvmDataWriter -> EvmDataWriter :=
  let buffer := replicate 32 0 in
  write_raw_bytes (if value then <[31%nat := 1]> buffer else buffer).

Definition write_pointer (data : bytes) (w : EvmDataWriter) : EvmDataWriter :=
  let offset_position := length (wr_data w) in
  let w := write_H256 (replicate 32 255) w in
  mkWriter (wr_data w) (offset_data w ++ [mkDatum offset_position data 0]) (wr_selector w).

(** One item of an array: its word, then its offsets, moved. *)
Definition write_item (item_writer inner_writer : EvmDataWriter) : EvmDataWriter :=
  let shift := length (wr_data inner_writer) in
  let inner_writer := write_raw_bytes (wr_data item_writer) inner_writer in
  mkWriter (wr_data inner_writer)
    (offset_data inner_writer ++
     ((fun o => mkDatum (offset_position o + shift) (od_data o) (offset_shift o + 32)) <$> offset_data item_writer))
    (wr_selector inner_writer).

Definition write_Vec {A} (write_one : A -> EvmDataWriter -> EvmDataWriter) (value : list A) : EvmDataWriter -> EvmDataWriter :=
  let inner_writer := write_U256 (Z.of_nat (length value)) writer_new in
  let inner_writer := foldl (fun w inner => write_item (write_one inner writer_new) w) inner_writer value in
  write_pointer (build inner_writer).

Definition padded_size (length : nat) : nat :=
  let chunks := (length / 32)%nat in
  match (length mod 32)%nat with O => (chunks * 32)%nat | _ => ((chunks + 1) * 32)%nat end.

Definition write_Bytes (value : bytes) : EvmDataWriter -> EvmDataWriter :=
  let len := length value in
  let padded := resize (padded_size len) 0 value in
  write_pointer (build (write_raw_bytes padded (write_U256 (Z.of_nat len) writer_new))).

(** ** The types of the trait [EvmData] *)
Inductive Uint := U16 | U32 | U64 | U128.

Definition size_of (u : Uint) : Z := match u with U16 => 2 | U32 => 4 | U64 => 8 | U128 => 16 end.

Definition uint_text (u : Uint) : string :=
  match u with
  | U16 => "tried to parse u16 out of bounds" | U32 => "tried to parse u32 out of bounds"
  | U64 => "tried to parse u64 out of bounds" | U128 => "tried to parse u128 out of bounds"
  end.

Inductive EvmType := TyH256 | TyAddress | TyU256 | TyUint (u : Uint) | TyU8 | TyBool | TyVec (t : EvmType) | TyBytes.

Fixpoint denote (t : EvmType) : Type :=
  match t with
  | TyH256 | TyAddress | TyBytes => list Z
  | TyU256 | TyUint _ | TyU8 => Z
  | TyBool => bool
  | TyVec t => list (denote t)
  end.

Fixpoint read (t : EvmType) : Read (denote t) :=
  match t with
  | TyH256 => read_H256
  | TyAddress => read_Address
  | TyU256 => read_U256
  | TyUint u => read_uint (size_of u) (uint_text u)
  | TyU8 => read_u8
  | TyBool => read_bool
  | TyVec t => read_Vec (read t)
  | TyBytes => read_Bytes
  end.

Fixpoint write (t : EvmType) : denote t -> EvmDataWriter -> EvmDataWriter :=
  match t with
  | TyH256 => write_H256
  | TyAddress => write_Address
  | TyU256 => write_U256
  | TyUint u => write_uint (size_of u)
  | TyU8 => write_u8
  | TyBool => write_bool
  | TyVec t => write_Vec (write t)
  | TyBytes => write_Bytes
  end.

(** [EvmDataReader::new_with_selector]; [try_from_primitive] is that of the
    precompile's enumeration of selectors. *)
Definition reader_new_with_selector {A} (try_from_primitive : Z -> option A) (input : bytes)
    : outcome string (EvmDataReader * A) :=
  if (length input <? 4)%nat then Err "tried to parse selector out of bounds"%string
  else match try_from_primitive (be_number (take 4 input)) with
       | Some selector => Ok (reader_new (drop 4 input), selector)
       | None => Err "unknown selector"%string
       end.

(** The arguments of a call, one after the other. *)
Definition Arg : Type := { t : EvmType & denote t }.

Fixpoint write_all (args : list Arg) (w : EvmDataWriter) : EvmDataWriter :=
  match args with [] => w | a :: args => write_all args (write (projT1 a) (projT2 a) w) end.

Fixpoint read_all (types : list EvmType) : Read (list Arg) :=
  match types with
  | [] => ret []
  | t :: types => let* v := read t in let* l := read_all types in ret (existT t v :: l)
  end.

End Data.

Example read_back (t := Build_Target 32 ltac:(lia)) :
  let args : list Arg := [existT TyBool true; existT (TyVec TyBytes) [[1; 2]; []; [3]]; existT (TyUint U32) 70000;
                          existT (TyVec (TyVec TyU8)) [[1; 2]; [3]]] in
  fst (read_all (projT1 <$> args) (reader_new (build (write_all args writer_new)))) = Ok args.
Proof. vm_compute. reflexivity. Qed.
