(* ===== verification/PrecompileDataProps.v ===== *)
(** * EVM data: properties

    What is written by the writer is read back by the reader, for arguments of
    every type the trait covers, arrays of arrays included; reading hostile
    input reverts and never panics, and what it returns has its type. *)

From S2P Require Import Prelude Support EthAbi PrecompileData.

#[local] Arguments be_bytes : simpl never.

Section Props.
Context `{Target}.
Implicit Types input l : bytes.

Definition len l : Z := Z.of_nat (length l).

(** Inputs the machine can index. *)
Definition addressable l : Prop := len l <= umax usize_bits.

Lemma usize_max_u256 : umax usize_bits < 2 ^ 256.
Proof.
  pose proof usize_bits_range. unfold umax.
  assert (2 ^ usize_bits <= 2 ^ 64) by (apply Z.pow_le_mono_r; lia). lia.
Qed.

Lemma usize_max_word : 32 <= umax usize_bits.
Proof.
  pose proof usize_bits_range. unfold umax.
  assert (2 ^ 8 <= 2 ^ usize_bits) by (apply Z.pow_le_mono_r; lia). lia.
Qed.

(** ** Reads of a range *)
Lemma get_range_app pre w post : get_range (len pre) (len pre + len w) (pre ++ w ++ post) = Some w.
Proof.
  unfold get_range, len. rewrite !length_app, !(proj2 (Z.leb_le _ _)) by lia. simpl. f_equal.
  replace (Z.to_nat (Z.of_nat (length pre) + Z.of_nat (length w))) with (length pre + length w)%nat by lia.
  rewrite Nat2Z.id. by apply slice_app.
Qed.

Lemma read_range_run n text r :
  read_range n text r =
    match checked_add usize_bits (rd_cursor r) n with
    | None => (Err "data reading cursor overflow"%string, r)
    | Some stop => (match get_range (rd_cursor r) stop (rd_input r) with Some data => Ok data | None => Err text end,
                    mkReader (rd_input r) stop)
    end.
Proof.
  unfold read_range, move_cursor, bind, gets, ok_or, modify, ret, fail.
  destruct (checked_add _ _ _); [simpl; by destruct (get_range _ _ _) | done].
Qed.

Lemma read_range_app n text pre w post : len w = n -> addressable (pre ++ w ++ post) ->
  read_range n text (mkReader (pre ++ w ++ post) (len pre)) = (Ok w, mkReader (pre ++ w ++ post) (len pre + n)).
Proof.
  intros <- Hfit. rewrite read_range_run. cbn [rd_input rd_cursor].
  unfold addressable, len in Hfit. rewrite !length_app in Hfit.
  assert (checked_add usize_bits (len pre) (len w) = Some (len pre + len w)) as ->
    by (apply checked_add_Some; unfold len; lia).
  by rewrite get_range_app.
Qed.

(** What a successful read of a range says of it. *)
Lemma read_range_Ok n text r data r' : 0 <= n -> 0 <= rd_cursor r -> read_range n text r = (Ok data, r') ->
  r' = mkReader (rd_input r) (rd_cursor r + n) /\ rd_cursor r + n <= len (rd_input r) /\ len data = n /\
  (Forall is_byte (rd_input r) -> Forall is_byte data).
Proof.
  intros Hn Hc. rewrite read_range_run.
  destruct (checked_add _ _ _) as [stop|] eqn:Hadd; [|done].
  apply checked_add_Some in Hadd as [-> _]. unfold get_range.
  destruct (_ && _) eqn:Hb; [|done]. intros [= <- <-]. bool_to_prop.
  unfold len in *. split_and!; [done | lia | |].
  - unfold slice. rewrite length_take, length_drop. lia.
  - intros Hall. unfold slice. by apply Forall_take, Forall_drop.
Qed.

(** ** Layouts

    A value is one word in the data of its container, or a pointer there to data
    of its own. *)
Inductive Layout := Static (word : bytes) | Dynamic (data : bytes).

Definition slot (y : Layout) : bytes := match y with Static word => word | Dynamic _ => replicate 32 255 end.

Definition tail_of (y : Layout) : bytes := match y with Static _ => [] | Dynamic data => data end.

Definition datum_of (position shift : nat) (y : Layout) : list OffsetDatum :=
  match y with Static _ => [] | Dynamic data => [mkDatum position data shift] end.

Definition place (y : Layout) (w : EvmDataWriter) : EvmDataWriter :=
  mkWriter (wr_data w ++ slot y) (offset_data w ++ datum_of (length (wr_data w)) 0 y) (wr_selector w).

Definition layout_wf (y : Layout) : Prop := match y with Static word => length word = 32%nat | Dynamic data => (32 <= length data)%nat end.

Lemma slot_length y : layout_wf y -> length (slot y) = 32%nat.
Proof. by destruct y. Qed.

(** The word at the cursor is the value, or points to it. *)
Definition points_to input (cursor : Z) (y : Layout) : Prop :=
  match y with
  | Static word => exists pre post, input = pre ++ word ++ post /\ cursor = len pre
  | Dynamic data => exists pre post front back, input = pre ++ be_bytes 32 (len front) ++ post /\ cursor = len pre /\
      input = front ++ data ++ back
  end.

(** An implementation of [EvmData]. *)
Record codec_ok {A} (rd : M string EvmDataReader A) (wr : A -> EvmDataWriter -> EvmDataWriter) (valid : A -> Prop)
    (layout : A -> Layout) : Prop := {
  co_wf : forall a, valid a -> layout_wf (layout a);
  co_write : forall a w, valid a -> wr a w = place (layout a) w;
  co_read : forall a input cursor, valid a -> addressable input -> points_to input cursor (layout a) ->
    rd (mkReader input cursor) = (Ok a, mkReader input (cursor + 32));
}.

(** ** Frames

    The words of a container, with the offsets of the data that follows. *)
Fixpoint heads (offset : nat) (ys : list Layout) : bytes :=
  match ys with
  | [] => []
  | Static word :: ys => word ++ heads offset ys
  | Dynamic data :: ys => be_bytes 32 (Z.of_nat offset) ++ heads (offset + length data) ys
  end.

Definition tails (ys : list Layout) : bytes := concat (tail_of <$> ys).

Definition frame (ys : list Layout) : bytes := heads (32 * length ys) ys ++ tails ys.

Fixpoint data_of (position shift : nat) (ys : list Layout) : list OffsetDatum :=
  match ys with [] => [] | y :: ys => datum_of position shift y ++ data_of (position + 32) shift ys end.

Lemma heads_length offset ys : Forall layout_wf ys -> length (heads offset ys) = (32 * length ys)%nat.
Proof.
  intros Hwf. revert offset. induction Hwf as [|y ys Hy _ IH]; intros offset; [done|].
  destruct y as [word|data]; cbn [heads]; rewrite length_app, IH, ?be_bytes_length; simpl in *; lia.
Qed.

Lemma slots_length ys : Forall layout_wf ys -> length (concat (slot <$> ys)) = (32 * length ys)%nat.
Proof.
  induction 1 as [|y ys Hy _ IH]; [done|]. rewrite fmap_cons, concat_cons, length_app, IH, slot_length by done. simpl. lia.
Qed.

(** Baking the offsets of a container fills in its words. *)
Lemma bake_frame pre done_ extra ys : Forall layout_wf ys ->
  bake_offsets (pre ++ done_ ++ concat (slot <$> ys) ++ extra) (data_of (length pre + length done_) (length pre) ys) =
  pre ++ done_ ++ heads (length done_ + 32 * length ys + length extra) ys ++ extra ++ tails ys.
Proof.
  intros Hwf. revert done_ extra. induction Hwf as [|y ys Hy Hys IH]; intros done_ extra.
  { simpl. by rewrite app_nil_r. }
  destruct y as [word|data]; simpl in Hy; rewrite fmap_cons, concat_cons; cbn [slot]; cbn [data_of datum_of app bake_offsets offset_shift offset_position od_data]; cbn [heads].
  - specialize (IH (done_ ++ word) extra). rewrite length_app, Hy, <- !app_assoc in IH.
    replace (length pre + (length done_ + 32))%nat with (length pre + length done_ + 32)%nat in IH by lia.
    rewrite <- !app_assoc, IH. cbn [length].
    by replace (length done_ + 32 + 32 * length ys + length extra)%nat
      with (length done_ + 32 * S (length ys) + length extra)%nat by lia.
  - rewrite <- !app_assoc, (app_assoc pre done_), copy_slice_app
      by (rewrite ?length_app, ?length_replicate, ?be_bytes_length; lia).
    rewrite !length_app, length_replicate, slots_length by done.
    match goal with |- context [be_bytes 32 (Z.of_nat ?n)] =>
      replace n with (length done_ + 32 * S (length ys) + length extra)%nat by lia end.
    set (o := (length done_ + 32 * S (length ys) + length extra)%nat).
    specialize (IH (done_ ++ be_bytes 32 (Z.of_nat o)) (extra ++ data)).
    rewrite length_app, be_bytes_length, <- !app_assoc in IH. rewrite <- !app_assoc.
    replace (length pre + (length done_ + 32))%nat with (length pre + length done_ + 32)%nat in IH by lia.
    rewrite IH, length_app.
    by replace (length done_ + 32 + 32 * length ys + (length extra + length data))%nat with (o + length data)%nat by lia.
Qed.

(** Every word of a frame is its value or points to it. *)
Lemma frame_points_to done_ extra rest ys : Forall layout_wf ys ->
  forall i y, ys !! i = Some y ->
    points_to (done_ ++ heads (length done_ + 32 * length ys + length extra) ys ++ extra ++ tails ys ++ rest)
      (len done_ + 32 * Z.of_nat i) y.
Proof.
  intros Hwf. revert done_ extra. induction Hwf as [|y ys Hy Hys IH]; intros done_ extra i z Hi; [done|].
  set (o := (length done_ + 32 * length (y :: ys) + length extra)%nat).
  destruct i as [|i]; [injection Hi as <-; rewrite Z.add_0_r; destruct y as [word|data]|].
  - exists done_. eexists. split; [|done]. simpl. by rewrite <- !app_assoc.
  - set (front := done_ ++ be_bytes 32 (Z.of_nat o) ++ heads (o + length data) ys ++ extra).
    assert (Hfront : len front = Z.of_nat o).
    { unfold len, front. rewrite !length_app, be_bytes_length, heads_length by done. unfold o. simpl length. lia. }
    exists done_, (heads (o + length data) ys ++ extra ++ tails (Dynamic data :: ys) ++ rest), front, (tails ys ++ rest).
    rewrite Hfront. cbn [heads]. split_and!; [by rewrite <- !app_assoc | done |].
    unfold front, tails. rewrite fmap_cons, concat_cons. cbn [tail_of]. by rewrite <- !app_assoc.
  - specialize (IH (done_ ++ match y with Static word => word | Dynamic _ => be_bytes 32 (Z.of_nat o) end) (extra ++ tail_of y) i z Hi).
    assert (Hl : length (match y with Static word => word | Dynamic _ => be_bytes 32 (Z.of_nat o) end) = 32%nat)
      by (destruct y; [done | apply be_bytes_length]).
    unfold len in IH |- *. rewrite !length_app, Hl, <- !app_assoc in IH.
    replace (Z.of_nat (length done_) + 32 * Z.of_nat (S i)) with (Z.of_nat (length done_ + 32) + 32 * Z.of_nat i) by lia.
    destruct y as [word|data]; cbn [heads]; cbn [tail_of] in IH; unfold tails at 1; simpl concat;
      rewrite <- !app_assoc; refine (eq_ind _ (fun b => points_to b _ _) IH _ _);
      do 2 f_equal; f_equal; simpl length; f_equal; unfold o; simpl length; lia.
Qed.


(** ** Words *)
Lemma word_codec {A} (decode : bytes -> outcome string A) (encode : A -> bytes) (valid : A -> Prop) text :
  (forall a, valid a -> length (encode a) = 32%nat /\ decode (encode a) = Ok a) ->
  codec_ok (let* data := read_range 32 text in lift (decode data)) (fun a => write_raw_bytes (encode a)) valid
    (fun a => Static (encode a)).
Proof.
  intros Henc. split.
  - intros a Ha. by apply Henc.
  - intros a w _. unfold place, write_raw_bytes. simpl. by rewrite app_nil_r.
  - intros a input cursor Ha Hfit (pre & post & -> & ->). destruct (Henc a Ha) as [Hl Hd]. unfold bind.
    rewrite read_range_app by (done || unfold len; lia). unfold lift. by rewrite Hd.
Qed.

(** Errors apart, an implementation may be replaced by an equal one. *)
Lemma codec_ext {A} rd rd' wr wr' (valid : A -> Prop) layout : codec_ok rd wr valid layout ->
  (forall r a r', rd r = (Ok a, r') -> rd' r = (Ok a, r')) -> (forall a w, valid a -> wr' a w = wr a w) ->
  codec_ok rd' wr' valid layout.
Proof. intros [Hwf Hw Hr] Hrd Hwr. split; [done | intros; by rewrite Hwr, Hw | intros; by apply Hrd, Hr]. Qed.

Lemma index_range_suffix pre w n : len pre = n -> index_range n (n + len w) (pre ++ w) = Ok w.
Proof.
  intros <-. unfold index_range. pose proof (get_range_app pre w []) as Hg. rewrite app_nil_r in Hg. by rewrite Hg.
Qed.

Definition zero_word_but (n : nat) (l : bytes) : bytes := replicate (32 - n) 0 ++ l.

Lemma zero_word_but_length n l : length l = n -> (n <= 32)%nat -> length (zero_word_but n l) = 32%nat.
Proof. intros Hl Hn. unfold zero_word_but. rewrite length_app, length_replicate. lia. Qed.

Lemma set_last_byte b : <[31%nat := b]> (replicate 32 0) = zero_word_but 1 [b].
Proof. reflexivity. Qed.

Fixpoint valid (t : EvmType) : denote t -> Prop :=
  match t with
  | TyH256 => fun v => length v = 32%nat /\ Forall is_byte v
  | TyAddress => fun v => length v = 20%nat /\ Forall is_byte v
  | TyU256 => in_range 256
  | TyUint u => in_range (8 * size_of u)
  | TyU8 => is_byte
  | TyBool => fun _ => True
  | TyVec t => Forall (valid t)
  | TyBytes => Forall is_byte
  end.

Definition bytes_data (v : bytes) : bytes := be_bytes 32 (len v) ++ resize (padded_size (length v)) 0 v.

Fixpoint layout (t : EvmType) : denote t -> Layout :=
  match t with
  | TyH256 => Static
  | TyAddress => fun v => Static (zero_word_but 20 v)
  | TyU256 => fun v => Static (be_bytes 32 v)
  | TyUint u => fun v => Static (zero_word_but (Z.to_nat (size_of u)) (be_bytes (Z.to_nat (size_of u)) v))
  | TyU8 => fun v => Static (zero_word_but 1 [v])
  | TyBool => fun v => Static (zero_word_but 1 [Z.b2z v])
  | TyVec t => fun v => Dynamic (be_bytes 32 (Z.of_nat (length v)) ++ frame (layout t <$> v))
  | TyBytes => fun v => Dynamic (bytes_data v)
  end.

Lemma codec_H256 : codec_ok read_H256 write_H256 (valid TyH256) (layout TyH256).
Proof.
  apply (codec_ext _ _ _ _ _ _ (word_codec Ok (fun v => v) (valid TyH256) "tried to parse H256 out of bounds" ltac:(by intros a [Ha _]))); [|done].
  intros r a r'. unfold read_H256, bind, lift. by destruct (read_range _ _ _) as [[] ?].
Qed.

Lemma codec_Address : codec_ok read_Address write_Address (valid TyAddress) (layout TyAddress).
Proof.
  apply (word_codec (index_range 12 32) (zero_word_but 20)). intros v [Hv _]. split; [by apply zero_word_but_length; [|lia]|].
  unfold zero_word_but. replace 32 with (12 + len v) by (unfold len; lia). by apply index_range_suffix.
Qed.

Lemma codec_U256 : codec_ok read_U256 write_U256 (valid TyU256) (layout TyU256).
Proof.
  apply (word_codec (fun data => Ok (be_number data))). intros v Hv. split; [apply be_bytes_length|].
  rewrite be_number_be_bytes; [done|]. cbn in Hv. unfold in_range, umax in Hv. change (256 ^ Z.of_nat 32) with (2 ^ 256). lia.
Qed.

Lemma size_of_range u : 2 <= size_of u <= 16.
Proof. destruct u; simpl; lia. Qed.

Lemma codec_uint u : codec_ok (read_uint (size_of u) (uint_text u)) (write_uint (size_of u)) (valid (TyUint u)) (layout (TyUint u)).
Proof.
  pose proof (size_of_range u) as Hs. set (n := Z.to_nat (size_of u)).
  assert (Hdec : forall v, valid (TyUint u) v -> length (zero_word_but n (be_bytes n v)) = 32%nat /\
    obind (index_range (32 - size_of u) 32 (zero_word_but n (be_bytes n v))) (fun buffer => Ok (be_number buffer)) = Ok v).
  { intros v Hv. split; [apply zero_word_but_length; [apply be_bytes_length | lia]|]. unfold zero_word_but.
    pose proof (index_range_suffix (replicate (32 - n) 0) (be_bytes n v) (32 - size_of u)) as Hi.
    unfold len in Hi. rewrite length_replicate, be_bytes_length in Hi.
    replace (32 - size_of u + Z.of_nat n) with 32 in Hi by lia. rewrite Hi by lia. simpl. rewrite be_number_be_bytes; [done|].
    simpl in Hv. unfold in_range, umax in Hv. rewrite Z.pow_mul_r in Hv by lia. unfold n. rewrite Z2Nat.id by lia.
    change (2 ^ 8) with 256 in Hv. lia. }
  apply (codec_ext _ _ _ _ _ _ (word_codec (fun data => obind (index_range (32 - size_of u) 32 data) (fun buffer => Ok (be_number buffer)))
           (fun v => zero_word_but n (be_bytes n v)) (valid (TyUint u)) (uint_text u) Hdec)).
  - intros r a r'. unfold read_uint, bind, lift, ret. destruct (read_range _ _ _) as [[data| |] ?]; try done.
    by destruct (index_range _ _ _).
  - intros v w _. unfold write_uint. f_equal. fold n.
    replace (Z.to_nat (32 - size_of u)) with (32 - n)%nat by lia. unfold zero_word_but.
    replace (replicate 32 0) with (replicate (32 - n) 0 ++ replicate n 0 ++ @nil Z)
      by (rewrite app_nil_r, <- replicate_add; f_equal; lia).
    rewrite copy_slice_app by (rewrite ?length_replicate, ?be_bytes_length; done). by rewrite app_nil_r.
Qed.

Lemma codec_u8 : codec_ok read_u8 write_u8 (valid TyU8) (layout TyU8).
Proof. apply (word_codec (fun data => match data !! 31%nat with Some b => Ok b | None => Panic end) (fun v => zero_word_but 1 [v])). done. Qed.

Lemma codec_bool : codec_ok read_bool write_bool (valid TyBool) (layout TyBool).
Proof.
  apply (codec_ext _ _ _ _ _ _ (word_codec (fun data => Ok (negb (forallb (Z.eqb 0) data))) (fun v => zero_word_but 1 [Z.b2z v])
           (fun _ => True) "tried to parse bool out of bounds" ltac:(by intros []))).
  - intros r a r'. unfold read_bool, read_H256, map_err, bind, lift, ret. rewrite !read_range_run.
    destruct (checked_add _ _ _); [|done]. by destruct (get_range _ _ _).
  - by intros [].
Qed.

(** ** Pointers *)
Lemma map_err_Ok {A} text (m : M string EvmDataReader A) r a r' : m r = (Ok a, r') -> map_err text m r = (Ok a, r').
Proof. intros Hm. unfold map_err. by rewrite Hm. Qed.

Lemma addressable_app_r l1 l2 : addressable (l1 ++ l2) -> addressable l2.
Proof. unfold addressable, len. rewrite length_app. lia. Qed.

(** A length or an offset of the data at its word. *)
Lemma read_length text pre n post : 0 <= n <= umax usize_bits -> addressable (pre ++ be_bytes 32 n ++ post) ->
  (let* z := map_err text read_U256 in ok_or (to_usize z) "") (mkReader (pre ++ be_bytes 32 n ++ post) (len pre)) =
  (Ok n, mkReader (pre ++ be_bytes 32 n ++ post) (len pre + 32)) /\
  map_err text read_U256 (mkReader (pre ++ be_bytes 32 n ++ post) (len pre)) =
  (Ok n, mkReader (pre ++ be_bytes 32 n ++ post) (len pre + 32)) /\ to_usize n = Some n.
Proof.
  intros Hn Hfit. pose proof usize_max_u256. assert (to_usize n = Some n) as Hu.
  { unfold to_usize. by rewrite (proj2 (Z.leb_le _ _)) by lia. }
  assert (Hr : map_err text read_U256 (mkReader (pre ++ be_bytes 32 n ++ post) (len pre)) =
    (Ok n, mkReader (pre ++ be_bytes 32 n ++ post) (len pre + 32))).
  { apply map_err_Ok, (co_read _ _ _ _ codec_U256); [cbn; unfold in_range, umax; lia | done |].
    by exists pre, post. }
  split; [|done]. unfold bind. by rewrite Hr, Hu.
Qed.

Lemma read_pointer_points input cursor data : (0 < length data)%nat -> addressable input ->
  points_to input cursor (Dynamic data) ->
  exists back, read_pointer (mkReader input cursor) = (Ok (mkReader (data ++ back) 0), mkReader input (cursor + 32)) /\
    addressable (data ++ back).
Proof.
  intros Hd Hfit (pre & post & front & back & Hin & -> & Hfr). exists back.
  assert (Hback : addressable (data ++ back)) by (eapply addressable_app_r; by rewrite <- Hfr).
  split; [|done].
  assert (Hlen : len input = len front + len data + len back) by (unfold len; rewrite Hfr, !length_app; lia).
  destruct (read_length "tried to parse array offset out of bounds" pre (len front) post) as (_ & Hr & Hu).
  { unfold addressable, len in *. lia. } { by rewrite <- Hin. }
  rewrite <- Hin in Hr. unfold read_pointer, bind, gets, ok_or, ensure, lift, ret. rewrite Hr, Hu. simpl.
  fold (len input). rewrite (proj2 (Z.leb_gt _ _)) by (unfold len in *; lia). simpl.
  rewrite Hfr at 2. rewrite Hlen, <- Z.add_assoc.
  replace (len data + len back) with (len (data ++ back)) by (unfold len; rewrite length_app; lia).
  by rewrite index_range_suffix.
Qed.

(** ** Bytes *)
Lemma padded_size_le n : (n <= padded_size n)%nat.
Proof.
  unfold padded_size. pose proof (Nat.div_mod_eq n 32). pose proof (Nat.mod_upper_bound n 32 ltac:(lia)).
  destruct (n mod 32)%nat; lia.
Qed.

Lemma codec_Bytes : codec_ok read_Bytes write_Bytes (valid TyBytes) (layout TyBytes).
Proof.
  assert (Hres : forall v : bytes, resize (padded_size (length v)) 0 v = v ++ replicate (padded_size (length v) - length v) 0).
  { intros v. pose proof (padded_size_le (length v)). by rewrite resize_ge by lia. }
  split.
  - intros v _. cbn [layout layout_wf]. unfold bytes_data. rewrite length_app, be_bytes_length. lia.
  - done.
  - intros v input cursor _ Hfit Hp. cbn [layout] in Hp. unfold bytes_data in Hp. rewrite Hres, <- ?app_assoc in Hp.
    set (pad := replicate _ 0) in Hp.
    destruct (fun Hd => read_pointer_points _ _ _ Hd Hfit Hp) as (back & Hr & Hback); [rewrite length_app, be_bytes_length; lia |].
    rewrite <- !app_assoc in Hr, Hback. unfold read_Bytes, bind. rewrite Hr. unfold with_reader. f_equal.
    assert (Hv : 0 <= len v <= umax usize_bits).
    { unfold addressable, len in *. rewrite !length_app in Hback. lia. }
    destruct (read_length "tried to parse bytes/string length out of bounds" [] (len v) (v ++ pad ++ back) Hv Hback) as (_ & Hr' & Hu).
    cbn [app] in Hr'. change (len []) with 0 in Hr'. change (0 + 32) with 32 in Hr'. rewrite Hr'. unfold ok_or. rewrite Hu. unfold ret.
    pose proof (read_range_app (len v) "tried to parse bytes/string out of bounds" (be_bytes 32 (len v)) v (pad ++ back) eq_refl Hback) as Hrr.
    replace (len (be_bytes 32 (len v))) with 32 in Hrr by (unfold len; by rewrite be_bytes_length). by rewrite Hrr.
Qed.

(** ** Arrays *)
Section Items.
Context {A : Type} (rd : M string EvmDataReader A) (wr : A -> EvmDataWriter -> EvmDataWriter) (ok : A -> Prop) (ly : A -> Layout).
Hypothesis Hcodec : codec_ok rd wr ok ly.

Lemma layouts_wf (l : list A) : Forall ok l -> Forall layout_wf (ly <$> l).
Proof. induction 1; constructor; [by apply (co_wf _ _ _ _ Hcodec) | done]. Qed.

Lemma read_items_laid (l : list A) input cursor : Forall ok l -> addressable input ->
  (forall i y, (ly <$> l) !! i = Some y -> points_to input (cursor + 32 * Z.of_nat i) y) ->
  read_items (length l) rd (mkReader input cursor) = (Ok l, mkReader input (cursor + 32 * Z.of_nat (length l))).
Proof.
  intros Hl Hfit. revert cursor. induction Hl as [|a l Ha Hl IH]; intros cursor Hp.
  { simpl. by rewrite Z.add_0_r. }
  cbn [read_items length]. unfold bind.
  rewrite (co_read _ _ _ _ Hcodec a input cursor Ha Hfit) by (specialize (Hp O _ eq_refl); by rewrite Z.add_0_r in Hp).
  rewrite IH.
  - unfold ret. do 2 f_equal. lia.
  - intros i y Hi. specialize (Hp (S i) y Hi).
    by replace (cursor + 32 + 32 * Z.of_nat i) with (cursor + 32 * Z.of_nat (S i)) by lia.
Qed.

Lemma write_items_slots (l : list A) w : Forall ok l ->
  foldl (fun w inner => write_item (wr inner writer_new) w) w l =
  mkWriter (wr_data w ++ concat (slot <$> (ly <$> l))) (offset_data w ++ data_of (length (wr_data w)) 32 (ly <$> l)) (wr_selector w).
Proof.
  intros Hl. revert w. induction Hl as [|a l Ha Hl IH]; intros w.
  { destruct w. simpl. by rewrite !app_nil_r. }
  cbn [foldl]. rewrite IH, (co_write _ _ _ _ Hcodec) by done. pose proof (co_wf _ _ _ _ Hcodec a Ha) as Hwf.
  unfold write_item, write_raw_bytes, place. cbn [wr_data offset_data wr_selector writer_new app].
  rewrite !fmap_cons, concat_cons, length_app, slot_length by done. rewrite <- !app_assoc. cbn [data_of].
  f_equal. f_equal. by destruct (ly a).
Qed.

Lemma codec_Vec : codec_ok (read_Vec rd) (write_Vec wr) (Forall ok)
  (fun v => Dynamic (be_bytes 32 (Z.of_nat (length v)) ++ frame (ly <$> v))).
Proof.
  split.
  - intros v _. cbn [layout_wf]. rewrite length_app, be_bytes_length. lia.
  - intros v w Hv. unfold write_Vec. rewrite (write_items_slots v) by done. unfold write_pointer, place, write_H256, write_raw_bytes.
    cbn [wr_data offset_data wr_selector slot datum_of]. do 4 f_equal. unfold build, write_U256, write_raw_bytes.
    cbn [wr_data offset_data wr_selector writer_new app].
    pose proof (bake_frame (be_bytes 32 (Z.of_nat (length v))) [] [] (ly <$> v) (layouts_wf v Hv)) as Hb.
    rewrite be_bytes_length, !app_nil_r in Hb. cbn [app] in Hb. rewrite be_bytes_length. unfold frame.
    refine (eq_trans Hb _). cbn [length]. by rewrite Nat.add_0_r.
  - intros v input cursor Hv Hfit Hp. set (n := Z.of_nat (length v)) in *.
    destruct (fun Hd => read_pointer_points _ _ _ Hd Hfit Hp) as (back & Hr & Hback); [rewrite length_app, be_bytes_length; lia |].
    rewrite <- !app_assoc in Hr, Hback. unfold read_Vec, bind. rewrite Hr. unfold with_reader at 1. f_equal.
    assert (Hn : 0 <= n <= umax usize_bits).
    { unfold addressable, len, frame in *. rewrite !length_app, heads_length, length_fmap in Hback by (by apply layouts_wf). lia. }
    destruct (read_length "tried to parse array length out of bounds" [] n (frame (ly <$> v) ++ back) Hn Hback) as (_ & Hr' & Hu).
    cbn [app] in Hr'. change (len []) with 0 in Hr'. change (0 + 32) with 32 in Hr'. rewrite Hr'. unfold ok_or at 1. rewrite Hu. unfold ret, gets. cbn [rd_input].
    assert (get_range 32 (Z.of_nat (length (be_bytes 32 n ++ frame (ly <$> v) ++ back))) (be_bytes 32 n ++ frame (ly <$> v) ++ back) =
      Some (frame (ly <$> v) ++ back)) as ->.
    { pose proof (get_range_app (be_bytes 32 n) (frame (ly <$> v) ++ back) []) as Hg. rewrite app_nil_r in Hg.
      unfold len in Hg. rewrite be_bytes_length in Hg. rewrite length_app, be_bytes_length, Nat2Z.inj_add. exact Hg. }
    unfold ok_or, ret, with_reader. unfold n. rewrite Nat2Z.id, read_items_laid; [done | done | by eapply addressable_app_r |].
    intros i y Hi. pose proof (frame_points_to [] [] back (ly <$> v) (layouts_wf v Hv) i y Hi) as Hpt.
    unfold frame. rewrite <- app_assoc. cbn [app length] in Hpt. rewrite Nat.add_0_r in Hpt. exact Hpt.
Qed.

End Items.

Lemma codec_type t : codec_ok (read t) (write t) (valid t) (layout t).
Proof.
  induction t; [apply codec_H256 | apply codec_Address | apply codec_U256 | apply codec_uint | apply codec_u8 | apply codec_bool
               | by apply codec_Vec | apply codec_Bytes].
Qed.

(** ** Calls *)
Definition valid_arg (a : Arg) : Prop := valid (projT1 a) (projT2 a).
Definition layout_arg (a : Arg) : Layout := layout (projT1 a) (projT2 a).

Lemma args_wf args : Forall valid_arg args -> Forall layout_wf (layout_arg <$> args).
Proof. induction 1 as [|[t v] args Hv _ IH]; constructor; [by apply (co_wf _ _ _ _ (codec_type t)) | done]. Qed.

Lemma write_all_slots args w : Forall valid_arg args ->
  write_all args w =
  mkWriter (wr_data w ++ concat (slot <$> (layout_arg <$> args))) (offset_data w ++ data_of (length (wr_data w)) 0 (layout_arg <$> args))
    (wr_selector w).
Proof.
  intros Hargs. revert w. induction Hargs as [|[t v] args Hv Hargs IH]; intros w.
  { destruct w. simpl. by rewrite !app_nil_r. }
  cbn [write_all projT1 projT2]. rewrite (co_write _ _ _ _ (codec_type t)), IH by done. unfold place.
  pose proof (co_wf _ _ _ _ (codec_type t) v Hv) as Hwf. cbn [wr_data offset_data wr_selector].
  rewrite !fmap_cons, concat_cons, length_app, slot_length by done. by rewrite <- !app_assoc.
Qed.

Lemma build_frame args : Forall valid_arg args ->
  bake_offsets (concat (slot <$> (layout_arg <$> args))) (data_of 0 0 (layout_arg <$> args)) = frame (layout_arg <$> args).
Proof.
  intros Hargs. pose proof (bake_frame [] [] [] (layout_arg <$> args) (args_wf args Hargs)) as Hb.
  cbn [app length Nat.add] in Hb. rewrite !app_nil_r, Nat.add_0_r in Hb. exact Hb.
Qed.

(** A reader about to read encoded arguments. *)
Definition laid (args : list Arg) (r : EvmDataReader) : Prop :=
  Forall valid_arg args /\ addressable (rd_input r) /\
  forall i y, (layout_arg <$> args) !! i = Some y -> points_to (rd_input r) (rd_cursor r + 32 * Z.of_nat i) y.

Lemma read_laid t v args r : laid (existT t v :: args) r ->
  read t r = (Ok v, mkReader (rd_input r) (rd_cursor r + 32)) /\ laid args (mkReader (rd_input r) (rd_cursor r + 32)).
Proof.
  intros (Hargs & Hfit & Hp). apply Forall_cons in Hargs as [Hv Hargs]. destruct r as [input cursor]. cbn [rd_input rd_cursor] in *. split.
  - apply (co_read _ _ _ _ (codec_type t)); [done | done |]. specialize (Hp O _ eq_refl). by rewrite Z.add_0_r in Hp.
  - split_and!; [done | done |]. intros i y Hi. specialize (Hp (S i) y Hi). cbn [rd_input rd_cursor].
    by replace (cursor + 32 + 32 * Z.of_nat i) with (cursor + 32 * Z.of_nat (S i)) by lia.
Qed.

Lemma read_all_laid args r : laid args r -> fst (read_all (projT1 <$> args) r) = Ok args.
Proof.
  revert r. induction args as [|[t v] args IH]; intros r Hl; [done|]. rewrite fmap_cons. cbn [read_all projT1]. unfold bind.
  apply read_laid in Hl as [-> Hl]. specialize (IH _ Hl). destruct (read_all _ _) as [res r']. cbn [fst] in IH. by rewrite IH.
Qed.

(** What a precompile finds in an encoded call. *)
Lemma laid_encoded {A} (try_from_primitive : Z -> option A) selector s args :
  in_range 32 selector -> try_from_primitive selector = Some s -> Forall valid_arg args ->
  let input := build (write_all args (writer_new_with_selector selector)) in
  addressable input ->
  exists data, reader_new_with_selector try_from_primitive input = Ok (mkReader data 0, s) /\ laid args (mkReader data 0) /\
    32 * Z.of_nat (length args) <= len data.
Proof.
  intros Hsel Htry Hargs. cbv zeta. rewrite write_all_slots by done. unfold build.
  cbn [wr_selector wr_data offset_data writer_new_with_selector app length]. rewrite build_frame by done. intros Hfit.
  unfold reader_new_with_selector. rewrite take_app_length', drop_app_length' by (by rewrite be_bytes_length).
  rewrite length_app, be_bytes_length. simpl Nat.ltb. cbv iota.
  rewrite be_number_be_bytes by (unfold in_range, umax in Hsel; change (256 ^ Z.of_nat 4) with (2 ^ 32); lia).
  rewrite Htry. exists (frame (layout_arg <$> args)). split; [done|]. split; [split_and!|]; [done | by eapply addressable_app_r | |].
  - intros i y Hi. pose proof (frame_points_to [] [] [] _ (args_wf args Hargs) i y Hi) as Hp.
    cbn [app length Nat.add] in Hp. rewrite app_nil_r, Nat.add_0_r in Hp. exact Hp.
  - unfold len, frame. rewrite length_app, heads_length by (by apply args_wf). rewrite length_fmap. lia.
Qed.

Lemma expect_laid args data n : laid args (mkReader data 0) -> 0 <= n -> 32 * n <= len data ->
  expect_arguments n (mkReader data 0) = (Ok tt, mkReader data 0).
Proof.
  intros (_ & Hfit & _) Hn Hle. unfold expect_arguments, bind, gets, id, ensure, ret. cbn [rd_input rd_cursor].
  unfold addressable in Hfit. cbn [rd_input] in Hfit. unfold wrapping_add, wrapping_mul.
  rewrite !wrap_small; try (unfold in_range; lia); [|rewrite wrap_small; unfold in_range; lia].
  rewrite (proj2 (Z.leb_le _ _)); [done|]. fold (len data). lia.
Qed.

(** ** Hostile input *)

(** A reader of one word: it never panics; when it succeeds the cursor moved
    over a word of the input and the value has its type. *)
Definition reads_soundly {A} (rd : M string EvmDataReader A) (ok : A -> Prop) : Prop :=
  forall r, 0 <= rd_cursor r -> Forall is_byte (rd_input r) ->
  match rd r with
  | (Ok a, r') => r' = mkReader (rd_input r) (rd_cursor r + 32) /\ rd_cursor r + 32 <= len (rd_input r) /\ ok a
  | (Err _, _) => True
  | (Panic, _) => False
  end.

(** A range of data, read soundly. *)
Lemma read_range_sound n text r : 0 <= n -> 0 <= rd_cursor r -> Forall is_byte (rd_input r) ->
  match read_range n text r with
  | (Ok data, r') => r' = mkReader (rd_input r) (rd_cursor r + n) /\ rd_cursor r + n <= len (rd_input r) /\
      len data = n /\ Forall is_byte data
  | (Err _, _) => True
  | (Panic, _) => False
  end.
Proof.
  intros Hn Hc Hb. destruct (read_range n text r) as [[data| |] r'] eqn:Hr; [|done|].
  - apply read_range_Ok in Hr as (-> & Hle & Hl & Hall); auto.
  - rewrite read_range_run in Hr. destruct (checked_add _ _ _); [|done]. by destruct (get_range _ _ _).
Qed.

Lemma word_sound {A} text (k : bytes -> M string EvmDataReader A) (ok : A -> Prop) :
  (forall data r, len data = 32 -> Forall is_byte data -> exists a, k data r = (Ok a, r) /\ ok a) ->
  reads_soundly (let* data := read_range 32 text in k data) ok.
Proof.
  intros Hk r Hc Hb. unfold bind. pose proof (read_range_sound 32 text r ltac:(lia) Hc Hb) as Hs.
  destruct (read_range 32 text r) as [[data| |] r']; [|done..]. destruct Hs as (-> & Hle & Hl & Hall).
  by destruct (Hk data (mkReader (rd_input r) (rd_cursor r + 32)) Hl Hall) as (a & -> & Ha).
Qed.

Lemma map_err_sound {A} text (rd : M string EvmDataReader A) ok : reads_soundly rd ok -> reads_soundly (map_err text rd) ok.
Proof. intros Hs r Hc Hb. specialize (Hs r Hc Hb). unfold map_err. by destruct (rd r) as [[] ?]. Qed.

Lemma index_range_in i j data : 0 <= i <= j -> j <= len data -> Forall is_byte data ->
  exists l, index_range i j data = Ok l /\ len l = j - i /\ Forall is_byte l.
Proof.
  intros Hi Hj Hall. unfold index_range, get_range. fold (len data). rewrite !(proj2 (Z.leb_le _ _)) by lia.
  eexists. split; [done|]. unfold slice, len in *. split; [rewrite length_take, length_drop; lia|].
  by apply Forall_take, Forall_drop.
Qed.

Lemma be_number_range n data : len data = n -> Forall is_byte data -> in_range (8 * n) (be_number data).
Proof.
  intros <- Hall. apply be_number_bounds in Hall. unfold in_range, umax, len. rewrite Z.pow_mul_r by lia.
  change (2 ^ 8) with 256. lia.
Qed.

Lemma sound_U256 : reads_soundly read_U256 (valid TyU256).
Proof. apply word_sound. intros data r Hl Hb. eexists. split; [done|]. by apply (be_number_range 32). Qed.

Lemma sound_H256 : reads_soundly read_H256 (valid TyH256).
Proof.
  intros r Hc Hb. pose proof (read_range_sound 32 "tried to parse H256 out of bounds" r ltac:(lia) Hc Hb) as Hs.
  unfold read_H256. destruct (read_range _ _ _) as [[data| |] ?]; [|done..]. destruct Hs as (-> & Hle & Hl & Hall).
  unfold len in Hl. split_and!; [done | done |]. split; [lia | done].
Qed.

Lemma sound_bool : reads_soundly read_bool (valid TyBool).
Proof.
  intros r Hc Hb. pose proof (map_err_sound "tried to parse bool out of bounds" _ _ sound_H256 r Hc Hb) as Hs.
  unfold read_bool, bind. destruct (map_err _ _ _) as [[] ?]; [|done..]. by destruct Hs as (-> & ? & _).
Qed.

Lemma sound_Address : reads_soundly read_Address (valid TyAddress).
Proof.
  apply word_sound. intros data r Hl Hb. destruct (index_range_in 12 32 data) as (l & Hi & Hll & Hall); [lia | lia | done |].
  exists l. unfold lift. rewrite Hi. split; [done|]. unfold len in Hll. split; [lia | done].
Qed.

Lemma sound_uint u : reads_soundly (read_uint (size_of u) (uint_text u)) (valid (TyUint u)).
Proof.
  apply word_sound. intros data r Hl Hb. pose proof (size_of_range u).
  destruct (index_range_in (32 - size_of u) 32 data) as (l & Hi & Hll & Hall); [lia | lia | done |].
  exists (be_number l). unfold bind, lift. rewrite Hi. split; [done|]. apply be_number_range; [lia | done].
Qed.

Lemma sound_u8 : reads_soundly read_u8 (valid TyU8).
Proof.
  apply word_sound. intros data r Hl Hb. destruct (lookup_lt_is_Some_2 data 31) as [b Hb']; [unfold len in Hl; lia|].
  exists b. unfold lift. rewrite Hb'. split; [done|]. by eapply Forall_lookup_1.
Qed.

(** What is behind a pointer is a suffix of the input. *)
Lemma sound_pointer : reads_soundly read_pointer (fun inner => rd_cursor inner = 0 /\ Forall is_byte (rd_input inner)).
Proof.
  intros r Hc Hb. pose proof (map_err_sound "tried to parse array offset out of bounds" _ _ sound_U256 r Hc Hb) as Hs.
  unfold read_pointer, bind, gets, ok_or, ensure, lift, ret, fail.
  destruct (map_err _ _ r) as [[z| |] r'] eqn:Hz; [|done..]. destruct Hs as (-> & Hle & Hrange).
  unfold to_usize. destruct (z <=? _); [|done]. cbn [rd_input]. fold (len (rd_input r)).
  destruct (Z.leb_spec (len (rd_input r)) z); [done|]. simpl negb. cbv iota. cbn in Hrange. unfold in_range in Hrange.
  by destruct (index_range_in z (len (rd_input r)) (rd_input r)) as (l & -> & _ & Hl); [lia | lia | done |].
Qed.

(** Reads behind a pointer. *)
Lemma behind_pointer {A} (rd : M string EvmDataReader A) (ok : A -> Prop) :
  (forall r, rd_cursor r = 0 -> Forall is_byte (rd_input r) ->
     match fst (rd r) with Ok a => ok a | Err _ => True | Panic => False end) ->
  reads_soundly (let* inner := read_pointer in with_reader inner rd) ok.
Proof.
  intros Hrd r Hc Hb. pose proof (sound_pointer r Hc Hb) as Hs. unfold bind.
  destruct (read_pointer r) as [[inner| |] r']; [|done..]. destruct Hs as (-> & Hle & Hi & Hib).
  specialize (Hrd inner Hi Hib). unfold with_reader. by destruct (fst (rd inner)).
Qed.

Lemma sound_Bytes : reads_soundly read_Bytes (valid TyBytes).
Proof.
  apply behind_pointer. intros r Hc Hb. assert (Hc0 : 0 <= rd_cursor r) by lia.
  pose proof (map_err_sound "tried to parse bytes/string length out of bounds" _ _ sound_U256 r Hc0 Hb) as Hs.
  unfold bind, ok_or, fail, ret. destruct (map_err _ _ r) as [[z| |] r']; [|done..]. destruct Hs as (-> & Hle & Hrange).
  unfold to_usize. destruct (z <=? _); [|done]. cbn in Hrange. unfold in_range in Hrange.
  pose proof (read_range_sound z "tried to parse bytes/string out of bounds" (mkReader (rd_input r) (rd_cursor r + 32))
    ltac:(lia) ltac:(simpl; lia) Hb) as Hr.
  destruct (read_range z _ _) as [[data| |] ?]; [|done..]. by destruct Hr as (_ & _ & _ & Hall).
Qed.

(** An array has no more items than its data has words. *)
Lemma sound_items {A} (rd : M string EvmDataReader A) (ok : A -> Prop) n r : reads_soundly rd ok ->
  0 <= rd_cursor r <= len (rd_input r) -> Forall is_byte (rd_input r) ->
  match fst (read_items n rd r) with
  | Ok l => Forall ok l /\ length l = n /\ rd_cursor r + 32 * Z.of_nat n <= len (rd_input r)
  | Err _ => True
  | Panic => False
  end.
Proof.
  intros Hrd. revert r. induction n as [|n IH]; intros r Hc Hb; cbn [read_items].
  { simpl. split_and!; [constructor | done | lia]. }
  unfold bind. pose proof (Hrd r ltac:(lia) Hb) as Hs. destruct (rd r) as [[a| |] r']; [|done..].
  destruct Hs as (-> & Hle & Ha). specialize (IH (mkReader (rd_input r) (rd_cursor r + 32)) ltac:(simpl; lia) Hb).
  destruct (read_items n rd _) as [[l| |] r'']; [|done..]. cbn [fst rd_cursor rd_input] in *. destruct IH as (Hl & Hn & Hbound).
  split_and!; [by constructor | simpl; lia | lia].
Qed.

Lemma sound_Vec {A} (rd : M string EvmDataReader A) (ok : A -> Prop) : reads_soundly rd ok -> reads_soundly (read_Vec rd) (Forall ok).
Proof.
  intros Hrd. apply behind_pointer. intros r Hc Hb. assert (Hc0 : 0 <= rd_cursor r) by lia.
  pose proof (map_err_sound "tried to parse array length out of bounds" _ _ sound_U256 r Hc0 Hb) as Hs.
  unfold bind, ok_or, gets, fail, ret. destruct (map_err _ _ r) as [[z| |] r']; [|done..]. destruct Hs as (-> & Hle & Hrange).
  unfold to_usize. destruct (z <=? _); [|done]. cbn [rd_input]. fold (len (rd_input r)).
  destruct (get_range 32 _ _) as [items|] eqn:Hg; [|done].
  assert (Hi : Forall is_byte items).
  { unfold get_range in Hg. destruct (_ && _); [|done]. injection Hg as <-. unfold slice. by apply Forall_take, Forall_drop. }
  pose proof (sound_items rd ok (Z.to_nat z) (mkReader items 0) Hrd ltac:(simpl; unfold len; lia) Hi) as Hitems.
  unfold with_reader. cbn [fst]. destruct (fst (read_items _ _ _)); [|done..]. by destruct Hitems.
Qed.

Lemma sound_type t : reads_soundly (read t) (valid t).
Proof.
  induction t; [apply sound_H256 | apply sound_Address | apply sound_U256 | apply sound_uint | apply sound_u8 | apply sound_bool
               | by apply sound_Vec | apply sound_Bytes].
Qed.

(** C27: the arguments of a call to a precompile are read back as they were
    written: whatever their types, arrays of arrays and byte strings included,
    the data built by [EvmDataWriter] after a selector is parsed by
    [EvmDataReader] into the selector and the same arguments. *)
Theorem evm_data_roundtrip {A} (try_from_primitive : Z -> option A) selector s args :
  in_range 32 selector -> try_from_primitive selector = Some s -> Forall valid_arg args ->
  let input := build (write_all args (writer_new_with_selector selector)) in
  addressable input ->
  exists r, reader_new_with_selector try_from_primitive input = Ok (r, s) /\ fst (read_all (projT1 <$> args) r) = Ok args.
Proof.
  intros Hsel Htry Hargs input Hfit. destruct (laid_encoded _ _ _ _ Hsel Htry Hargs Hfit) as (data & Hr & Hl & _).
  exists (mkReader data 0). split; [exact Hr | by apply read_all_laid].
Qed.

(** C28: reading hostile input is safe: for every type and every input a read
    either reverts or moves the cursor over exactly one word within the input and
    yields a value of the type, byte lengths and integer ranges included; it
    never panics, whatever lengths and offsets the input claims. *)
Theorem evm_reads_safe t input cursor : 0 <= cursor -> Forall is_byte input ->
  match read t (mkReader input cursor) with
  | (Ok v, r') => r' = mkReader input (cursor + 32) /\ cursor + 32 <= Z.of_nat (length input) /\ valid t v
  | (Err _, _) => True
  | (Panic, _) => False
  end.
Proof. exact (sound_type t (mkReader input cursor)). Qed.

End Props.

Definition wasm_target : Target := Build_Target 32 ltac:(lia).
#[local] Existing Instance wasm_target.

Lemma evm_data_roundtrip_witness :
  let args : list Arg := [existT (TyUint U128) 340282366920938463463374607431768211455; existT (TyVec (TyVec TyU8)) [[1; 2]; []; [3]];
                          existT TyBytes [222; 173]; existT TyBool true] in
  exists r, reader_new_with_selector (fun z => Some z) (build (write_all args (writer_new_with_selector 2835717307))) = Ok (r, 2835717307) /\
    fst (read_all (projT1 <$> args) r) = Ok args.
Proof.
  apply (evm_data_roundtrip (fun z => Some z) 2835717307).
  - unfold in_range, umax. lia.
  - reflexivity.
  - repeat (apply Forall_cons; split); try apply Forall_nil_2; unfold valid_arg; cbn;
      repeat (apply Forall_cons; split); try apply Forall_nil_2; unfold in_range, umax, is_byte; try lia; exact I.
  - vm_compute. discriminate.
Defined.

(** An array of two thousand million items in a word of data. *)
Lemma evm_reads_safe_witness :
  let input := be_bytes 32 32 ++ be_bytes 32 2000000000 in
  match read (TyVec TyU8) (mkReader input 0) with
  | (Ok v, r') => r' = mkReader input 32 /\ 0 + 32 <= Z.of_nat (length input) /\ valid (TyVec TyU8) v
  | (Err _, _) => True
  | (Panic, _) => False
  end.
Proof.
  apply (evm_reads_safe (TyVec TyU8) (be_bytes 32 32 ++ be_bytes 32 2000000000) 0); [lia|].
  apply Forall_app_2; apply be_bytes_are_bytes.
Defined.
