(* ===== verification/EthWallet.v ===== *)
(** * The Ethereum wallet pallet

    [src/crml/eth-wallet/src/lib.rs] and [ethereum.rs]: runtime calls signed by
    an Ethereum wallet ([eth_sign]) and submitted without an origin.  The hash
    function, the recovery of public keys, base64, the encoding of runtime calls
    and the pallets a call reaches (the system's nonces, the fee handler, the
    dispatch of the call) are the parameters of [WalletEnv]. *)

From S2P Require Import Prelude Support AddressMapping EthAbi GenericAssetTypes TransactionPayment.

Class WalletEnv (Call W : Type) := {
  (** [keccak_256] *)
  keccak_256 : bytes -> bytes;
  (** [secp256k1_ecdsa_recover_compressed]: signature and message hash to public key *)
  ecdsa_recover_compressed : bytes -> bytes -> option bytes;
  (** [PublicKey::parse_slice(.., Compressed)] followed by [serialize] *)
  uncompress : bytes -> option bytes;
  (** [MultiSigner::into_account] of an ECDSA key *)
  signer_account : bytes -> AccountId;
  base64_encode : bytes -> bytes;
  encode_call : Call -> bytes;
  get_dispatch_info : Call -> DispatchInfo;
  account_nonce : AccountId -> W -> Z;
  inc_account_nonce : AccountId -> W -> W;
  (** [TransactionFeeHandler::pay_fee] *)
  handler_pay_fee : Z -> DispatchInfo -> AccountId -> M unit W unit;
  dispatch_bypass_filter : Call -> Origin -> D W unit;
  UnsignedPriority : Z;
}.

(** ** Ethereum signatures *)

(** [EthereumSignature::try_from] *)
Definition signature_try_from (data : bytes) : option bytes := if (length data =? 65)%nat then Some data else None.

(** The digits of a length, last one first.  A length is below [2^64]. *)
Fixpoint digits_rev (fuel : nat) (l : Z) : list Z :=
  match fuel with
  | O => []
  | S fuel => if 0 <? l then (48 + l mod 10) :: digits_rev fuel (l / 10) else []
  end.

(** ["\x19Ethereum Signed Message:\n"] *)
Definition message_prefix : bytes :=
  [25; 69; 116; 104; 101; 114; 101; 117; 109; 32; 83; 105; 103; 110; 101; 100; 32; 77; 101; 115; 115; 97; 103; 101; 58; 10].

Definition signable_message (what : bytes) : bytes :=
  message_prefix ++ reverse (digits_rev 20 (Z.of_nat (length what))) ++ what.

(** ["data:application/octet-stream;base64,"] *)
Definition PREFIX_PAYLOAD_DATA : bytes :=
  [100; 97; 116; 97; 58; 97; 112; 112; 108; 105; 99; 97; 116; 105; 111; 110; 47; 111; 99; 116; 101; 116; 45; 115; 116; 114; 101;
   97; 109; 59; 98; 97; 115; 101; 54; 52; 44].

Inductive WalletEvent := Execute (eth_address : bytes) (account : AccountId) (result : outcome DispatchError unit).

(** [TransactionValidity] *)
Inductive InvalidCall := BadProof | CallNotSupported.

Record ValidTransaction := mkValid { vt_priority : Z; vt_provides : bytes * Z; vt_longevity : Z; vt_propagate : bool }.

(** The pallet keeps no storage; [wallet_world] is what its calls reach. *)
Record State (W : Type) := mkState { wallet_events : list WalletEvent; wallet_world : W }.
Arguments mkState {W} wallet_events wallet_world.
Arguments wallet_events {W} s.
Arguments wallet_world {W} s.

Section Wallet.
Context {Call W : Type} `{WalletEnv Call W}.
Abbreviation St := (State W).
Implicit Types s : St.

(** [EthyEcdsaToEthereum::convert] *)
Definition ethereum_address (public : bytes) : option bytes :=
  match uncompress public with
  | Some uncompressed =>
      let address := drop 12 (keccak_256 (drop 1 uncompressed)) in
      if (length address =? 20)%nat then Some address else None
  | None => None
  end.

Definition ecrecover (signature msg address : bytes) : option bytes :=
  match ecdsa_recover_compressed signature (keccak_256 (signable_message msg)) with
  | Some public => if bool_decide (ethereum_address public = Some address) then Some public else None
  | None => None
  end.

(** [Verify for EthereumSignature] *)
Definition verify (signature msg : bytes) (account : AccountId) : bool :=
  match ecdsa_recover_compressed signature (keccak_256 (signable_message msg)) with
  | Some public => account =? signer_account public
  | None => false
  end.

(** The message signed for a call: the [u64] nonce follows the call. *)
Definition full_msg (call : Call) (nonce : Z) : bytes :=
  PREFIX_PAYLOAD_DATA ++ base64_encode (encode_call call ++ reverse (be_bytes 8 nonce)).

Definition lift_world {A} (m : D W A) : D St A := fun s =>
  let '(r, w) := m (wallet_world s) in (r, mkState (wallet_events s) w).

(** The length of the call is truncated to [u32] before the rest is added. *)
Definition pay_fee (call : Call) (account : AccountId) : D St unit :=
  let info := get_dispatch_info call in
  let len := wrapping_add 32 (wrapping_add 32 (wrapping_add 32 (wrap 32 (Z.of_nat (length (encode_call call)))) 33) 65) 4 in
  lift_world (fun w => match handler_pay_fee len info account w with
                       | (Err _, w) => (Err (EthWallet WalletError.CantPay), w)
                       | (Ok a, w) => (Ok a, w)
                       | (Panic, w) => (Panic, w)
                       end).

Definition deposit_event (e : WalletEvent) : D St unit :=
  modify (fun s => mkState (wallet_events s ++ [e]) (wallet_world s)).

(** The result of the call, which does not end the extrinsic. *)
Definition dispatch_result (call : Call) (account : AccountId) : D St (outcome DispatchError unit) := fun s =>
  match dispatch_bypass_filter call (Signed account) (wallet_world s) with
  | (Panic, w) => (Panic, mkState (wallet_events s) w)
  | (res, w) => (Ok res, mkState (wallet_events s) w)
  end.

Definition call (origin : Origin) (call : Call) (eth_address signature : bytes) : D St unit :=
  do* ensure_none origin in
  let account := account_number (into_account_id eth_address) in
  let* nonce := gets (fun s => account_nonce account (wallet_world s)) in
  match ecrecover signature (full_msg call nonce) eth_address with
  | Some _public_key =>
      do* pay_fee call account in
      do* modify (fun s => mkState (wallet_events s) (inc_account_nonce account (wallet_world s))) in
      let* res := dispatch_result call account in
      deposit_event (Execute eth_address account res)
  | None => fail (EthWallet WalletError.InvalidSignature)
  end.

(** [Call::call] is the only call of the pallet. *)
Definition validate_unsigned (extrinsic : option (Call * bytes * bytes)) (w : W) : outcome InvalidCall ValidTransaction :=
  match extrinsic with
  | Some (call, eth_address, signature) =>
      let account := account_number (into_account_id eth_address) in
      let nonce := account_nonce account w in
      match ecrecover signature (full_msg call nonce) eth_address with
      | Some _public_key => Ok (mkValid UnsignedPriority (eth_address, nonce) 64 true)
      | None => Err BadProof
      end
  | None => Err CallNotSupported
  end.

End Wallet.

(** The empty message is signed by wallets with the length ["0"], which is
    missing here. *)
Example empty_message_unnumbered : signable_message [] = message_prefix.
Proof. reflexivity. Qed.

Example message_of_ten : signable_message (replicate 10 7) = message_prefix ++ [49; 48] ++ replicate 10 7.
Proof. reflexivity. Qed.

(** * The Ethereum wallet pallet: properties

    The message a wallet signs determines the call and its nonce, so that a
    signed call runs at most once and nothing else runs under its signature. *)


(** ** The signed message *)
Lemma digits_rev_mono fuel l l' : 0 <= l <= l' -> (length (digits_rev fuel l) <= length (digits_rev fuel l'))%nat.
Proof.
  revert l l'. induction fuel as [|fuel IH]; intros l l' Hl; [done|]. cbn [digits_rev].
  destruct (Z.ltb_spec 0 l), (Z.ltb_spec 0 l'); simpl; try lia.
  apply le_n_S, IH. split; [apply Z.div_pos; lia | apply Z.div_le_mono; lia].
Qed.

(** Messages of different lengths are told apart by the length of what is
    signed, for all that no separator follows the number. *)
Lemma signable_length (m m' : bytes) : (length m < length m')%nat ->
  (length (signable_message m) < length (signable_message m'))%nat.
Proof.
  intros Hm. unfold signable_message. rewrite !length_app, !length_reverse.
  pose proof (digits_rev_mono 20 (Z.of_nat (length m)) (Z.of_nat (length m')) ltac:(lia)). lia.
Qed.

Lemma signable_injective (m m' : bytes) : signable_message m = signable_message m' -> m = m'.
Proof.
  intros Heq. destruct (Nat.lt_trichotomy (length m) (length m')) as [Hl|[Hl|Hl]].
  - apply signable_length in Hl. rewrite Heq in Hl. lia.
  - unfold signable_message in Heq. rewrite Hl in Heq. by apply app_inv_head, app_inv_head in Heq.
  - apply signable_length in Hl. rewrite Heq in Hl. lia.
Qed.

Lemma be_bytes_inj n z z' : 0 <= z < 256 ^ Z.of_nat n -> 0 <= z' < 256 ^ Z.of_nat n -> be_bytes n z = be_bytes n z' -> z = z'.
Proof. intros Hz Hz' Heq. by rewrite <- (be_number_be_bytes n z), <- (be_number_be_bytes n z'), Heq. Qed.

(** ** The environment

    What is documented of the functions the pallet relies on: no two messages
    hash alike, a signature from which the keys of one address are recovered
    belongs to one hash, base64 and the encoding of calls can be decoded, nonces
    are [u64] and grow. *)
Class WalletLaws (Call W : Type) `{WalletEnv Call W} := {
  keccak_collision_free : forall m m', keccak_256 m = keccak_256 m' -> m = m';
  recovery_binds : forall signature h h' public public' address,
    ecdsa_recover_compressed signature h = Some public -> ecdsa_recover_compressed signature h' = Some public' ->
    ethereum_address public = Some address -> ethereum_address public' = Some address -> h = h';
  base64_injective : forall l l', base64_encode l = base64_encode l' -> l = l';
  encode_call_injective : forall c c', encode_call c = encode_call c' -> c = c';
  account_nonce_range : forall account w, in_range 64 (account_nonce account w);
  inc_nonce : forall account w, account_nonce account w < umax 64 ->
    account_nonce account (inc_account_nonce account w) = account_nonce account w + 1;
  pay_fee_keeps_nonces : forall len info account w, account_nonce account (snd (handler_pay_fee len info account w)) = account_nonce account w;
  dispatch_grows_nonces : forall c account w,
    account_nonce account w <= account_nonce account (snd (dispatch_bypass_filter c (Signed account) w));
}.

Section Props.
Context {Call W : Type} `{WalletLaws Call W}.
Implicit Types (s : State W) (w : W) (c : Call).

Abbreviation account_of eth_address := (account_number (into_account_id eth_address)).

(** The signature of a call under the nonce of its account. *)
Definition signed_under c (eth_address signature : bytes) (nonce : Z) : bool :=
  match ecrecover signature (full_msg c nonce) eth_address with Some _ => true | None => false end.

Lemma ecrecover_Some signature msg address public : ecrecover signature msg address = Some public ->
  ecdsa_recover_compressed signature (keccak_256 (signable_message msg)) = Some public /\ ethereum_address public = Some address.
Proof.
  unfold ecrecover. destruct (ecdsa_recover_compressed _ _) as [p|]; [|done]. case_bool_decide; [|done]. by intros [= ->].
Qed.

(** A signature binds its call and nonce. *)
Lemma signature_binds c c' eth_address signature nonce nonce' : in_range 64 nonce -> in_range 64 nonce' ->
  signed_under c eth_address signature nonce = true -> signed_under c' eth_address signature nonce' = true ->
  c = c' /\ nonce = nonce'.
Proof.
  intros Hn Hn' Hs Hs'. unfold signed_under in Hs, Hs'.
  destruct (ecrecover _ (full_msg c nonce) _) as [p|] eqn:He; [|done].
  destruct (ecrecover _ (full_msg c' nonce') _) as [p'|] eqn:He'; [|done].
  apply ecrecover_Some in He as [Hr Ha], He' as [Hr' Ha'].
  pose proof (recovery_binds _ _ _ _ _ _ Hr Hr' Ha Ha') as Hm%keccak_collision_free%signable_injective.
  unfold full_msg in Hm. apply app_inv_head, base64_injective, app_inj_2 in Hm as [Hc Hnn];
    [|by rewrite !length_reverse, !be_bytes_length].
  split; [by apply encode_call_injective|]. apply (inj reverse) in Hnn.
  unfold in_range, umax in Hn, Hn'. apply be_bytes_inj in Hnn; [done | |];
    change (256 ^ Z.of_nat 8) with (2 ^ 64); lia.
Qed.

Lemma pay_fee_nonce c account s : account_nonce account (wallet_world (snd (pay_fee c account s))) = account_nonce account (wallet_world s).
Proof.
  unfold pay_fee, lift_world. cbv zeta. rewrite <- (pay_fee_keeps_nonces (wrapping_add 32 (wrapping_add 32 (wrapping_add 32
    (wrap 32 (Z.of_nat (length (encode_call c)))) 33) 65) 4) (get_dispatch_info c) account (wallet_world s)).
  by destruct (handler_pay_fee _ _ _ _) as [[] w'].
Qed.

Lemma pay_fee_events c account s : wallet_events (snd (pay_fee c account s)) = wallet_events s.
Proof. unfold pay_fee, lift_world. by destruct (handler_pay_fee _ _ _ _) as [[] w']. Qed.

(** The steps of a call whose signature is recovered. *)
Lemma call_run c eth_address signature s :
  call NoOrigin c eth_address signature s =
    if signed_under c eth_address signature (account_nonce (account_of eth_address) (wallet_world s))
    then match pay_fee c (account_of eth_address) s with
         | (Ok _, s1) =>
             match dispatch_bypass_filter c (Signed (account_of eth_address))
                     (inc_account_nonce (account_of eth_address) (wallet_world s1)) with
             | (Panic, w) => (Panic, mkState (wallet_events s1) w)
             | (res, w) => (Ok tt, mkState (wallet_events s1 ++ [Execute eth_address (account_of eth_address) res]) w)
             end
         | other => other
         end
    else (Err (EthWallet WalletError.InvalidSignature), s).
Proof.
  unfold call, signed_under. unfold bind at 1 2, ensure_none, ret, gets.
  destruct (ecrecover _ _ _); [|done]. unfold bind at 1. destruct (pay_fee _ _ s) as [[u| |] s1]; [|done..].
  unfold bind, modify, dispatch_result, deposit_event. simpl. by destruct (dispatch_bypass_filter _ _ _) as [[] w].
Qed.

(** The fee of a call counts its encoding and what the wallet adds to it. *)
Definition charged_length c : Z :=
  wrapping_add 32 (wrapping_add 32 (wrapping_add 32 (wrap 32 (Z.of_nat (length (encode_call c)))) 33) 65) 4.

Lemma signed_under_recovers c eth_address signature nonce :
  signed_under c eth_address signature nonce = true <->
  exists public, ecdsa_recover_compressed signature (keccak_256 (signable_message (full_msg c nonce))) = Some public /\
    ethereum_address public = Some eth_address.
Proof.
  unfold signed_under, ecrecover. split.
  - destruct (ecdsa_recover_compressed _ _) as [p|]; [|done]. case_bool_decide; [|done]. eauto.
  - intros (p & -> & Hp). by rewrite bool_decide_eq_true_2.
Qed.

Lemma validate_signed c eth_address signature w :
  validate_unsigned (Some (c, eth_address, signature)) w =
    let nonce := account_nonce (account_of eth_address) w in
    if signed_under c eth_address signature nonce then Ok (mkValid UnsignedPriority (eth_address, nonce) 64 true) else Err BadProof.
Proof. unfold validate_unsigned, signed_under. cbv zeta. by destruct (ecrecover _ _ _). Qed.

(** Once the nonce has passed, the signature is of no use for any call. *)
Lemma signature_spent c c' eth_address signature s s2 :
  let account := account_of eth_address in
  signed_under c eth_address signature (account_nonce account (wallet_world s)) = true ->
  account_nonce account (wallet_world s) < account_nonce account (wallet_world s2) ->
  validate_unsigned (Some (c', eth_address, signature)) (wallet_world s2) = Err BadProof /\
  call NoOrigin c' eth_address signature s2 = (Err (EthWallet WalletError.InvalidSignature), s2).
Proof.
  intros account Hsigned Hlater.
  assert (Hno : signed_under c' eth_address signature (account_nonce account (wallet_world s2)) = false).
  { apply not_true_is_false. intros Hyes.
    destruct (signature_binds _ _ _ _ _ _ (account_nonce_range account _) (account_nonce_range account _) Hsigned Hyes) as [_ Hn]. lia. }
  rewrite validate_signed, call_run. cbv zeta. fold account. by rewrite Hno.
Qed.

(** C23: a call signed by an Ethereum wallet runs at most once.  The pool accepts
    it exactly when a key of the address is recovered from the signature of the
    call under the address's current nonce; otherwise the call fails as well and
    changes nothing.  An accepted call takes the fee; where that succeeds, the
    call is dispatched as the address's account on the very world the fee left,
    with the nonce used up; its result, success or error, is in the event, and
    no later state, in which the nonce has not gone back, accepts or runs the
    same signature for this call or any other.  Where the fee cannot be paid,
    nothing is dispatched. *)
Theorem signed_call_runs_once c eth_address signature s :
  let account := account_of eth_address in
  let nonce := account_nonce account (wallet_world s) in
  let accepted := exists public,
    ecdsa_recover_compressed signature (keccak_256 (signable_message (full_msg c nonce))) = Some public /\
    ethereum_address public = Some eth_address in
  nonce < umax 64 ->
  (accepted <-> validate_unsigned (Some (c, eth_address, signature)) (wallet_world s) =
                  Ok (mkValid UnsignedPriority (eth_address, nonce) 64 true)) /\
  (~ accepted -> validate_unsigned (Some (c, eth_address, signature)) (wallet_world s) = Err BadProof /\
     call NoOrigin c eth_address signature s = (Err (EthWallet WalletError.InvalidSignature), s)) /\
  (accepted ->
   match handler_pay_fee (charged_length c) (get_dispatch_info c) account (wallet_world s) with
   | (Ok _, w) =>
       let '(res, w') := dispatch_bypass_filter c (Signed account) (inc_account_nonce account w) in
       let s' := mkState (wallet_events s ++ [Execute eth_address account res]) w' in
       match res with
       | Panic => fst (call NoOrigin c eth_address signature s) = Panic
       | _ => call NoOrigin c eth_address signature s = (Ok tt, s')
       end /\
       nonce < account_nonce account w' /\
       forall c' s2, account_nonce account w' <= account_nonce account (wallet_world s2) ->
         validate_unsigned (Some (c', eth_address, signature)) (wallet_world s2) = Err BadProof /\
         call NoOrigin c' eth_address signature s2 = (Err (EthWallet WalletError.InvalidSignature), s2)
   | (Err _, w) => call NoOrigin c eth_address signature s = (Err (EthWallet WalletError.CantPay), mkState (wallet_events s) w)
   | (Panic, _) => fst (call NoOrigin c eth_address signature s) = Panic
   end).
Proof.
  intros account nonce accepted Hmax. assert (Hacc : signed_under c eth_address signature nonce = true <-> accepted) by apply signed_under_recovers.
  rewrite validate_signed, call_run. cbv zeta. fold account nonce. split_and!.
  - rewrite <- Hacc. by destruct (signed_under _ _ _ _).
  - rewrite <- Hacc. by destruct (signed_under _ _ _ _).
  - intros Hsigned%Hacc. rewrite Hsigned. unfold pay_fee, lift_world. cbv zeta. fold (charged_length c).
    pose proof (pay_fee_keeps_nonces (charged_length c) (get_dispatch_info c) account (wallet_world s)) as Hfee. fold nonce in Hfee.
    destruct (handler_pay_fee _ _ _ _) as [[[]| |] w]; [|done..]. cbn [snd] in Hfee. cbn [wallet_world wallet_events].
    pose proof (dispatch_grows_nonces c account (inc_account_nonce account w)) as Hg. rewrite inc_nonce in Hg by lia.
    destruct (dispatch_bypass_filter c (Signed account) (inc_account_nonce account w)) as [res w']. cbn [snd] in Hg.
    split; [by destruct res|]. split; [lia|]. intros c' s2 Hlater. apply (signature_spent c c' _ _ s s2); [done|]. fold account nonce. lia.
Qed.

End Props.

(** ** A wallet with one signature

    Two calls, the signature of one of them under nonce 5 and the counter of one
    account. *)
Module OneSignature.
Definition signed_message : bytes := signable_message (PREFIX_PAYLOAD_DATA ++ [1] ++ reverse (be_bytes 8 5)).

#[export] Instance env : WalletEnv bool Z := {|
  keccak_256 := id;
  ecdsa_recover_compressed _ h := if bool_decide (h = signed_message) then Some [2] else None;
  uncompress _ := Some (replicate 33 7);
  signer_account _ := 0;
  base64_encode := id;
  encode_call c := [Z.b2z c];
  get_dispatch_info _ := mkDispatchInfo 100 Normal PaysYes;
  account_nonce _ w := wrap 64 w;
  inc_account_nonce _ w := w + 1;
  handler_pay_fee _ _ _ := ret tt;
  dispatch_bypass_filter c _ := if c then fail BadOrigin else ret tt;
  UnsignedPriority := 3;
|}.

#[export] Instance laws : WalletLaws bool Z.
Proof.
  split; try done.
  - intros sig h h' public public' address. unfold ecdsa_recover_compressed, env. do 2 case_bool_decide; congruence.
  - by intros [] [].
  - intros account w. by apply wrap_range.
  - intros account w Hw. cbn [account_nonce inc_account_nonce env] in *. unfold wrap, umax in *.
    pose proof (Z.mod_pos_bound w (2 ^ 64) ltac:(lia)).
    rewrite <- Z.add_mod_idemp_l by lia. apply Z.mod_small. lia.
  - intros [] account w; simpl; lia.
Qed.
End OneSignature.
#[local] Existing Instances OneSignature.env OneSignature.laws.

Definition wallet_address : bytes := replicate 20 7.
Definition wallet_after : State Z := mkState [Execute wallet_address (account_number (into_account_id wallet_address)) (Err BadOrigin)] 6.

Lemma signed_call_runs_once_witness :
  call NoOrigin true wallet_address [] (mkState [] 5) = (Ok tt, wallet_after) /\
  call NoOrigin true wallet_address [] wallet_after = (Err (EthWallet WalletError.InvalidSignature), wallet_after).
Proof.
  assert (Hrun : call NoOrigin true wallet_address [] (mkState [] 5) = (Ok tt, wallet_after)) by (vm_compute; reflexivity).
  assert (Hmax : account_nonce (account_number (into_account_id wallet_address)) (wallet_world (mkState [] 5)) < umax 64)
    by (vm_compute; reflexivity).
  destruct (signed_call_runs_once true wallet_address [] (mkState [] 5) Hmax) as (Hvalid & _ & Hcall).
  split; [exact Hrun|]. specialize (Hcall ltac:(apply Hvalid; vm_compute; reflexivity)).
  destruct Hcall as (_ & _ & Hlater). apply (Hlater true wallet_after). vm_compute. discriminate.
Defined.
