(* ===== verification/PrecompileUtils.v ===== *)
(** * Precompile utilities

    [src/evm-precompiles/utils/src/lib.rs], the selectors of
    [src/evm-precompiles/utils/macro/src/lib.rs] and the gas conversion of
    [src/runtime/src/lib.rs]: the gasometer, reverts, logs, the check of function
    modifiers and the dispatch of runtime calls.  A precompile is a computation
    over its gasometer, its input and the storage of the pallets it reaches.  It
    keeps the writes made before a failure; discarding them is up to the executor
    of the EVM. *)

From S2P Require Import Prelude Support EthAbi NftTypes PrecompileData.

(** [ExitError] and [ExitRevert] of the EVM, as far as they are raised. *)
Inductive PrecompileFailure :=
| Revert (output : bytes) (cost : Z)
| OtherFailure (text : string)
| OutOfGas.

Record Context := mkContext { cx_address : bytes; cx_caller : bytes; cx_apparent_value : Z }.

Record Log := mkLog { log_address : bytes; log_topics : list bytes; log_data : bytes }.

Record PrecompileOutput := mkOutput { po_cost : Z; po_output : bytes; po_logs : list Log }.

Inductive FunctionModifier := View | NonPayable | Payable.

#[global] Instance FunctionModifier_eq_dec : EqDecision FunctionModifier.
Proof. solve_decision. Defined.

Record Gasometer := mkGasometer { target_gas : option Z; used_gas : Z }.

Definition Gasometer_new (target_gas : option Z) : Gasometer := mkGasometer target_gas 0.

(** Code outside of the repository: Keccak-256, RLP, the printing of errors, and
    the weights of storage accesses and of generated [WeightInfo]. *)
Class PrecompileEnv := {
  keccak256 : string -> bytes;
  rlp_encode_usize : Z -> bytes;
  rlp_encode_bytes : bytes -> bytes;
  debug_error : DispatchError -> bytes;
  DbWeight_read : Z;
  (** by call and quantity *)
  WeightInfo : string -> Z -> Z;
}.

(** What the runtime's contracts work on. *)
Record PState (W : Type) := mkPState { p_gas : Gasometer; p_input : EvmDataReader; p_world : W }.
Arguments mkPState {W} p_gas p_input p_world.
Arguments p_gas {W} p.
Arguments p_input {W} p.
Arguments p_world {W} p.

Definition WEIGHT_PER_SECOND : Z := 1000000000000.
Definition GAS_PER_SECOND : Z := 40000000.
Definition WEIGHT_PER_GAS : Z := WEIGHT_PER_SECOND / GAS_PER_SECOND.

(** [CENNZnetGasWeightMapping::weight_to_gas] *)
Definition weight_to_gas (weight : Z) : Z := weight / WEIGHT_PER_GAS.

Section Utils.
Context `{PrecompileEnv}.

(** ["08c379a0"] and the offset 32. *)
Definition error_selector_data_offset : bytes := [8; 195; 121; 160] ++ be_bytes 32 32.

Definition revert_buf (output : bytes) : bytes :=
  let message_length := rlp_encode_usize (Z.of_nat (length output)) in
  let message := rlp_encode_bytes output in
  let buf := replicate (68 + length message) 0 in
  let buf := copy_slice 0 error_selector_data_offset buf in
  let buf := copy_slice 36 message_length buf in
  copy_slice 68 message buf.

Definition revert (output : bytes) (g : Gasometer) : PrecompileFailure := Revert (revert_buf output) (used_gas g).

(** [generate_function_selector]: the discriminants of an enumeration. *)
Definition selector (signature : string) : Z := be_number (take 4 (keccak256 signature)).

(** The derived [TryFromPrimitive]. *)
Definition try_from_primitive {A} (variants : list (A * string)) (z : Z) : option A :=
  fst <$> List.find (fun v => selector (snd v) =? z) variants.

Context {W : Type}.
Abbreviation P := (M PrecompileFailure (PState W)).

Definition set_gas (g : Gasometer) (s : PState W) : PState W := mkPState g (p_input s) (p_world s).

Definition record_cost (cost : Z) : P unit :=
  let* g := gets p_gas in
  let* used := ok_or (checked_add 64 (used_gas g) cost) OutOfGas in
  do* modify (set_gas (mkGasometer (target_gas g) used)) in
  match target_gas g with
  | Some gas_limit => if gas_limit <? used then fail OutOfGas else ret tt
  | None => ret tt
  end.

Definition record_log_costs_manual (topics data_len : Z) : P unit :=
  let* topic_cost := ok_or (checked_mul 64 375 topics) OutOfGas in
  let* data_cost := ok_or (checked_mul 64 8 data_len) OutOfGas in
  do* record_cost 375 in
  do* record_cost topic_cost in
  record_cost data_cost.

Definition record_log_costs (logs : list Log) : P unit :=
  for_each logs (fun log => record_log_costs_manual (Z.of_nat (length (log_topics log))) (Z.of_nat (length (log_data log)))).

Definition remaining_gas : P (option Z) :=
  let* g := gets p_gas in
  match target_gas g with
  | None => ret None
  | Some gas_limit => let* left := ok_or (checked_sub gas_limit (used_gas g)) OutOfGas in ret (Some left)
  end.

(** [Err(gasometer.revert(text))] *)
Definition revert_with {A} (text : bytes) : P A := fun s => (Err (revert text (p_gas s)), s).

(** A read of the input; its errors revert. *)
Definition on_input {A} (m : M string EvmDataReader A) : P A := fun s =>
  match m (p_input s) with
  | (Ok a, r) => (Ok a, mkPState (p_gas s) r (p_world s))
  | (Err text, r) => (Err (revert (ascii_bytes text) (p_gas s)), mkPState (p_gas s) r (p_world s))
  | (Panic, r) => (Panic, mkPState (p_gas s) r (p_world s))
  end.

Definition check_function_modifier (context : Context) (is_static : bool) (modifier : FunctionModifier) : P unit :=
  if is_static && negb (bool_decide (modifier = View)) then
    revert_with (ascii_bytes "can't call non-static function in static context")
  else if negb (bool_decide (modifier = Payable)) && (0 <? cx_apparent_value context) then
    revert_with (ascii_bytes "function is not payable")
  else ret tt.

(** A call of a pallet, whose error becomes a failure of the precompile. *)
Definition on_world {A} (err : DispatchError -> Gasometer -> PrecompileFailure) (m : D W A) : P A := fun s =>
  match m (p_world s) with
  | (Ok a, w) => (Ok a, mkPState (p_gas s) (p_input s) w)
  | (Err e, w) => (Err (err e (p_gas s)), mkPState (p_gas s) (p_input s) w)
  | (Panic, w) => (Panic, mkPState (p_gas s) (p_input s) w)
  end.

(** [RuntimeHelper::try_dispatch]; the calls dispatched here report no weight of
    their own, and pass the call filter, which concerns the state oracle only. *)
Definition try_dispatch (weight : Z) (call : D W unit) : P unit :=
  let* remaining := remaining_gas in
  do* match remaining with
      | Some gas_limit => if gas_limit <? weight_to_gas weight then fail OutOfGas else ret tt
      | None => ret tt
      end in
  do* on_world (fun e => revert (ascii_bytes "Dispatched call failed with error: " ++ debug_error e)) call in
  record_cost (weight_to_gas weight).

Definition db_read_gas_cost : Z := weight_to_gas DbWeight_read.

(** [Ok(PrecompileOutput { .. })] with the gas used so far. *)
Definition returned (output : bytes) (logs : list Log) : P PrecompileOutput :=
  let* g := gets p_gas in ret (mkOutput (used_gas g) output logs).

(** [LogsBuilder::log3]; addresses become topics as [H256]. *)
Definition log3 (address topic0 topic1 topic2 data : bytes) : Log :=
  mkLog address [topic0; replicate 12 0 ++ topic1; replicate 12 0 ++ topic2] data.

(** What [execute] of every precompile starts with: the gasometer, the selector
    and the modifier of the function. *)
Definition execute_with {A} (variants : list (A * string)) (modifier : A -> FunctionModifier)
    (action : A -> P PrecompileOutput) (input : bytes) (target_gas : option Z) (context : Context) (is_static : bool) (w : W)
    : outcome PrecompileFailure PrecompileOutput * W :=
  let gasometer := Gasometer_new target_gas in
  match reader_new_with_selector (try_from_primitive variants) input with
  | Ok (input, selector) =>
      let '(r, s) := (do* check_function_modifier context is_static (modifier selector) in action selector)
                       (mkPState gasometer input w) in
      (r, p_world s)
  | Err text => (Err (revert (ascii_bytes text) gasometer), w)
  | Panic => (Panic, w)
  end.

(** ** Gas

    A successful computation keeps within the limit of the gasometer. *)
Definition fueled (s : PState W) : Prop :=
  0 <= used_gas (p_gas s) /\ match target_gas (p_gas s) with Some limit => used_gas (p_gas s) <= limit | None => True end.

Definition metered {A} (m : P A) : Prop := forall s a s', fueled s -> m s = (Ok a, s') ->
  fueled s' /\ target_gas (p_gas s') = target_gas (p_gas s).

Lemma metered_bind {A B} (m : P A) (k : A -> P B) : metered m -> (forall a, metered (k a)) -> metered (bind m k).
Proof.
  intros Hm Hk s b s' Hs. unfold bind. destruct (m s) as [[a| |] s1] eqn:Hms; [|done..]. intros Hks.
  destruct (Hm s a s1 Hs Hms) as [Hs1 Ht]. destruct (Hk a s1 b s' Hs1 Hks) as [Hs' Ht']. split; [done | congruence].
Qed.

(** Computations that leave the gasometer alone. *)
Lemma metered_frame {A} (m : P A) : (forall s, p_gas (m s).2 = p_gas s) -> metered m.
Proof. intros Hf s a s' Hs Hm. specialize (Hf s). rewrite Hm in Hf. simpl in Hf. unfold fueled. by rewrite Hf. Qed.

Lemma metered_record_cost cost : 0 <= cost -> metered (record_cost cost).
Proof.
  intros Hc s a s' [Hu Ht]. unfold record_cost, bind, gets, ok_or, modify, fail, ret.
  destruct (checked_add _ _ _) as [used|] eqn:Ha; [|done]. apply checked_add_Some in Ha as [-> _]. unfold set_gas, fueled. simpl.
  destruct (target_gas (p_gas s)) as [limit|].
  - destruct (Z.ltb_spec limit (used_gas (p_gas s) + cost)); [done|]. intros [= _ <-]. simpl. split; [split; lia | done].
  - intros [= _ <-]. simpl. split; [split; [lia | done] | done].
Qed.

Lemma metered_if {A} (b : bool) (m1 m2 : P A) : metered m1 -> metered m2 -> metered (if b then m1 else m2).
Proof. by destruct b. Qed.

Lemma weight_to_gas_nonneg weight : 0 <= weight -> 0 <= weight_to_gas weight.
Proof. intros Hw. apply Z.div_pos; [done | by vm_compute]. Qed.

Lemma metered_on_world {A} err (m : D W A) : metered (on_world err m).
Proof. apply metered_frame. intros s. unfold on_world. by destruct (m (p_world s)) as [[] ?]. Qed.

Lemma metered_on_input {A} (m : M string EvmDataReader A) : metered (on_input m).
Proof. apply metered_frame. intros s. unfold on_input. by destruct (m (p_input s)) as [[] ?]. Qed.

Lemma metered_try_dispatch weight call : 0 <= weight -> metered (try_dispatch weight call).
Proof.
  intros Hw. unfold try_dispatch. apply metered_bind.
  { apply metered_frame. intros s. unfold remaining_gas, bind, gets, ok_or, ret, fail. destruct (target_gas _); [|done].
    by destruct (checked_sub _ _). }
  intros remaining. apply metered_bind.
  { apply metered_frame. intros s. destruct remaining; [|done]. by destruct (_ <? _). }
  intros _. apply metered_bind; [apply metered_on_world|]. intros _. by apply metered_record_cost, weight_to_gas_nonneg.
Qed.

Lemma metered_log_costs topics data_len : 0 <= topics -> 0 <= data_len -> metered (record_log_costs_manual topics data_len).
Proof.
  intros Ht Hd. unfold record_log_costs_manual. intros s a s' Hs. unfold bind at 1, ok_or.
  destruct (checked_mul 64 375 topics) as [c1|] eqn:H1; [|done]. unfold ret. cbv iota. unfold bind at 1.
  destruct (checked_mul 64 8 data_len) as [c2|] eqn:H2; [|done]. apply checked_mul_Some in H1 as [-> _], H2 as [-> _]. cbv iota.
  revert s a s' Hs. change (metered (do* record_cost 375 in do* record_cost (375 * topics) in record_cost (8 * data_len))).
  repeat (apply metered_bind; [apply metered_record_cost; lia | intros _]). apply metered_record_cost. lia.
Qed.

(** Leaves of the world. *)
Definition keeps_world {A} (m : P A) : Prop := forall s, p_world (m s).2 = p_world s.

Lemma keeps_world_bind {A B} (m : P A) (k : A -> P B) : keeps_world m -> (forall a, keeps_world (k a)) -> keeps_world (bind m k).
Proof. intros Hm Hk s. unfold bind. specialize (Hm s). destruct (m s) as [[a| |] s1]; simpl in *; [by rewrite Hk | done..]. Qed.

Lemma keeps_world_record_cost cost : keeps_world (record_cost cost).
Proof.
  intros s. unfold record_cost, bind, gets, ok_or, modify, fail, ret, set_gas. destruct (checked_add _ _ _); [|done]. simpl.
  destruct (target_gas _); [|done]. by destruct (_ <? _).
Qed.

Lemma keeps_world_log_costs topics data_len : keeps_world (record_log_costs_manual topics data_len).
Proof.
  unfold record_log_costs_manual. apply keeps_world_bind; [intros s; by destruct (checked_mul _ _ _)|]. intros c1.
  apply keeps_world_bind; [intros s; by destruct (checked_mul _ _ _)|]. intros c2.
  repeat (apply keeps_world_bind; [apply keeps_world_record_cost | intros _]). apply keeps_world_record_cost.
Qed.

Lemma keeps_world_on_input {A} (m : M string EvmDataReader A) : keeps_world (on_input m).
Proof. intros s. unfold on_input. by destruct (m (p_input s)) as [[] ?]. Qed.

Lemma keeps_world_ret {A} (a : A) : keeps_world (ret a).
Proof. done. Qed.
Lemma keeps_world_fail {A} e : keeps_world (@fail _ _ A e).
Proof. done. Qed.
Lemma keeps_world_gets {A} (f : PState W -> A) : keeps_world (gets f).
Proof. done. Qed.
Lemma keeps_world_ok_or {A} (o : option A) e : keeps_world (ok_or o e).
Proof. intros s. by destruct o. Qed.
Lemma keeps_world_revert {A} text : keeps_world (@revert_with A text).
Proof. done. Qed.
Lemma keeps_world_returned output logs : keeps_world (returned output logs).
Proof. done. Qed.
Lemma keeps_world_check context st modifier : keeps_world (check_function_modifier context st modifier).
Proof. intros s. unfold check_function_modifier. destruct (_ && _); [done|]. by destruct (_ && _). Qed.

(** A dispatched call that succeeds. *)
Lemma try_dispatch_Ok weight call s u s' : try_dispatch weight call s = (Ok u, s') ->
  call (p_world s) = (Ok tt, p_world s') /\ p_input s' = p_input s.
Proof.
  unfold try_dispatch, bind at 1. intros Hd.
  assert (exists o, remaining_gas s = (Ok o, s) \/ exists e, remaining_gas s = (Err e, s)) as [o Hr].
  { unfold remaining_gas, bind, gets, ok_or, ret, fail. destruct (target_gas (p_gas s)); [|by exists None; left].
    destruct (checked_sub _ _) as [l|]; [by exists (Some l); left | by exists None; right; eexists]. }
  destruct Hr as [Hr|[e Hr]]; rewrite Hr in Hd; [|done]. unfold bind at 1 in Hd.
  assert (Hlimit : (match o with Some gas_limit => if gas_limit <? weight_to_gas weight then fail OutOfGas else ret tt | None => ret tt end) s
      = (Ok tt, s) \/ exists e, (match o with Some gas_limit => if gas_limit <? weight_to_gas weight then fail OutOfGas else ret tt | None => ret tt end) s = (Err e, s) :> outcome PrecompileFailure unit * PState W).
  { destruct o as [l|]; [|by left]. destruct (_ <? _); [right; by eexists | by left]. }
  destruct Hlimit as [Hl|[e Hl]]; rewrite Hl in Hd; [|done]. unfold bind at 1, on_world in Hd.
  destruct (call (p_world s)) as [[[]| |] w]; [|done..].
  pose proof (keeps_world_record_cost (weight_to_gas weight) (mkPState (p_gas s) (p_input s) w)) as Hw. rewrite Hd in Hw. simpl in Hw.
  rewrite Hw. split; [done|].
  revert Hd. unfold record_cost, bind, gets, ok_or, modify, fail, ret, set_gas. simpl. destruct (checked_add _ _ _); [|done]. simpl.
  destruct (target_gas _); [destruct (_ <? _)|]; by intros [= _ <-].
Qed.

End Utils.

Create HintDb precompile.
#[export] Hint Resolve metered_bind metered_if metered_on_world metered_on_input metered_try_dispatch metered_record_cost
  metered_log_costs weight_to_gas_nonneg : precompile.
#[export] Hint Resolve keeps_world_bind keeps_world_record_cost keeps_world_log_costs keeps_world_on_input keeps_world_ret
  keeps_world_fail keeps_world_gets keeps_world_ok_or keeps_world_revert keeps_world_returned keeps_world_check : precompile.
