(* ===== verification/Precompiles.v ===== *)
(** * The ERC-20 precompile

    [src/evm-precompiles/erc20/src/lib.rs]: every asset of the ledger as an
    ERC-20 contract, with allowances in the token approvals pallet.  The storage
    is that of the runtime's token pallets: NFTs, with the ledger and the
    approvals inside. *)

From S2P Require Import Prelude Support GenericAssetTypes GenericAsset MultiCurrency Cennzx AddressMapping TokenApprovals NftTypes Nft NftRuntime EthAbi EthBridge Issuance Erc20Peg PrecompileData PrecompileUtils EvmRuntime.

Abbreviation World := (Nft.State GenericAsset.State TokenApprovals.State).

(** The account of an EVM address. *)
Definition account_of (address : bytes) : AccountId := account_number (into_account_id address).

(** The [#[weight]]s of the token approvals pallet. *)
Definition erc721_approval_weight : Z := 125000000.
Definition erc20_approval_weight : Z := 100000000.
Definition erc20_remove_approval_weight : Z := 100000000.

Inductive Erc20Action := TotalSupply | BalanceOf | Allowance | Erc20Transfer | Approve | TransferFrom | Name | Symbol | Decimals.

Definition erc20_actions : list (Erc20Action * string) :=
  [(TotalSupply, "totalSupply()"%string); (BalanceOf, "balanceOf(address)"%string); (Allowance, "allowance(address,address)"%string);
   (Erc20Transfer, "transfer(address,uint256)"%string); (Approve, "approve(address,uint256)"%string);
   (TransferFrom, "transferFrom(address,address,uint256)"%string); (Name, "name()"%string); (Symbol, "symbol()"%string);
   (Decimals, "decimals()"%string)].

Section Erc20.
Context `{GaConfig} `{Target} `{PrecompileEnv}.
Implicit Types (w : World) (s : PState World).

Definition on_approvals {B} (m : D TokenApprovals.State B) : D World B := fun w =>
  let '(r, a) := m (Nft.subscriber w) in (r, Nft.set_subscriber (fun _ => a) w).

Definition on_assets {B} (m : D GenericAsset.State B) : D World B := fun w =>
  let '(r, g) := m (Nft.ledger w) in (r, Nft.set_ledger (fun _ => g) w).

Definition assets (s : PState World) : GenericAsset.State := Nft.ledger (p_world s).
Definition approvals (s : PState World) : TokenApprovals.State := Nft.subscriber (p_world s).

Abbreviation P := (M PrecompileFailure (PState World)).

Definition SELECTOR_LOG_TRANSFER : bytes := keccak256 "Transfer(address,address,uint256)".
Definition SELECTOR_LOG_APPROVAL : bytes := keccak256 "Approval(address,address,uint256)".

Definition total_supply (asset_id : AssetId) : P PrecompileOutput :=
  do* record_cost db_read_gas_cost in
  do* on_input (expect_arguments 0) in
  let* amount := gets (fun s => GenericAsset.total_issuance asset_id (assets s)) in
  returned (build (write TyU256 amount writer_new)) [].

Definition balance_of (asset_id : AssetId) : P PrecompileOutput :=
  do* record_cost (wrapping_mul 64 db_read_gas_cost 2) in
  do* on_input (expect_arguments 1) in
  let* owner := on_input (read TyAddress) in
  let* amount := gets (fun s =>
    if asset_id =? GenericAsset.staking_asset_id (assets s)
    then ab_available (GenericAsset.get_all_balances (account_of owner) asset_id (assets s))
    else GenericAsset.free_balance asset_id (account_of owner) (assets s)) in
  returned (build (write TyU256 amount writer_new)) [].

Definition allowance (asset_id : AssetId) : P PrecompileOutput :=
  do* record_cost db_read_gas_cost in
  do* on_input (expect_arguments 2) in
  let* owner := on_input (read TyAddress) in
  let* spender := on_input (read TyAddress) in
  let* amount := gets (fun s => erc20_approvals owner asset_id spender (approvals s)) in
  returned (build (write TyU256 amount writer_new)) [].

Definition approve (asset_id : AssetId) (context : Context) : P PrecompileOutput :=
  do* record_log_costs_manual 3 32 in
  do* on_input (expect_arguments 2) in
  let* spender := on_input (read TyAddress) in
  let* amount := on_input (read TyU256) in
  let amount := saturate BALANCE_BITS amount in
  do* try_dispatch erc20_approval_weight (on_approvals (erc20_approval NoOrigin (cx_caller context) spender asset_id amount)) in
  returned (build (write TyBool true writer_new))
    [log3 (cx_address context) SELECTOR_LOG_APPROVAL (cx_caller context) spender (build (write (TyUint U128) amount writer_new))].

(** [crml_generic_asset::Call::transfer] *)
Definition dispatch_transfer (from : AccountId) (asset_id : AssetId) (to : AccountId) (amount : Balance) : P unit :=
  try_dispatch (WeightInfo "generic_asset::transfer" 1) (on_assets (GenericAsset.transfer (Signed from) asset_id to amount)).

Definition erc20_transfer (asset_id : AssetId) (context : Context) : P PrecompileOutput :=
  do* record_log_costs_manual 3 32 in
  do* on_input (expect_arguments 2) in
  let* to := on_input (read TyAddress) in
  let* amount := on_input (read TyU256) in
  let amount := saturate BALANCE_BITS amount in
  do* dispatch_transfer (account_of (cx_caller context)) asset_id (account_of to) amount in
  returned (build (write TyBool true writer_new))
    [log3 (cx_address context) SELECTOR_LOG_TRANSFER (cx_caller context) to (build (write (TyUint U128) amount writer_new))].

(** What a caller other than the owner spends. *)
Definition spend_allowance (asset_id : AssetId) (from caller : bytes) (amount : Balance) : P unit :=
  do* record_cost db_read_gas_cost in
  let* current_approved_amount := gets (fun s => erc20_approvals from asset_id caller (approvals s)) in
  let* new_approved_amount := ok_or (checked_sub current_approved_amount amount) (OtherFailure "Caller not approved for amount") in
  if new_approved_amount =? 0 then
    try_dispatch erc20_remove_approval_weight (on_approvals (erc20_remove_approval NoOrigin from caller asset_id))
  else
    try_dispatch erc20_approval_weight (on_approvals (erc20_approval NoOrigin from caller asset_id new_approved_amount)).

Definition erc20_transfer_from (asset_id : AssetId) (context : Context) : P PrecompileOutput :=
  do* record_log_costs_manual 3 32 in
  do* on_input (expect_arguments 3) in
  let* from := on_input (read TyAddress) in
  let* to := on_input (read TyAddress) in
  let* amount := on_input (read TyU256) in
  let amount := saturate BALANCE_BITS amount in
  do* (if bool_decide (cx_caller context = from) then
         dispatch_transfer (account_of from) asset_id (account_of to) amount
       else
         do* spend_allowance asset_id from (cx_caller context) amount in
         dispatch_transfer (account_of from) asset_id (account_of to) amount) in
  returned (build (write TyBool true writer_new))
    [log3 (cx_address context) SELECTOR_LOG_TRANSFER from to (build (write (TyUint U128) amount writer_new))].

(** [name] and [symbol] *)
Definition symbol (asset_id : AssetId) : P PrecompileOutput :=
  do* record_cost db_read_gas_cost in
  let* meta := gets (fun s => sget AssetInfo_default asset_id (GenericAsset.AssetMeta (assets s))) in
  returned (build (write TyBytes (GenericAssetTypes.symbol meta) writer_new)) [].

Definition decimals (asset_id : AssetId) : P PrecompileOutput :=
  do* record_cost db_read_gas_cost in
  let* meta := gets (fun s => sget AssetInfo_default asset_id (GenericAsset.AssetMeta (assets s))) in
  returned (build (write TyU8 (decimal_places meta) writer_new)) [].

Definition erc20_modifier (selector : Erc20Action) : FunctionModifier :=
  match selector with Approve | Erc20Transfer | TransferFrom => NonPayable | _ => View end.

Definition erc20_action (asset_id : AssetId) (context : Context) (selector : Erc20Action) : P PrecompileOutput :=
  match selector with
  | TotalSupply => total_supply asset_id
  | BalanceOf => balance_of asset_id
  | Erc20Transfer => erc20_transfer asset_id context
  | TransferFrom => erc20_transfer_from asset_id context
  | Name => symbol asset_id
  | Symbol => symbol asset_id
  | Decimals => decimals asset_id
  | Allowance => allowance asset_id
  | Approve => approve asset_id context
  end.

(** [PrecompileSet::execute]: [None] for addresses of no asset with an issuance. *)
Definition erc20_execute (address input : bytes) (target_gas : option Z) (context : Context) (is_static : bool) (w : World)
    : option (outcome PrecompileFailure PrecompileOutput * World) :=
  match erc20_evm_id_to_runtime_id address with
  | Some asset_id =>
      if negb (GenericAsset.total_issuance asset_id (Nft.ledger w) =? 0) then
        Some (execute_with erc20_actions erc20_modifier (erc20_action asset_id context) input target_gas context is_static w)
      else None
  | None => None
  end.

Definition erc20_is_precompile (address : bytes) (w : World) : bool :=
  match erc20_evm_id_to_runtime_id address with
  | Some asset_id => negb (GenericAsset.total_issuance asset_id (Nft.ledger w) =? 0)
  | None => false
  end.

End Erc20.

(** * The ERC-721 and NFT precompiles

    [src/evm-precompiles/erc721/src/lib.rs]: every series of the NFT pallet as an
    ERC-721 contract, with approvals in the token approvals pallet; and
    [src/evm-precompiles/nft/src/lib.rs]: the creation of series and minting.
    [token_uri] is that of [src/crml/nft/src/lib.rs]. *)


Inductive Erc721Action :=
| Erc721BalanceOf | OwnerOf | Erc721TransferFrom | SafeTransferFrom | SafeTransferFromCallData | Erc721Approve | GetApproved
| IsApprovedForAll | SetApprovalForAll | Erc721Name | Erc721Symbol | TokenURI.

Definition erc721_actions : list (Erc721Action * string) :=
  [(Erc721BalanceOf, "balanceOf(address)"%string); (OwnerOf, "ownerOf(uint256)"%string);
   (Erc721TransferFrom, "transferFrom(address,address,uint256)"%string);
   (SafeTransferFrom, "safeTransferFrom(address,address,uint256)"%string);
   (SafeTransferFromCallData, "safeTransferFrom(address,address,uint256,bytes)"%string);
   (Erc721Approve, "approve(address,uint256)"%string); (GetApproved, "getApproved(uint256)"%string);
   (IsApprovedForAll, "isApprovedForAll(address,address)"%string); (SetApprovalForAll, "setApprovalForAll(address,bool)"%string);
   (Erc721Name, "name()"%string); (Erc721Symbol, "symbol()"%string); (TokenURI, "tokenURI(uint256)"%string)].

Inductive NftAction := InitializeSeries | NftMint.

Definition nft_actions : list (NftAction * string) :=
  [(InitializeSeries, "initializeSeries(uint32,uint8,bytes,address[],uint32[])"%string); (NftMint, "mint(uint32,uint32,uint32,address)"%string)].

(** The decimal digits of a [u32]. *)
Fixpoint decimal (fuel : nat) (n : Z) : bytes :=
  match fuel with
  | O => []
  | S fuel => (if n <? 10 then [] else decimal fuel (n / 10)) ++ [48 + n mod 10]
  end.

(** [core::str::from_utf8(path).unwrap_or("")] *)
Definition str_or_empty (path : bytes) : bytes := if from_utf8_ok path then path else [].

Section Erc721.
Context `{GaConfig} {permill : PermillOps} {nft_config : NftConfig} `{Target} `{PrecompileEnv}.
Abbreviation P := (M PrecompileFailure (PState World)).
Implicit Types (w : World) (s : PState World).

Definition token_uri (token_id : CollectionId * SeriesId * SerialNumber) w : bytes :=
  let serial := decimal 10 token_id.2 in
  match Nft.SeriesMetadataScheme w !! token_id.1 with
  | Some (Http path) => ascii_bytes "http://" ++ str_or_empty path ++ ascii_bytes "/" ++ serial ++ ascii_bytes ".json"
  | Some (Https path) => ascii_bytes "https://" ++ str_or_empty path ++ ascii_bytes "/" ++ serial ++ ascii_bytes ".json"
  | Some (IpfsDir dir_cid) => ascii_bytes "ipfs://" ++ str_or_empty dir_cid ++ ascii_bytes "/" ++ serial ++ ascii_bytes ".json"
  | Some (IpfsShared shared_cid) => ascii_bytes "ipfs://" ++ str_or_empty shared_cid ++ ascii_bytes ".json"
  | None => []
  end.

(** The serial numbers the NFT pallet knows. *)
Definition read_id (text : string) : P Z :=
  let* id := on_input (read TyU256) in
  if umax 32 <? id then fail (OtherFailure text) else ret id.

Definition read_serial_number : P SerialNumber := read_id "expected token id <= 2^32".

(** The owner as a 256-bit account. *)
Definition owner_of (series : CollectionId * SeriesId) : P PrecompileOutput :=
  do* record_cost db_read_gas_cost in
  do* on_input (expect_arguments 1) in
  let* serial_number := read_serial_number in
  let* owner := gets (fun s => Nft.token_owner (series.1, series.2, serial_number) (p_world s)) in
  returned (build (write TyH256 (be_bytes 32 owner) writer_new)) [].

Definition erc721_balance_of (series : CollectionId * SeriesId) : P PrecompileOutput :=
  do* record_cost db_read_gas_cost in
  do* on_input (expect_arguments 1) in
  let* owner := on_input (read TyAddress) in
  let* amount := gets (fun s => sget 0 series (Nft.token_balance (account_of owner) (p_world s))) in
  returned (build (write TyU256 amount writer_new)) [].

Definition erc721_transfer_from (series : CollectionId * SeriesId) (context : Context) : P PrecompileOutput :=
  do* record_log_costs_manual 3 32 in
  do* on_input (expect_arguments 3) in
  let* from := on_input (read TyAddress) in
  let* to := on_input (read TyAddress) in
  let* serial_number := read_serial_number in
  let token_id := (series.1, series.2, serial_number) in
  do* record_cost db_read_gas_cost in
  let* approved_account := gets (fun s => erc721_approvals token_id (approvals s)) in
  do* (if bool_decide (cx_caller context = from) || bool_decide (cx_caller context = approved_account) then
         try_dispatch (WeightInfo "nft::transfer" 1) (Nft.transfer (Signed (account_of from)) token_id (account_of to))
       else fail (OtherFailure "caller not approved")) in
  returned (build (write TyBool true writer_new))
    [log3 (cx_address context) SELECTOR_LOG_TRANSFER (cx_caller context) to (build (write (TyUint U32) serial_number writer_new))].

Definition erc721_approve (series : CollectionId * SeriesId) (context : Context) : P PrecompileOutput :=
  do* record_log_costs_manual 3 32 in
  do* on_input (expect_arguments 2) in
  let* to := on_input (read TyAddress) in
  let* serial_number := read_serial_number in
  let token_id := (series.1, series.2, serial_number) in
  do* try_dispatch erc721_approval_weight (fun w =>
        on_approvals (erc721_approval (fun owner token => Nft.check_ownership owner token w) NoOrigin (cx_caller context) to token_id) w) in
  returned (build (write TyBool true writer_new))
    [log3 (cx_address context) SELECTOR_LOG_APPROVAL (cx_caller context) to (build (write (TyUint U32) serial_number writer_new))].

Definition get_approved (series : CollectionId * SeriesId) : P PrecompileOutput :=
  do* record_log_costs_manual 3 32 in
  do* on_input (expect_arguments 1) in
  let* serial_number := read_serial_number in
  let* approved_account := gets (fun s => erc721_approvals (series.1, series.2, serial_number) (approvals s)) in
  returned (build (write TyBytes approved_account writer_new)) [].

(** [name] and [symbol] *)
Definition series_symbol (series : CollectionId * SeriesId) : P PrecompileOutput :=
  do* record_cost db_read_gas_cost in
  let* name := gets (fun s => sget [] series (Nft.SeriesName (p_world s))) in
  returned (build (write TyBytes name writer_new)) [].

Definition erc721_token_uri (series : CollectionId * SeriesId) : P PrecompileOutput :=
  do* record_cost db_read_gas_cost in
  do* on_input (expect_arguments 1) in
  let* serial_number := read_serial_number in
  let* uri := gets (fun s => token_uri (series.1, series.2, serial_number) (p_world s)) in
  returned (build (write TyBytes uri writer_new)) [].

Definition erc721_modifier (selector : Erc721Action) : FunctionModifier :=
  match selector with
  | Erc721Approve | SafeTransferFrom | Erc721TransferFrom | SafeTransferFromCallData => NonPayable
  | _ => View
  end.

Definition erc721_action (series : CollectionId * SeriesId) (context : Context) (selector : Erc721Action) : P PrecompileOutput :=
  match selector with
  | OwnerOf => owner_of series
  | Erc721BalanceOf => erc721_balance_of series
  | Erc721TransferFrom => erc721_transfer_from series context
  | Erc721Name => series_symbol series
  | Erc721Symbol => series_symbol series
  | TokenURI => erc721_token_uri series
  | Erc721Approve => erc721_approve series context
  | GetApproved => get_approved series
  | SafeTransferFrom | SafeTransferFromCallData | IsApprovedForAll | SetApprovalForAll =>
      fail (OtherFailure "function not implemented yet")
  end.

(** [None] unless the collection has a name. *)
Definition erc721_execute (address input : bytes) (target_gas : option Z) (context : Context) (is_static : bool) w
    : option (outcome PrecompileFailure PrecompileOutput * World) :=
  match erc721_evm_id_to_runtime_id address with
  | Some series =>
      if negb (bool_decide (sget [] series.1 (Nft.CollectionName w) = [])) then
        Some (execute_with erc721_actions erc721_modifier (erc721_action series context) input target_gas context is_static w)
      else None
  | None => None
  end.

Definition erc721_is_precompile (address : bytes) w : bool :=
  match erc721_evm_id_to_runtime_id address with
  | Some series => Nft.series_exists series.1 series.2 w
  | None => false
  end.

(** ** Series and minting *)

(** [Permill::from_parts] *)
Definition permill_from_parts (parts : Z) : Permill := Z.min parts PERMILL_ACCURACY.

Definition royalties_of (addresses : list bytes) (entitlements : list Z) : option RoyaltiesSchedule :=
  if (0 <? length addresses)%nat then
    Some {| NftTypes.entitlements := zip (account_of <$> addresses) ((fun e => permill_from_parts (saturate 32 e)) <$> entitlements) |}
  else None.

Definition initialize_series (caller : bytes) : P PrecompileOutput :=
  do* on_input (expect_arguments 5) in
  let* collection_id := read_id "expected collection ID <= 2^32" in
  let* metadata_type := on_input (read TyU256) in
  do* (if umax 8 <? metadata_type then fail (OtherFailure "Invalid metadata_type, expected u8") else ret tt) in
  let* metadata_path := on_input (read TyBytes) in
  let* metadata_scheme := ok_or (from_index metadata_type metadata_path) (OtherFailure "Invalid metadata_type, expected u8 <= 3") in
  let* royalty_addresses := on_input (read (TyVec TyAddress)) in
  let* royalty_entitlements := on_input (read (TyVec TyU256)) in
  do* (if (length royalty_addresses =? length royalty_entitlements)%nat then ret tt
       else fail (OtherFailure "Royalty addresses and entitlements must be the same length")) in
  do* record_cost (WeightInfo "nft::mint_series" 0) in
  let* series_id := on_world (fun e g => Revert (ascii_bytes "Initialize series failed: " ++ debug_error e) (used_gas g))
    (Nft.do_mint_series (account_of caller) collection_id 0 None metadata_scheme (royalties_of royalty_addresses royalty_entitlements)) in
  returned (build (write TyU256 series_id writer_new)) [].

Definition nft_mint (caller : bytes) : P PrecompileOutput :=
  do* record_log_costs_manual 3 32 in
  do* on_input (expect_arguments 4) in
  let* collection_id := read_id "expected collection ID <= 2^32" in
  let* series_id := read_id "expected series ID <= 2^32" in
  let* quantity := read_id "expected quantity <= 2^32" in
  let* owner := on_input (read TyAddress) in
  let owner := if bool_decide (owner = H160_default) then None else Some (account_of owner) in
  do* try_dispatch (WeightInfo "nft::mint_additional" quantity)
        (Nft.mint_additional (Signed (account_of caller)) collection_id series_id quantity owner) in
  returned (build (write TyBool true writer_new)) [].

Definition nft_execute (input : bytes) (target_gas : option Z) (context : Context) (is_static : bool) w
    : outcome PrecompileFailure PrecompileOutput * World :=
  execute_with nft_actions (fun _ => NonPayable)
    (fun selector => match selector with
                     | InitializeSeries => initialize_series (cx_caller context)
                     | NftMint => nft_mint (cx_caller context)
                     end) input target_gas context is_static w.

End Erc721.

(** * The exchange and peg precompiles

    [src/evm-precompiles/cennzx/src/lib.rs]: purchases of CPAY on the exchange;
    [src/evm-precompiles/erc20-peg/src/lib.rs]: withdrawals through the peg. *)


Inductive CennzxAction := SwapForExactCPAY.
Definition cennzx_actions : list (CennzxAction * string) := [(SwapForExactCPAY, "swapForExactCPAY(address,uint128,uint256)"%string)].

Inductive PegAction := Withdraw.
Definition peg_actions : list (PegAction * string) := [(Withdraw, "withdraw(address,uint256,address)"%string)].

Section Asset.
Context `{Target} `{PrecompileEnv} {W : Type}.

(** An asset of the ledger by its ERC-20 address. *)
Definition read_asset : M PrecompileFailure (PState W) AssetId :=
  let* address := on_input (read TyAddress) in
  match erc20_evm_id_to_runtime_id address with
  | Some asset_id => ret asset_id
  | None => revert_with (ascii_bytes "unsupported asset")
  end.

Lemma keeps_world_read_asset : keeps_world read_asset.
Proof.
  apply keeps_world_bind; [apply keeps_world_on_input|]. intros address. by destruct (erc20_evm_id_to_runtime_id address).
Qed.
End Asset.

Section Swap.
Context `{Target} `{PrecompileEnv} {L : Type} `{MultiCurrency L} `{Hashing}.
Abbreviation P := (M PrecompileFailure (PState (Cennzx.State L))).

Definition swap_for_exact_cpay (caller : bytes) : P PrecompileOutput :=
  do* on_input (expect_arguments 3) in
  let* asset_id := read_asset in
  let* exact_output := on_input (read TyU256) in
  let* max_input := on_input (read TyU256) in
  let fee_exchange := FeeExchange_new_v1 asset_id (saturate BALANCE_BITS max_input) in
  do* record_cost (weight_to_gas (WeightInfo "cennzx::sell_asset" 1)) in
  do* on_world (fun e _ => Revert (ascii_bytes "swap failed: " ++ debug_error e) 0)
        (Cennzx.buy_fee_asset (account_of caller) (saturate BALANCE_BITS exact_output) fee_exchange) in
  returned [] [].

Definition cennzx_execute (input : bytes) (target_gas : option Z) (context : Context) (is_static : bool) (w : Cennzx.State L)
    : outcome PrecompileFailure PrecompileOutput * Cennzx.State L :=
  execute_with cennzx_actions (fun _ => NonPayable) (fun _ => swap_for_exact_cpay (cx_caller context)) input target_gas context is_static w.
End Swap.

Section Peg.
Context `{Target} `{PrecompileEnv} {B L : Type} {bridge_ops : EventClaimVerifier B} {currency : MultiCurrency L} {config : PegConfig}.
Abbreviation P := (M PrecompileFailure (PState (Erc20Peg.State B L))).

Definition peg_withdraw (caller : bytes) : P PrecompileOutput :=
  do* on_input (expect_arguments 3) in
  let* asset_id := read_asset in
  let* withdraw_amount := on_input (read TyU256) in
  let* beneficiary := on_input (read TyAddress) in
  do* record_cost (wrapping_mul 64 db_read_gas_cost 6) in
  let* proof_id := on_world (fun e g => Revert (ascii_bytes "withdraw failed: " ++ debug_error e) (used_gas g))
    (Erc20Peg.do_withdrawal (account_of caller) asset_id (saturate BALANCE_BITS withdraw_amount) beneficiary Evm) in
  returned (build (write TyU256 proof_id writer_new)) [].

Definition peg_execute (input : bytes) (target_gas : option Z) (context : Context) (is_static : bool) (w : Erc20Peg.State B L)
    : outcome PrecompileFailure PrecompileOutput * Erc20Peg.State B L :=
  execute_with peg_actions (fun _ => NonPayable) (fun _ => peg_withdraw (cx_caller context)) input target_gas context is_static w.
End Peg.
