(* ===== verification/PrecompileTheorems.v ===== *)
(** * Precompiles: whose assets a call can touch

    Whatever bytes a contract sends to a token precompile, a successful call has
    one of the effects its caller is entitled to, within the gas it was given. *)

From S2P Require Import Prelude Support GenericAssetTypes GenericAsset MultiCurrency AddressMapping TokenApprovals NftTypes Nft NftProps NftRuntime EthAbi PrecompileData PrecompileDataProps PrecompileUtils EvmRuntime Precompiles.

(** Weights are unsigned, hashes are bytes. *)
Class PrecompileEnvLaws `{PrecompileEnv} := {
  db_read_nonneg : 0 <= DbWeight_read;
  weights_nonneg : forall call quantity, 0 <= WeightInfo call quantity;
  keccak_bytes : forall signature, Forall is_byte (keccak256 signature);
}.

Section Steps.
Context `{PrecompileEnv} {W : Type}.
Abbreviation P := (M PrecompileFailure (PState W)).

(** A step that leaves the storage alone. *)
Lemma quiet_step {A B} (m : P A) (k : A -> P B) s b s' : keeps_world m -> bind m k s = (Ok b, s') ->
  exists a s1, p_world s1 = p_world s /\ k a s1 = (Ok b, s').
Proof.
  intros Hm. unfold bind. specialize (Hm s). destruct (m s) as [[a| |] s1]; [|done..]. intros Hk. by exists a, s1.
Qed.

Lemma gets_step {A B} (f : PState W -> A) (k : A -> P B) s b s' : bind (gets f) k s = (Ok b, s') -> k (f s) s = (Ok b, s').
Proof. done. Qed.

(** A dispatched call. *)
Lemma dispatch_step {B} weight call (k : unit -> P B) s b s' : bind (try_dispatch weight call) k s = (Ok b, s') ->
  exists s1, call (p_world s) = (Ok tt, p_world s1) /\ k tt s1 = (Ok b, s').
Proof.
  unfold bind. destruct (try_dispatch weight call s) as [[[]| |] s1] eqn:Hd; [|done..]. intros Hk.
  apply try_dispatch_Ok in Hd as [Hc _]. by exists s1.
Qed.

(** The parts of a successful execution. *)
Lemma execute_with_Ok {A} (variants : list (A * string)) modifier (action : A -> P PrecompileOutput) input gas context st w out w' :
  execute_with variants modifier action input gas context st w = (Ok out, w') ->
  exists sel r s', action sel (mkPState (Gasometer_new gas) r w) = (Ok out, s') /\ w' = p_world s' /\
    (st = true -> modifier sel = View) /\ (modifier sel <> Payable -> cx_apparent_value context <= 0).
Proof.
  unfold execute_with. destruct (reader_new_with_selector _ _) as [[r sel]| |]; [|done..]. cbv zeta.
  unfold bind, check_function_modifier.
  destruct (st && negb (bool_decide (modifier sel = View))) eqn:Hs; [done|].
  destruct (negb (bool_decide (modifier sel = Payable)) && (0 <? cx_apparent_value context)) eqn:Hp; [done|].
  unfold ret. destruct (action sel _) as [res s'] eqn:Ha. intros [= -> <-]. exists sel, r, s'. split_and!; [done | done | |].
  - intros ->. by apply negb_false_iff, bool_decide_eq_true in Hs.
  - intros Hne. rewrite bool_decide_eq_false_2 in Hp by done. simpl in Hp. by apply Z.ltb_ge.
Qed.

Lemma returned_Ok output logs s out s' : returned (W := W) output logs s = (Ok out, s') ->
  s' = s /\ po_cost out = used_gas (p_gas s).
Proof. unfold returned, bind, gets, ret. by intros [= <- <-]. Qed.

(** An action that ends by returning what it used keeps within its limit. *)
Definition bounded (m : P PrecompileOutput) : Prop := forall s out s', fueled s -> m s = (Ok out, s') ->
  po_cost out = used_gas (p_gas s') /\ fueled s' /\ target_gas (p_gas s') = target_gas (p_gas s).

Lemma bounded_returned output logs : bounded (returned output logs).
Proof. intros s out s' Hs Hr. by apply returned_Ok in Hr as [-> ->]. Qed.

Lemma bounded_bind {A} (m : P A) (k : A -> P PrecompileOutput) : metered m -> (forall a, bounded (k a)) -> bounded (bind m k).
Proof.
  intros Hm Hk s out s' Hs. unfold bind. destruct (m s) as [[a| |] s1] eqn:Hms; [|done..]. intros Hks.
  destruct (Hm s a s1 Hs Hms) as [Hs1 Ht]. destruct (Hk a s1 out s' Hs1 Hks) as (Hc & Hf & Ht'). split_and!; congruence.
Qed.

Lemma bounded_fail e : bounded (fail e).
Proof. by intros s out s'. Qed.

Lemma metered_gets {A} (f : PState W -> A) : metered (gets f).
Proof. by apply metered_frame. Qed.

Lemma metered_ok_or {A} (o : option A) e : metered (ok_or o e : P A).
Proof. apply metered_frame. intros s. by destruct o. Qed.

Lemma metered_fail {A} e : metered (fail e : P A).
Proof. by apply metered_frame. Qed.

Lemma metered_ret {A} (a : A) : metered (ret a : P A).
Proof. by apply metered_frame. Qed.

Lemma execute_within_gas {A} (variants : list (A * string)) modifier (action : A -> P PrecompileOutput) input limit context st w out w' :
  (forall sel, bounded (action sel)) -> 0 <= limit ->
  execute_with variants modifier action input (Some limit) context st w = (Ok out, w') -> po_cost out <= limit.
Proof.
  intros Hb Hl Hx. apply execute_with_Ok in Hx as (sel & r & s' & Ha & _).
  assert (Hs : fueled (mkPState (Gasometer_new (Some limit)) r w)) by (split; simpl; lia).
  destruct (Hb sel _ out s' Hs Ha) as (-> & [_ Hf] & Ht). rewrite Ht in Hf. exact Hf.
Qed.
End Steps.

(** ** Encoded calls *)
Section Encoded.
Context `{Target} `{PrecompileEnvLaws} {W : Type}.
Abbreviation P := (M PrecompileFailure (PState W)).

Lemma selector_range signature : in_range 32 (selector signature).
Proof.
  unfold selector. assert (Hb : Forall is_byte (take 4 (keccak256 signature))) by apply Forall_take, keccak_bytes.
  apply be_number_bounds in Hb. pose proof (length_take (keccak256 signature) 4) as Hl.
  assert (256 ^ Z.of_nat (length (take 4 (keccak256 signature))) <= 256 ^ 4) by (apply Z.pow_le_mono_r; lia).
  unfold in_range, umax. change (2 ^ 32) with (256 ^ 4). lia.
Qed.

(** Reading the next argument of an encoded call. *)
Lemma input_step {A} t v args (k : denote t -> P A) g r w : laid (existT t v :: args) r ->
  exists r', laid args r' /\ bind (on_input (read t)) k (mkPState g r w) = k v (mkPState g r' w).
Proof.
  intros Hl. apply read_laid in Hl as [Hr Hl]. eexists. split; [exact Hl|]. unfold bind, on_input. cbn [p_input p_gas p_world]. by rewrite Hr.
Qed.

Lemma expect_step {A} n args (k : unit -> P A) g data w : laid args (mkReader data 0) -> 0 <= n -> 32 * n <= len data ->
  bind (on_input (expect_arguments n)) k (mkPState g (mkReader data 0) w) = k tt (mkPState g (mkReader data 0) w).
Proof.
  intros Hl Hn Hle. unfold bind, on_input. cbn [p_input p_gas p_world]. by rewrite (expect_laid args).
Qed.

(** A charge within the limit. *)
Lemma charge_step {A} cost limit used (k : unit -> P A) r w : 0 <= used -> 0 <= cost -> used + cost <= limit -> limit <= umax 64 ->
  bind (record_cost cost) k (mkPState (mkGasometer (Some limit) used) r w) = k tt (mkPState (mkGasometer (Some limit) (used + cost)) r w).
Proof.
  intros Hu Hc Hl Hm. unfold bind at 1, record_cost. unfold bind, gets. cbn [p_gas used_gas target_gas].
  assert (checked_add 64 used cost = Some (used + cost)) as -> by (apply checked_add_Some; split; [done | unfold in_range; lia]).
  unfold ok_or, ret, modify, set_gas. cbn [p_gas used_gas target_gas]. by rewrite (proj2 (Z.ltb_ge _ _)) by lia.
Qed.

Lemma execute_encoded {A} (variants : list (A * string)) modifier (action : A -> P PrecompileOutput) signature sel args gas context w :
  try_from_primitive variants (selector signature) = Some sel -> Forall valid_arg args ->
  let input := build (write_all args (writer_new_with_selector (selector signature))) in
  addressable input -> modifier sel <> Payable -> cx_apparent_value context <= 0 ->
  exists data, laid args (mkReader data 0) /\ 32 * Z.of_nat (length args) <= len data /\
    execute_with variants modifier action input gas context false w =
    (let '(r, s) := action sel (mkPState (Gasometer_new gas) (mkReader data 0) w) in (r, p_world s)).
Proof.
  intros Htry Hargs input Hfit Hmod Hv.
  destruct (laid_encoded _ _ _ _ (selector_range signature) Htry Hargs Hfit) as (data & Hr & Hl & Hlen).
  exists data. split; [done|]. split; [done|]. unfold execute_with. subst input. rewrite Hr. cbv zeta. unfold bind, check_function_modifier.
  cbn [andb]. rewrite (proj2 (Z.ltb_ge 0 _)), andb_false_r by done. reflexivity.
Qed.
End Encoded.

#[export] Hint Resolve bounded_returned bounded_bind bounded_fail metered_gets metered_ok_or metered_fail metered_ret : precompile.

(** Past a step that leaves the storage alone, to its value and state. *)
Tactic Notation "quiet" hyp(H) "as" ident(a) ident(t) ident(Hw) :=
  apply quiet_step in H as (a & t & Hw & H); [|by auto with precompile].

Section Tokens.
Context `{GaConfig} {permill : PermillOps} {nft_config : NftConfig} `{Target} `{PrecompileEnvLaws}.
Implicit Types (w : World) (s : PState World).

Lemma db_read_gas_nonneg : 0 <= db_read_gas_cost.
Proof. apply weight_to_gas_nonneg, db_read_nonneg. Qed.

Lemma wrapping_nonneg k a b : 0 <= k -> 0 <= wrapping_mul k a b.
Proof. intros Hk. by apply (wrap_range k). Qed.

(** ** ERC-20 *)

(** What a caller may do with an asset. *)
Inductive erc20_effect (asset : AssetId) (caller : bytes) w : World -> Prop :=
| Erc20View : erc20_effect asset caller w w
| Erc20Approved spender amount : caller <> spender ->
    erc20_effect asset caller w (Nft.set_subscriber (set_ERC20Approvals (insert (caller, asset, spender) amount)) w)
| Erc20Sent to amount g : GenericAsset.transfer (Signed (account_of caller)) asset to amount (Nft.ledger w) = (Ok tt, g) ->
    erc20_effect asset caller w (Nft.set_ledger (fun _ => g) w)
| Erc20Spent from to amount g : from <> caller -> amount <= erc20_approvals from asset caller (Nft.subscriber w) ->
    GenericAsset.transfer (Signed (account_of from)) asset to amount (Nft.ledger w) = (Ok tt, g) ->
    let left := erc20_approvals from asset caller (Nft.subscriber w) - amount in
    erc20_effect asset caller w (Nft.set_ledger (fun _ => g) (Nft.set_subscriber (set_ERC20Approvals
      (if left =? 0 then delete (from, asset, caller) else insert (from, asset, caller) left)) w)).


Lemma erc20_views asset context sel : erc20_modifier sel = View -> keeps_world (erc20_action asset context sel).
Proof.
  destruct sel; try done; intros _; simpl; unfold total_supply, balance_of, allowance, symbol, decimals; auto 12 with precompile.
Qed.

Lemma on_approvals_Ok {B} (m : D TokenApprovals.State B) w b w' : on_approvals m w = (Ok b, w') ->
  exists a, m (Nft.subscriber w) = (Ok b, a) /\ w' = Nft.set_subscriber (fun _ => a) w.
Proof. unfold on_approvals. destruct (m _) as [r a]. intros [= -> <-]. by exists a. Qed.

Lemma on_assets_Ok {B} (m : D GenericAsset.State B) w b w' : on_assets m w = (Ok b, w') ->
  exists g, m (Nft.ledger w) = (Ok b, g) /\ w' = Nft.set_ledger (fun _ => g) w.
Proof. unfold on_assets. destruct (m _) as [r g]. intros [= -> <-]. by exists g. Qed.

Lemma erc20_approval_Ok caller spender asset amount a a' : erc20_approval NoOrigin caller spender asset amount a = (Ok tt, a') ->
  caller <> spender /\ a' = set_ERC20Approvals (insert (caller, asset, spender) amount) a.
Proof.
  unfold erc20_approval, bind, ensure_none, ret, ensure. case_bool_decide; simpl; [done|]. by intros [= <-].
Qed.

Lemma approve_effect asset context s out s' : approve asset context s = (Ok out, s') ->
  erc20_effect asset (cx_caller context) (p_world s) (p_world s').
Proof.
  intros Hx. unfold approve in Hx. quiet Hx as u s1 Hw. quiet Hx as u' s2 Hw0. quiet Hx as spender s3 Hw1. quiet Hx as amount s4 Hw2.
  apply dispatch_step in Hx as (s5 & Hd & Hx).
  apply returned_Ok in Hx as [-> _]. apply on_approvals_Ok in Hd as (a & Ha & ->).
  apply erc20_approval_Ok in Ha as [Hne ->]. rewrite Hw2, Hw1, Hw0, Hw. by apply Erc20Approved.
Qed.

Lemma transfer_step {B} from asset to amount (k : unit -> M PrecompileFailure (PState World) B) s b s' :
  bind (dispatch_transfer from asset to amount) k s = (Ok b, s') ->
  exists g s1, GenericAsset.transfer (Signed from) asset to amount (Nft.ledger (p_world s)) = (Ok tt, g) /\
    p_world s1 = Nft.set_ledger (fun _ => g) (p_world s) /\ k tt s1 = (Ok b, s').
Proof.
  intros Hx. apply dispatch_step in Hx as (s1 & Hd & Hx). apply on_assets_Ok in Hd as (g & Hg & Hw). by exists g, s1.
Qed.

Lemma erc20_transfer_effect asset context s out s' : erc20_transfer asset context s = (Ok out, s') ->
  erc20_effect asset (cx_caller context) (p_world s) (p_world s').
Proof.
  intros Hx. unfold erc20_transfer in Hx. quiet Hx as u s1 Hw. quiet Hx as u' s2 Hw0. quiet Hx as to s3 Hw1. quiet Hx as amount s4 Hw2.
  apply transfer_step in Hx as (g & s5 & Hg & Hw5 & Hx).
  apply returned_Ok in Hx as [-> _]. rewrite Hw5. rewrite Hw2, Hw1, Hw0, Hw in *. by eapply Erc20Sent.
Qed.

(** Spending an allowance takes exactly the amount off it. *)
Lemma spend_allowance_step {B} asset from caller amount (k : unit -> M PrecompileFailure (PState World) B) s b s' :
  bind (spend_allowance asset from caller amount) k s = (Ok b, s') ->
  let left := erc20_approvals from asset caller (Nft.subscriber (p_world s)) - amount in
  amount <= erc20_approvals from asset caller (Nft.subscriber (p_world s)) /\
  exists s1, p_world s1 = Nft.set_subscriber (set_ERC20Approvals
      (if left =? 0 then delete (from, asset, caller) else insert (from, asset, caller) left)) (p_world s) /\
    k tt s1 = (Ok b, s').
Proof.
  unfold bind at 1. destruct (spend_allowance asset from caller amount s) as [[[]| |] s1] eqn:Hx; [|done..]. intros Hk.
  unfold spend_allowance in Hx. quiet Hx as u s0 Hw. apply gets_step in Hx. unfold approvals in Hx. rewrite Hw in Hx.
  unfold bind at 1, ok_or in Hx. destruct (checked_sub _ _) as [l|] eqn:Hl; [|done]. apply checked_sub_Some in Hl as [-> Hle].
  unfold ret in Hx. cbv iota in Hx. split; [done|]. exists s1. split; [|done].
  destruct (_ =? 0); apply try_dispatch_Ok in Hx as [Hd _]; apply on_approvals_Ok in Hd as (a & Ha & ->); rewrite Hw in *.
  - unfold erc20_remove_approval, bind, ensure_none, ret, modify in Ha. by injection Ha as <-.
  - by apply erc20_approval_Ok in Ha as [_ ->].
Qed.

Lemma erc20_transfer_from_effect asset context s out s' : erc20_transfer_from asset context s = (Ok out, s') ->
  erc20_effect asset (cx_caller context) (p_world s) (p_world s').
Proof.
  intros Hx. unfold erc20_transfer_from in Hx. quiet Hx as u s1 Hw. quiet Hx as u' s2 Hw0. quiet Hx as from s3 Hw1.
  quiet Hx as to s4 Hw2. quiet Hx as amount s5 Hw3.
  rewrite Hw2, Hw1, Hw0, Hw in Hw3. case_bool_decide as Hc.
  - apply transfer_step in Hx as (g & s6 & Hg & Hw6 & Hx). apply returned_Ok in Hx as [-> _]. rewrite Hw6, Hw3 in *.
    subst from. by eapply Erc20Sent.
  - unfold bind at 1 in Hx. destruct (bind (spend_allowance _ _ _ _) _ _) as [[[]| |] s6] eqn:Hs; [|done..].
    apply spend_allowance_step in Hs as (Hle & s7 & Hw7 & Hs). apply returned_Ok in Hx as [-> _].
    apply try_dispatch_Ok in Hs as [Hd _]. apply on_assets_Ok in Hd as (g & Hg & ->). rewrite Hw7, Hw3 in *.
    by apply (Erc20Spent _ _ _ from (account_of to) (saturate BALANCE_BITS amount)).
Qed.

Lemma erc20_action_effect asset context sel s out s' : erc20_action asset context sel s = (Ok out, s') ->
  erc20_effect asset (cx_caller context) (p_world s) (p_world s').
Proof.
  intros Hx. destruct (erc20_modifier sel) eqn:Hm.
  - pose proof (erc20_views asset context sel Hm s) as Hk. rewrite Hx in Hk. simpl in Hk. rewrite Hk. constructor.
  - destruct sel; try done; [by eapply erc20_transfer_effect | by eapply approve_effect | by eapply erc20_transfer_from_effect].
  - by destruct sel.
Qed.

Ltac meter :=
  repeat first [apply bounded_returned | apply bounded_fail | apply metered_gets | apply metered_ok_or | apply metered_fail | apply metered_ret
    | apply metered_on_input | apply metered_on_world | (apply metered_log_costs; lia)
    | apply metered_try_dispatch; apply weights_nonneg || (by vm_compute)
    | apply metered_record_cost; first [apply db_read_gas_nonneg | by apply wrapping_nonneg | apply weights_nonneg]
    | apply metered_if | (apply bounded_bind; [|intros ?]) | (apply metered_bind; [|intros ?])].

Lemma erc20_bounded asset context sel : bounded (erc20_action asset context sel).
Proof.
  destruct sel; simpl;
    unfold total_supply, balance_of, allowance, erc20_transfer, approve, erc20_transfer_from, spend_allowance, dispatch_transfer, symbol, decimals;
    meter.
Qed.

(** C11: whatever input, gas and context an ERC-20 precompile is called with,
    a call that succeeds had one of four effects: none; an allowance set by the
    caller on its own tokens; a transfer signed by the caller's account; or a
    transfer from another account within the caller's allowance, which is lowered
    by exactly the amount.  A static call changes nothing, no value is accepted,
    and the cost is within the gas limit. *)
Theorem erc20_calls_authorised address input gas context st w out w' :
  erc20_execute address input gas context st w = Some (Ok out, w') ->
  exists asset, erc20_evm_id_to_runtime_id address = Some asset /\ GenericAsset.total_issuance asset (Nft.ledger w) <> 0 /\
    erc20_effect asset (cx_caller context) w w' /\ (st = true -> w' = w) /\ cx_apparent_value context <= 0 /\
    (forall limit, gas = Some limit -> 0 <= limit -> po_cost out <= limit).
Proof.
  unfold erc20_execute. destruct (erc20_evm_id_to_runtime_id address) as [asset|]; [|done].
  destruct (Z.eqb_spec (GenericAsset.total_issuance asset (Nft.ledger w)) 0) as [|Hi]; [done|]. simpl. intros [= Hx].
  exists asset. pose proof Hx as Hx'. apply execute_with_Ok in Hx' as (sel & r & s' & Ha & -> & Hst & Hv). split_and!; [done | done | | | |].
  - exact (erc20_action_effect _ _ _ _ _ _ Ha).
  - intros Hs%Hst. pose proof (erc20_views asset context sel Hs (mkPState (Gasometer_new gas) r w)) as Hk. by rewrite Ha in Hk.
  - apply Hv. by destruct sel.
  - intros limit -> Hl. by eapply execute_within_gas; [apply erc20_bounded | | exact Hx].
Qed.

(** ** ERC-721 *)
Inductive erc721_effect (series : CollectionId * SeriesId) (caller : bytes) w : World -> Prop :=
| Erc721View : erc721_effect series caller w w
| Erc721Approved serial operator : caller <> operator -> Nft.token_owner (series.1, series.2, serial) w = account_of caller ->
    erc721_effect series caller w (Nft.set_subscriber (set_ERC721Approvals (insert (series.1, series.2, serial) operator)) w)
| Erc721Moved from to serial w' : caller = from \/ caller = erc721_approvals (series.1, series.2, serial) (Nft.subscriber w) ->
    Nft.token_owner (series.1, series.2, serial) w = account_of from -> Nft.TokenLocks w !! (series.1, series.2, serial) = None ->
    Nft.transfer (Signed (account_of from)) (series.1, series.2, serial) (account_of to) w = (Ok tt, w') ->
    (account_of from <> default_account -> ERC721Approvals (Nft.subscriber w') !! (series.1, series.2, serial) = None) ->
    erc721_effect series caller w w'.

Lemma keeps_world_read_id text : keeps_world (read_id text).
Proof. apply keeps_world_bind; [apply keeps_world_on_input|]. intros id. by destruct (_ <? id). Qed.
Hint Resolve keeps_world_read_id : precompile.

Lemma metered_read_id text : metered (read_id text).
Proof. unfold read_id. meter. Qed.

Lemma transfer_of_owner who token to w w' : Nft.transfer (Signed who) token to w = (Ok tt, w') ->
  Nft.token_owner token w = who /\ Nft.TokenLocks w !! token = None.
Proof.
  destruct token as [[c x] n]. intros Hx%transactional_Ok. unfold bind at 1, ensure_signed, ret at 1 in Hx.
  unfold bind at 1, ensure, ret in Hx. simpl in Hx. unfold bind at 1 2 in Hx.
  destruct (ensure_movable who (c, x, n) w) as [[[]| |] w1] eqn:Hm; [|done..]. by apply ensure_movable_Ok in Hm as [Hl Ho].
Qed.

Lemma erc721_approve_effect series context s out s' : erc721_approve series context s = (Ok out, s') ->
  erc721_effect series (cx_caller context) (p_world s) (p_world s').
Proof.
  intros Hx. unfold erc721_approve in Hx. quiet Hx as u s1 Hw. quiet Hx as u' s2 Hw0. quiet Hx as to s3 Hw1.
  apply quiet_step in Hx as (serial & s4 & Hw2 & Hx); [|apply keeps_world_read_id]. apply dispatch_step in Hx as (s5 & Hd & Hx).
  apply returned_Ok in Hx as [-> _]. rewrite Hw2, Hw1, Hw0, Hw in *. apply on_approvals_Ok in Hd as (a & Ha & ->).
  unfold erc721_approval, bind, ensure_none, ret, ensure, fail, modify in Ha. case_bool_decide as Hne; [done|]. simpl in Ha.
  destruct (check_ownership _ _ _) eqn:Ho; [|done]. injection Ha as <-. apply Erc721Approved; [done|]. by apply Z.eqb_eq in Ho.
Qed.

Lemma erc721_transfer_from_effect series context s out s' : erc721_transfer_from series context s = (Ok out, s') ->
  erc721_effect series (cx_caller context) (p_world s) (p_world s').
Proof.
  intros Hx. unfold erc721_transfer_from in Hx. quiet Hx as u s1 Hw. quiet Hx as u' s2 Hw0. quiet Hx as from s3 Hw1. quiet Hx as to s4 Hw2.
  apply quiet_step in Hx as (serial & s5 & Hw3 & Hx); [|apply keeps_world_read_id]. quiet Hx as u'' s6 Hw4. apply gets_step in Hx.
  unfold approvals in Hx. rewrite Hw4, Hw3, Hw2, Hw1, Hw0, Hw in *.
  destruct (_ || _) eqn:Hc; [|done]. apply dispatch_step in Hx as (s7 & Hd & Hx). apply returned_Ok in Hx as [-> _]. rewrite Hw4 in Hd.
  destruct (transfer_of_owner _ _ _ _ _ Hd) as [Ho Hl]. eapply (Erc721Moved _ _ _ from to serial); [|done..|].
  - apply orb_true_iff in Hc as [Hc|Hc]; apply bool_decide_eq_true in Hc; auto.
  - intros Hne. unfold Nft.transfer in Hd. destruct (transfer_clears_approvals _ _ _ _ _ _ _ Hne Hd) as [Hcl _].
    rewrite Hcl, decide_True; [done|]. simpl. split; [done | by left].
Qed.

Lemma erc721_views series context sel : erc721_modifier sel = View -> keeps_world (erc721_action series context sel).
Proof.
  destruct sel; try done; intros _; simpl;
    unfold owner_of, erc721_balance_of, get_approved, series_symbol, erc721_token_uri, read_serial_number; auto 12 with precompile.
Qed.

Lemma erc721_action_effect series context sel s out s' : erc721_action series context sel s = (Ok out, s') ->
  erc721_effect series (cx_caller context) (p_world s) (p_world s').
Proof.
  intros Hx. destruct (erc721_modifier sel) eqn:Hm.
  - pose proof (erc721_views series context sel Hm s) as Hk. rewrite Hx in Hk. simpl in Hk. rewrite Hk. constructor.
  - destruct sel; try done; [by eapply erc721_transfer_from_effect | by eapply erc721_approve_effect].
  - by destruct sel.
Qed.

Lemma erc721_bounded series context sel : bounded (erc721_action series context sel).
Proof.
  destruct sel; simpl;
    unfold owner_of, erc721_balance_of, erc721_transfer_from, erc721_approve, get_approved, series_symbol, erc721_token_uri, read_serial_number, read_id;
    meter.
Qed.

(** C24: whatever input, gas and context an ERC-721 precompile is called with,
    a call that succeeds had one of three effects: none; an approval by the
    caller of a token its account owns; or the transfer of one unlisted token
    from its owner, who is the caller or has approved it for this token, an
    approval that the transfer uses up.  A static call changes nothing, no value
    is accepted, and the cost is within the gas limit. *)
Theorem erc721_calls_authorised address input gas context st w out w' :
  erc721_execute address input gas context st w = Some (Ok out, w') ->
  exists series, erc721_evm_id_to_runtime_id address = Some series /\
    erc721_effect series (cx_caller context) w w' /\ (st = true -> w' = w) /\ cx_apparent_value context <= 0 /\
    (forall limit, gas = Some limit -> 0 <= limit -> po_cost out <= limit).
Proof.
  unfold erc721_execute. destruct (erc721_evm_id_to_runtime_id address) as [series|]; [|done].
  destruct (negb _); [|done]. intros [= Hx].
  exists series. pose proof Hx as Hx'. apply execute_with_Ok in Hx' as (sel & r & s' & Ha & -> & Hst & Hv). split_and!; [done | | | |].
  - exact (erc721_action_effect _ _ _ _ _ _ Ha).
  - intros Hs%Hst. pose proof (erc721_views series context sel Hs (mkPState (Gasometer_new gas) r w)) as Hk. by rewrite Ha in Hk.
  - apply Hv. by destruct sel.
  - intros limit -> Hl. by eapply execute_within_gas; [apply erc721_bounded | | exact Hx].
Qed.
End Tokens.
