(* ===== verification/PrecompileCallers.v ===== *)
(** * Precompiles: calls on behalf of the caller, encodings and concrete runs

    The exchange, peg and NFT precompiles act for the account of their caller;
    two outputs are not what the ABI prescribes; and runs of the token
    precompiles on concrete storage. *)

From S2P Require Import Prelude Support GenericAssetTypes GenericAsset GenericAssetInv MultiCurrency AddressMapping TokenApprovals NftTypes Nft NftRuntime EthAbi Cennzx CennzxPricing EthBridgeTypes EthBridge EthBridgeSafety Issuance Erc20Peg Erc20PegRuntime Erc20PegDemo PrecompileData PrecompileDataProps PrecompileUtils EvmRuntime Precompiles PrecompileTheorems.

Section Callers.
Context `{GaConfig} {permill : PermillOps} {nft_config : NftConfig} `{Target} `{PrecompileEnv}.
Context {L B : Type} {currency : MultiCurrency L} `{Hashing} {bridge_ops : EventClaimVerifier B} {peg_config : PegConfig}.

(** A call of a pallet on the storage. *)
Lemma world_step {W A C} err (m : D W A) (k : A -> M PrecompileFailure (PState W) C) s c s' : bind (on_world err m) k s = (Ok c, s') ->
  exists a s1, m (p_world s) = (Ok a, p_world s1) /\ k a s1 = (Ok c, s').
Proof.
  unfold bind, on_world. destruct (m (p_world s)) as [[a| |] w]; [|done..]. intros Hk. by exists a, (mkPState (p_gas s) (p_input s) w).
Qed.

Lemma swap_effect caller (s : PState (Cennzx.State L)) out s' : swap_for_exact_cpay caller s = (Ok out, s') ->
  exists asset amount max_input paid,
    Cennzx.buy_fee_asset (account_of caller) (saturate BALANCE_BITS amount) (FeeExchange_new_v1 asset (saturate BALANCE_BITS max_input)) (p_world s)
    = (Ok paid, p_world s').
Proof.
  intros Hx. unfold swap_for_exact_cpay in Hx. quiet Hx as u s1 Hw.
  apply quiet_step in Hx as (asset & s2 & Hw0 & Hx); [|apply keeps_world_read_asset].
  quiet Hx as amount s3 Hw1. quiet Hx as max_input s4 Hw2. quiet Hx as u' s5 Hw3.
  apply world_step in Hx as (paid & s6 & Hb & Hx). apply returned_Ok in Hx as [-> _]. rewrite Hw3, Hw2, Hw1, Hw0, Hw in Hb.
  by exists asset, amount, max_input, paid.
Qed.

Lemma peg_withdraw_effect caller (s : PState (Erc20Peg.State B L)) out s' : peg_withdraw caller s = (Ok out, s') ->
  exists asset amount beneficiary proof_id,
    Erc20Peg.do_withdrawal (account_of caller) asset (saturate BALANCE_BITS amount) beneficiary Evm (p_world s) = (Ok proof_id, p_world s').
Proof.
  intros Hx. unfold peg_withdraw in Hx. quiet Hx as u s1 Hw.
  apply quiet_step in Hx as (asset & s2 & Hw0 & Hx); [|apply keeps_world_read_asset].
  quiet Hx as amount s3 Hw1. quiet Hx as beneficiary s4 Hw2. quiet Hx as u' s5 Hw3.
  apply world_step in Hx as (proof_id & s6 & Hb & Hx). apply returned_Ok in Hx as [-> _]. rewrite Hw3, Hw2, Hw1, Hw0, Hw in Hb.
  by exists asset, amount, beneficiary, proof_id.
Qed.

Lemma nft_mint_effect caller (s : PState World) out s' : nft_mint caller s = (Ok out, s') ->
  exists collection series quantity owner,
    Nft.mint_additional (Signed (account_of caller)) collection series quantity owner (p_world s) = (Ok tt, p_world s').
Proof.
  intros Hx. unfold nft_mint in Hx. quiet Hx as u s1 Hw. quiet Hx as u' s2 Hw0.
  apply quiet_step in Hx as (collection & s3 & Hw1 & Hx); [|apply keeps_world_read_id].
  apply quiet_step in Hx as (series & s4 & Hw2 & Hx); [|apply keeps_world_read_id].
  apply quiet_step in Hx as (quantity & s5 & Hw3 & Hx); [|apply keeps_world_read_id].
  quiet Hx as owner s6 Hw4. apply dispatch_step in Hx as (s7 & Hd & Hx). apply returned_Ok in Hx as [-> _].
  rewrite Hw4, Hw3, Hw2, Hw1, Hw0, Hw in Hd. by do 4 eexists.
Qed.

Lemma initialize_series_effect caller (s : PState World) out s' : initialize_series caller s = (Ok out, s') ->
  exists collection scheme royalties series,
    Nft.do_mint_series (account_of caller) collection 0 None scheme royalties (p_world s) = (Ok series, p_world s').
Proof.
  intros Hx. unfold initialize_series in Hx. quiet Hx as u s1 Hw.
  apply quiet_step in Hx as (collection & s2 & Hw0 & Hx); [|apply keeps_world_read_id].
  quiet Hx as mtype s3 Hw1. apply quiet_step in Hx as (u' & s4 & Hw2 & Hx); [|intros t; by destruct (_ <? mtype)].
  quiet Hx as path s5 Hw3. quiet Hx as scheme s6 Hw4. quiet Hx as addresses s7 Hw5. quiet Hx as entitlements s8 Hw6.
  apply quiet_step in Hx as (u'' & s9 & Hw7 & Hx); [|intros t; by destruct (_ =? _)%nat]. quiet Hx as u3 s10 Hw8.
  apply world_step in Hx as (series & s11 & Hb & Hx). apply returned_Ok in Hx as [-> _].
  rewrite Hw8, Hw7, Hw6, Hw5, Hw4, Hw3, Hw2, Hw1, Hw0, Hw in Hb. by do 4 eexists.
Qed.

(** C25: a successful call of the exchange, peg or NFT precompile is a purchase,
    a withdrawal, a minting or a new series in the name of the account of its
    caller and of nobody else, not in a static context and without value. *)
Theorem precompiles_act_for_caller input gas context st out :
  (forall (w w' : Cennzx.State L), cennzx_execute input gas context st w = (Ok out, w') -> st = false /\ cx_apparent_value context <= 0 /\
    exists asset amount max_input paid, Cennzx.buy_fee_asset (account_of (cx_caller context)) (saturate BALANCE_BITS amount)
      (FeeExchange_new_v1 asset (saturate BALANCE_BITS max_input)) w = (Ok paid, w')) /\
  (forall (w w' : Erc20Peg.State B L), peg_execute input gas context st w = (Ok out, w') -> st = false /\ cx_apparent_value context <= 0 /\
    exists asset amount beneficiary proof_id, Erc20Peg.do_withdrawal (account_of (cx_caller context)) asset (saturate BALANCE_BITS amount)
      beneficiary Evm w = (Ok proof_id, w')) /\
  (forall (w w' : World), nft_execute input gas context st w = (Ok out, w') -> st = false /\ cx_apparent_value context <= 0 /\
    ((exists collection series quantity owner,
        Nft.mint_additional (Signed (account_of (cx_caller context))) collection series quantity owner w = (Ok tt, w')) \/
     (exists collection scheme royalties series,
        Nft.do_mint_series (account_of (cx_caller context)) collection 0 None scheme royalties w = (Ok series, w')))).
Proof.
  assert (Hstatic : (st = true -> NonPayable = View) -> st = false) by (destruct st; [intros Hs; by specialize (Hs eq_refl) | done]).
  split_and!; intros w w' Hx; apply execute_with_Ok in Hx as (sel & r & s' & Ha & -> & Hst & Hv);
    (split; [by apply Hstatic|]); (split; [by apply Hv|]).
  - exact (swap_effect _ _ _ _ Ha).
  - exact (peg_withdraw_effect _ _ _ _ Ha).
  - destruct sel; [right; exact (initialize_series_effect _ _ _ _ Ha) | left; exact (nft_mint_effect _ _ _ _ Ha)].
Qed.

(** ** Encodings *)

(** What [getApproved] returns is read by a caller as the address 0x20,
    whatever account is approved: the address is written as a byte string. *)
Theorem approved_address_misread approved rest : addressable (build (write TyBytes approved writer_new) ++ rest) ->
  fst (read TyAddress (reader_new (build (write TyBytes approved writer_new) ++ rest))) = Ok (be_bytes 20 32).
Proof.
  assert (Hb : build (write TyBytes approved writer_new) = be_bytes 32 32 ++ bytes_data approved) by reflexivity.
  rewrite Hb, <- app_assoc. intros Hfit. unfold read, read_Address, bind, reader_new.
  pose proof (read_range_app 32 "tried to parse H160 out of bounds" [] (be_bytes 32 32) (bytes_data approved ++ rest) eq_refl Hfit) as Hr.
  cbn [app] in Hr. change (len []) with 0 in Hr. by rewrite Hr.
Qed.

(** The message of a revert cannot be decoded by the caller: its length, one
    byte of RLP, is put at the wrong end of its word. *)
Theorem revert_message_unreadable text : (forall n, 0 < n < 128 -> rlp_encode_usize n = [n]) -> (0 < length text < 128)%nat ->
  addressable (revert_buf text) ->
  fst (read TyBytes (reader_new (drop 4 (revert_buf text)))) = Err "bytes/string length is too large"%string.
Proof.
  intros Hrlp Hl Hfit. set (n := Z.of_nat (length text)).
  assert (Hbuf : drop 4 (revert_buf text) = be_bytes 32 32 ++ ([n] ++ replicate 31 0) ++ rlp_encode_bytes text).
  { unfold revert_buf. fold n. rewrite Hrlp by lia. set (m := rlp_encode_bytes text).
    assert (replicate (68 + length m) 0 = replicate 36 0 ++ [0] ++ replicate 31 0 ++ replicate (length m) 0) as ->
      by (rewrite replicate_add; reflexivity).
    set (e := error_selector_data_offset). set (z := replicate (length m) 0).
    assert (copy_slice 0 e (replicate 36 0 ++ [0] ++ replicate 31 0 ++ z) = e ++ [0] ++ replicate 31 0 ++ z) as ->
      by exact (copy_slice_app 0 [] e (replicate 36 0) ([0] ++ replicate 31 0 ++ z) eq_refl eq_refl).
    rewrite (copy_slice_app 36 e [n] [0]) by reflexivity.
    assert (copy_slice 68 m (e ++ [n] ++ replicate 31 0 ++ z) = e ++ [n] ++ replicate 31 0 ++ m) as ->.
    { pose proof (copy_slice_app 68 (e ++ [n] ++ replicate 31 0) m z [] eq_refl (length_replicate _ _)) as Hc.
      rewrite !app_nil_r, <- !app_assoc in Hc. exact Hc. }
    reflexivity. }
  assert (Hfit' : addressable (be_bytes 32 32 ++ ([n] ++ replicate 31 0) ++ rlp_encode_bytes text)).
  { rewrite <- Hbuf. unfold addressable, len in *. rewrite length_drop. lia. }
  rewrite Hbuf. clear Hbuf Hfit. set (m := rlp_encode_bytes text) in *.
  assert (Hword : length ([n] ++ replicate 31 0) = 32%nat) by reflexivity.
  assert (Hnum : be_number ([n] ++ replicate 31 0) = n * 256 ^ 31).
  { change ([n] ++ replicate 31 0) with [n;0;0;0;0;0;0;0;0;0;0;0;0;0;0;0;0;0;0;0;0;0;0;0;0;0;0;0;0;0;0;0]. unfold be_number. cbn [foldl]. lia. }
  set (word := [n] ++ replicate 31 0) in *. clearbody word.
  assert (Hp : points_to (be_bytes 32 32 ++ word ++ m) 0 (Dynamic (word ++ m))).
  { exists [], (word ++ m), (be_bytes 32 32), []. rewrite app_nil_r. split_and!; [|reflexivity | reflexivity].
    unfold len. rewrite be_bytes_length. reflexivity. }
  assert (Hpos : lt 0 (length (word ++ m))) by (rewrite length_app; lia).
  destruct (read_pointer_points _ 0 _ Hpos Hfit' Hp) as (back & Hr & Hback). rewrite <- app_assoc in Hr, Hback.
  unfold read, read_Bytes, reader_new. unfold bind at 1. rewrite Hr. unfold with_reader. cbn [fst].
  pose proof (read_range_app 32 "tried to parse U256 out of bounds" [] word (m ++ back) ltac:(unfold len; lia) Hback) as Hw.
  cbn [app] in Hw. change (len []) with 0 in Hw. unfold map_err, read_U256, bind. rewrite Hw. unfold ret, ok_or, to_usize. rewrite Hnum.
  rewrite (proj2 (Z.leb_gt _ _)); [done|]. pose proof usize_bits_range. unfold umax.
  assert (2 ^ usize_bits <= 2 ^ 64) by (apply Z.pow_le_mono_r; lia). lia.
Qed.
End Callers.

(** ** Concrete runs

    Alice holds 500 of asset 1000 and lets Bob spend 70; she owns collection 0
    with two tokens of series 0, and has approved Bob for one of them. *)
Module PrecompileDemo.
#[export] Existing Instance NftRuntime.Demo.permill.
#[export] Existing Instance NftRuntime.Demo.nft_config.
#[export] Existing Instance GenericAssetInv.Demo.config.
#[export] Existing Instance PrecompileDataProps.wasm_target.
#[export] Existing Instance CennzxPricing.DemoHash.hashing.
#[export] Existing Instance BridgeDemo.demo_config.
#[export] Existing Instance BridgeDemo.demo_env.
#[export] Existing Instance PegDemo.demo_peg.

(** A polynomial in place of Keccak-256, which tells the selectors apart. *)
#[export] Instance env : PrecompileEnv := {|
  keccak256 s := be_bytes 4 (foldl (fun h b => (h * 31 + b) mod 2 ^ 32) 7 (ascii_bytes s)) ++ replicate 28 0;
  rlp_encode_usize n := [n];
  rlp_encode_bytes l := (128 + Z.of_nat (length l)) :: l;
  debug_error _ := [];
  DbWeight_read := 25000000;
  WeightInfo _ quantity := 50000000 + 1000 * Z.max 0 quantity;
|}.

#[export] Instance env_laws : PrecompileEnvLaws.
Proof.
  split; [by vm_compute | intros call quantity; simpl; lia |]. intros signature.
  apply Forall_app_2; [apply be_bytes_are_bytes | by apply Forall_replicate].
Qed.

Definition alice : bytes := replicate 20 10.
Definition bob : bytes := replicate 20 11.
Definition carol : bytes := replicate 20 12.

Definition ledger0 : GenericAsset.State := Eval vm_compute in {|
  GenericAsset.TotalIssuance := {[1000 := 500]};
  GenericAsset.FreeBalance := {[(1000, account_of alice) := 500]};
  GenericAsset.ReservedBalance := ∅;
  GenericAsset.NextAssetId := 1001;
  GenericAsset.Permissions := ∅;
  GenericAsset.Locks := ∅;
  GenericAsset.StakingAssetId := 1;
  GenericAsset.SpendingAssetId := 2;
  GenericAsset.AssetMeta := ∅;
  GenericAsset.StorageVersion := 1;
  GenericAsset.sys := ∅;
  GenericAsset.events := [];
|}.

Definition start : World := Nft.mkState {[0 := account_of alice]} {[0 := ascii_bytes "art"]} ∅ ∅ ∅ ∅ 0 ∅ ∅ ∅ ∅ ∅ ∅ 1 ∅ ∅ 0 ∅ ∅ ∅ ∅ ∅ ∅ 0 7
  ledger0 (TokenApprovals.mkState {[(0, 0, 1) := bob]} {[(alice, 1000, bob) := 70]}) [].

Definition world : World := Eval vm_compute in
  (Nft.mint_series (Signed (account_of alice)) 0 2 None (Https (ascii_bytes "art.org")) None start).2.

(** A call by an address, without value. *)
Definition by_caller (caller : bytes) : Context := mkContext (replicate 20 0) caller 0.

Definition input_of (signature : string) (args : list Arg) : bytes := build (write_all args (writer_new_with_selector (selector signature))).

Definition erc20_input : bytes := Eval vm_compute in
  input_of "transferFrom(address,address,uint256)" [existT TyAddress alice; existT TyAddress carol; existT TyU256 30].
Definition erc20_run : outcome PrecompileFailure PrecompileOutput * World := Eval vm_compute in
  default (Panic, world) (erc20_execute (erc20_runtime_id_to_evm_id 1000) erc20_input (Some 100000) (by_caller bob) false world).

Definition erc721_input : bytes := Eval vm_compute in
  input_of "transferFrom(address,address,uint256)" [existT TyAddress alice; existT TyAddress carol; existT TyU256 1].
Definition erc721_run : outcome PrecompileFailure PrecompileOutput * World := Eval vm_compute in
  default (Panic, world) (erc721_execute (erc721_runtime_id_to_evm_id (0, 0)) erc721_input (Some 100000) (by_caller bob) false world).

Definition mint_input : bytes := Eval vm_compute in
  input_of "mint(uint32,uint32,uint32,address)" [existT TyU256 0; existT TyU256 0; existT TyU256 3; existT TyAddress H160_default].
Definition mint_run : outcome PrecompileFailure PrecompileOutput * World := Eval vm_compute in
  nft_execute mint_input (Some 100000) (by_caller alice) false world.

(** A deposit of 40 for Alice, then a withdrawal of 15 through the precompile. *)
Definition deposited : PegDemo.Peg := Eval vm_compute in
  (Erc20Peg.on_success 0 PegDemo.contract (replicate 32 8)
    (encode_Erc20DepositEvent (mkDeposit PegDemo.token 40 (into_account_id alice))) PegDemo.s0).2.
Definition peg_input : bytes := Eval vm_compute in
  input_of "withdraw(address,uint256,address)"
    [existT TyAddress (erc20_runtime_id_to_evm_id 1000); existT TyU256 15; existT TyAddress carol].
Definition peg_run := Eval vm_compute in peg_execute peg_input (Some 100000) (by_caller alice) false deposited.

Definition output_of {A} (r : outcome PrecompileFailure PrecompileOutput * A) : PrecompileOutput :=
  match r with (Ok out, _) => out | _ => mkOutput 0 [] [] end.
End PrecompileDemo.
Import PrecompileDemo.

(** Bob sends 30 of Alice's to Carol, and may spend 40 more. *)
Lemma erc20_calls_authorised_witness :
  erc20_approvals alice 1000 bob (Nft.subscriber erc20_run.2) = 40 /\
  GenericAsset.free_balance 1000 (account_of carol) (Nft.ledger erc20_run.2) = 30 /\
  exists asset, erc20_evm_id_to_runtime_id (erc20_runtime_id_to_evm_id 1000) = Some asset /\
    GenericAsset.total_issuance asset (Nft.ledger world) <> 0 /\ erc20_effect asset bob world erc20_run.2 /\
    (false = true -> erc20_run.2 = world) /\ 0 <= 0 /\
    (forall limit, Some 100000 = Some limit -> 0 <= limit -> po_cost (output_of erc20_run) <= limit).
Proof.
  split; [vm_compute; reflexivity|]. split; [vm_compute; reflexivity|].
  apply (erc20_calls_authorised (erc20_runtime_id_to_evm_id 1000) erc20_input (Some 100000) (by_caller bob) false world).
  vm_compute. reflexivity.
Defined.

(** Bob moves the token he is approved for to Carol, and is approved no more. *)
Lemma erc721_calls_authorised_witness :
  Nft.token_owner (0, 0, 1) erc721_run.2 = account_of carol /\ erc721_approvals (0, 0, 1) (Nft.subscriber erc721_run.2) = H160_default /\
  exists series, erc721_evm_id_to_runtime_id (erc721_runtime_id_to_evm_id (0, 0)) = Some series /\
    erc721_effect series bob world erc721_run.2 /\ (false = true -> erc721_run.2 = world) /\ 0 <= 0 /\
    (forall limit, Some 100000 = Some limit -> 0 <= limit -> po_cost (output_of erc721_run) <= limit).
Proof.
  split; [vm_compute; reflexivity|]. split; [vm_compute; reflexivity|].
  apply (erc721_calls_authorised (erc721_runtime_id_to_evm_id (0, 0)) erc721_input (Some 100000) (by_caller bob) false world).
  vm_compute. reflexivity.
Defined.

(** The event of that transfer names Bob as the sender of Alice's token. *)
Lemma transfer_event_names_operator : Nft.token_owner (0, 0, 1) world = account_of alice /\ exists log, po_logs (output_of erc721_run) = [log] /\
  log_topics log = [SELECTOR_LOG_TRANSFER; replicate 12 0 ++ bob; replicate 12 0 ++ carol].
Proof. split; [vm_compute; reflexivity|]. eexists. split; vm_compute; reflexivity. Qed.

(** Alice mints three more tokens, and withdraws 15 of her 40. *)
Lemma precompiles_act_for_caller_witness :
  ((exists collection series quantity owner,
      Nft.mint_additional (Signed (account_of alice)) collection series quantity owner world = (Ok tt, mint_run.2)) \/
   (exists collection scheme royalties series,
      Nft.do_mint_series (account_of alice) collection 0 None scheme royalties world = (Ok series, mint_run.2))) /\
  GenericAsset.free_balance 1000 (account_of alice) (Erc20Peg.ledger peg_run.2) = 25 /\
  exists asset amount beneficiary proof_id, Erc20Peg.do_withdrawal (account_of alice) asset (saturate BALANCE_BITS amount)
    beneficiary Evm deposited = (Ok proof_id, peg_run.2).
Proof.
  split; [|split; [vm_compute; reflexivity|]].
  - refine (proj2 (proj2 (proj2 (proj2 (precompiles_act_for_caller (L := GenericAsset.State) (B := BridgeState BridgeDemo.World)
      mint_input (Some 100000) (by_caller alice) false (output_of mint_run))) world mint_run.2 _))). vm_compute. reflexivity.
  - refine (proj2 (proj2 (proj1 (proj2 (precompiles_act_for_caller (L := GenericAsset.State) (B := BridgeState BridgeDemo.World)
      peg_input (Some 100000) (by_caller alice) false (output_of peg_run))) deposited peg_run.2 _))). vm_compute. reflexivity.
Defined.

Lemma approved_address_misread_witness :
  fst (read TyAddress (reader_new (build (write TyBytes bob writer_new) ++ []))) = Ok (be_bytes 20 32).
Proof. apply (approved_address_misread bob []). vm_compute. discriminate. Defined.

Lemma revert_message_unreadable_witness :
  fst (read TyBytes (reader_new (drop 4 (revert_buf (ascii_bytes "function is not payable"))))) = Err "bytes/string length is too large"%string.
Proof.
  apply (revert_message_unreadable (ascii_bytes "function is not payable")); [intros n _; reflexivity | vm_compute; split; lia | vm_compute; discriminate].
Defined.
