(* ===== verification/OraclePrecompile.v ===== *)
(** * The state oracle precompile

    [src/evm-precompiles/state-oracle/src/lib.rs]: contracts ask for the result
    of a call on Ethereum.  An encoded call is served with exactly the arguments
    that were encoded, and whatever the input, a request is recorded for the
    caller and for nobody else. *)

From S2P Require Import Prelude Support GenericAssetTypes GenericAsset GenericAssetInv MultiCurrency AddressMapping EthAbi NftTypes EthStateOracle EthStateOracleRuntime PrecompileData PrecompileDataProps PrecompileUtils EvmRuntime Precompiles PrecompileTheorems PrecompileCallers.

Inductive OracleAction := RemoteCall | RemoteCallWithFeeSwap.

Definition oracle_actions : list (OracleAction * string) :=
  [(RemoteCall, "remoteCall(address,bytes,bytes4,uint256,uint256)"%string);
   (RemoteCallWithFeeSwap, "remoteCallWithFeeSwap(address,bytes,bytes4,uint256,uint256,address,uint32)"%string)].

(** [Permill::from_rational] of a [u32] over 1000, which is exact. *)
Definition permill_of_thousandths (n : Z) : Z := Z.min n 1000 * 1000.

(** The next argument of an encoded call is read. *)
Ltac next_argument Hl :=
  match type of Hl with
  | laid (existT ?t ?v :: ?args) _ =>
      match goal with
      | |- context [bind (on_input (read t)) ?k (mkPState ?g ?r ?w)] =>
          let r' := fresh "r" in destruct (input_step t v args k g r w Hl) as (r' & ? & ->); clear Hl; rename select (laid args r') into Hl; cbv beta
      end
  end.

Section Precompile.
Context `{Target} `{PrecompileEnv}.
Context {E : Type} {currency : MultiCurrency E} {oenv : OracleEnv E} {config : OracleConfig}.
Abbreviation St := (EthStateOracle.State E).
Abbreviation P := (M PrecompileFailure (PState St)).

(** The charge, the request and the output, which both actions end with. *)
Definition make_request (caller destination : bytes) (input_data callback_signature : bytes) (callback_gas_limit : Z)
    (fee_preferences : option FeePreferences) (callback_bounty : Balance) : P PrecompileOutput :=
  do* record_cost new_request_fee in
  let* request_id := on_world (fun e g => Revert (ascii_bytes "Request failed: " ++ debug_error e) (used_gas g))
    (new_request caller destination input_data callback_signature (wrap 64 callback_gas_limit) fee_preferences callback_bounty) in
  returned (build (PrecompileData.write TyU256 request_id writer_new)) [].

Definition remote_call (caller : bytes) : P PrecompileOutput :=
  do* on_input (expect_arguments 5) in
  let* destination := on_input (read TyAddress) in
  let* input_data := on_input (read TyBytes) in
  let* callback_signature := on_input (read TyH256) in
  let callback_signature := take 4 callback_signature in
  let* callback_gas_limit := on_input (read TyU256) in
  let* callback_bounty := on_input (read TyU256) in
  let callback_bounty := scale_wei_to_4dp (saturate BALANCE_BITS callback_bounty) in
  make_request caller destination input_data callback_signature callback_gas_limit None callback_bounty.

Definition remote_call_with_fee_swap (caller : bytes) : P PrecompileOutput :=
  do* on_input (expect_arguments 7) in
  let* destination := on_input (read TyAddress) in
  let* input_data := on_input (read TyBytes) in
  let* callback_signature := on_input (read TyH256) in
  let callback_signature := take 4 callback_signature in
  let* callback_gas_limit := on_input (read TyU256) in
  let* callback_bounty := on_input (read TyU256) in
  let callback_bounty := scale_wei_to_4dp (saturate BALANCE_BITS callback_bounty) in
  let* asset_id := read_asset in
  let* slippage := on_input (read TyU256) in
  let fee_preferences := Some (mkFeePreferences asset_id (permill_of_thousandths (wrap 32 slippage))) in
  make_request caller destination input_data callback_signature callback_gas_limit fee_preferences callback_bounty.

Definition oracle_action (caller : bytes) (selector : OracleAction) : P PrecompileOutput :=
  match selector with RemoteCall => remote_call caller | RemoteCallWithFeeSwap => remote_call_with_fee_swap caller end.

Definition oracle_execute (input : bytes) (target_gas : option Z) (context : Context) (is_static : bool) (s : St)
    : outcome PrecompileFailure PrecompileOutput * St :=
  execute_with oracle_actions (fun _ => NonPayable) (oracle_action (cx_caller context)) input target_gas context is_static s.

(** ** Requests *)
Implicit Types s : St.

(** What a request adds to the storage. *)
Definition requested_of (caller destination input_data callback_signature : bytes) (gas_limit : Z) (prefs : option FeePreferences)
    (bounty : Balance) s : CallRequest :=
  mkRequest destination caller gas_limit callback_signature prefs bounty (or_now (env s))
    (wrapping_add EthBridgeTypes.U32 (block_number s) ChallengePeriod) input_data.

Definition with_request (request : CallRequest) s : St :=
  let id := NextRequestId (oracle s) in
  on_oracle (set_RequestsExpiredAtBlock (append (rq_expiry_block request) id)) (on_oracle (set_RequestsThisBlock (fun i => wrapping_add 32 i 1))
    (on_oracle (set_NextRequestId (fun i => i + 1)) (on_oracle (set_Requests (insert id request)) s))).

(** There is room for a request, and somebody to challenge its answer. *)
Definition accepting s : bool :=
  (RequestsThisBlock (oracle s) <? MaxRequestsPerBlock) && negb (Z.of_nat (size (ChallengerBonds (oracle s))) =? 0).

Lemma new_request_run caller destination input_data sig gas_limit prefs bounty s : NextRequestId (oracle s) < umax 256 ->
  accepting s = true ->
  new_request caller destination input_data sig gas_limit prefs bounty s =
    (Ok (NextRequestId (oracle s)), with_request (requested_of caller destination input_data sig gas_limit prefs bounty s) s).
Proof.
  intros Hid Ha. apply andb_true_iff in Ha as [Hroom Hch]. unfold new_request, bind at 1, gets. rewrite Hroom, Hch.
  unfold ensure, bind, ret. cbv iota. unfold EthStateOracle.write, modify. cbv iota. rewrite (proj2 (Z.leb_le _ _)) by lia. reflexivity.
Qed.

Lemma new_request_inv caller destination input_data sig gas_limit prefs bounty s id s' :
  new_request caller destination input_data sig gas_limit prefs bounty s = (Ok id, s') ->
  accepting s = true /\ id = NextRequestId (oracle s) /\ id < umax 256 /\
  s' = with_request (requested_of caller destination input_data sig gas_limit prefs bounty s) s.
Proof.
  intros Hn. assert (accepting s = true /\ NextRequestId (oracle s) < umax 256) as [Ha Hid].
  { revert Hn. unfold accepting, new_request, bind at 1, gets. destruct (_ <? MaxRequestsPerBlock); [|done].
    unfold ensure, bind, ret at 1. cbv iota. destruct (negb _); [|done]. unfold ret, EthStateOracle.write, modify. cbv iota.
    destruct (Z.leb_spec (NextRequestId (oracle s) + 1) (umax 256)); [|done]. intros _. split; [done | lia]. }
  rewrite new_request_run in Hn by done. injection Hn as <- <-. done.
Qed.

(** ** Encoded requests *)
Context {laws : PrecompileEnvLaws}.

Lemma make_request_run caller destination input_data sig gas_limit prefs bounty limit r s :
  0 <= new_request_fee <= limit -> limit <= umax 64 -> accepting s = true -> NextRequestId (oracle s) < umax 256 ->
  (let '(res, s') := make_request caller destination input_data sig gas_limit prefs bounty (mkPState (Gasometer_new (Some limit)) r s)
   in (res, p_world s')) =
  (Ok (mkOutput new_request_fee (build (PrecompileData.write TyU256 (NextRequestId (oracle s)) writer_new)) []),
   with_request (requested_of caller destination input_data sig (wrap 64 gas_limit) prefs bounty s) s).
Proof.
  intros Hf Hl Ha Hid. unfold make_request, Gasometer_new. rewrite charge_step by lia.
  unfold bind at 1, on_world. cbn [p_world p_gas p_input]. rewrite new_request_run by done. reflexivity.
Qed.

(** The encoded calls of the two actions. *)
Definition call_args (destination input_data callback_signature : bytes) (gas_limit bounty : Z) : list Arg :=
  [existT TyAddress destination; existT TyBytes input_data; existT TyH256 callback_signature; existT TyU256 gas_limit; existT TyU256 bounty].

Definition encoded (signature : string) (args : list Arg) : bytes := build (write_all args (writer_new_with_selector (selector signature))).

Lemma read_call_args destination input_data callback_signature gas_limit bounty args data {A} g s
    (k : bytes -> bytes -> bytes -> Z -> Z -> P A) :
  laid (call_args destination input_data callback_signature gas_limit bounty ++ args) (mkReader data 0) ->
  exists r, laid args r /\
    (let* destination := on_input (read TyAddress) in
     let* input_data := on_input (read TyBytes) in
     let* callback_signature := on_input (read TyH256) in
     let* callback_gas_limit := on_input (read TyU256) in
     let* callback_bounty := on_input (read TyU256) in
     k destination input_data callback_signature callback_gas_limit callback_bounty) (mkPState g (mkReader data 0) s) =
    k destination input_data callback_signature gas_limit bounty (mkPState g r s).
Proof.
  intros Hl. unfold call_args in Hl. cbn [app] in Hl. do 5 next_argument Hl. by eexists.
Qed.

(** C26: a call encoded as [remoteCall], without value and with gas for the fee,
    is served when the oracle accepts requests (a challenger is there and the
    block has room): the request recorded under the next id has exactly the
    encoded destination, input data and selector, the caller, the bounty
    saturated to a balance and scaled from wei, and the low 64 bits of the gas
    limit, which are all of it below [2^64]; the id is returned and the fee of a
    request charged. *)
Theorem remote_call_served destination input_data callback_signature gas_limit bounty limit context s :
  let args := call_args destination input_data callback_signature gas_limit bounty in
  let input := encoded "remoteCall(address,bytes,bytes4,uint256,uint256)" args in
  Forall valid_arg args -> addressable input -> cx_apparent_value context <= 0 ->
  0 <= new_request_fee <= limit -> limit <= umax 64 -> accepting s = true -> NextRequestId (oracle s) < umax 256 ->
  oracle_execute input (Some limit) context false s =
  (Ok (mkOutput new_request_fee (build (PrecompileData.write TyU256 (NextRequestId (oracle s)) writer_new)) []),
   with_request (requested_of (cx_caller context) destination input_data (take 4 callback_signature) (wrap 64 gas_limit) None
     (scale_wei_to_4dp (saturate BALANCE_BITS bounty)) s) s).
Proof.
  intros args input Hargs Hfit Hv Hf Hl Ha Hid. unfold oracle_execute.
  destruct (execute_encoded oracle_actions (fun _ => NonPayable) (oracle_action (cx_caller context))
    "remoteCall(address,bytes,bytes4,uint256,uint256)" RemoteCall args (Some limit) context s) as (data & Hd & Hlen & Hx);
    [unfold try_from_primitive; simpl; by rewrite Z.eqb_refl | done | done | done | done |].
  etransitivity; [exact Hx|]. cbn [oracle_action]. unfold remote_call. rewrite (expect_step 5 args) by done.
  destruct (read_call_args destination input_data callback_signature gas_limit bounty [] data (Gasometer_new (Some limit)) s
    (fun d i c g b => make_request (cx_caller context) d i (take 4 c) g None (scale_wei_to_4dp (saturate BALANCE_BITS b)))) as (r & _ & Hr);
    [exact Hd|]. cbv zeta. rewrite Hr. by apply make_request_run.
Qed.

Lemma asset_step {A} asset args (k : AssetId -> P A) g r s : in_range 32 asset ->
  laid (existT TyAddress (erc20_runtime_id_to_evm_id asset) :: args) r ->
  exists r', laid args r' /\ bind read_asset k (mkPState g r s) = k asset (mkPState g r' s).
Proof.
  intros Ha Hl. unfold bind at 1, read_asset. next_argument Hl.
  assert (erc20_evm_id_to_runtime_id (erc20_runtime_id_to_evm_id asset) = Some asset) as ->.
  { rewrite erc20_address_eq. change (Some (be_number (be_bytes 4 asset)) = Some asset). by rewrite word_back. }
  by eexists.
Qed.

(** With [remoteCallWithFeeSwap] the request also names the asset whose ERC-20
    address was given, and the slippage in thousandths, at most all of it. *)
Theorem fee_swap_call_served destination input_data callback_signature gas_limit bounty asset slippage limit context s :
  let args := call_args destination input_data callback_signature gas_limit bounty ++
    [existT TyAddress (erc20_runtime_id_to_evm_id asset); existT TyU256 slippage] in
  let input := encoded "remoteCallWithFeeSwap(address,bytes,bytes4,uint256,uint256,address,uint32)" args in
  selector "remoteCall(address,bytes,bytes4,uint256,uint256)" <>
    selector "remoteCallWithFeeSwap(address,bytes,bytes4,uint256,uint256,address,uint32)" -> in_range 32 asset -> in_range 32 slippage ->
  Forall valid_arg args -> addressable input -> cx_apparent_value context <= 0 ->
  0 <= new_request_fee <= limit -> limit <= umax 64 -> accepting s = true -> NextRequestId (oracle s) < umax 256 ->
  oracle_execute input (Some limit) context false s =
  (Ok (mkOutput new_request_fee (build (PrecompileData.write TyU256 (NextRequestId (oracle s)) writer_new)) []),
   with_request (requested_of (cx_caller context) destination input_data (take 4 callback_signature) (wrap 64 gas_limit)
     (Some (mkFeePreferences asset (Z.min 1000000 (1000 * slippage)))) (scale_wei_to_4dp (saturate BALANCE_BITS bounty)) s) s).
Proof.
  intros args input Hsel Hasset Hslip Hargs Hfit Hv Hf Hl Ha Hid. unfold oracle_execute.
  destruct (execute_encoded oracle_actions (fun _ => NonPayable) (oracle_action (cx_caller context))
    "remoteCallWithFeeSwap(address,bytes,bytes4,uint256,uint256,address,uint32)" RemoteCallWithFeeSwap args (Some limit) context s)
    as (data & Hd & Hlen & Hx);
    [unfold try_from_primitive; cbn [List.find oracle_actions snd]; by rewrite (proj2 (Z.eqb_neq _ _) Hsel), Z.eqb_refl | done | done | done | done |].
  etransitivity; [exact Hx|]. cbn [oracle_action]. unfold remote_call_with_fee_swap. rewrite (expect_step 7 args) by done.
  destruct (read_call_args destination input_data callback_signature gas_limit bounty
    [existT TyAddress (erc20_runtime_id_to_evm_id asset); existT TyU256 slippage] data (Gasometer_new (Some limit)) s
    (fun d i c g b => let* asset_id := read_asset in let* slippage := on_input (read TyU256) in
       make_request (cx_caller context) d i (take 4 c) g (Some (mkFeePreferences asset_id (permill_of_thousandths (wrap 32 slippage))))
         (scale_wei_to_4dp (saturate BALANCE_BITS b)))) as (r & Hr & Hrun); [exact Hd|].
  cbv zeta. rewrite Hrun. clear Hrun. destruct (asset_step asset _ (fun a => let* slippage := on_input (read TyU256) in
       make_request (cx_caller context) destination input_data (take 4 callback_signature) gas_limit
         (Some (mkFeePreferences a (permill_of_thousandths (wrap 32 slippage)))) (scale_wei_to_4dp (saturate BALANCE_BITS bounty)))
    (Gasometer_new (Some limit)) r s Hasset Hr) as (r' & Hr' & ->). next_argument Hr'.
  rewrite make_request_run, (wrap_small 32 slippage) by done.
  assert (permill_of_thousandths slippage = Z.min 1000000 (1000 * slippage)) as -> by (unfold permill_of_thousandths; lia). reflexivity.
Qed.

(** ** Any input *)
Lemma make_request_effect caller destination input_data sig gas_limit prefs bounty (s : PState St) out (s' : PState St) :
  make_request caller destination input_data sig gas_limit prefs bounty s = (Ok out, s') ->
  new_request caller destination input_data sig (wrap 64 gas_limit) prefs bounty (p_world s) = (Ok (NextRequestId (oracle (p_world s))), p_world s') /\
  po_output out = be_bytes 32 (NextRequestId (oracle (p_world s))).
Proof.
  intros Hx. unfold make_request in Hx. quiet Hx as u s1 Hw. unfold bind at 1, on_world in Hx. rewrite Hw in Hx.
  destruct (new_request _ _ _ _ _ _ _ _) as [[id| |] w] eqn:Hn; [|done..]. rewrite <- Hn.
  unfold returned, bind, gets, ret in Hx. injection Hx as <- <-. cbn [p_world po_output].
  destruct (new_request_inv _ _ _ _ _ _ _ _ _ _ Hn) as (_ & -> & _). done.
Qed.

Lemma make_request_bounded caller destination input_data sig gas_limit prefs bounty : 0 <= new_request_fee ->
  bounded (make_request caller destination input_data sig gas_limit prefs bounty).
Proof.
  intros Hf. apply bounded_bind; [by apply metered_record_cost|]. intros _. apply bounded_bind; [apply metered_on_world|]. intros id. apply bounded_returned.
Qed.

Lemma oracle_bounded caller sel : 0 <= new_request_fee -> bounded (oracle_action caller sel).
Proof.
  intros Hf. destruct sel; simpl; unfold remote_call, remote_call_with_fee_swap;
    repeat first [apply make_request_bounded; exact Hf | apply bounded_bind; [first [apply metered_on_input |
      unfold read_asset; apply metered_bind; [apply metered_on_input | intros address; apply metered_frame; intros t; by destruct (erc20_evm_id_to_runtime_id address)]]
      | intros ?]].
Qed.

Lemma oracle_action_effect caller sel (s : PState St) out (s' : PState St) : oracle_action caller sel s = (Ok out, s') ->
  exists destination input_data sig gas_limit prefs bounty,
    new_request caller destination input_data (take 4 sig) (wrap 64 gas_limit) prefs (scale_wei_to_4dp (saturate BALANCE_BITS bounty)) (p_world s)
    = (Ok (NextRequestId (oracle (p_world s))), p_world s') /\ po_output out = be_bytes 32 (NextRequestId (oracle (p_world s))) /\
    match prefs with Some fp => fp_slippage fp <= 1000000 | None => True end.
Proof.
  intros Hx. destruct sel; cbn [oracle_action] in Hx; unfold remote_call, remote_call_with_fee_swap in Hx;
    quiet Hx as u s1 Hw; quiet Hx as d s2 Hw2; quiet Hx as i s3 Hw3; quiet Hx as c s4 Hw4; quiet Hx as g s5 Hw5; quiet Hx as b s6 Hw6.
  - apply make_request_effect in Hx as [Hn Ho]. rewrite Hw6, Hw5, Hw4, Hw3, Hw2, Hw in *. by do 6 eexists.
  - apply quiet_step in Hx as (a & s7 & Hw7 & Hx); [|apply keeps_world_read_asset]. quiet Hx as sl s8 Hw8.
    apply make_request_effect in Hx as [Hn Ho]. rewrite Hw8, Hw7, Hw6, Hw5, Hw4, Hw3, Hw2, Hw in *. do 6 eexists.
    split; [exact Hn|]. split; [done|]. cbn. unfold permill_of_thousandths. lia.
Qed.

(** Whatever the input, a successful call of the state oracle precompile records
    one request under the next id, which it returns: the request is the caller's,
    with a 64-bit gas limit and a selector of at most four bytes, within the number a block may
    take and with a challenger around; nothing else of the oracle's requests,
    responses and bonds changes.  The cost is within the gas limit, and static
    calls and calls with value fail. *)
Theorem remote_calls_for_caller input gas context st s out s' : 0 <= new_request_fee ->
  oracle_execute input gas context st s = (Ok out, s') ->
  st = false /\ cx_apparent_value context <= 0 /\ (forall limit, gas = Some limit -> 0 <= limit -> po_cost out <= limit) /\
  po_output out = be_bytes 32 (NextRequestId (oracle s)) /\
  RequestsThisBlock (oracle s) < MaxRequestsPerBlock /\ ChallengerBonds (oracle s) <> ∅ /\
  exists request, rq_caller request = cx_caller context /\ (length (rq_callback_signature request) <= 4)%nat /\
    in_range 64 (rq_callback_gas_limit request) /\
    match rq_fee_preferences request with Some fp => fp_slippage fp <= 1000000 | None => True end /\ s' = with_request request s.
Proof.
  intros Hf Hx. pose proof Hx as Hx'. apply execute_with_Ok in Hx' as (sel & r & t & Ha & -> & Hst & Hv).
  apply oracle_action_effect in Ha as (d & i & sig & g & prefs & b & Hn & Ho & Hp). cbn [p_world] in *.
  apply new_request_inv in Hn as (Hacc & _ & _ & Hs). apply andb_true_iff in Hacc as [Hroom Hch]. split_and!.
  - destruct st; [by specialize (Hst eq_refl) | done].
  - by apply Hv.
  - intros limit -> Hl. exact (execute_within_gas _ _ _ _ _ _ _ _ _ _ (fun sel => oracle_bounded _ sel Hf) Hl Hx).
  - done.
  - by apply Z.ltb_lt.
  - intros Hempty. rewrite Hempty, map_size_empty in Hch. done.
  - eexists. split_and!; [| | | | exact Hs]; cbn; [done | rewrite length_take; lia | by apply wrap_range | done].
Qed.
End Precompile.

(** ** The demo oracle

    A contract asks for a call with a bounty of two and a bit CPAY units. *)
Module OraclePrecompileDemo.
#[export] Existing Instance GenericAssetInv.Demo.config.
#[export] Existing Instance OracleDemo.demo_config.
#[export] Existing Instance OracleDemo.demo_env.
#[export] Existing Instance PrecompileDemo.env.
#[export] Existing Instance PrecompileDemo.env_laws.
#[export] Existing Instance PrecompileDataProps.wasm_target.

Definition contract : bytes := replicate 20 13.
Definition target : bytes := replicate 20 14.
Definition args : list Arg := call_args target [7; 8; 9] ([1; 2; 3; 4] ++ replicate 28 0) 50000 (2 * 10 ^ 14 + 1).
Definition input : bytes := Eval vm_compute in encoded "remoteCall(address,bytes,bytes4,uint256,uint256)" args.
Definition served : EthStateOracle.State GenericAsset.State := (oracle_execute input (Some 10000) (mkContext contract contract 0) false OracleDemo.relayer).2.
End OraclePrecompileDemo.
Import OraclePrecompileDemo.

Lemma args_valid : Forall valid_arg args.
Proof.
  repeat (apply Forall_cons; split); try apply Forall_nil_2; unfold valid_arg; cbn;
    repeat first [apply conj | apply Forall_cons | apply Forall_nil_2]; unfold is_byte; try done; try lia.
Qed.

(** The request is recorded with a bounty of three units, the wei rounded up. *)
Lemma remote_call_served_witness :
  let request := mkRequest target contract 50000 [1; 2; 3; 4] None 3 1000 1 [7; 8; 9] in
  oracle_execute input (Some 10000) (mkContext contract contract 0) false OracleDemo.relayer =
  (Ok (mkOutput 1875 (be_bytes 32 0) []), with_request request OracleDemo.relayer) /\
  Requests (oracle served) !! 0 = Some request.
Proof.
  split; [|vm_compute; reflexivity].
  assert (Hfit : addressable input) by (vm_compute; discriminate).
  assert (Hf : 0 <= new_request_fee <= 10000) by (vm_compute; split; discriminate).
  assert (Hl : 10000 <= umax 64) by (vm_compute; discriminate).
  assert (Ha : accepting OracleDemo.relayer = true) by (vm_compute; reflexivity).
  assert (Hid : NextRequestId (oracle OracleDemo.relayer) < umax 256) by (vm_compute; reflexivity).
  exact (remote_call_served target [7; 8; 9] ([1; 2; 3; 4] ++ replicate 28 0) 50000 (2 * 10 ^ 14 + 1) 10000 (mkContext contract contract 0)
    OracleDemo.relayer args_valid Hfit (Z.le_refl 0) Hf Hl Ha Hid).
Defined.

Lemma remote_calls_for_caller_witness :
  exists request, rq_caller request = contract /\ (length (rq_callback_signature request) <= 4)%nat /\
    served = with_request request OracleDemo.relayer.
Proof.
  assert (Hf : 0 <= new_request_fee) by (vm_compute; discriminate).
  assert (Hx : oracle_execute input (Some 10000) (mkContext contract contract 0) false OracleDemo.relayer =
    (Ok (mkOutput 1875 (be_bytes 32 0) []), served)) by (vm_compute; reflexivity).
  destruct (remote_calls_for_caller input (Some 10000) (mkContext contract contract 0) false OracleDemo.relayer _ served Hf Hx)
    as (_ & _ & _ & _ & _ & _ & request & Hc & Hl & _ & _ & Hs).
  exists request. split; [exact Hc|]. split; [exact Hl | exact Hs].
Defined.
